(* ===== verification/_CoqProject ===== *)
-Q . S2P
Prelude.v
Serializable.v
BitVector.v
Peer.v
OpenSSL.v
Schnorr.v
MultiSig.v
ConsensusMessages.v
ConsensusCommon.v
ConsensusBackup.v
ConsensusLeader.v
LeaderProperties.v
ConsensusSession.v
TxnPool.v
LevelDB.v
Json.v
Receipt.v
AccountStore.v
RumorSpreading.v
BlockChain.v
BlockLinkChain.v
Blocks.v
Committee.v
BlockStorage.v
Validator.v
Decision.v
ContractStorage.v
ContractAccount.v
AccountStoreSC.v
ContractProperties.v
ContractTermination.v
AccountMessages.v
StateDelta.v
DeltaProperties.v
DeltaExamples.v
TxnSelection.v
SelectionProperties.v
ExecutionProperties.v
TxnExecution.v
TxnOrder.v
MicroBlock.v
MicroBlockProperties.v
MicroBlockExamples.v
Coinbase.v
CoinbaseProperties.v
Reputation.v
Sharding.v
ShardingProperties.v
PoW.v
PoWProperties.v
PoWSubmission.v
SubmissionProperties.v
DSBlockProposal.v
ProposalProperties.v
ProposalAcceptance.v
ProposalSoundness.v
ProposalExamples.v
MicroBlockSubmission.v
FinalBlock.v
FinalBlockProperties.v
FinalBlockAgreement.v
FinalBlockExamples.v
ViewChange.v
ViewChangeProperties.v
ViewChangeExamples.v
