(* ===== verification/Prelude.v ===== *)
(** * The core of a Zilliqa node: a verification development

    The repository is a node of the Zilliqa blockchain.  The network is divided into
    shards; the nodes of a shard execute transactions and agree on a micro block, the
    directory committee agrees on directory blocks (who belongs to which committee)
    and on final blocks.  Every agreement is a two-round protocol in which a leader
    collects an EC-Schnorr multisignature from its committee.  This library models
    that protocol down to its bytes, and what is agreed on: the blocks and their
    chains, the committees, the proofs of work that elect and shard them, the rewards,
    the pool and the selection of transactions, their execution with contracts, the
    account deltas and the storage.

    ** Parts of the program and files of the library

    Shared:
    - [Prelude.v] (this file): machine integers, byte strings, bit maps, the
      [outcome] monad (a value, or a fault: an exception of a checked container
      access, a null dereference, a random draw that has not ended), tactics and
      the hint database [zil].

    Signatures and consensus:
    - [Serializable.v]: [common/Serializable.h], [GetNumber] and [SetNumber].
    - [BitVector.v]: [libUtils/BitVector.cpp], the wire format of bit maps.
    - [Peer.v]: [libNetwork/Peer.cpp], node addresses, their order and bytes.
    - [OpenSSL.v]: the interface to the bundled OpenSSL.  Class [OpenSSL] has the
      operations the source calls (big numbers, points of secp256k1, SHA-256),
      [OpenSSLSpec] their documented laws, [OpenSSLNoFail] that allocation does
      not fail.  Module [Cyclic] is an instance (a cyclic group of prime order
      with a toy digest) on which everything is executed.
    - [Schnorr.v]: [libCrypto/Schnorr.cpp], [PrivKey.cpp], [PubKey.cpp],
      [Signature.cpp], [BIGNUMSerialize.cpp], [ECPOINTSerialize.cpp].
    - [MultiSig.v]: [libCrypto/MultiSig.cpp].  An object of the protocol is a
      value with its [m_initialized] flag, as in the source.
    - [ConsensusMessages.v]: the consensus messages of [libMessage/Messenger.cpp].
      Class [Proto] is the protobuf encoding of a message body, [ProtoSpec] that
      decoding inverts encoding.
    - [ConsensusCommon.v]: [libConsensus/ConsensusCommon.cpp]; the record
      [ConsensusCommon] has the members of the class, [effect] lists what a handler
      makes other objects do (send, spread, start a timer, call a handler).
    - [ConsensusBackup.v], [ConsensusLeader.v] (Module [Leader]): one definition
      per member function; a handler maps the object's state, its random input and
      a message to the result, the new state and the effects.
    - [LeaderProperties.v]: the theorems about the leader.
    - [ConsensusSession.v]: a leader and its backups run through both rounds on
      real message bytes, and the witnesses taken from these runs.
    - [RumorSpreading.v]: [libRumorSpreading/RumorStateMachine.cpp] and
      [RumorHolder.cpp], the gossip of messages.

    Blocks, committees and storage:
    - [BlockChain.v]: [CircularArray.h] and [BlockChain.h], the blocks in memory;
      class [Block] is what the chain needs of a block.
    - [BlockLinkChain.v]: [BlockLinkChain.cpp], the links between directory blocks.
    - [Blocks.v]: headers, blocks and the co-signature checks of the six block
      handlers of [libNode], [libDirectoryService] and [libValidator].
    - [Committee.v]: the handlers of [libNode] and [libDirectoryService]
      ([DSBlockProcessing.cpp], [DSBlockPostProcessing.cpp], the view-change files)
      that change the directory committee and the consensus IDs.
    - [LevelDB.v]: [depends/libDatabase/LevelDB.cpp] over a class of database
      handles; module [MapDB] is an instance.
    - [BlockStorage.v]: [libPersistence/BlockStorage.cpp].
    - [Validator.v]: [libValidator/Validator.cpp], a node that catches up checks
      directory and final blocks.
    - [Decision.v]: from a decision of the leader to a block that all nodes accept.

    Transactions and accounts:
    - [TxnPool.v]: [libData/AccountData/TxnPool.h], the pool with its three indexes.
    - [Json.v], [Receipt.v]: [JsonUtils.h], [TransactionReceipt.cpp], [LogEntry.cpp];
      the JSON library is the class [Json], its text form [ReceiptWriter].
    - [AccountStore.v]: [AccountStoreBase.tpp], [AccountStoreTemp.cpp] and the
      balances and nonces of [Account.cpp].  Class [AccountMap] is the virtual
      [GetAccount] with the assignments through its result; [AccountMapSpec] says
      that a store behaves like one map.  Class [SafeMath] is the checked
      arithmetic, whose template file is missing from the repository.
    - [ContractStorage.v]: [libPersistence/ContractStorage.cpp], the states of
      contracts in memory and on disk.
    - [ContractAccount.v], [AccountStoreSC.v]: contract accounts and
      [AccountStoreSC.tpp], creation and call of contracts.  The interpreter, the
      files it reads and the timeout are the class [Environment].
    - [ContractProperties.v]: the theorems about contracts.
    - [ContractTermination.v]: chains of calls end at the maximal depth.
    - [AccountMessages.v], [StateDelta.v]: the account messages of the Messenger and
      [AccountStore.cpp], the state delta of an epoch.  The trie is the class [Trie].
    - [DeltaProperties.v], [DeltaExamples.v]: theorems about deltas, and a codec and
      a trie on which they are executed.

    Micro blocks:
    - [TxnSelection.v]: the selection loops of
      [libNode/MicroBlockPreProcessing.cpp], against the interface [TxnExecutor].
    - [SelectionProperties.v]: the abstract selection ([abs_step]), the promise of an
      executor ([TxnExecutorSpec]) and the refinement.
    - [ExecutionProperties.v], [TxnExecution.v]: what a transaction of any kind does to
      nonces and types; the transaction checks of [Validator.cpp]; the node as an
      instance of [TxnExecutor] that keeps [TxnExecutorSpec].
    - [TxnOrder.v]: [TxnOrderVerifier.h] and the hashes of a block.
    - [MicroBlock.v]: the rest of [MicroBlockPreProcessing.cpp], [TimestampVerifier.h].
    - [MicroBlockProperties.v], [MicroBlockExamples.v]: agreement of leader and backup;
      an epoch executed, and witnesses.

    Directory service:
    - [Coinbase.v], [CoinbaseProperties.v]: [libDirectoryService/Coinbase.cpp], who
      co-signed the blocks of an epoch, and the rewards paid for it.
    - [Reputation.v]: [libNetwork/ReputationManager.cpp] and [Blacklist.cpp].
    - [Sharding.v], [ShardingProperties.v]: [libUtils/ShardSizeCalculator.cpp], the
      difficulties of [DirectoryService.cpp] and [GasPricer.cpp].
    - [PoW.v], [PoWProperties.v]: [libPOW/pow.cpp]; the ethash library is the class
      [Ethash], with [EthashSpec] for its documented laws.
    - [PoWSubmission.v], [SubmissionProperties.v]: [PoWProcessing.cpp], the solutions
      that a directory node collects.
    - [DSBlockProposal.v]: [DSBlockPreProcessing.cpp], election, sharding and proposal of
      the next directory block, and the checks of a backup.
    - [ProposalProperties.v], [ProposalAcceptance.v], [ProposalSoundness.v],
      [ProposalExamples.v]: what the shards are, that an honest proposal is accepted, what
      an accepted proposal guarantees, and a small network executed.
    - [MicroBlockSubmission.v]: [libDirectoryService/MicroBlockProcessing.cpp], the micro
      blocks that shards submit and that the leader sends on; [std::set] is a sorted list
      whose insertion is undefined when the elements are not ordered.
    - [FinalBlock.v]: [FinalBlockPreProcessing.cpp], the committee's own micro block, the
      final block and the checks of a backup.
    - [FinalBlockProperties.v], [FinalBlockAgreement.v], [FinalBlockExamples.v]: the set of
      micro blocks through all steps of an epoch ([final_step]), what leader and backup
      agree on, and an epoch of the committee executed.
    - [ViewChange.v]: [ViewChangePreProcessing.cpp] and [ViewChangePostProcessing.cpp], the
      choice of a candidate after a timeout, its block, the checks of the others and the
      new committee.
    - [ViewChangeProperties.v], [ViewChangeExamples.v]: agreement of the members on the
      candidate, the block and the committee, and a view change executed.

    ** How the parts interact

    Messages are byte strings: a handler of one role produces the bytes with a
    [Set...] function of the Messenger, the other role reads them with [Get...].
    Both consensus roles share [ConsensusCommon] and call [MultiSig].  The selection
    of transactions takes from the pool, executes on the temporary account store
    over the permanent one, and the delta between the two is what a micro block
    commits to.  A directory node collects proofs of work, from which the leader
    computes the next committee, the shards, the difficulties and the gas price; the
    backups compare with their own tables.  In every epoch it collects the co-signed micro
    blocks of the shards and merges their deltas into its accounts, notes the co-signers
    for the rewards, and the committee agrees on the final block over all of them.
    When one of these rounds does not end, a view change moves the leader to the back of
    the committee and the round starts again.  The
    theorems of a layer are proved against the class of the layer below ([OpenSSL], [Proto], [AccountMap], [Environment], [Trie], [TxnExecutor]),
    never against an instance; the layer below proves the promised laws.

    ** What the theorems show

    - Bytes and signatures: numbers, bit maps, peers, keys and signatures survive a
      round trip at any offset; [Sign] ends and its result is accepted by [Verify],
      which accepts exactly the solutions of the verification equation; accepted
      responses aggregate to a signature that [MultiSigVerify] accepts.
    - Consensus: what an honest member sends is delivered, what is accepted is
      authentic; in every reachable state [DONE] means a certificate that verifies;
      subsets have exactly the required members; honest responses are counted and
      the last one completes the round; two quorums share more than a third of the
      committee.
    - Blocks and committees: the co-signature checks of all handlers decide the same
      condition; a decided block passes them; shard nodes and directory nodes compute
      the same committee, and a member knows its place in it; a node that catches up
      accepts exactly the properly linked and signed blocks, and records them; the
      ledger returns every block from memory or disk.
    - Accounts: [UpdateAccounts] moves the amount and charges the fee exactly when the
      sender can pay; a contract call lowers the sum of balances by exactly the gas
      charged, and a failed one leaves everything else; chains of calls end; states of
      contracts are isolated and survive the move to disk.
    - Deltas: a node that accepts a delta changes every balance by what the shard
      changed, whatever it applied before; deltas of payments are always delivered; a
      commit can be reverted.
    - Micro blocks: the selection loop refines the abstract selection; no transaction
      is replayed and nonces are used in order; the gas is bounded; balances and
      nonces stay in their types; one shard accepts a transaction; an honest backup
      accepts the block of an honest leader, and accepts only what it computed.
    - Directory service: a difficulty survives the way through its boundary; what is
      mined is accepted, and what is accepted has the work; the tables of a node hold
      only such solutions, of nodes outside the committee; shards are cut from the order
      of the hashes and keep their size limits; an honest directory block is accepted by
      every backup with the same tables, and an accepted one names no node twice and none
      without a solution; the rewards of an epoch are paid exactly; the gas price stays
      above its floor; the blacklist is the set of peers below the threshold.
    - Final blocks: the micro blocks in a directory node's set are certified, at most one
      per shard, whatever it goes through; an honest backup accepts the committee's micro
      block and the final block of an honest leader and ends with the same accounts; an
      accepted final block has the totals, the state root and the delta of the backup, and
      every shard's entry in it is a certified block that the backup had.
    - View changes: members with the same chain blame the same leader, find the same
      candidate and accept its block; the decided block leaves all of them with the same
      committee and the same leader, though each lists itself with the empty address.
    - Weaknesses of the code are theorems too: one commit secret answers several
      challenges, backups do not count votes, failed subsets never end a session, an
      empty gas bucket hides cheaper transactions, a contract at a funded address is
      lost in its delta, a tolerance of zero rejects every order, a claimed result is not
      compared with the computed hash, a worse solution stands for election and its node
      is elected and sharded at once, a final block that leaves a shard's block out is
      accepted, the set of micro blocks drops a block as equivalent to another shard's, a
      second view change in an epoch blames the first member, and others.

    ** Bounds and fuel

    Loops that draw random numbers consume a list of draws; they end with the
    fault [StillDrawing] when the list is used up, and [Sign_returns] and
    [holder_round] state which lists suffice.  The loops with fuel are: reading a
    stored committee (more than its length suffices, [committee_persisted]), the
    chain of contract calls (the maximal depth, [chain_calls_end]), and the selection of
    transactions (more than twice the pending ones, [selection_refines]); each theorem
    states the bound that is enough.  The search for an unused index of a state, whose
    fault is [StillSearching], ends within one turn more than there are filed states when
    the hashes of the turns are different ([GetNewIndex_returns]).
    The search for a candidate that is not the leader hashes until the index differs, which
    no number of turns ensures ([lone_leader_never_ends]); what suffices for one member
    suffices for all ([honest_viewchange_accepted]).
    All other loops are structural.  Threshold arithmetic is binary64 and the window of the
    order of transactions binary32, computed with the standard library's [SpecFloat];
    the closed form of the threshold is proved for committees up to 1000 nodes, the
    tolerance for 1 to 20 percent and up to 40 transactions, the effect of a
    tolerance of zero for up to 500.  Mining takes the list of turns that the clock and
    the stop flag allow it, and ends with the first turn that is the last.  Unsigned integers are [Z] reduced at the width
    of their C++ type.

    ** Not modelled

    OpenSSL, protobuf, LevelDB, the JSON library, the trie, ethash and the contract
    interpreter are parameters.  Random generators, shuffles, timers, clocks and the
    validator and announcement callbacks are inputs.  A handler runs atomically,
    except for the response handler, whose unlocked checks and locked update are
    separate definitions; the detached commit-window threads are the steps
    [commit_window_opens] and [commit_window_closes].  Logging is left out.  The
    orchestration of phases by [Node], [DirectoryService], [Lookup] and the
    synchronizer, sockets, the servers and the mining devices are outside this
    library: they wait for time and for the network. *)

From stdpp Require Import base numbers list gmap.
Open Scope Z_scope.

(** ** Machine integers *)

(** An unsigned [w]-bit value is a [Z]; arithmetic of the source is followed by
    the reduction the C++ type performs. *)
Definition wrap (w z : Z) : Z := z mod 2 ^ w.
Abbreviation u8 := (wrap 8).
Abbreviation u16 := (wrap 16).
Abbreviation u32 := (wrap 32).
Abbreviation u64 := (wrap 64).
Abbreviation u128 := (wrap 128).

Definition in_range (w z : Z) : Prop := 0 <= z < 2 ^ w.

Lemma wrap_range w z : 0 <= w -> in_range w (wrap w z).
Proof. intros. apply Z.mod_pos_bound. apply Z.pow_pos_nonneg; lia. Qed.

Lemma wrap_small w z : in_range w z -> wrap w z = z.
Proof. apply Z.mod_small. Qed.

Lemma wrap_add_l w a b : 0 <= w -> wrap w (wrap w a + b) = wrap w (a + b).
Proof.
  intros. unfold wrap. apply Zplus_mod_idemp_l.
Qed.

Lemma wrap_add_r w a b : 0 <= w -> wrap w (a + wrap w b) = wrap w (a + b).
Proof. intros. unfold wrap. apply Zplus_mod_idemp_r. Qed.

Lemma wrap_wrap w z : wrap w (wrap w z) = wrap w z.
Proof. unfold wrap. apply Zmod_mod. Qed.

(** ** Byte strings: [std::vector<uint8_t>] *)

Abbreviation bytes := (list Z).

Definition is_byte (b : Z) : Prop := 0 <= b < 256.
Definition bytes_ok (bs : bytes) : Prop := Forall is_byte bs.

Definition zlen {A} (l : list A) : Z := Z.of_nat (length l).

(** [v.at(i)]: reading throws [std::out_of_range], rendered as [None]. *)
Definition vec_at {A} (l : list A) (i : Z) : option A :=
  if 0 <=? i then l !! Z.to_nat i else None.

(** [v.at(i) = x]: out of range is an exception as well. *)
Definition vec_set {A} (l : list A) (i : Z) (x : A) : option (list A) :=
  if (0 <=? i) && (i <? zlen l) then Some (<[Z.to_nat i := x]> l) else None.

(** [v.resize(n)] keeps the prefix and appends copies of the default value. *)
Definition vec_resize {A} (d : A) (n : Z) (l : list A) : list A :=
  resize (Z.to_nat n) d l.

(** The sub-string of [size] bytes at [offset]. *)
Definition slice (offset size : Z) (bs : bytes) : bytes :=
  take (Z.to_nat size) (drop (Z.to_nat offset) bs).

Lemma zlen_app {A} (l k : list A) : zlen (l ++ k) = zlen l + zlen k.
Proof. unfold zlen. rewrite length_app. lia. Qed.

Lemma zlen_nonneg {A} (l : list A) : 0 <= zlen l.
Proof. unfold zlen. lia. Qed.

Lemma zlen_insert {A} (l : list A) i x : zlen (<[i := x]> l) = zlen l.
Proof. unfold zlen. by rewrite length_insert. Qed.

Lemma bytes_ok_app a b : bytes_ok (a ++ b) <-> bytes_ok a /\ bytes_ok b.
Proof. apply Forall_app. Qed.

(** ** Big-endian numbers *)

(** The value of a big-endian byte string. *)
Definition be_combine (bs : bytes) : Z := foldl (fun acc b => acc * 256 + b) 0 bs.

(** The [n] low-order bytes of [v], most significant first. *)
Fixpoint be_split (n : nat) (v : Z) : bytes :=
  match n with
  | O => []
  | S n' => be_split n' (v / 256) ++ [v mod 256]
  end.

Lemma be_combine_snoc bs b : be_combine (bs ++ [b]) = be_combine bs * 256 + b.
Proof. unfold be_combine. by rewrite foldl_app. Qed.

Lemma length_be_split n v : length (be_split n v) = n.
Proof.
  revert v. induction n as [|n IH]; intros v; [done|].
  simpl. rewrite length_app, IH. simpl. lia.
Qed.

Lemma zlen_be_split n v : zlen (be_split n v) = Z.of_nat n.
Proof. unfold zlen. by rewrite length_be_split. Qed.

Lemma be_split_ok n v : bytes_ok (be_split n v).
Proof.
  revert v. induction n as [|n IH]; intros v; simpl; [constructor|].
  apply bytes_ok_app. split; [apply IH|].
  repeat constructor; apply Z.mod_pos_bound; lia.
Qed.

Lemma be_combine_split n v : be_combine (be_split n v) = v mod 256 ^ Z.of_nat n.
Proof.
  revert v. induction n as [|n IH]; intros v.
  - simpl. by rewrite Z.mod_1_r.
  - cbn [be_split]. rewrite be_combine_snoc, IH.
    rewrite Nat2Z.inj_succ, Z.pow_succ_r by lia.
    rewrite (Z.rem_mul_r v 256 (256 ^ Z.of_nat n)); [lia|lia|].
    apply Z.pow_pos_nonneg; lia.
Qed.

Lemma be_combine_bound bs :
  bytes_ok bs -> 0 <= be_combine bs < 256 ^ zlen bs.
Proof.
  induction bs as [|b bs IH] using rev_ind; intros H.
  - unfold zlen; simpl. unfold be_combine; simpl. lia.
  - apply bytes_ok_app in H as [H1 H2]. apply Forall_cons in H2 as [H2 _].
    specialize (IH H1). rewrite be_combine_snoc, zlen_app.
    change (zlen [b]) with 1. unfold is_byte in H2.
    rewrite Z.pow_add_r by (apply zlen_nonneg || lia). lia.
Qed.

Lemma be_split_combine bs :
  bytes_ok bs -> be_split (length bs) (be_combine bs) = bs.
Proof.
  induction bs as [|b bs IH] using rev_ind; intros H; [done|].
  apply bytes_ok_app in H as [H1 H2]. apply Forall_cons in H2 as [H2 _].
  unfold is_byte in H2.
  rewrite length_app, Nat.add_1_r, be_combine_snoc. cbn [be_split].
  rewrite Z.div_add_l by lia. rewrite (Z.div_small b 256), Z.add_0_r by lia.
  rewrite IH by done. f_equal. f_equal.
  rewrite Z.add_comm, Z.mod_add by lia. apply Z.mod_small. lia.
Qed.

Lemma be_combine_inj a b :
  bytes_ok a -> bytes_ok b -> length a = length b ->
  be_combine a = be_combine b -> a = b.
Proof.
  intros Ha Hb Hl He. rewrite <- (be_split_combine a), <- (be_split_combine b) by done.
  by rewrite Hl, He.
Qed.

Lemma be_combine_app a b :
  be_combine (a ++ b) = be_combine a * 256 ^ zlen b + be_combine b.
Proof.
  induction b as [|x b IH] using rev_ind.
  - rewrite app_nil_r. unfold zlen, be_combine; simpl. lia.
  - rewrite app_assoc, !be_combine_snoc, IH, zlen_app. change (zlen [x]) with 1.
    rewrite Z.pow_add_r by (apply zlen_nonneg || lia). lia.
Qed.

Lemma be_combine_zeros n : be_combine (replicate n 0) = 0.
Proof.
  induction n as [|n IH]; [done|]. rewrite replicate_S_end, be_combine_snoc, IH. lia.
Qed.

Lemma be_combine_pad n bs : be_combine (replicate n 0 ++ bs) = be_combine bs.
Proof. rewrite be_combine_app, be_combine_zeros. lia. Qed.

(** ** Writing a message into a buffer

    The end of every [Messenger::Set...] function ([SerializeToArray]): grow the
    buffer if needed, write the serialized message at the offset. *)
Definition proto_write (data dst : bytes) (offset : Z) : bool * bytes :=
  let dst := if u32 (offset + zlen data) >? zlen dst
             then vec_resize 0 (u32 (offset + zlen data)) dst else dst in
  (true, take (Z.to_nat offset) dst ++ data ++ drop (Z.to_nat (offset + zlen data)) dst).

Lemma proto_write_append data dst : (proto_write data dst (zlen dst)).2 = dst ++ data.
Proof.
  pose proof (zlen_nonneg data) as Hs. pose proof (zlen_nonneg dst) as Hd. unfold proto_write. cbn [snd].
  match goal with |- context [take _ ?d] => set (dst' := d) end.
  assert (take (Z.to_nat (zlen dst)) dst' = dst) as ->.
  { unfold dst', vec_resize. destruct (Z.gtb_spec (u32 (zlen dst + zlen data)) (zlen dst));
      unfold zlen; rewrite Nat2Z.id; [|by rewrite take_ge].
    rewrite take_resize_le by (unfold zlen in *; lia). by rewrite resize_all. }
  assert (zlen dst' <= zlen dst + zlen data) as Hl.
  { unfold dst', vec_resize. destruct (Z.gtb_spec (u32 (zlen dst + zlen data)) (zlen dst)); [|lia].
    unfold zlen at 1. rewrite length_resize. unfold wrap in *.
    pose proof (Z.mod_le (zlen dst + zlen data) (2 ^ 32)).
    pose proof (Z.mod_pos_bound (zlen dst + zlen data) (2 ^ 32)). lia. }
  rewrite (drop_ge dst') by (unfold zlen in *; lia). by rewrite app_nil_r.
Qed.

(** ** List facts shared by the components *)

Lemma take_drop_insert_app {A} (p m s : list A) i x :
  i = length p -> (0 < length m)%nat ->
  <[i := x]> (p ++ m ++ s) = (p ++ [x]) ++ (drop 1 m) ++ s.
Proof.
  intros -> Hm. destruct m as [|y m]; simpl in *; [lia|].
  rewrite insert_app_r_alt by lia. rewrite Nat.sub_diag. simpl.
  by rewrite <- app_assoc.
Qed.

Lemma filter_all {A} (P : A -> Prop) `{forall x, Decision (P x)} (l : list A) :
  (forall x, x ∈ l -> P x) -> filter P l = l.
Proof.
  induction l as [|x l IH]; intros Hl; [done|]. rewrite filter_cons_True by (apply Hl; by left).
  f_equal. apply IH. intros y Hy. apply Hl. by right.
Qed.

(** Number of [true] entries of a bit map. *)
Fixpoint count_true (bm : list bool) : nat :=
  match bm with
  | [] => 0
  | b :: bm' => (if b then 1 else 0) + count_true bm'
  end.

Lemma count_true_le_length bm : (count_true bm <= length bm)%nat.
Proof. induction bm as [|[] bm IH]; simpl; lia. Qed.

Lemma count_true_replicate_false n : count_true (replicate n false) = 0%nat.
Proof. induction n; simpl; lia. Qed.

Lemma count_true_insert_false bm i :
  bm !! i = Some false -> count_true (<[i := true]> bm) = S (count_true bm).
Proof.
  revert i. induction bm as [|b bm IH]; intros [|i] H; simplify_eq/=; [done|].
  rewrite (IH _ H). lia.
Qed.

(** A map that is pointwise below another one and has as many members is it. *)
Lemma count_true_subset_eq a b :
  Forall2 (fun x y => x = true -> y = true) a b ->
  (count_true a <= count_true b)%nat.
Proof. induction 1 as [|[] [] a b Hxy H IH]; simpl; try lia; by specialize (Hxy eq_refl). Qed.

Lemma count_true_subset_same a b :
  Forall2 (fun x y => x = true -> y = true) a b ->
  count_true a = count_true b -> a = b.
Proof.
  induction 1 as [|x y a b Hxy H IH]; intros Hc; [done|].
  pose proof (count_true_subset_eq _ _ H).
  destruct x, y; simpl in Hc; try (specialize (Hxy eq_refl)); try done;
    try (f_equal; apply IH; lia); lia.
Qed.

(** Two bit maps of the same length overlap in at least the surplus of their
    sizes over that length. *)
Fixpoint and_map (a b : list bool) : list bool :=
  match a, b with
  | x :: a', y :: b' => (x && y) :: and_map a' b'
  | _, _ => []
  end.

Lemma count_true_overlap a b :
  length a = length b ->
  (count_true a + count_true b <= length a + count_true (and_map a b))%nat.
Proof.
  revert b. induction a as [|[] a IH]; intros [|[] b] Hl; simplify_eq/=; try lia;
    specialize (IH b ltac:(lia)); lia.
Qed.

(** The elements selected by a bit map. *)
Fixpoint select {A} (bm : list bool) (l : list A) : list A :=
  match bm, l with
  | b :: bm', x :: l' => if b then x :: select bm' l' else select bm' l'
  | _, _ => []
  end.

Lemma length_select {A} bm (l : list A) :
  length bm = length l -> length (select bm l) = count_true bm.
Proof.
  revert l. induction bm as [|[] bm IH]; intros [|x l] Hl; simplify_eq/=; auto.
Qed.

Lemma select_fmap {A B} (f : A -> B) bm l : select bm (f <$> l) = f <$> select bm l.
Proof. revert l. induction bm as [|[] bm IH]; intros [|x l]; cbn; try done; by rewrite IH. Qed.

(** Setting one more bit adds one element, up to the order. *)
Lemma select_insert {A} bm (l : list A) i x :
  bm !! i = Some false -> l !! i = Some x ->
  Permutation (select (<[i := true]> bm) l) (x :: select bm l).
Proof.
  revert l i. induction bm as [|b bm IH]; intros [|y l] [|i] Hb Hx; simplify_eq/=; [done|].
  destruct b; [|by apply IH]. etrans; [by apply perm_skip, IH|]. apply perm_swap.
Qed.

(** Changing an element that is not selected does not matter. *)
Lemma select_insert_out {A} bm (l : list A) i x :
  bm !! i = Some false -> select bm (<[i := x]> l) = select bm l.
Proof.
  revert l i. induction bm as [|b bm IH]; intros [|y l] [|i] Hb; simplify_eq/=; try done.
  - by rewrite IH.
Qed.

Lemma select_none {A} bm (l : list A) : count_true bm = 0%nat -> select bm l = [].
Proof.
  revert l. induction bm as [|[] bm IH]; intros [|x l] Hc; simplify_eq/=; auto.
Qed.

Lemma select_elem {A} bm (l : list A) x :
  x ∈ select bm l -> exists i, bm !! i = Some true /\ l !! i = Some x.
Proof.
  revert l. induction bm as [|b bm IH]; intros [|y l] Hx; cbn in Hx; try (by apply elem_of_nil in Hx).
  destruct b.
  - apply elem_of_cons in Hx as [->|Hx]; [by exists 0%nat|].
    destruct (IH _ Hx) as [i Hi]. by exists (S i).
  - destruct (IH _ Hx) as [i Hi]. by exists (S i).
Qed.

(** ** Automation *)

Create HintDb zil.
#[export] Hint Resolve be_split_ok wrap_range zlen_nonneg : zil.

(** Case analysis on the boolean test or match scrutinee of the goal. *)
Ltac case_test :=
  match goal with
  | |- context [if ?b then _ else _] => let E := fresh "E" in destruct b eqn:E
  | |- context [match ?o with Some _ => _ | None => _ end] =>
      let E := fresh "E" in destruct o eqn:E
  end.

Ltac case_test_in H :=
  match type of H with
  | context [if ?b then _ else _] => let E := fresh "E" in destruct b eqn:E
  | context [match ?o with Some _ => _ | None => _ end] =>
      let E := fresh "E" in destruct o eqn:E
  end.

(** Linear arithmetic with division and remainder by constants. *)
Ltac zlia := Z.to_euclidean_division_equations; lia.

(** Turn boolean comparisons on [Z] into arithmetic hypotheses. *)
Ltac zbool :=
  repeat match goal with
  | H : (_ && _) = true |- _ => apply andb_true_iff in H as [? ?]
  | H : (_ || _) = false |- _ => apply orb_false_iff in H as [? ?]
  | H : negb _ = true |- _ => apply negb_true_iff in H
  | H : negb _ = false |- _ => apply negb_false_iff in H
  | H : (_ <=? _) = true |- _ => apply Z.leb_le in H
  | H : (_ <=? _) = false |- _ => apply Z.leb_gt in H
  | H : (_ <? _) = true |- _ => apply Z.ltb_lt in H
  | H : (_ <? _) = false |- _ => apply Z.ltb_ge in H
  | H : (_ =? _) = true |- _ => apply Z.eqb_eq in H
  | H : (_ =? _) = false |- _ => apply Z.eqb_neq in H
  | H : (_ >=? _) = true |- _ => rewrite Z.geb_leb in H
  | H : (_ >=? _) = false |- _ => rewrite Z.geb_leb in H
  | H : (_ >? _) = true |- _ => rewrite Z.gtb_ltb in H
  | H : (_ >? _) = false |- _ => rewrite Z.gtb_ltb in H
  end.

(** ** Outcomes

    A computation of the source returns, or ends in a fault: an exception of a
    checked container access, a null pointer that is dereferenced, a random
    draw loop that has used up the draws it was given, a fatal log entry (which
    ends the process), a [throw;] outside a handler (which ends it too), an
    exception the source or a library throws, or undefined behaviour. *)
Inductive fault := OutOfRange | NullPointer | StillDrawing | StillSearching | FatalLog | Terminate | Thrown | Undefined.

Inductive outcome (A : Type) :=
  | Ret (a : A)
  | Fault (f : fault).
Arguments Ret {A} a.
Arguments Fault {A} f.

#[global] Instance outcome_ret : MRet outcome := fun _ => Ret.
#[global] Instance outcome_bind : MBind outcome := fun _ _ k m =>
  match m with
  | Ret a => k a
  | Fault f => Fault f
  end.

(** [try { m } catch (const std::exception&) { handler }], for a body that changes
    nothing before it throws. *)
Definition try_catch {A} (m handler : outcome A) : outcome A :=
  match m with
  | Fault OutOfRange | Fault Thrown => handler
  | _ => m
  end.

(** A computation that ends in none of the faults [P]. *)
Definition clear_of (P : fault -> bool) {A} (o : outcome A) : Prop :=
  match o with Ret _ => True | Fault f => P f = false end.

Lemma clear_bind P {A B} (m : outcome A) (k : A -> outcome B) :
  clear_of P m -> (forall a, m = Ret a -> clear_of P (k a)) -> clear_of P (m ≫= k).
Proof. destruct m as [a|f]; cbn; intros Hm Hk; [by apply Hk|done]. Qed.

Lemma clear_try P {A} (m handler : outcome A) : clear_of P m -> clear_of P handler -> clear_of P (try_catch m handler).
Proof. by destruct m as [|[]]. Qed.

Lemma clear_weaken (P Q : fault -> bool) {A} (o : outcome A) : (forall f, P f = false -> Q f = false) -> clear_of P o -> clear_of Q o.
Proof. destruct o; cbn; auto. Qed.

(** [v.at(i)] and [v.at(i) = x] as computations. *)
Definition at_ {A} (l : list A) (i : Z) : outcome A :=
  match vec_at l i with Some x => Ret x | None => Fault OutOfRange end.
Definition at_set {A} (l : list A) (i : Z) (x : A) : outcome (list A) :=
  match vec_set l i x with Some l' => Ret l' | None => Fault OutOfRange end.

Lemma bind_Ret {A B} (m : outcome A) (k : A -> outcome B) b :
  m ≫= k = Ret b -> exists a, m = Ret a /\ k a = Ret b.
Proof. destruct m; [eauto|done]. Qed.

Lemma vec_at_lookup {A} (l : list A) i x :
  0 <= i -> (vec_at l i = Some x <-> l !! Z.to_nat i = Some x).
Proof. intros Hi. unfold vec_at. by rewrite (proj2 (Z.leb_le 0 i) Hi). Qed.

Lemma at_some {A} (l : list A) i : 0 <= i < zlen l -> exists x, at_ l i = Ret x /\ l !! Z.to_nat i = Some x.
Proof.
  intros Hi. destruct (lookup_lt_is_Some_2 l (Z.to_nat i)) as [x Hx]; [unfold zlen in *; lia|].
  exists x. split; [|done]. unfold at_, vec_at. destruct (Z.leb_spec 0 i); [|lia]. by rewrite Hx.
Qed.

Lemma at_lookup {A} (l : list A) i x : 0 <= i -> l !! Z.to_nat i = Some x -> at_ l i = Ret x.
Proof.
  intros Hi Hx. destruct (at_some l i) as (y & -> & Hy); [|congruence].
  apply lookup_lt_Some in Hx. unfold zlen. lia.
Qed.

Lemma at_of_nat {A} (l : list A) i x : l !! i = Some x -> at_ l (Z.of_nat i) = Ret x.
Proof. intros Hx. apply at_lookup; [lia|]. by rewrite Nat2Z.id. Qed.

Lemma at_Ret {A} (l : list A) i x : at_ l i = Ret x -> 0 <= i < zlen l /\ l !! Z.to_nat i = Some x.
Proof.
  unfold at_, vec_at. destruct (Z.leb_spec 0 i); [|done].
  destruct (l !! Z.to_nat i) as [y|] eqn:E; [|done]. intros [= <-]. split; [|done].
  apply lookup_lt_Some in E. unfold zlen. lia.
Qed.

Lemma at_set_some {A} (l : list A) i x :
  0 <= i < zlen l -> at_set l i x = Ret (<[Z.to_nat i := x]> l).
Proof.
  intros Hi. unfold at_set, vec_set.
  destruct (Z.leb_spec 0 i), (Z.ltb_spec i (zlen l)); try lia. done.
Qed.

Lemma at_set_Ret {A} (l : list A) i x l' :
  at_set l i x = Ret l' -> 0 <= i < zlen l /\ l' = <[Z.to_nat i := x]> l.
Proof.
  unfold at_set, vec_set. destruct (Z.leb_spec 0 i), (Z.ltb_spec i (zlen l)); try done.
  by intros [= <-].
Qed.

(** Take a successful computation of the context apart, step by step. *)
Ltac unbind H :=
  repeat match type of H with
  | ((_ ≫= _) = Ret _) =>
      let a := fresh "v" in let E := fresh "E" in
      apply bind_Ret in H as (a & E & H)
  | (mbind _ _ = Ret _) =>
      let a := fresh "v" in let E := fresh "E" in
      apply bind_Ret in H as (a & E & H)
  end.

(** ** Sums over lists *)

Section sums.
Context {A : Type} (f : A -> Z).

Definition sum_of (l : list A) : Z := foldr (fun x acc => f x + acc) 0 l.

Lemma sum_cons x l : sum_of (x :: l) = f x + sum_of l.
Proof. done. Qed.

Lemma sum_app l k : sum_of (l ++ k) = sum_of l + sum_of k.
Proof. unfold sum_of. induction l as [|x l IH]; cbn; [done|]. rewrite IH. lia. Qed.

#[global] Instance sum_perm : Proper ((≡ₚ) ==> (=)) sum_of.
Proof. unfold sum_of. induction 1; cbn in *; lia. Qed.

Lemma sum_nonneg l : Forall (fun x => 0 <= f x) l -> 0 <= sum_of l.
Proof. unfold sum_of. induction 1; cbn in *; lia. Qed.

End sums.

Lemma sum_le {A} (f g : A -> Z) l : Forall (fun x => f x <= g x) l -> sum_of f l <= sum_of g l.
Proof. unfold sum_of. induction 1; cbn in *; lia. Qed.

Lemma sum_map {A B} (f : B -> Z) (h : A -> B) l : sum_of f (h <$> l) = sum_of (fun x => f (h x)) l.
Proof. unfold sum_of. induction l as [|x l IH]; cbn; [done|]. by rewrite <- IH. Qed.
