(* ===== verification/Serializable.v ===== *)
(** * Number serialization ([common/Serializable.h]) and [Peer]

    [GetNumber] and [SetNumber] are the two templates every fixed-width number
    of the wire format goes through.  [w] is the width of the template's
    numeric type; offsets and lengths are [unsigned int].  An exception of
    [std::vector::at] is [None]. *)

From stdpp Require Import base numbers list.
From S2P Require Import Prelude.
Open Scope Z_scope.

Module Serializable.

(** The reading loop: [i] counts up to [numerictype_len], [n] is what is left. *)
Fixpoint get_loop (w : Z) (src : bytes) (offset : Z) (n : nat) (i left_shift result : Z)
  : option Z :=
  match n with
  | O => Some result
  | S n' =>
      match vec_at src (u32 (offset + i)) with
      | None => None
      | Some b =>
          let tmp := wrap w b in
          let result := wrap w (result + wrap w (Z.shiftl tmp left_shift)) in
          get_loop w src offset n' (i + 1) (u32 (left_shift - 8)) result
      end
  end.

Definition GetNumber (w : Z) (src : bytes) (offset numerictype_len : Z) : option Z :=
  if u32 (offset + numerictype_len) <=? zlen src then
    let left_shift := u32 ((numerictype_len - 1) * 8) in
    get_loop w src offset (Z.to_nat numerictype_len) 0 left_shift 0
  else Some 0.

Fixpoint set_loop (dst : bytes) (offset value : Z) (n : nat) (i right_shift : Z)
  : option bytes :=
  match n with
  | O => Some dst
  | S n' =>
      match vec_set dst (u32 (offset + i)) (Z.land (Z.shiftr value right_shift) 0xFF) with
      | None => None
      | Some dst' => set_loop dst' offset value n' (i + 1) (u32 (right_shift - 8))
      end
  end.

Definition SetNumber (dst : bytes) (offset value numerictype_len : Z) : option bytes :=
  let length_available := u32 (zlen dst - offset) in
  let dst' :=
    if length_available <? numerictype_len
    then vec_resize 0 (zlen dst + numerictype_len - length_available) dst
    else dst in
  let right_shift := u32 ((numerictype_len - 1) * 8) in
  set_loop dst' offset value (Z.to_nat numerictype_len) 0 right_shift.

(** ** The loops compute the big-endian split and its inverse *)

Lemma u32_id z : 0 <= z < 2 ^ 32 -> u32 z = z.
Proof. apply wrap_small. Qed.

Lemma get_loop_spec w src offset n i result :
  8 <= w -> bytes_ok src ->
  0 <= offset -> 0 <= i -> offset + i + Z.of_nat n <= zlen src ->
  offset + i + Z.of_nat n < 2 ^ 32 -> 8 * Z.of_nat n <= w ->
  8 * Z.of_nat n <= 2 ^ 32 ->
  result mod 256 ^ Z.of_nat n = 0 -> 0 <= result <= 2 ^ w - 256 ^ Z.of_nat n ->
  get_loop w src offset n i (u32 ((Z.of_nat n - 1) * 8)) result =
    Some (result + be_combine (slice (offset + i) (Z.of_nat n) src)).
Proof.
  intros Hw Hok Hoff. revert i result.
  induction n as [|n IH]; intros i result Hi Hlen H32 Hn8 Hn32 Hmod Hres.
  - cbn [get_loop]. unfold slice. change (Z.to_nat (Z.of_nat 0)) with 0%nat.
    rewrite take_0. unfold be_combine. cbn [foldl]. f_equal. lia.
  - cbn [get_loop]. unfold vec_at. rewrite u32_id by lia.
    assert ((0 <=? offset + i) = true) as -> by (apply Z.leb_le; lia).
    destruct (lookup_lt_is_Some_2 src (Z.to_nat (offset + i))) as [b Hb];
      [unfold zlen in Hlen; lia|].
    rewrite Hb.
    assert (is_byte b) as Hbyte by (by eapply Forall_lookup_1).
    unfold is_byte in Hbyte.
    rewrite (u32_id ((Z.of_nat (S n) - 1) * 8)) by lia.
    replace ((Z.of_nat (S n) - 1) * 8) with (8 * Z.of_nat n) by lia.
    set (P := 256 ^ Z.of_nat n) in *.
    assert (256 ^ Z.of_nat (S n) = 256 * P) as HP.
    { unfold P. rewrite Nat2Z.inj_succ, Z.pow_succ_r; lia. }
    assert (0 < P) as HPpos by (apply Z.pow_pos_nonneg; lia).
    assert (2 ^ (8 * Z.of_nat n) = P) as HPP.
    { rewrite Z.pow_mul_r by lia. done. }
    assert (256 * P <= 2 ^ w) as HPw.
    { rewrite <- HPP. change 256 with (2 ^ 8). rewrite <- Z.pow_add_r by lia.
      apply Z.pow_le_mono_r; lia. }
    rewrite HP in Hmod, Hres.
    rewrite Z.shiftl_mul_pow2 by lia. rewrite HPP.
    rewrite (wrap_small w b) by (unfold in_range; nia).
    rewrite (wrap_small w (b * P)) by (unfold in_range; nia).
    rewrite (wrap_small w (result + b * P)) by (unfold in_range; nia).
    rewrite (Z.mul_comm 8 (Z.of_nat n)). replace (Z.of_nat n * 8 - 8) with ((Z.of_nat n - 1) * 8) by lia.
    rewrite IH; try lia.
    + f_equal. rewrite <- Z.add_assoc. f_equal.
      unfold slice. replace (Z.to_nat (Z.of_nat (S n))) with (S n) by lia.
      replace (Z.to_nat (offset + (i + 1))) with (S (Z.to_nat (offset + i))) by lia.
      rewrite (drop_S _ _ _ Hb). cbn [take].
      change (b :: ?l) with ([b] ++ l). rewrite be_combine_app.
      replace (Z.to_nat (Z.of_nat n)) with n by lia.
      unfold zlen at 1. rewrite length_take, length_drop.
      unfold zlen in Hlen.
      replace (n `min` (length src - S (Z.to_nat (offset + i))))%nat with n by lia.
      unfold be_combine at 2. cbn. unfold P. lia.
    + apply Z.mod_divide in Hmod as [k ->]; [|lia].
      replace (k * (256 * P) + b * P) with ((k * 256 + b) * P) by lia.
      apply Z.mod_mul. lia.
    + nia.
Qed.

(** Reading [len] bytes at [offset] gives their big-endian value. *)
Lemma GetNumber_spec w src offset len :
  8 <= w -> bytes_ok src -> 0 <= offset -> 0 <= len -> 8 * len <= w -> w < 2 ^ 32 ->
  offset + len <= zlen src -> offset + len < 2 ^ 32 ->
  GetNumber w src offset len = Some (be_combine (slice offset len src)).
Proof.
  intros. unfold GetNumber. rewrite u32_id by lia.
  assert ((offset + len <=? zlen src) = true) as -> by (apply Z.leb_le; lia).
  rewrite <- (Z2Nat.id len) at 2 by lia.
  rewrite get_loop_spec; try lia.
  - rewrite Z2Nat.id by lia. by rewrite Z.add_0_r, Z.add_0_l.
  - done.
  - apply Z.mod_0_l. apply Z.pow_nonzero; lia.
  - rewrite Z2Nat.id by lia. split; [lia|]. change 256 with (2 ^ 8).
    rewrite <- Z.pow_mul_r by lia.
    assert (2 ^ (8 * len) <= 2 ^ w) by (apply Z.pow_le_mono_r; lia). lia.
Qed.

Lemma set_loop_spec p m s value n offset i :
  length m = n -> zlen p = offset + i -> 0 <= offset -> 0 <= i ->
  offset + i + Z.of_nat n < 2 ^ 32 -> 8 * Z.of_nat n <= 2 ^ 32 ->
  set_loop (p ++ m ++ s) offset value n i (u32 ((Z.of_nat n - 1) * 8)) =
    Some (p ++ be_split n value ++ s).
Proof.
  revert p m i. induction n as [|n IH]; intros p m i Hm Hp Hoff Hi H32 Hn.
  - destruct m; [|done]. done.
  - cbn [set_loop]. rewrite u32_id by lia. rewrite (u32_id ((Z.of_nat (S n) - 1) * 8)) by lia.
    unfold vec_set. rewrite !zlen_app.
    assert (zlen m = Z.of_nat (S n)) as Hzm by (unfold zlen; lia).
    pose proof (zlen_nonneg s).
    assert ((0 <=? offset + i) && (offset + i <? zlen p + (zlen m + zlen s)) = true) as ->.
    { apply andb_true_iff; split; [apply Z.leb_le | apply Z.ltb_lt]; lia. }
    rewrite take_drop_insert_app by (unfold zlen in *; lia).
    replace ((Z.of_nat (S n) - 1) * 8 - 8) with ((Z.of_nat n - 1) * 8) by lia.
    destruct m as [|y m]; [done|]. simpl in Hm. change (drop 1 (y :: m)) with m.
    set (x := Z.land _ _).
    rewrite (IH (p ++ [x]) m (i + 1)); try lia.
    + f_equal. rewrite <- app_assoc. f_equal. rewrite app_assoc. f_equal. unfold x.
      replace ((Z.of_nat (S n) - 1) * 8) with (Z.of_nat n * 8) by lia.
      clear. change 255 with (Z.ones 8).
      revert value. induction n as [|n IH]; intros value.
      * cbn [be_split app]. by rewrite Z.shiftr_0_r, Z.land_ones by lia.
      * cbn [be_split]. rewrite app_assoc. f_equal.
        specialize (IH (value / 256)). cbn [be_split] in IH. rewrite <- IH. cbn [app]. do 2 f_equal.
        rewrite Nat2Z.inj_succ. replace (Z.succ (Z.of_nat n) * 8) with (8 + Z.of_nat n * 8) by lia.
        rewrite <- Z.shiftr_shiftr by lia. by rewrite (Z.shiftr_div_pow2 value 8) by lia.
    + rewrite zlen_app, Hp. unfold zlen at 1. cbn [length]. lia.
Qed.

(** Writing replaces the [len] bytes at [offset], growing the buffer when needed. *)
Lemma SetNumber_spec dst offset value len :
  0 <= offset <= zlen dst -> 0 <= len -> zlen dst < 2 ^ 32 ->
  offset + len < 2 ^ 32 -> 8 * len <= 2 ^ 32 ->
  SetNumber dst offset value len =
    Some (take (Z.to_nat offset) dst ++ be_split (Z.to_nat len) value
          ++ drop (Z.to_nat (offset + len)) dst).
Proof.
  intros Hoff Hlen Hd H32 H8. unfold SetNumber. rewrite u32_id by lia.
  replace ((len - 1) * 8) with ((Z.of_nat (Z.to_nat len) - 1) * 8) by lia.
  match goal with |- set_loop ?d _ _ _ _ _ = _ => set (dst' := d) end.
  assert (dst' = take (Z.to_nat offset) dst ++ take (Z.to_nat len) (drop (Z.to_nat offset) dst')
                 ++ drop (Z.to_nat (offset + len)) dst
          /\ (length dst' >= Z.to_nat (offset + len))%nat) as [Hd' Hl].
  { unfold dst', vec_resize. case_test; zbool; unfold zlen in *.
    - replace (Z.to_nat (Z.of_nat (length dst) + len - (Z.of_nat (length dst) - offset)))
        with (Z.to_nat (offset + len)) by lia.
      rewrite (drop_ge dst (Z.to_nat (offset + len))) by lia. rewrite app_nil_r.
      rewrite length_resize. split; [|lia].
      rewrite (take_ge (drop _ _)) by (rewrite length_drop, length_resize; lia).
      rewrite <- (take_drop (Z.to_nat offset) (resize _ _ _)) at 1. f_equal.
      rewrite take_resize_le by lia. by rewrite resize_le by lia.
    - split; [|lia].
      rewrite <- (take_drop (Z.to_nat offset) dst) at 1. f_equal.
      rewrite <- (take_drop (Z.to_nat len) (drop (Z.to_nat offset) dst)) at 1. f_equal.
      rewrite drop_drop. f_equal. lia. }
  clearbody dst'. rewrite Hd' at 1.
  apply set_loop_spec; rewrite ?Z2Nat.id by lia; try lia.
  - rewrite length_take, length_drop. lia.
  - unfold zlen in *. rewrite length_take. lia.
Qed.

(** When the offset lies beyond the end of the buffer, [length_available]
    wraps around, no resize happens and the first write throws. *)
Lemma SetNumber_past_end dst offset value len :
  zlen dst < offset -> offset + len < 2 ^ 32 -> 0 < len ->
  SetNumber dst offset value len = None.
Proof.
  intros Ho H32 Hl. unfold SetNumber. pose proof (zlen_nonneg dst).
  assert (u32 (zlen dst - offset) = zlen dst - offset + 2 ^ 32) as ->.
  { unfold wrap. rewrite <- (Z.mod_add _ 1) by lia. apply Z.mod_small. lia. }
  assert ((zlen dst - offset + 2 ^ 32 <? len) = false) as -> by (apply Z.ltb_ge; lia).
  destruct (Z.to_nat len) as [|n] eqn:E; [lia|]. cbn [set_loop]. unfold vec_set.
  rewrite u32_id by lia.
  assert ((offset + 0 <? zlen dst) = false) as -> by (apply Z.ltb_ge; lia).
  by rewrite andb_false_r.
Qed.

Lemma slice_middle p m s :
  slice (zlen p) (zlen m) (p ++ m ++ s) = m.
Proof.
  unfold slice, zlen. rewrite !Nat2Z.id, drop_app_length, take_app_length. done.
Qed.

(** Round trip of one number through a buffer, for any buffer content. *)
Lemma Get_SetNumber w dst offset value len dst' :
  8 <= w < 2 ^ 32 -> bytes_ok dst -> 0 <= offset <= zlen dst -> 0 <= len ->
  8 * len <= w -> zlen dst < 2 ^ 32 -> offset + len < 2 ^ 32 ->
  SetNumber dst offset value len = Some dst' ->
  GetNumber w dst' offset len = Some (value mod 256 ^ len).
Proof.
  intros Hw Hok Hoff Hlen H8 Hd H32 Hset.
  rewrite SetNumber_spec in Hset by lia. injection Hset as <-.
  set (p := take (Z.to_nat offset) dst). set (m := be_split (Z.to_nat len) value).
  assert (zlen p = offset) as Hp.
  { unfold p, zlen in *. rewrite length_take. lia. }
  assert (zlen m = len) as Hm by (unfold m; rewrite zlen_be_split; lia).
  rewrite GetNumber_spec; try lia.
  - rewrite <- Hp at 1. rewrite <- Hm at 1. rewrite slice_middle. unfold m.
    rewrite be_combine_split. by rewrite Z2Nat.id by lia.
  - rewrite !bytes_ok_app. repeat split.
    + by apply Forall_take. + apply be_split_ok. + by apply Forall_drop.
  - rewrite !zlen_app, Hp, Hm. pose proof (zlen_nonneg (drop (Z.to_nat (offset + len)) dst)). lia.
Qed.

(** The same two facts for a buffer split at the offset. *)
Lemma SetNumber_at p s value len :
  0 <= len -> zlen (p ++ s) < 2 ^ 32 -> zlen p + len < 2 ^ 32 -> 8 * len <= 2 ^ 32 ->
  SetNumber (p ++ s) (zlen p) value len =
    Some (p ++ be_split (Z.to_nat len) value ++ drop (Z.to_nat len) s).
Proof.
  intros Hlen Hl H32 H8. pose proof (zlen_nonneg p). pose proof (zlen_nonneg s).
  rewrite SetNumber_spec by (rewrite ?zlen_app in *; lia).
  unfold zlen. rewrite Nat2Z.id, take_app_length, Z2Nat.inj_add, Nat2Z.id by lia.
  by rewrite drop_app_add.
Qed.

Lemma GetNumber_at w p s value len :
  8 <= w < 2 ^ 32 -> bytes_ok p -> bytes_ok s -> 0 <= len -> 8 * len <= w ->
  zlen p + len < 2 ^ 32 ->
  GetNumber w (p ++ be_split (Z.to_nat len) value ++ s) (zlen p) len = Some (value mod 256 ^ len).
Proof.
  intros Hw Hp Hs Hlen H8 H32. pose proof (zlen_nonneg p). pose proof (zlen_nonneg s).
  rewrite GetNumber_spec; try lia.
  - rewrite <- (Z2Nat.id len) at 1 by lia. rewrite <- (zlen_be_split (Z.to_nat len) value) at 1.
    by rewrite slice_middle, be_combine_split, Z2Nat.id by lia.
  - rewrite !bytes_ok_app. auto using be_split_ok.
  - rewrite !zlen_app, zlen_be_split. lia.
Qed.

(** What [SetNumber] does on either side of the end of the buffer.  At an
    offset inside the buffer or exactly at its end it writes the number, growing
    the buffer if necessary, and [GetNumber] reads the number back; at an offset
    beyond the end it throws, although the destination is documented to be
    resized if necessary. *)
Theorem SetNumber_total w dst offset value len :
  8 <= w < 2 ^ 32 -> bytes_ok dst -> 0 <= offset -> 0 < len -> 8 * len <= w ->
  zlen dst < 2 ^ 32 -> offset + len < 2 ^ 32 -> 0 <= value < 256 ^ len ->
  match SetNumber dst offset value len with
  | Some dst' => offset <= zlen dst /\ zlen dst' = Z.max (zlen dst) (offset + len) /\
                 GetNumber w dst' offset len = Some value
  | None => zlen dst < offset
  end.
Proof.
  intros Hw Hok Ho Hlen H8 Hd H32 Hv. destruct (Z.le_gt_cases offset (zlen dst)) as [Hle|Hgt].
  - destruct (SetNumber dst offset value len) as [dst'|] eqn:E.
    + pose proof (Get_SetNumber w dst offset value len dst') as G.
      rewrite G by (done || lia). rewrite Z.mod_small by done.
      rewrite SetNumber_spec in E by lia. injection E as <-. split; [done|]. split; [|done].
      rewrite !zlen_app, zlen_be_split. unfold zlen in *. rewrite length_take, length_drop. lia.
    + rewrite SetNumber_spec in E by lia. done.
  - by rewrite SetNumber_past_end by lia.
Qed.

Lemma SetNumber_total_witness :
  match SetNumber [1; 2; 3] 2 258 4 with
  | Some dst' => 2 <= 3 /\ zlen dst' = 6 /\ GetNumber 32 dst' 2 4 = Some 258
  | None => 3 < 2
  end.
Proof.
  apply (SetNumber_total 32 [1; 2; 3] 2 258 4); try (split; [discriminate|reflexivity]);
    try discriminate; try reflexivity.
  repeat constructor; lia.
Defined.

End Serializable.
