(* ===== verification/BitVector.v ===== *)
(** * Bit maps on the wire ([libUtils/BitVector.cpp])

    The co-signature bit maps (B1, B2) travel as a 16-bit bit count followed by
    the bits, most significant first.  [None] is an exception of [vector::at]. *)

From stdpp Require Import base numbers list.
From S2P Require Import Prelude.
Open Scope Z_scope.

Module BitVector.

Definition GetBitVectorLengthInBytes (length_in_bits : Z) : Z :=
  if Z.land length_in_bits 0x07 >? 0
  then Z.shiftr length_in_bits 3 + 1
  else Z.shiftr length_in_bits 3.

Definition GetBitVectorSerializedSize (length_in_bits : Z) : Z :=
  2 + GetBitVectorLengthInBytes length_in_bits.

(** [1 << (7 - (index & 0x07))] *)
Definition bit_mask (index : Z) : Z := Z.shiftl 1 (7 - Z.land index 0x07).

(** The reading loop; [n] bits are left, [index] is the current one. *)
Fixpoint get_bits (src : bytes) (offset : Z) (n : nat) (index : Z) : option (list bool) :=
  match n with
  | O => Some []
  | S n' =>
      match vec_at src (u32 (offset + 2 + Z.shiftr index 3)) with
      | None => None
      | Some b =>
          match get_bits src offset n' (index + 1) with
          | None => None
          | Some rest => Some (negb (Z.land b (bit_mask index) =? 0) :: rest)
          end
      end
  end.

(** The announced number of bits, 0 when the header is not there. *)
Definition get_length (src : bytes) (offset : Z) : option Z :=
  if u64 (zlen src - offset) >=? 2 then
    match vec_at src offset, vec_at src (u32 (offset + 1)) with
    | Some hi, Some lo => Some (Z.shiftl hi 8 + lo)
    | _, _ => None
    end
  else Some 0.

(** [GetBitVector(src, offset, expected_length)] *)
Definition GetBitVectorExpected (src : bytes) (offset expected_length : Z)
  : option (list bool) :=
  match get_length src offset with
  | None => None
  | Some actual_length =>
      let actual_length_bytes := GetBitVectorLengthInBytes actual_length in
      if (actual_length_bytes =? expected_length)
         && (u64 (zlen src - offset - 2) >=? actual_length_bytes)
      then get_bits src offset (Z.to_nat actual_length) 0
      else Some []
  end.

(** [GetBitVector(src, offset)] *)
Definition GetBitVector (src : bytes) (offset : Z) : option (list bool) :=
  match get_length src offset with
  | None => None
  | Some actual_length =>
      let actual_length_bytes := GetBitVectorLengthInBytes actual_length in
      if u64 (zlen src - offset - 2) >=? actual_length_bytes
      then get_bits src offset (Z.to_nat actual_length) 0
      else Some []
  end.

(** The writing loop over the remaining bits. *)
Fixpoint set_bits (dst : bytes) (offset : Z) (value : list bool) (index : Z) : option bytes :=
  match value with
  | [] => Some dst
  | b :: value' =>
      if b then
        let i := u32 (offset + 2 + Z.shiftr index 3) in
        match vec_at dst i with
        | None => None
        | Some old =>
            match vec_set dst i (Z.lor old (bit_mask index)) with
            | None => None
            | Some dst' => set_bits dst' offset value' (index + 1)
            end
        end
      else set_bits dst offset value' (index + 1)
  end.

Definition SetBitVector (dst : bytes) (offset : Z) (value : list bool) : option (Z * bytes) :=
  let length_needed := GetBitVectorSerializedSize (u32 (zlen value)) in
  let dst1 :=
    if u32 (offset + length_needed) >? zlen dst
    then vec_resize 0 (u32 (offset + length_needed)) dst else dst in
  let dst2 := take (Z.to_nat offset) dst1 ++ replicate (Z.to_nat length_needed) 0
              ++ drop (Z.to_nat (offset + length_needed)) dst1 in
  match vec_set dst2 offset (u8 (Z.shiftr (zlen value) 8)) with
  | None => None
  | Some dst3 =>
      match vec_set dst3 (u32 (offset + 1)) (u8 (zlen value)) with
      | None => None
      | Some dst4 =>
          match set_bits dst4 offset value 0 with
          | None => None
          | Some dst5 => Some (length_needed, dst5)
          end
      end
  end.

(** ** Arithmetic of the bit positions *)

Lemma land_7 n : Z.land n 0x07 = n mod 8.
Proof. apply (Z.land_ones n 3). lia. Qed.

Lemma LengthInBytes_ceil n : 0 <= n -> GetBitVectorLengthInBytes n = (n + 7) / 8.
Proof.
  intros Hn. unfold GetBitVectorLengthInBytes.
  rewrite Z.shiftr_div_pow2, land_7 by lia. change (2 ^ 3) with 8.
  destruct (Z.gtb_spec (n mod 8) 0); zlia.
Qed.

Lemma bit_mask_pow index : bit_mask index = 2 ^ (7 - index mod 8).
Proof.
  unfold bit_mask. rewrite land_7, Z.shiftl_mul_pow2 by zlia. lia.
Qed.

Lemma land_bit_mask b index :
  0 <= index -> negb (Z.land b (bit_mask index) =? 0) = Z.testbit b (7 - index mod 8).
Proof.
  intros Hi. rewrite bit_mask_pow. set (m := 7 - index mod 8).
  assert (0 <= m) by (unfold m; zlia).
  destruct (Z.testbit b m) eqn:E.
  - apply negb_true_iff, Z.eqb_neq. intros H0.
    assert (Z.testbit (Z.land b (2 ^ m)) m = true) as Ht.
    { rewrite Z.land_spec, E, Z.pow2_bits_true; done. }
    rewrite H0, Z.bits_0 in Ht. done.
  - apply negb_false_iff, Z.eqb_eq. apply Z.bits_inj'. intros n Hn.
    rewrite Z.land_spec, Z.bits_0. destruct (decide (n = m)) as [->|].
    + by rewrite E.
    + rewrite Z.pow2_bits_false by lia. apply andb_false_r.
Qed.

(** Bit number [j] of the payload that starts at byte [base]. *)
Definition bit_at (bs : bytes) (base j : Z) : bool :=
  Z.testbit (default 0 (bs !! Z.to_nat (base + j / 8))) (7 - j mod 8).

(** ** Reading *)

Lemma get_bits_spec src offset value index :
  0 <= offset -> 0 <= index ->
  offset + 2 + (index + zlen value + 7) / 8 <= zlen src -> zlen src < 2 ^ 32 ->
  (forall k b, value !! k = Some b -> bit_at src (offset + 2) (index + Z.of_nat k) = b) ->
  get_bits src offset (length value) index = Some value.
Proof.
  revert index. induction value as [|b value IH]; intros index Ho Hi Hlen H32 Hbits; [done|].
  unfold zlen in Hlen. cbn [length] in Hlen.
  cbn [length get_bits]. rewrite Z.shiftr_div_pow2 by lia. change (2 ^ 3) with 8.
  assert (index / 8 < (index + Z.of_nat (S (length value)) + 7) / 8).
  { zlia. }
  assert (0 <= index / 8) by (apply Z.div_pos; lia).
  rewrite (wrap_small 32) by (unfold in_range, zlen in *; lia).
  unfold vec_at. destruct (Z.leb_spec 0 (offset + 2 + index / 8)); [|lia].
  destruct (lookup_lt_is_Some_2 src (Z.to_nat (offset + 2 + index / 8))) as [y Hy].
  { unfold zlen in *. lia. }
  rewrite Hy. rewrite IH.
  - do 2 f_equal. rewrite land_bit_mask by lia.
    specialize (Hbits 0%nat b eq_refl). unfold bit_at in Hbits.
    rewrite Z.add_0_r, Hy in Hbits. done.
  - lia.
  - lia.
  - unfold zlen in *. replace (index + 1 + Z.of_nat (length value))
      with (index + Z.of_nat (S (length value))) by lia. lia.
  - done.
  - intros k c Hk. specialize (Hbits (S k) c Hk). rewrite <- Hbits. f_equal. lia.
Qed.

(** ** Writing *)

Lemma set_bits_spec dst offset value index :
  0 <= offset -> 0 <= index ->
  offset + 2 + (index + zlen value + 7) / 8 <= zlen dst -> zlen dst < 2 ^ 32 ->
  exists dst',
    set_bits dst offset value index = Some dst' /\ length dst' = length dst /\
    (forall j, 0 <= j -> bit_at dst' (offset + 2) j =
       bit_at dst (offset + 2) j
       || (if index <=? j then default false (value !! Z.to_nat (j - index)) else false)) /\
    (forall i : nat,
       (Z.of_nat i < offset + 2 \/ offset + 2 + (index + zlen value + 7) / 8 <= Z.of_nat i) ->
       dst' !! i = dst !! i).
Proof.
  revert dst index. induction value as [|b value IH]; intros dst index Ho Hi Hlen H32.
  - exists dst. split_and!; [done|done| |done]. intros j Hj. case_test; by rewrite ?lookup_nil, orb_false_r.
  - assert (zlen (b :: value) = zlen value + 1) as Hz by (unfold zlen; cbn [length]; lia).
    rewrite Hz in *. replace (index + (zlen value + 1) + 7) with (index + 1 + zlen value + 7) in * by lia.
    pose proof (zlen_nonneg value).
    assert (0 <= index / 8 < (index + 1 + zlen value + 7) / 8) as Hq.
    { zlia. }
    assert (forall j, 0 <= j ->
      (if index <=? j then default false ((b :: value) !! Z.to_nat (j - index)) else false)
      = ((j =? index) && b)
        || (if index + 1 <=? j then default false (value !! Z.to_nat (j - (index + 1))) else false)) as Hstep.
    { intros j Hj. destruct (Z.eqb_spec j index) as [->|Hne].
      - rewrite Z.leb_refl, Z.sub_diag. cbn. destruct (Z.leb_spec (index + 1) index); [lia|].
        by rewrite orb_false_r.
      - cbn [andb orb]. destruct (Z.leb_spec index j), (Z.leb_spec (index + 1) j); try lia.
        replace (Z.to_nat (j - index)) with (S (Z.to_nat (j - (index + 1)))) by lia. done. }
    destruct b.
    + cbn [set_bits]. rewrite Z.shiftr_div_pow2 by lia. change (2 ^ 3) with 8.
      rewrite (wrap_small 32) by (unfold in_range; lia).
      unfold vec_at, vec_set. destruct (Z.leb_spec 0 (offset + 2 + index / 8)); [|lia].
      destruct (lookup_lt_is_Some_2 dst (Z.to_nat (offset + 2 + index / 8))) as [y Hy].
      { unfold zlen in *. lia. }
      rewrite Hy. destruct (Z.ltb_spec (offset + 2 + index / 8) (zlen dst)); [|lia].
      cbn [andb]. set (dst1 := <[_ := _]> dst).
      assert (zlen dst1 = zlen dst) as Hz1 by apply zlen_insert.
      destruct (IH dst1 (index + 1)) as (dst' & Hs & Hl & Hb & Hf); try (rewrite ?Hz1; lia).
      exists dst'. split; [done|]. split; [unfold zlen in *; lia|]. split.
      * intros j Hj. rewrite Hb, Hstep by done. rewrite orb_assoc. f_equal. rewrite andb_true_r.
        unfold bit_at, dst1.
        destruct (decide (j / 8 = index / 8)) as [Hjq|Hjq].
        -- rewrite Hjq, list_lookup_insert_eq by (unfold zlen in *; lia).
           rewrite Hy. cbn [from_option]. unfold id. rewrite Z.lor_spec, bit_mask_pow. f_equal.
           destruct (Z.eqb_spec j index) as [->|Hne].
           ++ apply Z.pow2_bits_true. zlia.
           ++ apply Z.pow2_bits_false. zlia.
        -- rewrite list_lookup_insert_ne.
           2: { intros E. apply Z2Nat.inj in E; [lia|lia|]. assert (0 <= j / 8) by (apply Z.div_pos; lia). lia. }
           destruct (Z.eqb_spec j index) as [->|Hne]; [lia|]. by rewrite orb_false_r.
      * intros i Hi'. rewrite Hf by lia. unfold dst1. apply list_lookup_insert_ne. lia.
    + cbn [set_bits]. destruct (IH dst (index + 1)) as (dst' & Hs & Hl & Hb & Hf); try lia.
      exists dst'. split; [done|]. split; [done|]. split; [|intros i Hi'; apply Hf; lia].
      intros j Hj. rewrite Hb, Hstep by done. by rewrite andb_false_r.
Qed.

(** The buffer after growing, zero-filling and writing the two length bytes. *)
Lemma header_spec dst offset nb hi lo :
  0 <= offset -> 0 <= nb -> offset + 2 + nb < 2 ^ 32 -> zlen dst < 2 ^ 32 ->
  let needed := 2 + nb in
  let dst1 := if u32 (offset + needed) >? zlen dst
              then vec_resize 0 (u32 (offset + needed)) dst else dst in
  let dst2 := take (Z.to_nat offset) dst1 ++ replicate (Z.to_nat needed) 0
              ++ drop (Z.to_nat (offset + needed)) dst1 in
  exists dst3 dst4,
    vec_set dst2 offset hi = Some dst3 /\ vec_set dst3 (u32 (offset + 1)) lo = Some dst4 /\
    dst4 = take (Z.to_nat offset) dst1 ++ hi :: lo :: replicate (Z.to_nat nb) 0
           ++ drop (Z.to_nat (offset + needed)) dst1 /\
    zlen dst1 = Z.max (zlen dst) (offset + needed) /\
    (forall i : nat, (Z.of_nat i < zlen dst) -> dst1 !! i = dst !! i).
Proof.
  intros Ho Hnb H32 Hd needed dst1 dst2.
  assert (zlen dst1 = Z.max (zlen dst) (offset + needed)
          /\ forall i : nat, (Z.of_nat i < zlen dst) -> dst1 !! i = dst !! i) as [Hl1 Hpre].
  { unfold dst1, vec_resize. rewrite (wrap_small 32) by (unfold in_range, needed; lia).
    destruct (Z.gtb_spec (offset + needed) (zlen dst)) as [Hg|Hg].
    - split; [unfold zlen at 1; rewrite length_resize; lia|].
      intros i Hi. unfold zlen in *. apply lookup_resize; lia.
    - split; [lia|done]. }
  clearbody dst1.
  assert (length (take (Z.to_nat offset) dst1) = Z.to_nat offset) as Hlt.
  { rewrite length_take. unfold zlen in *. lia. }
  assert (replicate (Z.to_nat needed) 0 = 0 :: 0 :: replicate (Z.to_nat nb) 0) as Hr.
  { unfold needed. replace (Z.to_nat (2 + nb)) with (S (S (Z.to_nat nb))) by lia. done. }
  set (p := take (Z.to_nat offset) dst1) in *.
  set (t := drop (Z.to_nat (offset + needed)) dst1).
  exists (p ++ hi :: 0 :: replicate (Z.to_nat nb) 0 ++ t),
         (p ++ hi :: lo :: replicate (Z.to_nat nb) 0 ++ t).
  assert (zlen p = offset) as Hzp by (unfold zlen; lia).
  split_and!; [| |done|done|done].
  - unfold dst2, vec_set. fold t. rewrite Hr. cbn [app]. rewrite zlen_app, Hzp.
    destruct (Z.leb_spec 0 offset), (Z.ltb_spec offset (offset + zlen (0 :: 0 :: replicate (Z.to_nat nb) 0 ++ t)));
      unfold zlen in *; cbn [length] in *; try lia. cbn [andb]. f_equal.
    rewrite insert_app_r_alt by lia. rewrite Hlt, Nat.sub_diag. done.
  - unfold vec_set. rewrite (wrap_small 32) by (unfold in_range; lia). rewrite zlen_app, Hzp.
    destruct (Z.leb_spec 0 (offset + 1)), (Z.ltb_spec (offset + 1) (offset + zlen (hi :: 0 :: replicate (Z.to_nat nb) 0 ++ t)));
      unfold zlen in *; cbn [length] in *; try lia. cbn [andb]. f_equal.
    rewrite insert_app_r_alt by lia. rewrite Hlt.
    by replace (Z.to_nat (offset + 1) - Z.to_nat offset)%nat with 1%nat by lia.
Qed.

Lemma bit_at_zeros p nb t j :
  0 <= j < 8 * nb -> bit_at (p ++ replicate (Z.to_nat nb) 0 ++ t) (zlen p) j = false.
Proof.
  intros Hj. unfold bit_at. assert (0 <= j / 8 < nb) by zlia.
  rewrite lookup_app_r by (unfold zlen; lia).
  rewrite lookup_app_l by (rewrite length_replicate; unfold zlen; lia).
  replace (Z.to_nat (zlen p + j / 8) - length p)%nat with (Z.to_nat (j / 8)) by (unfold zlen; lia).
  rewrite lookup_replicate_2 by lia. cbn [from_option]. unfold id. apply Z.bits_0.
Qed.

(** What [SetBitVector] writes: it succeeds, the bits of the payload are the
    given ones, the header is the bit count, nothing else moves. *)
Lemma SetBitVector_spec dst offset value :
  0 <= offset -> zlen value < 2 ^ 16 -> offset + 2 ^ 16 < 2 ^ 32 -> zlen dst < 2 ^ 32 ->
  exists dst',
    SetBitVector dst offset value = Some (2 + (zlen value + 7) / 8, dst') /\
    zlen dst' = Z.max (zlen dst) (offset + (2 + (zlen value + 7) / 8)) /\
    dst' !! Z.to_nat offset = Some (zlen value / 256) /\
    dst' !! Z.to_nat (offset + 1) = Some (zlen value mod 256) /\
    (forall k b, value !! k = Some b -> bit_at dst' (offset + 2) (Z.of_nat k) = b) /\
    (forall i : nat, Z.of_nat i < zlen dst ->
       Z.of_nat i < offset \/ offset + (2 + (zlen value + 7) / 8) <= Z.of_nat i ->
       dst' !! i = dst !! i).
Proof.
  intros Ho Hv Ho32 Hd. pose proof (zlen_nonneg value) as Hv0.
  unfold SetBitVector, GetBitVectorSerializedSize.
  rewrite (wrap_small 32 (zlen value)) by (unfold in_range; lia).
  rewrite LengthInBytes_ceil by lia.
  set (nb := (zlen value + 7) / 8). assert (0 <= nb <= 2 ^ 13) as Hnb by (unfold nb; zlia).
  assert (u8 (Z.shiftr (zlen value) 8) = zlen value / 256) as Hhi.
  { rewrite Z.shiftr_div_pow2 by lia. apply wrap_small. unfold in_range. zlia. }
  destruct (header_spec dst offset nb (u8 (Z.shiftr (zlen value) 8)) (u8 (zlen value)))
    as (d3 & d4 & H3 & H4 & Hd4 & Hl1 & Hpre); try lia.
  rewrite H3, H4. clear H3 H4.
  match type of Hd4 with d4 = take _ ?d ++ _ => set (dst1 := d) in * end.
  clearbody dst1.
  assert (length (take (Z.to_nat offset) dst1) = Z.to_nat offset) as Hlt.
  { rewrite length_take. unfold zlen in *. lia. }
  assert (zlen d4 = zlen dst1) as Hl4.
  { subst d4. unfold zlen in *. rewrite length_app, Hlt. cbn [length].
    rewrite length_app, length_replicate, length_drop. lia. }
  destruct (set_bits_spec d4 offset value 0) as (d5 & Hs & Hl5 & Hb & Hf); try lia.
  { rewrite Hl4, Hl1, Z.add_0_l. fold nb. lia. }
  rewrite Z.add_0_l in Hf. fold nb in Hf.
  rewrite Hs. exists d5.
  assert (forall j, 0 <= j < 8 * nb -> bit_at d4 (offset + 2) j = false) as Hz.
  { intros j Hj. subst d4. set (hi := u8 _). set (lo := u8 _).
    change (hi :: lo :: ?l) with ([hi; lo] ++ l). rewrite app_assoc.
    set (p := take _ _ ++ _).
    replace (offset + 2) with (zlen p); [by apply bit_at_zeros|].
    unfold p, zlen. rewrite length_app, Hlt. cbn [length]. lia. }
  split_and!.
  - done.
  - unfold zlen in *. lia.
  - rewrite Hf by lia. subst d4. rewrite lookup_app_r by lia. by rewrite Hlt, Nat.sub_diag, Hhi.
  - rewrite Hf by lia. subst d4. rewrite lookup_app_r by lia. rewrite Hlt.
    by replace (Z.to_nat (offset + 1) - Z.to_nat offset)%nat with 1%nat by lia.
  - intros k b Hk. rewrite Hb by lia. pose proof (lookup_lt_Some _ _ _ Hk).
    rewrite Hz by (unfold nb; unfold zlen in *; zlia). cbn [orb].
    destruct (Z.leb_spec 0 (Z.of_nat k)); [|lia].
    by rewrite Z.sub_0_r, Nat2Z.id, Hk.
  - intros i Hi Hout. rewrite Hf by lia. subst d4. rewrite <- (Hpre i Hi).
    destruct Hout.
    + rewrite lookup_app_l by lia. rewrite lookup_take. case_decide; [done|lia].
    + rewrite lookup_app_r by lia. rewrite Hlt.
      replace (i - Z.to_nat offset)%nat with (S (S (i - Z.to_nat offset - 2)))%nat by lia.
      rewrite !lookup_cons_ne_0 by lia. cbn [Nat.pred].
      rewrite lookup_app_r by (rewrite length_replicate; lia).
      rewrite length_replicate, lookup_drop. f_equal. lia.
Qed.

Lemma get_length_spec src offset n :
  0 <= offset -> 0 <= n < 2 ^ 16 -> offset + 2 <= zlen src -> zlen src < 2 ^ 32 ->
  src !! Z.to_nat offset = Some (n / 256) ->
  src !! Z.to_nat (offset + 1) = Some (n mod 256) ->
  get_length src offset = Some n.
Proof.
  intros Ho Hn Hl H32 Hhi Hlo. unfold get_length, vec_at.
  rewrite (wrap_small 64), (wrap_small 32) by (unfold in_range; lia).
  destruct (Z.geb_spec (zlen src - offset) 2); [|lia].
  destruct (Z.leb_spec 0 offset), (Z.leb_spec 0 (offset + 1)); try lia.
  rewrite Hhi, Hlo. f_equal. rewrite Z.shiftl_mul_pow2 by lia. zlia.
Qed.

(** The reader recovers the bit map from any buffer that holds it. *)
Lemma GetBitVector_spec src offset value :
  0 <= offset -> zlen value < 2 ^ 16 ->
  offset + (2 + (zlen value + 7) / 8) <= zlen src -> zlen src < 2 ^ 32 ->
  src !! Z.to_nat offset = Some (zlen value / 256) ->
  src !! Z.to_nat (offset + 1) = Some (zlen value mod 256) ->
  (forall k b, value !! k = Some b -> bit_at src (offset + 2) (Z.of_nat k) = b) ->
  GetBitVector src offset = Some value /\
  GetBitVectorExpected src offset (GetBitVectorLengthInBytes (zlen value)) = Some value.
Proof.
  intros Ho Hv Hl H32 Hhi Hlo Hb. pose proof (zlen_nonneg value).
  assert (0 <= (zlen value + 7) / 8) by (apply Z.div_pos; lia).
  unfold GetBitVector, GetBitVectorExpected.
  rewrite (get_length_spec src offset (zlen value)) by (done || lia).
  rewrite LengthInBytes_ceil, Z.eqb_refl by lia.
  rewrite (wrap_small 64) by (unfold in_range; lia).
  destruct (Z.geb_spec (zlen src - offset - 2) ((zlen value + 7) / 8)); [|lia]. cbn [andb].
  replace (Z.to_nat (zlen value)) with (length value) by (unfold zlen; lia).
  rewrite get_bits_spec; try done; rewrite ?Z.add_0_l; lia.
Qed.

(** a bit vector of fewer than 2^16 bits survives serialization at any
    offset of any buffer (also past its end): [SetBitVector] does not throw and
    returns the serialized size, grows the buffer only when needed, leaves the
    other bytes alone, and both readers give the vector back. *)
Theorem bitvector_roundtrip dst offset value :
  0 <= offset -> zlen value < 2 ^ 16 -> offset + 2 ^ 16 < 2 ^ 32 -> zlen dst < 2 ^ 32 ->
  exists dst',
    SetBitVector dst offset value = Some (GetBitVectorSerializedSize (zlen value), dst') /\
    zlen dst' = Z.max (zlen dst) (offset + GetBitVectorSerializedSize (zlen value)) /\
    (forall i : nat, Z.of_nat i < zlen dst ->
       Z.of_nat i < offset \/ offset + GetBitVectorSerializedSize (zlen value) <= Z.of_nat i ->
       dst' !! i = dst !! i) /\
    GetBitVector dst' offset = Some value /\
    GetBitVectorExpected dst' offset (GetBitVectorLengthInBytes (zlen value)) = Some value.
Proof.
  intros Ho Hv H32 Hd. pose proof (zlen_nonneg value) as H0.
  assert (GetBitVectorSerializedSize (zlen value) = 2 + (zlen value + 7) / 8) as ->.
  { unfold GetBitVectorSerializedSize. rewrite LengthInBytes_ceil by done.
    done. }
  destruct (SetBitVector_spec dst offset value Ho Hv H32 Hd)
    as (dst' & E & Hl & Hhi & Hlo & Hb & Hf).
  exists dst'. split; [done|]. split; [done|]. split; [done|].
  apply GetBitVector_spec; try done; [lia|]. rewrite Hl. zlia.
Qed.

Lemma bitvector_roundtrip_witness :
  exists dst',
    SetBitVector [7; 7] 1 [true; false; true; true; false; false; false; false; true]
      = Some (4, dst') /\
    GetBitVector dst' 1 = Some [true; false; true; true; false; false; false; false; true].
Proof.
  destruct (bitvector_roundtrip [7; 7] 1
    [true; false; true; true; false; false; false; false; true])
    as (dst' & E & _ & _ & G & _); [discriminate|reflexivity..|].
  exists dst'. split; [exact E|exact G].
Defined.

End BitVector.
