(* ===== verification/Peer.v ===== *)
(** * Peers ([libNetwork/Peer.cpp], [libNetwork/Peer.h])

    The address of a node: an IP address in network order (128 bits), a port
    and an optional host name.  Comparison ignores the host name, serialization
    drops it. *)

From stdpp Require Import base numbers list strings.
From S2P Require Import Prelude Serializable.
Open Scope Z_scope.

Record Peer := mkPeer {
  m_ipAddress : Z;
  m_listenPortHost : Z;
  m_hostname : string
}.

#[global] Instance Peer_eq_dec : EqDecision Peer.
Proof. solve_decision. Defined.

Definition Peer_default : Peer := mkPeer 0 0 "".

Definition Peer_new (ip_address listen_port_host : Z) : Peer :=
  mkPeer ip_address listen_port_host "".

Definition Peer_eqb (l r : Peer) : bool :=
  (m_ipAddress l =? m_ipAddress r) && (m_listenPortHost l =? m_listenPortHost r).

Definition Peer_neqb (l r : Peer) : bool :=
  negb (m_ipAddress l =? m_ipAddress r) || negb (m_listenPortHost l =? m_listenPortHost r).

Definition Peer_ltb (l r : Peer) : bool :=
  (m_ipAddress l <? m_ipAddress r)
  || ((m_ipAddress l =? m_ipAddress r) && (m_listenPortHost l <? m_listenPortHost r)).

Definition UINT128_SIZE : Z := 16.

(** [Serialize]: the bytes written, and what is returned; an exception of
    [SetNumber] is [None]. *)
Definition Peer_Serialize (p : Peer) (dst : bytes) (offset : Z) : option (Z * bytes) :=
  match Serializable.SetNumber dst offset (m_ipAddress p) UINT128_SIZE with
  | None => None
  | Some dst =>
      match Serializable.SetNumber dst (u32 (offset + UINT128_SIZE)) (m_listenPortHost p) 4 with
      | None => None
      | Some dst => Some (UINT128_SIZE + 4, dst)
      end
  end.

(** [Deserialize]: fields are assigned one by one, so an exception in the
    second read leaves the first field changed. *)
Definition Peer_Deserialize (p : Peer) (src : bytes) (offset : Z) : Z * Peer :=
  match Serializable.GetNumber 128 src offset UINT128_SIZE with
  | None => (-1, p)
  | Some ip =>
      let p := mkPeer ip (m_listenPortHost p) (m_hostname p) in
      match Serializable.GetNumber 32 src (u32 (offset + UINT128_SIZE)) 4 with
      | None => (-1, p)
      | Some port => (0, mkPeer (m_ipAddress p) port (m_hostname p))
      end
  end.

Definition Peer_from_bytes (src : bytes) (offset : Z) : Peer :=
  (Peer_Deserialize Peer_default src offset).2.

Definition SetHostname (p : Peer) (hostname : string) : Peer :=
  mkPeer (m_ipAddress p) (m_listenPortHost p) hostname.

(** The values the C++ types admit. *)
Definition Peer_ok (p : Peer) : Prop :=
  0 <= m_ipAddress p < 2 ^ 128 /\ 0 <= m_listenPortHost p < 2 ^ 32.

Lemma Peer_eqb_true l r :
  Peer_eqb l r = true <-> m_ipAddress l = m_ipAddress r /\ m_listenPortHost l = m_listenPortHost r.
Proof. unfold Peer_eqb. rewrite andb_true_iff, !Z.eqb_eq. done. Qed.

Lemma Peer_eqb_refl p : Peer_eqb p p = true.
Proof. by apply Peer_eqb_true. Qed.

(** The three comparison operators of [Peer] are consistent: [!=] is the
    negation of [==], [==] is an equivalence, [<] is a strict order and exactly
    one of [a < b], [a == b], [b < a] holds, so that [Peer] is a legal key of
    the ordered containers the network layer keeps peers in. *)
Theorem Peer_order_laws a b c :
  Peer_neqb a b = negb (Peer_eqb a b) /\
  Peer_eqb a a = true /\ Peer_eqb a b = Peer_eqb b a /\
  (Peer_eqb a b && Peer_eqb b c = true -> Peer_eqb a c = true) /\
  (Peer_ltb a b && Peer_ltb b c = true -> Peer_ltb a c = true) /\
  (Nat.b2n (Peer_ltb a b) + Nat.b2n (Peer_eqb a b) + Nat.b2n (Peer_ltb b a) = 1)%nat.
Proof.
  unfold Peer_neqb, Peer_ltb, Peer_eqb. split; [by rewrite negb_andb|].
  split; [by rewrite !Z.eqb_refl|].
  split; [by rewrite (Z.eqb_sym (m_ipAddress a)), (Z.eqb_sym (m_listenPortHost a))|].
  split; [rewrite !andb_true_iff, !Z.eqb_eq; intuition congruence|].
  split; [rewrite !andb_true_iff, !orb_true_iff, !andb_true_iff, !Z.eqb_eq, !Z.ltb_lt; lia|].
  destruct (Z.ltb_spec (m_ipAddress a) (m_ipAddress b)),
    (Z.ltb_spec (m_ipAddress b) (m_ipAddress a)),
    (Z.eqb_spec (m_ipAddress a) (m_ipAddress b)),
    (Z.eqb_spec (m_ipAddress b) (m_ipAddress a)); try lia; cbn; try done.
  destruct (Z.ltb_spec (m_listenPortHost a) (m_listenPortHost b)),
    (Z.ltb_spec (m_listenPortHost b) (m_listenPortHost a)),
    (Z.eqb_spec (m_listenPortHost a) (m_listenPortHost b)); cbn; try done; lia.
Qed.

(** What a peer is on the wire. *)
Definition peer_bytes (p : Peer) : bytes := be_split 16 (m_ipAddress p) ++ be_split 4 (m_listenPortHost p).

Lemma zlen_peer_bytes p : zlen (peer_bytes p) = 20.
Proof. unfold peer_bytes. by rewrite zlen_app, !zlen_be_split. Qed.

Lemma Peer_written p pre post :
  zlen pre + zlen post + 20 < 2 ^ 32 ->
  Peer_Serialize p (pre ++ post) (zlen pre) = Some (20, pre ++ peer_bytes p ++ drop 20 post).
Proof.
  intros Hl. pose proof (zlen_nonneg pre). pose proof (zlen_nonneg post).
  assert (zlen (drop 16 post) <= zlen post) by (unfold zlen; rewrite length_drop; lia).
  unfold Peer_Serialize, UINT128_SIZE, peer_bytes. set (a := be_split 16 (m_ipAddress p)).
  assert (zlen pre + 16 = zlen (pre ++ a)) as E16 by (unfold a; rewrite zlen_app, zlen_be_split; lia).
  rewrite (wrap_small 32) by (unfold in_range; lia).
  rewrite Serializable.SetNumber_at by (rewrite ?zlen_app; lia).
  change (Z.to_nat 16) with 16%nat. fold a. rewrite (app_assoc pre a), E16.
  rewrite Serializable.SetNumber_at by (rewrite ?(zlen_app (pre ++ a)); lia).
  change (Z.to_nat 4) with 4%nat. by rewrite drop_drop, <- !app_assoc.
Qed.

Lemma Peer_read p q pre post :
  Peer_ok p -> bytes_ok pre -> bytes_ok post -> zlen pre + 20 < 2 ^ 32 ->
  Peer_Deserialize q (pre ++ peer_bytes p ++ post) (zlen pre) = (0, SetHostname p (m_hostname q)).
Proof.
  intros [Hip Hport] Hpre Hpost Hl. pose proof (zlen_nonneg pre).
  unfold Peer_Deserialize, UINT128_SIZE, peer_bytes. set (a := be_split 16 (m_ipAddress p)).
  assert (zlen pre + 16 = zlen (pre ++ a)) as E16 by (unfold a; rewrite zlen_app, zlen_be_split; lia).
  rewrite (wrap_small 32) by (unfold in_range; lia). rewrite <- app_assoc.
  rewrite (Serializable.GetNumber_at 128 pre _ (m_ipAddress p) 16); [|lia|done| |lia..].
  2: { apply bytes_ok_app. split; [apply be_split_ok|done]. }
  fold a. rewrite E16, app_assoc.
  rewrite (Serializable.GetNumber_at 32 (pre ++ a) _ (m_listenPortHost p) 4); [|lia| |done|lia..].
  2: { apply bytes_ok_app. split; [done|apply be_split_ok]. }
  rewrite !Z.mod_small by (rewrite ?Z.pow_mul_r; lia). done.
Qed.

(** A peer survives serialization into any buffer at any offset inside it:
    20 bytes are written, the rest of the buffer is kept, and reading them back
    into any peer object gives the same address and port and keeps the object's
    host name. *)
Theorem Peer_roundtrip p q pre post :
  Peer_ok p -> bytes_ok pre -> bytes_ok post -> zlen pre + zlen post + 20 < 2 ^ 32 ->
  exists written,
    Peer_Serialize p (pre ++ post) (zlen pre) = Some (20, pre ++ written ++ drop 20 post) /\
    zlen written = 20 /\
    Peer_Deserialize q (pre ++ written ++ drop 20 post) (zlen pre)
      = (0, SetHostname p (m_hostname q)).
Proof.
  intros Hp Hpre Hpost Hl. pose proof (zlen_nonneg post). exists (peer_bytes p).
  split; [by apply Peer_written|]. split; [apply zlen_peer_bytes|].
  apply Peer_read; [done|done|by apply Forall_drop|lia].
Qed.

Lemma Peer_roundtrip_witness :
  exists written,
    Peer_Serialize (mkPeer 16777343 33133 "a") ([1; 2] ++ repeat 9 30) 2
      = Some (20, [1; 2] ++ written ++ repeat 9 10) /\
    zlen written = 20 /\
    Peer_Deserialize (mkPeer 0 0 "b") ([1; 2] ++ written ++ repeat 9 10) 2
      = (0, mkPeer 16777343 33133 "b").
Proof.
  apply (Peer_roundtrip (mkPeer 16777343 33133 "a") (mkPeer 0 0 "b") [1; 2] (repeat 9 30)).
  - unfold Peer_ok. cbn. lia.
  - repeat constructor; lia.
  - repeat constructor; lia.
  - reflexivity.
Defined.
