(* ===== verification/OpenSSL.v ===== *)
(** * The OpenSSL interface the cryptographic code is written against

    The code of [libCrypto] calls the big-number, elliptic-curve and SHA-256
    functions of OpenSSL.  They are parameters of the development: [OpenSSL]
    lists them (a call that can report an error returns an [option], [None] is
    the error code), [OpenSSLSpec] states what a call that succeeds computes on
    the curve secp256k1, and [OpenSSLNoFail] that no call reports an error,
    which the completeness theorems need and the soundness theorems do not.
    The last part of the file is an instance (a cyclic group of prime order)
    on which every hypothesis is shown to hold. *)

From stdpp Require Import base numbers list decidable.
From Stdlib Require Import Znumtheory.
From S2P Require Import Prelude.
Open Scope Z_scope.

Class OpenSSL := {
  EC_POINT : Type;
  EC_POINT_eqdec :: EqDecision EC_POINT;
  (** [false]: [BN_new], [EC_POINT_new] or [BN_CTX_new] returned NULL. *)
  alloc_ok : bool;
  (** The value a new [EC_POINT] holds. *)
  EC_POINT_new : EC_POINT;
  (** [EC_GROUP_get_order] of secp256k1. *)
  m_order : Z;
  (** [EC_POINT_mul(group, r, n, q, m, ctx)]: [n * G + m * q]; [None] arguments are NULL. *)
  EC_POINT_mul : option Z -> option (EC_POINT * Z) -> option EC_POINT;
  EC_POINT_add : EC_POINT -> EC_POINT -> option EC_POINT;
  EC_POINT_copy : EC_POINT -> option EC_POINT;
  (** 0 when equal, 1 when different, -1 on error. *)
  EC_POINT_cmp : EC_POINT -> EC_POINT -> Z;
  EC_POINT_is_at_infinity : EC_POINT -> bool;
  (** The octets written in compressed form, [[]] on error. *)
  EC_POINT_point2oct : EC_POINT -> bytes;
  EC_POINT_oct2point : bytes -> option EC_POINT;
  BN_bin2bn : bytes -> option Z;
  BN_nnmod : Z -> Z -> option Z;
  BN_mod_mul : Z -> Z -> Z -> option Z;
  BN_mod_sub : Z -> Z -> Z -> option Z;
  BN_mod_add : Z -> Z -> Z -> option Z;
  BN_copy : Z -> option Z;
  SHA256 : bytes -> bytes
}.

(** ** Big numbers

    A BIGNUM is an integer; these functions have no error case. *)

Definition BN_is_zero (a : Z) : bool := a =? 0.
Definition BN_is_negative (a : Z) : bool := a <? 0.
Definition BN_cmp (a b : Z) : Z :=
  match Z.compare a b with Lt => -1 | Eq => 0 | Gt => 1 end.

(** Bytes of the magnitude, 0 for zero. *)
Definition BN_num_bytes (a : Z) : Z := if a =? 0 then 0 else Z.log2 a / 8 + 1.
Definition BN_bn2bin (a : Z) : bytes := be_split (Z.to_nat (BN_num_bytes a)) a.

Lemma BN_cmp_eq a b : BN_cmp a b = 0 <-> a = b.
Proof. unfold BN_cmp. destruct (Z.compare_spec a b); split; intros; lia. Qed.

Lemma BN_cmp_lt a b : BN_cmp a b = -1 <-> a < b.
Proof. unfold BN_cmp. destruct (Z.compare_spec a b); split; intros; lia. Qed.

Lemma BN_num_bytes_nonneg a : 0 <= BN_num_bytes a.
Proof.
  unfold BN_num_bytes. case_test; [lia|].
  pose proof (Z.log2_nonneg a). pose proof (Z.div_pos (Z.log2 a) 8). lia.
Qed.

(** The size is the smallest number of bytes that holds the value. *)
Lemma BN_num_bytes_spec a :
  0 <= a -> a < 256 ^ BN_num_bytes a /\ (0 < a -> 256 ^ (BN_num_bytes a - 1) <= a).
Proof.
  intros Ha. unfold BN_num_bytes. destruct (Z.eqb_spec a 0) as [->|Hne]; [cbn; lia|].
  assert (0 < a) as Hpos by lia. pose proof (Z.log2_spec a Hpos) as [Hlo Hhi].
  pose proof (Z.log2_nonneg a).
  assert (0 <= Z.log2 a / 8) by (apply Z.div_pos; lia).
  change 256 with (2 ^ 8). rewrite <- !Z.pow_mul_r by lia. split.
  - eapply Z.lt_le_trans; [apply Hhi|]. apply Z.pow_le_mono_r; zlia.
  - intros _. eapply Z.le_trans; [|apply Hlo]. apply Z.pow_le_mono_r; zlia.
Qed.

Lemma BN_num_bytes_le a n : 0 <= a -> 0 <= n -> a < 256 ^ n -> BN_num_bytes a <= n.
Proof.
  intros Ha Hn Hlt. destruct (Z.eq_dec a 0) as [->|Hne]; [cbn; lia|].
  destruct (BN_num_bytes_spec a Ha) as [_ H]. specialize (H ltac:(lia)).
  apply Z.le_ngt. intros Hgt.
  assert (256 ^ n <= 256 ^ (BN_num_bytes a - 1)) by (apply Z.pow_le_mono_r; lia). lia.
Qed.

Lemma be_combine_bn2bin a : 0 <= a -> be_combine (BN_bn2bin a) = a.
Proof.
  intros Ha. unfold BN_bn2bin. rewrite be_combine_split.
  rewrite Z2Nat.id by apply BN_num_bytes_nonneg.
  apply Z.mod_small. split; [done|]. by apply BN_num_bytes_spec.
Qed.

(** The octets of a number whose first byte is not zero are read back exactly. *)
Lemma bn2bin_combine b bs :
  bytes_ok (b :: bs) -> b <> 0 -> BN_bn2bin (be_combine (b :: bs)) = b :: bs.
Proof.
  intros Hok Hb. set (v := be_combine (b :: bs)).
  assert (0 < b < 256) as Hbb by (inversion Hok as [|? ? H]; unfold is_byte in H; lia).
  assert (v = b * 256 ^ zlen bs + be_combine bs) as Hv.
  { unfold v. change (b :: bs) with ([b] ++ bs). by rewrite be_combine_app. }
  assert (bytes_ok bs) as Hok' by (by inversion Hok).
  pose proof (be_combine_bound bs Hok') as Hbs.
  pose proof (be_combine_bound _ Hok) as Hall. fold v in Hall.
  assert (zlen (b :: bs) = zlen bs + 1) as Hz by (unfold zlen; cbn [length]; lia).
  pose proof (zlen_nonneg bs).
  assert (BN_num_bytes v = zlen (b :: bs)) as Hn.
  { apply Z.le_antisymm.
    - apply BN_num_bytes_le; lia.
    - apply Z.le_ngt. intros Hlt.
      destruct (BN_num_bytes_spec v) as [Hup _]; [lia|].
      assert (256 ^ BN_num_bytes v <= 256 ^ zlen bs)
        by (pose proof (BN_num_bytes_nonneg v); apply Z.pow_le_mono_r; lia).
      nia. }
  unfold BN_bn2bin. rewrite Hn. unfold zlen. rewrite Nat2Z.id. by apply be_split_combine.
Qed.

(** ** What a successful call computes *)

Class OpenSSLSpec `{OpenSSL} := {
  inf : EC_POINT;
  base : EC_POINT;
  padd : EC_POINT -> EC_POINT -> EC_POINT;
  smul : Z -> EC_POINT -> EC_POINT;
  (** secp256k1 is an abelian group of prime order, generated by [base]. *)
  order_prime : prime m_order;
  order_bound : m_order < 2 ^ 256;
  padd_assoc P Q R : padd P (padd Q R) = padd (padd P Q) R;
  padd_comm P Q : padd P Q = padd Q P;
  padd_inf P : padd inf P = P;
  smul_1 P : smul 1 P = P;
  smul_plus a b P : smul (a + b) P = padd (smul a P) (smul b P);
  smul_mult a b P : smul a (smul b P) = smul (a * b) P;
  smul_padd a P Q : smul a (padd P Q) = padd (smul a P) (smul a Q);
  smul_order P : smul m_order P = inf;
  base_order k : smul k base = inf -> k mod m_order = 0;
  (** The functions. *)
  new_inf : EC_POINT_new = inf;
  mul_base n R : EC_POINT_mul (Some n) None = Some R -> R = smul n base;
  mul_both n Q m R :
    EC_POINT_mul (Some n) (Some (Q, m)) = Some R -> R = padd (smul n base) (smul m Q);
  add_spec P Q R : EC_POINT_add P Q = Some R -> R = padd P Q;
  copy_point_spec P Q : EC_POINT_copy P = Some Q -> Q = P;
  cmp_spec P Q : EC_POINT_cmp P Q = 0 -> P = Q;
  is_inf_spec P : EC_POINT_is_at_infinity P = true <-> P = inf;
  point2oct_len P : P <> inf -> EC_POINT_point2oct P <> [] ->
    exists b bs, EC_POINT_point2oct P = b :: bs /\ length bs = 32%nat /\ (b = 2 \/ b = 3);
  point2oct_ok P : bytes_ok (EC_POINT_point2oct P);
  point2oct_inf : EC_POINT_point2oct inf = [] \/ EC_POINT_point2oct inf = [0];
  oct2point_spec P Q :
    EC_POINT_point2oct P <> [] -> EC_POINT_oct2point (EC_POINT_point2oct P) = Some Q -> Q = P;
  bin2bn_spec bs v : BN_bin2bn bs = Some v -> v = be_combine bs;
  nnmod_spec a m r : BN_nnmod a m = Some r -> r = a mod m;
  mod_mul_spec a b m r : BN_mod_mul a b m = Some r -> r = (a * b) mod m;
  mod_sub_spec a b m r : BN_mod_sub a b m = Some r -> r = (a - b) mod m;
  mod_add_spec a b m r : BN_mod_add a b m = Some r -> r = (a + b) mod m;
  bn_copy_spec a b : BN_copy a = Some b -> b = a;
  sha256_len bs : length (SHA256 bs) = 32%nat;
  sha256_ok bs : bytes_ok (SHA256 bs)
}.

(** No call reports an error. *)
Class OpenSSLNoFail `{OpenSSLSpec} := {
  alloc_true : alloc_ok = true;
  mul_base_some n : is_Some (EC_POINT_mul (Some n) None);
  mul_both_some n Q m : is_Some (EC_POINT_mul (Some n) (Some (Q, m)));
  add_some P Q : is_Some (EC_POINT_add P Q);
  copy_point_some P : is_Some (EC_POINT_copy P);
  cmp_refl P : EC_POINT_cmp P P = 0;
  point2oct_some P : EC_POINT_point2oct P <> [];
  oct2point_some P : P <> inf -> is_Some (EC_POINT_oct2point (EC_POINT_point2oct P));
  bin2bn_some bs : is_Some (BN_bin2bn bs);
  nnmod_some a : is_Some (BN_nnmod a m_order);
  mod_mul_some a b : is_Some (BN_mod_mul a b m_order);
  mod_sub_some a b : is_Some (BN_mod_sub a b m_order);
  mod_add_some a b : is_Some (BN_mod_add a b m_order);
  bn_copy_some a : is_Some (BN_copy a)
}.

(** ** The group *)

Section group.
Context `{OpenSSLSpec}.

Lemma order_gt_1 : 1 < m_order.
Proof. pose proof order_prime as [? _]. lia. Qed.

Lemma smul_0 P : smul 0 P = inf.
Proof.
  assert (smul m_order P = padd (smul m_order P) (smul 0 P)) as E.
  { rewrite <- smul_plus. f_equal. lia. }
  rewrite !smul_order, padd_inf in E. done.
Qed.

Lemma padd_inf_r P : padd P inf = P.
Proof. rewrite padd_comm. apply padd_inf. Qed.

Lemma smul_inf k : smul k inf = inf.
Proof. rewrite <- (smul_0 inf), smul_mult. f_equal. lia. Qed.

Lemma smul_order_mult k P : smul (k * m_order) P = inf.
Proof. rewrite <- smul_mult, smul_order. apply smul_inf. Qed.

Lemma smul_mod k P : smul (k mod m_order) P = smul k P.
Proof.
  pose proof order_gt_1.
  rewrite (Z.div_mod k m_order) at 2 by lia.
  rewrite smul_plus, (Z.mul_comm m_order), smul_order_mult, padd_inf. done.
Qed.

Lemma padd_cancel P Q R : padd P Q = padd P R -> Q = R.
Proof.
  intros E. apply (f_equal (padd (smul (-1) P))) in E.
  rewrite !padd_assoc in E.
  rewrite <- (smul_1 P) in E at 2 4. rewrite <- smul_plus in E.
  change (-1 + 1) with 0 in E. by rewrite smul_0, !padd_inf in E.
Qed.

Lemma base_inj a b : smul a base = smul b base -> a mod m_order = b mod m_order.
Proof.
  intros E. pose proof order_gt_1.
  assert (smul (a - b) base = inf) as E'.
  { apply (padd_cancel (smul b base)). rewrite <- smul_plus, padd_inf_r.
    replace (b + (a - b)) with a by lia. done. }
  apply base_order in E'. apply Z.mod_divide in E' as [k Hk]; [|lia].
  replace a with (b + k * m_order) by lia. apply Z.mod_add. lia.
Qed.

(** Every scalar that is not a multiple of the order has an inverse. *)
Lemma scalar_inverse c : c mod m_order <> 0 -> exists d, (d * c) mod m_order = 1.
Proof.
  intros Hc. pose proof order_gt_1.
  assert (rel_prime c m_order) as Hr.
  { apply rel_prime_sym, prime_rel_prime; [apply order_prime|].
    intros Hd. apply Z.mod_divide in Hd; [done|lia]. }
  apply rel_prime_bezout in Hr as [u v Huv]. exists u.
  replace (u * c) with (1 + (- v) * m_order) by lia.
  rewrite Z.mod_add by lia. apply Z.mod_small. lia.
Qed.

Lemma smul_cancel c P Q :
  c mod m_order <> 0 -> smul c P = smul c Q -> P = Q.
Proof.
  intros Hc E. destruct (scalar_inverse c Hc) as [d Hd].
  apply (f_equal (smul d)) in E. rewrite !smul_mult in E.
  rewrite <- (smul_mod (d * c) P), <- (smul_mod (d * c) Q), Hd, !smul_1 in E. done.
Qed.

(** The sum of a list of points, the shape of the aggregation loops. *)
Fixpoint psum (l : list EC_POINT) : EC_POINT :=
  match l with
  | [] => inf
  | P :: l' => padd P (psum l')
  end.

Fixpoint zsum (l : list Z) : Z :=
  match l with
  | [] => 0
  | x :: l' => x + zsum l'
  end.

Lemma psum_app l k : psum (l ++ k) = padd (psum l) (psum k).
Proof.
  induction l as [|P l IH]; cbn; [by rewrite padd_inf|]. by rewrite IH, padd_assoc.
Qed.

Lemma psum_perm l k : Permutation l k -> psum l = psum k.
Proof.
  induction 1 as [|P l k _ IH|P Q l|l k j _ IH1 _ IH2]; cbn; try congruence.
  by rewrite padd_assoc, (padd_comm Q P), <- padd_assoc.
Qed.

Lemma zsum_perm l k : Permutation l k -> zsum l = zsum k.
Proof. induction 1; cbn; lia. Qed.

Lemma smul_psum c l : smul c (psum l) = psum (smul c <$> l).
Proof.
  induction l as [|P l IH]; cbn; [apply smul_inf|]. by rewrite smul_padd, IH.
Qed.

Lemma psum_base l : psum ((fun k => smul k base) <$> l) = smul (zsum l) base.
Proof.
  induction l as [|k l IH]; cbn; [by rewrite smul_0|]. by rewrite IH, smul_plus.
Qed.

End group.

(** ** An instance: the additive group of the integers modulo 1009

    It shows that the hypotheses are satisfiable and gives the concrete inputs
    of the witnesses.  Points are the residues, [base] is 1, a point is encoded
    as a tag byte and 32 bytes, the hash is a fixed mixing of its input. *)

Module Cyclic.

Definition q : Z := 1009.

Definition residue : Type := dsig (fun z : Z => z mod q = z).
Definition mk (z : Z) : residue := dexist (z mod q) (Zmod_mod z q).

Definition val (P : residue) : Z := proj1_sig P.

Lemma val_mk z : val (mk z) = z mod q.
Proof. done. Qed.

Lemma mk_val P : mk (val P) = P.
Proof. apply dsig_eq. rewrite val_mk. apply (proj2_dsig P). Qed.

Lemma residue_eq P Q : val P = val Q -> P = Q.
Proof. apply dsig_eq. Qed.

Lemma val_range P : 0 <= val P < q.
Proof. unfold val. rewrite <- (proj2_dsig P). apply Z.mod_pos_bound. unfold q. lia. Qed.

Definition add (P Q : residue) : residue := mk (val P + val Q).
Definition scale (k : Z) (P : residue) : residue := mk (k * val P).

Definition point2oct (P : residue) : bytes :=
  if val P =? 0 then [0] else 2 :: be_split 32 (val P).

Definition oct2point (bs : bytes) : option residue :=
  match bs with
  | b :: rest =>
      if (b =? 2) && (zlen rest =? 32) && (0 <? be_combine rest) && (be_combine rest <? q)
      then Some (mk (be_combine rest)) else None
  | [] => None
  end.

Definition digest (bs : bytes) : bytes :=
  be_split 32 (foldl (fun acc b => (acc * 31 + b + 7) mod 1000003) 17 bs).

#[global] Instance openssl : OpenSSL := {|
  EC_POINT := residue;
  alloc_ok := true;
  EC_POINT_new := mk 0;
  m_order := q;
  EC_POINT_mul n mQ :=
    Some (add (scale (default 0 n) (mk 1))
              (match mQ with Some (Q, m) => scale m Q | None => mk 0 end));
  EC_POINT_add P Q := Some (add P Q);
  EC_POINT_copy P := Some P;
  EC_POINT_cmp P Q := if val P =? val Q then 0 else 1;
  EC_POINT_is_at_infinity P := val P =? 0;
  EC_POINT_point2oct := point2oct;
  EC_POINT_oct2point := oct2point;
  BN_bin2bn bs := Some (be_combine bs);
  BN_nnmod a m := Some (a mod m);
  BN_mod_mul a b m := Some ((a * b) mod m);
  BN_mod_sub a b m := Some ((a - b) mod m);
  BN_mod_add a b m := Some ((a + b) mod m);
  BN_copy a := Some a;
  SHA256 := digest
|}.

Lemma q_prime : prime q.
Proof.
  apply prime_alt. split; [unfold q; lia|]. intros n Hn [k Hk].
  assert (forallb (fun d => negb (q mod d =? 0)) (seqZ 2 (q - 2)) = true) as Hall
    by (vm_compute; reflexivity).
  rewrite forallb_forall in Hall. specialize (Hall n).
  rewrite Hk, Z.mod_mul in Hall by lia. cbn in Hall.
  assert (false = true); [|done]. apply Hall.
  apply list_elem_of_In, elem_of_seqZ. lia.
Qed.

Ltac residue := intros; apply residue_eq; unfold add, scale; rewrite ?val_mk.

Lemma oct2point_point2oct P : val P <> 0 -> oct2point (point2oct P) = Some P.
Proof.
  intros H0. pose proof (val_range P) as Hr. unfold point2oct.
  destruct (Z.eqb_spec (val P) 0); [done|]. unfold oct2point.
  assert (be_combine (be_split 32 (val P)) = val P) as ->.
  { rewrite be_combine_split. apply Z.mod_small. split; [lia|].
    apply Z.lt_trans with q; [lia|]. reflexivity. }
  rewrite zlen_be_split. destruct (Z.ltb_spec 0 (val P)), (Z.ltb_spec (val P) q); try lia.
  cbn [Z.eqb Pos.eqb andb]. by rewrite mk_val.
Qed.

Lemma point2oct_bytes P : bytes_ok (point2oct P).
Proof.
  unfold point2oct. case_test; (apply Forall_cons_2; [unfold is_byte; lia|]).
  - constructor.
  - apply be_split_ok.
Qed.

#[global] Program Instance openssl_spec : OpenSSLSpec := {|
  inf := mk 0;
  base := mk 1;
  padd := add;
  smul := scale
|}.
Next Obligation. apply q_prime. Qed.
Next Obligation. reflexivity. Qed.
Next Obligation. residue. by rewrite Zplus_mod_idemp_l, Zplus_mod_idemp_r, Z.add_assoc. Qed.
Next Obligation. residue. by rewrite Z.add_comm. Qed.
Next Obligation. residue. cbn. apply (proj2_dsig P). Qed.
Next Obligation. residue. rewrite Z.mul_1_l. apply (proj2_dsig P). Qed.
Next Obligation. residue. by rewrite <- Zplus_mod, Z.mul_add_distr_r. Qed.
Next Obligation. residue. by rewrite Zmult_mod_idemp_r, Z.mul_assoc. Qed.
Next Obligation. residue. by rewrite Zmult_mod_idemp_r, <- Zplus_mod, Z.mul_add_distr_l. Qed.
Next Obligation. residue. rewrite Z.mul_comm. by apply Z.mod_mul. Qed.
Next Obligation.
  intros k E. apply (f_equal val) in E. unfold scale in E. rewrite !val_mk in E.
  change (1 mod q) with 1 in E. by rewrite Z.mul_1_r in E.
Qed.
Next Obligation. done. Qed.
Next Obligation.
  intros n R E. injection E as <-. residue. cbn. by rewrite Z.add_0_r, Zmod_mod.
Qed.
Next Obligation. intros n Q m R E. by injection E as <-. Qed.
Next Obligation. intros P Q R E. by injection E as <-. Qed.
Next Obligation. intros P Q E. by injection E as <-. Qed.
Next Obligation.
  intros P Q E. cbn in E. destruct (Z.eqb_spec (val P) (val Q)); [|done]. by apply residue_eq.
Qed.
Next Obligation.
  intros P. cbn. split.
  - intros E. apply Z.eqb_eq in E. residue. done.
  - intros ->. done.
Qed.
Next Obligation.
  intros P H0 _. cbn. unfold point2oct. destruct (Z.eqb_spec (val P) 0) as [E|].
  - destruct H0. by residue.
  - eexists _, _. split; [done|]. split; [apply length_be_split|by left].
Qed.
Next Obligation. apply point2oct_bytes. Qed.
Next Obligation. right. done. Qed.
Next Obligation.
  intros P Q _ E. cbn in E. destruct (decide (val P = 0)) as [H0|H0].
  - unfold point2oct in E. rewrite H0 in E. done.
  - rewrite oct2point_point2oct in E by done. by injection E.
Qed.
Next Obligation. intros bs v E. by injection E. Qed.
Next Obligation. intros a m r E. by injection E. Qed.
Next Obligation. intros a b m r E. by injection E. Qed.
Next Obligation. intros a b m r E. by injection E. Qed.
Next Obligation. intros a b m r E. by injection E. Qed.
Next Obligation. intros a b E. by injection E. Qed.
Next Obligation. intros bs. apply length_be_split. Qed.
Next Obligation. intros bs. apply be_split_ok. Qed.

#[global] Instance openssl_nofail : OpenSSLNoFail.
Proof.
  constructor; cbn; try done; eauto.
  - intros P. by rewrite Z.eqb_refl.
  - intros P. unfold point2oct. by case_test.
  - intros P H0. rewrite oct2point_point2oct; [done|]. intros E. apply H0. by residue.
Qed.

End Cyclic.
