(* ===== verification/Schnorr.v ===== *)
(** * Keys, signatures and Schnorr signing ([libCrypto])

    [BIGNUMSerialize.cpp], [ECPOINTSerialize.cpp], [PrivKey.cpp], [PubKey.cpp],
    [Signature.cpp], [Sha2.h] and [Schnorr.cpp].  Random numbers are an input:
    a list of the successive answers of the generator, [None] for an error. *)

From stdpp Require Import base numbers list.
From S2P Require Import Prelude OpenSSL.
Open Scope Z_scope.

Record PrivKey := mkPrivKey { m_d : Z }.
Record Signature := mkSignature { m_r : Z; m_s : Z }.

(** Sizes in bytes ([common/Constants.h]). *)
Definition PRIV_KEY_SIZE : Z := 32.
Definition PUB_KEY_SIZE : Z := 33.
Definition SIGNATURE_CHALLENGE_SIZE : Z := 32.
Definition SIGNATURE_RESPONSE_SIZE : Z := 32.
Definition PUBKEY_COMPRESSED_SIZE_BYTES : Z := 33.

(** ** [SHA2<256>]: the context is the input fed so far *)
Module SHA2.

Definition Reset : bytes := [].

Definition Update (ctx input : bytes) : bytes :=
  if zlen input =? 0 then ctx else ctx ++ input.

(** The callers have checked [offset + size] against the input already, so the
    fatal assertion of the source is never reached. *)
Definition UpdateRange (ctx input : bytes) (offset size : Z) : bytes :=
  ctx ++ slice offset size input.

Lemma Update_app ctx input : Update ctx input = ctx ++ input.
Proof.
  unfold Update. case_test; [|done]. zbool. destruct input; [by rewrite app_nil_r|].
  unfold zlen in *. cbn [length] in *. lia.
Qed.

End SHA2.

Section crypto.
Context `{OpenSSL}.

Record PubKey := mkPubKey { m_P : EC_POINT }.

(** ** [BIGNUMSerialize] *)

Definition BIGNUM_GetNumber (src : bytes) (offset size : Z) : option Z :=
  if u32 (offset + size) <? size then None
  else if u32 (offset + size) >? zlen src then None
  else BN_bin2bn (slice offset size src).

Definition BIGNUM_SetNumber (dst : bytes) (offset size value : Z) : bytes :=
  if u32 (offset + size) <? size then dst
  else
    let actual_bn_size := BN_num_bytes value in
    if actual_bn_size <=? size then
      let dst1 := if u32 (offset + size) >? zlen dst
                  then vec_resize 0 (u32 (offset + size)) dst else dst in
      let size_diff := size - actual_bn_size in
      take (Z.to_nat offset) dst1 ++ replicate (Z.to_nat size_diff) 0
        ++ BN_bn2bin value ++ drop (Z.to_nat (offset + size)) dst1
    else dst.

(** ** [ECPOINTSerialize], with [EC_POINT_point2bn] and [EC_POINT_bn2point] of
    the bundled OpenSSL *)

Definition EC_POINT_point2bn (P : EC_POINT) : option Z :=
  let buf := EC_POINT_point2oct P in
  if zlen buf =? 0 then None else BN_bin2bn buf.

Definition EC_POINT_bn2point (bn : Z) : option EC_POINT :=
  if BN_num_bytes bn =? 0 then None
  else if negb alloc_ok then None
  else EC_POINT_oct2point (BN_bn2bin bn).

Definition ECPOINT_GetNumber (src : bytes) (offset size : Z) : option EC_POINT :=
  match BIGNUM_GetNumber src offset size with
  | None => None
  | Some bnvalue => if negb alloc_ok then None else EC_POINT_bn2point bnvalue
  end.

Definition ECPOINT_SetNumber (dst : bytes) (offset size : Z) (value : EC_POINT) : bytes :=
  if negb alloc_ok then dst
  else
    match EC_POINT_point2bn value with
    | None => dst
    | Some bnvalue => BIGNUM_SetNumber dst offset size bnvalue
    end.

(** ** [PrivKey] *)

(** [PrivKey()]: draw until the number is not zero; an error ends the loop and
    keeps what was there.  [None]: the draws given were not enough. *)
Fixpoint PrivKey_new (d : Z) (draws : list (option Z)) : option PrivKey :=
  match draws with
  | [] => None
  | None :: _ => Some (mkPrivKey d)
  | Some x :: draws' => if BN_is_zero x then PrivKey_new x draws' else Some (mkPrivKey x)
  end.

(** The copy constructor; a failed copy leaves the new number, zero. *)
Definition PrivKey_copy (src : PrivKey) : PrivKey :=
  mkPrivKey (default 0 (BN_copy (m_d src))).

Definition PrivKey_Serialize (k : PrivKey) (dst : bytes) (offset : Z) : Z * bytes :=
  (PRIV_KEY_SIZE, BIGNUM_SetNumber dst offset PRIV_KEY_SIZE (m_d k)).

(** [Deserialize] returns 0 or -1 and updates the object on success. *)
Definition PrivKey_Deserialize (k : PrivKey) (src : bytes) (offset : Z) : Z * PrivKey :=
  match BIGNUM_GetNumber src offset PRIV_KEY_SIZE with
  | None => (-1, k)
  | Some result =>
      match BN_copy result with
      | None => (-1, k)
      | Some d => (0, mkPrivKey d)
      end
  end.

Definition PrivKey_eq (a b : PrivKey) : bool := BN_cmp (m_d a) (m_d b) =? 0.

(** ** [PubKey] *)

Definition PubKey_default : PubKey := mkPubKey EC_POINT_new.

Definition PubKey_from_priv (privkey : PrivKey) : PubKey :=
  if BN_is_zero (m_d privkey) || negb (BN_cmp (m_d privkey) m_order =? -1)
  then PubKey_default
  else
    match EC_POINT_mul (Some (m_d privkey)) None with
    | None => PubKey_default
    | Some P => mkPubKey P
    end.

Definition PubKey_copy (src : PubKey) : PubKey :=
  match EC_POINT_copy (m_P src) with
  | None => PubKey_default
  | Some P => mkPubKey P
  end.

Definition PubKey_Serialize (k : PubKey) (dst : bytes) (offset : Z) : Z * bytes :=
  (PUB_KEY_SIZE, ECPOINT_SetNumber dst offset PUB_KEY_SIZE (m_P k)).

Definition PubKey_Deserialize (k : PubKey) (src : bytes) (offset : Z) : Z * PubKey :=
  match ECPOINT_GetNumber src offset PUB_KEY_SIZE with
  | None => (-1, k)
  | Some result =>
      match EC_POINT_copy result with
      | None => (-1, k)
      | Some P => (0, mkPubKey P)
      end
  end.

Definition comparePreChecks (a b : PubKey) : option (Z * Z) :=
  if negb alloc_ok then None
  else
    match EC_POINT_point2bn (m_P a), EC_POINT_point2bn (m_P b) with
    | Some lhs, Some rhs => Some (lhs, rhs)
    | _, _ => None
    end.

Definition PubKey_lt (a b : PubKey) : bool :=
  match comparePreChecks a b with
  | Some (lhs, rhs) => BN_cmp lhs rhs =? -1
  | None => false
  end.

Definition PubKey_gt (a b : PubKey) : bool := PubKey_lt b a.

Definition PubKey_eq (a b : PubKey) : bool :=
  match comparePreChecks a b with
  | Some (lhs, rhs) => BN_cmp lhs rhs =? 0
  | None => false
  end.

(** ** [Signature] *)

Definition Signature_default : Signature := mkSignature 0 0.

Definition Signature_Serialize (s : Signature) (dst : bytes) (offset : Z) : Z * bytes :=
  let dst1 := BIGNUM_SetNumber dst offset SIGNATURE_CHALLENGE_SIZE (m_r s) in
  let dst2 := BIGNUM_SetNumber dst1 (u32 (offset + SIGNATURE_CHALLENGE_SIZE))
                SIGNATURE_RESPONSE_SIZE (m_s s) in
  (SIGNATURE_CHALLENGE_SIZE + SIGNATURE_RESPONSE_SIZE, dst2).

Definition Signature_Deserialize (s : Signature) (src : bytes) (offset : Z) : Z * Signature :=
  match BIGNUM_GetNumber src offset SIGNATURE_CHALLENGE_SIZE,
        BIGNUM_GetNumber src (u32 (offset + SIGNATURE_CHALLENGE_SIZE)) SIGNATURE_RESPONSE_SIZE with
  | Some result_r, Some result_s =>
      match BN_copy result_r with
      | None => (-1, s)
      | Some r =>
          match BN_copy result_s with
          | None => (-1, mkSignature r (m_s s))
          | Some s' => (0, mkSignature r s')
          end
      end
  | _, _ => (-1, s)
  end.

Definition Signature_eq (a b : Signature) : bool :=
  (BN_cmp (m_r a) (m_r b) =? 0) && (BN_cmp (m_s a) (m_s b) =? 0).

(** ** The challenge hash

    Signing, verification and the multi-signature challenge convert the
    commitment and the key to octets, hash both and the message after what the
    context already holds, and reduce the digest modulo the order. *)
Definition hash_challenge (sha2 : bytes) (Q P : EC_POINT) (message : bytes) (offset size : Z)
  : option Z :=
  let buf := EC_POINT_point2oct Q in
  if negb (zlen buf =? PUBKEY_COMPRESSED_SIZE_BYTES) then None
  else
    let sha2 := SHA2.Update sha2 buf in
    let buf := EC_POINT_point2oct P in
    if negb (zlen buf =? PUBKEY_COMPRESSED_SIZE_BYTES) then None
    else
      let sha2 := SHA2.Update sha2 buf in
      let sha2 := SHA2.UpdateRange sha2 message offset size in
      let digest := SHA256 sha2 in
      match BN_bin2bn digest with
      | None => None
      | Some c => BN_nnmod c m_order
      end.

(** The two initial checks on the message range. *)
Definition message_ok (message : bytes) (offset size : Z) : bool :=
  negb (zlen message =? 0) && negb (zlen message <? u32 (offset + size)).

(** ** [Schnorr::Sign] *)

Inductive sign_outcome :=
  | Signed (result : Signature)    (** [true], with the out-parameter *)
  | SignFailed                     (** [false] *)
  | NonceExhausted.                (** the loop still runs after the nonces given *)

Fixpoint sign_loop (nonces : list (option Z)) (message : bytes) (offset size : Z)
    (privkey : PrivKey) (pubkey : PubKey) : sign_outcome :=
  match nonces with
  | [] => NonceExhausted
  | None :: _ => SignFailed
  | Some k :: nonces' =>
      if BN_is_zero k then sign_loop nonces' message offset size privkey pubkey
      else
        match EC_POINT_mul (Some k) None with
        | None => SignFailed
        | Some Q =>
            match hash_challenge SHA2.Reset Q (m_P pubkey) message offset size with
            | None => SignFailed
            | Some r =>
                match BN_mod_mul r (m_d privkey) m_order with
                | None => SignFailed
                | Some rk =>
                    match BN_mod_sub k rk m_order with
                    | None => SignFailed
                    | Some s =>
                        if BN_is_zero r || BN_is_zero s
                        then sign_loop nonces' message offset size privkey pubkey
                        else Signed (mkSignature r s)
                    end
                end
            end
        end
  end.

Definition SignRange (nonces : list (option Z)) (message : bytes) (offset size : Z)
    (privkey : PrivKey) (pubkey : PubKey) : sign_outcome :=
  if negb (message_ok message offset size) then SignFailed
  else if negb alloc_ok then SignFailed
  else sign_loop nonces message offset size privkey pubkey.

Definition Sign (nonces : list (option Z)) (message : bytes)
    (privkey : PrivKey) (pubkey : PubKey) : sign_outcome :=
  SignRange nonces message 0 (u32 (zlen message)) privkey pubkey.

(** ** [Schnorr::Verify] *)

(** A scalar of the signature must be in [1, ..., order-1]. *)
Definition scalar_out_of_range (x : Z) : bool :=
  BN_is_zero x || BN_is_negative x || negb (BN_cmp x m_order =? -1).

(** Verification after the message checks; [sha2] is the initial hash context. *)
Definition verify_core (sha2 : bytes) (message : bytes) (offset size : Z)
    (toverify : Signature) (pubkey : PubKey) : bool :=
  if negb alloc_ok then false
  else if scalar_out_of_range (m_r toverify) then false
  else if scalar_out_of_range (m_s toverify) then false
  else
    match EC_POINT_mul (Some (m_s toverify)) (Some (m_P pubkey, m_r toverify)) with
    | None => false
    | Some Q =>
        if EC_POINT_is_at_infinity Q then false
        else
          match hash_challenge sha2 Q (m_P pubkey) message offset size with
          | None => false
          | Some challenge_built => BN_cmp challenge_built (m_r toverify) =? 0
          end
    end.

Definition VerifyRange (message : bytes) (offset size : Z)
    (toverify : Signature) (pubkey : PubKey) : bool :=
  if negb (message_ok message offset size) then false
  else verify_core SHA2.Reset message offset size toverify pubkey.

Definition Verify (message : bytes) (toverify : Signature) (pubkey : PubKey) : bool :=
  VerifyRange message 0 (u32 (zlen message)) toverify pubkey.

(** [Schnorr::GenKeyPair] *)
Definition GenKeyPair (draws : list (option Z)) : option (PrivKey * PubKey) :=
  match PrivKey_new 0 draws with
  | None => None
  | Some privkey =>
      let pubkey := PubKey_from_priv privkey in
      Some (PrivKey_copy privkey, PubKey_copy pubkey)
  end.

End crypto.

(** * Correctness *)

Section facts.
Context `{Hspec : OpenSSLSpec}.

(** The mathematical challenge: the digest of the two encodings and the message. *)
Definition challenge_of (sha2 : bytes) (Q P : EC_POINT) (message : bytes) (offset size : Z) : Z :=
  be_combine (SHA256 (((sha2 ++ EC_POINT_point2oct Q) ++ EC_POINT_point2oct P)
                      ++ slice offset size message)) mod m_order.

Lemma point2oct_33 P : zlen (EC_POINT_point2oct P) = 33 -> P <> inf.
Proof. intros Hl ->. destruct point2oct_inf as [E|E]; by rewrite E in Hl. Qed.

Lemma hash_challenge_inv sha2 Q P message offset size r :
  hash_challenge sha2 Q P message offset size = Some r ->
  r = challenge_of sha2 Q P message offset size /\ Q <> inf /\ P <> inf /\ 0 <= r < m_order.
Proof.
  unfold hash_challenge, PUBKEY_COMPRESSED_SIZE_BYTES.
  destruct (Z.eqb_spec (zlen (EC_POINT_point2oct Q)) 33) as [HQ|]; [|done].
  destruct (Z.eqb_spec (zlen (EC_POINT_point2oct P)) 33) as [HP|]; [|done].
  cbn [negb]. rewrite !SHA2.Update_app. unfold SHA2.UpdateRange.
  destruct (BN_bin2bn _) as [c|] eqn:Ec; [|done]. intros Er.
  apply bin2bn_spec in Ec. apply nnmod_spec in Er. subst c.
  split; [done|]. split; [by apply point2oct_33|]. split; [by apply point2oct_33|].
  subst r. apply Z.mod_pos_bound. pose proof order_gt_1. lia.
Qed.

(** The algebra behind both the signature and the co-signature. *)
Lemma response_equation k r d :
  padd (smul ((k - (r * d) mod m_order) mod m_order) base) (smul r (smul d base)) = smul k base.
Proof.
  pose proof order_gt_1. rewrite Zminus_mod_idemp_r, smul_mod, smul_mult, <- smul_plus.
  f_equal. lia.
Qed.

Lemma BN_is_zero_false x : BN_is_zero x = false <-> x <> 0.
Proof. apply Z.eqb_neq. Qed.

Lemma scalar_in_range x : scalar_out_of_range x = false <-> 0 < x < m_order.
Proof.
  unfold scalar_out_of_range, BN_is_zero, BN_is_negative.
  rewrite !orb_false_iff, negb_false_iff, Z.eqb_eq, BN_cmp_lt, Z.eqb_neq, Z.ltb_ge. lia.
Qed.

(** Acceptance, unfolded: what a verifier that returns [true] has checked. *)
Lemma verify_core_inv sha2 message offset size sg pk :
  verify_core sha2 message offset size sg pk = true ->
  alloc_ok = true /\ 0 < m_r sg < m_order /\ 0 < m_s sg < m_order /\
  let Q := padd (smul (m_s sg) base) (smul (m_r sg) (m_P pk)) in
  Q <> inf /\ m_P pk <> inf /\ m_r sg = challenge_of sha2 Q (m_P pk) message offset size.
Proof.
  unfold verify_core. destruct alloc_ok; [|done]. cbn [negb].
  destruct (scalar_out_of_range (m_r sg)) eqn:Er; [done|].
  destruct (scalar_out_of_range (m_s sg)) eqn:Es; [done|].
  destruct (EC_POINT_mul _ _) as [Q|] eqn:EQ; [|done].
  destruct (EC_POINT_is_at_infinity Q); [done|].
  destruct (hash_challenge _ _ _ _ _ _) as [c|] eqn:Ec; [|done].
  intros Hc. apply Z.eqb_eq in Hc. rewrite BN_cmp_eq in Hc. subst c.
  apply mul_both in EQ. apply hash_challenge_inv in Ec as (Hr & HQ & HP & _).
  rewrite scalar_in_range in Er, Es. subst Q. done.
Qed.

(** A signature that comes out of the loop satisfies the Schnorr equation. *)
Lemma sign_loop_inv nonces message offset size d pk sg :
  sign_loop nonces message offset size (mkPrivKey d) pk = Signed sg ->
  exists k, smul k base <> inf /\ m_P pk <> inf /\
    m_r sg = challenge_of SHA2.Reset (smul k base) (m_P pk) message offset size /\
    m_s sg = (k - (m_r sg * d) mod m_order) mod m_order /\
    0 < m_r sg < m_order /\ 0 < m_s sg < m_order.
Proof.
  pose proof order_gt_1 as Hord.
  induction nonces as [|[k|] nonces IH]; cbn [sign_loop m_d]; try done.
  case_test; [done|]. destruct (EC_POINT_mul _ _) as [Q|] eqn:EQ; [|done].
  destruct (hash_challenge _ _ _ _ _ _) as [r|] eqn:Er; [|done].
  destruct (BN_mod_mul _ _ _) as [rk|] eqn:Erk; [|done].
  destruct (BN_mod_sub _ _ _) as [s|] eqn:Es; [|done].
  destruct (BN_is_zero r || BN_is_zero s) eqn:Ez; [done|].
  intros [= <-]. cbn [m_r m_s].
  apply mul_base in EQ. apply mod_mul_spec in Erk. apply mod_sub_spec in Es.
  apply hash_challenge_inv in Er as (-> & HQ & HP & Hr). subst Q rk.
  apply orb_false_iff in Ez as [Ez1 Ez2]. rewrite BN_is_zero_false in Ez1, Ez2.
  exists k. split_and!; try done; try lia.
  - rewrite Es in Ez2 |- *. pose proof (Z.mod_pos_bound (k - (challenge_of SHA2.Reset (smul k base) (m_P pk) message offset size * d) mod m_order) m_order). lia.
  - rewrite Es. apply Z.mod_pos_bound. lia.
Qed.

Lemma SignRange_inv nonces message offset size d pk sg :
  SignRange nonces message offset size d pk = Signed sg ->
  message_ok message offset size = true /\ alloc_ok = true /\
  sign_loop nonces message offset size d pk = Signed sg.
Proof.
  unfold SignRange. destruct (message_ok _ _ _); [|done]. destruct alloc_ok; [|done]. done.
Qed.

(** A key pair whose public key is a proper point has its scalar in range. *)
Lemma PubKey_from_priv_inv d :
  0 <= d -> m_P (PubKey_from_priv (mkPrivKey d)) <> inf ->
  m_P (PubKey_from_priv (mkPrivKey d)) = smul d base /\ 0 < d < m_order.
Proof.
  intros Hd. unfold PubKey_from_priv, PubKey_default. cbn [m_d].
  destruct (BN_is_zero d) eqn:E0; cbn [orb m_P].
  - intros []. apply new_inf.
  - destruct (Z.eqb_spec (BN_cmp d m_order) (-1)) as [Hlt|]; cbn [negb m_P].
    + destruct (EC_POINT_mul _ _) as [R|] eqn:E; cbn [m_P]; [|intros []; apply new_inf].
      intros _. apply mul_base in E. rewrite BN_cmp_lt in Hlt. rewrite BN_is_zero_false in E0.
      split; [done|lia].
    + intros []. apply new_inf.
Qed.

Context `{Hnf : !OpenSSLNoFail}.

Lemma hash_challenge_some sha2 Q P message offset size :
  Q <> inf -> P <> inf ->
  hash_challenge sha2 Q P message offset size =
    Some (challenge_of sha2 Q P message offset size).
Proof.
  intros HQ HP. unfold hash_challenge, PUBKEY_COMPRESSED_SIZE_BYTES.
  assert (forall R, R <> inf -> (zlen (EC_POINT_point2oct R) =? 33) = true) as H33.
  { intros R HR. destruct (point2oct_len R HR (point2oct_some R)) as (b & bs & E & Hl & _).
    rewrite E. apply Z.eqb_eq. unfold zlen. cbn [length]. lia. }
  rewrite !H33 by done. cbn [negb]. rewrite !SHA2.Update_app. unfold SHA2.UpdateRange.
  destruct (bin2bn_some (SHA256 (((sha2 ++ EC_POINT_point2oct Q) ++ EC_POINT_point2oct P)
    ++ slice offset size message))) as [c Hc].
  rewrite Hc. apply bin2bn_spec in Hc. subst c.
  destruct (nnmod_some (be_combine (SHA256 (((sha2 ++ EC_POINT_point2oct Q)
    ++ EC_POINT_point2oct P) ++ slice offset size message)))) as [r Hr].
  rewrite Hr. apply nnmod_spec in Hr. by subst r.
Qed.

(** The checks [verify_core] makes are exactly the verification equation. *)
Lemma verify_core_iff sha2 message offset size sg pk :
  verify_core sha2 message offset size sg pk = true <->
  0 < m_r sg < m_order /\ 0 < m_s sg < m_order /\
  padd (smul (m_s sg) base) (smul (m_r sg) (m_P pk)) <> inf /\ m_P pk <> inf /\
  m_r sg = challenge_of sha2 (padd (smul (m_s sg) base) (smul (m_r sg) (m_P pk)))
             (m_P pk) message offset size.
Proof.
  split.
  - intros Hv. apply verify_core_inv in Hv as (_ & Hr & Hs & HQ & HP & E). done.
  - intros (Hr & Hs & HQ & HP & E). unfold verify_core. rewrite alloc_true. cbn [negb].
    rewrite (proj2 (scalar_in_range (m_r sg))), (proj2 (scalar_in_range (m_s sg))) by done.
    destruct (mul_both_some (m_s sg) (m_P pk) (m_r sg)) as [Q EQ]. rewrite EQ.
    apply mul_both in EQ. subst Q.
    destruct (EC_POINT_is_at_infinity _) eqn:Ei; [by apply is_inf_spec in Ei|].
    rewrite hash_challenge_some by done. rewrite <- E. apply Z.eqb_eq, BN_cmp_eq. done.
Qed.

Lemma PubKey_from_priv_some d :
  0 < d < m_order -> PubKey_from_priv (mkPrivKey d) = mkPubKey (smul d base).
Proof.
  intros Hd. unfold PubKey_from_priv. cbn [m_d].
  assert (BN_is_zero d = false) as -> by (apply BN_is_zero_false; lia).
  rewrite (proj2 (BN_cmp_lt d m_order)) by lia. cbn [orb negb Z.eqb Pos.eqb].
  destruct (mul_base_some d) as [R E]. rewrite E. apply mul_base in E. by subst R.
Qed.

(** One nonce for which the loop ends with a signature. *)
Definition good_nonce (d k : Z) (message : bytes) (offset size : Z) : Prop :=
  let r := challenge_of SHA2.Reset (smul k base) (smul d base) message offset size in
  k <> 0 /\ smul k base <> inf /\ r <> 0 /\ (k - (r * d) mod m_order) mod m_order <> 0.

Lemma sign_loop_step d k nonces message offset size :
  0 < d < m_order -> k mod m_order <> 0 ->
  let pk := mkPubKey (smul d base) in
  let r := challenge_of SHA2.Reset (smul k base) (smul d base) message offset size in
  let s := (k - (r * d) mod m_order) mod m_order in
  sign_loop (Some k :: nonces) message offset size (mkPrivKey d) pk =
    if BN_is_zero r || BN_is_zero s
    then sign_loop nonces message offset size (mkPrivKey d) pk
    else Signed (mkSignature r s).
Proof.
  intros Hd Hk pk r s. pose proof order_gt_1. unfold pk. cbn [sign_loop m_d m_P].
  assert (BN_is_zero k = false) as ->.
  { apply BN_is_zero_false. intros ->. by rewrite Z.mod_0_l in Hk by lia. }
  destruct (mul_base_some k) as [Q EQ]. rewrite EQ. apply mul_base in EQ. subst Q.
  assert (forall x, x mod m_order <> 0 -> smul x base <> inf) as Hni.
  { intros x Hx E. by apply base_order in E. }
  rewrite hash_challenge_some; [|by apply Hni|apply Hni; rewrite Z.mod_small; lia].
  fold r. destruct (mod_mul_some r d) as [rk E]. rewrite E. apply mod_mul_spec in E. subst rk.
  destruct (mod_sub_some k ((r * d) mod m_order)) as [s' E]. rewrite E.
  apply mod_sub_spec in E. by subst s'.
Qed.

End facts.

(** * Serialization *)

Section serialization.
Context `{Hspec : OpenSSLSpec}.

Lemma pad_bn2bin size value :
  0 <= size -> 0 <= value < 256 ^ size ->
  replicate (Z.to_nat (size - BN_num_bytes value)) 0 ++ BN_bn2bin value
  = be_split (Z.to_nat size) value.
Proof.
  intros Hs Hv. pose proof (BN_num_bytes_nonneg value).
  pose proof (BN_num_bytes_le value size ltac:(lia) Hs ltac:(lia)).
  apply be_combine_inj.
  - apply bytes_ok_app. split; [|apply be_split_ok].
    apply Forall_replicate. unfold is_byte. lia.
  - apply be_split_ok.
  - unfold BN_bn2bin. rewrite length_app, length_replicate, !length_be_split. lia.
  - rewrite be_combine_pad, be_combine_bn2bin, be_combine_split by lia.
    rewrite Z.mod_small; [done|]. rewrite Z2Nat.id by lia. lia.
Qed.

(** The number is written big-endian at the offset; the bytes before it stay,
    and the bytes after it too. *)
Lemma BIGNUM_SetNumber_spec dst offset size value :
  0 <= offset <= zlen dst -> 0 <= size -> offset + size < 2 ^ 32 -> 0 <= value < 256 ^ size ->
  BIGNUM_SetNumber dst offset size value =
    take (Z.to_nat offset) dst ++ be_split (Z.to_nat size) value
    ++ drop (Z.to_nat (offset + size)) dst.
Proof.
  intros Ho Hs H32 Hv. unfold BIGNUM_SetNumber.
  rewrite (wrap_small 32) by (unfold in_range; lia).
  destruct (Z.ltb_spec (offset + size) size); [lia|].
  pose proof (BN_num_bytes_le value size ltac:(lia) Hs ltac:(lia)).
  destruct (Z.leb_spec (BN_num_bytes value) size); [|lia].
  rewrite (app_assoc (replicate _ _)), pad_bn2bin by lia.
  destruct (Z.gtb_spec (offset + size) (zlen dst)); [|done].
  unfold vec_resize, zlen in *. rewrite take_resize_le, resize_le by lia.
  rewrite (drop_ge dst) by lia. f_equal. f_equal.
  rewrite drop_ge; [done|]. rewrite length_resize. lia.
Qed.

Lemma BIGNUM_GetNumber_spec src offset size bn :
  0 <= offset -> 0 <= size -> offset + size <= zlen src -> zlen src < 2 ^ 32 ->
  BIGNUM_GetNumber src offset size = Some bn -> bn = be_combine (slice offset size src).
Proof.
  intros. unfold BIGNUM_GetNumber in *.
  rewrite (wrap_small 32) in * by (unfold in_range; lia).
  destruct (Z.ltb_spec (offset + size) size); [lia|].
  destruct (Z.gtb_spec (offset + size) (zlen src)); [lia|]. by apply bin2bn_spec.
Qed.

Context `{Hnf : !OpenSSLNoFail}.

Lemma BIGNUM_GetNumber_at p size value t :
  0 <= size -> 0 <= value < 256 ^ size ->
  zlen (p ++ be_split (Z.to_nat size) value ++ t) < 2 ^ 32 ->
  BIGNUM_GetNumber (p ++ be_split (Z.to_nat size) value ++ t) (zlen p) size = Some value.
Proof.
  intros Hs Hv Hl. unfold BIGNUM_GetNumber. rewrite !zlen_app, zlen_be_split in *.
  rewrite Z2Nat.id in * by lia. pose proof (zlen_nonneg p). pose proof (zlen_nonneg t).
  rewrite (wrap_small 32) by (unfold in_range; lia).
  destruct (Z.ltb_spec (zlen p + size) size); [lia|].
  destruct (Z.gtb_spec (zlen p + size) (zlen p + (size + zlen t))); [lia|].
  assert (slice (zlen p) size (p ++ be_split (Z.to_nat size) value ++ t)
          = be_split (Z.to_nat size) value) as ->.
  { unfold slice, zlen. rewrite Nat2Z.id, drop_app_length.
    rewrite <- (length_be_split (Z.to_nat size) value) at 1. apply take_app_length. }
  destruct (bin2bn_some (be_split (Z.to_nat size) value)) as [v E]. rewrite E.
  apply bin2bn_spec in E. rewrite be_combine_split, Z2Nat.id, Z.mod_small in E by lia. congruence.
Qed.

(** Compressed octets, as a number, are read back as the same point. *)
Lemma point2bn_some P :
  P <> inf -> exists bn, EC_POINT_point2bn P = Some bn /\ 0 <= bn < 256 ^ 33 /\
    bn = be_combine (EC_POINT_point2oct P) /\ EC_POINT_bn2point bn = Some P.
Proof.
  intros HP. destruct (point2oct_len P HP (point2oct_some P)) as (b & bs & E & Hl & Hb).
  unfold EC_POINT_point2bn, EC_POINT_bn2point. pose proof (point2oct_ok P) as Hok.
  destruct (bin2bn_some (EC_POINT_point2oct P)) as [bn Ebn].
  exists bn. rewrite Ebn. apply bin2bn_spec in Ebn. rewrite E in *.
  pose proof (be_combine_bound _ Hok) as Hbd.
  assert (zlen (b :: bs) = 33) as Hz by (unfold zlen; cbn [length]; lia). rewrite Hz in *.
  pose proof (bn2bin_combine b bs Hok ltac:(lia)) as Hbin. rewrite <- Ebn in Hbin.
  split; [done|]. split; [lia|]. split; [done|].
  destruct (Z.eqb_spec (BN_num_bytes bn) 0) as [E0|_].
  { unfold BN_bn2bin in Hbin. by rewrite E0 in Hbin. }
  rewrite alloc_true, Hbin, <- E. cbn [negb].
  destruct (oct2point_some P HP) as [R ER]. rewrite ER. f_equal.
  eapply oct2point_spec; [apply point2oct_some|done].
Qed.

(** [PubKey::operator==] decides equality of the points. *)
Lemma PubKey_eq_spec a b :
  m_P a <> inf -> m_P b <> inf -> PubKey_eq a b = true <-> a = b.
Proof.
  intros Ha Hb. unfold PubKey_eq, comparePreChecks. rewrite alloc_true. cbn [negb].
  destruct (point2bn_some _ Ha) as (x & Ex & _ & _ & Hx).
  destruct (point2bn_some _ Hb) as (y & Ey & _ & _ & Hy).
  rewrite Ex, Ey, Z.eqb_eq, BN_cmp_eq. destruct a, b; cbn [m_P] in *. split.
  - intros ->. congruence.
  - congruence.
Qed.

(** ** Written and read at a split of the buffer *)

Lemma BIGNUM_SetNumber_at p s size value :
  0 <= size -> zlen p + size < 2 ^ 32 -> 0 <= value < 256 ^ size ->
  BIGNUM_SetNumber (p ++ s) (zlen p) size value =
    p ++ be_split (Z.to_nat size) value ++ drop (Z.to_nat size) s.
Proof.
  intros Hs H32 Hv. pose proof (zlen_nonneg p). pose proof (zlen_nonneg s).
  rewrite BIGNUM_SetNumber_spec by (rewrite ?zlen_app; lia).
  unfold zlen. rewrite Nat2Z.id, take_app_length, Z2Nat.inj_add, Nat2Z.id by lia.
  by rewrite drop_app_add.
Qed.

Lemma Signature_written sg p s :
  0 <= m_r sg < 2 ^ 256 -> 0 <= m_s sg < 2 ^ 256 -> zlen p + 64 < 2 ^ 32 ->
  (Signature_Serialize sg (p ++ s) (zlen p)).2 =
    p ++ be_split 32 (m_r sg) ++ be_split 32 (m_s sg) ++ drop 64 s.
Proof.
  intros Hr Hs H32. pose proof (zlen_nonneg p).
  unfold Signature_Serialize, SIGNATURE_CHALLENGE_SIZE, SIGNATURE_RESPONSE_SIZE. cbn [snd].
  rewrite (wrap_small 32) by (unfold in_range; lia).
  rewrite BIGNUM_SetNumber_at by lia. rewrite app_assoc.
  assert (zlen p + 32 = zlen (p ++ be_split (Z.to_nat 32) (m_r sg))) as ->
    by (rewrite zlen_app, zlen_be_split; lia).
  rewrite BIGNUM_SetNumber_at by (rewrite ?zlen_app, ?zlen_be_split; lia).
  by rewrite <- app_assoc, drop_drop.
Qed.

Lemma Signature_read sg old p s :
  0 <= m_r sg < 2 ^ 256 -> 0 <= m_s sg < 2 ^ 256 -> zlen p + zlen s + 64 < 2 ^ 32 ->
  Signature_Deserialize old (p ++ be_split 32 (m_r sg) ++ be_split 32 (m_s sg) ++ s) (zlen p)
    = (0, sg).
Proof.
  intros Hr Hs H32. pose proof (zlen_nonneg p). pose proof (zlen_nonneg s).
  unfold Signature_Deserialize, SIGNATURE_CHALLENGE_SIZE, SIGNATURE_RESPONSE_SIZE.
  rewrite (wrap_small 32) by (unfold in_range; lia).
  change 32%nat with (Z.to_nat 32).
  rewrite BIGNUM_GetNumber_at by (rewrite ?zlen_app, ?zlen_be_split; lia).
  rewrite app_assoc.
  replace (zlen p + 32) with (zlen (p ++ be_split (Z.to_nat 32) (m_r sg)))
    by (rewrite zlen_app, zlen_be_split; lia).
  rewrite BIGNUM_GetNumber_at by (rewrite ?zlen_app, ?zlen_be_split; lia).
  destruct (bn_copy_some (m_r sg)) as [x Ex], (bn_copy_some (m_s sg)) as [y Ey].
  rewrite Ex, Ey. apply bn_copy_spec in Ex, Ey. rewrite Ex, Ey. by destruct sg.
Qed.

Lemma ECPOINT_codec P dst :
  P <> inf -> zlen dst + 33 < 2 ^ 32 ->
  ECPOINT_GetNumber (ECPOINT_SetNumber dst (zlen dst) 33 P) (zlen dst) 33 = Some P.
Proof.
  intros HP Hl. pose proof (zlen_nonneg dst).
  destruct (point2bn_some _ HP) as (bn & E & Hb & _ & Hback).
  unfold ECPOINT_SetNumber, ECPOINT_GetNumber. rewrite alloc_true, E. cbn [negb].
  rewrite <- (app_nil_r dst) at 1. rewrite BIGNUM_SetNumber_at by lia.
  rewrite BIGNUM_GetNumber_at; [done|lia|lia|].
  rewrite !zlen_app, zlen_be_split, drop_nil. unfold zlen at 2. cbn [length]. lia.
Qed.

(** A key on the wire: 33 bytes, at any place of a buffer. *)
Lemma PubKey_codec k :
  m_P k <> inf ->
  exists enc, zlen enc = 33 /\ bytes_ok enc /\
    (forall p s, zlen p + 33 < 2 ^ 32 -> (PubKey_Serialize k (p ++ s) (zlen p)).2 = p ++ enc ++ drop 33 s) /\
    (forall p s old, zlen p + zlen s + 33 < 2 ^ 32 ->
       PubKey_Deserialize old (p ++ enc ++ s) (zlen p) = (0, k)).
Proof.
  intros HP. destruct (point2bn_some _ HP) as (bn & E & Hb & _ & Hback).
  exists (be_split 33 bn). split; [apply zlen_be_split|]. split; [apply be_split_ok|]. split.
  - intros p s Hl. unfold PubKey_Serialize, PUB_KEY_SIZE, ECPOINT_SetNumber. rewrite alloc_true, E. cbn [negb snd].
    by rewrite BIGNUM_SetNumber_at by lia.
  - intros p s old Hl. unfold PubKey_Deserialize, PUB_KEY_SIZE, ECPOINT_GetNumber.
    change 33%nat with (Z.to_nat 33). rewrite BIGNUM_GetNumber_at, alloc_true, Hback;
      [|lia|lia|rewrite !zlen_app, zlen_be_split; lia]. cbn [negb].
    destruct (copy_point_some (m_P k)) as [R ER]. rewrite ER.
    apply copy_point_spec in ER. subst R. by destruct k.
Qed.

(** A signature that signing returned is accepted. *)
Lemma Sign_Verify_complete nonces message d sg :
  0 <= d ->
  Sign nonces message (mkPrivKey d) (PubKey_from_priv (mkPrivKey d)) = Signed sg ->
  Verify message sg (PubKey_from_priv (mkPrivKey d)) = true /\
  0 < m_r sg < m_order /\ 0 < m_s sg < m_order /\
  m_P (PubKey_from_priv (mkPrivKey d)) <> inf.
Proof.
  intros Hd Hs. apply SignRange_inv in Hs as (Hm & _ & Hs).
  apply sign_loop_inv in Hs as (k & HQ & HP & Hr & Hsg & Hrr & Hss).
  destruct (PubKey_from_priv_inv d Hd HP) as [EP Hdr]. rewrite EP in Hr.
  split; [|done]. unfold Verify, VerifyRange. rewrite Hm. cbn [negb]. apply verify_core_iff.
  rewrite EP, Hsg, response_equation, <- Hsg. rewrite EP in HP. done.
Qed.

End serialization.

(** * Properties *)

Section properties.
Context `{Hnf : OpenSSLNoFail}.

(** C34: completeness of Schnorr signing.  Whatever the nonces drawn, when
    [Schnorr::Sign] returns true for a private key and the public key computed
    from it, [Schnorr::Verify] accepts the signature on the same message. *)
Theorem Sign_Verify nonces message d sg :
  0 <= d ->
  Sign nonces message (mkPrivKey d) (PubKey_from_priv (mkPrivKey d)) = Signed sg ->
  Verify message sg (PubKey_from_priv (mkPrivKey d)) = true.
Proof.
  intros Hd Hs. by destruct (Sign_Verify_complete _ _ _ _ Hd Hs).
Qed.

(** [Schnorr::Sign] terminates with a signature: if every draw is a number of
    the range [0, order) and some draw leads to a challenge and a response that
    are not zero, the loop ends at a signature (a non-empty message, a valid
    key, no OpenSSL error). *)
Theorem Sign_returns nonces message d :
  0 < d < m_order -> 0 < zlen message < 2 ^ 32 ->
  Forall (fun n => exists k, n = Some k /\ 0 <= k < m_order) nonces ->
  Exists (fun n => exists k, n = Some k /\ good_nonce d k message 0 (zlen message)) nonces ->
  exists sg, Sign nonces message (mkPrivKey d) (PubKey_from_priv (mkPrivKey d)) = Signed sg.
Proof.
  intros Hd Hm Hall Hex. pose proof order_gt_1. rewrite PubKey_from_priv_some by done.
  unfold Sign, SignRange, message_ok.
  rewrite (wrap_small 32 (zlen message)) by (unfold in_range; lia).
  rewrite (wrap_small 32 (0 + zlen message)) by (unfold in_range; lia).
  destruct (Z.eqb_spec (zlen message) 0), (Z.ltb_spec (zlen message) (0 + zlen message)); try lia.
  rewrite alloc_true. cbn [negb andb].
  induction nonces as [|x nonces IH]; [by apply Exists_nil in Hex|].
  apply Forall_cons_1 in Hall as [(k & -> & Hk) Hall]. rewrite Exists_cons in Hex.
  destruct (Z.eq_dec k 0) as [->|Hk0].
  - cbn [sign_loop BN_is_zero Z.eqb]. apply IH; [done|].
    destruct Hex as [(k' & [= <-] & Hg & _)|]; done.
  - rewrite sign_loop_step by (rewrite ?Z.mod_small; lia).
    case_test; [|eauto]. apply IH; [done|].
    destruct Hex as [(k' & [= <-] & _ & _ & Hr & Hs)|]; [|done].
    apply orb_true_iff in E as [E|E]; apply Z.eqb_eq in E; congruence.
Qed.

(** the verification equation.  With OpenSSL not failing, [Schnorr::Verify]
    accepts exactly the pairs (r, s) in range whose recomputed commitment
    Q = sG + rP is a proper point and whose challenge H(Q, P, m) mod order is r. *)
Theorem Verify_iff message sg pk :
  Verify message sg pk = true <->
  message_ok message 0 (u32 (zlen message)) = true /\
  0 < m_r sg < m_order /\ 0 < m_s sg < m_order /\ m_P pk <> inf /\
  padd (smul (m_s sg) base) (smul (m_r sg) (m_P pk)) <> inf /\
  m_r sg = challenge_of SHA2.Reset (padd (smul (m_s sg) base) (smul (m_r sg) (m_P pk)))
             (m_P pk) message 0 (u32 (zlen message)).
Proof.
  unfold Verify, VerifyRange. destruct (message_ok _ _ _); cbn [negb].
  - rewrite verify_core_iff. naive_solver.
  - naive_solver.
Qed.

(** A signature survives serialization: for scalars below 2^256 (every scalar
    modulo the order is), [Signature::Deserialize] at the offset where
    [Signature::Serialize] wrote returns 0 and the same signature, whatever the
    buffer held before ([p]) and after ([s]) the offset; the bytes around the 64
    written ones do not change. *)
Theorem Signature_roundtrip sg old p s :
  0 <= m_r sg < 2 ^ 256 -> 0 <= m_s sg < 2 ^ 256 -> zlen p + zlen s + 64 < 2 ^ 32 ->
  exists written,
    Signature_Serialize sg (p ++ s) (zlen p) = (64, p ++ written ++ drop 64 s) /\
    zlen written = 64 /\
    Signature_Deserialize old (p ++ written ++ drop 64 s) (zlen p) = (0, sg).
Proof.
  intros Hr Hs H32. pose proof (zlen_nonneg p). pose proof (zlen_nonneg s).
  exists (be_split 32 (m_r sg) ++ be_split 32 (m_s sg)).
  rewrite (surjective_pairing (Signature_Serialize _ _ _)), Signature_written by lia.
  rewrite <- app_assoc, zlen_app, !zlen_be_split. split; [done|]. split; [done|].
  apply Signature_read; try done. unfold zlen in *. rewrite length_drop. lia.
Qed.

(** A public key survives serialization in compressed form: [Deserialize]
    after [Serialize] at the end of any buffer gives the same point, for every
    key other than the point at infinity. *)
Theorem PubKey_roundtrip k old dst :
  m_P k <> inf -> zlen dst + 33 < 2 ^ 32 ->
  PubKey_Deserialize old (PubKey_Serialize k dst (zlen dst)).2 (zlen dst) = (0, k).
Proof.
  intros HP Hl. destruct (PubKey_codec k HP) as (enc & _ & _ & Hw & Hr).
  rewrite <- (app_nil_r dst) at 1. rewrite Hw by done. apply Hr. unfold zlen at 2. cbn. lia.
Qed.

End properties.

(** Concrete keys on the cyclic group: the witnesses' inputs. *)
Example sample_message : bytes := [1; 2; 3; 4; 5].

Lemma Sign_Verify_witness :
  Verify sample_message
    (mkSignature 204 559) (PubKey_from_priv (mkPrivKey 77)) = true.
Proof.
  apply (Sign_Verify [Some 0; Some 123]); [lia|]. vm_compute. reflexivity.
Defined.

Lemma Sign_returns_witness :
  exists sg, Sign [Some 0; Some 123] sample_message (mkPrivKey 77)
               (PubKey_from_priv (mkPrivKey 77)) = Signed sg.
Proof.
  apply Sign_returns; [split; reflexivity|split; reflexivity| |].
  - repeat constructor; eexists; (split; [reflexivity|split; [discriminate|reflexivity]]).
  - apply Exists_cons_tl, Exists_cons_hd. exists 123. split; [reflexivity|].
    split; [discriminate|]. split.
    { intros E. apply (f_equal Cyclic.val) in E. vm_compute in E. discriminate E. }
    split; vm_compute; discriminate.
Defined.

Lemma Verify_iff_witness :
  0 < m_s (mkSignature 204 559) < m_order /\ m_P (PubKey_from_priv (mkPrivKey 77)) <> inf.
Proof.
  destruct (proj1 (Verify_iff sample_message (mkSignature 204 559) (PubKey_from_priv (mkPrivKey 77))))
    as (_ & _ & Hs & HP & _); [vm_compute; reflexivity|].
  split; [exact Hs|exact HP].
Defined.

Lemma Signature_roundtrip_witness :
  exists written,
    Signature_Serialize (mkSignature 204 559) sample_message 2 = (64, [1; 2] ++ written) /\
    Signature_Deserialize Signature_default ([1; 2] ++ written ++ []) 2 = (0, mkSignature 204 559).
Proof.
  destruct (Signature_roundtrip (mkSignature 204 559) Signature_default [1; 2] [3; 4; 5])
    as (written & E & _ & E'); [split; [discriminate|reflexivity]..|reflexivity|].
  exists written. split; [|exact E']. rewrite <- (app_nil_r written). exact E.
Defined.

Lemma PubKey_roundtrip_witness :
  PubKey_Deserialize PubKey_default
    (PubKey_Serialize (PubKey_from_priv (mkPrivKey 77)) sample_message 5).2 5
  = (0, PubKey_from_priv (mkPrivKey 77)).
Proof.
  apply (PubKey_roundtrip (PubKey_from_priv (mkPrivKey 77)) PubKey_default sample_message).
  - intros E. apply (f_equal Cyclic.val) in E. vm_compute in E. discriminate E.
  - reflexivity.
Defined.
