(* ===== verification/MultiSig.v ===== *)
(** * Multi-signatures ([libCrypto/MultiSig.cpp])

    Every class of the protocol (CommitSecret, CommitPoint, CommitPointHash,
    Challenge, Response) is a value with the [m_initialized] flag.  The object's
    own allocation is assumed to succeed; a [Deserialize] that could not read
    the number leaves a null pointer, which is the [None] of its result. *)

From stdpp Require Import base numbers list.
From S2P Require Import Prelude OpenSSL Schnorr.
Open Scope Z_scope.

Definition SECOND_DOMAIN_SEPARATED_HASH_FUNCTION_BYTE : Z := 0x01.
Definition THIRD_DOMAIN_SEPARATED_HASH_FUNCTION_BYTE : Z := 0x11.

Definition COMMIT_SECRET_SIZE : Z := 32.
Definition COMMIT_POINT_HASH_SIZE : Z := 32.
Definition COMMIT_POINT_SIZE : Z := 33.
Definition CHALLENGE_SIZE : Z := 32.
Definition RESPONSE_SIZE : Z := 32.

Record msobj (V : Type) := mkObj { val : V; Initialized : bool }.
Arguments mkObj {V} val Initialized.
Arguments val {V} _.
Arguments Initialized {V} _.

Section multisig.
Context `{OpenSSL}.

Abbreviation CommitSecret := (msobj Z).
Abbreviation CommitPoint := (msobj EC_POINT).
Abbreviation CommitPointHash := (msobj Z).
Abbreviation Challenge := (msobj Z).
Abbreviation Response := (msobj Z).

(** ** Copying

    The copy constructors and the assignments set the flag from the outcome of
    the copy of the value; the flag of the source is not read. *)

Definition BN_obj_copy (src : msobj Z) : msobj Z :=
  match BN_copy (val src) with
  | None => mkObj 0 false
  | Some v => mkObj v true
  end.

Definition BN_obj_assign (dst src : msobj Z) : msobj Z :=
  match BN_copy (val src) with
  | None => mkObj (val dst) false
  | Some v => mkObj v true
  end.

Definition CommitSecret_copy (src : CommitSecret) : CommitSecret := BN_obj_copy src.
Definition CommitPointHash_copy (src : CommitPointHash) : CommitPointHash := BN_obj_copy src.
Definition Challenge_copy (src : Challenge) : Challenge := BN_obj_copy src.
Definition Response_copy (src : Response) : Response := BN_obj_copy src.
Definition CommitPoint_copy (src : CommitPoint) : CommitPoint :=
  match EC_POINT_copy (val src) with
  | None => mkObj EC_POINT_new false
  | Some v => mkObj v true
  end.

Definition CommitSecret_assign (dst src : CommitSecret) : CommitSecret := BN_obj_assign dst src.
Definition CommitPointHash_assign (dst src : CommitPointHash) : CommitPointHash :=
  BN_obj_assign dst src.
Definition Challenge_assign (dst src : Challenge) : Challenge := BN_obj_assign dst src.
Definition Response_assign (dst src : Response) : Response := BN_obj_assign dst src.
Definition CommitPoint_assign (dst src : CommitPoint) : CommitPoint :=
  match EC_POINT_copy (val src) with
  | None => mkObj (val dst) false
  | Some v => mkObj v true
  end.

(** Equality is only ever true of initialized objects. *)
Definition BN_obj_eq (a b : msobj Z) : bool :=
  Initialized a && Initialized b && (BN_cmp (val a) (val b) =? 0).

Definition CommitSecret_eq (a b : CommitSecret) : bool := BN_obj_eq a b.
Definition CommitPointHash_eq (a b : CommitPointHash) : bool := BN_obj_eq a b.
Definition Challenge_eq (a b : Challenge) : bool := BN_obj_eq a b.
Definition Response_eq (a b : Response) : bool := BN_obj_eq a b.
Definition CommitPoint_eq (a b : CommitPoint) : bool :=
  if negb alloc_ok then false
  else Initialized a && Initialized b && (EC_POINT_cmp (val a) (val b) =? 0).

(** ** Serialization *)

Definition BN_obj_Serialize (n : Z) (o : msobj Z) (dst : bytes) (offset : Z) : Z * bytes :=
  (n, if Initialized o then BIGNUM_SetNumber dst offset n (val o) else dst).

(** The return code is 0 in both cases. *)
Definition BN_obj_Deserialize (n : Z) (src : bytes) (offset : Z) : Z * option (msobj Z) :=
  match BIGNUM_GetNumber src offset n with
  | None => (0, None)
  | Some v => (0, Some (mkObj v true))
  end.

Definition CommitSecret_Serialize (o : CommitSecret) := BN_obj_Serialize COMMIT_SECRET_SIZE o.
Definition CommitSecret_Deserialize := BN_obj_Deserialize COMMIT_SECRET_SIZE.
Definition CommitPointHash_Serialize (o : CommitPointHash) :=
  BN_obj_Serialize COMMIT_POINT_HASH_SIZE o.
Definition CommitPointHash_Deserialize := BN_obj_Deserialize COMMIT_POINT_HASH_SIZE.
Definition Challenge_Serialize (o : Challenge) := BN_obj_Serialize CHALLENGE_SIZE o.
Definition Challenge_Deserialize := BN_obj_Deserialize CHALLENGE_SIZE.
Definition Response_Serialize (o : Response) := BN_obj_Serialize RESPONSE_SIZE o.
Definition Response_Deserialize := BN_obj_Deserialize RESPONSE_SIZE.

Definition CommitPoint_Serialize (o : CommitPoint) (dst : bytes) (offset : Z) : Z * bytes :=
  (COMMIT_POINT_SIZE,
   if Initialized o then ECPOINT_SetNumber dst offset COMMIT_POINT_SIZE (val o) else dst).

Definition CommitPoint_Deserialize (src : bytes) (offset : Z) : Z * option CommitPoint :=
  match ECPOINT_GetNumber src offset COMMIT_POINT_SIZE with
  | None => (0, None)
  | Some P => (0, Some (mkObj P true))
  end.

(** ** Construction *)

(** [CommitSecret()]: draw from [0, order) until not zero; an error ends the
    loop uninitialized.  [None]: the draws given were not enough. *)
Fixpoint CommitSecret_new (s : Z) (draws : list (option Z)) : option CommitSecret :=
  match draws with
  | [] => None
  | None :: _ => Some (mkObj s false)
  | Some x :: draws' => if BN_is_zero x then CommitSecret_new x draws' else Some (mkObj x true)
  end.

Definition CommitPoint_default : CommitPoint := mkObj EC_POINT_new false.

Definition CommitPoint_Set (o : CommitPoint) (secret : CommitSecret) : CommitPoint :=
  if negb (Initialized secret) then o
  else
    match EC_POINT_mul (Some (val secret)) None with
    | None => mkObj (val o) false
    | Some P => mkObj P true
    end.

Definition CommitPoint_from_secret (secret : CommitSecret) : CommitPoint :=
  CommitPoint_Set CommitPoint_default secret.

Definition CommitPointHash_Set (o : CommitPointHash) (point : CommitPoint) : CommitPointHash :=
  if negb (Initialized point) then o
  else
    let sha2 := SHA2.Update SHA2.Reset [SECOND_DOMAIN_SEPARATED_HASH_FUNCTION_BYTE] in
    let buf := EC_POINT_point2oct (val point) in
    if negb (zlen buf =? PUBKEY_COMPRESSED_SIZE_BYTES) then mkObj (val o) false
    else
      let sha2 := SHA2.Update sha2 buf in
      let digest := SHA256 sha2 in
      match BN_bin2bn digest with
      | None => mkObj (val o) false
      | Some h =>
          match BN_nnmod h m_order with
          | None => mkObj h false
          | Some h' => mkObj h' true
          end
      end.

Definition CommitPointHash_new (point : CommitPoint) : CommitPointHash :=
  CommitPointHash_Set (mkObj 0 false) point.

(** The hash context of the third domain. *)
Definition third_domain : bytes :=
  SHA2.Update SHA2.Reset [THIRD_DOMAIN_SEPARATED_HASH_FUNCTION_BYTE].

Definition Challenge_default : Challenge := mkObj 0 false.

Definition Challenge_Set (o : Challenge) (aggregatedCommit : CommitPoint)
    (aggregatedPubkey : PubKey) (message : bytes) (offset size : Z) : Challenge :=
  if negb (Initialized aggregatedCommit) then o
  else if zlen message =? 0 then o
  else if zlen message <? u32 (offset + size) then o
  else
    match hash_challenge third_domain (val aggregatedCommit) (m_P aggregatedPubkey)
            message offset size with
    | None => mkObj (val o) false
    | Some c => mkObj c true
    end.

(** [Challenge(aggregatedCommit, aggregatedPubkey, message)] *)
Definition Challenge_new (aggregatedCommit : CommitPoint) (aggregatedPubkey : PubKey)
    (message : bytes) : Challenge :=
  Challenge_Set Challenge_default aggregatedCommit aggregatedPubkey message 0 (u32 (zlen message)).

Definition Response_default : Response := mkObj 0 false.

Definition Response_Set (o : Response) (secret : CommitSecret) (challenge : Challenge)
    (privkey : PrivKey) : Response :=
  if Initialized o then o
  else if negb (Initialized secret) then o
  else if negb (Initialized challenge) then o
  else if negb alloc_ok then mkObj (val o) false
  else
    match BN_mod_mul (val challenge) (m_d privkey) m_order with
    | None => mkObj (val o) false
    | Some x =>
        match BN_mod_sub (val secret) x m_order with
        | None => mkObj x false
        | Some r => mkObj r true
        end
    end.

Definition Response_new (secret : CommitSecret) (challenge : Challenge) (privkey : PrivKey)
  : Response := Response_Set Response_default secret challenge privkey.

(** ** Aggregation ([None] is the null result) *)

Fixpoint add_points (acc : EC_POINT) (l : list EC_POINT) : option EC_POINT :=
  match l with
  | [] => Some acc
  | P :: l' =>
      match EC_POINT_add acc P with
      | None => None
      | Some acc' => add_points acc' l'
      end
  end.

Definition AggregatePubKeys (pubkeys : list PubKey) : option PubKey :=
  match pubkeys with
  | [] => None
  | k :: rest =>
      match add_points (m_P (PubKey_copy k)) (m_P <$> rest) with
      | None => None
      | Some P => Some (mkPubKey P)
      end
  end.

Definition AggregateCommits (commitPoints : list CommitPoint) : option CommitPoint :=
  match commitPoints with
  | [] => None
  | c :: rest =>
      let aggregatedCommit := CommitPoint_copy c in
      match add_points (val aggregatedCommit) (val <$> rest) with
      | None => None
      | Some P => Some (mkObj P (Initialized aggregatedCommit))
      end
  end.

Fixpoint add_scalars (acc : Z) (l : list Z) : option Z :=
  match l with
  | [] => Some acc
  | x :: l' =>
      match BN_mod_add acc x m_order with
      | None => None
      | Some acc' => add_scalars acc' l'
      end
  end.

Definition AggregateResponses (responses : list Response) : option Response :=
  match responses with
  | [] => None
  | r :: rest =>
      let aggregatedResponse := Response_copy r in
      if negb alloc_ok then None
      else
        match add_scalars (val aggregatedResponse) (val <$> rest) with
        | None => None
        | Some v => Some (mkObj v (Initialized aggregatedResponse))
        end
  end.

Definition AggregateSign (challenge : Challenge) (aggregatedResponse : Response)
  : option Signature :=
  if negb (Initialized challenge) then None
  else if negb (Initialized aggregatedResponse) then None
  else
    match BN_copy (val challenge) with
    | None => None
    | Some r =>
        match BN_copy (val aggregatedResponse) with
        | None => None
        | Some s => Some (mkSignature r s)
        end
    end.

(** ** Verification *)

Definition VerifyResponse (response : Response) (challenge : Challenge) (pubkey : PubKey)
    (commitPoint : CommitPoint) : bool :=
  if negb (Initialized response) then false
  else if negb (Initialized challenge) then false
  else if negb (Initialized commitPoint) then false
  else if negb alloc_ok then false
  else if BN_is_zero (val response) || negb (BN_cmp (val response) m_order =? -1) then false
  else
    match EC_POINT_mul (Some (val response)) (Some (m_P pubkey, val challenge)) with
    | None => false
    | Some Q => EC_POINT_cmp Q (val commitPoint) =? 0
    end.

Definition MultiSigVerifyRange (message : bytes) (offset size : Z) (toverify : Signature)
    (pubkey : PubKey) : bool :=
  if negb (message_ok message offset size) then false
  else verify_core third_domain message offset size toverify pubkey.

Definition MultiSigVerify (message : bytes) (toverify : Signature) (pubkey : PubKey) : bool :=
  MultiSigVerifyRange message 0 (u32 (zlen message)) toverify pubkey.

(** Proof of possession of a key ([SignKey], [VerifyKey]). *)
Definition SignKey (nonces : list (option Z)) (messageWithPubKey : bytes)
    (keyPair : PrivKey * PubKey) : sign_outcome :=
  Sign nonces messageWithPubKey keyPair.1 keyPair.2.

Definition VerifyKey (messageWithPubKey : bytes) (signature : Signature) (pubKey : PubKey) : bool :=
  Verify messageWithPubKey signature pubKey.

End multisig.

Abbreviation CommitSecret := (msobj Z).
Abbreviation CommitPoint := (msobj EC_POINT).
Abbreviation CommitPointHash := (msobj Z).
Abbreviation Challenge := (msobj Z).
Abbreviation Response := (msobj Z).

(** * Facts *)

Section facts.
Context `{Hspec : OpenSSLSpec}.

Lemma add_points_inv acc l P : add_points acc l = Some P -> P = padd acc (psum l).
Proof.
  revert acc. induction l as [|Q l IH]; intros acc; cbn.
  - intros [= <-]. by rewrite padd_inf_r.
  - destruct (EC_POINT_add acc Q) as [R|] eqn:E; [|done]. intros HP.
    apply IH in HP. apply add_spec in E. subst. by rewrite padd_assoc.
Qed.

Lemma add_scalars_inv acc l v :
  add_scalars acc l = Some v -> v mod m_order = (acc + zsum l) mod m_order.
Proof.
  revert acc. induction l as [|x l IH]; intros acc; cbn.
  - intros [= <-]. by rewrite Z.add_0_r.
  - destruct (BN_mod_add acc x m_order) as [r|] eqn:E; [|done]. intros HP.
    apply IH in HP. apply mod_add_spec in E. subst r.
    rewrite HP, Zplus_mod_idemp_l. f_equal. lia.
Qed.

Lemma add_scalars_range acc l v :
  0 <= acc < m_order -> add_scalars acc l = Some v -> 0 <= v < m_order.
Proof.
  revert acc. induction l as [|x l IH]; intros acc Ha; cbn.
  - by intros [= <-].
  - destruct (BN_mod_add acc x m_order) as [r|] eqn:E; [|done]. apply mod_add_spec in E.
    apply IH. subst r. apply Z.mod_pos_bound. pose proof order_gt_1. lia.
Qed.

(** What an accepted response proves: the equation rG + cP = Q. *)
Lemma VerifyResponse_inv r c pk cp :
  VerifyResponse r c pk cp = true ->
  padd (smul (val r) base) (smul (val c) (m_P pk)) = val cp /\
  val r <> 0 /\ val r < m_order /\
  Initialized r = true /\ Initialized c = true /\ Initialized cp = true.
Proof.
  unfold VerifyResponse.
  destruct (Initialized r), (Initialized c), (Initialized cp), alloc_ok; cbn [negb]; try done.
  destruct (BN_is_zero (val r)) eqn:E0; [done|]. cbn [orb].
  destruct (Z.eqb_spec (BN_cmp (val r) m_order) (-1)) as [Hlt|]; [|done]. cbn [negb].
  destruct (EC_POINT_mul _ _) as [Q|] eqn:EQ; [|done]. intros Hc.
  apply Z.eqb_eq, cmp_spec in Hc. apply mul_both in EQ. rewrite BN_is_zero_false in E0.
  rewrite BN_cmp_lt in Hlt. subst Q. done.
Qed.

(** What an accepted response satisfies. *)
Definition response_equation_holds (c : Challenge) (s : PubKey * CommitPoint * Response) : Prop :=
  padd (smul (val s.2) base) (smul (val c) (m_P s.1.1)) = val s.1.2.

(** The sum of the equations. *)
Lemma accepted_sum (c : Challenge) (signers : list (PubKey * CommitPoint * Response)) :
  Forall (response_equation_holds c) signers ->
  padd (smul (zsum ((fun s => val s.2) <$> signers)) base)
       (smul (val c) (psum ((fun s => m_P s.1.1) <$> signers)))
  = psum ((fun s => val s.1.2) <$> signers).
Proof.
  induction 1 as [|s signers Hs _ IH]; cbn.
  - by rewrite smul_0, smul_inf, padd_inf.
  - unfold response_equation_holds in Hs. rewrite <- Hs, <- IH.
    rewrite smul_plus, smul_padd. rewrite <- !padd_assoc. f_equal.
    rewrite !padd_assoc. f_equal. apply padd_comm.
Qed.

Lemma Challenge_new_inv cp pk message :
  Initialized (Challenge_new cp pk message) = true ->
  Initialized cp = true /\ message_ok message 0 (u32 (zlen message)) = true /\
  val cp <> inf /\ m_P pk <> inf /\
  val (Challenge_new cp pk message)
    = challenge_of third_domain (val cp) (m_P pk) message 0 (u32 (zlen message)) /\
  0 <= val (Challenge_new cp pk message) < m_order.
Proof.
  unfold Challenge_new, Challenge_Set, message_ok.
  destruct (Initialized cp); [|done]. cbn [negb].
  destruct (zlen message =? 0); [done|]. destruct (zlen message <? _); [done|].
  destruct (hash_challenge _ _ _ _ _ _) as [c|] eqn:E; [|done]. intros _.
  apply hash_challenge_inv in E as (-> & HQ & HP & Hr). done.
Qed.

Context `{Hnf : !OpenSSLNoFail}.

Lemma add_points_some acc l : add_points acc l = Some (padd acc (psum l)).
Proof.
  destruct (add_points acc l) as [P|] eqn:E; [by rewrite (add_points_inv _ _ _ E)|].
  exfalso. revert acc E. induction l as [|Q l IH]; intros acc; cbn; [done|].
  destruct (add_some acc Q) as [R ->]. apply IH.
Qed.

Lemma add_scalars_some acc l : is_Some (add_scalars acc l).
Proof.
  revert acc. induction l as [|x l IH]; intros acc; cbn; [eauto|].
  destruct (mod_add_some acc x) as [r ->]. apply IH.
Qed.

Lemma BN_obj_copy_some o : BN_obj_copy o = mkObj (val o) true.
Proof.
  unfold BN_obj_copy. destruct (bn_copy_some (val o)) as [v E]. rewrite E.
  apply bn_copy_spec in E. by subst v.
Qed.

Lemma CommitPoint_copy_some o : CommitPoint_copy o = mkObj (val o) true.
Proof.
  unfold CommitPoint_copy. destruct (copy_point_some (val o)) as [v E]. rewrite E.
  apply copy_point_spec in E. by subst v.
Qed.

Lemma PubKey_copy_some k : PubKey_copy k = k.
Proof.
  unfold PubKey_copy. destruct (copy_point_some (m_P k)) as [v E]. rewrite E.
  apply copy_point_spec in E. subst v. by destruct k.
Qed.

Lemma AggregatePubKeys_some ks :
  ks <> [] -> AggregatePubKeys ks = Some (mkPubKey (psum (m_P <$> ks))).
Proof.
  destruct ks as [|k ks]; [done|]. intros _. cbn [AggregatePubKeys].
  rewrite PubKey_copy_some, add_points_some. done.
Qed.

Lemma AggregateCommits_some cs :
  cs <> [] -> AggregateCommits cs = Some (mkObj (psum (val <$> cs)) true).
Proof.
  destruct cs as [|k ks]; [done|]. intros _. cbn [AggregateCommits].
  rewrite CommitPoint_copy_some. cbn [val Initialized]. by rewrite add_points_some.
Qed.

(** Only the first response has to be reduced: the others are as they are added. *)
Lemma AggregateResponses_some r rs :
  0 <= val r < m_order ->
  AggregateResponses (r :: rs) = Some (mkObj (zsum (val <$> (r :: rs)) mod m_order) true).
Proof.
  intros Hr. cbn [AggregateResponses]. unfold Response_copy. rewrite BN_obj_copy_some, alloc_true.
  cbn [val Initialized negb]. destruct (add_scalars_some (val r) (val <$> rs)) as [v E].
  rewrite E. pose proof (add_scalars_range _ _ _ Hr E) as Hv.
  apply add_scalars_inv in E. rewrite Z.mod_small in E by done. rewrite E. done.
Qed.

Lemma AggregateSign_some c r :
  Initialized c = true -> Initialized r = true ->
  AggregateSign c r = Some (mkSignature (val c) (val r)).
Proof.
  intros Hc Hr. unfold AggregateSign. rewrite Hc, Hr. cbn [negb].
  destruct (bn_copy_some (val c)) as [x Ex], (bn_copy_some (val r)) as [y Ey].
  rewrite Ex, Ey. apply bn_copy_spec in Ex, Ey. by subst.
Qed.

(** The collective signature made of accepted responses is accepted, in the
    form the leader's invariant uses it. *)
Lemma collective_verify message (c : Challenge) (signers : list (PubKey * CommitPoint * Response)) :
  let aggP := mkPubKey (psum (m_P <$> (fst <$> (fst <$> signers)))) in
  let aggQ := mkObj (psum (val <$> (snd <$> (fst <$> signers)))) true in
  let s := zsum (val <$> (snd <$> signers)) mod m_order in
  Forall (response_equation_holds c) signers ->
  Initialized c = true -> c = Challenge_new aggQ aggP message ->
  val c <> 0 -> s <> 0 ->
  MultiSigVerify message (mkSignature (val c) s) aggP = true.
Proof.
  intros aggP aggQ s Hall Hc Heq Hc0 Hs0. pose proof order_gt_1.
  pose proof (Challenge_new_inv aggQ aggP message) as Hinv. rewrite <- Heq in Hinv.
  destruct (Hinv Hc) as (_ & Hm & HQ & HP & Hcv & Hcr).
  unfold MultiSigVerify, MultiSigVerifyRange. rewrite Hm. cbn [negb].
  apply accepted_sum in Hall.
  assert (padd (smul s base) (smul (val c) (m_P aggP)) = val aggQ) as E.
  { unfold s, aggP, aggQ. cbn [m_P val]. rewrite smul_mod.
    rewrite <- !list_fmap_compose. exact Hall. }
  apply verify_core_iff. cbn [m_r m_s]. rewrite E. split_and!; try done; try lia.
  - pose proof (Z.mod_pos_bound (zsum (val <$> (snd <$> signers))) m_order). lia.
  - unfold s. apply Z.mod_pos_bound. lia.
Qed.

(** An honest response is accepted unless it happens to be zero. *)
Lemma honest_VerifyResponse k d c :
  0 < d < m_order -> Initialized c = true -> (k - (val c * d) mod m_order) mod m_order <> 0 ->
  let r := Response_new (mkObj k true) c (mkPrivKey d) in
  val r = (k - (val c * d) mod m_order) mod m_order /\
  VerifyResponse r c (PubKey_from_priv (mkPrivKey d)) (CommitPoint_from_secret (mkObj k true)) = true.
Proof.
  intros Hd Hc Hne r. pose proof order_gt_1.
  assert (r = mkObj ((k - (val c * d) mod m_order) mod m_order) true) as Hr.
  { unfold r, Response_new, Response_Set. cbn [Initialized Response_default val m_d].
    rewrite Hc, alloc_true. cbn [negb].
    destruct (mod_mul_some (val c) d) as [x Ex]. rewrite Ex. apply mod_mul_spec in Ex. subst x.
    destruct (mod_sub_some k ((val c * d) mod m_order)) as [y Ey]. rewrite Ey.
    apply mod_sub_spec in Ey. by subst y. }
  rewrite Hr. split; [done|].
  unfold CommitPoint_from_secret, CommitPoint_Set, VerifyResponse. cbn [Initialized val negb].
  rewrite Hc, alloc_true. cbn [negb].
  destruct (mul_base_some k) as [Q EQ]. rewrite EQ. apply mul_base in EQ. subst Q.
  cbn [Initialized val negb]. rewrite (proj2 (BN_is_zero_false _)) by done.
  rewrite (proj2 (BN_cmp_lt _ m_order)) by (apply Z.mod_pos_bound; lia).
  cbn [orb negb Z.eqb Pos.eqb]. rewrite PubKey_from_priv_some by done. cbn [m_P].
  match goal with |- match EC_POINT_mul (Some ?n) (Some (?P, ?m)) with _ => _ end = _ =>
    destruct (mul_both_some n P m) as [Q EQ] end.
  rewrite EQ. apply mul_both in EQ. rewrite response_equation in EQ. subst Q.
  by rewrite cmp_refl.
Qed.

End facts.

(** * Properties *)

Section properties.
Context `{Hnf : OpenSSLNoFail}.

(** C1: the collective signature.  If every signer's response was accepted by
    [MultiSig::VerifyResponse] against the challenge computed from the
    aggregated commits and keys of these signers, then aggregating the
    responses and signing with [AggregateSign] gives a signature that
    [MultiSig::MultiSigVerify] accepts under the aggregated key (unless the
    challenge or the aggregated response is the scalar zero).  The signers may
    be malicious: only their acceptance is used. *)
Theorem collective_signature_valid
    (signers : list (PubKey * CommitPoint * Response)) message aggQ aggP aggR sg :
  Forall (fun x => VerifyResponse x.2 (Challenge_new aggQ aggP message) x.1.1 x.1.2 = true
                   /\ 0 <= val x.2) signers ->
  AggregateCommits (snd <$> (fst <$> signers)) = Some aggQ ->
  AggregatePubKeys (fst <$> (fst <$> signers)) = Some aggP ->
  AggregateResponses (snd <$> signers) = Some aggR ->
  AggregateSign (Challenge_new aggQ aggP message) aggR = Some sg ->
  m_r sg <> 0 -> m_s sg <> 0 ->
  MultiSigVerify message sg aggP = true.
Proof.
  intros Hall HQ HP HR Hsg Hr0 Hs0.
  assert (signers <> []) as Hne by (by intros ->).
  rewrite AggregateCommits_some in HQ by (by destruct signers).
  rewrite AggregatePubKeys_some in HP by (by destruct signers).
  pose proof Hall as [Hacc _]%Forall_and.
  destruct signers as [|x l]; [done|]. pose proof (Forall_cons_1 _ _ _ Hall) as [[Hx Hx0] _].
  apply VerifyResponse_inv in Hx as (_ & _ & Hx & _ & Hc & _).
  cbn [fmap list_fmap] in HR. rewrite AggregateResponses_some in HR by lia.
  injection HR as <-. rewrite AggregateSign_some in Hsg by done.
  injection Hsg as <-. cbn [m_r m_s val] in *.
  injection HQ as <-. injection HP as <-. apply (collective_verify _ _ (x :: l)); try done.
  eapply Forall_impl; [apply Hacc|]. intros y Hy. by apply VerifyResponse_inv in Hy as [? _].
Qed.

(** Completeness of one round.  The response an honest signer computes with
    its commit secret and private key is accepted against its commit point and
    public key, except in the negligible case where it is zero. *)
Theorem honest_response_accepted k d c :
  0 < d < m_order -> Initialized c = true ->
  let r := Response_new (mkObj k true) c (mkPrivKey d) in
  Initialized r = true /\
  (val r <> 0 ->
   VerifyResponse r c (PubKey_from_priv (mkPrivKey d))
     (CommitPoint_from_secret (mkObj k true)) = true).
Proof.
  intros Hd Hc r. destruct (Z.eq_dec (val r) 0) as [Hz|Hz].
  - split; [|done]. unfold r, Response_new, Response_Set. cbn [Initialized Response_default val m_d].
    rewrite Hc, alloc_true. cbn [negb].
    destruct (mod_mul_some (val c) d) as [x ->], (mod_sub_some k x) as [y ->]. done.
  - assert (exists x y, BN_mod_mul (val c) d m_order = Some x /\ BN_mod_sub k x m_order = Some y
              /\ r = mkObj y true) as (x & y & Ex & Ey & Er).
    { unfold r, Response_new, Response_Set. cbn [Initialized Response_default val m_d].
      rewrite Hc, alloc_true. cbn [negb].
      destruct (mod_mul_some (val c) d) as [x Ex], (mod_sub_some k x) as [y Ey].
      exists x, y. by rewrite Ex, Ey. }
    split; [by rewrite Er|]. intros _. apply honest_VerifyResponse; try done.
    apply mod_mul_spec in Ex. apply mod_sub_spec in Ey. rewrite Er in Hz. cbn in Hz. congruence.
Qed.

(** Special soundness.  Two responses accepted for one commit point under
    different challenges determine a discrete logarithm of the public key, so
    a signer that can answer two challenges knows its private key. *)
Theorem special_soundness r1 r2 c1 c2 pk cp :
  VerifyResponse r1 c1 pk cp = true -> VerifyResponse r2 c2 pk cp = true ->
  (val c1 - val c2) mod m_order <> 0 ->
  exists e, (e * (val c1 - val c2)) mod m_order = 1 /\
            m_P pk = smul ((e * (val r2 - val r1)) mod m_order) base.
Proof.
  intros H1 H2 Hne. apply VerifyResponse_inv in H1 as [H1 _], H2 as [H2 _].
  destruct (scalar_inverse _ Hne) as [e He]. exists e. split; [done|].
  assert (smul (val c1 - val c2) (m_P pk) = smul (val r2 - val r1) base) as E.
  { apply (padd_cancel (padd (smul (val r1) base) (smul (val c2) (m_P pk)))).
    rewrite <- padd_assoc, <- smul_plus.
    replace (val c2 + (val c1 - val c2)) with (val c1) by lia. rewrite H1.
    rewrite <- H2 at 1. rewrite (padd_comm (smul (val r1) base)), <- padd_assoc, <- smul_plus.
    replace (val r1 + (val r2 - val r1)) with (val r2) by lia. apply padd_comm. }
  apply (f_equal (smul e)) in E. rewrite !smul_mult in E.
  rewrite <- (smul_mod (e * (val c1 - val c2))), He, smul_1 in E. by rewrite smul_mod.
Qed.

(** Aggregation does not depend on the order of the signers: permuting the
    public keys or the commit points gives the same aggregated object. *)
Theorem aggregate_permutation ks ks' cs cs' :
  Permutation ks ks' -> Permutation cs cs' ->
  AggregatePubKeys ks = AggregatePubKeys ks' /\ AggregateCommits cs = AggregateCommits cs'.
Proof.
  intros Hk Hc. split.
  - destruct (decide (ks = [])) as [->|Hne]; [by apply Permutation_nil in Hk as ->|].
    rewrite !AggregatePubKeys_some; [|intros ->; by apply Permutation_nil_r in Hk|done].
    do 2 f_equal. apply psum_perm. by rewrite Hk.
  - destruct (decide (cs = [])) as [->|Hne]; [by apply Permutation_nil in Hc as ->|].
    rewrite !AggregateCommits_some; [|intros ->; by apply Permutation_nil_r in Hc|done].
    do 2 f_equal. apply psum_perm. by rewrite Hc.
Qed.

(** The [m_initialized] flag does not survive copying.  Copying or assigning
    an object that was never initialized (a default [CommitPoint], a [Challenge]
    whose [Set] returned early) yields an object flagged as initialized, so the
    checks made on the copy cannot fail. *)
Theorem copy_sets_initialized (P P0 : CommitPoint) (c c0 : Challenge) :
  Initialized (CommitPoint_copy P) = true /\ Initialized (CommitPoint_assign P0 P) = true /\
  Initialized (Challenge_copy c) = true /\ Initialized (Challenge_assign c0 c) = true /\
  Initialized (Response_copy c) = true /\ Initialized (Response_assign c0 c) = true.
Proof.
  unfold CommitPoint_copy, CommitPoint_assign, Challenge_copy, Challenge_assign,
    Response_copy, Response_assign, BN_obj_copy, BN_obj_assign.
  destruct (copy_point_some (val P)) as [? ->], (bn_copy_some (val c)) as [? ->]. done.
Qed.

(** A response or challenge whose byte string is too short is reported as
    deserialized (return code 0) although the object holds no number. *)
Theorem Deserialize_short_returns_0 src offset :
  0 <= offset -> offset + 32 < 2 ^ 32 -> zlen src < offset + 32 ->
  Response_Deserialize src offset = (0, None) /\ Challenge_Deserialize src offset = (0, None).
Proof.
  intros Ho H32 Hl. unfold Response_Deserialize, Challenge_Deserialize, BN_obj_Deserialize,
    BIGNUM_GetNumber, RESPONSE_SIZE, CHALLENGE_SIZE.
  rewrite (wrap_small 32) by (unfold in_range; lia).
  destruct (Z.ltb_spec (offset + 32) 32); [lia|].
  destruct (Z.gtb_spec (offset + 32) (zlen src)); [done|lia].
Qed.

End properties.

(** * Witnesses: three signers on the cyclic group *)

Definition sample_keys : list (PrivKey * CommitSecret) :=
  [(mkPrivKey 77, mkObj 123 true); (mkPrivKey 5, mkObj 6 true); (mkPrivKey 900, mkObj 44 true)].

Definition sample_pubs : list PubKey := (fun x => PubKey_from_priv x.1) <$> sample_keys.
Definition sample_commits : list CommitPoint := (fun x => CommitPoint_from_secret x.2) <$> sample_keys.

Definition sample_aggP : PubKey := mkPubKey (psum (m_P <$> sample_pubs)).
Definition sample_aggQ : CommitPoint := mkObj (psum (val <$> sample_commits)) true.

Definition sample_challenge : Challenge := Challenge_new sample_aggQ sample_aggP sample_message.

Definition sample_signers : list (PubKey * CommitPoint * Response) :=
  (fun x => (PubKey_from_priv x.1, CommitPoint_from_secret x.2,
             Response_new x.2 sample_challenge x.1)) <$> sample_keys.

Lemma collective_signature_valid_witness :
  exists aggR sg,
    AggregateResponses (snd <$> sample_signers) = Some aggR /\
    AggregateSign sample_challenge aggR = Some sg /\
    MultiSigVerify sample_message sg sample_aggP = true.
Proof.
  exists (mkObj 768 true), (mkSignature 321 768).
  assert (AggregateResponses (snd <$> sample_signers) = Some (mkObj 768 true)) as ER
    by (vm_compute; reflexivity).
  assert (AggregateSign sample_challenge (mkObj 768 true) = Some (mkSignature 321 768)) as ES
    by (vm_compute; reflexivity).
  split; [exact ER|]. split; [exact ES|].
  apply (collective_signature_valid sample_signers sample_message sample_aggQ sample_aggP (mkObj 768 true) _).
  - repeat apply Forall_cons_2; [split; [vm_compute; reflexivity|vm_compute; discriminate]..|].
    apply Forall_nil_2.
  - exact (AggregateCommits_some sample_commits ltac:(discriminate)).
  - exact (AggregatePubKeys_some sample_pubs ltac:(discriminate)).
  - exact ER.
  - exact ES.
  - discriminate.
  - discriminate.
Defined.

Lemma honest_response_accepted_witness :
  VerifyResponse (Response_new (mkObj 123 true) sample_challenge (mkPrivKey 77)) sample_challenge
    (PubKey_from_priv (mkPrivKey 77)) (CommitPoint_from_secret (mkObj 123 true)) = true.
Proof.
  apply (honest_response_accepted 123 77 sample_challenge).
  - split; reflexivity.
  - vm_compute. reflexivity.
  - vm_compute. discriminate.
Defined.

Lemma special_soundness_witness :
  let c1 := mkObj 10 true in let c2 := mkObj 20 true in
  let k := mkObj 123 true in let d := mkPrivKey 77 in
  exists e, (e * (10 - 20)) mod m_order = 1 /\
    m_P (PubKey_from_priv d) =
      smul ((e * (val (Response_new k c2 d) - val (Response_new k c1 d))) mod m_order) base.
Proof.
  apply (special_soundness _ _ (mkObj 10 true) (mkObj 20 true) _
           (CommitPoint_from_secret (mkObj 123 true))).
  - vm_compute. reflexivity.
  - vm_compute. reflexivity.
  - vm_compute. discriminate.
Defined.

Lemma aggregate_permutation_witness :
  AggregatePubKeys (fst <$> (fst <$> sample_signers)) =
    AggregatePubKeys (rev (fst <$> (fst <$> sample_signers))) /\
  AggregateCommits (snd <$> (fst <$> sample_signers)) =
    AggregateCommits (rev (snd <$> (fst <$> sample_signers))).
Proof. apply aggregate_permutation; apply Permutation_rev. Defined.

Lemma copy_sets_initialized_witness :
  Initialized CommitPoint_default = false /\ Initialized (CommitPoint_copy CommitPoint_default) = true.
Proof.
  split; [reflexivity|].
  apply (copy_sets_initialized CommitPoint_default CommitPoint_default
           Challenge_default Challenge_default).
Defined.

Lemma Deserialize_short_returns_0_witness :
  Response_Deserialize sample_message 0 = (0, None).
Proof.
  apply (Deserialize_short_returns_0 sample_message 0); [discriminate|reflexivity..].
Defined.
