(* ===== verification/ConsensusMessages.v ===== *)
(** * Consensus messages ([libMessage/Messenger.cpp], [Messenger.h])

    The consensus part of [Messenger]: building, signing and checking the
    messages leader and backups exchange.  The generated protobuf classes are a
    parameter ([Proto]): a message type is a record, [parse] is
    [ParseFromArray] followed by [IsInitialized] ([None]: not initialized),
    [serialize] is [SerializeToArray] into a buffer of [ByteSize] bytes.  The
    [Set...] functions set every required field, so [IsInitialized] holds there. *)

From stdpp Require Import base numbers list countable.
From S2P Require Import Prelude OpenSSL Schnorr MultiSig Peer.
Open Scope Z_scope.

(** ** The message types of [ZilliqaMessage.proto]

    All consensus messages have the same frame: a [ConsensusInfo] with four
    leading fields (the last is [leaderid] or [backupid]), the sender's key and
    the signature of the serialized info. *)
Record ConsensusInfo (B : Type) := mkInfo {
  consensusid : Z;
  blocknumber : Z;
  blockhash : bytes;
  senderid : Z;
  info_body : B
}.
Arguments mkInfo {B} _ _ _ _ _.
Arguments consensusid {B} _.
Arguments blocknumber {B} _.
Arguments blockhash {B} _.
Arguments senderid {B} _.
Arguments info_body {B} _.

Record SignedMessage (B R : Type) := mkSigned {
  consensusinfo : ConsensusInfo B;
  pubkey : bytes;
  signature : bytes;
  rest : R        (** the fields outside the signed info (announcements only) *)
}.
Arguments mkSigned {B R} _ _ _ _.
Arguments consensusinfo {B R} _.
Arguments pubkey {B R} _.
Arguments signature {B R} _.
Arguments rest {B R} _.

(** [commitpoint], [commitpointhash] *)
Abbreviation CommitBody := (bytes * bytes)%type.
(** [repeated SubsetInfo]: [aggregatedcommit], [aggregatedkey], [challenge] *)
Abbreviation ChallengeBody := (list (bytes * bytes * bytes)).
(** [repeated SubsetInfo]: [response] *)
Abbreviation ResponseBody := (list bytes).
(** [collectivesig], [bitmap] *)
Abbreviation CollectiveSigBody := (bytes * list bool)%type.

(** ** The protobuf runtime *)

Class Proto (B R : Type) := {
  parse : bytes -> option (SignedMessage B R);
  serialize : SignedMessage B R -> bytes;
  serialize_info : ConsensusInfo B -> bytes
}.

(** Documented behaviour: parsing what was serialized gives the message back. *)
Class ProtoSpec (B R : Type) `{Proto B R} := {
  parse_serialize m : parse (serialize m) = Some m;
  serialize_info_inj i j : serialize_info i = serialize_info j -> i = j;
  serialize_info_size i : 0 < zlen (serialize_info i);
  serialize_size m : 0 < zlen (serialize m)
}.

(** A node of a committee. *)
Abbreviation DequeOfNode := (list (PubKey * Peer)).

Section messenger.
Context `{OpenSSL}.

Record ChallengeSubsetInfo := mkChallengeSubsetInfo {
  aggregatedCommit : CommitPoint;
  aggregatedKey : PubKey;
  challenge : Challenge
}.

Record ResponseSubsetInfo := mkResponseSubsetInfo { response : Response }.

(** [SerializableToProtobufByteArray] *)
Definition SerializableToProtobufByteArray (Serialize : bytes -> Z -> Z * bytes) : bytes :=
  (Serialize [] 0).2.

(** [SerializeToArray<T>]: grow the buffer if needed, write at the offset. *)
Definition SerializeToArray {B R} `{Proto B R} (m : SignedMessage B R) (dst : bytes) (offset : Z)
  : bool * bytes :=
  proto_write (serialize m) dst offset.

(** The common end of the [Set...] functions: sign the serialized info, attach
    key and signature, write the message. *)
Definition sign_message {B R} `{Proto B R} (nonces : list (option Z)) (dst : bytes) (offset : Z)
    (info : ConsensusInfo B) (extra : R) (key : PrivKey * PubKey) : outcome (bool * bytes) :=
  let tmp := serialize_info info in
  match Sign nonces tmp key.1 key.2 with
  | NonceExhausted => Fault StillDrawing
  | SignFailed => Ret (false, dst)
  | Signed sg =>
      Ret (SerializeToArray
             (mkSigned info (SerializableToProtobufByteArray (PubKey_Serialize key.2))
                (SerializableToProtobufByteArray (Signature_Serialize sg)) extra) dst offset)
  end.

(** The common checks of the [Get...] functions on the three session fields. *)
Definition session_ok {B} (info : ConsensusInfo B) (consensusID blockNumber : Z)
    (blockHash : bytes) : bool :=
  if negb (consensusid info =? consensusID) then false
  else if negb (blocknumber info =? blockNumber) then false
  else bool_decide (blockHash = blockhash info).

(** [src.data() + offset, src.size() - offset] *)
Definition parse_at {B R} `{Proto B R} (src : bytes) (offset : Z) : option (SignedMessage B R) :=
  if offset >=? zlen src then None else parse (drop (Z.to_nat offset) src).

(** The common end of the [Get...] functions. *)
Definition signature_ok {B R} `{Proto B R} (m : SignedMessage B R) (key : PubKey) : bool :=
  let tmp := serialize_info (consensusinfo m) in
  let '(rc, sg) := Signature_Deserialize Signature_default (signature m) 0 in
  if negb (rc =? 0) then false else Verify tmp sg key.

(** ** Commit *)

Definition SetConsensusCommit `{Proto CommitBody unit} (nonces : list (option Z)) (dst : bytes)
    (offset consensusID blockNumber : Z) (blockHash : bytes) (backupID : Z)
    (commitPoint : CommitPoint) (commitPointHash : CommitPointHash)
    (backupKey : PrivKey * PubKey) : outcome (bool * bytes) :=
  sign_message nonces dst offset
    (mkInfo consensusID blockNumber blockHash backupID
       (SerializableToProtobufByteArray (CommitPoint_Serialize commitPoint),
        SerializableToProtobufByteArray (CommitPointHash_Serialize commitPointHash)))
    tt backupKey.

(** [None]: [false].  A point that could not be deserialized is a null object. *)
Definition GetConsensusCommit `{Proto CommitBody unit} (src : bytes)
    (offset consensusID blockNumber : Z) (blockHash : bytes) (committeeKeys : DequeOfNode)
  : option (Z * option CommitPoint * option CommitPointHash) :=
  match parse_at src offset with
  | None => None
  | Some result =>
      let info := consensusinfo result in
      if negb (session_ok info consensusID blockNumber blockHash) then None
      else
        let backupID := u16 (senderid info) in
        if backupID >=? zlen committeeKeys then None
        else
          let '(rc, commitPoint) := CommitPoint_Deserialize (info_body info).1 0 in
          if negb (rc =? 0) then None
          else
            let '(rc, commitPointHash) := CommitPointHash_Deserialize (info_body info).2 0 in
            if negb (rc =? 0) then None
            else
              match vec_at committeeKeys backupID with
              | None => None
              | Some node =>
                  if signature_ok result node.1
                  then Some (backupID, commitPoint, commitPointHash) else None
              end
  end.

(** ** Challenge *)

Definition SetConsensusChallenge `{Proto ChallengeBody unit} (nonces : list (option Z))
    (dst : bytes) (offset consensusID blockNumber : Z) (blockHash : bytes) (leaderID : Z)
    (subsetInfo : list ChallengeSubsetInfo) (leaderKey : PrivKey * PubKey)
  : outcome (bool * bytes) :=
  sign_message nonces dst offset
    (mkInfo consensusID blockNumber blockHash leaderID
       ((fun si =>
           (SerializableToProtobufByteArray (CommitPoint_Serialize (aggregatedCommit si)),
            SerializableToProtobufByteArray (PubKey_Serialize (aggregatedKey si)),
            SerializableToProtobufByteArray (Challenge_Serialize (challenge si)))) <$> subsetInfo))
    tt leaderKey.

(** Reading the subset infos: [Ret None] is the early [return false]; copying
    an element with a null member into the vector is a fault. *)
Fixpoint read_challenge_subsets (protos : ChallengeBody)
  : outcome (option (list ChallengeSubsetInfo)) :=
  match protos with
  | [] => Ret (Some [])
  | (commit, key, chal) :: protos' =>
      let '(rc, aggCommit) := CommitPoint_Deserialize commit 0 in
      if negb (rc =? 0) then Ret None
      else
        let '(rc, aggKey) := PubKey_Deserialize PubKey_default key 0 in
        if negb (rc =? 0) then Ret None
        else
          let '(rc, ch) := Challenge_Deserialize chal 0 in
          if negb (rc =? 0) then Ret None
          else
            match aggCommit, ch with
            | Some c, Some ch =>
                let si := mkChallengeSubsetInfo (CommitPoint_copy c) (PubKey_copy aggKey)
                            (Challenge_copy ch) in
                more ← read_challenge_subsets protos';
                Ret (match more with Some l => Some (si :: l) | None => None end)
            | _, _ => Fault NullPointer
            end
  end.

Definition GetConsensusChallenge `{Proto ChallengeBody unit} (src : bytes)
    (offset consensusID blockNumber : Z) (blockHash : bytes) (leaderID : Z) (leaderKey : PubKey)
  : outcome (option (list ChallengeSubsetInfo)) :=
  match parse_at src offset with
  | None => Ret None
  | Some result =>
      let info := consensusinfo result in
      if negb (session_ok info consensusID blockNumber blockHash) then Ret None
      else if negb (senderid info =? leaderID) then Ret None
      else
        subsetInfo ← read_challenge_subsets (info_body info);
        match subsetInfo with
        | None => Ret None
        | Some l => Ret (if signature_ok result leaderKey then Some l else None)
        end
  end.

(** ** Response *)

Definition SetConsensusResponse `{Proto ResponseBody unit} (nonces : list (option Z))
    (dst : bytes) (offset consensusID blockNumber : Z) (blockHash : bytes) (backupID : Z)
    (subsetInfo : list ResponseSubsetInfo) (backupKey : PrivKey * PubKey)
  : outcome (bool * bytes) :=
  sign_message nonces dst offset
    (mkInfo consensusID blockNumber blockHash backupID
       ((fun si => SerializableToProtobufByteArray (Response_Serialize (response si)))
          <$> subsetInfo))
    tt backupKey.

Fixpoint read_response_subsets (protos : ResponseBody)
  : outcome (option (list ResponseSubsetInfo)) :=
  match protos with
  | [] => Ret (Some [])
  | r :: protos' =>
      let '(rc, resp) := Response_Deserialize r 0 in
      if negb (rc =? 0) then Ret None
      else
        match resp with
        | None => Fault NullPointer
        | Some resp =>
            more ← read_response_subsets protos';
            Ret (match more with
                 | Some l => Some (mkResponseSubsetInfo (Response_copy resp) :: l)
                 | None => None
                 end)
        end
  end.

Definition GetConsensusResponse `{Proto ResponseBody unit} (src : bytes)
    (offset consensusID blockNumber : Z) (blockHash : bytes) (committeeKeys : DequeOfNode)
  : outcome (option (Z * list ResponseSubsetInfo)) :=
  match parse_at src offset with
  | None => Ret None
  | Some result =>
      let info := consensusinfo result in
      if negb (session_ok info consensusID blockNumber blockHash) then Ret None
      else
        let backupID := u16 (senderid info) in
        if backupID >=? zlen committeeKeys then Ret None
        else
          subsetInfo ← read_response_subsets (info_body info);
          match subsetInfo with
          | None => Ret None
          | Some l =>
              node ← at_ committeeKeys backupID;
              Ret (if signature_ok result node.1 then Some (backupID, l) else None)
          end
  end.

(** ** Collective signature *)

Definition SetConsensusCollectiveSig `{Proto CollectiveSigBody unit} (nonces : list (option Z))
    (dst : bytes) (offset consensusID blockNumber : Z) (blockHash : bytes) (leaderID : Z)
    (collectiveSig : Signature) (bitmap : list bool) (leaderKey : PrivKey * PubKey)
  : outcome (bool * bytes) :=
  sign_message nonces dst offset
    (mkInfo consensusID blockNumber blockHash leaderID
       (SerializableToProtobufByteArray (Signature_Serialize collectiveSig), bitmap))
    tt leaderKey.

(** The two out-parameters are written as the code goes, also when the result
    is [false]: result, [bitmap], [collectiveSig]. *)
Definition GetConsensusCollectiveSig `{Proto CollectiveSigBody unit} (src : bytes)
    (offset consensusID blockNumber : Z) (blockHash : bytes) (leaderID : Z)
    (bitmap : list bool) (collectiveSig : Signature) (leaderKey : PubKey)
  : bool * list bool * Signature :=
  match parse_at src offset with
  | None => (false, bitmap, collectiveSig)
  | Some result =>
      let info := consensusinfo result in
      if negb (session_ok info consensusID blockNumber blockHash)
      then (false, bitmap, collectiveSig)
      else if negb (senderid info =? leaderID) then (false, bitmap, collectiveSig)
      else
        let '(rc, collectiveSig) := Signature_Deserialize collectiveSig (info_body info).1 0 in
        if negb (rc =? 0) then (false, bitmap, collectiveSig)
        else
          let bitmap := bitmap ++ (info_body info).2 in
          (signature_ok result leaderKey, bitmap, collectiveSig)
  end.

(** ** Commit failure *)

Definition SetConsensusCommitFailure `{Proto bytes unit} (nonces : list (option Z))
    (dst : bytes) (offset consensusID blockNumber : Z) (blockHash : bytes) (backupID : Z)
    (errorMsg : bytes) (backupKey : PrivKey * PubKey) : outcome (bool * bytes) :=
  sign_message nonces dst offset
    (mkInfo consensusID blockNumber blockHash backupID errorMsg) tt backupKey.

Definition GetConsensusCommitFailure `{Proto bytes unit} (src : bytes)
    (offset consensusID blockNumber : Z) (blockHash : bytes) (committeeKeys : DequeOfNode)
  : option (Z * bytes) :=
  match parse_at src offset with
  | None => None
  | Some result =>
      let info := consensusinfo result in
      if negb (session_ok info consensusID blockNumber blockHash) then None
      else
        let backupID := u16 (senderid info) in
        if backupID >=? zlen committeeKeys then None
        else
          match vec_at committeeKeys backupID with
          | None => None
          | Some node =>
              if signature_ok result node.1 then Some (backupID, info_body info) else None
          end
  end.

(** ** Consensus failure *)

Definition SetConsensusConsensusFailure `{Proto unit unit} (nonces : list (option Z))
    (dst : bytes) (offset consensusID blockNumber : Z) (blockHash : bytes) (leaderID : Z)
    (leaderKey : PrivKey * PubKey) : outcome (bool * bytes) :=
  sign_message nonces dst offset
    (mkInfo consensusID blockNumber blockHash leaderID tt) tt leaderKey.

Definition GetConsensusConsensusFailure `{Proto unit unit} (src : bytes)
    (offset consensusID blockNumber : Z) (blockHash : bytes) (leaderID : Z) (leaderKey : PubKey)
  : bool :=
  match parse_at src offset with
  | None => false
  | Some result =>
      let info := consensusinfo result in
      if negb (session_ok info consensusID blockNumber blockHash) then false
      else if negb (senderid info =? leaderID) then false
      else signature_ok result leaderKey
  end.

(** ** [PreProcessMessage<T>]

    The outcome of the deserialization of key and signature is not checked; a
    key that could not be read keeps its value.  [None]: [false]. *)
Definition PreProcessMessage {B R} `{Proto B R} (src : bytes) (offset : Z) (senderPubKey : PubKey)
  : option (Z * PubKey * bytes) :=
  match (parse (drop (Z.to_nat offset) src) : option (SignedMessage B R)) with
  | None => None
  | Some m =>
      let tmp := serialize_info (consensusinfo m) in
      let senderPubKey := (PubKey_Deserialize senderPubKey (pubkey m) 0).2 in
      let sg := (Signature_Deserialize Signature_default (signature m) 0).2 in
      if negb (Verify tmp sg senderPubKey) then None
      else Some (consensusid (consensusinfo m), senderPubKey,
                 take (Z.to_nat offset) src ++ serialize m)
  end.

End messenger.

(** * Facts *)

Section facts.
Context `{Hnf : OpenSSLNoFail}.

Lemma parse_at_SerializeToArray {B R} `{ProtoSpec B R} (m : SignedMessage B R) dst :
  parse_at (SerializeToArray m dst (zlen dst)).2 (zlen dst) = Some m.
Proof.
  pose proof (serialize_size m) as Hs. unfold SerializeToArray, parse_at.
  rewrite proto_write_append, zlen_app.
  destruct (Z.geb_spec (zlen dst) (zlen dst + zlen (serialize m))); [lia|].
  unfold zlen. rewrite Nat2Z.id, drop_app_length. apply parse_serialize.
Qed.

Lemma Signature_wire sg old :
  0 <= m_r sg < 2 ^ 256 -> 0 <= m_s sg < 2 ^ 256 ->
  Signature_Deserialize old (SerializableToProtobufByteArray (Signature_Serialize sg)) 0 = (0, sg).
Proof.
  intros Hr Hs. unfold SerializableToProtobufByteArray.
  pose proof (Signature_written sg [] []) as E. cbn [app] in E. change (zlen []) with 0 in E.
  rewrite E by lia. apply (Signature_read sg old []); try done.
Qed.

(** What the receiver of a message built by [sign_message] sees. *)
Lemma sign_message_received {B R} `{ProtoSpec B R} nonces dst (info : ConsensusInfo B) (extra : R)
    d dst' :
  0 <= d ->
  sign_message nonces dst (zlen dst) info extra (mkPrivKey d, PubKey_from_priv (mkPrivKey d))
    = Ret (true, dst') ->
  exists m, parse_at (B := B) (R := R) dst' (zlen dst) = Some m /\ consensusinfo m = info /\
            signature_ok m (PubKey_from_priv (mkPrivKey d)) = true.
Proof.
  intros Hd Hs. unfold sign_message in Hs. cbn [fst snd] in Hs.
  destruct (Sign _ _ _ _) as [sg| |] eqn:E; try done.
  destruct (Sign_Verify_complete _ _ _ _ Hd E) as (Hv & Hr & Hss & _).
  pose proof order_bound. set (m := mkSigned _ _ _ _) in Hs.
  exists m. apply (f_equal (fun o => match o with Ret x => x.2 | Fault _ => [] end)) in Hs.
  cbn [snd] in Hs. rewrite <- Hs. split; [apply parse_at_SerializeToArray|]. split; [done|].
  unfold signature_ok, m. cbn [signature consensusinfo]. by rewrite Signature_wire by lia.
Qed.

Lemma session_ok_refl {B} cid bn bh sid (b : B) : session_ok (mkInfo cid bn bh sid b) cid bn bh = true.
Proof.
  unfold session_ok. cbn. rewrite !Z.eqb_refl. cbn. by rewrite bool_decide_eq_true.
Qed.

Lemma session_ok_inv {B} (info : ConsensusInfo B) cid bn bh :
  session_ok info cid bn bh = true ->
  consensusid info = cid /\ blocknumber info = bn /\ blockhash info = bh.
Proof.
  unfold session_ok. intros Hok. repeat case_test_in Hok; try done. zbool.
  rewrite bool_decide_eq_true in Hok. done.
Qed.

(** An accepted signature on a message is a Schnorr signature of its info. *)
Lemma signature_ok_inv {B R} `{Proto B R} (m : SignedMessage B R) key :
  signature_ok m key = true ->
  exists sg, Verify (serialize_info (consensusinfo m)) sg key = true.
Proof.
  unfold signature_ok. destruct (Signature_Deserialize _ _ _) as [rc sg].
  case_test; [done|]. eauto.
Qed.

(** The protocol objects on the wire. *)
Lemma BN_obj_wire n v :
  0 <= n -> n < 2 ^ 32 -> 0 <= v < 256 ^ n ->
  BN_obj_Deserialize n (SerializableToProtobufByteArray (BN_obj_Serialize n (mkObj v true))) 0
    = (0, Some (mkObj v true)).
Proof.
  intros Hn H32 Hv. unfold SerializableToProtobufByteArray, BN_obj_Serialize, BN_obj_Deserialize.
  cbn [Initialized val snd].
  pose proof (BIGNUM_SetNumber_at [] [] n v) as E. cbn [app] in E. change (zlen []) with 0 in E.
  rewrite E by lia. rewrite drop_nil.
  pose proof (BIGNUM_GetNumber_at [] n v []) as E'. change (zlen []) with 0 in E'.
  cbn [app] in E'. rewrite E'; [done|lia|done|].
  rewrite zlen_app, zlen_be_split. unfold zlen. cbn [length]. lia.
Qed.

Lemma CommitPoint_wire P :
  P <> inf ->
  CommitPoint_Deserialize
    (SerializableToProtobufByteArray (CommitPoint_Serialize (mkObj P true))) 0
  = (0, Some (mkObj P true)).
Proof.
  intros HP. unfold SerializableToProtobufByteArray, CommitPoint_Serialize,
    CommitPoint_Deserialize, COMMIT_POINT_SIZE. cbn [Initialized val snd].
  pose proof (ECPOINT_codec P []) as E. change (zlen []) with 0 in E. by rewrite E.
Qed.

Lemma PubKey_wire k old :
  m_P k <> inf ->
  PubKey_Deserialize old (SerializableToProtobufByteArray (PubKey_Serialize k)) 0 = (0, k).
Proof.
  intros HP. unfold SerializableToProtobufByteArray, PubKey_Serialize, PubKey_Deserialize,
    PUB_KEY_SIZE. cbn [snd].
  pose proof (ECPOINT_codec (m_P k) []) as E. change (zlen []) with 0 in E. rewrite E by done.
  destruct (copy_point_some (m_P k)) as [R ER]. rewrite ER.
  apply copy_point_spec in ER. subst R. by destruct k.
Qed.

Lemma read_response_subsets_wire rs :
  Forall (fun si => exists v, response si = mkObj v true /\ 0 <= v < 2 ^ 256) rs ->
  read_response_subsets
    ((fun si => SerializableToProtobufByteArray (Response_Serialize (response si))) <$> rs)
  = Ret (Some rs).
Proof.
  induction 1 as [|si rs (v & Hsi & Hv) _ IH]; cbn [fmap list_fmap read_response_subsets]; [done|].
  unfold Response_Deserialize, Response_Serialize. rewrite Hsi.
  rewrite BN_obj_wire by (unfold RESPONSE_SIZE; lia). cbn [Z.eqb negb].
  unfold Response_Serialize in IH. rewrite IH. cbn [mbind outcome_bind].
  unfold Response_copy. rewrite BN_obj_copy_some. cbn [val]. destruct si. cbn in Hsi. by subst.
Qed.

Lemma read_challenge_subsets_wire l :
  Forall (fun si => exists P v, aggregatedCommit si = mkObj P true /\ P <> inf /\
                    m_P (aggregatedKey si) <> inf /\
                    challenge si = mkObj v true /\ 0 <= v < 2 ^ 256) l ->
  read_challenge_subsets
    ((fun si =>
        (SerializableToProtobufByteArray (CommitPoint_Serialize (aggregatedCommit si)),
         SerializableToProtobufByteArray (PubKey_Serialize (aggregatedKey si)),
         SerializableToProtobufByteArray (Challenge_Serialize (challenge si)))) <$> l)
  = Ret (Some l).
Proof.
  induction 1 as [|si l (P & v & HP & HPi & Hk & Hc & Hv) _ IH];
    cbn [fmap list_fmap read_challenge_subsets]; [done|].
  rewrite HP, Hc, CommitPoint_wire, PubKey_wire by done. cbn [Z.eqb negb].
  unfold Challenge_Deserialize, Challenge_Serialize.
  rewrite BN_obj_wire by (unfold CHALLENGE_SIZE; lia). cbn [Z.eqb negb].
  unfold Challenge_Serialize in IH. rewrite IH. cbn [mbind outcome_bind].
  unfold Challenge_copy. rewrite BN_obj_copy_some, CommitPoint_copy_some, PubKey_copy_some.
  cbn [val]. destruct si. cbn in HP, Hc. by subst.
Qed.


(** ** Delivery: what [Get...] returns on the output of [Set...] *)

Section delivery.
Context (dst : bytes) (cid bn : Z) (bh : bytes) (id d : Z) (peer : Peer).
Context (committee : DequeOfNode) (nonces : list (option Z)) (dst' : bytes).
Hypothesis Hd : 0 <= d.

Let key : PrivKey * PubKey := (mkPrivKey d, PubKey_from_priv (mkPrivKey d)).

Lemma commit_delivered `{ProtoSpec CommitBody unit} P h :
  0 <= id < 2 ^ 16 -> vec_at committee id = Some (key.2, peer) ->
  P <> inf -> 0 <= h < 2 ^ 256 ->
  SetConsensusCommit nonces dst (zlen dst) cid bn bh id (mkObj P true) (mkObj h true) key
    = Ret (true, dst') ->
  GetConsensusCommit dst' (zlen dst) cid bn bh committee
    = Some (id, Some (mkObj P true), Some (mkObj h true)).
Proof.
  intros Hid Hk HP Hh Hs. apply sign_message_received in Hs as (m & Hp & Hi & Hsg); [|done].
  unfold GetConsensusCommit. rewrite Hp, Hi, session_ok_refl. cbn [negb senderid info_body fst snd].
  rewrite wrap_small by done. pose proof Hk as Hlt.
  rewrite vec_at_lookup in Hlt by lia. apply lookup_lt_Some in Hlt.
  destruct (Z.geb_spec id (zlen committee)); [unfold zlen in *; lia|].
  rewrite CommitPoint_wire by done. cbn [Z.eqb negb].
  unfold CommitPointHash_Deserialize, CommitPointHash_Serialize.
  rewrite BN_obj_wire by (unfold COMMIT_POINT_HASH_SIZE; lia).
  cbn [Z.eqb negb]. rewrite Hk. cbn [fst]. unfold key. cbn [snd]. by rewrite Hsg.
Qed.

Lemma response_delivered `{ProtoSpec ResponseBody unit} rs :
  0 <= id < 2 ^ 16 -> vec_at committee id = Some (key.2, peer) ->
  Forall (fun si => exists v, response si = mkObj v true /\ 0 <= v < 2 ^ 256) rs ->
  SetConsensusResponse nonces dst (zlen dst) cid bn bh id rs key = Ret (true, dst') ->
  GetConsensusResponse dst' (zlen dst) cid bn bh committee = Ret (Some (id, rs)).
Proof.
  intros Hid Hk Hrs Hs. apply sign_message_received in Hs as (m & Hp & Hi & Hsg); [|done].
  unfold GetConsensusResponse. rewrite Hp, Hi, session_ok_refl. cbn [negb senderid info_body].
  rewrite wrap_small by done. pose proof Hk as Hlt.
  rewrite vec_at_lookup in Hlt by lia. apply lookup_lt_Some in Hlt.
  destruct (Z.geb_spec id (zlen committee)); [unfold zlen in *; lia|].
  rewrite read_response_subsets_wire by done. cbn [mbind outcome_bind].
  unfold at_. rewrite Hk. unfold key. cbn [fst snd mbind outcome_bind]. by rewrite Hsg.
Qed.

Lemma commit_failure_delivered `{ProtoSpec bytes unit} errorMsg :
  0 <= id < 2 ^ 16 -> vec_at committee id = Some (key.2, peer) ->
  SetConsensusCommitFailure nonces dst (zlen dst) cid bn bh id errorMsg key = Ret (true, dst') ->
  GetConsensusCommitFailure dst' (zlen dst) cid bn bh committee = Some (id, errorMsg).
Proof.
  intros Hid Hk Hs. apply sign_message_received in Hs as (m & Hp & Hi & Hsg); [|done].
  unfold GetConsensusCommitFailure. rewrite Hp, Hi, session_ok_refl. cbn [negb senderid info_body].
  rewrite wrap_small by done. pose proof Hk as Hlt.
  rewrite vec_at_lookup in Hlt by lia. apply lookup_lt_Some in Hlt.
  destruct (Z.geb_spec id (zlen committee)); [unfold zlen in *; lia|].
  rewrite Hk. unfold key. cbn [fst snd]. by rewrite Hsg.
Qed.

Lemma challenge_delivered `{ProtoSpec ChallengeBody unit} l :
  Forall (fun si => exists P v, aggregatedCommit si = mkObj P true /\ P <> inf /\
                    m_P (aggregatedKey si) <> inf /\
                    challenge si = mkObj v true /\ 0 <= v < 2 ^ 256) l ->
  SetConsensusChallenge nonces dst (zlen dst) cid bn bh id l key = Ret (true, dst') ->
  GetConsensusChallenge dst' (zlen dst) cid bn bh id key.2 = Ret (Some l).
Proof.
  intros Hl Hs. apply sign_message_received in Hs as (m & Hp & Hi & Hsg); [|done].
  unfold GetConsensusChallenge. rewrite Hp, Hi, session_ok_refl. cbn [negb senderid info_body].
  rewrite Z.eqb_refl. cbn [negb]. rewrite read_challenge_subsets_wire by done.
  cbn [mbind outcome_bind]. unfold key. cbn [snd]. by rewrite Hsg.
Qed.

Lemma collectivesig_delivered `{ProtoSpec CollectiveSigBody unit} sg bm old :
  0 <= m_r sg < 2 ^ 256 -> 0 <= m_s sg < 2 ^ 256 ->
  SetConsensusCollectiveSig nonces dst (zlen dst) cid bn bh id sg bm key = Ret (true, dst') ->
  GetConsensusCollectiveSig dst' (zlen dst) cid bn bh id [] old key.2 = (true, bm, sg).
Proof.
  intros Hr Hs' Hs. apply sign_message_received in Hs as (m & Hp & Hi & Hsg); [|done].
  unfold GetConsensusCollectiveSig. rewrite Hp, Hi, session_ok_refl.
  cbn [negb senderid info_body fst snd].
  rewrite Z.eqb_refl. cbn [negb]. rewrite Signature_wire by lia. cbn [Z.eqb negb app].
  unfold key. cbn [snd]. by rewrite Hsg.
Qed.

Lemma consensus_failure_delivered `{ProtoSpec unit unit} :
  SetConsensusConsensusFailure nonces dst (zlen dst) cid bn bh id key = Ret (true, dst') ->
  GetConsensusConsensusFailure dst' (zlen dst) cid bn bh id key.2 = true.
Proof.
  intros Hs. apply sign_message_received in Hs as (m & Hp & Hi & Hsg); [|done].
  unfold GetConsensusConsensusFailure. rewrite Hp, Hi, session_ok_refl. cbn [negb senderid].
  rewrite Z.eqb_refl. cbn [negb]. done.
Qed.

End delivery.

End facts.

(** ** An instance of the protobuf interface

    Any encoding of the records as byte strings will do; this one goes through
    [Countable], one byte per bit. *)

Module WireBits.

Fixpoint to_bits (p : positive) : bytes :=
  match p with
  | xH => [1]
  | xO p' => 0 :: to_bits p'
  | xI p' => 1 :: to_bits p'
  end.

Fixpoint of_bits (bs : bytes) : option positive :=
  match bs with
  | [] => None
  | [b] => if b =? 1 then Some xH else None
  | b :: bs' =>
      match of_bits bs' with
      | None => None
      | Some p => if b =? 0 then Some (xO p) else if b =? 1 then Some (xI p) else None
      end
  end.

Lemma to_bits_cons p : exists b bs, to_bits p = b :: bs.
Proof. destruct p; cbn; eauto. Qed.

Lemma of_to_bits p : of_bits (to_bits p) = Some p.
Proof.
  induction p as [p IH|p IH|]; cbn [to_bits of_bits]; [| |done];
    destruct (to_bits_cons p) as (b & bs & E); rewrite E in *; by rewrite IH.
Qed.

Definition info_tuple {B} (i : ConsensusInfo B) : Z * Z * bytes * Z * B :=
  (consensusid i, blocknumber i, blockhash i, senderid i, info_body i).
Definition info_untuple {B} (x : Z * Z * bytes * Z * B) : ConsensusInfo B :=
  let '(c, n, h, s, b) := x in mkInfo c n h s b.

#[global] Instance info_eq_dec {B} `{EqDecision B} : EqDecision (ConsensusInfo B).
Proof. solve_decision. Defined.
#[global] Instance message_eq_dec {B R} `{EqDecision B, EqDecision R} : EqDecision (SignedMessage B R).
Proof. solve_decision. Defined.

#[global] Instance info_countable {B} `{Countable B} : Countable (ConsensusInfo B).
Proof. refine (inj_countable' info_tuple info_untuple _). by intros []. Defined.

#[global] Instance message_countable {B R} `{Countable B, Countable R} : Countable (SignedMessage B R).
Proof.
  refine (inj_countable' (fun m => (consensusinfo m, pubkey m, signature m, rest m))
            (fun '(i, p, s, r) => mkSigned i p s r) _). by intros [].
Defined.

#[global] Instance proto {B R} `{Countable B, Countable R} : Proto B R := {|
  parse bs := match of_bits bs with Some p => decode p | None => None end;
  serialize m := to_bits (encode m);
  serialize_info i := to_bits (encode i)
|}.

#[global] Instance proto_spec {B R} `{Countable B, Countable R} : ProtoSpec B R.
Proof.
  split; cbn [parse serialize serialize_info proto].
  - intros m. by rewrite of_to_bits, decode_encode.
  - intros i j E. apply (f_equal of_bits) in E. rewrite !of_to_bits in E. by simplify_eq.
  - intros i. destruct (to_bits_cons (encode i)) as (b & bs & ->). unfold zlen. cbn. lia.
  - intros m. destruct (to_bits_cons (encode m)) as (b & bs & ->). unfold zlen. cbn. lia.
Qed.

End WireBits.

(** * Properties *)

Section properties.
Context `{Hnf : OpenSSLNoFail}.
Context `{!Proto CommitBody unit, !ProtoSpec CommitBody unit}.
Context `{!Proto ResponseBody unit, !ProtoSpec ResponseBody unit}.
Context `{!Proto ChallengeBody unit, !ProtoSpec ChallengeBody unit}.
Context `{!Proto CollectiveSigBody unit, !ProtoSpec CollectiveSigBody unit}.

(** backups reach the leader.  A commit or response message that an honest
    committee member built and signed for a session is accepted by the
    leader's [GetConsensusCommit] or [GetConsensusResponse] for the same
    session, with the member's index and exactly the objects that were sent. *)
Theorem backup_messages_delivered dst cid bn bh id d peer committee nonces dst' P h rs :
  0 <= d -> 0 <= id < 2 ^ 16 ->
  vec_at committee id = Some (PubKey_from_priv (mkPrivKey d), peer) ->
  P <> inf -> 0 <= h < 2 ^ 256 ->
  Forall (fun si => exists v, response si = mkObj v true /\ 0 <= v < 2 ^ 256) rs ->
  let key := (mkPrivKey d, PubKey_from_priv (mkPrivKey d)) in
  (SetConsensusCommit nonces dst (zlen dst) cid bn bh id (mkObj P true) (mkObj h true) key
     = Ret (true, dst') ->
   GetConsensusCommit dst' (zlen dst) cid bn bh committee
     = Some (id, Some (mkObj P true), Some (mkObj h true))) /\
  (SetConsensusResponse nonces dst (zlen dst) cid bn bh id rs key = Ret (true, dst') ->
   GetConsensusResponse dst' (zlen dst) cid bn bh committee = Ret (Some (id, rs))).
Proof.
  intros Hd Hid Hk HP Hh Hrs key. split.
  - by eapply commit_delivered.
  - by eapply response_delivered.
Qed.

(** the leader reaches the backups.  A challenge or collective-signature
    message that the leader built and signed is accepted by a backup that knows
    the leader's index and key, with exactly the subsets, the signature and the
    bit map that were sent. *)
Theorem leader_messages_delivered dst cid bn bh id d nonces dst' l sg bm old :
  0 <= d -> 0 <= m_r sg < 2 ^ 256 -> 0 <= m_s sg < 2 ^ 256 ->
  Forall (fun si => exists P v, aggregatedCommit si = mkObj P true /\ P <> inf /\
                    m_P (aggregatedKey si) <> inf /\
                    challenge si = mkObj v true /\ 0 <= v < 2 ^ 256) l ->
  let key := (mkPrivKey d, PubKey_from_priv (mkPrivKey d)) in
  (SetConsensusChallenge nonces dst (zlen dst) cid bn bh id l key = Ret (true, dst') ->
   GetConsensusChallenge dst' (zlen dst) cid bn bh id key.2 = Ret (Some l)) /\
  (SetConsensusCollectiveSig nonces dst (zlen dst) cid bn bh id sg bm key = Ret (true, dst') ->
   GetConsensusCollectiveSig dst' (zlen dst) cid bn bh id [] old key.2 = (true, bm, sg)).
Proof.
  intros Hd Hr Hs Hl key. split.
  - by apply challenge_delivered.
  - by apply collectivesig_delivered.
Qed.

(** what the leader accepts is authentic.  Whatever bytes arrive, if
    [GetConsensusCommit] or [GetConsensusResponse] accepts them, they parse to a
    message of this session (consensus ID, block number, block hash) whose info
    carries a valid Schnorr signature under the committee key of the index that
    is reported, and the index is inside the committee. *)
Theorem accepted_messages_authentic src offset cid bn bh committee :
  (forall id cp cph, GetConsensusCommit src offset cid bn bh committee = Some (id, cp, cph) ->
     exists m node sg, parse_at (B := CommitBody) (R := unit) src offset = Some m /\
       committee !! Z.to_nat id = Some node /\ 0 <= id < zlen committee /\
       consensusid (consensusinfo m) = cid /\ blocknumber (consensusinfo m) = bn /\
       blockhash (consensusinfo m) = bh /\ u16 (senderid (consensusinfo m)) = id /\
       Verify (serialize_info (consensusinfo m)) sg node.1 = true) /\
  (forall id rs, GetConsensusResponse src offset cid bn bh committee = Ret (Some (id, rs)) ->
     exists m node sg, parse_at (B := ResponseBody) (R := unit) src offset = Some m /\
       committee !! Z.to_nat id = Some node /\ 0 <= id < zlen committee /\
       consensusid (consensusinfo m) = cid /\ blocknumber (consensusinfo m) = bn /\
       blockhash (consensusinfo m) = bh /\ u16 (senderid (consensusinfo m)) = id /\
       Verify (serialize_info (consensusinfo m)) sg node.1 = true).
Proof.
  split.
  - intros id cp cph Hg. unfold GetConsensusCommit in Hg.
    destruct (parse_at src offset) as [m|]; [|done].
    destruct (session_ok _ _ _ _) eqn:Hs; [|done]. cbn [negb] in Hg.
    case_test_in Hg; [done|]. destruct (CommitPoint_Deserialize _ _), (CommitPointHash_Deserialize _ _).
    do 2 (case_test_in Hg; [done|]). destruct (vec_at _ _) as [node|] eqn:Hn; [|done].
    destruct (signature_ok m node.1) eqn:Hsg; [|done]. simplify_eq.
    apply session_ok_inv in Hs as (? & ? & ?). apply signature_ok_inv in Hsg as [sg Hv].
    pose proof (wrap_range 16 (senderid (consensusinfo m)) ltac:(lia)) as [Hw _].
    rewrite vec_at_lookup in Hn by done. zbool.
    exists m, node, sg. split_and!; try done.
  - intros id rs Hg. unfold GetConsensusResponse in Hg.
    destruct (parse_at src offset) as [m|]; [|done].
    destruct (session_ok _ _ _ _) eqn:Hs; [|done]. cbn [negb] in Hg.
    case_test_in Hg; [done|]. apply bind_Ret in Hg as ([l|] & _ & Hg); [|done].
    apply bind_Ret in Hg as (node & Hn & Hg).
    destruct (signature_ok m node.1) eqn:Hsg; [|done]. simplify_eq.
    apply session_ok_inv in Hs as (? & ? & ?). apply signature_ok_inv in Hsg as [sg Hv].
    apply at_Ret in Hn as [Hr Hn]. exists m, node, sg. split_and!; try done; lia.
Qed.

(** A response message that claims a member's index, belongs to the session
    and holds a subset entry of fewer than 32 bytes makes [GetConsensusResponse]
    dereference a null pointer, before its signature is looked at: the message
    need not be signed by the member, or at all. *)
Theorem short_response_faults src offset cid bn bh committee (m : SignedMessage ResponseBody unit) b :
  parse_at src offset = Some m -> session_ok (consensusinfo m) cid bn bh = true ->
  u16 (senderid (consensusinfo m)) < zlen committee ->
  info_body (consensusinfo m) = [b] -> zlen b < 32 ->
  GetConsensusResponse src offset cid bn bh committee = Fault NullPointer.
Proof.
  intros Hp Hs Hid Hb Hl. pose proof (zlen_nonneg b). unfold GetConsensusResponse.
  rewrite Hp, Hs. cbn [negb]. destruct (Z.geb_spec (u16 (senderid (consensusinfo m))) (zlen committee)); [lia|].
  rewrite Hb. cbn [read_response_subsets].
  unfold Response_Deserialize, BN_obj_Deserialize, BIGNUM_GetNumber, RESPONSE_SIZE.
  change (u32 (0 + 32)) with 32. change (32 <? 32) with false. cbv iota.
  destruct (Z.gtb_spec 32 (zlen b)); [done|lia].
Qed.

End properties.

(** * Witnesses *)

Definition sample_committee : DequeOfNode :=
  [(PubKey_from_priv (mkPrivKey 77), Peer_new 1 100); (PubKey_from_priv (mkPrivKey 5), Peer_new 2 100);
   (PubKey_from_priv (mkPrivKey 900), Peer_new 3 100)].

Definition sample_header : bytes := [8; 1; 1].

(** What a [Set...] function wrote; the empty string if it did not. *)
Definition written (o : outcome (bool * bytes)) : bytes :=
  match o with Ret (true, dst) => dst | _ => [] end.

Abbreviation sample_commit :=
  (SetConsensusCommit [Some 123] sample_header 3 7 9 [1; 2] 1
    (mkObj (smul 6 base) true) (mkObj 55 true)
    (mkPrivKey 5, PubKey_from_priv (mkPrivKey 5))).

Abbreviation sample_response :=
  (SetConsensusResponse [Some 123] sample_header 3 7 9 [1; 2] 1 [mkResponseSubsetInfo (mkObj 44 true)]
    (mkPrivKey 5, PubKey_from_priv (mkPrivKey 5))).

Definition sample_subsets : list ChallengeSubsetInfo :=
  [mkChallengeSubsetInfo (mkObj (smul 6 base) true) (PubKey_from_priv (mkPrivKey 5)) (mkObj 33 true)].

Abbreviation sample_challenge_message :=
  (SetConsensusChallenge [Some 123] sample_header 3 7 9 [1; 2] 0 sample_subsets
    (mkPrivKey 77, PubKey_from_priv (mkPrivKey 77))).

Definition sent (o : outcome (bool * bytes)) : bool :=
  match o with Ret (b, _) => b | Fault _ => false end.

Lemma written_ret o : sent o = true -> o = Ret (true, written o).
Proof. by destruct o as [[[] ?]|]. Qed.

Lemma smul_6_base : smul 6 base <> inf.
Proof. intros E. apply (f_equal Cyclic.val) in E. vm_compute in E. discriminate E. Qed.

Lemma backup_messages_delivered_witness :
  GetConsensusCommit (written sample_commit) 3 7 9 [1; 2] sample_committee
    = Some (1, Some (mkObj (smul 6 base) true), Some (mkObj 55 true)) /\
  GetConsensusResponse (written sample_response) 3 7 9 [1; 2] sample_committee
    = Ret (Some (1, [mkResponseSubsetInfo (mkObj 44 true)])).
Proof.
  assert (forall dst', let key := (mkPrivKey 5, PubKey_from_priv (mkPrivKey 5)) in
    (SetConsensusCommit [Some 123] sample_header 3 7 9 [1; 2] 1
       (mkObj (smul 6 base) true) (mkObj 55 true) key = Ret (true, dst') ->
     GetConsensusCommit dst' 3 7 9 [1; 2] sample_committee
       = Some (1, Some (mkObj (smul 6 base) true), Some (mkObj 55 true))) /\
    (SetConsensusResponse [Some 123] sample_header 3 7 9 [1; 2] 1
       [mkResponseSubsetInfo (mkObj 44 true)] key = Ret (true, dst') ->
     GetConsensusResponse dst' 3 7 9 [1; 2] sample_committee
       = Ret (Some (1, [mkResponseSubsetInfo (mkObj 44 true)])))) as W.
  { intros dst'.
    apply (backup_messages_delivered sample_header 7 9 [1; 2] 1 5 (Peer_new 2 100) sample_committee
             [Some 123] dst' (smul 6 base) 55 [mkResponseSubsetInfo (mkObj 44 true)]).
    - discriminate.
    - split; [discriminate|reflexivity].
    - reflexivity.
    - exact smul_6_base.
    - split; [discriminate|reflexivity].
    - apply Forall_singleton. exists 44. split; [reflexivity|split; [discriminate|reflexivity]]. }
  split.
  - apply (W (written sample_commit)), (written_ret sample_commit). vm_compute. reflexivity.
  - apply (W (written sample_response)), (written_ret sample_response). vm_compute. reflexivity.
Defined.

Lemma leader_messages_delivered_witness :
  GetConsensusChallenge (written sample_challenge_message) 3 7 9 [1; 2] 0
    (PubKey_from_priv (mkPrivKey 77)) = Ret (Some sample_subsets).
Proof.
  apply (leader_messages_delivered sample_header 7 9 [1; 2] 0 77 [Some 123]
           (written sample_challenge_message) sample_subsets (mkSignature 4 5) [] Signature_default).
  - discriminate.
  - split; [discriminate|reflexivity].
  - split; [discriminate|reflexivity].
  - apply Forall_singleton. exists (smul 6 base), 33. split; [reflexivity|].
    split; [exact smul_6_base|]. split; [|split; [reflexivity|split; [discriminate|reflexivity]]].
    intros E. apply (f_equal Cyclic.val) in E. vm_compute in E. discriminate E.
  - apply (written_ret sample_challenge_message). vm_compute. reflexivity.
Defined.

Lemma accepted_messages_authentic_witness :
  exists (m : SignedMessage ResponseBody unit) (node : PubKey * Peer) sg,
    parse_at (written sample_response) 3 = Some m /\
    sample_committee !! 1%nat = Some node /\
    Verify (serialize_info (R := unit) (consensusinfo m)) sg node.1 = true.
Proof.
  destruct (proj2 (accepted_messages_authentic (written sample_response) 3 7 9 [1; 2]
                     sample_committee) 1 [mkResponseSubsetInfo (mkObj 44 true)])
    as (m & node & sg & Hm & Hn & _ & _ & _ & _ & _ & Hv).
  - vm_compute. reflexivity.
  - exists m, node, sg. split; [exact Hm|]. split; [exact Hn|exact Hv].
Defined.

Lemma short_response_faults_witness :
  GetConsensusResponse (serialize (mkSigned (mkInfo 7 9 [1; 2] 1 [[0; 1]]) [] [] tt)) 0 7 9 [1; 2]
    sample_committee = Fault NullPointer.
Proof.
  apply (short_response_faults _ _ _ _ _ _ (mkSigned (mkInfo 7 9 [1; 2] 1 [[0; 1]]) [] [] tt) [0; 1]).
  - vm_compute. reflexivity.
  - reflexivity.
  - reflexivity.
  - reflexivity.
  - reflexivity.
Defined.
