(* ===== verification/ConsensusCommon.v ===== *)
(** * State and helpers shared by leader and backups ([libConsensus/ConsensusCommon.cpp])

    The states and message types of the consensus session, the record of the
    session, the number of votes required (with the double-precision arithmetic
    the source uses), key aggregation by bit map and message pre-processing. *)

From stdpp Require Import base numbers list strings countable.
From Stdlib Require Import SpecFloat.
From S2P Require Import Prelude Peer OpenSSL Schnorr MultiSig ConsensusMessages.
Open Scope Z_scope.

(** ** Enumerations *)

Inductive State :=
  | INITIAL | ANNOUNCE_DONE | COMMIT_DONE | CHALLENGE_DONE | RESPONSE_DONE |
  COLLECTIVESIG_DONE | FINALCOMMIT_DONE | FINALCHALLENGE_DONE | FINALRESPONSE_DONE | DONE
  | ERROR.

#[global] Instance State_eq_dec : EqDecision State.
Proof. solve_decision. Defined.

(** The values of the enumerators, which [SetStateSubset] compares. *)
Definition State_value (s : State) : Z :=
  match s with
  | INITIAL => 0
  | ANNOUNCE_DONE => 1
  | COMMIT_DONE => 2
  | CHALLENGE_DONE => 3
  | RESPONSE_DONE => 4
  | COLLECTIVESIG_DONE => 5
  | FINALCOMMIT_DONE => 6
  | FINALCHALLENGE_DONE => 7
  | FINALRESPONSE_DONE => 8
  | DONE => 9
  | ERROR => 10
  end.

Inductive ConsensusErrorCode :=
  | NO_ERROR | GENERIC_ERROR | INVALID_DSBLOCK | INVALID_MICROBLOCK | INVALID_FINALBLOCK |
  INVALID_VIEWCHANGEBLOCK | INVALID_DSBLOCK_VERSION | INVALID_MICROBLOCK_VERSION |
  INVALID_FINALBLOCK_VERSION | INVALID_FINALBLOCK_NUMBER | INVALID_PREV_FINALBLOCK_HASH |
  INVALID_VIEWCHANGEBLOCK_VERSION | INVALID_TIMESTAMP | INVALID_BLOCK_HASH |
  INVALID_MICROBLOCK_ROOT_HASH | MISSING_TXN | WRONG_TXN_ORDER | WRONG_GASUSED |
  WRONG_REWARDS | FINALBLOCK_MISSING_MICROBLOCKS | FINALBLOCK_INVALID_MICROBLOCK_ROOT_HASH
  | FINALBLOCK_MICROBLOCK_TXNROOT_ERROR | FINALBLOCK_MBS_LEGITIMACY_ERROR |
  INVALID_DS_MICROBLOCK | INVALID_MICROBLOCK_STATE_DELTA_HASH |
  INVALID_MICROBLOCK_SHARD_ID | INVALID_MICROBLOCK_TRAN_RECEIPT_HASH |
  INVALID_FINALBLOCK_STATE_ROOT | INVALID_FINALBLOCK_STATE_DELTA_HASH | INVALID_COMMHASH.

#[global] Instance ConsensusErrorCode_eq_dec : EqDecision ConsensusErrorCode.
Proof. solve_decision. Defined.

(** [MAKE_LITERAL_PAIR]: each enumerator with its own name. *)
Definition CONSENSUSERRORMSG : list (ConsensusErrorCode * string) :=
  [(NO_ERROR, "NO_ERROR");
   (GENERIC_ERROR, "GENERIC_ERROR");
   (INVALID_DSBLOCK, "INVALID_DSBLOCK");
   (INVALID_MICROBLOCK, "INVALID_MICROBLOCK");
   (INVALID_FINALBLOCK, "INVALID_FINALBLOCK");
   (INVALID_VIEWCHANGEBLOCK, "INVALID_VIEWCHANGEBLOCK");
   (INVALID_DSBLOCK_VERSION, "INVALID_DSBLOCK_VERSION");
   (INVALID_MICROBLOCK_VERSION, "INVALID_MICROBLOCK_VERSION");
   (INVALID_FINALBLOCK_VERSION, "INVALID_FINALBLOCK_VERSION");
   (INVALID_FINALBLOCK_NUMBER, "INVALID_FINALBLOCK_NUMBER");
   (INVALID_PREV_FINALBLOCK_HASH, "INVALID_PREV_FINALBLOCK_HASH");
   (INVALID_VIEWCHANGEBLOCK_VERSION, "INVALID_VIEWCHANGEBLOCK_VERSION");
   (INVALID_TIMESTAMP, "INVALID_TIMESTAMP");
   (INVALID_BLOCK_HASH, "INVALID_BLOCK_HASH");
   (INVALID_MICROBLOCK_ROOT_HASH, "INVALID_MICROBLOCK_ROOT_HASH");
   (MISSING_TXN, "MISSING_TXN");
   (WRONG_TXN_ORDER, "WRONG_TXN_ORDER");
   (WRONG_GASUSED, "WRONG_GASUSED");
   (WRONG_REWARDS, "WRONG_REWARDS");
   (INVALID_DS_MICROBLOCK, "INVALID_DS_MICROBLOCK");
   (FINALBLOCK_MISSING_MICROBLOCKS, "FINALBLOCK_MISSING_MICROBLOCKS");
   (FINALBLOCK_INVALID_MICROBLOCK_ROOT_HASH, "FINALBLOCK_INVALID_MICROBLOCK_ROOT_HASH");
   (FINALBLOCK_MICROBLOCK_TXNROOT_ERROR, "FINALBLOCK_MICROBLOCK_TXNROOT_ERROR");
   (FINALBLOCK_MBS_LEGITIMACY_ERROR, "FINALBLOCK_MBS_LEGITIMACY_ERROR");
   (INVALID_MICROBLOCK_STATE_DELTA_HASH, "INVALID_MICROBLOCK_STATE_DELTA_HASH");
   (INVALID_MICROBLOCK_SHARD_ID, "INVALID_MICROBLOCK_SHARD_ID");
   (INVALID_FINALBLOCK_STATE_ROOT, "INVALID_FINALBLOCK_STATE_ROOT");
   (INVALID_FINALBLOCK_STATE_DELTA_HASH, "INVALID_FINALBLOCK_STATE_DELTA_HASH");
   (INVALID_COMMHASH, "INVALID_COMMHASH")].

Definition ConsensusStateStrings : list (State * string) :=
  [(INITIAL, "INITIAL");
   (ANNOUNCE_DONE, "ANNOUNCE_DONE");
   (COMMIT_DONE, "COMMIT_DONE");
   (CHALLENGE_DONE, "CHALLENGE_DONE");
   (RESPONSE_DONE, "RESPONSE_DONE");
   (COLLECTIVESIG_DONE, "COLLECTIVESIG_DONE");
   (FINALCOMMIT_DONE, "FINALCOMMIT_DONE");
   (FINALCHALLENGE_DONE, "FINALCHALLENGE_DONE");
   (FINALRESPONSE_DONE, "FINALRESPONSE_DONE");
   (DONE, "DONE");
   (ERROR, "ERROR")].

(** [map::find] and [map::at]. *)
Fixpoint map_find {K V} `{EqDecision K} (k : K) (m : list (K * V)) : option V :=
  match m with
  | [] => None
  | (k', v) :: m' => if decide (k = k') then Some v else map_find k m'
  end.

Definition GetStateString (s : State) : string :=
  match map_find s ConsensusStateStrings with None => "UNKNOWN" | Some str => str end.

(** [ConsensusMessageType] *)
Definition ANNOUNCE : Z := 0x00.
Definition COMMIT : Z := 0x01.
Definition CHALLENGE : Z := 0x02.
Definition RESPONSE : Z := 0x03.
Definition COLLECTIVESIG : Z := 0x04.
Definition FINALCOMMIT : Z := 0x05.
Definition FINALCHALLENGE : Z := 0x06.
Definition FINALRESPONSE : Z := 0x07.
Definition FINALCOLLECTIVESIG : Z := 0x08.
Definition COMMITFAILURE : Z := 0x09.
Definition CONSENSUSFAILURE : Z := 0x10.

(** [MessageOffset::BODY] *)
Definition BODY : Z := 2.

(** ** Effects: messages sent, threads started, callbacks *)
Inductive effect :=
  | SendMessage (peers : list Peer) (message : bytes)
  | SpreadRumor (message : bytes)
  | StartCommitTimer                                    (** a detached commit-window thread *)
  | CallNodeHandler (errorMsg : bytes) (from : Peer)    (** [m_nodeCommitFailureHandlerFunc] *)
  | CallShardHandler (failures : list (Z * bytes)).     (** [m_shardCommitFailureHandlerFunc] *)

(** ** Votes required

    [ceil(shardSize * TOLERANCE_FRACTION)] in binary64 arithmetic.  The constant
    0.667 is the double 6007801902912242 * 2^-53. *)
Definition to_double (n : Z) : spec_float :=
  match n with
  | Zpos p => binary_round 53 1024 false p 0
  | _ => S754_zero false
  end.

Definition TOLERANCE_FRACTION : spec_float := S754_finite false 6007801902912242 (-53).

(** [ceil] of a non-negative double, converted to [unsigned int]. *)
Definition ceil_u32 (x : spec_float) : Z :=
  match x with
  | S754_finite false m e => u32 (if e <? 0 then - (- Zpos m / 2 ^ (- e)) else Zpos m * 2 ^ e)
  | _ => 0
  end.

Definition NumForConsensus (shardSize : Z) : Z :=
  ceil_u32 (SFmul 53 1024 (to_double shardSize) TOLERANCE_FRACTION).

(** [ceil((double)size * COMMIT_TOLERANCE_PERCENT / 100)] *)
Definition SufficientCommits (size percent : Z) : Z :=
  ceil_u32 (SFdiv 53 1024 (SFmul 53 1024 (to_double size) (to_double percent)) (to_double 100)).

(** ** The session *)

Section common.
Context `{OpenSSL}.

Record ConsensusCommon := mkCommon {
  m_state : State;
  m_consensusErrorCode : ConsensusErrorCode;
  m_consensusID : Z;
  m_blockNumber : Z;
  m_blockHash : bytes;
  m_myID : Z;
  m_myPrivKey : PrivKey;
  m_committee : DequeOfNode;
  m_messageToCosign : bytes;
  m_classByte : Z;
  m_insByte : Z;
  m_collectiveSig : Signature;
  m_responseMap : list bool;
  m_CS1 : Signature;
  m_B1 : list bool;
  m_CS2 : Signature;
  m_B2 : list bool;
  m_commitSecret : option CommitSecret;
  m_commitPoint : option CommitPoint
}.

Definition with_state (c : ConsensusCommon) x0 : ConsensusCommon :=
  mkCommon x0 (m_consensusErrorCode c) (m_consensusID c) (m_blockNumber c) (m_blockHash c)
    (m_myID c) (m_myPrivKey c) (m_committee c) (m_messageToCosign c) (m_classByte c)
    (m_insByte c) (m_collectiveSig c) (m_responseMap c) (m_CS1 c) (m_B1 c) (m_CS2 c) (m_B2
    c) (m_commitSecret c) (m_commitPoint c).
Definition with_errorCode (c : ConsensusCommon) x0 : ConsensusCommon :=
  mkCommon (m_state c) x0 (m_consensusID c) (m_blockNumber c) (m_blockHash c) (m_myID c)
    (m_myPrivKey c) (m_committee c) (m_messageToCosign c) (m_classByte c) (m_insByte c)
    (m_collectiveSig c) (m_responseMap c) (m_CS1 c) (m_B1 c) (m_CS2 c) (m_B2 c)
    (m_commitSecret c) (m_commitPoint c).
Definition with_messageToCosign (c : ConsensusCommon) x0 : ConsensusCommon :=
  mkCommon (m_state c) (m_consensusErrorCode c) (m_consensusID c) (m_blockNumber c)
    (m_blockHash c) (m_myID c) (m_myPrivKey c) (m_committee c) x0 (m_classByte c) (m_insByte
    c) (m_collectiveSig c) (m_responseMap c) (m_CS1 c) (m_B1 c) (m_CS2 c) (m_B2 c)
    (m_commitSecret c) (m_commitPoint c).
Definition with_collectiveSig (c : ConsensusCommon) x0 : ConsensusCommon :=
  mkCommon (m_state c) (m_consensusErrorCode c) (m_consensusID c) (m_blockNumber c)
    (m_blockHash c) (m_myID c) (m_myPrivKey c) (m_committee c) (m_messageToCosign c)
    (m_classByte c) (m_insByte c) x0 (m_responseMap c) (m_CS1 c) (m_B1 c) (m_CS2 c) (m_B2 c)
    (m_commitSecret c) (m_commitPoint c).
Definition with_responseMap (c : ConsensusCommon) x0 : ConsensusCommon :=
  mkCommon (m_state c) (m_consensusErrorCode c) (m_consensusID c) (m_blockNumber c)
    (m_blockHash c) (m_myID c) (m_myPrivKey c) (m_committee c) (m_messageToCosign c)
    (m_classByte c) (m_insByte c) (m_collectiveSig c) x0 (m_CS1 c) (m_B1 c) (m_CS2 c) (m_B2
    c) (m_commitSecret c) (m_commitPoint c).
Definition with_round1 (c : ConsensusCommon) x0 x1 : ConsensusCommon :=
  mkCommon (m_state c) (m_consensusErrorCode c) (m_consensusID c) (m_blockNumber c)
    (m_blockHash c) (m_myID c) (m_myPrivKey c) (m_committee c) (m_messageToCosign c)
    (m_classByte c) (m_insByte c) (m_collectiveSig c) (m_responseMap c) x0 x1 (m_CS2 c)
    (m_B2 c) (m_commitSecret c) (m_commitPoint c).
Definition with_round2 (c : ConsensusCommon) x0 x1 : ConsensusCommon :=
  mkCommon (m_state c) (m_consensusErrorCode c) (m_consensusID c) (m_blockNumber c)
    (m_blockHash c) (m_myID c) (m_myPrivKey c) (m_committee c) (m_messageToCosign c)
    (m_classByte c) (m_insByte c) (m_collectiveSig c) (m_responseMap c) (m_CS1 c) (m_B1 c)
    x0 x1 (m_commitSecret c) (m_commitPoint c).
Definition with_commit (c : ConsensusCommon) x0 x1 : ConsensusCommon :=
  mkCommon (m_state c) (m_consensusErrorCode c) (m_consensusID c) (m_blockNumber c)
    (m_blockHash c) (m_myID c) (m_myPrivKey c) (m_committee c) (m_messageToCosign c)
    (m_classByte c) (m_insByte c) (m_collectiveSig c) (m_responseMap c) (m_CS1 c) (m_B1 c)
    (m_CS2 c) (m_B2 c) x0 x1.

(** The constructor; the derived classes set [m_state]. *)
Definition ConsensusCommon_new (consensus_id block_number : Z) (block_hash : bytes) (my_id : Z)
    (privkey : PrivKey) (committee : DequeOfNode) (class_byte ins_byte : Z) (state : State)
  : ConsensusCommon :=
  mkCommon state NO_ERROR consensus_id block_number block_hash my_id privkey committee []
    class_byte ins_byte Signature_default (replicate (length committee) false)
    Signature_default [] Signature_default [] None None.

Definition GetCommitteeMember (c : ConsensusCommon) (index : Z) : PubKey * Peer :=
  if zlen (m_committee c) <=? index then (PubKey_default, Peer_default)
  else default (PubKey_default, Peer_default) (vec_at (m_committee c) index).

(** [SignMessage] and [VerifyMessage] *)
Definition SignMessage (c : ConsensusCommon) (nonces : list (option Z)) (msg : bytes)
    (offset size : Z) : outcome Signature :=
  match SignRange nonces msg offset size (m_myPrivKey c) (GetCommitteeMember c (m_myID c)).1 with
  | Signed sg => Ret sg
  | SignFailed => Ret Signature_default
  | NonceExhausted => Fault StillDrawing
  end.

Definition VerifyMessage (c : ConsensusCommon) (msg : bytes) (offset size : Z)
    (toverify : Signature) (peer_id : Z) : bool :=
  VerifyRange msg offset size toverify (GetCommitteeMember c peer_id).1.

(** The keys selected by the bit map.  The committee iterator advances with the
    index and is not checked: a set bit past the committee reads out of range. *)
Fixpoint selected_keys (peer_map : list bool) (committee : DequeOfNode) : outcome (list PubKey) :=
  match peer_map with
  | [] => Ret []
  | b :: peer_map' =>
      match committee with
      | [] => if b then Fault OutOfRange else selected_keys peer_map' []
      | node :: committee' =>
          keys ← selected_keys peer_map' committee';
          Ret (if b then PubKey_copy node.1 :: keys else keys)
      end
  end.

Definition AggregateKeys (c : ConsensusCommon) (peer_map : list bool) : outcome PubKey :=
  keys ← selected_keys peer_map (m_committee c);
  Ret (match AggregatePubKeys keys with
       | None => PubKey_default
       | Some result => PubKey_copy result
       end).

Definition AggregateCommits (commits : list CommitPoint) : CommitPoint :=
  match MultiSig.AggregateCommits commits with
  | None => CommitPoint_default
  | Some aggregated_commit => CommitPoint_copy aggregated_commit
  end.

Definition AggregateResponses (responses : list Response) : Response :=
  match MultiSig.AggregateResponses responses with
  | None => Response_default
  | Some aggregated_response => Response_copy aggregated_response
  end.

Definition AggregateSign (challenge : Challenge) (aggregated_response : Response) : Signature :=
  match MultiSig.AggregateSign challenge aggregated_response with
  | None => Signature_default
  | Some result => result
  end.

Definition GetChallenge (msg : bytes) (aggregated_commit : CommitPoint) (aggregated_key : PubKey)
  : Challenge := Challenge_new aggregated_commit aggregated_key msg.

(** ** Error codes and recovery *)

Definition GetConsensusErrorMsg (c : ConsensusCommon) : string :=
  match map_find (m_consensusErrorCode c) CONSENSUSERRORMSG with
  | None => "Error. No such error code."
  | Some msg => msg
  end.

Definition SetConsensusErrorCode (c : ConsensusCommon) (ErrorCode : ConsensusErrorCode)
  : ConsensusCommon := with_errorCode c ErrorCode.

Definition RecoveryAndProcessFromANewState (c : ConsensusCommon) (newState : State)
  : ConsensusCommon := with_state c newState.

(** ** Gatekeeping of incoming messages *)

Definition CanProcessMessage (c : ConsensusCommon) (message : bytes) (offset : Z) : bool :=
  if zlen message <=? offset then false
  else
    match vec_at message offset with
    | None => false
    | Some messageType =>
        if messageType =? COLLECTIVESIG then negb (bool_decide (m_state c = INITIAL))
        else if messageType =? FINALCOLLECTIVESIG then
          negb (bool_decide (m_state c = INITIAL) || bool_decide (m_state c = COMMIT_DONE)
                || bool_decide (m_state c = RESPONSE_DONE))
        else true
    end.

Definition PreProcessMessage `{Proto unit bytes, Proto unit unit, Proto CommitBody unit,
    Proto bytes unit, Proto ChallengeBody unit, Proto ResponseBody unit,
    Proto CollectiveSigBody unit}
    (message : bytes) (offset : Z) (senderPubKey : PubKey) : option (Z * PubKey * bytes) :=
  if zlen message >? offset then
    match vec_at message offset with
    | None => None
    | Some type =>
        let pre B R (_ : Proto B R) :=
          ConsensusMessages.PreProcessMessage (B := B) (R := R) message (u32 (offset + 1)) senderPubKey in
        if type =? ANNOUNCE then pre unit bytes _
        else if type =? CONSENSUSFAILURE then pre unit unit _
        else if (type =? COMMIT) || (type =? FINALCOMMIT) then pre CommitBody unit _
        else if type =? COMMITFAILURE then pre bytes unit _
        else if (type =? CHALLENGE) || (type =? FINALCHALLENGE) then pre ChallengeBody unit _
        else if (type =? RESPONSE) || (type =? FINALRESPONSE) then pre ResponseBody unit _
        else if (type =? COLLECTIVESIG) || (type =? FINALCOLLECTIVESIG)
        then pre CollectiveSigBody unit _
        else None
    end
  else None.

End common.

(** * Facts *)

Section facts.
Context `{Hnf : OpenSSLNoFail}.

Lemma selected_keys_select bm (committee : DequeOfNode) :
  length bm = length committee ->
  selected_keys bm committee = Ret (fst <$> select bm committee).
Proof.
  revert committee. induction bm as [|b bm IH]; intros [|node committee] Hl; simplify_eq/=; [done|].
  rewrite IH by done. cbn [mbind outcome_bind]. rewrite PubKey_copy_some. by destruct b.
Qed.

(** What aggregation by bit map computes: the sum of the selected keys. *)
Lemma AggregateKeys_sum c bm :
  length bm = length (m_committee c) -> count_true bm <> 0%nat ->
  AggregateKeys c bm = Ret (mkPubKey (psum (m_P <$> (fst <$> select bm (m_committee c))))).
Proof.
  intros Hl Hne. unfold AggregateKeys. rewrite selected_keys_select by done.
  cbn [mbind outcome_bind]. rewrite AggregatePubKeys_some; [by rewrite PubKey_copy_some|].
  intros E. apply Hne. rewrite <- (length_select bm (m_committee c)) by done.
  by apply fmap_nil_inv in E as ->.
Qed.

Lemma AggregateCommits_sum cps :
  cps <> [] -> AggregateCommits cps = mkObj (psum (val <$> cps)) true.
Proof.
  intros Hne. unfold AggregateCommits. rewrite AggregateCommits_some by done.
  by rewrite CommitPoint_copy_some.
Qed.

Lemma AggregateResponses_sum r rs :
  0 <= val r < m_order ->
  AggregateResponses (r :: rs) = mkObj (zsum (val <$> (r :: rs)) mod m_order) true.
Proof.
  intros Hr. unfold AggregateResponses. rewrite AggregateResponses_some by done.
  unfold Response_copy. by rewrite BN_obj_copy_some.
Qed.

Lemma AggregateSign_pair c r :
  Initialized c = true -> Initialized r = true ->
  AggregateSign c r = mkSignature (val c) (val r).
Proof. intros Hc Hr. unfold AggregateSign. by rewrite AggregateSign_some. Qed.

Lemma GetCommitteeMember_lookup c i node :
  m_committee c !! Z.to_nat i = Some node -> 0 <= i -> GetCommitteeMember c i = node.
Proof.
  intros Hn Hi. unfold GetCommitteeMember, vec_at. pose proof (lookup_lt_Some _ _ _ Hn).
  destruct (Z.leb_spec (zlen (m_committee c)) i); [unfold zlen in *; lia|].
  destruct (Z.leb_spec 0 i); [|lia]. by rewrite Hn.
Qed.

End facts.

(** ** The vote threshold *)

(** Checked by evaluation for every committee size up to 1000. *)
Lemma NumForConsensus_check :
  forallb (fun n => NumForConsensus n =? (667 * n + 999) / 1000) (seqZ 0 1001) = true.
Proof. vm_compute. reflexivity. Qed.

Lemma NumForConsensus_ceil n : 0 <= n <= 1000 -> NumForConsensus n = (667 * n + 999) / 1000.
Proof.
  intros Hn. pose proof NumForConsensus_check as Hc. rewrite forallb_forall in Hc.
  specialize (Hc n). rewrite Z.eqb_eq in Hc. apply Hc, list_elem_of_In, elem_of_seqZ. lia.
Qed.

(** the vote threshold.  For every committee of 1 to 1000 nodes the
    double-precision [ceil(size * 0.667)] is the exact ceiling of 667/1000 of the
    size; it never exceeds the size, and any two sets of members that reach it
    have more than a third of the committee in common (so two conflicting
    decisions need more than a third of double voters). *)
Theorem quorum_intersection n (a b : list bool) :
  0 < n <= 1000 -> zlen a = n -> zlen b = n ->
  NumForConsensus n <= Z.of_nat (count_true a) -> NumForConsensus n <= Z.of_nat (count_true b) ->
  NumForConsensus n = (667 * n + 999) / 1000 /\ NumForConsensus n <= n /\
  n < 3 * Z.of_nat (count_true (and_map a b)).
Proof.
  intros Hn Ha Hb Hca Hcb. rewrite NumForConsensus_ceil in * by lia.
  pose proof (count_true_overlap a b) as Ho. unfold zlen in *.
  specialize (Ho ltac:(lia)). split; [done|]. zlia.
Qed.

Lemma quorum_intersection_witness :
  3 < 3 * Z.of_nat (count_true (and_map [true; true; true] [true; true; true])) /\ NumForConsensus 3 = 3.
Proof.
  destruct (quorum_intersection 3 [true; true; true] [true; true; true])
    as (E & _ & Hi); [split; [reflexivity|discriminate]|reflexivity|reflexivity|discriminate..|].
  split; [exact Hi|exact E].
Defined.

(** Every error code has its own name as message, except
    [INVALID_MICROBLOCK_TRAN_RECEIPT_HASH], which is missing from the table and
    is reported as an unknown code. *)
Theorem error_message_missing `{OpenSSL} c :
  GetConsensusErrorMsg c = "Error. No such error code."%string <->
  m_consensusErrorCode c = INVALID_MICROBLOCK_TRAN_RECEIPT_HASH.
Proof. unfold GetConsensusErrorMsg. destruct (m_consensusErrorCode c); vm_compute; split; congruence. Qed.
