(* ===== verification/ConsensusBackup.v ===== *)
(** * The consensus backup ([libConsensus/ConsensusBackup.cpp])

    A handler takes the object, the bytes received and the random draws it may
    consume, and returns its result, the object after it and the messages it
    sent; a fault is an exception or a null dereference.  The handlers run one
    at a time here. *)

From stdpp Require Import base numbers list strings countable.
From S2P Require Import Prelude BitVector Peer OpenSSL Schnorr MultiSig ConsensusMessages ConsensusCommon.
Open Scope Z_scope.

Inductive Action :=
  | PROCESS_ANNOUNCE | PROCESS_CHALLENGE | PROCESS_COLLECTIVESIG | PROCESS_FINALCHALLENGE
  | PROCESS_FINALCOLLECTIVESIG.

#[global] Instance Action_eq_dec : EqDecision Action.
Proof. solve_decision. Defined.

Definition ACTIONS_FOR_STATE : list (State * Action) :=
  [(INITIAL, PROCESS_ANNOUNCE);
   (COMMIT_DONE, PROCESS_CHALLENGE);
   (COMMIT_DONE, PROCESS_COLLECTIVESIG);
   (COMMIT_DONE, PROCESS_FINALCOLLECTIVESIG);
   (RESPONSE_DONE, PROCESS_CHALLENGE);
   (RESPONSE_DONE, PROCESS_COLLECTIVESIG);
   (RESPONSE_DONE, PROCESS_FINALCOLLECTIVESIG);
   (FINALCOMMIT_DONE, PROCESS_FINALCHALLENGE);
   (FINALCOMMIT_DONE, PROCESS_FINALCOLLECTIVESIG);
   (FINALRESPONSE_DONE, PROCESS_FINALCHALLENGE);
   (FINALRESPONSE_DONE, PROCESS_FINALCOLLECTIVESIG)].

(** Random draws of one handler: for a commit secret, for a message signature. *)
Record Draws := mkDraws { commit_draws : list (option Z); sign_nonces : list (option Z) }.

Section backup.
Context `{OpenSSL}.
Context `{!Proto CommitBody unit, !Proto ResponseBody unit, !Proto ChallengeBody unit,
          !Proto CollectiveSigBody unit, !Proto bytes unit, !Proto unit unit}.

(** [MsgContentValidatorFunc]: result, [errorMsg], [messageToCosign] after the
    call; the last argument is [messageToCosign] before it. *)
Definition MsgContentValidatorFunc : Type :=
  bytes -> Z -> Z -> Z -> bytes -> Z -> PubKey -> bytes -> bool * bytes * bytes.

Record ConsensusBackup := mkBackup {
  base_ : ConsensusCommon;
  m_leaderID : Z;
  m_msgContentValidator : MsgContentValidatorFunc
}.

Definition with_base (b : ConsensusBackup) (c : ConsensusCommon) : ConsensusBackup :=
  mkBackup c (m_leaderID b) (m_msgContentValidator b).

Definition ConsensusBackup_new (consensus_id block_number : Z) (block_hash : bytes)
    (node_id leader_id : Z) (privkey : PrivKey) (committee : DequeOfNode) (class_byte ins_byte : Z)
    (msg_validator : MsgContentValidatorFunc) : ConsensusBackup :=
  mkBackup (ConsensusCommon_new consensus_id block_number block_hash node_id privkey committee
              class_byte ins_byte INITIAL) leader_id msg_validator.

Definition CheckState (c : ConsensusCommon) (action : Action) : bool :=
  existsb (fun p => bool_decide (p.1 = m_state c) && bool_decide (p.2 = action)) ACTIONS_FOR_STATE.

(** The message under construction: class, instruction and message type. *)
Definition message_header (c : ConsensusCommon) (type : Z) : bytes :=
  [m_classByte c; m_insByte c; type].

Definition my_key (c : ConsensusCommon) : PrivKey * PubKey :=
  (m_myPrivKey c, (GetCommitteeMember c (m_myID c)).1).

Definition GenerateCommitFailureMessage (b : ConsensusBackup) (r : Draws) (commitFailure : bytes)
    (offset : Z) (errorMsg : bytes) : outcome (bool * bytes) :=
  let c := base_ b in
  SetConsensusCommitFailure (sign_nonces r) commitFailure offset (m_consensusID c)
    (m_blockNumber c) (m_blockHash c) (m_myID c) errorMsg (my_key c).

(** The new commit secret and point are kept also when the message fails. *)
Definition GenerateCommitMessage (b : ConsensusBackup) (r : Draws) (commit : bytes) (offset : Z)
  : outcome (bool * bytes * ConsensusBackup) :=
  match CommitSecret_new 0 (commit_draws r) with
  | None => Fault StillDrawing
  | Some secret =>
      let point := CommitPoint_from_secret secret in
      let b := with_base b (with_commit (base_ b) (Some secret) (Some point)) in
      let c := base_ b in
      '(result, commit) ← SetConsensusCommit (sign_nonces r) commit offset (m_consensusID c)
                            (m_blockNumber c) (m_blockHash c) (m_myID c) point
                            (CommitPointHash_new point) (my_key c);
      Ret (result, commit, b)
  end.

Definition ProcessMessageAnnounce (b : ConsensusBackup) (r : Draws) (announcement : bytes)
    (offset : Z) : outcome (bool * ConsensusBackup * list effect) :=
  let c := base_ b in
  if negb (CheckState c PROCESS_ANNOUNCE) then Ret (false, b, [])
  else
    let '(valid, errorMsg, messageToCosign) :=
      m_msgContentValidator b announcement offset (m_consensusID c) (m_blockNumber c)
        (m_blockHash c) (m_leaderID b) (GetCommitteeMember c (m_leaderID b)).1
        (m_messageToCosign c) in
    let b := with_base b (with_messageToCosign c messageToCosign) in
    let c := base_ b in
    let leader := (GetCommitteeMember c (m_leaderID b)).2 in
    if negb valid then
      if negb (zlen errorMsg =? 0) then
        '(result, commitFailureMsg) ←
          GenerateCommitFailureMessage b r (message_header c COMMITFAILURE) (BODY + 1) errorMsg;
        Ret (if (result : bool)
             then (true, with_base b (with_state c ERROR), [SendMessage [leader] commitFailureMsg])
             else (false, b, []))
      else Ret (false, b, [])
    else
      '(result, commit, b) ← GenerateCommitMessage b r (message_header c COMMIT) (BODY + 1);
      Ret (if (result : bool)
           then (result, with_base b (with_state (base_ b) COMMIT_DONE), [SendMessage [leader] commit])
           else (result, b, [])).

Definition ProcessMessageConsensusFailure (b : ConsensusBackup) (announcement : bytes) (offset : Z)
  : bool * ConsensusBackup :=
  let c := base_ b in
  if negb (GetConsensusConsensusFailure announcement offset (m_consensusID c) (m_blockNumber c)
             (m_blockHash c) (m_leaderID b) (GetCommitteeMember c (m_leaderID b)).1)
  then (false, b)
  else (true, with_base b (with_state c INITIAL)).

(** The loop over the subsets of a challenge: the responses, or [None] at the
    first subset that is refused. *)
Fixpoint subset_responses (c : ConsensusCommon) (challengeSubsetInfo : list ChallengeSubsetInfo)
  : outcome (option (list ResponseSubsetInfo)) :=
  match challengeSubsetInfo with
  | [] => Ret (Some [])
  | si :: rest =>
      if negb (Initialized (aggregatedCommit si)) then Ret None
      else if negb (Initialized (challenge si)) then Ret None
      else
        let challenge_verif :=
          GetChallenge (m_messageToCosign c) (aggregatedCommit si) (aggregatedKey si) in
        if negb (Challenge_eq challenge_verif (challenge si)) then Ret None
        else
          match m_commitSecret c with
          | None => Fault NullPointer
          | Some secret =>
              let r := Response_assign Response_default
                         (Response_new secret (challenge si) (m_myPrivKey c)) in
              more ← subset_responses c rest;
              Ret (match more with
                   | None => None
                   | Some l => Some (mkResponseSubsetInfo (Response_copy r) :: l)
                   end)
          end
  end.

Definition GenerateResponseMessage (b : ConsensusBackup) (r : Draws) (response : bytes)
    (offset : Z) (subsetInfo : list ResponseSubsetInfo) : outcome (bool * bytes) :=
  let c := base_ b in
  SetConsensusResponse (sign_nonces r) response offset (m_consensusID c) (m_blockNumber c)
    (m_blockHash c) (m_myID c) subsetInfo (my_key c).

Definition ProcessMessageChallengeCore (b : ConsensusBackup) (r : Draws) (challenge : bytes)
    (offset : Z) (action : Action) (returnmsgtype : Z) (nextstate : State)
  : outcome (bool * ConsensusBackup * list effect) :=
  let c := base_ b in
  if negb (CheckState c action) then Ret (false, b, [])
  else
    infos ← GetConsensusChallenge challenge offset (m_consensusID c) (m_blockNumber c)
              (m_blockHash c) (m_leaderID b) (GetCommitteeMember c (m_leaderID b)).1;
    match infos with
    | None => Ret (false, b, [])
    | Some challengeSubsetInfo =>
        responses ← subset_responses c challengeSubsetInfo;
        match responses with
        | None => Ret (false, with_base b (with_state c ERROR), [])
        | Some responseSubsetInfo =>
            '(result, response) ←
              GenerateResponseMessage b r (message_header c returnmsgtype) (BODY + 1)
                responseSubsetInfo;
            Ret (if (result : bool)
                 then (true, with_base b (with_state c nextstate),
                       [SendMessage [(GetCommitteeMember c (m_leaderID b)).2] response])
                 else (false, b, []))
        end
    end.

Definition ProcessMessageChallenge (b : ConsensusBackup) (r : Draws) (challenge : bytes)
    (offset : Z) : outcome (bool * ConsensusBackup * list effect) :=
  ProcessMessageChallengeCore b r challenge offset PROCESS_CHALLENGE RESPONSE RESPONSE_DONE.

(** [m_collectiveSig.Serialize(m, m.size()); SetBitVector(m, m.size(), m_responseMap)] *)
Definition append_round1 (m : bytes) (sg : Signature) (bm : list bool) : outcome bytes :=
  let m := (Signature_Serialize sg m (u32 (zlen m))).2 in
  match BitVector.SetBitVector m (u32 (zlen m)) bm with
  | None => Fault OutOfRange
  | Some (_, m) => Ret m
  end.

Definition ProcessMessageCollectiveSigCore (b : ConsensusBackup) (r : Draws)
    (collectivesig : bytes) (offset : Z) (action : Action) (nextstate : State)
  : outcome (bool * ConsensusBackup * list effect) :=
  let c := base_ b in
  if negb (CheckState c action) then Ret (false, b, [])
  else
    let '(ok, responseMap, collectiveSig) :=
      GetConsensusCollectiveSig collectivesig offset (m_consensusID c) (m_blockNumber c)
        (m_blockHash c) (m_leaderID b) [] (m_collectiveSig c)
        (GetCommitteeMember c (m_leaderID b)).1 in
    let c := with_collectiveSig (with_responseMap c responseMap) collectiveSig in
    let b := with_base b c in
    if negb ok then Ret (false, b, [])
    else
      aggregated_key ← AggregateKeys c (m_responseMap c);
      if negb (MultiSigVerify (m_messageToCosign c) (m_collectiveSig c) aggregated_key)
      then Ret (false, with_base b (with_state c ERROR), [])
      else if bool_decide (action = PROCESS_COLLECTIVESIG) then
        messageToCosign ← append_round1 (m_messageToCosign c) (m_collectiveSig c) (m_responseMap c);
        let b := with_base b (with_messageToCosign c messageToCosign) in
        '(result, finalcommit, b) ←
          GenerateCommitMessage b r (message_header (base_ b) FINALCOMMIT) (BODY + 1);
        let c := base_ b in
        Ret (if (result : bool)
             then (result,
                   with_base b (with_round1 (with_state c nextstate) (m_collectiveSig c)
                                  (m_responseMap c)),
                   [SendMessage [(GetCommitteeMember c (m_leaderID b)).2] finalcommit])
             else (result, b, []))
      else
        Ret (true,
             with_base b (with_state (with_round2 c (m_collectiveSig c) (m_responseMap c)) nextstate),
             []).

Definition ProcessMessageCollectiveSig (b : ConsensusBackup) (r : Draws) (collectivesig : bytes)
    (offset : Z) : outcome (bool * ConsensusBackup * list effect) :=
  ProcessMessageCollectiveSigCore b r collectivesig offset PROCESS_COLLECTIVESIG FINALCOMMIT_DONE.

Definition ProcessMessageFinalChallenge (b : ConsensusBackup) (r : Draws) (challenge : bytes)
    (offset : Z) : outcome (bool * ConsensusBackup * list effect) :=
  ProcessMessageChallengeCore b r challenge offset PROCESS_FINALCHALLENGE FINALRESPONSE
    FINALRESPONSE_DONE.

Definition ProcessMessageFinalCollectiveSig (b : ConsensusBackup) (r : Draws)
    (finalcollectivesig : bytes) (offset : Z) : outcome (bool * ConsensusBackup * list effect) :=
  ProcessMessageCollectiveSigCore b r finalcollectivesig offset PROCESS_FINALCOLLECTIVESIG DONE.

Definition ProcessMessage (b : ConsensusBackup) (r : Draws) (message : bytes) (offset : Z)
  : outcome (bool * ConsensusBackup * list effect) :=
  type ← at_ message offset;
  let offset1 := u32 (offset + 1) in
  if type =? ANNOUNCE then ProcessMessageAnnounce b r message offset1
  else if type =? CONSENSUSFAILURE then
    let '(result, b) := ProcessMessageConsensusFailure b message offset1 in Ret (result, b, [])
  else if type =? CHALLENGE then ProcessMessageChallenge b r message offset1
  else if type =? COLLECTIVESIG then ProcessMessageCollectiveSig b r message offset1
  else if type =? FINALCHALLENGE then ProcessMessageFinalChallenge b r message offset1
  else if type =? FINALCOLLECTIVESIG then ProcessMessageFinalCollectiveSig b r message offset1
  else Ret (false, b, []).

End backup.

(** * What the handlers do, case by case *)

Section cases.
Context `{OpenSSL}.
Context `{!Proto CommitBody unit, !Proto ResponseBody unit, !Proto ChallengeBody unit,
          !Proto CollectiveSigBody unit, !Proto bytes unit, !Proto unit unit}.

Lemma CheckState_iff c action :
  CheckState c action = true <-> (m_state c, action) ∈ ACTIONS_FOR_STATE.
Proof.
  unfold CheckState. rewrite existsb_exists. split.
  - intros ([s a] & Hin & E). apply andb_true_iff in E as [Es Ea].
    apply bool_decide_eq_true in Es, Ea. cbn in Es, Ea. subst. by apply list_elem_of_In.
  - intros Hin. exists (m_state c, action). split; [by apply list_elem_of_In|].
    cbn. by rewrite !bool_decide_eq_true_2.
Qed.

Lemma GenerateCommitMessage_inv b r m o res m' b' :
  GenerateCommitMessage b r m o = Ret (res, m', b') ->
  exists secret, CommitSecret_new 0 (commit_draws r) = Some secret /\
    b' = with_base b (with_commit (base_ b) (Some secret) (Some (CommitPoint_from_secret secret))).
Proof.
  unfold GenerateCommitMessage. destruct (CommitSecret_new _ _) as [secret|]; [|done].
  intros E. apply bind_Ret in E as ([res0 m0] & _ & E). simplify_eq. eauto.
Qed.

(** An announcement moves [INITIAL] to [COMMIT_DONE] with a fresh commit, or to
    [ERROR] after reporting the validator's error, or leaves the state alone. *)
Lemma Announce_cases b r m o res b' eff :
  ProcessMessageAnnounce b r m o = Ret (res, b', eff) ->
  (b' = b /\ CheckState (base_ b) PROCESS_ANNOUNCE = false) \/
  (CheckState (base_ b) PROCESS_ANNOUNCE = true /\ exists msg,
     let c := with_messageToCosign (base_ b) msg in
     b' = with_base b c \/
     (b' = with_base b (with_state c ERROR) /\ res = true) \/
     exists s p, (b' = with_base b (with_commit c (Some s) (Some p)) \/
       (b' = with_base b (with_state (with_commit c (Some s) (Some p)) COMMIT_DONE) /\ res = true))).
Proof.
  unfold ProcessMessageAnnounce. destruct (CheckState _ _); cbn [negb]; [|intros [= <- <- <-]; auto].
  destruct (m_msgContentValidator _ _ _ _ _ _ _ _ _) as [[valid err] msg].
  intros E. right. split; [done|]. exists msg. cbn zeta. destruct valid; cbn [negb] in E.
  - apply bind_Ret in E as ([[res0 m0] b0] & E0 & E). apply GenerateCommitMessage_inv in E0 as (s & _ & ->).
    right. right. exists s, (CommitPoint_from_secret s). destruct res0; simplify_eq; auto.
  - case_test_in E; [|simplify_eq; auto]. apply bind_Ret in E as ([res0 m0] & _ & E).
    destruct res0; simplify_eq; auto.
Qed.

Lemma Challenge_cases b r m o action type next res b' eff :
  ProcessMessageChallengeCore b r m o action type next = Ret (res, b', eff) ->
  (b' = b /\ res = false /\ eff = []) \/
  (CheckState (base_ b) action = true /\
   ((b' = with_base b (with_state (base_ b) ERROR) /\ res = false /\ eff = []) \/
    (b' = with_base b (with_state (base_ b) next) /\ res = true /\
     exists infos responses response,
       GetConsensusChallenge m o (m_consensusID (base_ b)) (m_blockNumber (base_ b))
         (m_blockHash (base_ b)) (m_leaderID b) (GetCommitteeMember (base_ b) (m_leaderID b)).1
         = Ret (Some infos) /\
       subset_responses (base_ b) infos = Ret (Some responses) /\
       eff = [SendMessage [(GetCommitteeMember (base_ b) (m_leaderID b)).2] response]))).
Proof.
  unfold ProcessMessageChallengeCore. destruct (CheckState _ _); cbn [negb]; [|intros; simplify_eq; auto].
  intros E. apply bind_Ret in E as ([infos|] & E1 & E); [|simplify_eq; auto].
  apply bind_Ret in E as ([responses|] & E2 & E); [|simplify_eq; auto 8].
  apply bind_Ret in E as ([[] response] & _ & E); simplify_eq; [|auto].
  right. split; [done|]. right. split; [done|]. split; [done|].
  by exists infos, responses, response.
Qed.

Lemma CollectiveSig_cases b r m o action next res b' eff :
  ProcessMessageCollectiveSigCore b r m o action next = Ret (res, b', eff) ->
  (b' = b /\ CheckState (base_ b) action = false) \/
  (CheckState (base_ b) action = true /\ exists bm sg,
     let c := with_collectiveSig (with_responseMap (base_ b) bm) sg in
     b' = with_base b c \/
     b' = with_base b (with_state c ERROR) \/
     exists key, AggregateKeys (base_ b) bm = Ret key /\
       MultiSigVerify (m_messageToCosign (base_ b)) sg key = true /\
       ((action = PROCESS_COLLECTIVESIG /\ exists msg s p,
           append_round1 (m_messageToCosign (base_ b)) sg bm = Ret msg /\
           let c := with_commit (with_messageToCosign c msg) (Some s) (Some p) in
           (b' = with_base b c \/ b' = with_base b (with_round1 (with_state c next) sg bm)))
        \/ (action <> PROCESS_COLLECTIVESIG /\
            b' = with_base b (with_state (with_round2 c sg bm) next)))).
Proof.
  unfold ProcessMessageCollectiveSigCore.
  destruct (CheckState _ _) eqn:Hc; cbn [negb]; [|intros; simplify_eq; auto].
  destruct (GetConsensusCollectiveSig _ _ _ _ _ _ _ _ _) as [[ok bm] sg]. intros E.
  right. split; [done|]. exists bm, sg. cbn zeta. destruct ok; cbn [negb] in E; [|simplify_eq; auto].
  apply bind_Ret in E as (key & Ek & E). cbn [m_responseMap with_collectiveSig with_responseMap] in Ek.
  destruct (MultiSigVerify _ _ _) eqn:Hv; cbn [negb] in E; [|simplify_eq; auto].
  right. right. exists key. split; [exact Ek|]. split; [exact Hv|].
  case_bool_decide as Ha; [|right; simplify_eq; split; [done|reflexivity]].
  left. split; [done|]. apply bind_Ret in E as (msg & Em & E).
  apply bind_Ret in E as ([[res0 m0] b0] & E0 & E). apply GenerateCommitMessage_inv in E0 as (s & _ & ->).
  exists msg, s, (CommitPoint_from_secret s). split; [exact Em|].
  destruct res0; simplify_eq; auto.
Qed.

(** ** The session invariant *)

(** What a backup that is past the first round knows: the message it now signs
    is the first message followed by a collective signature on it that holds
    under the keys selected by the bit map. *)
Definition round1_certified (c : ConsensusCommon) : Prop :=
  exists m0 key, AggregateKeys c (m_B1 c) = Ret key /\ MultiSigVerify m0 (m_CS1 c) key = true /\
                 append_round1 m0 (m_CS1 c) (m_B1 c) = Ret (m_messageToCosign c).

Definition round2_certified (c : ConsensusCommon) : Prop :=
  exists key, AggregateKeys c (m_B2 c) = Ret key /\
              MultiSigVerify (m_messageToCosign c) (m_CS2 c) key = true.

Definition backup_inv (b : ConsensusBackup) : Prop :=
  let c := base_ b in
  match m_state c with
  | INITIAL | ERROR => True
  | COMMIT_DONE | RESPONSE_DONE => is_Some (m_commitSecret c)
  | FINALCOMMIT_DONE | FINALRESPONSE_DONE => is_Some (m_commitSecret c) /\ round1_certified c
  | DONE => round2_certified c
  | _ => False
  end.

(** The transitions of the state machine. *)
Definition backup_edge (s s' : State) : Prop :=
  match s, s' with
  | INITIAL, (COMMIT_DONE | ERROR) => True
  | (COMMIT_DONE | RESPONSE_DONE), (RESPONSE_DONE | FINALCOMMIT_DONE | DONE | ERROR) => True
  | (FINALCOMMIT_DONE | FINALRESPONSE_DONE), (FINALRESPONSE_DONE | DONE | ERROR) => True
  | _, _ => s' = s \/ s' = INITIAL
  end.

Lemma CheckState_states c action :
  CheckState c action = true ->
  match action with
  | PROCESS_ANNOUNCE => m_state c = INITIAL
  | PROCESS_CHALLENGE | PROCESS_COLLECTIVESIG => m_state c = COMMIT_DONE \/ m_state c = RESPONSE_DONE
  | PROCESS_FINALCHALLENGE => m_state c = FINALCOMMIT_DONE \/ m_state c = FINALRESPONSE_DONE
  | PROCESS_FINALCOLLECTIVESIG =>
      m_state c = COMMIT_DONE \/ m_state c = RESPONSE_DONE \/ m_state c = FINALCOMMIT_DONE
      \/ m_state c = FINALRESPONSE_DONE
  end.
Proof. unfold CheckState. destruct (m_state c), action; vm_compute; auto; discriminate. Qed.

End cases.

(** * Properties *)

Section properties.
Context `{Hnf : OpenSSLNoFail}.
Context `{!Proto CommitBody unit, !Proto ResponseBody unit, !Proto ChallengeBody unit,
          !Proto CollectiveSigBody unit, !Proto bytes unit, !Proto unit unit}.

(** ** The state machine *)

Lemma Announce_edge b r m o res b' eff :
  ProcessMessageAnnounce b r m o = Ret (res, b', eff) -> backup_inv b ->
  backup_edge (m_state (base_ b)) (m_state (base_ b')) /\ backup_inv b'.
Proof.
  intros E Hi. apply Announce_cases in E as [[-> _]|[Hs (msg & E)]].
  { split; [|done]. destruct (m_state (base_ b)); cbn; auto. }
  apply CheckState_states in Hs. cbn zeta in E.
  destruct E as [->|[[-> _]|(s & p & [->|[-> _]])]]; unfold backup_inv; cbn; rewrite ?Hs; cbn; eauto.
Qed.

Lemma ConsensusFailure_edge b m o res b' :
  ProcessMessageConsensusFailure b m o = (res, b') -> backup_inv b ->
  backup_edge (m_state (base_ b)) (m_state (base_ b')) /\ backup_inv b'.
Proof.
  unfold ProcessMessageConsensusFailure. intros E Hi. case_test_in E; simplify_eq.
  - split; [|done]. destruct (m_state (base_ b')); cbn; auto.
  - unfold backup_inv. cbn. split; [|done]. destruct (m_state (base_ b)); cbn; auto.
Qed.

Lemma Challenge_edge b r m o action type next res b' eff :
  ProcessMessageChallengeCore b r m o action type next = Ret (res, b', eff) -> backup_inv b ->
  action = PROCESS_CHALLENGE /\ next = RESPONSE_DONE \/
  action = PROCESS_FINALCHALLENGE /\ next = FINALRESPONSE_DONE ->
  backup_edge (m_state (base_ b)) (m_state (base_ b')) /\ backup_inv b'.
Proof.
  intros E Hi Ha. apply Challenge_cases in E as [[-> _]|[Hs E]].
  { split; [|done]. destruct (m_state (base_ b)); cbn; auto. }
  apply CheckState_states in Hs. unfold backup_inv in *.
  destruct Ha as [[-> ->]|[-> ->]], Hs as [Hs|Hs], E as [[-> _]|[-> _]]; cbn; rewrite Hs in *;
    cbn; auto.
Qed.

Lemma CollectiveSig_edge b r m o action next res b' eff :
  ProcessMessageCollectiveSigCore b r m o action next = Ret (res, b', eff) -> backup_inv b ->
  action = PROCESS_COLLECTIVESIG /\ next = FINALCOMMIT_DONE \/
  action = PROCESS_FINALCOLLECTIVESIG /\ next = DONE ->
  backup_edge (m_state (base_ b)) (m_state (base_ b')) /\ backup_inv b'.
Proof.
  intros E Hi Ha. apply CollectiveSig_cases in E as [[-> _]|[Hs (bm & sg & E)]].
  { split; [|done]. destruct (m_state (base_ b)); cbn; auto. }
  apply CheckState_states in Hs. cbn zeta in E. unfold backup_inv in *.
  assert (forall P Q : Prop, (m_state (base_ b) = COMMIT_DONE \/ m_state (base_ b) = RESPONSE_DONE
            -> is_Some (m_commitSecret (base_ b)) -> P /\ Q) ->
          (m_state (base_ b) = FINALCOMMIT_DONE \/ m_state (base_ b) = FINALRESPONSE_DONE ->
           is_Some (m_commitSecret (base_ b)) /\ round1_certified (base_ b) -> P /\ Q) -> P /\ Q)
    as Hstate.
  { intros P Q H1 H2. destruct Ha as [[-> _]|[-> _]];
      destruct (m_state (base_ b)) eqn:Es; try (by apply H1; auto); try (by apply H2; auto);
      naive_solver. }
  destruct E as [->|[->|(key & Hk & Hv & [(Ea & msg & s & p & Hm & E)|[Ea ->]])]].
  - apply Hstate; intros [Es|Es] Hc; cbn; rewrite Es; cbn; auto.
  - apply Hstate; intros [Es|Es] Hc; cbn; rewrite Es; cbn; auto.
  - destruct Ha as [[-> ->]|[-> ->]]; [|done]. destruct E as [->| ->].
    + destruct Hs as [Es|Es]; cbn; rewrite Es; cbn; eauto.
    + destruct Hs as [Es|Es]; cbn; rewrite Es; cbn.
      all: split; [done|]; split; [eauto|]; exists (m_messageToCosign (base_ b)), key; auto.
  - destruct Ha as [[-> ->]|[-> ->]]; [done|].
    apply Hstate; intros [Es|Es] Hc; cbn; rewrite Es; cbn; (split; [done|]); exists key; auto.
Qed.

Lemma ProcessMessage_edge b r m o res b' eff :
  ProcessMessage b r m o = Ret (res, b', eff) -> backup_inv b ->
  backup_edge (m_state (base_ b)) (m_state (base_ b')) /\ backup_inv b'.
Proof.
  intros E Hi. unfold ProcessMessage in E. apply bind_Ret in E as (type & _ & E).
  repeat case_test_in E.
  - by eapply Announce_edge.
  - destruct (ProcessMessageConsensusFailure _ _ _) as [res0 b0] eqn:E'. simplify_eq.
    by eapply ConsensusFailure_edge.
  - eapply Challenge_edge; eauto.
  - eapply CollectiveSig_edge; eauto.
  - eapply Challenge_edge; eauto.
  - eapply CollectiveSig_edge; eauto.
  - simplify_eq. split; [|done]. destruct (m_state (base_ b')); cbn; auto.
Qed.

(** States reached by processing messages, whatever arrives and is drawn. *)
Inductive backup_reach (b0 : ConsensusBackup) : ConsensusBackup -> Prop :=
  | reach_refl : backup_reach b0 b0
  | reach_step b b' r m o res eff :
      backup_reach b0 b -> ProcessMessage b r m o = Ret (res, b', eff) -> backup_reach b0 b'.

Lemma reach_inv cid bn bh id lid k committee cb ib validator b :
  backup_reach (ConsensusBackup_new cid bn bh id lid k committee cb ib validator) b -> backup_inv b.
Proof.
  induction 1 as [|b b' r m o res eff _ IH E]; [done|].
  by destruct (ProcessMessage_edge _ _ _ _ _ _ _ E IH).
Qed.

(** C3: a backup never decides without proof.  In every state reachable from the
    constructor by processing arbitrary bytes, a backup that is [DONE] holds a
    second-round bit map and collective signature that [MultiSigVerify] accepts
    on the message it co-signs, under the aggregate of the committee keys the
    bit map selects; a backup that has sent its final commit holds such a pair
    for the first round, and the message it now co-signs is the first message
    followed by them. *)
Theorem backup_decides_certified cid bn bh id lid k committee cb ib validator b :
  backup_reach (ConsensusBackup_new cid bn bh id lid k committee cb ib validator) b ->
  (m_state (base_ b) = DONE ->
   exists key, AggregateKeys (base_ b) (m_B2 (base_ b)) = Ret key /\
     MultiSigVerify (m_messageToCosign (base_ b)) (m_CS2 (base_ b)) key = true) /\
  (m_state (base_ b) = FINALCOMMIT_DONE \/ m_state (base_ b) = FINALRESPONSE_DONE ->
   exists m0 key, AggregateKeys (base_ b) (m_B1 (base_ b)) = Ret key /\
     MultiSigVerify m0 (m_CS1 (base_ b)) key = true /\
     append_round1 m0 (m_CS1 (base_ b)) (m_B1 (base_ b)) = Ret (m_messageToCosign (base_ b))).
Proof.
  intros Hr. apply reach_inv in Hr. unfold backup_inv in Hr. split.
  - intros Es. by rewrite Es in Hr.
  - intros [Es|Es]; rewrite Es in Hr; by destruct Hr.
Qed.

(** the transitions of a backup.  Whatever message a reachable backup
    processes, its state moves along an edge of the protocol (announce, commit,
    response, final commit, final response, done, error) or back to [INITIAL]
    by the leader's consensus-failure message; [DONE] and [ERROR] are left only
    that way. *)
Theorem backup_transitions cid bn bh id lid k committee cb ib validator b r m o res b' eff :
  backup_reach (ConsensusBackup_new cid bn bh id lid k committee cb ib validator) b ->
  ProcessMessage b r m o = Ret (res, b', eff) ->
  backup_edge (m_state (base_ b)) (m_state (base_ b')).
Proof. intros Hr E. apply reach_inv in Hr. by destruct (ProcessMessage_edge _ _ _ _ _ _ _ E Hr). Qed.

(** ** Responses *)

(** A backup that has a commit secret answers; each answer belongs to the
    challenge that its own message determines. *)
Lemma subset_responses_spec c infos responses secret :
  m_commitSecret c = Some secret -> subset_responses c infos = Ret (Some responses) ->
  Forall2 (fun si ri =>
     Challenge_eq (Challenge_new (aggregatedCommit si) (aggregatedKey si) (m_messageToCosign c))
       (challenge si) = true /\
     response ri = mkObj (val (Response_new secret (challenge si) (m_myPrivKey c))) true)
    infos responses.
Proof.
  intros Hs. revert responses. induction infos as [|si infos IH]; cbn [subset_responses].
  - intros responses [= <-]. constructor.
  - intros responses E. do 2 (case_test_in E; [done|]).
    case_test_in E; [done|]. rewrite Hs in E. apply bind_Ret in E as ([l|] & El & E); [|done].
    simplify_eq. constructor; [|by apply IH]. split; [by apply negb_false_iff|].
    cbn [response]. unfold Response_copy. rewrite BN_obj_copy_some. f_equal.
    unfold Response_assign, BN_obj_assign.
    destruct (bn_copy_some (val (Response_new secret (challenge si) (m_myPrivKey c)))) as [v Ev].
    rewrite Ev. by apply bn_copy_spec in Ev.
Qed.

Lemma subset_responses_total c infos :
  is_Some (m_commitSecret c) -> exists o, subset_responses c infos = Ret o.
Proof.
  intros [s Hs]. induction infos as [|si infos [o IH]]; cbn [subset_responses]; [eauto|].
  do 3 (case_test; [eauto|]). rewrite Hs, IH. cbn. eauto.
Qed.

(** a reachable backup answers a challenge only for its own message.  If it
    sends a response, every subset of the challenge message carries the
    challenge computed from the subset's aggregated commit and key and the
    message this backup co-signs; and it never dereferences a missing commit
    secret: a fault can only come from reading the message or from the random
    generator. *)
Theorem backup_answers_own_message cid bn bh id lid k committee cb ib validator b r m o action type next :
  backup_reach (ConsensusBackup_new cid bn bh id lid k committee cb ib validator) b ->
  action = PROCESS_CHALLENGE \/ action = PROCESS_FINALCHALLENGE ->
  let get := GetConsensusChallenge m o (m_consensusID (base_ b)) (m_blockNumber (base_ b))
         (m_blockHash (base_ b)) (m_leaderID b) (GetCommitteeMember (base_ b) (m_leaderID b)).1 in
  match ProcessMessageChallengeCore b r m o action type next with
  | Ret (res, _, eff) => eff <> [] -> exists infos, get = Ret (Some infos) /\
      Forall (fun si => Challenge_eq (Challenge_new (aggregatedCommit si) (aggregatedKey si)
                           (m_messageToCosign (base_ b))) (challenge si) = true) infos
  | Fault f => f = StillDrawing \/ get = Fault f
  end.
Proof.
  intros Hr Ha get. apply reach_inv in Hr.
  destruct (ProcessMessageChallengeCore b r m o action type next) as [[[res b'] eff]|f] eqn:E.
  - apply Challenge_cases in E as [(_ & _ & ->)|[Hs [(_ & _ & ->)|(_ & _ & infos & rs & rsp & Eg & Er & _)]]];
      [done..|]. intros _. exists infos. split; [exact Eg|].
    apply CheckState_states in Hs. unfold backup_inv in Hr.
    assert (is_Some (m_commitSecret (base_ b))) as [secret Hsec].
    { destruct Ha as [-> | ->]; destruct Hs as [Es|Es]; rewrite Es in Hr; tauto. }
    eapply subset_responses_spec in Er; [|exact Hsec].
    clear -Er. induction Er as [|si ri infos rs [Hc _] _ IH]; constructor; done.
  - unfold ProcessMessageChallengeCore in E. destruct (CheckState _ _) eqn:Hs; [|done].
    cbn [negb] in E. fold get in E. destruct get as [[infos|]|f'] eqn:Eg; cbn [mbind outcome_bind] in E;
      [|done|by simplify_eq; right].
    apply CheckState_states in Hs. unfold backup_inv in Hr.
    assert (is_Some (m_commitSecret (base_ b))) as Hsec.
    { destruct Ha as [-> | ->]; destruct Hs as [Es|Es]; rewrite Es in Hr; tauto. }
    destruct (subset_responses_total (base_ b) infos Hsec) as [[rs|] Er]; rewrite Er in E;
      cbn [mbind outcome_bind] in E; [|done].
    unfold GenerateResponseMessage, SetConsensusResponse, sign_message in E.
    destruct (Sign _ _ _ _); cbn in E; simplify_eq; auto.
Qed.

(** The arithmetic of key extraction. *)
Lemma modular_extraction e d ci cj k q :
  0 <= d < q -> (e * (ci - cj)) mod q = 1 ->
  (e * ((k - (cj * d) mod q) mod q - (k - (ci * d) mod q) mod q)) mod q = d.
Proof.
  intros Hd He. assert (q <> 0) as Hq by lia. pose proof (Z.div_mod (e * (ci - cj)) q Hq) as Ht.
  rewrite He in Ht. set (t := e * (ci - cj) / q) in *.
  rewrite (Z.mod_eq (k - (cj * d) mod q) q Hq), (Z.mod_eq (k - (ci * d) mod q) q Hq),
    (Z.mod_eq (cj * d) q Hq), (Z.mod_eq (ci * d) q Hq).
  set (a := cj * d / q). set (b := ci * d / q).
  set (a' := (k - (cj * d - q * a)) / q). set (b' := (k - (ci * d - q * b)) / q).
  replace (e * _) with (d + (t * d + e * (a - a' - b + b')) * q).
  - rewrite Z.mod_add by done. by apply Z.mod_small.
  - transitivity (e * (ci - cj) * d + e * (a - a' - b + b') * q); [rewrite Ht|]; ring.
Qed.

(** one commit secret answers several challenges.  A backup answers every
    subset of a challenge message with the same secret: two subsets with
    different challenges determine its private key from the two responses alone. *)
Theorem backup_key_extraction c infos responses secret i j si sj ri rj :
  m_commitSecret c = Some secret -> Initialized secret = true ->
  0 <= m_d (m_myPrivKey c) < m_order ->
  subset_responses c infos = Ret (Some responses) ->
  infos !! i = Some si -> infos !! j = Some sj ->
  responses !! i = Some ri -> responses !! j = Some rj ->
  (val (challenge si) - val (challenge sj)) mod m_order <> 0 ->
  exists e, (e * (val (challenge si) - val (challenge sj))) mod m_order = 1 /\
            m_d (m_myPrivKey c) = (e * (val (response rj) - val (response ri))) mod m_order.
Proof.
  intros Hs Hin Hd E Hsi Hsj Hri Hrj Hne. pose proof order_gt_1.
  eapply subset_responses_spec in E; [|exact Hs]. rewrite Forall2_lookup in E.
  assert (forall n s r, infos !! n = Some s -> responses !! n = Some r ->
    val (response r) = (val secret - (val (challenge s) * m_d (m_myPrivKey c)) mod m_order) mod m_order)
    as Hval.
  { intros n s r Hn Hr. specialize (E n). rewrite Hn, Hr in E.
    inversion E as [? ? [Hc Er]|]; simplify_eq.
    rewrite Er. cbn [val]. unfold Challenge_eq, BN_obj_eq in Hc.
    apply andb_true_iff in Hc as [[_ Hci]%andb_true_iff _].
    unfold Response_new, Response_Set. cbn [Initialized Response_default]. rewrite Hin, Hci, alloc_true.
    cbn [negb]. destruct (mod_mul_some (val (challenge s)) (m_d (m_myPrivKey c))) as [x Ex]. rewrite Ex.
    apply mod_mul_spec in Ex. subst x.
    destruct (mod_sub_some (val secret) ((val (challenge s) * m_d (m_myPrivKey c)) mod m_order)) as [y Ey].
    rewrite Ey. by apply mod_sub_spec in Ey. }
  rewrite (Hval i si ri), (Hval j sj rj) by done.
  destruct (scalar_inverse _ Hne) as [e He]. exists e. split; [done|].
  set (d := m_d (m_myPrivKey c)) in *. set (ci := val (challenge si)) in *.
  set (cj := val (challenge sj)) in *. set (kk := val secret).
  by rewrite (modular_extraction e d ci cj kk).
Qed.


(** ** Collective signatures *)

(** The backup does not count votes.  A final collective signature that is
    signed by the leader and verifies under the keys its bit map selects takes
    the backup to [DONE], whatever the number of set bits: the threshold
    [NumForConsensus] is not looked at.  A bit map with a set bit beyond the
    committee makes the handler read past the end of the committee. *)
Theorem backup_ignores_threshold b r m o bm sg :
  let c := base_ b in
  CheckState c PROCESS_FINALCOLLECTIVESIG = true ->
  GetConsensusCollectiveSig m o (m_consensusID c) (m_blockNumber c) (m_blockHash c) (m_leaderID b)
    [] (m_collectiveSig c) (GetCommitteeMember c (m_leaderID b)).1 = (true, bm, sg) ->
  (forall key, AggregateKeys c bm = Ret key -> MultiSigVerify (m_messageToCosign c) sg key = true ->
     exists b', ProcessMessageFinalCollectiveSig b r m o = Ret (true, b', []) /\
       m_state (base_ b') = DONE /\ m_B2 (base_ b') = bm /\ m_CS2 (base_ b') = sg) /\
  (forall i, bm !! i = Some true -> (length (m_committee c) <= i)%nat ->
     ProcessMessageFinalCollectiveSig b r m o = Fault OutOfRange).
Proof.
  intros c Hs Hg. unfold ProcessMessageFinalCollectiveSig, ProcessMessageCollectiveSigCore.
  fold c. rewrite Hs, Hg. cbn [negb]. split.
  - intros key Hk Hv. eexists. split.
    + change (AggregateKeys (with_collectiveSig (with_responseMap c bm) sg) bm)
        with (AggregateKeys c bm). cbn [m_responseMap with_collectiveSig with_responseMap].
      change (AggregateKeys _ bm) with (AggregateKeys c bm). rewrite Hk.
      cbn [mbind outcome_bind m_messageToCosign m_collectiveSig with_collectiveSig with_responseMap].
      rewrite Hv. cbn [negb]. reflexivity.
    + done.
  - intros i Hi Hl. cbn [m_responseMap with_collectiveSig with_responseMap].
    unfold AggregateKeys. cbn [m_committee with_collectiveSig with_responseMap].
    assert (selected_keys bm (m_committee c) = Fault OutOfRange) as ->; [|done].
    clear -Hi Hl. generalize dependent (m_committee c). revert i Hi.
    induction bm as [|x bm IH]; intros i Hi l Hl; [done|].
    destruct l as [|node l]; destruct i as [|i]; simplify_eq/=; try lia; [done| |].
    + destruct x; [done|]. apply (IH i); [done|]. cbn. lia.
    + rewrite (IH i) by (done || lia). done.
Qed.

End properties.

(** * Witnesses: a backup (key 5, index 1) of a committee of three, and messages
    of a leader (key 77, index 0) that co-signs alone *)

Definition run_backup (b : ConsensusBackup) (inputs : list (Draws * bytes)) : outcome ConsensusBackup :=
  foldl (fun o x => b ← o; '(_, b, _) ← ProcessMessage b x.1 x.2 2; Ret b) (Ret b) inputs.

Lemma run_backup_reach b inputs b' : run_backup b inputs = Ret b' -> backup_reach b b'.
Proof.
  revert b'. induction inputs as [|[r m] inputs IH] using rev_ind; intros b' E.
  - injection E as <-. constructor.
  - unfold run_backup in E. rewrite foldl_app in E. cbn [foldl] in E.
    apply bind_Ret in E as (b1 & E1 & E). apply bind_Ret in E as ([[res b2] eff] & E2 & E).
    simplify_eq. eapply reach_step; [by apply IH|exact E2].
Qed.

Definition get_backup (d : ConsensusBackup) (o : outcome ConsensusBackup) : ConsensusBackup :=
  match o with Ret b => b | Fault _ => d end.

Definition returned {A} (o : outcome A) : bool := match o with Ret _ => true | Fault _ => false end.

Lemma run_backup_get d b inputs :
  returned (run_backup b inputs) = true -> backup_reach b (get_backup d (run_backup b inputs)).
Proof. intros E. apply (run_backup_reach b inputs). by destruct (run_backup b inputs). Qed.

Definition sample_backup : ConsensusBackup :=
  ConsensusBackup_new 7 9 [1; 2] 1 0 (mkPrivKey 5) sample_committee 8 1
    (fun _ _ _ _ _ _ _ _ => (true, [], sample_message)).

Definition solo_signature (msg : bytes) : Signature :=
  let c := Challenge_new (CommitPoint_from_secret (mkObj 123 true)) (PubKey_from_priv (mkPrivKey 77)) msg in
  mkSignature (val c) (val (Response_new (mkObj 123 true) c (mkPrivKey 77))).

Definition solo_collectivesig (type : Z) (msg : bytes) : bytes :=
  written (SetConsensusCollectiveSig [Some 50] [8; 1; type] 3 7 9 [1; 2] 0 (solo_signature msg)
             [true; false; false] (mkPrivKey 77, PubKey_from_priv (mkPrivKey 77))).

Definition second_message : bytes :=
  match append_round1 sample_message (solo_signature sample_message) [true; false; false] with
  | Ret m => m
  | Fault _ => []
  end.

Definition sample_draws : Draws := mkDraws [Some 6] [Some 321].

Definition solo_inputs : list (Draws * bytes) :=
  [(sample_draws, [8; 1; ANNOUNCE; 0]);
   (sample_draws, solo_collectivesig COLLECTIVESIG sample_message);
   (sample_draws, solo_collectivesig FINALCOLLECTIVESIG second_message)].

Definition done_backup : ConsensusBackup :=
  get_backup sample_backup (run_backup sample_backup solo_inputs).

Lemma solo_run_returns : returned (run_backup sample_backup solo_inputs) = true.
Proof. vm_compute. reflexivity. Qed.

Lemma done_backup_done : m_state (base_ done_backup) = DONE.
Proof. vm_compute. reflexivity. Qed.

Lemma backup_decides_certified_witness :
  exists key, AggregateKeys (base_ done_backup) (m_B2 (base_ done_backup)) = Ret key /\
    MultiSigVerify (m_messageToCosign (base_ done_backup)) (m_CS2 (base_ done_backup)) key = true.
Proof.
  apply (backup_decides_certified 7 9 [1; 2] 1 0 (mkPrivKey 5) sample_committee 8 1
           (fun _ _ _ _ _ _ _ _ => (true, [], sample_message)) done_backup).
  - exact (run_backup_get sample_backup sample_backup solo_inputs solo_run_returns).
  - exact done_backup_done.
Defined.

(** The message handlers on concrete bytes: only what is compared is evaluated. *)
Lemma backup_transitions_witness :
  exists b', backup_edge (m_state (base_ sample_backup)) (m_state (base_ b')) /\
             m_state (base_ b') = COMMIT_DONE.
Proof.
  destruct (ProcessMessage sample_backup sample_draws [8; 1; ANNOUNCE; 0] 2)
    as [[[res b'] eff]|f] eqn:E.
  - exists b'. split.
    + exact (backup_transitions 7 9 [1; 2] 1 0 (mkPrivKey 5) sample_committee 8 1
               (fun _ _ _ _ _ _ _ _ => (true, [], sample_message)) sample_backup
               sample_draws [8; 1; ANNOUNCE; 0] 2 res b' eff (reach_refl sample_backup) E).
    + apply (f_equal (fun o => match o with Ret (_, b, _) => m_state (base_ b) | _ => ERROR end)) in E.
      rewrite <- E. vm_compute. reflexivity.
  - apply (f_equal returned) in E. vm_compute in E. discriminate E.
Defined.

Definition committed_backup : ConsensusBackup :=
  get_backup sample_backup (run_backup sample_backup [(sample_draws, [8; 1; ANNOUNCE; 0])]).

Lemma committed_returns :
  returned (run_backup sample_backup [(sample_draws, [8; 1; ANNOUNCE; 0])]) = true.
Proof. vm_compute. reflexivity. Qed.

(** Two subsets that differ in the aggregated commit, hence in the challenge. *)
Definition subset_of (k : Z) : ChallengeSubsetInfo :=
  let cp := CommitPoint_from_secret (mkObj k true) in
  let key := PubKey_from_priv (mkPrivKey 77) in
  mkChallengeSubsetInfo cp key (Challenge_new cp key sample_message).

Definition reuse_subsets : list ChallengeSubsetInfo := [subset_of 123; subset_of 124].

Definition reuse_challenge : bytes :=
  written (SetConsensusChallenge [Some 50] [8; 1; CHALLENGE] 3 7 9 [1; 2] 0 reuse_subsets
             (mkPrivKey 77, PubKey_from_priv (mkPrivKey 77))).

Lemma backup_answers_own_message_witness :
  let b := committed_backup in
  let get := GetConsensusChallenge reuse_challenge 3 (m_consensusID (base_ b))
    (m_blockNumber (base_ b)) (m_blockHash (base_ b)) (m_leaderID b)
    (GetCommitteeMember (base_ b) (m_leaderID b)).1 in
  match ProcessMessageChallengeCore b sample_draws reuse_challenge 3
          PROCESS_CHALLENGE RESPONSE RESPONSE_DONE with
  | Ret (res, _, eff) => eff <> [] -> exists infos, get = Ret (Some infos) /\
      Forall (fun si => Challenge_eq (Challenge_new (aggregatedCommit si) (aggregatedKey si)
                           (m_messageToCosign (base_ b))) (challenge si) = true) infos
  | Fault f => f = StillDrawing \/ get = Fault f
  end.
Proof.
  exact (backup_answers_own_message 7 9 [1; 2] 1 0 (mkPrivKey 5) sample_committee 8 1
           (fun _ _ _ _ _ _ _ _ => (true, [], sample_message)) committed_backup sample_draws
           reuse_challenge 3 PROCESS_CHALLENGE RESPONSE RESPONSE_DONE
           (run_backup_get sample_backup sample_backup _ committed_returns) (or_introl eq_refl)).
Defined.

(** A backup with secret 6 and key 5 that answers the two subsets. *)
Definition reuse_common : ConsensusCommon :=
  with_messageToCosign (with_commit (base_ sample_backup) (Some (mkObj 6 true)) None) sample_message.

Definition answer_to (si : ChallengeSubsetInfo) : ResponseSubsetInfo :=
  mkResponseSubsetInfo (Response_new (mkObj 6 true) (challenge si) (mkPrivKey 5)).

Lemma backup_key_extraction_witness :
  exists e,
    (e * (val (challenge (subset_of 123)) - val (challenge (subset_of 124)))) mod m_order = 1 /\
    5 = (e * (val (response (answer_to (subset_of 124))) - val (response (answer_to (subset_of 123)))))
          mod m_order.
Proof.
  apply (backup_key_extraction reuse_common reuse_subsets
           [answer_to (subset_of 123); answer_to (subset_of 124)] (mkObj 6 true) 0 1
           (subset_of 123) (subset_of 124) (answer_to (subset_of 123)) (answer_to (subset_of 124))).
  - reflexivity.
  - reflexivity.
  - split; [discriminate|reflexivity].
  - vm_compute. reflexivity.
  - reflexivity.
  - reflexivity.
  - reflexivity.
  - reflexivity.
  - vm_compute. discriminate.
Defined.

Definition final_backup : ConsensusBackup :=
  get_backup sample_backup (run_backup sample_backup (take 2 solo_inputs)).

Lemma final_backup_ready :
  CheckState (base_ final_backup) PROCESS_FINALCOLLECTIVESIG = true.
Proof. vm_compute. reflexivity. Qed.

Lemma final_backup_get :
  let c := base_ final_backup in
  GetConsensusCollectiveSig (solo_collectivesig FINALCOLLECTIVESIG second_message) 3
    (m_consensusID c) (m_blockNumber c) (m_blockHash c) (m_leaderID final_backup)
    [] (m_collectiveSig c) (GetCommitteeMember c (m_leaderID final_backup)).1
  = (true, [true; false; false], solo_signature second_message).
Proof. vm_compute. reflexivity. Qed.

Lemma final_backup_verifies :
  match AggregateKeys (base_ final_backup) [true; false; false] with
  | Ret k => MultiSigVerify (m_messageToCosign (base_ final_backup))
               (solo_signature second_message) k
  | Fault _ => false
  end = true.
Proof. vm_compute. reflexivity. Qed.

Lemma backup_ignores_threshold_witness :
  Z.of_nat (count_true [true; false; false]) < NumForConsensus 3 /\
  exists b', ProcessMessageFinalCollectiveSig final_backup sample_draws
               (solo_collectivesig FINALCOLLECTIVESIG second_message) 3 = Ret (true, b', []) /\
             m_state (base_ b') = DONE /\ m_B2 (base_ b') = [true; false; false].
Proof.
  split; [reflexivity|]. pose proof final_backup_verifies as Hv.
  destruct (AggregateKeys (base_ final_backup) [true; false; false]) as [key|f] eqn:Ek;
    [|discriminate Hv].
  destruct (proj1 (backup_ignores_threshold final_backup sample_draws
      (solo_collectivesig FINALCOLLECTIVESIG second_message) 3 [true; false; false]
      (solo_signature second_message) final_backup_ready final_backup_get) key Ek Hv)
    as (b' & E & Hs & Hb & _).
  exists b'. split; [exact E|]. split; [exact Hs|exact Hb].
Defined.
