(* ===== verification/ConsensusLeader.v ===== *)
(** * The consensus leader ([libConsensus/ConsensusLeader.cpp])

    Commits are collected, subsets of the committers are formed and challenged,
    responses are collected per subset and the first subset with enough of them
    yields the collective signature; twice.  Handlers have the shape of those of
    the backup.  [random_shuffle] is an argument: the permutation applied after
    each subset, and the one applied to the list of recipients. *)

From stdpp Require Import base numbers gmap strings countable list.
From S2P Require Import Prelude BitVector Peer OpenSSL Schnorr MultiSig ConsensusMessages.
From S2P Require Import ConsensusCommon ConsensusBackup.
Open Scope Z_scope.

Module Leader.

Inductive Action :=
  | SEND_ANNOUNCEMENT | PROCESS_COMMIT | PROCESS_RESPONSE | PROCESS_FINALCOMMIT
  | PROCESS_FINALRESPONSE | PROCESS_COMMITFAILURE.

#[global] Instance Action_eq_dec : EqDecision Action.
Proof. solve_decision. Defined.

Definition ACTIONS_FOR_STATE : list (State * Action) :=
  [(INITIAL, SEND_ANNOUNCEMENT);
   (INITIAL, PROCESS_COMMITFAILURE);
   (ANNOUNCE_DONE, PROCESS_COMMIT);
   (ANNOUNCE_DONE, PROCESS_COMMITFAILURE);
   (CHALLENGE_DONE, PROCESS_RESPONSE);
   (CHALLENGE_DONE, PROCESS_COMMITFAILURE);
   (COLLECTIVESIG_DONE, PROCESS_FINALCOMMIT);
   (COLLECTIVESIG_DONE, PROCESS_COMMITFAILURE);
   (FINALCHALLENGE_DONE, PROCESS_FINALRESPONSE);
   (FINALCHALLENGE_DONE, PROCESS_COMMITFAILURE);
   (DONE, PROCESS_COMMITFAILURE)].

Definition SUBSET_ACTIONS_FOR_STATE : list (State * Action) :=
  [(CHALLENGE_DONE, PROCESS_RESPONSE);
   (FINALCHALLENGE_DONE, PROCESS_FINALRESPONSE)].

(** Constants read from the configuration file. *)
Record Config := mkConfig {
  DS_NUM_CONSENSUS_SUBSETS : Z;
  SHARD_NUM_CONSENSUS_SUBSETS : Z;
  COMMIT_TOLERANCE_PERCENT : Z;
  GUARD_MODE : bool;
  NumOfDSGuard : Z;
  BROADCAST_GOSSIP_MODE : bool
}.

(** Random input of one handler. *)
Record Random := mkRandom {
  nonces : list (option Z);
  shuffle : nat -> list Z -> list Z;
  shuffle_peers : list Peer -> list Peer
}.

Section leader.
Context `{OpenSSL}.
Context `{!Proto CommitBody unit, !Proto ResponseBody unit, !Proto ChallengeBody unit,
          !Proto CollectiveSigBody unit, !Proto bytes unit, !Proto unit unit}.
Context (cfg : Config).

Record ConsensusSubset := mkSubset {
  commitMap : list bool;
  commitPointMap : list CommitPoint;
  commitPoints : list CommitPoint;
  responseCounter : Z;
  subset_challenge : Challenge;
  responseDataMap : list Response;
  responseMap : list bool;
  responseData : list Response;
  collectiveSig : Signature;
  subset_state : State
}.

Definition sub_commit (c : ConsensusSubset) x0 x1 x2 : ConsensusSubset :=
  mkSubset x0 x1 x2 (responseCounter c) (subset_challenge c) (responseDataMap c)
    (responseMap c) (responseData c) (collectiveSig c) (subset_state c).
Definition sub_challenge (c : ConsensusSubset) x0 : ConsensusSubset :=
  mkSubset (commitMap c) (commitPointMap c) (commitPoints c) (responseCounter c) x0
    (responseDataMap c) (responseMap c) (responseData c) (collectiveSig c) (subset_state c).
Definition sub_response (c : ConsensusSubset) x0 x1 x2 x3 : ConsensusSubset :=
  mkSubset (commitMap c) (commitPointMap c) (commitPoints c) x3 (subset_challenge c) x1 x2
    x0 (collectiveSig c) (subset_state c).
Definition sub_collectiveSig (c : ConsensusSubset) x0 : ConsensusSubset :=
  mkSubset (commitMap c) (commitPointMap c) (commitPoints c) (responseCounter c)
    (subset_challenge c) (responseDataMap c) (responseMap c) (responseData c) x0
    (subset_state c).
Definition sub_state (c : ConsensusSubset) x0 : ConsensusSubset :=
  mkSubset (commitMap c) (commitPointMap c) (commitPoints c) (responseCounter c)
    (subset_challenge c) (responseDataMap c) (responseMap c) (responseData c) (collectiveSig
    c) x0.

Record ConsensusLeader := mkLeader {
  lbase : ConsensusCommon;
  m_numForConsensus : Z;
  m_numForConsensusFailure : Z;
  m_DS : bool;
  m_numOfSubsets : Z;
  m_commitCounter : Z;
  m_sufficientCommitsReceived : bool;
  m_sufficientCommitsNumForSubsets : Z;
  m_commitMap : list bool;
  m_commitPointMap : list CommitPoint;
  m_commitPoints : list CommitPoint;
  m_commitRedundantCounter : Z;
  m_commitRedundantMap : list bool;
  m_commitRedundantPointMap : list CommitPoint;
  m_commitFailureCounter : Z;
  m_commitFailureMap : gmap Z bytes;
  m_consensusSubsets : list ConsensusSubset;
  m_numSubsetsRunning : Z;
  m_hasShardHandler : bool     (** [m_shardCommitFailureHandlerFunc != nullptr] *)
}.

Definition lead_base (c : ConsensusLeader) x0 : ConsensusLeader :=
  mkLeader x0 (m_numForConsensus c) (m_numForConsensusFailure c) (m_DS c) (m_numOfSubsets c)
    (m_commitCounter c) (m_sufficientCommitsReceived c) (m_sufficientCommitsNumForSubsets c)
    (m_commitMap c) (m_commitPointMap c) (m_commitPoints c) (m_commitRedundantCounter c)
    (m_commitRedundantMap c) (m_commitRedundantPointMap c) (m_commitFailureCounter c)
    (m_commitFailureMap c) (m_consensusSubsets c) (m_numSubsetsRunning c) (m_hasShardHandler
    c).
Definition lead_sufficient (c : ConsensusLeader) x0 : ConsensusLeader :=
  mkLeader (lbase c) (m_numForConsensus c) (m_numForConsensusFailure c) (m_DS c)
    (m_numOfSubsets c) (m_commitCounter c) x0 (m_sufficientCommitsNumForSubsets c)
    (m_commitMap c) (m_commitPointMap c) (m_commitPoints c) (m_commitRedundantCounter c)
    (m_commitRedundantMap c) (m_commitRedundantPointMap c) (m_commitFailureCounter c)
    (m_commitFailureMap c) (m_consensusSubsets c) (m_numSubsetsRunning c) (m_hasShardHandler
    c).
Definition lead_commits (c : ConsensusLeader) x0 x1 x2 x3 : ConsensusLeader :=
  mkLeader (lbase c) (m_numForConsensus c) (m_numForConsensusFailure c) (m_DS c)
    (m_numOfSubsets c) x3 (m_sufficientCommitsReceived c) (m_sufficientCommitsNumForSubsets
    c) x0 x1 x2 (m_commitRedundantCounter c) (m_commitRedundantMap c)
    (m_commitRedundantPointMap c) (m_commitFailureCounter c) (m_commitFailureMap c)
    (m_consensusSubsets c) (m_numSubsetsRunning c) (m_hasShardHandler c).
Definition lead_redundant (c : ConsensusLeader) x0 x1 x2 : ConsensusLeader :=
  mkLeader (lbase c) (m_numForConsensus c) (m_numForConsensusFailure c) (m_DS c)
    (m_numOfSubsets c) (m_commitCounter c) (m_sufficientCommitsReceived c)
    (m_sufficientCommitsNumForSubsets c) (m_commitMap c) (m_commitPointMap c)
    (m_commitPoints c) x0 x1 x2 (m_commitFailureCounter c) (m_commitFailureMap c)
    (m_consensusSubsets c) (m_numSubsetsRunning c) (m_hasShardHandler c).
Definition lead_failures (c : ConsensusLeader) x0 x1 : ConsensusLeader :=
  mkLeader (lbase c) (m_numForConsensus c) (m_numForConsensusFailure c) (m_DS c)
    (m_numOfSubsets c) (m_commitCounter c) (m_sufficientCommitsReceived c)
    (m_sufficientCommitsNumForSubsets c) (m_commitMap c) (m_commitPointMap c)
    (m_commitPoints c) (m_commitRedundantCounter c) (m_commitRedundantMap c)
    (m_commitRedundantPointMap c) x0 x1 (m_consensusSubsets c) (m_numSubsetsRunning c)
    (m_hasShardHandler c).
Definition lead_subsets (c : ConsensusLeader) x0 : ConsensusLeader :=
  mkLeader (lbase c) (m_numForConsensus c) (m_numForConsensusFailure c) (m_DS c)
    (m_numOfSubsets c) (m_commitCounter c) (m_sufficientCommitsReceived c)
    (m_sufficientCommitsNumForSubsets c) (m_commitMap c) (m_commitPointMap c)
    (m_commitPoints c) (m_commitRedundantCounter c) (m_commitRedundantMap c)
    (m_commitRedundantPointMap c) (m_commitFailureCounter c) (m_commitFailureMap c) x0
    (m_numSubsetsRunning c) (m_hasShardHandler c).
Definition lead_running (c : ConsensusLeader) x0 : ConsensusLeader :=
  mkLeader (lbase c) (m_numForConsensus c) (m_numForConsensusFailure c) (m_DS c)
    (m_numOfSubsets c) (m_commitCounter c) (m_sufficientCommitsReceived c)
    (m_sufficientCommitsNumForSubsets c) (m_commitMap c) (m_commitPointMap c)
    (m_commitPoints c) (m_commitRedundantCounter c) (m_commitRedundantMap c)
    (m_commitRedundantPointMap c) (m_commitFailureCounter c) (m_commitFailureMap c)
    (m_consensusSubsets c) x0 (m_hasShardHandler c).

Definition set_mstate (l : ConsensusLeader) (s : State) : ConsensusLeader :=
  lead_base l (with_state (lbase l) s).

(** ** State checks *)

Definition CheckState (l : ConsensusLeader) (action : Action) : bool :=
  existsb (fun p => bool_decide (p.1 = m_state (lbase l)) && bool_decide (p.2 = action))
    ACTIONS_FOR_STATE.

Definition CheckStateSubset (l : ConsensusLeader) (subsetID : Z) (action : Action) : outcome bool :=
  subset ← at_ (m_consensusSubsets l) subsetID;
  Ret (existsb (fun p => bool_decide (p.1 = subset_state subset) && bool_decide (p.2 = action))
         SUBSET_ACTIONS_FOR_STATE).

(** A subset's state only grows, except that it can be reset. *)
Definition next_subset_state (s newState : State) : State :=
  if bool_decide (newState = INITIAL) || (State_value newState >? State_value s)
  then newState else s.

Definition SetStateSubset (l : ConsensusLeader) (subsetID : Z) (newState : State)
  : outcome ConsensusLeader :=
  subset ← at_ (m_consensusSubsets l) subsetID;
  subsets ← at_set (m_consensusSubsets l) subsetID
              (sub_state subset (next_subset_state (subset_state subset) newState));
  Ret (lead_subsets l subsets).

(** ** Subsets *)

(** The peers that committed, without the leader. *)
Fixpoint committed_from (index : Z) (commitMap : list bool) (myID : Z) : list Z :=
  match commitMap with
  | [] => []
  | b :: rest =>
      (if b && negb (index =? myID) then [index] else [])
        ++ committed_from (index + 1) rest myID
  end.

(** [commitPointMap.at(index) = ...; commitPoints.emplace_back(...);
    commitMap.at(index) = true] *)
Definition add_commit (l : ConsensusLeader) (subset : ConsensusSubset) (index : Z)
  : outcome ConsensusSubset :=
  point ← at_ (m_commitPointMap l) index;
  old ← at_ (commitPointMap subset) index;
  pointMap ← at_set (commitPointMap subset) index (CommitPoint_assign old point);
  map ← at_set (commitMap subset) index true;
  Ret (sub_commit subset map pointMap (commitPoints subset ++ [CommitPoint_copy point])).

(** The loop over the committers in guard mode: subset, number of its members,
    indexes that are not guards. *)
Fixpoint guard_loop (l : ConsensusLeader) (peers : list Z) (subset : ConsensusSubset)
    (subsetPeers : Z) (nondsguardIndexes : list Z) : outcome (ConsensusSubset * Z * list Z) :=
  match peers with
  | [] => Ret (subset, subsetPeers, nondsguardIndexes)
  | index :: peers' =>
      if index <? NumOfDSGuard cfg then
        subset ← add_commit l subset index;
        let subsetPeers := u32 (subsetPeers + 1) in
        if subsetPeers =? m_numForConsensus l then Ret (subset, subsetPeers, nondsguardIndexes)
        else guard_loop l peers' subset subsetPeers nondsguardIndexes
      else guard_loop l peers' subset subsetPeers (nondsguardIndexes ++ [index])
  end.

(** Filling up from the others. *)
Fixpoint fill_loop (l : ConsensusLeader) (peers : list Z) (subset : ConsensusSubset)
    (subsetPeers : Z) : outcome ConsensusSubset :=
  match peers with
  | [] => Ret subset
  | index :: peers' =>
      subset ← add_commit l subset index;
      let subsetPeers := u32 (subsetPeers + 1) in
      if subsetPeers >=? m_numForConsensus l then Ret subset
      else fill_loop l peers' subset subsetPeers
  end.

(** [for (j = 0; j < m_numForConsensus - 1; j++)] over [peersWhoCommitted.at(j)] *)
Fixpoint take_loop (l : ConsensusLeader) (peers : list Z) (n : nat) (subset : ConsensusSubset)
  {struct n} : outcome ConsensusSubset :=
  match n with
  | O => Ret subset
  | S n' =>
      match peers with
      | [] => Fault OutOfRange
      | index :: peers' => subset ← add_commit l subset index; take_loop l peers' n' subset
      end
  end.

Definition empty_subset (l : ConsensusLeader) : ConsensusSubset :=
  let n := length (m_committee (lbase l)) in
  mkSubset (replicate n false) (replicate n CommitPoint_default) [] 0 Challenge_default
    (replicate n Response_default) (replicate n false) [] Signature_default (m_state (lbase l)).

Definition build_subset (l : ConsensusLeader) (i : nat) (peers : list Z) : outcome ConsensusSubset :=
  subset ← add_commit l (empty_subset l) (m_myID (lbase l));
  if m_DS l && GUARD_MODE cfg && (Nat.eqb i 0) then
    '(subset, subsetPeers, nondsguardIndexes) ← guard_loop l peers subset 1 [];
    if subsetPeers <? m_numForConsensus l
    then fill_loop l nondsguardIndexes subset subsetPeers
    else Ret subset
  else take_loop l peers (Z.to_nat (u32 (m_numForConsensus l - 1))) subset.

(** [n] subsets are left to build, the next is number [i]. *)
Fixpoint build_subsets (l : ConsensusLeader) (r : Random) (n i : nat) (peers : list Z)
  : outcome (list ConsensusSubset) :=
  match n with
  | O => Ret []
  | S n' =>
      subset ← build_subset l i peers;
      rest ← build_subsets l r n' (S i) (shuffle r i peers);
      Ret (subset :: rest)
  end.

Definition GenerateConsensusSubsets (l : ConsensusLeader) (r : Random) : outcome ConsensusLeader :=
  let peersWhoCommitted := committed_from 0 (m_commitMap l) (m_myID (lbase l)) in
  let numSubsets :=
    if zlen peersWhoCommitted <=? m_numForConsensus l then 1 else m_numOfSubsets l in
  subsets ← build_subsets l r (Z.to_nat numSubsets) 0 peersWhoCommitted;
  Ret (lead_subsets (lead_commits l [] [] [] (m_commitCounter l)) subsets).

(** ** Challenge *)

(** The loop over the subsets: whether it went through, the subsets with their
    challenges, the information to send. *)
Fixpoint challenge_loop (c : ConsensusCommon) (subsets : list ConsensusSubset)
  : outcome (bool * list ConsensusSubset * list ChallengeSubsetInfo) :=
  match subsets with
  | [] => Ret (true, [], [])
  | subset :: rest =>
      let aggCommit := CommitPoint_assign CommitPoint_default (AggregateCommits (commitPoints subset)) in
      if negb (Initialized aggCommit) then Ret (false, subsets, [])
      else
        aggKey ← AggregateKeys c (commitMap subset);
        let aggKey := PubKey_copy aggKey in
        let ch := Challenge_assign (subset_challenge subset)
                    (GetChallenge (m_messageToCosign c) aggCommit aggKey) in
        let subset := sub_challenge subset ch in
        let si := mkChallengeSubsetInfo aggCommit aggKey (Challenge_assign Challenge_default ch) in
        if negb (Initialized (subset_challenge subset)) || negb (Initialized (challenge si))
        then Ret (false, subset :: rest, [])
        else
          '(ok, subsets, infos) ← challenge_loop c rest;
          Ret (ok, subset :: subsets, si :: infos)
  end.

Definition GenerateChallengeMessage (l : ConsensusLeader) (r : Random) (msg : bytes) (offset : Z)
  : outcome (bool * bytes * ConsensusLeader) :=
  let c := lbase l in
  '(ok, subsets, subsetInfo) ← challenge_loop c (m_consensusSubsets l);
  let l := lead_subsets l subsets in
  if negb (ok : bool) then Ret (false, msg, l)
  else
    '(result, msg) ← SetConsensusChallenge (nonces r) msg offset (m_consensusID c)
                       (m_blockNumber c) (m_blockHash c) (m_myID c) subsetInfo (my_key c);
    Ret (result, msg, l).

(** Entering the challenged state: the leader's own response opens the count. *)
Definition open_subset (c : ConsensusCommon) (subset : ConsensusSubset) : outcome ConsensusSubset :=
  let subset := sub_state subset (next_subset_state (subset_state subset) (m_state c)) in
  match m_commitSecret c with
  | None => Fault NullPointer
  | Some secret =>
      let r := Response_new secret (subset_challenge subset) (m_myPrivKey c) in
      old ← at_ (responseDataMap subset) (m_myID c);
      dataMap ← at_set (responseDataMap subset) (m_myID c) (Response_assign old r);
      map ← at_set (responseMap subset) (m_myID c) true;
      Ret (sub_response subset (responseData subset ++ [Response_copy r]) dataMap map 1)
  end.

Fixpoint open_subsets (c : ConsensusCommon) (subsets : list ConsensusSubset)
  : outcome (list ConsensusSubset) :=
  match subsets with
  | [] => Ret []
  | s :: rest => s ← open_subset c s; rest ← open_subsets c rest; Ret (s :: rest)
  end.

(** The members of the committee that are in at least one subset. *)
Definition challenged_peers (l : ConsensusLeader) : list Peer :=
  snd <$> (fst <$> filter (fun x => Is_true (existsb (fun s => default false (commitMap s !! x.2))
                                                (m_consensusSubsets l)))
             (zip (m_committee (lbase l)) (seq 0 (length (m_committee (lbase l)))))).

Definition StartConsensusSubsets (l : ConsensusLeader) (r : Random)
  : outcome (bool * ConsensusLeader * list effect) :=
  let start (s : State) (type : Z) :=
    let l := lead_running (set_mstate l s) (zlen (m_consensusSubsets l)) in
    '(ok, challenge, l) ← GenerateChallengeMessage l r (message_header (lbase l) type) (BODY + 1);
    if negb (ok : bool) then Ret (false, set_mstate l ERROR, [])
    else
      subsets ← open_subsets (lbase l) (m_consensusSubsets l);
      let l := lead_subsets l subsets in
      Ret (true, l, [SendMessage (shuffle_peers r (challenged_peers l)) challenge]) in
  if bool_decide (m_state (lbase l) = ANNOUNCE_DONE) then start CHALLENGE_DONE CHALLENGE
  else if bool_decide (m_state (lbase l) = COLLECTIVESIG_DONE)
  then start FINALCHALLENGE_DONE FINALCHALLENGE
  else Ret (false, l, []).

(** ** Commits *)

Definition ProcessMessageCommitCore (l : ConsensusLeader) (r : Random) (commit : bytes)
    (offset : Z) (action : Action) (from : Peer)
  : outcome (bool * ConsensusLeader * list effect) :=
  let c := lbase l in
  if negb (CheckState l action) then Ret (false, l, [])
  else
    match GetConsensusCommit commit offset (m_consensusID c) (m_blockNumber c) (m_blockHash c)
            (m_committee c) with
    | None => Ret (false, l, [])
    | Some (backupID, commitPoint, commitPointHash) =>
        node ← at_ (m_committee c) backupID;
        if negb (m_ipAddress node.2 =? m_ipAddress from) then Ret (false, l, [])
        else
          committed ← at_ (m_commitMap l) backupID;
          if committed : bool then Ret (false, l, [])
          else
            match commitPoint, commitPointHash with
            | Some commitPoint, Some commitPointHash =>
                if negb (Initialized commitPoint) then Ret (false, l, [])
                else if negb (Initialized commitPointHash) then Ret (false, l, [])
                else if negb (CommitPointHash_eq (CommitPointHash_new commitPoint) commitPointHash)
                then Ret (false, l, [])
                else if negb (CheckState l action) then Ret (false, l, [])
                else
                  old ← at_ (m_commitPointMap l) backupID;
                  pointMap ← at_set (m_commitPointMap l) backupID (CommitPoint_assign old commitPoint);
                  map ← at_set (m_commitMap l) backupID true;
                  let counter := u32 (m_commitCounter l + 1) in
                  let l := lead_commits l map pointMap
                             (m_commitPoints l ++ [CommitPoint_copy commitPoint]) counter in
                  l ← (if counter >? m_numForConsensus l then
                         oldr ← at_ (m_commitRedundantPointMap l) backupID;
                         rpoints ← at_set (m_commitRedundantPointMap l) backupID
                                     (CommitPoint_assign oldr commitPoint);
                         rmap ← at_set (m_commitRedundantMap l) backupID true;
                         Ret (lead_redundant l (u32 (m_commitRedundantCounter l + 1)) rmap rpoints)
                       else Ret l);
                  if m_numOfSubsets l >? 1 then
                    Ret (true,
                         if counter =? m_sufficientCommitsNumForSubsets l
                         then lead_sufficient l true else l, [])
                  else if counter =? m_numForConsensus l then
                    l ← GenerateConsensusSubsets l r;
                    '(_, l, eff) ← StartConsensusSubsets l r;
                    Ret (true, l, eff)
                  else Ret (true, l, [])
            | _, _ => Ret (false, l, [])
            end
    end.

Definition ProcessMessageCommit (l : ConsensusLeader) (r : Random) (commit : bytes) (offset : Z)
    (from : Peer) : outcome (bool * ConsensusLeader * list effect) :=
  ProcessMessageCommitCore l r commit offset PROCESS_COMMIT from.

Definition ProcessMessageFinalCommit (l : ConsensusLeader) (r : Random) (finalcommit : bytes)
    (offset : Z) (from : Peer) : outcome (bool * ConsensusLeader * list effect) :=
  ProcessMessageCommitCore l r finalcommit offset PROCESS_FINALCOMMIT from.

(** The detached thread of [StartConsensus] and of the first collective
    signature: it lowers the flag, waits, and then starts the subsets. *)
Definition commit_window_opens (l : ConsensusLeader) : ConsensusLeader := lead_sufficient l false.

Definition commit_window_closes (l : ConsensusLeader) (r : Random)
  : outcome (ConsensusLeader * list effect) :=
  if m_commitCounter l <? m_numForConsensus l then Ret (set_mstate l ERROR, [])
  else
    l ← GenerateConsensusSubsets l r;
    '(_, l, eff) ← StartConsensusSubsets l r;
    Ret (l, eff).

(** ** Commit failures *)

Definition ProcessMessageCommitFailure (l : ConsensusLeader) (r : Random) (commitFailureMsg : bytes)
    (offset : Z) (from : Peer) : outcome (bool * ConsensusLeader * list effect) :=
  let c := lbase l in
  if negb (CheckState l PROCESS_COMMITFAILURE) then Ret (false, l, [])
  else
    match GetConsensusCommitFailure commitFailureMsg offset (m_consensusID c) (m_blockNumber c)
            (m_blockHash c) (m_committee c) with
    | None => Ret (false, l, [])
    | Some (backupID, errorMsg) =>
        match m_commitFailureMap l !! backupID with
        | Some _ => Ret (false, l, [])
        | None =>
            let l := lead_failures l (u32 (m_commitFailureCounter l + 1))
                       (<[backupID := errorMsg]> (m_commitFailureMap l)) in
            let called := CallNodeHandler errorMsg from in
            if m_commitFailureCounter l =? m_numForConsensusFailure l then
              let l := set_mstate l INITIAL in
              '(ok, msg) ← SetConsensusConsensusFailure (nonces r)
                             (message_header (lbase l) CONSENSUSFAILURE) (BODY + 1)
                             (m_consensusID c) (m_blockNumber c) (m_blockHash c) (m_myID c) (my_key c);
              if negb (ok : bool) then Ret (false, l, [called])
              else
                Ret (true, l,
                     [called; SendMessage (snd <$> m_committee c) msg]
                     ++ (if m_hasShardHandler l
                         then [CallShardHandler (map_to_list (m_commitFailureMap l))] else []))
            else Ret (true, l, [called])
        end
    end.

(** ** Responses *)

Definition GenerateCollectiveSigMessage (l : ConsensusLeader) (r : Random) (msg : bytes)
    (offset subsetID : Z) : outcome (bool * bytes * ConsensusLeader) :=
  let c := lbase l in
  subset ← at_ (m_consensusSubsets l) subsetID;
  let aggregated_response := AggregateResponses (responseData subset) in
  if negb (Initialized aggregated_response) then
    l ← SetStateSubset l subsetID ERROR; Ret (false, msg, l)
  else
    aggregated_key ← AggregateKeys c (responseMap subset);
    let sg := AggregateSign (subset_challenge subset) aggregated_response in
    subsets ← at_set (m_consensusSubsets l) subsetID (sub_collectiveSig subset sg);
    let l := lead_subsets l subsets in
    if negb (MultiSigVerify (m_messageToCosign c) sg aggregated_key) then
      l ← SetStateSubset l subsetID ERROR; Ret (false, msg, l)
    else
      '(ok, msg) ← SetConsensusCollectiveSig (nonces r) msg offset (m_consensusID c)
                     (m_blockNumber c) (m_blockHash c) (m_myID c) sg (responseMap subset) (my_key c);
      if negb (ok : bool) then Ret (false, msg, l)
      else Ret (true, msg, lead_base l (with_collectiveSig c sg)).

(** Reset all other subsets. *)
Fixpoint reset_others (subsetID : Z) (i : Z) (subsets : list ConsensusSubset) : list ConsensusSubset :=
  match subsets with
  | [] => []
  | s :: rest =>
      (if i =? subsetID then s else sub_state s INITIAL) :: reset_others subsetID (i + 1) rest
  end.

Definition SubsetEnded (l : ConsensusLeader) (subsetID : Z) : outcome ConsensusLeader :=
  subset ← at_ (m_consensusSubsets l) subsetID;
  let s := subset_state subset in
  if bool_decide (s = COLLECTIVESIG_DONE) || bool_decide (s = DONE) then
    Ret (set_mstate (lead_subsets l (reset_others subsetID 0 (m_consensusSubsets l))) s)
  else
    let running := u32 (m_numSubsetsRunning l - 1) in
    let l := lead_running l running in
    Ret (if running =? 0 then set_mstate l ERROR else l).

(** The checks of one subset entry made before the lock is taken. *)
Definition response_check (l : ConsensusLeader) (action : Action) (backupID subsetID : Z)
    (si : ResponseSubsetInfo) : outcome bool :=
  allowed ← CheckStateSubset l subsetID action;
  if negb (allowed : bool) then Ret false
  else
    subset ← at_ (m_consensusSubsets l) subsetID;
    if backupID >=? zlen (responseDataMap subset) then Ret false
    else
      committed ← at_ (commitMap subset) backupID;
      if negb (committed : bool) then Ret false
      else
        responded ← at_ (responseMap subset) backupID;
        if (responded : bool) then Ret false
        else
          point ← at_ (commitPointMap subset) backupID;
          Ret (VerifyResponse (response si) (subset_challenge subset)
                 (GetCommitteeMember (lbase l) backupID).1 point).

(** How one pass through the loop body ends. *)
Inductive flow := Continue | Return (result : bool) | Break.

(** Recording the response ([responseCounter++] included). *)
Definition record_response (subset : ConsensusSubset) (backupID : Z) (si : ResponseSubsetInfo)
  : outcome ConsensusSubset :=
  old ← at_ (responseDataMap subset) backupID;
  dataMap ← at_set (responseDataMap subset) backupID (Response_assign old (response si));
  map ← at_set (responseMap subset) backupID true;
  Ret (sub_response subset (responseData subset ++ [Response_copy (response si)]) dataMap map
         (u32 (responseCounter subset + 1))).

(** What follows a collective signature: the second round is prepared or the
    result of it is kept. *)
Definition round_finished (l : ConsensusLeader) (action : Action) (subset : ConsensusSubset)
  : outcome ConsensusLeader :=
  let c := lbase l in
  let n := length (m_committee c) in
  if bool_decide (action = PROCESS_RESPONSE) then
    messageToCosign ← append_round1 (m_messageToCosign c) (collectiveSig subset) (responseMap subset);
    let c := with_round1 (with_messageToCosign c messageToCosign) (collectiveSig subset)
               (responseMap subset) in
    map ← at_set (replicate n false) (m_myID c) true;
    match m_commitPoint c with
    | None => Fault NullPointer
    | Some commitPoint =>
        let points := resize n CommitPoint_default (m_commitPointMap l) in
        old ← at_ points (m_myID c);
        pointMap ← at_set points (m_myID c) (CommitPoint_assign old commitPoint);
        let l := lead_commits (lead_base l c) map pointMap [CommitPoint_copy commitPoint] 1 in
        let l := lead_failures l 0 ∅ in
        Ret (lead_redundant l 0 (replicate (length (m_commitRedundantMap l)) false)
               (m_commitRedundantPointMap l))
    end
  else Ret (lead_base l (with_round2 c (collectiveSig subset) (responseMap subset))).

(** Sufficient responses: the collective signature and the end of the round. *)
Definition complete_round (l : ConsensusLeader) (r : Random) (action : Action)
    (returnmsgtype : Z) (nextstate : State) (subsetID : Z)
  : outcome (flow * ConsensusLeader * list effect) :=
  '(ok, collectivesig, l) ←
    GenerateCollectiveSigMessage l r (message_header (lbase l) returnmsgtype) (BODY + 1) subsetID;
  if negb (ok : bool) then Ret (Return false, l, [])
  else
    l ← SetStateSubset l subsetID nextstate;
    let l := set_mstate l nextstate in
    subset ← at_ (m_consensusSubsets l) subsetID;
    l ← round_finished l action subset;
    l ← SubsetEnded l subsetID;
    let sent := if BROADCAST_GOSSIP_MODE cfg then SpreadRumor collectivesig
                else SendMessage (snd <$> m_committee (lbase l)) collectivesig in
    let timer := if bool_decide (m_state (lbase l) = COLLECTIVESIG_DONE)
                    && (m_numOfSubsets l >? 1) then [StartCommitTimer] else [] in
    Ret (Break, l, sent :: timer).

(** The part of the loop body that holds the lock. *)
Definition response_update (l : ConsensusLeader) (r : Random) (action : Action)
    (returnmsgtype : Z) (nextstate : State) (backupID subsetID : Z) (si : ResponseSubsetInfo)
  : outcome (flow * ConsensusLeader * list effect) :=
  if negb (CheckState l action) then Ret (Return false, l, [])
  else
    allowed ← CheckStateSubset l subsetID action;
    if negb (allowed : bool) then Ret (Return false, l, [])
    else
      subset ← at_ (m_consensusSubsets l) subsetID;
      subset ← record_response subset backupID si;
      subsets ← at_set (m_consensusSubsets l) subsetID subset;
      let l := lead_subsets l subsets in
      if negb (responseCounter subset =? m_numForConsensus l) then Ret (Continue, l, [])
      else complete_round l r action returnmsgtype nextstate subsetID.

(** The loop over the entries of a response message. *)
Fixpoint response_loop (l : ConsensusLeader) (r : Random) (action : Action) (returnmsgtype : Z)
    (nextstate : State) (backupID subsetID : Z) (subsetInfo : list ResponseSubsetInfo)
  : outcome (bool * ConsensusLeader * list effect) :=
  match subsetInfo with
  | [] => Ret (true, l, [])
  | si :: rest =>
      go ← response_check l action backupID subsetID si;
      if negb (go : bool) then
        response_loop l r action returnmsgtype nextstate backupID (subsetID + 1) rest
      else
        '(f, l, eff) ← response_update l r action returnmsgtype nextstate backupID subsetID si;
        match f with
        | Return result => Ret (result, l, eff)
        | Break => Ret (true, l, eff)
        | Continue =>
            '(result, l, eff') ←
              response_loop l r action returnmsgtype nextstate backupID (subsetID + 1) rest;
            Ret (result, l, eff ++ eff')
        end
  end.

Definition ProcessMessageResponseCore (l : ConsensusLeader) (r : Random) (response : bytes)
    (offset : Z) (action : Action) (returnmsgtype : Z) (nextstate : State) (from : Peer)
  : outcome (bool * ConsensusLeader * list effect) :=
  let c := lbase l in
  if negb (CheckState l action) then Ret (false, l, [])
  else
    got ← GetConsensusResponse response offset (m_consensusID c) (m_blockNumber c) (m_blockHash c)
            (m_committee c);
    match got with
    | None => Ret (false, l, [])
    | Some (backupID, subsetInfo) =>
        node ← at_ (m_committee c) backupID;
        if negb (m_ipAddress node.2 =? m_ipAddress from) then Ret (false, l, [])
        else if zlen subsetInfo >? zlen (m_consensusSubsets l) then Ret (false, l, [])
        else response_loop l r action returnmsgtype nextstate backupID 0 subsetInfo
    end.

Definition ProcessMessageResponse (l : ConsensusLeader) (r : Random) (response : bytes)
    (offset : Z) (from : Peer) : outcome (bool * ConsensusLeader * list effect) :=
  ProcessMessageResponseCore l r response offset PROCESS_RESPONSE COLLECTIVESIG COLLECTIVESIG_DONE from.

Definition ProcessMessageFinalResponse (l : ConsensusLeader) (r : Random) (finalresponse : bytes)
    (offset : Z) (from : Peer) : outcome (bool * ConsensusLeader * list effect) :=
  ProcessMessageResponseCore l r finalresponse offset PROCESS_FINALRESPONSE FINALCOLLECTIVESIG DONE from.

(** ** Construction, start and dispatch *)

Definition ConsensusLeader_new (draws : list (option Z)) (consensus_id block_number : Z)
    (block_hash : bytes) (node_id : Z) (privkey : PrivKey) (committee : DequeOfNode)
    (class_byte ins_byte : Z) (hasShardHandler isDS : bool) : outcome ConsensusLeader :=
  let n := length committee in
  let num := NumForConsensus (u32 (zlen committee)) in
  match CommitSecret_new 0 draws with
  | None => Fault StillDrawing
  | Some secret =>
      let point := CommitPoint_from_secret secret in
      let c := with_commit (ConsensusCommon_new consensus_id block_number block_hash node_id privkey
                              committee class_byte ins_byte INITIAL) (Some secret) (Some point) in
      map ← at_set (replicate n false) node_id true;
      pointMap ← at_set (replicate n CommitPoint_default) node_id
                   (CommitPoint_assign CommitPoint_default point);
      Ret (mkLeader c num (u32 (zlen committee - num)) isDS
             (if isDS then DS_NUM_CONSENSUS_SUBSETS cfg else SHARD_NUM_CONSENSUS_SUBSETS cfg)
             1 false (SufficientCommits (zlen committee) (COMMIT_TOLERANCE_PERCENT cfg))
             map pointMap [CommitPoint_copy point]
             0 (replicate n false) (replicate n CommitPoint_default) 0 ∅ [] 0 hasShardHandler)
  end.

(** [AnnouncementGeneratorFunc]: result, the message, [messageToCosign]. *)
Definition AnnouncementGeneratorFunc : Type :=
  bytes -> Z -> Z -> Z -> bytes -> Z -> PrivKey * PubKey -> bytes -> bool * bytes * bytes.

Definition StartConsensus (l : ConsensusLeader) (announcementGeneratorFunc : AnnouncementGeneratorFunc)
    (useGossipProto : bool) : bool * ConsensusLeader * list effect :=
  let c := lbase l in
  if negb (CheckState l SEND_ANNOUNCEMENT) then (false, l, [])
  else
    let '(ok, announcement_message, messageToCosign) :=
      announcementGeneratorFunc (message_header c ANNOUNCE) (BODY + 1) (m_consensusID c)
        (m_blockNumber c) (m_blockHash c) (m_myID c) (my_key c) (m_messageToCosign c) in
    let l := lead_base l (with_messageToCosign c messageToCosign) in
    if negb ok then (false, l, [])
    else
      let l := set_mstate l ANNOUNCE_DONE in
      let l := lead_redundant l 0 (m_commitRedundantMap l) (m_commitRedundantPointMap l) in
      let l := lead_failures l 0 (m_commitFailureMap l) in
      (true, l,
       (if useGossipProto then SpreadRumor announcement_message
        else SendMessage (snd <$> m_committee c) announcement_message)
       :: (if m_numOfSubsets l >? 1 then [StartCommitTimer] else [])).

Definition ProcessMessage (l : ConsensusLeader) (r : Random) (message : bytes) (offset : Z)
    (from : Peer) : outcome (bool * ConsensusLeader * list effect) :=
  type ← at_ message offset;
  let offset1 := u32 (offset + 1) in
  if type =? COMMIT then ProcessMessageCommit l r message offset1 from
  else if type =? COMMITFAILURE then ProcessMessageCommitFailure l r message offset1 from
  else if type =? RESPONSE then ProcessMessageResponse l r message offset1 from
  else if type =? FINALCOMMIT then ProcessMessageFinalCommit l r message offset1 from
  else if type =? FINALRESPONSE then ProcessMessageFinalResponse l r message offset1 from
  else Ret (false, l, []).

End leader.


(** * Forming subsets *)

Section forming.
Context `{Hnf : OpenSSLNoFail}.
Context `{!Proto CommitBody unit, !Proto ResponseBody unit, !Proto ChallengeBody unit,
          !Proto CollectiveSigBody unit, !Proto bytes unit, !Proto unit unit}.
Context (cfg : Config).

Abbreviation csize l := (length (m_committee (lbase l))).

(** A subset under construction: maps of the committee's size, the list of
    points is a permutation of the points selected by the map. *)
Definition build_inv (n : nat) (s : ConsensusSubset) : Prop :=
  length (commitMap s) = n /\ length (commitPointMap s) = n /\
  Permutation (commitPoints s) (select (commitMap s) (commitPointMap s)).

(** Adding a member that is not in yet. *)
Lemma add_commit_spec l n s index s' :
  build_inv n s -> 0 <= index -> commitMap s !! Z.to_nat index = Some false ->
  add_commit l s index = Ret s' ->
  build_inv n s' /\ exists p, m_commitPointMap l !! Z.to_nat index = Some p /\
    s' = sub_commit s (<[Z.to_nat index := true]> (commitMap s))
           (<[Z.to_nat index := mkObj (val p) true]> (commitPointMap s))
           (commitPoints s ++ [mkObj (val p) true]).
Proof.
  intros (Hm & Hp & Hperm) Hi Hf E. unfold add_commit in E.
  apply bind_Ret in E as (p & Ep & E). apply bind_Ret in E as (old & Eo & E).
  apply bind_Ret in E as (pm & Epm & E). apply bind_Ret in E as (mp & Emp & E).
  apply at_Ret in Ep as [_ Ep], Eo as [_ Eo]. apply at_set_Ret in Epm as [_ ->], Emp as [_ ->].
  assert (CommitPoint_assign old p = mkObj (val p) true) as Ea.
  { unfold CommitPoint_assign. destruct (copy_point_some (val p)) as [v Ev]. rewrite Ev.
    by apply copy_point_spec in Ev as ->. }
  rewrite Ea, CommitPoint_copy_some in E. simplify_eq. split; [|eauto].
  unfold build_inv. cbn. rewrite !length_insert. split; [done|]. split; [done|].
  rewrite (select_insert _ _ _ (mkObj (val p) true)); [|done|].
  - rewrite select_insert_out by done. rewrite Hperm. symmetry. apply Permutation_cons_append.
  - apply list_lookup_insert_eq. by apply lookup_lt_Some in Eo.
Qed.

(** What a loop that adds new members keeps: everything but the commit fields,
    the leader's own point and the members that were in. *)
Definition extends (me : nat) (s s' : ConsensusSubset) (k : nat) : Prop :=
  count_true (commitMap s') = (count_true (commitMap s) + k)%nat /\
  (forall i, commitMap s !! i = Some true -> commitMap s' !! i = Some true) /\
  commitPointMap s' !! me = commitPointMap s !! me /\
  exists map pts pmap, s' = sub_commit s map pmap pts.

Lemma extends_refl me s : extends me s s 0.
Proof.
  split; [lia|]. split; [done|]. split; [done|].
  exists (commitMap s), (commitPoints s), (commitPointMap s). by destruct s.
Qed.

Lemma extends_trans me s1 s2 s3 a b : extends me s1 s2 a -> extends me s2 s3 b -> extends me s1 s3 (a + b).
Proof.
  intros (H1 & H2 & H3 & m1 & p1 & q1 & ->) (H4 & H5 & H6 & m2 & p2 & q2 & ->).
  split; [lia|]. split; [eauto|]. split; [congruence|]. by exists m2, p2, q2.
Qed.

(** The candidates of a loop: distinct, not members, not the leader. *)
Definition candidates (me : nat) (s : ConsensusSubset) (peers : list Z) : Prop :=
  NoDup peers /\
  Forall (fun i => 0 <= i /\ Z.to_nat i <> me /\ commitMap s !! Z.to_nat i = Some false) peers.

Lemma add_candidate l n me s index peers s' :
  build_inv n s -> candidates me s (index :: peers) -> add_commit l s index = Ret s' ->
  build_inv n s' /\ candidates me s' peers /\ extends me s s' 1.
Proof.
  intros Hb [Hnd Hall] E. pose proof (NoDup_cons_1_1 _ _ Hnd) as Hni. apply NoDup_cons_1_2 in Hnd.
  apply Forall_cons_1 in Hall as [(Hi & Hme & Hf) Hall].
  destruct (add_commit_spec _ _ _ _ _ Hb Hi Hf E) as [Hb' (p & _ & ->)].
  split; [done|]. split; [|split_and!].
  - split; [done|]. rewrite Forall_forall in Hall |- *. intros j Hj.
    destruct (Hall j Hj) as (Hj0 & Hjme & Hjf). split; [done|]. split; [done|]. cbn.
    rewrite list_lookup_insert_ne; [done|]. intros Hij. apply Hni.
    by replace index with j by lia.
  - cbn. rewrite count_true_insert_false by done. lia.
  - intros i Ht. cbn. destruct (decide (Z.to_nat index = i)) as [<-|]; [congruence|].
    by rewrite list_lookup_insert_ne.
  - cbn. by rewrite list_lookup_insert_ne.
  - eauto.
Qed.

Lemma take_loop_spec l n me k peers s s' :
  build_inv n s -> candidates me s peers -> take_loop l peers k s = Ret s' ->
  build_inv n s' /\ extends me s s' k.
Proof.
  revert peers s. induction k as [|k IH]; intros peers s Hb Hc E; cbn [take_loop] in E.
  - simplify_eq. split; [done|apply extends_refl].
  - destruct peers as [|index peers]; [done|]. apply bind_Ret in E as (s1 & E1 & E).
    destruct (add_candidate _ _ _ _ _ _ _ Hb Hc E1) as (Hb1 & Hc1 & He1).
    destruct (IH _ _ Hb1 Hc1 E) as [Hb2 He2]. split; [done|].
    replace (S k) with (1 + k)%nat by lia. by eapply extends_trans.
Qed.

Lemma candidates_tail me s index peers : candidates me s (index :: peers) -> candidates me s peers.
Proof. intros [Hnd Hall]. split; [by inversion Hnd|by inversion Hall]. Qed.

Lemma candidates_snoc me s ps index peers :
  candidates me s (ps ++ index :: peers) -> candidates me s ((ps ++ [index]) ++ peers).
Proof. by rewrite <- app_assoc. Qed.

(** Filling up reaches the threshold when there are enough candidates. *)
Lemma fill_loop_spec l n me peers s s' c :
  build_inv n s -> candidates me s peers -> 0 <= c < m_numForConsensus l ->
  m_numForConsensus l < 2 ^ 32 -> m_numForConsensus l - c <= zlen peers ->
  fill_loop l peers s c = Ret s' ->
  build_inv n s' /\ extends me s s' (Z.to_nat (m_numForConsensus l - c)).
Proof.
  revert s c. induction peers as [|index peers IH]; intros s c Hb Hc Hr H32 Hl E;
    cbn [fill_loop] in E; [unfold zlen in Hl; cbn in Hl; lia|].
  apply bind_Ret in E as (s1 & E1 & E). rewrite wrap_small in E by (unfold in_range; lia).
  destruct (add_candidate _ _ _ _ _ _ _ Hb Hc E1) as (Hb1 & Hc1 & He1).
  destruct (Z.geb_spec (c + 1) (m_numForConsensus l)) as [Hge|Hlt].
  - simplify_eq. split; [done|]. by replace (m_numForConsensus l - c) with 1 by lia.
  - assert (zlen (index :: peers) = zlen peers + 1) by (unfold zlen; cbn; lia).
    destruct (IH s1 (c + 1) Hb1 Hc1 ltac:(lia) H32 ltac:(lia) E) as [Hb2 He2]. split; [done|].
    replace (Z.to_nat (m_numForConsensus l - c))
      with (1 + Z.to_nat (m_numForConsensus l - (c + 1)))%nat by lia.
    by eapply extends_trans.
Qed.

(** The guard loop takes guards up to the threshold and keeps the rest as
    candidates. *)
Lemma guard_loop_spec l n me peers s c non s' c' non' :
  build_inv n s -> candidates me s (non ++ peers) -> 0 <= c < m_numForConsensus l ->
  m_numForConsensus l < 2 ^ 32 ->
  guard_loop cfg l peers s c non = Ret (s', c', non') ->
  build_inv n s' /\ c <= c' <= m_numForConsensus l /\ extends me s s' (Z.to_nat (c' - c)) /\
  (c' < m_numForConsensus l ->
   candidates me s' non' /\ zlen non' = zlen non + zlen peers - (c' - c)).
Proof.
  revert s c non. induction peers as [|index peers IH]; intros s c non Hb Hc Hr H32 E;
    cbn [guard_loop] in E.
  - simplify_eq. rewrite app_nil_r in Hc. split; [done|]. split; [lia|].
    rewrite Z.sub_diag. split; [apply extends_refl|]. intros _. split; [done|]. unfold zlen. cbn. lia.
  - assert (zlen (index :: peers) = zlen peers + 1) as Hz by (unfold zlen; cbn; lia).
    case_test_in E.
    + apply bind_Ret in E as (s1 & E1 & E). rewrite wrap_small in E by (unfold in_range; lia).
      assert (candidates me s (index :: non ++ peers)) as Hc'.
      { destruct Hc as [Hnd Hall]. rewrite <- Permutation_middle in Hnd, Hall. done. }
      destruct (add_candidate _ _ _ _ _ _ _ Hb Hc' E1) as (Hb1 & Hc1 & He1).
      destruct (Z.eqb_spec (c + 1) (m_numForConsensus l)) as [Heq|Hne].
      * simplify_eq. split; [done|]. split; [lia|]. replace (Z.to_nat (c + 1 - c)) with 1%nat by lia.
        split; [done|lia].
      * destruct (IH s1 (c + 1) non Hb1 Hc1 ltac:(lia) H32 E) as (Hb2 & Hr2 & He2 & Hrest).
        split; [done|]. split; [lia|]. split.
        -- replace (Z.to_nat (c' - c)) with (1 + Z.to_nat (c' - (c + 1)))%nat by lia.
           by eapply extends_trans.
        -- intros Hlt. destruct (Hrest Hlt) as [Hc2 Hl2]. split; [done|lia].
    + apply IH in E as (Hb2 & Hr2 & He2 & Hrest); [|done|by apply candidates_snoc|done..].
      split; [done|]. split; [done|]. split; [done|]. intros Hlt.
      destruct (Hrest Hlt) as [Hc2 Hl2]. split; [done|]. rewrite zlen_app in Hl2.
      unfold zlen in *. cbn in *. lia.
Qed.

(** The committers other than the leader. *)
Lemma committed_from_elem k bm me x :
  x ∈ committed_from k bm me <-> k <= x /\ x <> me /\ bm !! Z.to_nat (x - k) = Some true.
Proof.
  revert k. induction bm as [|b bm IH]; intros k; cbn [committed_from].
  - split; [by intros Hx%elem_of_nil|]. intros (_ & _ & Hx). by rewrite lookup_nil in Hx.
  - rewrite elem_of_app, IH. destruct (decide (x = k)) as [->|Hne].
    + rewrite Z.sub_diag. change (Z.to_nat 0) with 0%nat. cbn [lookup list_lookup].
      assert (k + 1 <= k /\ k <> me /\ bm !! Z.to_nat (k - (k + 1)) = Some true <-> False) as ->
        by (split; [lia|done]).
      destruct b; cbn [andb].
      * destruct (Z.eqb_spec k me); cbn [negb]; rewrite ?list_elem_of_singleton, ?elem_of_nil;
          split; intros Hx; [tauto|tauto| |by left].
        split; [lia|done].
      * rewrite elem_of_nil. split; [tauto|]. intros (_ & _ & Hx). done.
    + assert (x ∈ (if b && negb (k =? me) then [k] else []) <-> False) as ->.
      { destruct (b && negb (k =? me)); rewrite ?list_elem_of_singleton, ?elem_of_nil; tauto. }
      split.
      * intros [[]|(Hk & Hx & Hl)]. split; [lia|]. split; [done|].
        replace (Z.to_nat (x - k)) with (S (Z.to_nat (x - (k + 1)))) by lia. done.
      * intros (Hk & Hx & Hl). right. split; [lia|]. split; [done|].
        replace (Z.to_nat (x - k)) with (S (Z.to_nat (x - (k + 1)))) in Hl by lia. done.
Qed.

Lemma committed_from_NoDup k bm me : NoDup (committed_from k bm me).
Proof.
  revert k. induction bm as [|b bm IH]; intros k; cbn [committed_from]; [constructor|].
  destruct (b && negb (k =? me)); cbn [app]; [|done]. constructor; [|done].
  rewrite committed_from_elem. lia.
Qed.

Lemma committed_from_length k bm me :
  zlen (committed_from k bm me) =
  Z.of_nat (count_true bm) -
    (if bool_decide (k <= me /\ bm !! Z.to_nat (me - k) = Some true) then 1 else 0).
Proof.
  revert k. induction bm as [|b bm IH]; intros k; cbn [committed_from count_true].
  - case_bool_decide as Hd; [|done]. by rewrite lookup_nil in Hd; destruct Hd.
  - rewrite zlen_app, IH. destruct (Z.eqb_spec k me) as [->|Hne].
    + cbn [negb]. rewrite andb_false_r, Z.sub_diag. cbn [lookup list_lookup].
      rewrite bool_decide_eq_false_2 by lia. change (Z.to_nat 0) with 0%nat. cbn [lookup list_lookup].
      destruct b; [rewrite bool_decide_eq_true_2 by done|rewrite bool_decide_eq_false_2 by naive_solver];
        unfold zlen; cbn; lia.
    + rewrite (bool_decide_ext (k <= me /\ (b :: bm) !! Z.to_nat (me - k) = Some true)
                 (k + 1 <= me /\ bm !! Z.to_nat (me - (k + 1)) = Some true)).
      * destruct b; cbn [andb negb]; unfold zlen; cbn; lia.
      * destruct (decide (k <= me)) as [Hk|Hk]; [|lia].
        replace (Z.to_nat (me - k)) with (S (Z.to_nat (me - (k + 1)))) by lia. cbn [lookup list_lookup].
        split; intros [Hk' Hb']; (split; [lia|done]).
Qed.

(** A subset as [GenerateConsensusSubsets] leaves it. *)
Record fresh_subset (l : ConsensusLeader) (s : ConsensusSubset) : Prop := {
  fresh_build : build_inv (csize l) s;
  fresh_count : Z.of_nat (count_true (commitMap s)) = m_numForConsensus l;
  fresh_me : commitMap s !! Z.to_nat (m_myID (lbase l)) = Some true;
  fresh_point : exists p, m_commitPointMap l !! Z.to_nat (m_myID (lbase l)) = Some p /\
                  commitPointMap s !! Z.to_nat (m_myID (lbase l)) = Some (mkObj (val p) true);
  fresh_map : responseMap s = replicate (csize l) false;
  fresh_dataMap : responseDataMap s = replicate (csize l) Response_default;
  fresh_data : responseData s = [];
  fresh_state : subset_state s = m_state (lbase l)
}.

(** The commit phase is in order: maps of the committee's size, the leader in. *)
Definition commits_full (l : ConsensusLeader) : Prop :=
  length (m_commitMap l) = csize l /\ length (m_commitPointMap l) = csize l /\
  m_commitMap l !! Z.to_nat (m_myID (lbase l)) = Some true /\
  m_commitCounter l = Z.of_nat (count_true (m_commitMap l)).

Lemma build_subset_spec l i peers s :
  0 <= m_myID (lbase l) < zlen (m_committee (lbase l)) ->
  1 <= m_numForConsensus l < 2 ^ 32 -> m_numForConsensus l - 1 <= zlen peers ->
  (m_numForConsensus l = 1 -> peers = []) ->
  NoDup peers ->
  Forall (fun i => 0 <= i < zlen (m_committee (lbase l)) /\ i <> m_myID (lbase l)) peers ->
  build_subset cfg l i peers = Ret s -> fresh_subset l s.
Proof.
  intros Hme Hnum Hlen H1 Hnd Hall E. unfold build_subset in E.
  apply bind_Ret in E as (s0 & E0 & E). set (me := Z.to_nat (m_myID (lbase l))) in *.
  assert (build_inv (csize l) (empty_subset l)) as Hb0.
  { unfold build_inv, empty_subset. cbn. rewrite !length_replicate. split; [done|]. split; [done|].
    by rewrite select_none by apply count_true_replicate_false. }
  assert (me < csize l)%nat as Hmen by (unfold me, zlen in *; lia).
  apply (add_commit_spec l (csize l)) in E0 as [Hb1 (p & Hp & ->)];
    [|done|lia|cbn; by apply lookup_replicate_2]. fold me in Hb1, Hp, E.
  set (s1 := sub_commit _ _ _ _) in *.
  assert (count_true (commitMap s1) = 1%nat) as Hc1.
  { cbn. rewrite count_true_insert_false by (by apply lookup_replicate_2).
    by rewrite count_true_replicate_false. }
  assert (candidates me s1 peers) as Hcand.
  { split; [done|]. eapply Forall_impl; [exact Hall|]. intros j [Hj Hjme]. cbn.
    assert (Z.to_nat j <> me) by (unfold me; lia). split; [lia|]. split; [done|].
    rewrite list_lookup_insert_ne by done. apply lookup_replicate_2. unfold zlen in Hj. lia. }
  assert (build_inv (csize l) s /\ extends me s1 s (Z.to_nat (m_numForConsensus l - 1)))
    as [Hb (Hcnt & Hkeep & Hpt & map & pts & pmap & Es)].
  { case_test_in E.
    - apply bind_Ret in E as ([[s2 c2] non] & E2 & E).
      destruct (Z.eq_dec (m_numForConsensus l) 1) as [Hone|Hmany].
      { rewrite (H1 Hone) in E2. cbn [guard_loop] in E2. simplify_eq. rewrite Hone in E |- *.
        cbn in E. simplify_eq. split; [done|apply extends_refl]. }
      apply (guard_loop_spec l (csize l) me) in E2 as (Hb2 & Hr2 & He2 & Hrest); try done; [|lia|lia].
      case_test_in E; zbool.
      + destruct (Hrest ltac:(lia)) as [Hc2 Hl2]. change (zlen []) with 0 in Hl2.
        apply (fill_loop_spec l (csize l) me) in E as [Hb3 He3]; try done; try lia.
        split; [done|]. replace (Z.to_nat (m_numForConsensus l - 1))
          with (Z.to_nat (c2 - 1) + Z.to_nat (m_numForConsensus l - c2))%nat by lia.
        by eapply extends_trans.
      + simplify_eq. split; [done|]. by replace (m_numForConsensus l - 1) with (c2 - 1) by lia.
    - rewrite wrap_small in E by (unfold in_range; lia). by eapply take_loop_spec. }
  assert (commitMap s1 !! me = Some true) as Hme1.
  { cbn. apply list_lookup_insert_eq. by rewrite length_replicate. }
  split; try (by rewrite Es); [done|rewrite Hcnt, Hc1; lia|by apply Hkeep|].
  exists p. split; [done|]. fold me. rewrite Hpt. cbn. apply list_lookup_insert_eq.
  by rewrite length_replicate.
Qed.

(** Shuffling keeps the candidates. *)
Definition Random_ok (r : Random) : Prop := forall i ps, Permutation (shuffle r i ps) ps.

Lemma build_subsets_spec l r n i peers subsets :
  Random_ok r ->
  0 <= m_myID (lbase l) < zlen (m_committee (lbase l)) ->
  1 <= m_numForConsensus l < 2 ^ 32 -> m_numForConsensus l - 1 <= zlen peers ->
  (m_numForConsensus l = 1 -> peers = []) ->
  NoDup peers ->
  Forall (fun i => 0 <= i < zlen (m_committee (lbase l)) /\ i <> m_myID (lbase l)) peers ->
  build_subsets cfg l r n i peers = Ret subsets -> Forall (fresh_subset l) subsets.
Proof.
  intros Hr Hme Hnum. revert i peers subsets. induction n as [|n IH];
    intros i peers subsets Hlen H1 Hnd Hall E; cbn [build_subsets] in E; [simplify_eq; constructor|].
  apply bind_Ret in E as (s & Es & E). apply bind_Ret in E as (rest & Er & E). simplify_eq.
  constructor; [by eapply build_subset_spec|]. apply (IH (S i) (shuffle r i peers)); try done.
  - unfold zlen in *. by rewrite (Permutation_length (Hr i peers)).
  - intros Hone. rewrite (H1 Hone) in *. apply Permutation_nil_r, Hr.
  - by rewrite (Hr i peers).
  - by rewrite (Hr i peers).
Qed.

(** [GenerateConsensusSubsets]: every subset it makes is fresh, has exactly the
    required number of members and contains the leader. *)
Lemma GenerateConsensusSubsets_spec l r l' :
  Random_ok r -> commits_full l ->
  0 <= m_myID (lbase l) < zlen (m_committee (lbase l)) ->
  1 <= m_numForConsensus l < 2 ^ 32 ->
  (m_numForConsensus l = 1 -> zlen (m_committee (lbase l)) = 1) ->
  m_numForConsensus l <= m_commitCounter l ->
  GenerateConsensusSubsets cfg l r = Ret l' ->
  exists subsets, Forall (fresh_subset l) subsets /\
    l' = lead_subsets (lead_commits l [] [] [] (m_commitCounter l)) subsets.
Proof.
  intros Hr (Hm & Hp & Hme & Hc) Hid Hnum H1 Hge E. unfold GenerateConsensusSubsets in E.
  apply bind_Ret in E as (subsets & Es & E). simplify_eq. exists subsets. split; [|done].
  set (peers := committed_from 0 (m_commitMap l) (m_myID (lbase l))) in *.
  assert (zlen peers = m_commitCounter l - 1) as Hl.
  { unfold peers. rewrite committed_from_length, Hc, bool_decide_eq_true_2; [done|].
    rewrite Z.sub_0_r. split; [lia|done]. }
  assert (Forall (fun i => 0 <= i < zlen (m_committee (lbase l)) /\ i <> m_myID (lbase l)) peers) as Hall.
  { apply Forall_forall. intros x Hx. apply committed_from_elem in Hx as (H0x & Hx & Hl').
    rewrite Z.sub_0_r in Hl'. apply lookup_lt_Some in Hl'. unfold zlen. lia. }
  eapply build_subsets_spec; try exact Es; try done; [lia| |apply committed_from_NoDup].
  intros Hone. specialize (H1 Hone). destruct peers as [|x peers'] eqn:Ep; [done|].
  apply Forall_cons_1 in Hall as [[Hx Hxme] _]. lia.
Qed.

End forming.

(** * Challenged subsets *)

Section live.
Context `{Hnf : OpenSSLNoFail}.
Context `{!Proto CommitBody unit, !Proto ResponseBody unit, !Proto ChallengeBody unit,
          !Proto CollectiveSigBody unit, !Proto bytes unit, !Proto unit unit}.
Context (cfg : Config).

Abbreviation csize l := (length (m_committee (lbase l))).

(** The challenge of a subset: the aggregate of its commits and of the keys of
    its members, with the message to co-sign. *)
Definition subset_challenge_value (c : ConsensusCommon) (s : ConsensusSubset) : Challenge :=
  Challenge_new (mkObj (psum (val <$> commitPoints s)) true)
    (mkPubKey (psum (m_P <$> (fst <$> select (commitMap s) (m_committee c)))))
    (m_messageToCosign c).

#[local] Arguments subset_challenge_value : simpl never.

(** A subset that has been challenged and collects responses. *)
Record live_subset (c : ConsensusCommon) (num : Z) (s : ConsensusSubset) : Prop := {
  live_build : build_inv (length (m_committee c)) s;
  live_lengths : length (responseMap s) = length (m_committee c) /\
                 length (responseDataMap s) = length (m_committee c);
  live_subset_of : Forall2 (fun x y => x = true -> y = true) (responseMap s) (commitMap s);
  live_count : Z.of_nat (count_true (commitMap s)) = num;
  live_challenge : subset_challenge s = mkObj (val (subset_challenge_value c s)) true;
  live_counter : responseCounter s = Z.of_nat (count_true (responseMap s));
  live_data : Permutation (responseData s) (select (responseMap s) (responseDataMap s));
  live_head : exists r0 rest, responseData s = r0 :: rest /\ 0 <= val r0 < m_order;
  live_equation : forall i, responseMap s !! i = Some true -> exists node p r,
    m_committee c !! i = Some node /\ commitPointMap s !! i = Some p /\
    responseDataMap s !! i = Some r /\
    response_equation_holds (subset_challenge s) (node.1, p, r)
}.

(** The leader knows its secrets: the keys and the commit it was constructed with. *)
Record leader_static (k d : Z) (com : DequeOfNode) (l : ConsensusLeader) : Prop := {
  static_size : 1 <= zlen (m_committee (lbase l)) <= 1000;
  static_me : 0 <= m_myID (lbase l) < zlen (m_committee (lbase l));
  static_num : m_numForConsensus l = NumForConsensus (zlen (m_committee (lbase l)));
  static_secret : m_commitSecret (lbase l) = Some (mkObj k true);
  static_point : m_commitPoint (lbase l) = Some (mkObj (smul k base) true);
  static_key : m_myPrivKey (lbase l) = mkPrivKey d;
  static_range : 0 < d < m_order;
  static_pub : exists peer, m_committee (lbase l) !! Z.to_nat (m_myID (lbase l))
                              = Some (mkPubKey (smul d base), peer);
  static_committee : m_committee (lbase l) = com
}.

Lemma static_num_bounds k d com l :
  leader_static k d com l -> 1 <= m_numForConsensus l <= zlen (m_committee (lbase l)) /\
  m_numForConsensus l < 2 ^ 32 /\ (m_numForConsensus l = 1 -> zlen (m_committee (lbase l)) = 1).
Proof.
  intros []. rewrite static_num0, NumForConsensus_ceil by lia. zlia.
Qed.

(** The honest response of the leader satisfies its equation. *)
Lemma Response_new_equation k d ch :
  Initialized ch = true ->
  Response_new (mkObj k true) ch (mkPrivKey d)
    = mkObj ((k - (val ch * d) mod m_order) mod m_order) true /\
  response_equation_holds ch
    (mkPubKey (smul d base), mkObj (smul k base) true,
     mkObj ((k - (val ch * d) mod m_order) mod m_order) true).
Proof.
  intros Hc. split; [|unfold response_equation_holds; cbn; apply response_equation].
  unfold Response_new, Response_Set. cbn [Initialized Response_default val m_d].
  rewrite Hc, alloc_true. cbn [negb].
  destruct (mod_mul_some (val ch) d) as [x Ex]. rewrite Ex. apply mod_mul_spec in Ex. subst x.
  destruct (mod_sub_some k ((val ch * d) mod m_order)) as [y Ey]. rewrite Ey.
  by apply mod_sub_spec in Ey as ->.
Qed.

Lemma Response_assign_some old r : Response_assign old r = mkObj (val r) true.
Proof.
  unfold Response_assign, BN_obj_assign. destruct (bn_copy_some (val r)) as [v Ev]. rewrite Ev.
  by apply bn_copy_spec in Ev as ->.
Qed.

Lemma CommitPoint_assign_some old p : CommitPoint_assign old p = mkObj (val p) true.
Proof.
  unfold CommitPoint_assign. destruct (copy_point_some (val p)) as [v Ev]. rewrite Ev.
  by apply copy_point_spec in Ev as ->.
Qed.

(** The challenge loop computes every subset's challenge. *)
Lemma challenge_loop_spec c subsets subsets' infos :
  Forall (fun s => build_inv (length (m_committee c)) s /\ count_true (commitMap s) <> 0%nat) subsets ->
  challenge_loop c subsets = Ret (true, subsets', infos) ->
  Forall2 (fun s s' => s' = sub_challenge s (mkObj (val (subset_challenge_value c s)) true))
    subsets subsets'.
Proof.
  revert subsets' infos. induction subsets as [|s subsets IH]; intros subsets' infos Hall E;
    cbn [challenge_loop] in E; [simplify_eq; constructor|].
  apply Forall_cons_1 in Hall as [[(Hm & Hp & Hperm) Hne] Hall].
  assert (commitPoints s <> []) as Hnil.
  { intros En. rewrite En in Hperm. apply Permutation_nil in Hperm.
    apply Hne. by rewrite <- (length_select _ (commitPointMap s)), Hperm by congruence. }
  rewrite AggregateCommits_sum, CommitPoint_assign_some in E by done. cbn [Initialized negb val] in E.
  rewrite AggregateKeys_sum in E by done. cbn [mbind outcome_bind] in E.
  rewrite PubKey_copy_some in E. unfold GetChallenge in E. fold (subset_challenge_value c s) in E.
  unfold Challenge_assign, BN_obj_assign in E.
  destruct (bn_copy_some (val (subset_challenge_value c s))) as [v Ev]. rewrite Ev in E.
  apply bn_copy_spec in Ev. subst v. cbn [val Initialized] in E.
  destruct (bn_copy_some (val (subset_challenge_value c s))) as [v Ev]. rewrite Ev in E.
  apply bn_copy_spec in Ev. subst v. cbn [subset_challenge sub_challenge challenge Initialized negb orb] in E.
  apply bind_Ret in E as ([[ok rest] infos'] & Er & E). simplify_eq.
  constructor; [done|]. by eapply IH.
Qed.

(** The leader opens a fresh, challenged subset with its own response. *)
Lemma open_subset_live k d com l l0 s s' :
  leader_static k d com l -> fresh_subset l0 s -> lbase l = with_state (lbase l0) (m_state (lbase l)) ->
  m_numForConsensus l = m_numForConsensus l0 ->
  m_commitPointMap l0 !! Z.to_nat (m_myID (lbase l0)) = Some (mkObj (smul k base) true) ->
  open_subset (lbase l) (sub_challenge s (mkObj (val (subset_challenge_value (lbase l) s)) true))
    = Ret s' ->
  live_subset (lbase l) (m_numForConsensus l) s' /\
  subset_state s' = next_subset_state (m_state (lbase l0)) (m_state (lbase l)).
Proof.
  intros Hst Hf Hb Hn Hpt E. destruct Hf as [Hbuild Hcnt Hme (p & Hp & Hsp) Hmap Hdm Hd Hs].
  rewrite Hpt in Hp. simplify_eq. cbn [val] in Hsp.
  assert (m_committee (lbase l) = m_committee (lbase l0)) as Hcom by (rewrite Hb; done).
  assert (m_myID (lbase l) = m_myID (lbase l0)) as Hid by (rewrite Hb; done).
  destruct Hst as [Hsz Hmer _ Hsec _ Hkey Hdr [peer Hpub]].
  unfold open_subset in E. rewrite Hsec, Hkey in E. cbn [subset_challenge sub_challenge sub_state] in E.
  destruct (Response_new_equation k d (mkObj (val (subset_challenge_value (lbase l) s)) true) eq_refl)
    as [Hr Heq]. rewrite Hr in E. clear Hr. cbn [val] in E, Heq.
  set (v := (k - _ mod m_order) mod m_order) in *. set (r := mkObj v true) in *.
  apply bind_Ret in E as (old & Eo & E).
  apply bind_Ret in E as (dm & Edm & E). apply bind_Ret in E as (mp & Emp & E).
  cbn [responseMap responseDataMap sub_state sub_challenge] in *.
  apply at_Ret in Eo as [_ Eo]. apply at_set_Ret in Edm as [_ ->], Emp as [_ ->].
  unfold Response_copy in E. rewrite Response_assign_some, BN_obj_copy_some in E.
  change (mkObj (val r) true) with r in E. simplify_eq. split; [|cbn; by rewrite Hs].
  set (me := Z.to_nat (m_myID (lbase l))) in *. rewrite <- Hcom, <- Hid in *. fold me in Hme, Hsp.
  assert (me < length (m_committee (lbase l)))%nat as Hlt by (unfold me, zlen in *; lia).
  rewrite Hmap, Hdm, Hd.
  assert (replicate (length (m_committee (lbase l))) false !! me = Some false) as Hfalse
    by (by apply lookup_replicate_2).
  destruct Hbuild as (Hbm & Hbp & Hbperm).
  split; cbn.
  - done.
  - by rewrite !length_insert, !length_replicate.
  - apply Forall2_lookup. intros i. destruct (decide (i = me)) as [->|Hi].
    + rewrite list_lookup_insert_eq by (by rewrite length_replicate). rewrite Hme. by constructor.
    + rewrite list_lookup_insert_ne by done. destruct (decide (i < length (m_committee (lbase l)))%nat).
      * rewrite lookup_replicate_2 by done.
        destruct (lookup_lt_is_Some_2 (commitMap s) i) as [b Hbi]; [lia|]. rewrite Hbi. by constructor.
      * rewrite !lookup_ge_None_2 by (rewrite ?length_replicate; lia). constructor.
  - by rewrite Hn.
  - done.
  - rewrite count_true_insert_false, count_true_replicate_false by done. done.
  - rewrite (select_insert _ _ _ r); [|done|by apply list_lookup_insert_eq; rewrite length_replicate].
    rewrite select_insert_out by done. by rewrite select_none by apply count_true_replicate_false.
  - exists r, []. split; [done|]. cbn. unfold v. apply Z.mod_pos_bound. pose proof order_gt_1. lia.
  - intros i Hi. destruct (decide (i = me)) as [->|Hne].
    + exists (mkPubKey (smul d base), peer), (mkObj (smul k base) true), r.
      split; [done|]. split; [done|]. split; [|exact Heq].
      apply list_lookup_insert_eq. by rewrite length_replicate.
    + rewrite list_lookup_insert_ne in Hi by done. apply lookup_replicate in Hi. by destruct Hi.
Qed.

(** ** Enough responses *)

Lemma live_full c num s :
  live_subset c num s -> responseCounter s = num -> responseMap s = commitMap s.
Proof.
  intros [] Hn. apply count_true_subset_same; [done|]. lia.
Qed.

Lemma Challenge_new_zero cp pk message :
  val (Challenge_new cp pk message) <> 0 -> Initialized (Challenge_new cp pk message) = true.
Proof.
  unfold Challenge_new, Challenge_Set, Challenge_default. intros Hne.
  repeat case_test; cbn in *; done.
Qed.

(** When every member has answered, the aggregate verifies. *)
Lemma live_collective c num s :
  live_subset c num s -> responseCounter s = num -> 1 <= num ->
  let agg := AggregateResponses (responseData s) in
  Initialized agg = true /\ exists key, AggregateKeys c (responseMap s) = Ret key /\
  (val (subset_challenge s) <> 0 -> val agg <> 0 ->
   MultiSigVerify (m_messageToCosign c) (AggregateSign (subset_challenge s) agg) key = true).
Proof.
  intros Hl Hn Hpos agg. pose proof (live_full _ _ _ Hl Hn) as Hfull.
  destruct Hl as [(Hbm & Hbp & Hbperm) [Hlm Hld] Hsub Hcnt Hch Hctr Hdata (r0 & rest & Hhd & Hr0) Heq].
  assert (agg = mkObj (zsum (val <$> responseData s) mod m_order) true) as Hagg.
  { unfold agg. rewrite Hhd. by apply AggregateResponses_sum. }
  split; [by rewrite Hagg|].
  eexists. split; [apply AggregateKeys_sum; [done|lia]|]. intros Hc0 Ha0.
  rewrite AggregateSign_pair by (rewrite ?Hch, ?Hagg; done). rewrite Hagg in Ha0 |- *. cbn [val] in Ha0 |- *.
  set (signers := select (responseMap s)
                    (zip (zip (fst <$> m_committee c) (commitPointMap s)) (responseDataMap s))).
  assert (fst <$> (fst <$> signers) = fst <$> select (responseMap s) (m_committee c)) as HK.
  { unfold signers. rewrite <- !select_fmap. f_equal.
    rewrite fst_zip by (rewrite length_zip_with, length_fmap; lia).
    by rewrite fst_zip by (rewrite length_fmap; lia). }
  assert (snd <$> (fst <$> signers) = select (responseMap s) (commitPointMap s)) as HQ.
  { unfold signers. rewrite <- !select_fmap. f_equal.
    rewrite fst_zip by (rewrite length_zip_with, length_fmap; lia).
    by rewrite snd_zip by (rewrite length_fmap; lia). }
  assert (snd <$> signers = select (responseMap s) (responseDataMap s)) as HR.
  { unfold signers. rewrite <- select_fmap. f_equal.
    by rewrite snd_zip by (rewrite length_zip_with, length_fmap; lia). }
  assert (zsum (val <$> responseData s) = zsum (val <$> (snd <$> signers))) as Hz.
  { rewrite HR. apply zsum_perm. by rewrite Hdata. }
  rewrite Hz in *. rewrite <- HK.
  assert (subset_challenge s =
    Challenge_new (mkObj (psum (val <$> (snd <$> (fst <$> signers)))) true)
      (mkPubKey (psum (m_P <$> (fst <$> (fst <$> signers))))) (m_messageToCosign c)) as Hc.
  { rewrite HK, HQ, Hch, Hfull in *. unfold subset_challenge_value in *. cbn [val] in Hc0.
    pose proof (Challenge_new_zero _ _ _ Hc0) as Hi.
    rewrite (psum_perm (val <$> commitPoints s) (val <$> select (commitMap s) (commitPointMap s)))
      in * by (by rewrite Hbperm).
    destruct (Challenge_new _ _ _) as [v i]. cbn in *. by subst i. }
  apply collective_verify; try done.
  - apply Forall_forall. intros x Hx. apply select_elem in Hx as (i & Hi & Hx).
    destruct (Heq i Hi) as (node & p & r & Hnode & Hp & Hr & He).
    rewrite !lookup_zip_with, list_lookup_fmap, Hnode, Hp, Hr in Hx. cbn in Hx. by simplify_eq.
  - rewrite Hch. done.
Qed.

(** Recording a verified response keeps the subset in order. *)
Lemma record_response_live c num s id si s' node :
  live_subset c num s -> 0 <= id -> zlen (m_committee c) < 2 ^ 32 ->
  m_committee c !! Z.to_nat id = Some node ->
  commitMap s !! Z.to_nat id = Some true -> responseMap s !! Z.to_nat id = Some false ->
  (exists p, commitPointMap s !! Z.to_nat id = Some p /\
             VerifyResponse (response si) (subset_challenge s) node.1 p = true) ->
  record_response s id si = Ret s' ->
  live_subset c num s' /\ subset_state s' = subset_state s /\
  responseCounter s' = responseCounter s + 1.
Proof.
  intros [Hb [Hlm Hld] Hsub Hcnt Hch Hctr Hdata (r0 & rest & Hhd & Hr0) Heq] Hid H32 Hnode Hcm Hrm
    (p & Hp & Hv) E.
  unfold record_response in E. apply bind_Ret in E as (old & Eo & E).
  apply bind_Ret in E as (dm & Edm & E). apply bind_Ret in E as (mp & Emp & E).
  apply at_Ret in Eo as [_ Eo]. apply at_set_Ret in Edm as [_ ->], Emp as [_ ->].
  unfold Response_copy in E. rewrite Response_assign_some, BN_obj_copy_some in E. simplify_eq.
  set (r := mkObj (val (response si)) true) in *. set (i := Z.to_nat id) in *.
  pose proof (count_true_le_length (<[i:=true]> (responseMap s))) as Hle.
  rewrite count_true_insert_false, length_insert in Hle by done.
  assert (responseCounter s + 1 = Z.of_nat (S (count_true (responseMap s)))) as Hplus by lia.
  cbn. rewrite wrap_small by (unfold in_range, zlen in *; lia).
  split; [|done]. split; cbn; try done.
  - by rewrite !length_insert.
  - apply Forall2_lookup. intros j. rewrite Forall2_lookup in Hsub. specialize (Hsub j).
    destruct (decide (j = i)) as [->|Hj].
    + rewrite list_lookup_insert_eq by (by apply lookup_lt_Some in Hrm). rewrite Hcm. by constructor.
    + by rewrite list_lookup_insert_ne.
  - by rewrite count_true_insert_false.
  - rewrite (select_insert _ _ _ r); [|done|apply list_lookup_insert_eq; by apply lookup_lt_Some in Eo].
    rewrite select_insert_out by done. rewrite Hdata. symmetry. apply Permutation_cons_append.
  - exists r0, (rest ++ [r]). split; [by rewrite Hhd|done].
  - intros j Hj. destruct (decide (j = i)) as [->|Hne].
    + exists node, p, r. split; [done|]. split; [done|]. split.
      * apply list_lookup_insert_eq. by apply lookup_lt_Some in Eo.
      * apply VerifyResponse_inv in Hv as [Hv _]. exact Hv.
    + rewrite list_lookup_insert_ne in Hj by done. rewrite list_lookup_insert_ne by done. by apply Heq.
Qed.

End live.

(** * The leader's invariant *)

Section invariant.
Context `{Hnf : OpenSSLNoFail}.
Context `{!Proto CommitBody unit, !Proto ResponseBody unit, !Proto ChallengeBody unit,
          !Proto CollectiveSigBody unit, !Proto bytes unit, !Proto unit unit}.
Context (cfg : Config).

(** A bit map with exactly the required number of members and a collective
    signature that holds under their keys. *)
Definition certificate (c : ConsensusCommon) (num : Z) (bm : list bool) (sg : Signature)
    (msg : bytes) : Prop :=
  length bm = length (m_committee c) /\ Z.of_nat (count_true bm) = num /\
  exists key, AggregateKeys c bm = Ret key /\ MultiSigVerify msg sg key = true.

(** The commit phase: cleared, or in order with the leader's own point in place. *)
Definition commits_inv (k : Z) (l : ConsensusLeader) : Prop :=
  (m_commitMap l = [] /\ m_commitPointMap l = []) \/
  (commits_full l /\
   m_commitPointMap l !! Z.to_nat (m_myID (lbase l)) = Some (mkObj (smul k base) true)).

(** What the state of the session promises. *)
Definition state_inv (c : ConsensusCommon) (num : Z) (subsets : list ConsensusSubset) : Prop :=
  let round1 := exists m0, certificate c num (m_B1 c) (m_CS1 c) m0 /\
                           append_round1 m0 (m_CS1 c) (m_B1 c) = Ret (m_messageToCosign c) in
  let live := Forall (fun s => subset_state s = m_state c -> live_subset c num s) subsets in
  match m_state c with
  | INITIAL | ANNOUNCE_DONE | ERROR => True
  | CHALLENGE_DONE => live
  | COLLECTIVESIG_DONE => round1
  | FINALCHALLENGE_DONE => live /\ round1
  | DONE => certificate c num (m_B2 c) (m_CS2 c) (m_messageToCosign c) /\ round1
  | _ => False
  end.

Record leader_inv (k d : Z) (com : DequeOfNode) (l : ConsensusLeader) : Prop := {
  inv_static : leader_static k d com l;
  inv_commits : commits_inv k l;
  inv_cleared : m_state (lbase l) = CHALLENGE_DONE \/ m_state (lbase l) = FINALCHALLENGE_DONE ->
                m_commitMap l = [] /\ m_commitPointMap l = [];
  inv_state : state_inv (lbase l) (m_numForConsensus l) (m_consensusSubsets l)
}.

Definition leader_edge (s s' : State) : Prop :=
  s' = s \/ s' = INITIAL \/ s' = ERROR \/
  match s, s' with
  | INITIAL, ANNOUNCE_DONE | ANNOUNCE_DONE, CHALLENGE_DONE | CHALLENGE_DONE, COLLECTIVESIG_DONE
  | COLLECTIVESIG_DONE, FINALCHALLENGE_DONE | FINALCHALLENGE_DONE, DONE => True
  | _, _ => False
  end.

Lemma CheckState_leader l action :
  CheckState l action = true ->
  match action with
  | SEND_ANNOUNCEMENT => m_state (lbase l) = INITIAL
  | PROCESS_COMMIT => m_state (lbase l) = ANNOUNCE_DONE
  | PROCESS_RESPONSE => m_state (lbase l) = CHALLENGE_DONE
  | PROCESS_FINALCOMMIT => m_state (lbase l) = COLLECTIVESIG_DONE
  | PROCESS_FINALRESPONSE => m_state (lbase l) = FINALCHALLENGE_DONE
  | PROCESS_COMMITFAILURE => True
  end.
Proof. unfold CheckState. destruct (m_state (lbase l)), action; vm_compute; auto; discriminate. Qed.

Lemma CheckStateSubset_states l id action :
  CheckStateSubset l id action = Ret true ->
  exists s, m_consensusSubsets l !! Z.to_nat id = Some s /\ 0 <= id /\
    ((action = PROCESS_RESPONSE /\ subset_state s = CHALLENGE_DONE) \/
     (action = PROCESS_FINALRESPONSE /\ subset_state s = FINALCHALLENGE_DONE)).
Proof.
  unfold CheckStateSubset. intros E. apply bind_Ret in E as (s & Es & E).
  apply at_Ret in Es as [Hi Es]. exists s. split; [done|]. split; [lia|].
  destruct (subset_state s), action; vm_compute in E; try discriminate E; auto.
Qed.

(** ** Starting the subsets *)

Lemma open_subsets_live k d com l l0 subsets subsets1 subsets2 :
  leader_static k d com l -> Forall (fresh_subset l0) subsets ->
  lbase l = with_state (lbase l0) (m_state (lbase l)) ->
  m_numForConsensus l = m_numForConsensus l0 ->
  m_commitPointMap l0 !! Z.to_nat (m_myID (lbase l0)) = Some (mkObj (smul k base) true) ->
  Forall2 (fun s s' => s' = sub_challenge s (mkObj (val (subset_challenge_value (lbase l) s)) true))
    subsets subsets1 ->
  open_subsets (lbase l) subsets1 = Ret subsets2 ->
  Forall (fun s => live_subset (lbase l) (m_numForConsensus l) s) subsets2.
Proof.
  intros Hst Hf Hb Hn Hpt H2. revert subsets2. induction H2 as [|s s1 subsets subsets1 -> H2 IH];
    intros subsets2 E; cbn [open_subsets] in E; [simplify_eq; constructor|].
  apply Forall_cons_1 in Hf as [Hs Hf]. apply bind_Ret in E as (s' & Es & E).
  apply bind_Ret in E as (rest & Er & E). simplify_eq. constructor; [|by apply IH].
  by eapply open_subset_live in Es as [? _].
Qed.

(** With the commit maps cleared, forming subsets throws. *)
Lemma Generate_cleared l r l1 :
  m_commitMap l = [] -> m_commitPointMap l = [] -> 0 <= m_numForConsensus l ->
  GenerateConsensusSubsets cfg l r = Ret l1 -> False.
Proof.
  intros Hm Hp Hn E. unfold GenerateConsensusSubsets in E. rewrite Hm in E.
  cbn [committed_from] in E. change (zlen []) with 0 in E.
  destruct (Z.leb_spec 0 (m_numForConsensus l)); [|lia].
  apply bind_Ret in E as (ss & E & _). change (Z.to_nat 1) with 1%nat in E. cbn [build_subsets] in E.
  apply bind_Ret in E as (s & E & _). unfold build_subset in E.
  apply bind_Ret in E as (s0 & E & _). unfold add_commit in E.
  apply bind_Ret in E as (q & E & _). rewrite Hp in E. apply at_Ret in E as [_ E].
  by rewrite lookup_nil in E.
Qed.

(** Forming and starting the subsets, as the handlers do it in one go. *)
Lemma start_subsets_spec k d com l r l1 ok l2 eff :
  Random_ok r -> leader_static k d com l -> commits_inv k l -> m_numForConsensus l <= m_commitCounter l ->
  GenerateConsensusSubsets cfg l r = Ret l1 -> StartConsensusSubsets l1 r = Ret (ok, l2, eff) ->
  leader_static k d com l2 /\ (m_commitMap l2 = [] /\ m_commitPointMap l2 = []) /\
  lbase l2 = with_state (lbase l) (m_state (lbase l2)) /\
  m_numForConsensus l2 = m_numForConsensus l /\
  ((m_state (lbase l2) = m_state (lbase l) /\ m_state (lbase l) <> ANNOUNCE_DONE /\
    m_state (lbase l) <> COLLECTIVESIG_DONE) \/
   (m_state (lbase l2) = ERROR) \/
   (Forall (live_subset (lbase l2) (m_numForConsensus l2)) (m_consensusSubsets l2) /\
    ((m_state (lbase l) = ANNOUNCE_DONE /\ m_state (lbase l2) = CHALLENGE_DONE) \/
     (m_state (lbase l) = COLLECTIVESIG_DONE /\ m_state (lbase l2) = FINALCHALLENGE_DONE)))).
Proof.
  intros Hr Hst Hc Hge Eg Es. destruct (static_num_bounds _ _ _ _ Hst) as (Hnum & H32 & H1).
  destruct Hc as [[Hm Hp]|[Hfull Hpt]].
  { by apply (Generate_cleared l r l1) in Eg; [|done|done|lia]. }
  apply GenerateConsensusSubsets_spec in Eg as (subsets & Hfresh & ->); try done;
    [|apply (static_me _ _ _ _ Hst)|lia].
  assert (forall s type,
    (let l' := lead_running (set_mstate (lead_subsets (lead_commits l [] [] [] (m_commitCounter l)) subsets) s)
                 (zlen subsets) in
     '(ok, challenge, l') ← GenerateChallengeMessage l' r (message_header (lbase l') type) (BODY + 1);
     if negb (ok : bool) then Ret (false, set_mstate l' ERROR, [])
     else subsets ← open_subsets (lbase l') (m_consensusSubsets l');
          let l' := lead_subsets l' subsets in
          Ret (true, l', [SendMessage (shuffle_peers r (challenged_peers l')) challenge]))
    = Ret (ok, l2, eff) ->
    leader_static k d com l2 /\ (m_commitMap l2 = [] /\ m_commitPointMap l2 = []) /\
    lbase l2 = with_state (lbase l) (m_state (lbase l2)) /\
    m_numForConsensus l2 = m_numForConsensus l /\
    (m_state (lbase l2) = ERROR \/
     (Forall (live_subset (lbase l2) (m_numForConsensus l2)) (m_consensusSubsets l2) /\
      m_state (lbase l2) = s))) as Hstart.
  { intros s type E. cbn zeta in E. set (l' := lead_running _ _) in E.
    apply bind_Ret in E as ([[ok' ch] l3] & E3 & E). unfold GenerateChallengeMessage in E3.
    apply bind_Ret in E3 as ([[ok3 subsets1] infos] & E3 & E4).
    assert (exists ok'', l3 = lead_subsets l' subsets1 /\ ok' = ok'' /\ (ok'' = true -> ok3 = true))
      as (ok'' & -> & -> & Hok).
    { destruct ok3; cbn [negb] in E4; [|by simplify_eq; exists false].
      apply bind_Ret in E4 as ([res msg] & _ & E4). simplify_eq. eauto. }
    destruct Hst as [? ? ? ? ? ? ? ?].
    destruct ok''; cbn [negb] in E.
    - apply bind_Ret in E as (subsets2 & E5 & E). simplify_eq. rewrite Hok in E3 by done.
      split; [by split|]. split; [done|]. split; [done|]. split; [done|]. right. split; [|done].
      change (Forall (live_subset (lbase l') (m_numForConsensus l')) subsets2).
      eapply (open_subsets_live k d _ l' l subsets subsets1); [by split|done..| |exact E5].
      eapply challenge_loop_spec; [|exact E3]. eapply Forall_impl; [exact Hfresh|].
      intros x Hx. split; [apply Hx|]. pose proof (fresh_count _ _ Hx). lia.
    - simplify_eq. split; [by split|]. split; [done|]. split; [done|]. split; [done|]. by left. }
  unfold StartConsensusSubsets in Es. cbn [m_state lbase lead_subsets lead_commits] in Es.
  case_bool_decide as Ha; [|case_bool_decide as Hcs].
  - apply Hstart in Es as (? & [? ?] & ? & ? & [?|[? ?]]); split_and!; auto 10.
  - apply Hstart in Es as (? & [? ?] & ? & ? & [?|[? ?]]); split_and!; auto 10.
  - simplify_eq. destruct Hst as [? ? ? ? ? ? ? ?]. split; [by split|]. split; [done|].
    split; [cbn; by destruct (lbase l)|]. split; [done|]. left. done.
Qed.

(** ** Preservation *)

Lemma live_subset_ext c c' num s :
  m_committee c' = m_committee c -> m_messageToCosign c' = m_messageToCosign c ->
  live_subset c num s -> live_subset c' num s.
Proof.
  intros Hc Hm []. assert (subset_challenge_value c' s = subset_challenge_value c s) as Hv
    by (unfold subset_challenge_value; by rewrite Hc, Hm).
  split; rewrite ?Hc, ?Hv; done.
Qed.

Lemma live_sub_state c num s st : live_subset c num s -> live_subset c num (sub_state s st).
Proof. intros []. by split. Qed.

Lemma live_sub_collectiveSig c num s sg :
  live_subset c num s -> live_subset c num (sub_collectiveSig s sg).
Proof. intros []. by split. Qed.

Lemma started_inv k d com l r l1 ok l2 eff :
  Random_ok r -> leader_static k d com l -> commits_inv k l ->
  (m_state (lbase l) = CHALLENGE_DONE \/ m_state (lbase l) = FINALCHALLENGE_DONE ->
   m_commitMap l = [] /\ m_commitPointMap l = []) ->
  state_inv (lbase l) (m_numForConsensus l) (m_consensusSubsets l) ->
  m_numForConsensus l <= m_commitCounter l ->
  GenerateConsensusSubsets cfg l r = Ret l1 -> StartConsensusSubsets l1 r = Ret (ok, l2, eff) ->
  leader_inv k d com l2 /\ leader_edge (m_state (lbase l)) (m_state (lbase l2)).
Proof.
  intros Hr Hst Hc Hcl Hs Hge Eg Es.
  destruct (static_num_bounds _ _ _ _ Hst) as (Hnum & _ & _).
  assert (m_state (lbase l) <> CHALLENGE_DONE /\ m_state (lbase l) <> FINALCHALLENGE_DONE) as [Hn1 Hn2].
  { split; intros E; destruct Hcl as [Hm Hp]; auto; eapply Generate_cleared; eauto; lia. }
  destruct (start_subsets_spec _ _ _ _ _ _ _ _ _ Hr Hst Hc Hge Eg Es) as (Hst2 & Hc2 & Hb & Hn & Hcase).
  unfold leader_edge. split.
  - split; [done|by left|done|]. rewrite Hb, Hn. unfold state_inv in *.
    cbn [m_state with_state]. change (m_B1 (with_state _ _)) with (m_B1 (lbase l)).
    destruct Hcase as [(He & Ha & Hcs)|[He|[Hlive [[Ha He]|[Ha He]]]]]; rewrite He.
    + destruct (m_state (lbase l)); try done.
    + done.
    + eapply Forall_impl; [exact Hlive|]. intros s Hls _. rewrite Hn in Hls.
      by eapply live_subset_ext; [| |exact Hls]; rewrite Hb.
    + rewrite Ha in Hs. split; [|exact Hs]. eapply Forall_impl; [exact Hlive|]. intros s Hls _.
      rewrite Hn in Hls. by eapply live_subset_ext; [| |exact Hls]; rewrite Hb.
  - destruct Hcase as [(He & _)|[He|[_ [[Ha He]|[Ha He]]]]]; rewrite ?Ha, He; auto.
Qed.

(** Commits. *)
Lemma commit_counter_range k d com l id :
  leader_inv k d com l -> m_commitMap l !! Z.to_nat id = Some false -> in_range 32 (m_commitCounter l + 1).
Proof.
  intros [Hst Hc _ _] Hcm. pose proof (static_size _ _ _ _ Hst) as Hsz. unfold zlen in Hsz.
  destruct Hc as [[Hm _]|[(Hlm & _ & _ & ->) _]]; [by rewrite Hm, lookup_nil in Hcm|].
  pose proof (count_true_le_length (m_commitMap l)). unfold in_range. lia.
Qed.

(** A leader that has recorded the commit of one more member. *)
Lemma commit_recorded_inv k d com l id cp points l2 :
  leader_inv k d com l -> m_state (lbase l) <> CHALLENGE_DONE /\ m_state (lbase l) <> FINALCHALLENGE_DONE ->
  m_commitMap l !! Z.to_nat id = Some false ->
  let l1 := lead_commits l (<[Z.to_nat id := true]> (m_commitMap l))
              (<[Z.to_nat id := cp]> (m_commitPointMap l)) points (m_commitCounter l + 1) in
  (exists a b c, l2 = lead_redundant l1 a b c) \/ l2 = l1 ->
  leader_inv k d com l2 /\ lbase l2 = lbase l /\ m_numForConsensus l2 = m_numForConsensus l /\
  m_commitCounter l2 = m_commitCounter l + 1.
Proof.
  intros [Hst Hc Hcl Hsi] [Hn1 Hn2] Hcm l1 Hor.
  destruct Hc as [[Hm _]|[(Hlm & Hlp & Hme & Hcnt) Hpt]]; [by rewrite Hm, lookup_nil in Hcm|].
  set (i := Z.to_nat id) in *. set (me := Z.to_nat (m_myID (lbase l))) in *.
  assert (i <> me) as Hne by congruence.
  assert (commits_full l1) as Hf.
  { unfold commits_full, l1. cbn. rewrite !length_insert. fold me.
    rewrite list_lookup_insert_ne, count_true_insert_false by done. split_and!; try done; lia. }
  assert (m_commitPointMap l1 !! me = Some (mkObj (smul k base) true)) as Hp1
    by (unfold l1; cbn; by rewrite list_lookup_insert_ne).
  destruct Hst. destruct Hor as [(a & b & c & ->)| ->];
    (split; [split; [by split|by right|by intros [|]|exact Hsi]|done]).
Qed.

Lemma CommitCore_inv k d com l r m o action from res l' eff :
  leader_inv k d com l -> Random_ok r ->
  ProcessMessageCommitCore cfg l r m o action from = Ret (res, l', eff) ->
  action = PROCESS_COMMIT \/ action = PROCESS_FINALCOMMIT ->
  leader_inv k d com l' /\ leader_edge (m_state (lbase l)) (m_state (lbase l')).
Proof.
  intros Hinv Hr E Ha. assert (leader_inv k d com l /\ leader_edge (m_state (lbase l)) (m_state (lbase l)))
    as Hsame by (split; [done|by left]).
  unfold ProcessMessageCommitCore in E. destruct (CheckState l action) eqn:Hs; cbn [negb] in E;
    [|by simplify_eq].
  assert (m_state (lbase l) <> CHALLENGE_DONE /\ m_state (lbase l) <> FINALCHALLENGE_DONE) as Hn
    by (apply CheckState_leader in Hs; destruct Ha as [-> | ->]; rewrite Hs; done).
  destruct (GetConsensusCommit _ _ _ _ _ _) as [[[id cp] cph]|]; [|by simplify_eq].
  apply bind_Ret in E as (node & En & E). case_test_in E; [by simplify_eq|].
  apply bind_Ret in E as (committed & Ecm & E). destruct committed; [by simplify_eq|].
  destruct cp as [cp|]; [|by simplify_eq]. destruct cph as [cph|]; [|by simplify_eq].
  do 3 (case_test_in E; [by simplify_eq|]). cbn [negb] in E.
  apply bind_Ret in E as (old & Eo & E). apply bind_Ret in E as (pm & Epm & E).
  apply bind_Ret in E as (mp & Emp & E). rewrite CommitPoint_assign_some in Epm.
  apply at_Ret in Ecm as [_ Hcm]. apply at_set_Ret in Epm as [_ ->], Emp as [_ ->].
  rewrite (wrap_small 32) in E by (by eapply commit_counter_range).
  apply bind_Ret in E as (l2 & El2 & E).
  destruct (commit_recorded_inv k d com l id (mkObj (val cp) true) (m_commitPoints l ++ [CommitPoint_copy cp])
    l2 Hinv Hn Hcm) as (Hinv2 & Hb & Hnum & Hctr).
  { case_test_in El2; [|by simplify_eq; right]. apply bind_Ret in El2 as (? & _ & El2).
    apply bind_Ret in El2 as (? & _ & El2). apply bind_Ret in El2 as (? & _ & El2).
    simplify_eq. left. eauto. }
  case_test_in E.
  - simplify_eq. split; [|left; case_test; by rewrite <- Hb].
    case_test; [|done]. destruct Hinv2 as [[] Hc2' ? ?]. split; [by split|exact Hc2'|done|done].
  - case_test_in E; [|by simplify_eq; split; [|left; rewrite Hb]].
    apply bind_Ret in E as (l3 & Eg & E). apply bind_Ret in E as ([[ok l4] eff'] & Es & E).
    simplify_eq. rewrite <- Hb. destruct Hinv2. zbool.
    eapply (started_inv k d com l2); try exact Eg; try exact Es; try done. lia.
Qed.

(** Responses: the checks passed for a challenged subset. *)
Lemma response_check_spec l action id sid si :
  response_check l action id sid si = Ret true -> 0 <= id ->
  exists s p, m_consensusSubsets l !! Z.to_nat sid = Some s /\ 0 <= sid /\
    ((action = PROCESS_RESPONSE /\ subset_state s = CHALLENGE_DONE) \/
     (action = PROCESS_FINALRESPONSE /\ subset_state s = FINALCHALLENGE_DONE)) /\
    commitMap s !! Z.to_nat id = Some true /\ responseMap s !! Z.to_nat id = Some false /\
    commitPointMap s !! Z.to_nat id = Some p /\
    VerifyResponse (response si) (subset_challenge s) (GetCommitteeMember (lbase l) id).1 p = true.
Proof.
  intros E Hid. unfold response_check in E. apply bind_Ret in E as (allowed & Ea & E).
  destruct allowed; [|done]. apply CheckStateSubset_states in Ea as (s & Hs & Hsid & Hst).
  cbn [negb] in E. apply bind_Ret in E as (s' & Es & E). apply at_Ret in Es as [_ Es].
  rewrite Hs in Es. simplify_eq. case_test_in E; [done|].
  apply bind_Ret in E as (committed & Ec & E). destruct committed; [|done].
  apply bind_Ret in E as (responded & Er & E). destruct responded; [done|]. cbn [negb] in E.
  apply bind_Ret in E as (p & Ep & E). apply at_Ret in Ec as [_ Ec], Er as [_ Er], Ep as [_ Ep].
  exists s', p. split_and!; try done. by injection E as ->.
Qed.

Lemma SetStateSubset_inv l sid st l' s :
  SetStateSubset l sid st = Ret l' -> m_consensusSubsets l !! Z.to_nat sid = Some s ->
  l' = lead_subsets l (<[Z.to_nat sid := sub_state s (next_subset_state (subset_state s) st)]>
                         (m_consensusSubsets l)).
Proof.
  intros E Hs. unfold SetStateSubset in E. apply bind_Ret in E as (s' & Es & E).
  apply at_Ret in Es as [_ Es]. rewrite Hs in Es. simplify_eq.
  apply bind_Ret in E as (ss & Ess & E). apply at_set_Ret in Ess as [_ ->]. by simplify_eq.
Qed.

(** The collective signature of a subset: refused (the subset may be marked as
    failed), or verified and published. *)
Lemma GenerateCollectiveSig_cases l r msg o sid s ok msg' l' :
  m_consensusSubsets l !! Z.to_nat sid = Some s -> 0 <= sid ->
  GenerateCollectiveSigMessage l r msg o sid = Ret (ok, msg', l') ->
  (ok = false /\ exists s', l' = lead_subsets l (<[Z.to_nat sid := s']> (m_consensusSubsets l)) /\
     exists sg st, s' = sub_state (sub_collectiveSig s sg) st /\ (st = subset_state s \/ st = ERROR)) \/
  (ok = true /\ exists sg key, AggregateKeys (lbase l) (responseMap s) = Ret key /\
     MultiSigVerify (m_messageToCosign (lbase l)) sg key = true /\
     l' = lead_base (lead_subsets l (<[Z.to_nat sid := sub_collectiveSig s sg]> (m_consensusSubsets l)))
            (with_collectiveSig (lbase l) sg)).
Proof.
  intros Hs Hsid E. unfold GenerateCollectiveSigMessage in E. apply bind_Ret in E as (s' & Es & E).
  apply at_Ret in Es as [Hr Es]. rewrite Hs in Es. simplify_eq.
  assert (forall st, next_subset_state st ERROR = st \/ next_subset_state st ERROR = ERROR) as Hnext
    by (intros st; unfold next_subset_state; case_test; auto).
  assert (sub_collectiveSig s' (collectiveSig s') = s') as Hid by (by destruct s').
  destruct (Initialized _); cbn [negb] in E.
  2: { apply bind_Ret in E as (l1 & El & E). simplify_eq. eapply SetStateSubset_inv in El; [|exact Hs].
    left. split; [done|]. eexists. split; [exact El|]. exists (collectiveSig s').
    rewrite Hid. eauto. }
  apply bind_Ret in E as (key & Ek & E). apply bind_Ret in E as (ss & Ess & E).
  apply at_set_Ret in Ess as [_ ->]. set (sg := AggregateSign _ _) in E.
  destruct (MultiSigVerify _ _ _) eqn:Hv; cbn [negb] in E.
  - apply bind_Ret in E as ([ok1 msg1] & _ & E). destruct ok1; cbn [negb] in E; simplify_eq.
    + right. split; [done|]. by exists sg, key.
    + left. split; [done|]. eexists. split; [done|]. exists sg, (subset_state s'). split; [|auto].
      by destruct s'.
  - apply bind_Ret in E as (l1 & El & E). simplify_eq.
    eapply (SetStateSubset_inv _ _ _ _ (sub_collectiveSig s' sg)) in El.
    2: { cbn. apply list_lookup_insert_eq. by apply lookup_lt_Some in Hs. }
    left. split; [done|]. eexists. split; [rewrite El; cbn; by rewrite list_insert_insert_eq|].
    exists sg. eauto.
Qed.

(** The leader after a round: what [round_finished] and [SubsetEnded] leave. *)
Lemma round_end_inv k d com l action next sid s sg key l1 l2 :
  leader_static k d com l -> commits_inv k l ->
  (action = PROCESS_RESPONSE /\ next = COLLECTIVESIG_DONE /\ subset_state s = CHALLENGE_DONE) \/
  (action = PROCESS_FINALRESPONSE /\ next = DONE /\ subset_state s = FINALCHALLENGE_DONE /\
   exists m0, certificate (lbase l) (m_numForConsensus l) (m_B1 (lbase l)) (m_CS1 (lbase l)) m0 /\
     append_round1 m0 (m_CS1 (lbase l)) (m_B1 (lbase l)) = Ret (m_messageToCosign (lbase l))) ->
  live_subset (lbase l) (m_numForConsensus l) s -> responseCounter s = m_numForConsensus l ->
  m_consensusSubsets l !! Z.to_nat sid = Some (sub_state (sub_collectiveSig s sg) next) -> 0 <= sid ->
  AggregateKeys (lbase l) (responseMap s) = Ret key ->
  MultiSigVerify (m_messageToCosign (lbase l)) sg key = true ->
  round_finished (set_mstate l next) action (sub_state (sub_collectiveSig s sg) next) = Ret l1 ->
  SubsetEnded l1 sid = Ret l2 ->
  leader_inv k d com l2 /\ m_state (lbase l2) = next.
Proof.
  intros Hst Hc Ha Hlive Hctr Hss Hsid Hk Hv E1 E2.
  assert (certificate (lbase l) (m_numForConsensus l) (responseMap s) sg (m_messageToCosign (lbase l)))
    as Hcert.
  { destruct Hlive as [? [Hl ?] ? ? ? Hcn ? ? ?]. split; [done|]. split; [lia|]. eauto. }
  assert (m_consensusSubsets l1 = m_consensusSubsets l /\ leader_static k d com l1 /\ commits_inv k l1 /\
    forall ss, state_inv (with_state (lbase l1) next) (m_numForConsensus l1) ss) as (Hss1 & Hst1 & Hc1 & Hs1).
  { unfold round_finished in E1. destruct Ha as [(-> & -> & _)|(-> & -> & _ & m0 & Hr1 & Happ)].
    - rewrite bool_decide_eq_true_2 in E1 by done. apply bind_Ret in E1 as (msg & Emsg & E1).
      apply bind_Ret in E1 as (mp & Emp & E1). apply at_set_Ret in Emp as [Hme ->].
      cbn [m_commitPoint with_round1 with_messageToCosign lbase set_mstate lead_base with_state] in E1.
      rewrite (static_point _ _ _ _ Hst) in E1. apply bind_Ret in E1 as (old & _ & E1).
      apply bind_Ret in E1 as (pm & Epm & E1). rewrite CommitPoint_assign_some in Epm.
      apply at_set_Ret in Epm as [Hme' ->]. cbn [val] in E1. simplify_eq.
      split; [done|]. split; [destruct Hst; by split|]. split.
      + right. assert (Z.to_nat (m_myID (lbase l)) < length (m_committee (lbase l)))%nat as Hlt.
        { pose proof (static_me _ _ _ _ Hst). unfold zlen in *. lia. }
        unfold commits_full. cbn. rewrite !length_insert, length_replicate, length_resize.
        rewrite !list_lookup_insert_eq by (rewrite ?length_replicate, ?length_resize; done).
        rewrite count_true_insert_false by (by apply lookup_replicate_2).
        rewrite count_true_replicate_false. done.
      + intros ss. exists (m_messageToCosign (lbase l)). split; [exact Hcert|exact Emsg].
    - rewrite bool_decide_eq_false_2 in E1 by done. simplify_eq. split; [done|].
      split; [destruct Hst; by split|]. split; [exact Hc|].
      intros ss. split; [exact Hcert|]. exists m0. split; [exact Hr1|exact Happ]. }
  unfold SubsetEnded in E2. rewrite Hss1 in E2. apply bind_Ret in E2 as (s' & Es' & E2).
  apply at_Ret in Es' as [_ Es']. rewrite Hss in Es'. simplify_eq. cbn [subset_state sub_state] in E2.
  assert (bool_decide (next = COLLECTIVESIG_DONE) || bool_decide (next = DONE) = true) as Hdone
    by (destruct Ha as [(_ & -> & _)|(_ & -> & _)]; done).
  rewrite Hdone in E2. simplify_eq. split; [|done]. split.
  - destruct Hst1. by split.
  - exact Hc1.
  - destruct Ha as [(_ & -> & _)|(_ & -> & _)]; intros [|]; done.
  - apply Hs1.
Qed.

(** The two rounds of responses. *)
Definition response_round (action : Action) (next : State) : Prop :=
  (action = PROCESS_RESPONSE /\ next = COLLECTIVESIG_DONE) \/
  (action = PROCESS_FINALRESPONSE /\ next = DONE).

(** The subset that takes a response: its state is that of the leader. *)
Definition answers (action : Action) (s : ConsensusSubset) : Prop :=
  (action = PROCESS_RESPONSE /\ subset_state s = CHALLENGE_DONE) \/
  (action = PROCESS_FINALRESPONSE /\ subset_state s = FINALCHALLENGE_DONE).

Lemma inv_live k d com l action sid s :
  leader_inv k d com l -> CheckState l action = true ->
  m_consensusSubsets l !! Z.to_nat sid = Some s -> answers action s ->
  live_subset (lbase l) (m_numForConsensus l) s /\ m_state (lbase l) = subset_state s.
Proof.
  intros [_ _ _ Hsi] Hcs%CheckState_leader Hs Hact. unfold state_inv in Hsi.
  destruct Hact as [[-> Hss]|[-> Hss]]; rewrite Hcs in Hsi |- *; (split; [|done]).
  - rewrite Forall_lookup in Hsi. apply (Hsi _ _ Hs). congruence.
  - destruct Hsi as [Hsi _]. rewrite Forall_lookup in Hsi. apply (Hsi _ _ Hs). congruence.
Qed.

Lemma inv_set_subset k d com l action sid s s' :
  leader_inv k d com l -> CheckState l action = true -> answers action s ->
  live_subset (lbase l) (m_numForConsensus l) s' ->
  leader_inv k d com (lead_subsets l (<[Z.to_nat sid:=s']> (m_consensusSubsets l))).
Proof.
  intros [Hst Hc Hcl Hsi] Hcs%CheckState_leader Hact Hs'. split; [destruct Hst; by split|exact Hc|exact Hcl|].
  unfold state_inv in *. cbn. destruct Hact as [[-> _]|[-> _]]; rewrite Hcs in *.
  - apply Forall_insert; [exact Hsi|]. by intros ?.
  - destruct Hsi as [Hf Hr1]. split; [|exact Hr1]. apply Forall_insert; [exact Hf|]. by intros ?.
Qed.

Lemma complete_round_inv k d com l r action type next sid s f l' eff :
  leader_inv k d com l -> response_round action next -> CheckState l action = true ->
  0 <= sid -> m_consensusSubsets l !! Z.to_nat sid = Some s -> answers action s ->
  responseCounter s = m_numForConsensus l ->
  complete_round cfg l r action type next sid = Ret (f, l', eff) ->
  leader_inv k d com l' /\ leader_edge (m_state (lbase l)) (m_state (lbase l')) /\ f <> Continue.
Proof.
  intros Hinv Hround Hcs Hsid Hs Hact Hfull E. apply lookup_lt_Some in Hs as Hlt.
  destruct (inv_live _ _ _ _ _ _ _ Hinv Hcs Hs Hact) as [Hlive Hse]. unfold complete_round in E.
  apply bind_Ret in E as ([[ok msg] l2] & E2 & E).
  apply (GenerateCollectiveSig_cases _ _ _ _ _ s) in E2; [|done..].
  destruct E2 as [(-> & s2 & -> & sg & st & -> & Hst2)|(-> & sg & key & Hk & Hver & ->)];
    cbn [negb] in E.
  { simplify_eq. split; [|split; [by left|done]]. apply (inv_set_subset _ _ _ _ action _ s); [done..|].
    by apply live_sub_state, live_sub_collectiveSig. }
  apply bind_Ret in E as (l3 & E3 & E). eapply SetStateSubset_inv in E3;
    [|cbn; by apply list_lookup_insert_eq]. cbn in E3. rewrite list_insert_insert_eq in E3.
  assert (next_subset_state (subset_state s) next = next) as Hnext
    by (destruct Hround as [[-> ->]|[-> ->]], Hact as [[? Hss]|[? Hss]]; try done; rewrite Hss; done).
  rewrite Hnext in E3. apply bind_Ret in E as (s3 & E4 & E). apply at_Ret in E4 as [_ E4].
  rewrite E3 in E4. cbn in E4. rewrite list_lookup_insert_eq in E4 by done. simplify_eq.
  apply bind_Ret in E as (l4 & E5 & E). apply bind_Ret in E as (l5 & E6 & E). simplify_eq.
  destruct Hinv as [Hst Hc _ Hsi].
  assert (leader_inv k d com l' /\ m_state (lbase l') = next) as [Hinv Hns].
  { eapply (round_end_inv k d com _ action next sid s sg key); [| | | | | |done| | |exact E5|exact E6];
      [destruct Hst; by split|exact Hc| |by apply (live_subset_ext (lbase l))|exact Hfull|cbn; by apply list_lookup_insert_eq
      |exact Hk|exact Hver].
    destruct Hround as [[-> ->]|[-> ->]], Hact as [[? Hss]|[? Hss]]; try done; [by left|right].
    do 3 (split; [done|]). unfold state_inv in Hsi. rewrite Hse, Hss in Hsi.
    destruct Hsi as [_ (m0 & Hr1 & Happ)]. exists m0. split; [exact Hr1|exact Happ]. }
  split; [done|]. split; [|done]. rewrite Hns. unfold leader_edge.
  destruct Hround as [[-> ->]|[-> ->]]; apply CheckState_leader in Hcs; rewrite Hcs; auto.
Qed.

Lemma response_update_inv k d com l r action type next id sid si f l' eff :
  leader_inv k d com l -> response_round action next -> 0 <= id < zlen (m_committee (lbase l)) ->
  CheckState l action = true ->
  response_check l action id sid si = Ret true ->
  response_update cfg l r action type next id sid si = Ret (f, l', eff) ->
  leader_inv k d com l' /\ leader_edge (m_state (lbase l)) (m_state (lbase l')) /\
  (f = Continue -> lbase l' = lbase l).
Proof.
  intros Hinv Hround Hid Hcs Hchk E.
  apply response_check_spec in Hchk as (s & p & Hs & Hsid & Hact & Hcm & Hrm & Hp & Hv); [|lia].
  pose proof (static_size _ _ _ _ (inv_static _ _ _ _ Hinv)) as Hsz.
  destruct (inv_live _ _ _ _ _ _ _ Hinv Hcs Hs Hact) as [Hlive _].
  unfold response_update in E. rewrite Hcs in E. cbn [negb] in E.
  apply bind_Ret in E as (allowed & Eal & E).
  destruct allowed; cbn [negb] in E; [|simplify_eq; split; [done|split; [by left|done]]].
  apply bind_Ret in E as (s' & Es & E). apply at_Ret in Es as [_ Es]. rewrite Hs in Es. simplify_eq.
  apply bind_Ret in E as (s1 & E1 & E). apply bind_Ret in E as (ss & Ess & E).
  apply at_set_Ret in Ess as [_ ->].
  destruct (at_some (m_committee (lbase l)) id Hid) as (node & _ & Hnode).
  rewrite (GetCommitteeMember_lookup _ _ node) in Hv by (done || lia).
  apply (record_response_live (lbase l) (m_numForConsensus l) _ _ _ _ node) in E1
    as (Hlive1 & Hst1 & Hctr1); [|done|lia|lia|done|done|done|eauto].
  pose proof (inv_set_subset _ _ _ _ _ sid _ _ Hinv Hcs Hact Hlive1) as Hinv1.
  set (l1 := lead_subsets l _) in E, Hinv1.
  destruct (Z.eqb_spec (responseCounter s1) (m_numForConsensus l1)) as [Hfull|]; cbn [negb] in E.
  - apply (complete_round_inv k d com _ _ _ _ _ _ s1) in E as (Hinv' & Hedge & Hf); try done.
    + cbn. apply list_lookup_insert_eq. by apply lookup_lt_Some in Hs.
    + unfold answers. by rewrite Hst1.
  - injection E as <- <- <-. split; [exact Hinv1|split; [by left|done]].
Qed.

Lemma response_loop_inv k d com r action type next id sid infos l res l' eff :
  leader_inv k d com l -> response_round action next -> 0 <= id < zlen (m_committee (lbase l)) ->
  CheckState l action = true ->
  response_loop cfg l r action type next id sid infos = Ret (res, l', eff) ->
  leader_inv k d com l' /\ leader_edge (m_state (lbase l)) (m_state (lbase l')).
Proof.
  revert sid l res l' eff. induction infos as [|si infos IH]; intros sid l res l' eff Hinv Hround Hid Hcs E;
    cbn [response_loop] in E; [simplify_eq; split; [done|by left]|].
  apply bind_Ret in E as (go & Eg & E). destruct go; cbn [negb] in E; [|by eapply IH].
  apply bind_Ret in E as ([[f l1] eff1] & E1 & E).
  eapply response_update_inv in E1 as (Hinv1 & Hedge1 & Hcont); [|done..].
  destruct f; try (by simplify_eq). specialize (Hcont eq_refl).
  apply bind_Ret in E as ([[res2 l2] eff2] & E2 & E). simplify_eq.
  rewrite <- Hcont. eapply IH; [done|done|by rewrite Hcont| |exact E2].
  unfold CheckState in *. by rewrite Hcont.
Qed.

Lemma ResponseCore_inv k d com l r m o action type next from res l' eff :
  leader_inv k d com l -> response_round action next ->
  ProcessMessageResponseCore cfg l r m o action type next from = Ret (res, l', eff) ->
  leader_inv k d com l' /\ leader_edge (m_state (lbase l)) (m_state (lbase l')).
Proof.
  intros Hinv Hround E. unfold ProcessMessageResponseCore in E.
  destruct (CheckState l action) eqn:Hcs; cbn [negb] in E; [|simplify_eq; split; [done|by left]].
  apply bind_Ret in E as ([[id infos]|] & _ & E); [|simplify_eq; split; [done|by left]].
  apply bind_Ret in E as (node & En & E). apply at_Ret in En as [Hid _].
  do 2 (case_test_in E; [simplify_eq; split; [done|by left]|]). by eapply response_loop_inv.
Qed.

Lemma CommitFailure_inv k d com l r m o from res l' eff :
  leader_inv k d com l -> ProcessMessageCommitFailure l r m o from = Ret (res, l', eff) ->
  leader_inv k d com l' /\ leader_edge (m_state (lbase l)) (m_state (lbase l')).
Proof.
  intros Hinv E. assert (leader_inv k d com l /\ leader_edge (m_state (lbase l)) (m_state (lbase l))) as Hsame
    by (split; [done|by left]).
  unfold ProcessMessageCommitFailure in E. case_test_in E; [by simplify_eq|].
  destruct (GetConsensusCommitFailure _ _ _ _ _ _) as [[id err]|]; [|by simplify_eq].
  destruct (m_commitFailureMap l !! id); [by simplify_eq|].
  destruct Hinv as [[] Hc Hcl Hsi].
  assert (forall a b, leader_inv k d com (set_mstate (lead_failures l a b) INITIAL)) as Hreset
    by (intros a b; split; [by split|exact Hc|by intros [|]|done]).
  case_test_in E.
  - apply bind_Ret in E as ([ok msg] & _ & E). destruct ok; cbn [negb] in E; simplify_eq.
    all: split; [apply Hreset|right; by left].
  - simplify_eq. split; [|by left]. split; [by split|exact Hc|exact Hcl|exact Hsi].
Qed.

Lemma StartConsensus_inv k d com l gen gossip res l' eff :
  leader_inv k d com l -> StartConsensus l gen gossip = (res, l', eff) ->
  leader_inv k d com l' /\ leader_edge (m_state (lbase l)) (m_state (lbase l')).
Proof.
  intros Hinv E. unfold StartConsensus in E.
  destruct (CheckState l SEND_ANNOUNCEMENT) eqn:Hcs; cbn [negb] in E;
    [|simplify_eq; split; [done|by left]].
  apply CheckState_leader in Hcs. destruct (gen _ _ _ _ _ _ _ _) as [[ok ann] msg].
  destruct Hinv as [[] Hc Hcl Hsi]. destruct ok; cbn [negb] in E; simplify_eq.
  - split; [split; [by split|exact Hc|by intros [|]|done]|].
    rewrite Hcs. right. right. by right.
  - split; [|by left]. split; [by split|exact Hc|exact Hcl|]. unfold state_inv in *. cbn. by rewrite Hcs.
Qed.

Lemma window_closes_inv k d com l r l' eff :
  leader_inv k d com l -> Random_ok r -> commit_window_closes cfg l r = Ret (l', eff) ->
  leader_inv k d com l' /\ leader_edge (m_state (lbase l)) (m_state (lbase l')).
Proof.
  intros Hinv Hr E. unfold commit_window_closes in E. destruct Hinv as [Hst Hc Hcl Hsi].
  case_test_in E; zbool.
  - simplify_eq. split; [|right; right; by left]. destruct Hst.
    split; [by split|exact Hc|by intros [|]|done].
  - apply bind_Ret in E as (l1 & Eg & E). apply bind_Ret in E as ([[ok l2] eff2] & Es & E).
    simplify_eq. by eapply started_inv.
Qed.

(** ** Runs of a leader *)

Inductive leader_step (l : ConsensusLeader) : ConsensusLeader -> Prop :=
  | step_start gen gossip res l' eff :
      StartConsensus l gen gossip = (res, l', eff) -> leader_step l l'
  | step_message r m o from res l' eff :
      Random_ok r -> ProcessMessage cfg l r m o from = Ret (res, l', eff) -> leader_step l l'
  | step_window_opens : leader_step l (commit_window_opens l)
  | step_window_closes r l' eff :
      Random_ok r -> commit_window_closes cfg l r = Ret (l', eff) -> leader_step l l'.

Lemma leader_step_inv k d com l l' :
  leader_inv k d com l -> leader_step l l' ->
  leader_inv k d com l' /\ leader_edge (m_state (lbase l)) (m_state (lbase l')).
Proof.
  intros Hinv Hstep. destruct Hstep as [gen g res l' eff E|r m o from res l' eff Hr E| |r l' eff Hr E].
  - by eapply StartConsensus_inv.
  - unfold ProcessMessage in E. apply bind_Ret in E as (type & _ & E). repeat case_test_in E.
    + eapply CommitCore_inv; eauto.
    + by eapply CommitFailure_inv.
    + eapply ResponseCore_inv; [done| |exact E]. by left.
    + eapply CommitCore_inv; eauto.
    + eapply ResponseCore_inv; [done| |exact E]. by right.
    + simplify_eq. split; [done|by left].
  - destruct Hinv as [[] Hc Hcl Hsi]. split; [|by left]. split; [by split|exact Hc|exact Hcl|exact Hsi].
  - by eapply window_closes_inv.
Qed.

(** An honest leader: its index is in the committee and its committee key is
    the key of its private key. *)
Lemma ConsensusLeader_new_inv draws cid bn bh id d committee cb ib sh ds l k peer :
  ConsensusLeader_new cfg draws cid bn bh id (mkPrivKey d) committee cb ib sh ds = Ret l ->
  CommitSecret_new 0 draws = Some (mkObj k true) ->
  1 <= zlen committee <= 1000 -> 0 < d < m_order -> 0 <= id ->
  committee !! Z.to_nat id = Some (PubKey_from_priv (mkPrivKey d), peer) ->
  leader_inv k d committee l.
Proof.
  intros E Hk Hsz Hd Hid Hpub. unfold ConsensusLeader_new in E. rewrite Hk in E.
  rewrite (wrap_small 32) in E by (unfold in_range; lia).
  assert (CommitPoint_from_secret (mkObj k true) = mkObj (smul k base) true) as Hcp.
  { unfold CommitPoint_from_secret, CommitPoint_Set. cbn [Initialized negb val].
    destruct (mul_base_some k) as [Q EQ]. rewrite EQ. by apply mul_base in EQ as ->. }
  rewrite PubKey_from_priv_some in Hpub by done. pose proof (lookup_lt_Some _ _ _ Hpub) as Hlt.
  apply bind_Ret in E as (mp & Emp & E). apply at_set_Ret in Emp as [_ ->].
  apply bind_Ret in E as (pm & Epm & E). apply at_set_Ret in Epm as [_ ->].
  rewrite Hcp, CommitPoint_assign_some in E. simplify_eq. split.
  - split; cbn; try done; [unfold zlen; lia|eauto].
  - right. unfold commits_full. cbn. rewrite !length_insert, !length_replicate.
    rewrite !list_lookup_insert_eq by (by rewrite length_replicate).
    rewrite count_true_insert_false by (by apply lookup_replicate_2).
    by rewrite count_true_replicate_false.
  - by intros [|].
  - done.
Qed.

End invariant.

End Leader.
