(* ===== verification/LeaderProperties.v ===== *)
(** * What a consensus leader guarantees

    The theorems about [ConsensusLeader.cpp], proved from the invariant of
    [ConsensusLeader.v]: which subsets are formed, what a decided session has
    certified, when a round completes, how a round gets stuck, and what two
    threads can do to the count of responses. *)

From stdpp Require Import base numbers gmap strings countable list.
From S2P Require Import Prelude BitVector Peer OpenSSL Schnorr MultiSig ConsensusMessages.
From S2P Require Import ConsensusCommon ConsensusBackup ConsensusLeader.
Open Scope Z_scope.

Import Leader.

(** * The members of a subset *)

Section members.
Context `{Hnf : OpenSSLNoFail}.
Context `{!Proto CommitBody unit, !Proto ResponseBody unit, !Proto ChallengeBody unit,
          !Proto CollectiveSigBody unit, !Proto bytes unit, !Proto unit unit}.
Context (cfg : Config).
Context (l : ConsensusLeader) (Hfull : commits_full l).

(** [i] may join: it committed. *)
Definition eligible (i : Z) : Prop := 0 <= i /\ m_commitMap l !! Z.to_nat i = Some true.

(** All members committed, and their points are the committed ones. *)
Definition members_ok (s : ConsensusSubset) : Prop :=
  length (commitMap s) = length (m_committee (lbase l)) /\
  length (commitPointMap s) = length (m_committee (lbase l)) /\
  forall i, commitMap s !! i = Some true ->
    m_commitMap l !! i = Some true /\
    exists p, m_commitPointMap l !! i = Some p /\ commitPointMap s !! i = Some (mkObj (val p) true).

Lemma add_commit_total s i :
  members_ok s -> eligible i -> exists s', add_commit l s i = Ret s' /\ members_ok s' /\
    commitMap s' = <[Z.to_nat i := true]> (commitMap s).
Proof.
  intros (Hm & Hp & Hall) [Hi Hc]. destruct Hfull as (Hfm & Hfp & _ & _).
  pose proof (lookup_lt_Some _ _ _ Hc) as Hlt. unfold add_commit.
  destruct (at_some (m_commitPointMap l) i) as (p & -> & Hpl); [unfold zlen; lia|].
  destruct (at_some (commitPointMap s) i) as (old & -> & _); [unfold zlen; lia|].
  cbn [mbind outcome_bind]. rewrite (CommitPoint_assign_some old p).
  rewrite (at_set_some (commitPointMap s)), (at_set_some (commitMap s)) by (unfold zlen; lia).
  cbn [mbind outcome_bind]. eexists. split; [done|]. split; [|done].
  unfold members_ok. cbn. rewrite !length_insert. split; [done|]. split; [done|].
  intros j Hj. destruct (decide (j = Z.to_nat i)) as [->|Hne].
  - split; [done|]. exists p. split; [done|]. apply list_lookup_insert_eq. lia.
  - rewrite list_lookup_insert_ne in Hj by done. rewrite list_lookup_insert_ne by done. by apply Hall.
Qed.

Lemma take_loop_total k peers s :
  members_ok s -> Forall eligible peers -> (k <= length peers)%nat ->
  exists s', take_loop l peers k s = Ret s' /\ members_ok s'.
Proof.
  revert peers s. induction k as [|k IH]; intros peers s Hs Hp Hk; cbn [take_loop]; [eauto|].
  destruct peers as [|i peers]; [cbn in Hk; lia|]. apply Forall_cons_1 in Hp as [Hi Hp].
  destruct (add_commit_total s i Hs Hi) as (s' & -> & Hs' & _). cbn in Hk. apply IH; [done..|lia].
Qed.

Lemma fill_loop_total peers s c :
  members_ok s -> Forall eligible peers ->
  exists s', fill_loop l peers s c = Ret s' /\ members_ok s' /\
    forall i, commitMap s !! i = Some true -> commitMap s' !! i = Some true.
Proof.
  revert s c. induction peers as [|i peers IH]; intros s c Hs Hp; cbn [fill_loop]; [eauto|].
  apply Forall_cons_1 in Hp as [Hi Hp].
  destruct (add_commit_total s i Hs Hi) as (s' & -> & Hs' & Hmap). cbn [mbind outcome_bind].
  assert (forall j, commitMap s !! j = Some true -> commitMap s' !! j = Some true) as Hmono.
  { intros j Hj. rewrite Hmap. destruct (decide (j = Z.to_nat i)) as [->|Hne].
    - apply list_lookup_insert_eq. by apply lookup_lt_Some in Hj.
    - by rewrite list_lookup_insert_ne by done. }
  case_test; [eauto|]. destruct (IH s' (u32 (c + 1)) Hs' Hp) as (s2 & E2 & Hs2 & Hm2). eauto 10.
Qed.

(** Members other than the leader are guards. *)
Definition guards_only (s : ConsensusSubset) : Prop :=
  forall i, commitMap s !! i = Some true -> Z.of_nat i <> m_myID (lbase l) ->
    Z.of_nat i < NumOfDSGuard cfg.

Definition has_guards (peers : list Z) (s : ConsensusSubset) : Prop :=
  forall i, i ∈ peers -> i < NumOfDSGuard cfg -> commitMap s !! Z.to_nat i = Some true.

Lemma guard_loop_total peers s c non :
  members_ok s -> guards_only s -> Forall eligible peers -> Forall eligible non ->
  exists s' c' non', guard_loop cfg l peers s c non = Ret (s', c', non') /\
    members_ok s' /\ guards_only s' /\ Forall eligible non' /\
    (forall i, commitMap s !! i = Some true -> commitMap s' !! i = Some true) /\
    (c' = m_numForConsensus l \/ has_guards peers s').
Proof.
  revert s c non. induction peers as [|i peers IH]; intros s c non Hs Hg Hp Hn; cbn [guard_loop].
  { do 3 eexists. do 5 (split; [done|]). right. by intros i Hi%elem_of_nil. }
  apply Forall_cons_1 in Hp as [Hi Hp]. destruct (Z.ltb_spec i (NumOfDSGuard cfg)) as [Hlt|Hge].
  - destruct (add_commit_total s i Hs Hi) as (s' & -> & Hs' & Hmap). cbn [mbind outcome_bind].
    pose proof (lookup_lt_Some _ _ _ (proj2 Hi)) as Hil. destruct Hfull as (Hfm & _).
    destruct Hs as (Hsm & Hsp & Hsall).
    assert (commitMap s' !! Z.to_nat i = Some true) as Hin
      by (rewrite Hmap; apply list_lookup_insert_eq; lia).
    assert (forall j, commitMap s !! j = Some true -> commitMap s' !! j = Some true) as Hmono.
    { intros j Hj. destruct (decide (j = Z.to_nat i)) as [->|Hne]; [done|].
      rewrite Hmap. by rewrite list_lookup_insert_ne by done. }
    assert (guards_only s') as Hg'.
    { intros j Hj Hjme. destruct (decide (j = Z.to_nat i)) as [->|Hne]; [destruct Hi; lia|].
      rewrite Hmap, list_lookup_insert_ne in Hj by done. by apply Hg. }
    case_test; zbool; [do 3 eexists; do 5 (split; [done|]); by left|].
    destruct (IH s' (u32 (c + 1)) non Hs' Hg' Hp Hn) as (s2 & c2 & non2 & -> & H1 & H2 & H3 & H4 & H5).
    do 3 eexists. do 4 (split; [done|]). split; [auto|]. destruct H5 as [H5|H5]; [by left|right].
    intros j [->|Hj]%elem_of_cons Hjg; auto.
  - destruct (IH s c (non ++ [i]) Hs Hg Hp) as (s2 & c2 & non2 & -> & H1 & H2 & H3 & H4 & H5);
      [apply Forall_app; auto|].
    do 3 eexists. do 5 (split; [done|]). destruct H5 as [H5|H5]; [by left|right].
    intros j [->|Hj]%elem_of_cons Hjg; [lia|auto].
Qed.

(** In guard mode the first subset prefers guards. *)
Definition prefers_guards (peers : list Z) (s : ConsensusSubset) : Prop :=
  guards_only s \/ has_guards peers s.

Lemma build_subset_total i peers :
  0 <= m_myID (lbase l) < zlen (m_committee (lbase l)) ->
  1 <= m_numForConsensus l < 2 ^ 32 -> m_numForConsensus l - 1 <= zlen peers ->
  Forall eligible peers ->
  exists s, build_subset cfg l i peers = Ret s /\ members_ok s /\
    (m_DS l = true -> GUARD_MODE cfg = true -> i = 0%nat -> prefers_guards peers s).
Proof.
  intros Hme Hnum Hlen Hp. unfold build_subset.
  assert (members_ok (empty_subset l)) as He.
  { unfold members_ok, empty_subset. cbn. rewrite !length_replicate. split; [done|]. split; [done|].
    intros j [? _]%lookup_replicate. done. }
  destruct Hfull as (Hfm & Hfp & Hmein & Hcnt).
  destruct (add_commit_total _ (m_myID (lbase l)) He) as (s0 & -> & Hs0 & Hmap); [split; [lia|done]|].
  cbn [mbind outcome_bind].
  assert (guards_only s0) as Hg0.
  { intros j Hj Hjme. rewrite Hmap, list_lookup_insert_ne in Hj by lia.
    by apply lookup_replicate in Hj as [? _]. }
  case_test.
  - destruct (guard_loop_total peers s0 1 [] Hs0 Hg0 Hp) as
      (s1 & c1 & non & -> & Hs1 & Hg1 & Hnon & _ & Hend); [constructor|]. cbn [mbind outcome_bind].
    case_test; zbool.
    + destruct (fill_loop_total non s1 c1 Hs1 Hnon) as (s2 & -> & Hs2 & Hmono).
      eexists. do 2 (split; [done|]). intros _ _ _. right. destruct Hend as [|Hend]; [lia|].
      intros j Hj Hjg. by apply Hmono, Hend.
    + eexists. do 2 (split; [done|]). intros _ _ _. by left.
  - rewrite wrap_small by (unfold in_range; lia).
    destruct (take_loop_total (Z.to_nat (m_numForConsensus l - 1)) peers s0 Hs0 Hp) as (s1 & Et & Hs1);
      [unfold zlen in *; lia|].
    rewrite Et. eexists. do 2 (split; [done|]). intros Hds Hgm ->. by rewrite Hds, Hgm in *.
Qed.

Lemma build_subsets_total r n i peers :
  Random_ok r -> 0 <= m_myID (lbase l) < zlen (m_committee (lbase l)) ->
  1 <= m_numForConsensus l < 2 ^ 32 -> m_numForConsensus l - 1 <= zlen peers ->
  Forall eligible peers ->
  exists subsets, build_subsets cfg l r n i peers = Ret subsets /\ length subsets = n /\
    Forall members_ok subsets /\
    (m_DS l = true -> GUARD_MODE cfg = true -> i = 0%nat ->
     forall s, subsets !! 0%nat = Some s -> prefers_guards peers s).
Proof.
  intros Hr Hme Hnum. revert i peers. induction n as [|n IH]; intros i peers Hlen Hp;
    cbn [build_subsets]; [exists []; by split_and!|].
  destruct (build_subset_total i peers Hme Hnum Hlen Hp) as (s & -> & Hs & Hg). cbn [mbind outcome_bind].
  destruct (IH (S i) (shuffle r i peers)) as (ss & -> & Hl & Hss & _).
  - unfold zlen in *. by rewrite (Permutation_length (Hr i peers)).
  - by rewrite (Hr i peers).
  - eexists. split; [done|]. split; [cbn; by rewrite Hl|]. split; [by constructor|].
    intros Hds Hgm Hi s' Hs'. cbn in Hs'. simplify_eq. auto.
Qed.

(** C4: the subsets of committers.  When the commit tables are in order
    ([commits_full]: of the committee's size, the leader among the committers, the
    counter their number) and at least [m_numForConsensus] commits were counted,
    [GenerateConsensusSubsets] returns; it makes one subset when at most [m_numForConsensus] backups
    committed and the configured number otherwise; every subset has exactly
    [m_numForConsensus] members, the leader among them, all of which committed,
    with the points they committed; in a guarded DS committee the first subset
    consists of the leader and guards only, or contains every guard that
    committed; and the commit tables are cleared.  In a session the tables are in
    order whenever they are not cleared ([reach_commits_full]). *)
Theorem leader_forms_subsets r :
  Random_ok r ->
  0 <= m_myID (lbase l) < zlen (m_committee (lbase l)) -> 1 <= m_numForConsensus l < 2 ^ 32 ->
  (m_numForConsensus l = 1 -> zlen (m_committee (lbase l)) = 1) ->
  m_numForConsensus l <= m_commitCounter l ->
  exists subsets,
    GenerateConsensusSubsets cfg l r
      = Ret (lead_subsets (lead_commits l [] [] [] (m_commitCounter l)) subsets) /\
    length subsets = Z.to_nat (if m_commitCounter l - 1 <=? m_numForConsensus l then 1
                               else m_numOfSubsets l) /\
    Forall (fun s =>
      Z.of_nat (count_true (commitMap s)) = m_numForConsensus l /\
      commitMap s !! Z.to_nat (m_myID (lbase l)) = Some true /\
      Permutation (commitPoints s) (select (commitMap s) (commitPointMap s)) /\
      members_ok s) subsets /\
    (m_DS l = true -> GUARD_MODE cfg = true -> forall s, subsets !! 0%nat = Some s ->
     prefers_guards (committed_from 0 (m_commitMap l) (m_myID (lbase l))) s).
Proof.
  intros Hr Hme Hnum H1 Hge. pose proof Hfull as (Hfm & Hfp & Hmein & Hcnt).
  set (peers := committed_from 0 (m_commitMap l) (m_myID (lbase l))).
  assert (zlen peers = m_commitCounter l - 1) as Hlen.
  { unfold peers. rewrite committed_from_length, Hcnt, bool_decide_eq_true_2; [done|].
    rewrite Z.sub_0_r. split; [lia|done]. }
  assert (Forall eligible peers) as Hp.
  { apply Forall_forall. intros x (Hx0 & _ & Hx)%committed_from_elem. rewrite Z.sub_0_r in Hx. by split. }
  destruct (build_subsets_total r (Z.to_nat (if m_commitCounter l - 1 <=? m_numForConsensus l then 1
    else m_numOfSubsets l)) 0 peers Hr Hme Hnum ltac:(lia) Hp) as (ss & E & Hl & Hok & Hg).
  assert (GenerateConsensusSubsets cfg l r
    = Ret (lead_subsets (lead_commits l [] [] [] (m_commitCounter l)) ss)) as Egen.
  { unfold GenerateConsensusSubsets. fold peers. by rewrite Hlen, E. }
  exists ss. split; [done|]. split; [done|]. split; [|auto].
  apply (GenerateConsensusSubsets_spec cfg l r) in Egen as (ss' & Hfresh & Heq); [|done..].
  injection Heq as <-. rewrite Forall_forall in Hfresh, Hok |- *. intros s Hs.
  destruct (Hfresh s Hs) as [(_ & _ & Hperm) Hc Hm _ _ _ _ _]. auto.
Qed.

End members.

(** * Responses without the invariant *)

Section responses.
Context `{Hnf : OpenSSLNoFail}.
Context `{!Proto CommitBody unit, !Proto ResponseBody unit, !Proto ChallengeBody unit,
          !Proto CollectiveSigBody unit, !Proto bytes unit, !Proto unit unit}.
Context (cfg : Config).

(** What [round_finished] leaves alone. *)
Lemma round_finished_frame l action s l' :
  round_finished l action s = Ret l' ->
  m_consensusSubsets l' = m_consensusSubsets l /\ m_numSubsetsRunning l' = m_numSubsetsRunning l /\
  m_state (lbase l') = m_state (lbase l).
Proof.
  intros E. unfold round_finished in E. case_test_in E; [|by simplify_eq].
  apply bind_Ret in E as (m & _ & E). apply bind_Ret in E as (mp & _ & E).
  destruct (m_commitPoint _); [|done]. apply bind_Ret in E as (old & _ & E).
  apply bind_Ret in E as (pm & _ & E). by simplify_eq.
Qed.

(** One entry of a response message: the leader stays where it is or finishes
    the round; the number of running subsets does not change. *)
Lemma response_update_frame l r action type next id sid si f l' eff :
  response_round action next ->
  response_update cfg l r action type next id sid si = Ret (f, l', eff) ->
  m_numSubsetsRunning l' = m_numSubsetsRunning l /\
  (m_state (lbase l') = m_state (lbase l) \/ m_state (lbase l') = next).
Proof.
  intros Hround E. unfold response_update, complete_round in E.
  destruct (CheckState l action) eqn:Hcs; cbn [negb] in E; [|simplify_eq; auto].
  apply bind_Ret in E as (allowed & Ea & E).
  destruct allowed; cbn [negb] in E; [|simplify_eq; auto].
  apply CheckStateSubset_states in Ea as (s & Hs & Hsid & Hact).
  apply bind_Ret in E as (s' & Es & E). apply at_Ret in Es as [_ Es]. rewrite Hs in Es. simplify_eq.
  apply bind_Ret in E as (s1 & E1 & E). apply bind_Ret in E as (ss & Ess & E).
  apply at_set_Ret in Ess as [_ ->]. case_test_in E; [simplify_eq; auto|].
  apply bind_Ret in E as ([[ok msg] l2] & E2 & E).
  assert (subset_state s1 = subset_state s') as Hst1.
  { unfold record_response in E1. apply bind_Ret in E1 as (? & _ & E1).
    apply bind_Ret in E1 as (? & _ & E1). apply bind_Ret in E1 as (? & _ & E1). by simplify_eq. }
  apply lookup_lt_Some in Hs as Hlt.
  apply (GenerateCollectiveSig_cases _ _ _ _ _ s1) in E2;
    [|cbn; by apply list_lookup_insert_eq|done].
  destruct E2 as [(-> & s2 & -> & _)|(-> & sg & key & _ & _ & ->)]; cbn [negb] in E;
    [simplify_eq; auto|].
  apply bind_Ret in E as (l3 & E3 & E). eapply SetStateSubset_inv in E3;
    [|cbn; apply list_lookup_insert_eq; by rewrite length_insert].
  cbn in E3. rewrite !list_insert_insert_eq in E3.
  assert (next_subset_state (subset_state s1) next = next) as Hnext.
  { rewrite Hst1. destruct Hround as [[-> ->]|[-> ->]], Hact as [[? Hss]|[? Hss]]; try done;
      rewrite Hss; done. }
  rewrite Hnext in E3. apply bind_Ret in E as (s3 & E4 & E). apply at_Ret in E4 as [_ E4].
  rewrite E3 in E4. cbn in E4. rewrite list_lookup_insert_eq in E4 by done.
  simplify_eq. apply bind_Ret in E as (l4 & E5 & E). apply bind_Ret in E as (l5 & E6 & E). simplify_eq.
  apply round_finished_frame in E5 as (Hss & Hrun & Hstate). cbn in Hss, Hrun.
  unfold SubsetEnded in E6. rewrite Hss in E6. apply bind_Ret in E6 as (s4 & E7 & E6).
  apply at_Ret in E7 as [_ E7]. rewrite list_lookup_insert_eq in E7 by done. simplify_eq.
  cbn [subset_state sub_state] in E6.
  assert (bool_decide (next = COLLECTIVESIG_DONE) || bool_decide (next = DONE) = true) as Hd
    by (destruct Hround as [[_ ->]|[_ ->]]; done).
  rewrite Hd in E6. simplify_eq. cbn. auto.
Qed.

Lemma response_loop_frame l r action type next id sid infos res l' eff :
  response_round action next ->
  response_loop cfg l r action type next id sid infos = Ret (res, l', eff) ->
  m_numSubsetsRunning l' = m_numSubsetsRunning l /\
  (m_state (lbase l') = m_state (lbase l) \/ m_state (lbase l') = next).
Proof.
  intros Hround. revert l sid res l' eff. induction infos as [|si infos IH];
    intros l sid res l' eff E; cbn [response_loop] in E; [simplify_eq; auto|].
  apply bind_Ret in E as (go & _ & E). destruct go; cbn [negb] in E; [|eauto].
  apply bind_Ret in E as ([[f l1] eff1] & E1 & E).
  apply response_update_frame in E1 as [Hr1 Hs1]; [|done]. destruct f; [|by simplify_eq..].
  apply bind_Ret in E as ([[res2 l2] eff2] & E2 & E). simplify_eq.
  apply IH in E2 as [Hr2 Hs2]. split; [congruence|].
  destruct Hs2 as [Hs2|Hs2]; [|auto]. rewrite Hs2. done.
Qed.

(** Subsets that have failed take no response. *)
Lemma response_loop_failed l r action type next id sid infos :
  0 <= sid -> sid + zlen infos <= zlen (m_consensusSubsets l) ->
  Forall (fun s => subset_state s = ERROR) (m_consensusSubsets l) ->
  response_loop cfg l r action type next id sid infos = Ret (true, l, []).
Proof.
  intros Hsid Hlen Hall. revert sid Hsid Hlen.
  induction infos as [|si infos IH]; intros sid Hsid Hlen; cbn [response_loop]; [done|].
  change (zlen (si :: infos)) with (Z.of_nat (S (length infos))) in Hlen.
  destruct (at_some (m_consensusSubsets l) sid) as (s & Hs & Hl); [lia|].
  unfold response_check, CheckStateSubset. rewrite Hs. cbn [mbind outcome_bind].
  rewrite Forall_lookup in Hall. rewrite (Hall _ _ Hl).
  assert (existsb (fun p => bool_decide (p.1 = ERROR) && bool_decide (p.2 = action))
            SUBSET_ACTIONS_FOR_STATE = false) as -> by (by destruct action).
  cbn [negb mbind outcome_bind]. apply IH; [lia|unfold zlen in *; lia].
Qed.

(** a failed subset does not fail the session.  Handling a response message
    (of either round) leaves the number of running subsets as it is and the
    leader in its state or in the state that ends the round: the branch of
    [SubsetEnded] that counts failed subsets down and enters [ERROR] after the
    last one is never taken, whatever the messages.  Once all subsets are in
    [ERROR], no response message changes anything: the session stays in the
    challenged state. *)
Theorem failed_subsets_never_end_session l r m o from res l' eff :
  ProcessMessageResponse cfg l r m o from = Ret (res, l', eff) \/
  ProcessMessageFinalResponse cfg l r m o from = Ret (res, l', eff) ->
  m_numSubsetsRunning l' = m_numSubsetsRunning l /\
  (m_state (lbase l') = m_state (lbase l) \/ m_state (lbase l') = COLLECTIVESIG_DONE \/
   m_state (lbase l') = DONE) /\
  (Forall (fun s => subset_state s = ERROR) (m_consensusSubsets l) -> l' = l /\ eff = []).
Proof.
  assert (forall action type next, response_round action next ->
    ProcessMessageResponseCore cfg l r m o action type next from = Ret (res, l', eff) ->
    m_numSubsetsRunning l' = m_numSubsetsRunning l /\
    (m_state (lbase l') = m_state (lbase l) \/ m_state (lbase l') = next) /\
    (Forall (fun s => subset_state s = ERROR) (m_consensusSubsets l) -> l' = l /\ eff = [])) as Hcore.
  { intros action type next Hround E. unfold ProcessMessageResponseCore in E.
    case_test_in E; [by simplify_eq; auto|].
    apply bind_Ret in E as ([[id infos]|] & _ & E); [|by simplify_eq; auto].
    apply bind_Ret in E as (node & _ & E). case_test_in E; [by simplify_eq; auto|].
    destruct (Z.gtb_spec (zlen infos) (zlen (m_consensusSubsets l))); [by simplify_eq; auto|].
    pose proof E as E'. apply response_loop_frame in E' as [Hr Hs]; [|done]. split; [done|].
    split; [done|]. intros Hall. rewrite response_loop_failed in E; [by simplify_eq|lia..|done]. }
  intros [E|E].
  - apply Hcore in E as (? & ? & ?); [|by left]. tauto.
  - apply Hcore in E as (? & ? & ?); [|by right]. tauto.
Qed.

End responses.

(** * A session led by an honest leader *)

Section session.
Context `{Hnf : OpenSSLNoFail}.
Context `{!Proto CommitBody unit, !Proto ResponseBody unit, !Proto ChallengeBody unit,
          !Proto CollectiveSigBody unit, !Proto bytes unit, !Proto unit unit}.
Context (cfg : Config).

(** The leader is constructed for its place in a committee of at most 1000
    nodes, with the private key of that place; [k] is its commit secret. *)
Record session (k d : Z) (committee : DequeOfNode) (l0 : ConsensusLeader) : Prop := {
  session_new : exists draws cid bn bh id cb ib sh ds peer,
    ConsensusLeader_new cfg draws cid bn bh id (mkPrivKey d) committee cb ib sh ds = Ret l0 /\
    CommitSecret_new 0 draws = Some (mkObj k true) /\
    0 <= id /\ committee !! Z.to_nat id = Some (PubKey_from_priv (mkPrivKey d), peer);
  session_size : 1 <= zlen committee <= 1000;
  session_key : 0 < d < m_order
}.

Lemma leader_run_inv k d com l l' :
  rtc (leader_step cfg) l l' -> leader_inv k d com l -> leader_inv k d com l'.
Proof. induction 1 as [|l1 l2 l3 Hstep _ IH]; [done|]. intros. apply IH. by eapply leader_step_inv. Qed.

Context (k d : Z) (committee : DequeOfNode) (l0 : ConsensusLeader).
Context (Hsession : session k d committee l0).

Lemma reach_leader_inv l : rtc (leader_step cfg) l0 l -> leader_inv k d committee l.
Proof.
  destruct Hsession as [(draws & cid & bn & bh & id & cb & ib & sh & ds & peer & E & Hk & Hid & Hpub) Hsz Hd].
  intros Hrun. apply (leader_run_inv _ _ _ _ _ Hrun).
  exact (ConsensusLeader_new_inv cfg _ _ _ _ _ _ _ _ _ _ _ _ _ _ E Hk Hsz Hd Hid Hpub).
Qed.

(** The hypothesis of the subsets of committers: whatever messages came, the tables of a
    leader in a session are cleared or in order. *)
Lemma reach_commits_full l : rtc (leader_step cfg) l0 l -> m_commitMap l <> [] -> commits_full l.
Proof. intros Hrun Hne. by destruct (inv_commits _ _ _ _ (reach_leader_inv l Hrun)) as [[Hnil _]|[Hfull _]]. Qed.

(** C2: a decision of the leader is certified, twice.  In every state a leader
    can reach (any messages, any timing of the commit windows): if it is [DONE],
    its second bit map has exactly [NumForConsensus] members of the committee and
    its second collective signature verifies under their aggregated key over the
    message to co-sign; and from the end of the first round on, the same holds of
    the first bit map and signature over the first message, and the message of
    the second round is the first one with that signature and bit map appended. *)
Theorem leader_decides_certified l :
  rtc (leader_step cfg) l0 l ->
  let c := lbase l in
  let num := NumForConsensus (zlen committee) in
  m_committee c = committee /\
  (m_state c = DONE -> certificate c num (m_B2 c) (m_CS2 c) (m_messageToCosign c)) /\
  (m_state c = COLLECTIVESIG_DONE \/ m_state c = FINALCHALLENGE_DONE \/ m_state c = DONE ->
   exists m0, certificate c num (m_B1 c) (m_CS1 c) m0 /\
     append_round1 m0 (m_CS1 c) (m_B1 c) = Ret (m_messageToCosign c)).
Proof.
  intros Hrun c num. destruct (reach_leader_inv l Hrun) as [Hst _ _ Hsi].
  pose proof (static_committee _ _ _ _ Hst) as Hcom. pose proof (static_num _ _ _ _ Hst) as Hnum.
  rewrite Hcom in Hnum. fold num c in Hnum, Hcom, Hsi. rewrite Hnum in Hsi. split; [done|].
  unfold state_inv in Hsi. split.
  - intros Hd. rewrite Hd in Hsi. apply Hsi.
  - intros [Hd|[Hd|Hd]]; rewrite Hd in Hsi; apply Hsi.
Qed.

(** the state machine of the leader.  Every step of a reachable leader keeps
    its state, falls back to [INITIAL] (consensus failure) or [ERROR] (too few
    commits, no challenge message), or follows the order announce, challenge,
    collective signature, final challenge, done. *)
Theorem leader_transitions l l' :
  rtc (leader_step cfg) l0 l -> leader_step cfg l l' ->
  leader_edge (m_state (lbase l)) (m_state (lbase l')).
Proof. intros Hrun Hstep. eapply leader_step_inv; [by apply reach_leader_inv|done]. Qed.

(** Challenged subsets of a reachable leader. *)
Lemma reach_live l action next sid s :
  rtc (leader_step cfg) l0 l -> response_round action next -> CheckState l action = true ->
  m_consensusSubsets l !! Z.to_nat sid = Some s ->
  (action = PROCESS_RESPONSE /\ subset_state s = CHALLENGE_DONE) \/
  (action = PROCESS_FINALRESPONSE /\ subset_state s = FINALCHALLENGE_DONE) ->
  live_subset (lbase l) (m_numForConsensus l) s.
Proof.
  intros Hrun Hround Hcs Hs Hact. destruct (reach_leader_inv l Hrun) as [_ _ _ Hsi].
  apply CheckState_leader in Hcs. unfold state_inv in Hsi.
  destruct Hact as [[-> Hss]|[-> Hss]]; rewrite Hcs in Hsi.
  - rewrite Forall_lookup in Hsi. apply (Hsi _ _ Hs). congruence.
  - destruct Hsi as [Hsi _]. rewrite Forall_lookup in Hsi. apply (Hsi _ _ Hs). congruence.
Qed.

(** A signature that verifies has scalars of the group's range. *)
Lemma MultiSigVerify_range m sg key :
  MultiSigVerify m sg key = true -> 0 <= m_r sg < 2 ^ 256 /\ 0 <= m_s sg < 2 ^ 256.
Proof.
  pose proof order_bound. unfold MultiSigVerify, MultiSigVerifyRange, verify_core. intros E.
  destruct (message_ok _ _ _); [|done]. cbn [negb] in E. rewrite alloc_true in E. cbn [negb] in E.
  destruct (scalar_out_of_range (m_r sg)) eqn:Er; [done|].
  destruct (scalar_out_of_range (m_s sg)) eqn:Es; [done|].
  apply scalar_in_range in Er, Es. lia.
Qed.

(** Extending the message for the second round. *)
Lemma append_round1_some m sg bm :
  0 <= m_r sg < 2 ^ 256 -> 0 <= m_s sg < 2 ^ 256 -> zlen m + 2 ^ 17 < 2 ^ 32 -> zlen bm < 2 ^ 16 ->
  exists m', append_round1 m sg bm = Ret m'.
Proof.
  intros Hr Hs Hm Hb. pose proof (zlen_nonneg m). unfold append_round1.
  rewrite (wrap_small 32 (zlen m)) by (unfold in_range; lia).
  pose proof (Signature_written sg m [] Hr Hs ltac:(lia)) as Hw. rewrite app_nil_r in Hw. rewrite Hw.
  rewrite drop_nil, app_nil_r.
  assert (zlen (m ++ be_split 32 (m_r sg) ++ be_split 32 (m_s sg)) = zlen m + 64) as Hl
    by (rewrite !zlen_app, !zlen_be_split; lia).
  rewrite (wrap_small 32) by (unfold in_range; lia).
  destruct (BitVector.SetBitVector_spec (m ++ be_split 32 (m_r sg) ++ be_split 32 (m_s sg))
    (zlen (m ++ be_split 32 (m_r sg) ++ be_split 32 (m_s sg))) bm) as (m' & -> & _); [lia..|eauto].
Qed.

(** The pieces of the locked section, when they succeed. *)
Lemma record_response_ok s id si :
  0 <= id < zlen (responseMap s) -> 0 <= id < zlen (responseDataMap s) ->
  0 <= responseCounter s + 1 < 2 ^ 32 ->
  exists dm, record_response s id si = Ret (sub_response s (responseData s ++ [Response_copy (response si)])
    dm (<[Z.to_nat id := true]> (responseMap s)) (responseCounter s + 1)) /\
    zlen dm = zlen (responseDataMap s).
Proof.
  intros Hm Hd Hc. unfold record_response.
  destruct (at_some (responseDataMap s) id Hd) as (old & -> & _). cbn [mbind outcome_bind].
  rewrite (at_set_some (responseDataMap s)), (at_set_some (responseMap s)) by done.
  cbn [mbind outcome_bind]. rewrite wrap_small by done. eexists. split; [done|]. apply zlen_insert.
Qed.

Lemma SetStateSubset_ok l sid st s :
  0 <= sid -> m_consensusSubsets l !! Z.to_nat sid = Some s ->
  SetStateSubset l sid st = Ret (lead_subsets l
    (<[Z.to_nat sid := sub_state s (next_subset_state (subset_state s) st)]> (m_consensusSubsets l))).
Proof.
  intros Hsid Hs. unfold SetStateSubset. rewrite (at_lookup _ _ _ Hsid Hs). cbn [mbind outcome_bind].
  apply lookup_lt_Some in Hs. by rewrite at_set_some by (unfold zlen; lia).
Qed.

Lemma GenerateCollectiveSig_ok l r msg sid s num sigmsg :
  0 <= sid -> m_consensusSubsets l !! Z.to_nat sid = Some s ->
  live_subset (lbase l) num s -> responseCounter s = num -> 1 <= num ->
  let c := lbase l in
  let agg := AggregateResponses (responseData s) in
  let sg := AggregateSign (subset_challenge s) agg in
  val (subset_challenge s) <> 0 -> val agg <> 0 ->
  SetConsensusCollectiveSig (nonces r) msg (BODY + 1) (m_consensusID c)
    (m_blockNumber c) (m_blockHash c) (m_myID c) sg (responseMap s) (my_key c) = Ret (true, sigmsg) ->
  GenerateCollectiveSigMessage l r msg (BODY + 1) sid
    = Ret (true, sigmsg, lead_base (lead_subsets l
        (<[Z.to_nat sid := sub_collectiveSig s sg]> (m_consensusSubsets l))) (with_collectiveSig c sg)) /\
  0 <= m_r sg < 2 ^ 256 /\ 0 <= m_s sg < 2 ^ 256.
Proof.
  intros Hsid Hs Hlive Hfull Hnum c agg sg Hch Hagg Hset. unfold GenerateCollectiveSigMessage.
  rewrite (at_lookup _ _ _ Hsid Hs). cbn [mbind outcome_bind].
  destruct (live_collective _ _ _ Hlive Hfull Hnum) as (Hin & key & Hk & Hv). fold agg in Hin, Hv |- *.
  specialize (Hv Hch Hagg). fold sg in Hv |- *. rewrite Hin. cbn [negb]. fold c in Hk, Hv |- *.
  rewrite Hk. cbn [mbind outcome_bind]. apply lookup_lt_Some in Hs.
  rewrite at_set_some by (unfold zlen; lia). cbn [mbind outcome_bind]. rewrite Hv. cbn [negb].
  rewrite Hset. split; [done|]. by apply (MultiSigVerify_range (m_messageToCosign c) sg key).
Qed.

Lemma round_finished_ok com l action s :
  leader_static k d com l -> zlen (m_messageToCosign (lbase l)) + 2 ^ 17 < 2 ^ 32 ->
  0 <= m_r (collectiveSig s) < 2 ^ 256 -> 0 <= m_s (collectiveSig s) < 2 ^ 256 ->
  length (responseMap s) = length (m_committee (lbase l)) ->
  exists l', round_finished l action s = Ret l' /\ m_committee (lbase l') = m_committee (lbase l).
Proof.
  intros Hst Hm Hr Hs Hl. pose proof (static_size _ _ _ _ Hst) as Hsz.
  pose proof (static_me _ _ _ _ Hst) as Hme. unfold round_finished. case_bool_decide; [|by eexists].
  destruct (append_round1_some (m_messageToCosign (lbase l)) (collectiveSig s) (responseMap s)) as [m' ->];
    [done..|unfold zlen in *; lia|]. cbn [mbind outcome_bind].
  cbn [m_myID m_commitPoint with_round1 with_messageToCosign].
  rewrite at_set_some by (unfold zlen in *; rewrite length_replicate; lia). cbn [mbind outcome_bind].
  rewrite (static_point _ _ _ _ Hst).
  destruct (at_some (resize (length (m_committee (lbase l))) CommitPoint_default (m_commitPointMap l))
    (m_myID (lbase l))) as (old & -> & _); [unfold zlen in *; rewrite length_resize; lia|].
  cbn [mbind outcome_bind].
  rewrite at_set_some by (unfold zlen in *; rewrite length_resize; lia). cbn [mbind outcome_bind]. eauto.
Qed.

Lemma reset_others_lookup sid i ss j s :
  reset_others sid i ss !! j = Some s -> Z.of_nat j + i <> sid -> subset_state s = INITIAL.
Proof.
  revert i j. induction ss as [|s0 ss IH]; intros i [|j] Hs Hne; cbn in Hs; try done.
  - destruct (Z.eqb_spec i sid); [lia|]. by simplify_eq.
  - apply (IH (i + 1) j); [done|lia].
Qed.

Lemma SubsetEnded_ok l sid s :
  0 <= sid -> m_consensusSubsets l !! Z.to_nat sid = Some s ->
  subset_state s = COLLECTIVESIG_DONE \/ subset_state s = DONE ->
  SubsetEnded l sid = Ret (set_mstate (lead_subsets l (reset_others sid 0 (m_consensusSubsets l)))
                             (subset_state s)).
Proof.
  intros Hsid Hs Hst. unfold SubsetEnded. rewrite (at_lookup _ _ _ Hsid Hs). cbn [mbind outcome_bind].
  destruct Hst as [-> | ->]; done.
Qed.

(** A subset with all its responses. *)
Lemma complete_round_ok l r action type next sid s sigmsg :
  leader_static k d committee l -> response_round action next ->
  zlen (m_messageToCosign (lbase l)) + 2 ^ 17 < 2 ^ 32 ->
  0 <= sid -> m_consensusSubsets l !! Z.to_nat sid = Some s ->
  (action = PROCESS_RESPONSE /\ subset_state s = CHALLENGE_DONE) \/
  (action = PROCESS_FINALRESPONSE /\ subset_state s = FINALCHALLENGE_DONE) ->
  live_subset (lbase l) (m_numForConsensus l) s -> responseCounter s = m_numForConsensus l ->
  let c := lbase l in
  let agg := AggregateResponses (responseData s) in
  let sg := AggregateSign (subset_challenge s) agg in
  val (subset_challenge s) <> 0 -> val agg <> 0 ->
  SetConsensusCollectiveSig (nonces r) (message_header c type) (BODY + 1) (m_consensusID c)
    (m_blockNumber c) (m_blockHash c) (m_myID c) sg (responseMap s) (my_key c) = Ret (true, sigmsg) ->
  exists l' eff, complete_round cfg l r action type next sid = Ret (Break, l', eff) /\
    m_state (lbase l') = next /\
    (forall i s', i <> Z.to_nat sid -> m_consensusSubsets l' !! i = Some s' -> subset_state s' = INITIAL) /\
    head eff = Some (if BROADCAST_GOSSIP_MODE cfg then SpreadRumor sigmsg
                     else SendMessage (snd <$> committee) sigmsg).
Proof.
  intros Hst Hround Hmsg Hsid Hs Hact Hlive Hfull c agg sg Hch Hagg Hset. apply lookup_lt_Some in Hs as Hlt.
  destruct (static_num_bounds _ _ _ _ Hst) as (Hnum & _ & _). unfold complete_round.
  destruct (GenerateCollectiveSig_ok l r (message_header (lbase l) type) sid s (m_numForConsensus l)
    sigmsg Hsid Hs Hlive Hfull ltac:(lia) Hch Hagg Hset) as [Egen [Hr Hs256]].
  rewrite Egen. cbn [negb mbind outcome_bind]. fold agg sg c in Hr, Hs256 |- *.
  rewrite (SetStateSubset_ok _ _ _ (sub_collectiveSig s sg)) by
    (done || (cbn; by apply list_lookup_insert_eq)).
  cbn [mbind outcome_bind m_consensusSubsets lead_subsets lead_base subset_state sub_collectiveSig].
  rewrite list_insert_insert_eq.
  assert (next_subset_state (subset_state s) next = next) as Hnext
    by (destruct Hround as [[-> ->]|[-> ->]], Hact as [[? Hss]|[? Hss]]; try done; rewrite Hss; done).
  rewrite Hnext. set (s2 := sub_state (sub_collectiveSig s sg) next). set (l2 := set_mstate _ next).
  assert (m_consensusSubsets l2 !! Z.to_nat sid = Some s2) as Hs2
    by (cbn; by apply list_lookup_insert_eq).
  rewrite (at_lookup _ _ _ Hsid Hs2). cbn [mbind outcome_bind].
  assert (leader_static k d committee l2) as Hst2 by (destruct Hst; by split).
  destruct (round_finished_ok committee l2 action s2 Hst2 Hmsg Hr Hs256) as (l3 & E3 & Hcom3);
    [apply (live_lengths _ _ _ Hlive)|].
  rewrite E3. cbn [mbind outcome_bind]. apply round_finished_frame in E3 as (Hss3 & _ & _).
  rewrite (SubsetEnded_ok l3 sid s2) by (done || (by rewrite Hss3) || (destruct Hround as [[_ ->]|[_ ->]]; auto)).
  cbn [mbind outcome_bind]. do 2 eexists. split; [done|]. split; [done|]. split.
  - intros i s' Hi Hs'. cbn in Hs'. eapply reset_others_lookup; [exact Hs'|lia].
  - cbn. rewrite Hcom3. cbn. unfold c. by rewrite (static_committee _ _ _ _ Hst).
Qed.

(** C5: the last response completes the round.  When a checked response is the
    last one a subset of a reachable leader needs, and neither the challenge nor
    the aggregated response is zero and the message can be signed, then the
    locked section of the response handler ends the round: the collective
    signature verifies, the leader enters [COLLECTIVESIG_DONE] or [DONE], every
    other subset is reset to [INITIAL], and the signed message is the first
    effect. *)
Theorem leader_round_completes l r action type next id sid si s sigmsg :
  rtc (leader_step cfg) l0 l -> response_round action next -> CheckState l action = true ->
  0 <= id < zlen committee -> zlen (m_messageToCosign (lbase l)) + 2 ^ 17 < 2 ^ 32 ->
  m_consensusSubsets l !! Z.to_nat sid = Some s ->
  response_check l action id sid si = Ret true ->
  responseCounter s + 1 = m_numForConsensus l ->
  let c := lbase l in
  let agg := AggregateResponses (responseData s ++ [Response_copy (response si)]) in
  let sg := AggregateSign (subset_challenge s) agg in
  let bm := <[Z.to_nat id := true]> (responseMap s) in
  val (subset_challenge s) <> 0 -> val agg <> 0 ->
  SetConsensusCollectiveSig (nonces r) (message_header c type) (BODY + 1) (m_consensusID c)
    (m_blockNumber c) (m_blockHash c) (m_myID c) sg bm (my_key c) = Ret (true, sigmsg) ->
  exists l' eff, response_update cfg l r action type next id sid si = Ret (Break, l', eff) /\
    m_state (lbase l') = next /\
    (forall i s', i <> Z.to_nat sid -> m_consensusSubsets l' !! i = Some s' -> subset_state s' = INITIAL) /\
    head eff = Some (if BROADCAST_GOSSIP_MODE cfg then SpreadRumor sigmsg
                     else SendMessage (snd <$> committee) sigmsg).
Proof.
  intros Hrun Hround Hcs Hid Hmsg Hs Hchk Hctr c agg sg bm Hch Hagg Hset.
  pose proof (reach_leader_inv l Hrun) as [Hst _ _ _].
  destruct (static_num_bounds _ _ _ _ Hst) as (Hnum & H32 & _).
  pose proof (static_committee _ _ _ _ Hst) as Hcom. rewrite <- Hcom in Hid.
  apply response_check_spec in Hchk as (s' & p & Hs' & Hsid & Hact & Hcm & Hrm & Hp & Hv); [|lia].
  rewrite Hs in Hs'. injection Hs' as <-.
  pose proof (reach_live l action next sid s Hrun Hround Hcs Hs Hact) as Hlive.
  destruct (live_lengths _ _ _ Hlive) as [Hlm Hld].
  destruct (record_response_ok s id si ltac:(unfold zlen in *; lia) ltac:(unfold zlen in *; lia)
    ltac:(lia)) as (dm & Erec & _).
  set (s1 := sub_response _ _ _ _ _) in Erec.
  destruct (at_some (m_committee (lbase l)) id Hid) as (node & _ & Hnode).
  rewrite (GetCommitteeMember_lookup _ _ node) in Hv by (done || lia).
  destruct (record_response_live (lbase l) (m_numForConsensus l) s id si s1 node Hlive ltac:(lia)
    ltac:(pose proof (static_size _ _ _ _ Hst); lia) Hnode Hcm Hrm ltac:(eauto) Erec) as (Hlive1 & Hst1 & _).
  apply lookup_lt_Some in Hs as Hlt. unfold response_update. rewrite Hcs. cbn [negb].
  unfold CheckStateSubset. rewrite (at_lookup _ _ _ Hsid Hs). cbn [mbind outcome_bind].
  assert (existsb (fun p => bool_decide (p.1 = subset_state s) && bool_decide (p.2 = action))
            SUBSET_ACTIONS_FOR_STATE = true) as ->
    by (destruct Hact as [[-> ->]|[-> ->]]; done).
  cbn [negb mbind outcome_bind]. rewrite Erec. cbn [mbind outcome_bind].
  rewrite at_set_some by (unfold zlen; lia). cbn [mbind outcome_bind].
  set (l1 := lead_subsets l (<[Z.to_nat sid:=s1]> (m_consensusSubsets l))).
  assert ((responseCounter s1 =? m_numForConsensus l1) = true) as -> by (apply Z.eqb_eq; exact Hctr).
  cbn [negb]. apply (complete_round_ok l1 r action type next sid s1); try done.
  - destruct Hst. by split.
  - cbn. by apply list_lookup_insert_eq.
Qed.

(** A response that does not complete the count. *)
Lemma response_update_counts l r action type next id sid si s :
  CheckState l action = true -> 0 <= sid -> m_consensusSubsets l !! Z.to_nat sid = Some s ->
  (action = PROCESS_RESPONSE /\ subset_state s = CHALLENGE_DONE) \/
  (action = PROCESS_FINALRESPONSE /\ subset_state s = FINALCHALLENGE_DONE) ->
  0 <= id < zlen (responseMap s) -> zlen (responseDataMap s) = zlen (responseMap s) ->
  0 <= responseCounter s + 1 < 2 ^ 32 -> responseCounter s + 1 <> m_numForConsensus l ->
  exists s', response_update cfg l r action type next id sid si
      = Ret (Continue, lead_subsets l (<[Z.to_nat sid := s']> (m_consensusSubsets l)), []) /\
    responseMap s' = <[Z.to_nat id := true]> (responseMap s) /\
    zlen (responseDataMap s') = zlen (responseDataMap s) /\
    responseCounter s' = responseCounter s + 1 /\ subset_state s' = subset_state s /\
    commitMap s' = commitMap s.
Proof.
  intros Hcs Hsid Hs Hact Hid Hl Hc Hne. unfold response_update, CheckStateSubset. rewrite Hcs.
  rewrite (at_lookup _ _ _ Hsid Hs). cbn [negb mbind outcome_bind].
  assert (existsb (fun p => bool_decide (p.1 = subset_state s) && bool_decide (p.2 = action))
            SUBSET_ACTIONS_FOR_STATE = true) as ->
    by (destruct Hact as [[-> ->]|[-> ->]]; done).
  destruct (record_response_ok s id si Hid ltac:(lia) Hc) as (dm & -> & Hdm).
  apply lookup_lt_Some in Hs. cbn [negb mbind outcome_bind].
  rewrite at_set_some by (unfold zlen; lia). cbn [mbind outcome_bind responseCounter sub_response].
  change (m_numForConsensus (lead_subsets _ _)) with (m_numForConsensus l).
  destruct (Z.eqb_spec (responseCounter s + 1) (m_numForConsensus l)); [done|]. cbn [negb].
  eexists. split; [done|]. done.
Qed.

(** One response can be counted twice.  The check that a backup has not
    responded yet is made before the lock is taken and is not repeated: if two
    threads handle the same response of a reachable leader's backup and both pass
    the checks, both locked sections run.  After them the counter of the subset
    is one more than the number of backups that responded (it equals that number
    in every reachable state), although the check would refuse the second. *)
Theorem duplicate_response_counted_twice l r1 r2 action type next id sid si s :
  rtc (leader_step cfg) l0 l -> response_round action next -> CheckState l action = true ->
  0 <= id < zlen committee -> m_consensusSubsets l !! Z.to_nat sid = Some s ->
  response_check l action id sid si = Ret true ->
  responseCounter s + 1 <> m_numForConsensus l -> responseCounter s + 2 <> m_numForConsensus l ->
  responseCounter s = Z.of_nat (count_true (responseMap s)) /\
  exists l1 l2 s2,
    response_update cfg l r1 action type next id sid si = Ret (Continue, l1, []) /\
    response_check l1 action id sid si = Ret false /\
    response_update cfg l1 r2 action type next id sid si = Ret (Continue, l2, []) /\
    m_consensusSubsets l2 !! Z.to_nat sid = Some s2 /\
    responseCounter s2 = Z.of_nat (count_true (responseMap s2)) + 1.
Proof.
  intros Hrun Hround Hcs Hid Hs Hchk Hn1 Hn2. pose proof (reach_leader_inv l Hrun) as [Hst _ _ _].
  pose proof (static_committee _ _ _ _ Hst) as Hcom. pose proof (static_size _ _ _ _ Hst) as Hsz.
  apply response_check_spec in Hchk as (s' & p & Hs' & Hsid & Hact & Hcm & Hrm & Hp & Hv); [|lia].
  rewrite Hs in Hs'. injection Hs' as <-.
  pose proof (reach_live l action next sid s Hrun Hround Hcs Hs Hact) as Hlive.
  destruct (live_lengths _ _ _ Hlive) as [Hlm Hld]. pose proof (live_counter _ _ _ Hlive) as Hctr.
  pose proof (count_true_le_length (responseMap s)) as Hle. rewrite <- Hcom in Hid. unfold zlen in Hsz, Hid.
  destruct (response_update_counts l r1 action type next id sid si s) as
    (s1 & E1 & Hm1 & Hd1 & Hc1 & Hs1 & Hcm1); try done; try (unfold zlen; lia).
  set (l1 := lead_subsets l _) in E1. apply lookup_lt_Some in Hs as Hlt.
  assert (m_consensusSubsets l1 !! Z.to_nat sid = Some s1) as Hs1' by (cbn; by apply list_lookup_insert_eq).
  destruct (response_update_counts l1 r2 action type next id sid si s1) as
    (s2 & E2 & Hm2 & Hd2 & Hc2 & Hs2 & _); try done; rewrite ?Hs1, ?Hm1, ?zlen_insert;
    try (unfold zlen in *; rewrite ?length_insert; lia); try done.
  { change (m_numForConsensus l1) with (m_numForConsensus l). lia. }
  split; [done|]. exists l1, (lead_subsets l1 (<[Z.to_nat sid:=s2]> (m_consensusSubsets l1))), s2.
  split; [exact E1|]. split; [|split; [exact E2|split]].
  - unfold response_check, CheckStateSubset. rewrite (at_lookup _ _ _ Hsid Hs1'). cbn [mbind outcome_bind].
    case_test; [done|]. case_test; [done|].
    rewrite (at_lookup (commitMap s1) id true) by (rewrite ?Hcm1; done || lia). cbn [mbind outcome_bind negb].
    rewrite (at_lookup (responseMap s1) id true); [done|lia|].
    rewrite Hm1. apply list_lookup_insert_eq. lia.
  - cbn. by apply list_lookup_insert_eq; rewrite length_insert.
  - rewrite Hc2, Hc1, Hm2, Hm1, list_insert_insert_eq, count_true_insert_false by done. lia.
Qed.

(** honest members are counted.  The response that an honest member of a
    challenged subset computes from the challenge of that subset (with the secret
    behind the point it committed and the key behind its committee entry) passes
    every check of a reachable leader, unless it is zero; and unless it is the
    last one needed, the locked section counts it. *)
Theorem honest_response_counted l r action type next id sid s k' d' peer :
  rtc (leader_step cfg) l0 l -> response_round action next -> CheckState l action = true ->
  0 <= id -> 0 <= sid -> m_consensusSubsets l !! Z.to_nat sid = Some s ->
  (action = PROCESS_RESPONSE /\ subset_state s = CHALLENGE_DONE) \/
  (action = PROCESS_FINALRESPONSE /\ subset_state s = FINALCHALLENGE_DONE) ->
  commitMap s !! Z.to_nat id = Some true -> responseMap s !! Z.to_nat id = Some false ->
  0 < d' < m_order -> committee !! Z.to_nat id = Some (PubKey_from_priv (mkPrivKey d'), peer) ->
  commitPointMap s !! Z.to_nat id = Some (CommitPoint_from_secret (mkObj k' true)) ->
  let si := mkResponseSubsetInfo (Response_new (mkObj k' true) (subset_challenge s) (mkPrivKey d')) in
  val (response si) <> 0 ->
  response_check l action id sid si = Ret true /\
  (responseCounter s + 1 <> m_numForConsensus l ->
   exists l' s', response_update cfg l r action type next id sid si = Ret (Continue, l', []) /\
     m_consensusSubsets l' !! Z.to_nat sid = Some s' /\
     responseCounter s' = responseCounter s + 1 /\ responseMap s' !! Z.to_nat id = Some true).
Proof.
  intros Hrun Hround Hcs Hid Hsid Hs Hact Hcm Hrm Hd Hpub Hpt si Hnz.
  pose proof (reach_live l action next sid s Hrun Hround Hcs Hs Hact) as Hlive.
  destruct (reach_leader_inv l Hrun) as [Hst _ _ _]. pose proof (static_committee _ _ _ _ Hst) as Hcom.
  destruct (live_lengths _ _ _ Hlive) as [Hlm Hld]. pose proof (live_counter _ _ _ Hlive) as Hctr.
  pose proof (static_size _ _ _ _ Hst) as Hsz. pose proof (count_true_le_length (responseMap s)) as Hle.
  apply lookup_lt_Some in Hrm as Hidl. apply lookup_lt_Some in Hs as Hlt. split.
  - unfold response_check, CheckStateSubset. rewrite (at_lookup _ _ _ Hsid Hs). cbn [mbind outcome_bind].
    assert (existsb (fun p => bool_decide (p.1 = subset_state s) && bool_decide (p.2 = action))
              SUBSET_ACTIONS_FOR_STATE = true) as -> by (destruct Hact as [[-> ->]|[-> ->]]; done).
    cbn [negb]. destruct (Z.geb_spec id (zlen (responseDataMap s))); [unfold zlen in *; lia|].
    rewrite (at_lookup _ _ _ Hid Hcm), (at_lookup _ _ _ Hid Hrm), (at_lookup _ _ _ Hid Hpt).
    cbn [mbind outcome_bind negb].
    rewrite (GetCommitteeMember_lookup _ _ (PubKey_from_priv (mkPrivKey d'), peer))
      by (rewrite ?Hcom; done || lia).
    assert (Initialized (subset_challenge s) = true) as Hin by (by rewrite (live_challenge _ _ _ Hlive)).
    f_equal. apply honest_VerifyResponse; try done. intros Hz. apply Hnz. unfold si. cbn [response].
    by rewrite (proj1 (Response_new_equation k' d' _ Hin)).
  - intros Hne. destruct (response_update_counts l r action type next id sid si s) as
      (s' & E & Hm & _ & Hc & _); try done; try (unfold zlen in *; lia).
    do 2 eexists. split; [exact E|]. split; [cbn; by apply list_lookup_insert_eq|]. split; [done|].
    rewrite Hm. by apply list_lookup_insert_eq.
Qed.

End session.

(** * One secret for all subsets *)

Section secret.
Context `{Hnf : OpenSSLNoFail}.
Context `{!Proto CommitBody unit, !Proto ResponseBody unit, !Proto ChallengeBody unit,
          !Proto CollectiveSigBody unit, !Proto bytes unit, !Proto unit unit}.

(** The leader's own response in an opened subset. *)
Lemma open_subsets_own c k subsets subsets' i s r :
  m_commitSecret c = Some (mkObj k true) -> 0 <= m_myID c ->
  open_subsets c subsets = Ret subsets' -> subsets' !! i = Some s ->
  Initialized (subset_challenge s) = true ->
  responseDataMap s !! Z.to_nat (m_myID c) = Some r ->
  val r = (k - (val (subset_challenge s) * m_d (m_myPrivKey c)) mod m_order) mod m_order.
Proof.
  intros Hk Hme. revert subsets' i. induction subsets as [|s0 subsets IH]; intros subsets' i E Hs Hin Hr;
    cbn [open_subsets] in E; [simplify_eq; by rewrite lookup_nil in Hs|].
  apply bind_Ret in E as (s1 & E1 & E). apply bind_Ret in E as (rest & E2 & E). simplify_eq.
  destruct i as [|i]; cbn in Hs; [|by eapply IH]. simplify_eq. unfold open_subset in E1. rewrite Hk in E1.
  apply bind_Ret in E1 as (old & Eo & E1). apply bind_Ret in E1 as (dm & Edm & E1).
  apply bind_Ret in E1 as (mp & _ & E1). apply at_Ret in Eo as [Hlt _]. apply at_set_Ret in Edm as [_ ->].
  simplify_eq.
  cbn [responseDataMap subset_challenge sub_response sub_state] in Hin, Hr |- *.
  rewrite list_lookup_insert_eq in Hr by (unfold zlen in Hlt; cbn in Hlt; lia).
  injection Hr as <-. destruct (m_myPrivKey c) as [d]. cbn [m_d].
  by rewrite Response_assign_some, (proj1 (Response_new_equation k d _ Hin)).
Qed.

(** The leader answers all subsets with one secret.  When it opens the
    subsets it computes its own response of every subset with the same commit
    secret: its responses to two subsets with different challenges determine its
    private key. *)
Theorem leader_key_extraction c k subsets subsets' i j si sj ri rj :
  m_commitSecret c = Some (mkObj k true) -> 0 <= m_myID c -> 0 <= m_d (m_myPrivKey c) < m_order ->
  open_subsets c subsets = Ret subsets' ->
  subsets' !! i = Some si -> subsets' !! j = Some sj ->
  Initialized (subset_challenge si) = true -> Initialized (subset_challenge sj) = true ->
  responseDataMap si !! Z.to_nat (m_myID c) = Some ri ->
  responseDataMap sj !! Z.to_nat (m_myID c) = Some rj ->
  let ci := val (subset_challenge si) in let cj := val (subset_challenge sj) in
  (ci - cj) mod m_order <> 0 ->
  exists e, (e * (ci - cj)) mod m_order = 1 /\
            m_d (m_myPrivKey c) = (e * (val rj - val ri)) mod m_order.
Proof.
  intros Hk Hme Hd E Hsi Hsj Hii Hij Hri Hrj ci cj Hne. destruct (scalar_inverse _ Hne) as [e He].
  exists e. split; [done|]. rewrite (open_subsets_own c k subsets subsets' i si ri) by done.
  rewrite (open_subsets_own c k subsets subsets' j sj rj) by done. symmetry.
  by apply modular_extraction.
Qed.

End secret.
