(* ===== verification/ConsensusSession.v ===== *)
(** * Whole sessions, executed

    A leader and its backups exchanging the bytes of their messages through both
    rounds, and the witnesses of the leader's theorems taken from these runs.
    The group is the cyclic group of [OpenSSL.v], the encoding the one of
    [ConsensusMessages.v]. *)

From stdpp Require Import base numbers gmap strings countable list.
From S2P Require Import Prelude BitVector Peer OpenSSL Schnorr MultiSig ConsensusMessages.
From S2P Require Import ConsensusCommon ConsensusBackup ConsensusLeader LeaderProperties.
Open Scope Z_scope.

Import Leader.

(** ** The network *)

Section network.
Context `{OpenSSL}.
Context `{!Proto CommitBody unit, !Proto ResponseBody unit, !Proto ChallengeBody unit,
          !Proto CollectiveSigBody unit, !Proto bytes unit, !Proto unit unit}.
Context (cfg : Config).

(** What was sent, the last message of a list of effects. *)
Definition payload (effs : list effect) (m : bytes) : bytes :=
  foldl (fun m e => match e with SendMessage _ m' | SpreadRumor m' => m' | _ => m end) m effs.

(** Every backup handles [m]; the replies with their senders. *)
Fixpoint broadcast (draws : nat -> Draws) (i : nat) (bs : list ConsensusBackup) (m : bytes)
  : outcome (list ConsensusBackup * list (bytes * Peer)) :=
  match bs with
  | [] => Ret ([], [])
  | b :: bs' =>
      '(_, b, eff) ← ConsensusBackup.ProcessMessage b (draws i) m 2;
      '(bs', replies) ← broadcast draws (S i) bs' m;
      let c := base_ b in
      let from := default (Peer_new 0 0) (snd <$> m_committee c !! Z.to_nat (m_myID c)) in
      Ret (b :: bs', match payload eff [] with [] => replies | reply => (reply, from) :: replies end)
  end.

(** The leader handles the messages in order; what it sends last. *)
Fixpoint feed (r : Random) (l : ConsensusLeader) (ms : list (bytes * Peer)) (out : bytes)
  : outcome (ConsensusLeader * bytes) :=
  match ms with
  | [] => Ret (l, out)
  | (m, from) :: ms' =>
      '(_, l, eff) ← ProcessMessage cfg l r m 2 from;
      feed r l ms' (payload eff out)
  end.

Lemma feed_reach r l ms out l' out' :
  Random_ok r -> feed r l ms out = Ret (l', out') -> rtc (leader_step cfg) l l'.
Proof.
  intros Hr. revert l out. induction ms as [|[m from] ms IH]; intros l out E; cbn [feed] in E;
    [simplify_eq; constructor|].
  apply bind_Ret in E as ([[res l1] eff] & E1 & E). eapply rtc_l; [|by eapply IH].
  by eapply step_message.
Qed.

(** [n] half-rounds: broadcast, then the leader handles the replies. *)
Fixpoint play (draws : nat -> Draws) (r : Random) (n : nat) (l : ConsensusLeader)
    (bs : list ConsensusBackup) (m : bytes) : outcome (ConsensusLeader * list ConsensusBackup * bytes) :=
  match n with
  | O => Ret (l, bs, m)
  | S n' =>
      '(bs, replies) ← broadcast draws 0 bs m;
      '(l, m) ← feed r l replies [];
      play draws r n' l bs m
  end.

Lemma play_reach draws r n l bs m l' bs' m' :
  Random_ok r -> play draws r n l bs m = Ret (l', bs', m') -> rtc (leader_step cfg) l l'.
Proof.
  intros Hr. revert l bs m. induction n as [|n IH]; intros l bs m E; cbn [play] in E;
    [simplify_eq; constructor|].
  apply bind_Ret in E as ([bs1 replies] & _ & E). apply bind_Ret in E as ([l1 m1] & E1 & E).
  etrans; [by eapply feed_reach|by eapply IH].
Qed.

(** A started session played for [n] half-rounds. *)
Definition run_session (draws : nat -> Draws) (r : Random) (n : nat) (gen : AnnouncementGeneratorFunc)
    (l : ConsensusLeader) (bs : list ConsensusBackup) : outcome (ConsensusLeader * list ConsensusBackup * bytes) :=
  let '(_, l, eff) := StartConsensus l gen false in
  play draws r n l bs (payload eff []).

Lemma run_session_reach draws r n gen l bs l' bs' m' :
  Random_ok r -> run_session draws r n gen l bs = Ret (l', bs', m') -> rtc (leader_step cfg) l l'.
Proof.
  intros Hr E. unfold run_session in E. destruct (StartConsensus l gen false) as [[res l1] eff] eqn:Es.
  eapply rtc_l; [by eapply step_start|]. by eapply play_reach.
Qed.

End network.

(** ** A committee of five *)

Definition keys5 : list Z := [77; 5; 900; 31; 64].

Definition committee5 : DequeOfNode :=
  imap (fun i d => (PubKey_from_priv (mkPrivKey d), Peer_new (Z.of_nat i + 1) 100)) keys5.

Definition config1 : Config := mkConfig 1 1 10 false 0 false.

Definition plain_random : Random := mkRandom [Some 50] (fun _ ps => ps) (fun ps => ps).

Lemma plain_random_ok : Random_ok plain_random.
Proof. intros i ps. reflexivity. Qed.

Definition announce5 : AnnouncementGeneratorFunc := fun msg _ _ _ _ _ _ _ => (true, msg ++ [0], sample_message).

Definition backup5 (i : Z) (d : Z) : ConsensusBackup :=
  ConsensusBackup_new 7 9 [1; 2] i 0 (mkPrivKey d) committee5 8 1
    (fun _ _ _ _ _ _ _ _ => (true, [], sample_message)).

Definition backups5 : list ConsensusBackup := [backup5 1 5; backup5 2 900; backup5 3 31; backup5 4 64].

Definition draws5 (i : nat) : Draws := mkDraws [Some (Z.of_nat i + 6)] [Some (Z.of_nat i + 321)].

Definition get_ret {A} (d : A) (o : outcome A) : A := match o with Ret a => a | Fault _ => d end.

Definition new_leader5 (cfg : Config) (ds : bool) : outcome ConsensusLeader :=
  ConsensusLeader_new cfg [Some 11] 7 9 [1; 2] 0 (mkPrivKey 77) committee5 8 1 false ds.

Definition no_leader : ConsensusLeader :=
  mkLeader (ConsensusCommon_new 0 0 [] 0 (mkPrivKey 0) [] 0 0 INITIAL) 0 0 false 0 0 false 0 [] [] []
    0 [] [] 0 ∅ [] 0 false.

Definition leader5 : ConsensusLeader := get_ret no_leader (new_leader5 config1 false).

Lemma new_leader5_returns : returned (new_leader5 config1 false) = true.
Proof. vm_compute. reflexivity. Qed.

Lemma get_ret_eq {A} (d : A) o : returned o = true -> o = Ret (get_ret d o).
Proof. by destruct o. Qed.

(** The private keys of the committee are in range and the leader's entry is its key. *)
Lemma session5 : session config1 11 77 committee5 leader5.
Proof.
  split.
  - exists [Some 11], 7, 9, [1; 2], 0, 8, 1, false, false, (Peer_new 1 100).
    split; [exact (get_ret_eq no_leader _ new_leader5_returns)|].
    split; [reflexivity|]. split; [lia|]. reflexivity.
  - change (zlen committee5) with 5. lia.
  - split; reflexivity.
Qed.

(** The session after [n] half-rounds. *)
Definition after5 (n : nat) : ConsensusLeader * list ConsensusBackup * bytes :=
  get_ret (no_leader, [], []) (run_session config1 draws5 plain_random n announce5 leader5 backups5).

Definition lead5 (n : nat) : ConsensusLeader := (after5 n).1.1.

Lemma lead5_reach n :
  returned (run_session config1 draws5 plain_random n announce5 leader5 backups5) = true ->
  rtc (leader_step config1) leader5 (lead5 n).
Proof.
  intros E. apply (get_ret_eq (no_leader, [], [])) in E. fold (after5 n) in E.
  unfold lead5. destruct (after5 n) as [[l bs] m].
  exact (run_session_reach _ _ _ _ _ _ _ _ _ _ plain_random_ok E).
Qed.

Lemma returned1 : returned (run_session config1 draws5 plain_random 1 announce5 leader5 backups5) = true.
Proof. vm_compute. reflexivity. Qed.

Lemma returned4 : returned (run_session config1 draws5 plain_random 4 announce5 leader5 backups5) = true.
Proof. vm_compute. reflexivity. Qed.

(** Both rounds go through: the leader and all four backups are done. *)
Example session5_done :
  (m_state (lbase (lead5 5)), (fun b => m_state (base_ b)) <$> (after5 5).1.2)
  = (DONE, [DONE; DONE; DONE; DONE]).
Proof. vm_compute. reflexivity. Qed.

Lemma lead5_4_done : m_state (lbase (lead5 4)) = DONE.
Proof. vm_compute. reflexivity. Qed.

Lemma leader_decides_certified_witness :
  certificate (lbase (lead5 4)) (NumForConsensus 5) (m_B2 (lbase (lead5 4))) (m_CS2 (lbase (lead5 4)))
    (m_messageToCosign (lbase (lead5 4))).
Proof.
  destruct (leader_decides_certified config1 11 77 committee5 leader5 session5 (lead5 4)
              (lead5_reach 4 returned4)) as (_ & Hdone & _).
  exact (Hdone lead5_4_done).
Defined.

Definition started5 : ConsensusLeader := (StartConsensus leader5 announce5 false).1.2.

Lemma started5_step : leader_step config1 leader5 started5.
Proof.
  apply (step_start config1 leader5 announce5 false (StartConsensus leader5 announce5 false).1.1 started5
           (StartConsensus leader5 announce5 false).2).
  unfold started5. by destruct (StartConsensus leader5 announce5 false) as [[? ?] ?].
Qed.

Lemma leader_transitions_witness :
  leader_edge (m_state (lbase leader5)) (m_state (lbase started5)) /\
  m_state (lbase started5) = ANNOUNCE_DONE.
Proof.
  split; [|vm_compute; reflexivity].
  exact (leader_transitions config1 11 77 committee5 leader5 session5 leader5 started5
           (rtc_refl _ _) started5_step).
Defined.

(** ** Responses of the challenged session *)

(** The challenged leader, the replies of the backups to its challenge, and the
    leader when two of them are in. *)
Definition replies5 : list (bytes * Peer) :=
  (get_ret ([], []) (broadcast draws5 0 (after5 1).1.2 (after5 1).2)).2.

Definition fed (l : ConsensusLeader) (ms : list (bytes * Peer)) : ConsensusLeader :=
  (get_ret (no_leader, []) (feed config1 plain_random l ms [])).1.

Lemma fed_reach l0 l ms :
  rtc (leader_step config1) l0 l -> returned (feed config1 plain_random l ms []) = true ->
  rtc (leader_step config1) l0 (fed l ms).
Proof.
  intros Hl E. etrans; [exact Hl|]. unfold fed. destruct (feed _ _ _ _ _) as [[l1 m]|f] eqn:Ef; [|done].
  exact (feed_reach _ _ _ _ _ _ _ plain_random_ok Ef).
Qed.

Definition mid5 : ConsensusLeader := fed (lead5 1) (take 2 replies5).

Lemma fed5_returns : returned (feed config1 plain_random (lead5 1) (take 2 replies5) []) = true.
Proof. vm_compute. reflexivity. Qed.

Lemma mid5_reach : rtc (leader_step config1) leader5 mid5.
Proof. exact (fed_reach _ _ _ (lead5_reach 1 returned1) fed5_returns). Qed.

Definition subset_of_leader (l : ConsensusLeader) : ConsensusSubset :=
  default (empty_subset no_leader) (m_consensusSubsets l !! 0%nat).

Lemma subset_of_leader_eq l :
  match m_consensusSubsets l with [] => false | _ => true end = true ->
  m_consensusSubsets l !! Z.to_nat 0 = Some (subset_of_leader l).
Proof. unfold subset_of_leader. by destruct (m_consensusSubsets l). Qed.

(** The honest answer of the backup with secret [k] and private key [d]. *)
Definition answer5 (l : ConsensusLeader) (k d : Z) : ResponseSubsetInfo :=
  mkResponseSubsetInfo (Response_new (mkObj k true) (subset_challenge (subset_of_leader l)) (mkPrivKey d)).

Lemma failed_subsets_never_end_session_witness :
  exists l', ProcessMessageResponse config1 (lead5 1) plain_random (default ([], Peer_new 0 0) (head replies5)).1 3
               (Peer_new 2 100) = Ret (true, l', []) /\
             m_numSubsetsRunning l' = m_numSubsetsRunning (lead5 1).
Proof.
  destruct (ProcessMessageResponse config1 (lead5 1) plain_random
    (default ([], Peer_new 0 0) (head replies5)).1 3 (Peer_new 2 100)) as [[[res l'] eff]|f] eqn:E.
  - exists l'. split.
    + assert (res = true) as ->.
      { apply (f_equal (fun o => match o with Ret (b, _, _) => b | _ => false end)) in E.
        rewrite <- E. vm_compute. reflexivity. }
      assert (eff = []) as ->; [|reflexivity].
      apply (f_equal (fun o => match o with Ret (_, _, e) => length e | _ => 1%nat end)) in E.
      apply nil_length_inv. rewrite <- E. vm_compute. reflexivity.
    + exact (proj1 (failed_subsets_never_end_session config1 (lead5 1) plain_random _ 3 (Peer_new 2 100)
                      res l' eff (or_introl E))).
  - apply (f_equal returned) in E. vm_compute in E. discriminate E.
Defined.

Lemma leader_round_completes_witness :
  exists l' eff, response_update config1 mid5 plain_random PROCESS_RESPONSE COLLECTIVESIG COLLECTIVESIG_DONE
                   3 0 (answer5 mid5 8 31) = Ret (Break, l', eff) /\
                 m_state (lbase l') = COLLECTIVESIG_DONE.
Proof.
  edestruct (leader_round_completes config1 11 77 committee5 leader5 session5 mid5 plain_random
               PROCESS_RESPONSE COLLECTIVESIG COLLECTIVESIG_DONE 3 0 (answer5 mid5 8 31)
               (subset_of_leader mid5)) as (l' & eff & E & Hs & _).
  - exact mid5_reach.
  - left. split; reflexivity.
  - vm_compute. reflexivity.
  - split; [discriminate|reflexivity].
  - vm_compute. reflexivity.
  - apply subset_of_leader_eq. vm_compute. reflexivity.
  - vm_compute. reflexivity.
  - vm_compute. reflexivity.
  - vm_compute. discriminate.
  - vm_compute. discriminate.
  - apply written_ret. vm_compute. reflexivity.
  - exists l', eff. split; [exact E|exact Hs].
Defined.

Lemma duplicate_response_counted_twice_witness :
  exists l1 l2 s2,
    response_update config1 (lead5 1) plain_random PROCESS_RESPONSE COLLECTIVESIG COLLECTIVESIG_DONE
      1 0 (answer5 (lead5 1) 6 5) = Ret (Continue, l1, []) /\
    response_update config1 l1 plain_random PROCESS_RESPONSE COLLECTIVESIG COLLECTIVESIG_DONE
      1 0 (answer5 (lead5 1) 6 5) = Ret (Continue, l2, []) /\
    m_consensusSubsets l2 !! Z.to_nat 0 = Some s2 /\
    responseCounter s2 = Z.of_nat (count_true (responseMap s2)) + 1.
Proof.
  destruct (duplicate_response_counted_twice config1 11 77 committee5 leader5 session5 (lead5 1) plain_random
              plain_random PROCESS_RESPONSE COLLECTIVESIG COLLECTIVESIG_DONE 1 0 (answer5 (lead5 1) 6 5)
              (subset_of_leader (lead5 1))) as (_ & l1 & l2 & s2 & E1 & _ & E2 & Hs & Hc).
  - exact (lead5_reach 1 returned1).
  - left. split; reflexivity.
  - vm_compute. reflexivity.
  - split; [discriminate|reflexivity].
  - apply subset_of_leader_eq. vm_compute. reflexivity.
  - vm_compute. reflexivity.
  - vm_compute. discriminate.
  - vm_compute. discriminate.
  - exists l1, l2, s2. split; [exact E1|]. split; [exact E2|]. split; [exact Hs|exact Hc].
Defined.

Lemma committed_point5 :
  CommitPoint_eq (default CommitPoint_default (commitPointMap (subset_of_leader (lead5 1)) !! 1%nat))
    (CommitPoint_from_secret (mkObj 6 true)) = true.
Proof. vm_compute. reflexivity. Qed.

Lemma CommitPoint_eq_true `{OpenSSLSpec} a b : CommitPoint_eq a b = true -> a = b.
Proof.
  destruct a as [P x], b as [Q y]. unfold CommitPoint_eq. intros E. destruct (negb alloc_ok); [done|].
  cbn [Initialized val] in E. zbool. subst. f_equal. by apply cmp_spec.
Qed.

Lemma point5_lookup :
  commitPointMap (subset_of_leader (lead5 1)) !! Z.to_nat 1
  = Some (CommitPoint_from_secret (mkObj 6 true)).
Proof.
  pose proof committed_point5 as E. change (Z.to_nat 1) with 1%nat.
  destruct (commitPointMap (subset_of_leader (lead5 1)) !! 1%nat) as [p|] eqn:Ep; cbn [default] in E.
  - f_equal. exact (CommitPoint_eq_true _ _ E).
  - apply (f_equal (fun o => match o with Some _ => true | None => false end)) in Ep.
    vm_compute in Ep. discriminate Ep.
Qed.

Lemma honest_response_counted_witness :
  response_check (lead5 1) PROCESS_RESPONSE 1 0 (answer5 (lead5 1) 6 5) = Ret true /\
  exists l' s', response_update config1 (lead5 1) plain_random PROCESS_RESPONSE COLLECTIVESIG
                  COLLECTIVESIG_DONE 1 0 (answer5 (lead5 1) 6 5) = Ret (Continue, l', []) /\
     m_consensusSubsets l' !! Z.to_nat 0 = Some s' /\
     responseCounter s' = responseCounter (subset_of_leader (lead5 1)) + 1.
Proof.
  destruct (honest_response_counted config1 11 77 committee5 leader5 session5 (lead5 1) plain_random
              PROCESS_RESPONSE COLLECTIVESIG COLLECTIVESIG_DONE 1 0 (subset_of_leader (lead5 1)) 6 5
              (Peer_new 2 100)) as [Hc Hu].
  - exact (lead5_reach 1 returned1).
  - left. split; reflexivity.
  - vm_compute. reflexivity.
  - discriminate.
  - discriminate.
  - apply subset_of_leader_eq. vm_compute. reflexivity.
  - left. split; vm_compute; reflexivity.
  - vm_compute. reflexivity.
  - vm_compute. reflexivity.
  - split; reflexivity.
  - reflexivity.
  - exact point5_lookup.
  - vm_compute. discriminate.
  - split; [exact Hc|]. destruct Hu as (l' & s' & E & Hs & Hn & _); [vm_compute; discriminate|].
    exists l', s'. split; [exact E|]. split; [exact Hs|exact Hn].
Defined.

(** ** Several subsets: a guarded DS committee of seven *)

Definition committee7 : DequeOfNode :=
  imap (fun i d => (PubKey_from_priv (mkPrivKey d), Peer_new (Z.of_nat i + 1) 100))
    [77; 5; 900; 31; 64; 128; 3].

Definition config2 : Config := mkConfig 2 1 10 true 4 false.

Definition backups7 : list ConsensusBackup :=
  imap (fun i d => ConsensusBackup_new 7 9 [1; 2] (Z.of_nat i + 1) 0 (mkPrivKey d) committee7 8 1
                     (fun _ _ _ _ _ _ _ _ => (true, [], sample_message))) [5; 900; 31; 64; 128; 3].

Definition leader7 : ConsensusLeader :=
  get_ret no_leader
    (ConsensusLeader_new config2 [Some 11] 7 9 [1; 2] 0 (mkPrivKey 77) committee7 8 1 false true).

(** The leader when all six commits are in and the commit window is open. *)
Definition committed7 : ConsensusLeader :=
  (get_ret (no_leader, [], []) (run_session config2 draws5 plain_random 1 announce5 leader7 backups7)).1.1.

Lemma committed7_full : commits_full committed7.
Proof. split; [|split; [|split]]; vm_compute; reflexivity. Qed.

Lemma leader_forms_subsets_witness :
  exists subsets,
    GenerateConsensusSubsets config2 committed7 plain_random
      = Ret (lead_subsets (lead_commits committed7 [] [] [] (m_commitCounter committed7)) subsets) /\
    length subsets = 2%nat /\
    (forall s, subsets !! 0%nat = Some s ->
     prefers_guards config2 committed7 [1; 2; 3; 4; 5; 6] s).
Proof.
  destruct (leader_forms_subsets config2 committed7 committed7_full plain_random plain_random_ok)
    as (subsets & E & Hl & _ & Hg).
  - split; [vm_compute; discriminate|vm_compute; reflexivity].
  - split; [vm_compute; discriminate|vm_compute; reflexivity].
  - vm_compute. discriminate.
  - vm_compute. discriminate.
  - exists subsets. split; [exact E|]. split.
    + assert (Z.to_nat (if m_commitCounter committed7 - 1 <=? m_numForConsensus committed7 then 1
                        else m_numOfSubsets committed7) = 2%nat) as Hn by (vm_compute; reflexivity).
      rewrite Hn in Hl. exact Hl.
    + assert (committed_from 0 (m_commitMap committed7) (m_myID (lbase committed7)) = [1; 2; 3; 4; 5; 6])
        as Hp by (vm_compute; reflexivity).
      rewrite Hp in Hg. apply Hg; vm_compute; reflexivity.
Defined.

(** Two subsets with challenges 3 and 8. *)
Definition opened7 : list ConsensusSubset :=
  get_ret [] (open_subsets (lbase leader7) [sub_challenge (empty_subset leader7) (mkObj 3 true);
                                            sub_challenge (empty_subset leader7) (mkObj 8 true)]).

Lemma opened7_returns :
  returned (open_subsets (lbase leader7) [sub_challenge (empty_subset leader7) (mkObj 3 true);
                                          sub_challenge (empty_subset leader7) (mkObj 8 true)]) = true.
Proof. vm_compute. reflexivity. Qed.

Definition own_response (i : nat) : Response :=
  default Response_default
    (responseDataMap (default (empty_subset leader7) (opened7 !! i)) !! 0%nat).

Lemma opened_lookup {A} (d : A) (xs : list A) (i : nat) :
  is_Some (xs !! i) -> xs !! i = Some (default d (xs !! i)).
Proof. by intros [x ->]. Qed.

Lemma has_value {A} (o : option A) :
  match o with Some _ => true | None => false end = true -> is_Some o.
Proof. by destruct o. Qed.

Lemma leader_key_extraction_witness :
  exists e, (e * (3 - 8)) mod m_order = 1 /\
            77 = (e * (val (own_response 1) - val (own_response 0))) mod m_order.
Proof.
  destruct (leader_key_extraction (lbase leader7) 11
           [sub_challenge (empty_subset leader7) (mkObj 3 true);
            sub_challenge (empty_subset leader7) (mkObj 8 true)] opened7 0 1
           (default (empty_subset leader7) (opened7 !! 0%nat)) (default (empty_subset leader7) (opened7 !! 1%nat))
           (own_response 0) (own_response 1)) as (e & He & Hd).
  - vm_compute. reflexivity.
  - vm_compute. discriminate.
  - split; [vm_compute; discriminate|vm_compute; reflexivity].
  - exact (get_ret_eq [] _ opened7_returns).
  - apply opened_lookup, has_value. vm_compute. reflexivity.
  - apply opened_lookup, has_value. vm_compute. reflexivity.
  - vm_compute. reflexivity.
  - vm_compute. reflexivity.
  - apply opened_lookup, has_value. vm_compute. reflexivity.
  - apply opened_lookup, has_value. vm_compute. reflexivity.
  - vm_compute. discriminate.
  - exists e. assert (val (subset_challenge (default (empty_subset leader7) (opened7 !! 0%nat))) = 3) as E0
      by (vm_compute; reflexivity).
    assert (val (subset_challenge (default (empty_subset leader7) (opened7 !! 1%nat))) = 8) as E1
      by (vm_compute; reflexivity).
    assert (m_d (m_myPrivKey (lbase leader7)) = 77) as E2 by (vm_compute; reflexivity).
    rewrite E0, E1 in He. rewrite E2 in Hd. split; [exact He|exact Hd].
Defined.
