(* ===== verification/TxnPool.v ===== *)
(** * Transactions and the pool of pending transactions
    ([libData/AccountData/Transaction.h], [TxnPool.h])

    The pool keeps every pending transaction in three indexes.  A
    [std::unordered_map] or [std::map] is a finite map; where the source takes
    [begin()] of an ordered map, the first key in its order is computed.  Hashes
    and addresses are numbers: [FixedHash] compares them as big-endian strings.
    A sender key is an element of a countable type, the equality of which is
    [PubKey::operator==]. *)

From stdpp Require Import base numbers gmap countable list sorting.
From S2P Require Import Prelude.
Open Scope Z_scope.

Section pool.
Context {PubKey : Type} `{Countable PubKey}.

Record Transaction := mkTransaction {
  m_tranID : Z;
  tx_version : Z;
  tx_nonce : Z;
  tx_toAddr : Z;
  tx_senderPubKey : PubKey;
  tx_amount : Z;
  tx_gasPrice : Z;
  tx_gasLimit : Z;
  tx_code : bytes;
  tx_data : bytes;
  tx_signature : Z * Z
}.

Record TxnPool := mkPool {
  HashIndex : gmap Z Transaction;
  GasIndex : gmap Z (gmap Z Transaction);
  NonceIndex : gmap (PubKey * Z) Transaction
}.

Definition nonce_key (t : Transaction) : PubKey * Z := (tx_senderPubKey t, tx_nonce t).

(** [begin()] of an ordered map: the entry whose key comes first. *)
Definition map_begin {A} (before : Z -> Z -> bool) (m : gmap Z A) : option (Z * A) :=
  map_fold (fun k v best =>
    match best with
    | Some (k', _) => if before k k' then Some (k, v) else best
    | None => Some (k, v)
    end) None m.

Definition pool_clear : TxnPool := mkPool ∅ ∅ ∅.

Definition pool_size (p : TxnPool) : Z := Z.of_nat (size (HashIndex p)).

Definition pool_exist (p : TxnPool) (th : Z) : bool := bool_decide (is_Some (HashIndex p !! th)).

(** [get]: the result and the transaction after the call. *)
Definition pool_get (p : TxnPool) (th : Z) (t : Transaction) : bool * Transaction :=
  match HashIndex p !! th with
  | None => (false, t)
  | Some t' => (true, t')
  end.

(** [GasIndex[gasPrice][tranID] = t] *)
Definition gas_insert (g : gmap Z (gmap Z Transaction)) (t : Transaction) : gmap Z (gmap Z Transaction) :=
  <[tx_gasPrice t := <[m_tranID t := t]> (default ∅ (g !! tx_gasPrice t))]> g.

(** A newcomer replaces the pending transaction of the same sender and nonce. *)
Definition replaces (t old : Transaction) : bool :=
  (tx_gasPrice t >? tx_gasPrice old) ||
  ((tx_gasPrice t =? tx_gasPrice old) && (m_tranID t <? m_tranID old)).

Definition pool_insert (p : TxnPool) (t : Transaction) : bool * TxnPool :=
  if pool_exist p (m_tranID t) then (false, p)
  else
    match NonceIndex p !! nonce_key t with
    | Some old =>
        if replaces t old then
          let hashes := delete (m_tranID old) (HashIndex p) in
          let gas :=
            match GasIndex p !! tx_gasPrice old with
            | Some bucket => <[tx_gasPrice old := delete (m_tranID old) bucket]> (GasIndex p)
            | None => GasIndex p
            end in
          (true, mkPool (<[m_tranID t := t]> hashes) (gas_insert gas t)
                   (<[nonce_key t := t]> (NonceIndex p)))
        else (true, p)
    | None =>
        (true, mkPool (<[m_tranID t := t]> (HashIndex p)) (gas_insert (GasIndex p) t)
                 (<[nonce_key t := t]> (NonceIndex p)))
    end.

(** [GasIndex[gasPrice].erase(tranID)] and the removal of an empty bucket. *)
Definition gas_erase (g : gmap Z (gmap Z Transaction)) (price id : Z) : gmap Z (gmap Z Transaction) :=
  let bucket := delete id (default ∅ (g !! price)) in
  if bool_decide (bucket = ∅) then delete price g else <[price := bucket]> g.

(** The transaction after the call, and the pool. *)
Definition findSameNonceButHigherGas (p : TxnPool) (t : Transaction) : Transaction * TxnPool :=
  match NonceIndex p !! nonce_key t with
  | Some found =>
      if tx_gasPrice found >? tx_gasPrice t then
        (found, mkPool (delete (m_tranID found) (HashIndex p))
                  (gas_erase (GasIndex p) (tx_gasPrice found) (m_tranID found))
                  (delete (nonce_key t) (NonceIndex p)))
      else (t, p)
  | None => (t, p)
  end.

(** The best-paying transaction: [GasIndex.begin()->second.begin()]. *)
Definition findOne (p : TxnPool) : option Transaction * TxnPool :=
  match map_begin Z.gtb (GasIndex p) with
  | None => (None, p)
  | Some (price, bucket) =>
      match map_begin Z.ltb bucket with
      | None => (None, p)
      | Some (id, t) =>
          let bucket' := delete id bucket in
          (Some t,
           mkPool (delete (m_tranID t) (HashIndex p))
             (if bool_decide (bucket' = ∅) then delete price (GasIndex p)
              else <[price := bucket']> (GasIndex p))
             (delete (nonce_key t) (NonceIndex p)))
      end
  end.

End pool.

Arguments Transaction : clear implicits.
Arguments TxnPool PubKey {_ _}.

(** ** Ordered maps *)

(** The entries of a [std::map] in the order of its keys. *)
Definition entry_le {A} (x y : Z * A) : Prop := x.1 <= y.1.
#[global] Instance entry_le_dec {A} (x y : Z * A) : Decision (entry_le x y) := decide (x.1 <= y.1).
Definition ordered_entries {A} (m : gmap Z A) : list (Z * A) := merge_sort entry_le (map_to_list m).

Lemma ordered_entries_perm {A} (m : gmap Z A) : ordered_entries m ≡ₚ map_to_list m.
Proof. apply merge_sort_Permutation. Qed.

Lemma elem_of_ordered {A} (m : gmap Z A) a x : (a, x) ∈ ordered_entries m <-> m !! a = Some x.
Proof. by rewrite ordered_entries_perm, elem_of_map_to_list. Qed.

Lemma NoDup_ordered {A} (m : gmap Z A) : NoDup (ordered_entries m).*1.
Proof. rewrite ordered_entries_perm. apply NoDup_fst_map_to_list. Qed.

Lemma map_begin_spec {A} (before : Z -> Z -> bool) (m : gmap Z A) :
  (forall a b c, before a b = false -> before b c = false -> before a c = false) ->
  (forall a b, before a b = true -> before b a = false) ->
  match map_begin before m with
  | None => m = ∅
  | Some (k, v) => m !! k = Some v /\ forall k' v', m !! k' = Some v' -> before k' k = false
  end.
Proof.
  intros Htrans Hasym. unfold map_begin.
  apply (map_fold_weak_ind (fun best m => match best with
    | None => m = ∅
    | Some (k, v) => m !! k = Some v /\ forall k' v', m !! k' = Some v' -> before k' k = false
    end)); [done|].
  assert (forall a, before a a = false) as Hirr.
  { intros a. destruct (before a a) eqn:E; [|done]. by rewrite (Hasym _ _ E) in E. }
  intros i x m' best Hi IH. destruct best as [[k v]|].
  - destruct IH as [Hk Hall]. assert (k <> i) as Hne by congruence. destruct (before i k) eqn:E.
    + split; [by rewrite lookup_insert_eq|]. intros k' v' [[-> _]|[_ Hk']]%lookup_insert_Some; [done|].
      eapply Htrans; [by eapply Hall|by apply Hasym].
    + split; [by rewrite lookup_insert_ne|]. intros k' v' [[<- _]|[_ Hk']]%lookup_insert_Some; [done|].
      by eapply Hall.
  - subst m'. split; [by rewrite lookup_insert_eq|]. intros k' v' [[<- _]|[_ Hk']]%lookup_insert_Some;
      [done|]. by rewrite lookup_empty in Hk'.
Qed.

(** The entry with the greatest, the least key. *)
Lemma map_begin_max {A} (m : gmap Z A) :
  match map_begin Z.gtb m with
  | None => m = ∅
  | Some (k, v) => m !! k = Some v /\ forall k' v', m !! k' = Some v' -> k' <= k
  end.
Proof.
  pose proof (map_begin_spec Z.gtb m) as Hs. destruct (map_begin Z.gtb m) as [[k v]|];
    [destruct Hs as [Hk Hs]|apply Hs]; try (intros *; lia).
  split; [done|]. intros k' v' Hk'. specialize (Hs _ _ Hk'). lia.
Qed.

Lemma map_begin_min {A} (m : gmap Z A) :
  match map_begin Z.ltb m with
  | None => m = ∅
  | Some (k, v) => m !! k = Some v /\ forall k' v', m !! k' = Some v' -> k <= k'
  end.
Proof.
  pose proof (map_begin_spec Z.ltb m) as Hs. destruct (map_begin Z.ltb m) as [[k v]|];
    [destruct Hs as [Hk Hs]|apply Hs]; try (intros *; lia).
  split; [done|]. intros k' v' Hk'. specialize (Hs _ _ Hk'). lia.
Qed.

Lemma map_begin_max_eq {A} (m : gmap Z A) k v :
  m !! k = Some v -> (forall k' v', m !! k' = Some v' -> k' <= k) -> map_begin Z.gtb m = Some (k, v).
Proof.
  intros Hk Hmax. pose proof (map_begin_max m) as Hs. destruct (map_begin Z.gtb m) as [[k0 v0]|].
  - destruct Hs as [Hk0 Hs]. pose proof (Hmax _ _ Hk0). pose proof (Hs _ _ Hk).
    assert (k0 = k) as -> by lia. congruence.
  - subst. by rewrite lookup_empty in Hk.
Qed.

Lemma map_begin_min_singleton {A} k (v : A) : map_begin Z.ltb {[k := v]} = Some (k, v).
Proof.
  pose proof (map_begin_min {[k := v]}) as Hs. destruct (map_begin Z.ltb {[k := v]}) as [[k0 v0]|].
  - destruct Hs as [Hk0 _]. by apply lookup_singleton_Some in Hk0 as [-> ->].
  - by apply map_non_empty_singleton in Hs.
Qed.

(** ** The three indexes agree *)

Section consistency.
Context {PubKey : Type} `{Countable PubKey}.
Implicit Types (t : Transaction PubKey) (p : TxnPool PubKey) (g : gmap Z (gmap Z (Transaction PubKey))).

(** The transaction filed under a gas price and an identifier. *)
Definition gas_at g (price id : Z) : option (Transaction PubKey) := g !! price ≫= (.!! id).

Record consistent p : Prop := {
  con_hash : forall h t, HashIndex p !! h = Some t -> m_tranID t = h /\ NonceIndex p !! nonce_key t = Some t;
  con_nonce : forall k t, NonceIndex p !! k = Some t -> k = nonce_key t /\ HashIndex p !! m_tranID t = Some t;
  con_gas : forall price id t, gas_at (GasIndex p) price id = Some t <->
              price = tx_gasPrice t /\ id = m_tranID t /\ HashIndex p !! id = Some t
}.

Lemma gas_at_insert g t price id :
  gas_at (gas_insert g t) price id =
  if bool_decide (price = tx_gasPrice t /\ id = m_tranID t) then Some t else gas_at g price id.
Proof.
  unfold gas_at, gas_insert. destruct (decide (price = tx_gasPrice t)) as [->|Hp].
  - rewrite lookup_insert_eq. cbn. destruct (decide (id = m_tranID t)) as [->|Hi].
    + by rewrite lookup_insert_eq, bool_decide_eq_true_2.
    + rewrite lookup_insert_ne, bool_decide_eq_false_2 by naive_solver.
      by destruct (g !! tx_gasPrice t).
  - rewrite lookup_insert_ne, bool_decide_eq_false_2 by naive_solver. done.
Qed.

(** Any way of taking an entry out of its bucket. *)
Definition gas_removed g g' (price0 id0 : Z) : Prop := forall price id,
  gas_at g' price id = if bool_decide (price = price0 /\ id = id0) then None else gas_at g price id.

Lemma gas_removed_bucket g price id bucket :
  g !! price = Some bucket -> gas_removed g (<[price := delete id bucket]> g) price id.
Proof.
  intros Hb p i. unfold gas_at. destruct (decide (p = price)) as [->|Hp].
  - rewrite lookup_insert_eq, Hb. cbn. destruct (decide (i = id)) as [->|Hi].
    + by rewrite lookup_delete_eq, bool_decide_eq_true_2.
    + by rewrite lookup_delete_ne, bool_decide_eq_false_2 by naive_solver.
  - by rewrite lookup_insert_ne, bool_decide_eq_false_2 by naive_solver.
Qed.

Lemma gas_removed_last g price id bucket :
  g !! price = Some bucket -> delete id bucket = ∅ -> gas_removed g (delete price g) price id.
Proof.
  intros Hb He p i. unfold gas_at. destruct (decide (p = price)) as [->|Hp].
  - rewrite lookup_delete_eq, Hb. cbn. case_bool_decide as Hi; [done|].
    destruct (bucket !! i) eqn:Ei; [|done]. assert (i <> id) by naive_solver.
    rewrite <- (lookup_delete_ne bucket id i), He in Ei by done. by rewrite lookup_empty in Ei.
  - by rewrite lookup_delete_ne, bool_decide_eq_false_2 by naive_solver.
Qed.

Lemma gas_removed_drop g price id bucket :
  g !! price = Some bucket ->
  gas_removed g (if bool_decide (delete id bucket = ∅) then delete price g
                 else <[price := delete id bucket]> g) price id.
Proof. intros Hb. case_bool_decide; [by eapply gas_removed_last|by apply gas_removed_bucket]. Qed.

Lemma consistent_clear : consistent (pool_clear : TxnPool PubKey).
Proof.
  split; cbn; [intros * E..|intros *; split; [intros E|intros (_ & _ & E)]];
    unfold gas_at in *; by rewrite lookup_empty in E.
Qed.

(** Filing a new transaction. *)
Lemma consistent_add p t :
  consistent p -> HashIndex p !! m_tranID t = None -> NonceIndex p !! nonce_key t = None ->
  consistent (mkPool (<[m_tranID t := t]> (HashIndex p)) (gas_insert (GasIndex p) t)
                (<[nonce_key t := t]> (NonceIndex p))).
Proof.
  intros [Hh Hn Hg] Hid Hkey. split; cbn.
  - intros h t' [[<- <-]|[Hne Ht']]%lookup_insert_Some; [by rewrite lookup_insert_eq|].
    destruct (Hh _ _ Ht') as [Hi Hk]. split; [done|]. rewrite lookup_insert_ne by congruence. done.
  - intros k t' [[<- <-]|[Hne Ht']]%lookup_insert_Some; [by rewrite lookup_insert_eq|].
    destruct (Hn _ _ Ht') as [Hi Hk]. split; [done|]. rewrite lookup_insert_ne by congruence. done.
  - intros price id t'. rewrite gas_at_insert. case_bool_decide as Hb.
    + destruct Hb as [-> ->]. rewrite lookup_insert_eq. naive_solver.
    + rewrite Hg. split; intros (-> & -> & Ht').
      * split; [done|]. split; [done|]. rewrite lookup_insert_ne by congruence. done.
      * split; [done|]. split; [done|]. apply lookup_insert_Some in Ht' as [[Hi <-]|[_ Ht']]; [|done].
        by destruct Hb.
Qed.

(** Taking a transaction out of all indexes. *)
Lemma consistent_remove p t g' :
  consistent p -> HashIndex p !! m_tranID t = Some t ->
  gas_removed (GasIndex p) g' (tx_gasPrice t) (m_tranID t) ->
  consistent (mkPool (delete (m_tranID t) (HashIndex p)) g' (delete (nonce_key t) (NonceIndex p))).
Proof.
  intros [Hh Hn Hg] Hid Hrem. destruct (Hh _ _ Hid) as [_ Hkey]. split; cbn.
  - intros h t' [Hne Ht']%lookup_delete_Some. destruct (Hh _ _ Ht') as [Hi Hk]. split; [done|].
    apply lookup_delete_Some. split; [|done]. intros Heq. rewrite Heq in Hkey. congruence.
  - intros k t' [Hne Ht']%lookup_delete_Some. destruct (Hn _ _ Ht') as [-> Hk]. split; [done|].
    apply lookup_delete_Some. split; [|done]. intros Heq. rewrite Heq in Hid. congruence.
  - intros price id t'. rewrite Hrem. case_bool_decide as Hb.
    + split; [done|]. intros (-> & -> & [Hne _]%lookup_delete_Some). destruct Hb. congruence.
    + rewrite Hg, lookup_delete_Some. split; [|naive_solver].
      intros (-> & -> & Ht'). split; [done|]. split; [done|]. split; [|done]. intros Heq.
      rewrite <- Heq in Ht'. apply Hb. split; congruence.
Qed.

(** The bucket of a pending transaction exists. *)
Lemma consistent_bucket p t :
  consistent p -> HashIndex p !! m_tranID t = Some t ->
  exists bucket, GasIndex p !! tx_gasPrice t = Some bucket /\ bucket !! m_tranID t = Some t.
Proof.
  intros [_ _ Hg] Hid.
  pose proof (proj2 (Hg (tx_gasPrice t) (m_tranID t) t) (conj eq_refl (conj eq_refl Hid))) as E.
  unfold gas_at in E. destruct (GasIndex p !! tx_gasPrice t) as [b|]; [eauto|done].
Qed.

Lemma consistent_insert p t : consistent p -> consistent (pool_insert p t).2.
Proof.
  intros Hc. unfold pool_insert, pool_exist. case_bool_decide as He; [done|].
  apply eq_None_not_Some in He. destruct (NonceIndex p !! nonce_key t) as [old|] eqn:Ho;
    [|by apply consistent_add].
  destruct (replaces t old); [|done]. destruct (con_nonce _ Hc _ _ Ho) as [Hk Hid].
  destruct (consistent_bucket p old Hc Hid) as (b & Hb & _). rewrite Hb. cbn [snd].
  pose proof (consistent_remove p old _ Hc Hid (gas_removed_bucket _ _ _ _ Hb)) as Hc'.
  apply (consistent_add _ t) in Hc'; cbn in *.
  - rewrite <- Hk in Hc'. by rewrite insert_delete_eq in Hc'.
  - rewrite lookup_delete_None. auto.
  - rewrite Hk. apply lookup_delete_eq.
Qed.

Lemma consistent_findSame p t : consistent p -> consistent (findSameNonceButHigherGas p t).2.
Proof.
  intros Hc. unfold findSameNonceButHigherGas.
  destruct (NonceIndex p !! nonce_key t) as [f|] eqn:Hf; [|done]. case_test; [|done].
  destruct (con_nonce _ Hc _ _ Hf) as [Hk Hid]. destruct (consistent_bucket p f Hc Hid) as (b & Hb & _).
  cbn [snd]. rewrite Hk. apply consistent_remove; [done|done|]. unfold gas_erase. rewrite Hb. cbn.
  by apply gas_removed_drop.
Qed.

(** What [findOne] finds: the pending transaction with the highest gas price, and
    among these the one with the least identifier. *)
Lemma findOne_cases p :
  consistent p ->
  match findOne p with
  | (Some t, p') =>
      HashIndex p !! m_tranID t = Some t /\
      (forall h t', HashIndex p !! h = Some t' -> tx_gasPrice t' <= tx_gasPrice t /\
         (tx_gasPrice t' = tx_gasPrice t -> m_tranID t <= m_tranID t')) /\
      NonceIndex p' = delete (nonce_key t) (NonceIndex p) /\ consistent p'
  | (None, p') =>
      p' = p /\ (HashIndex p = ∅ \/ exists price, GasIndex p !! price = Some ∅ /\
                   forall h t', HashIndex p !! h = Some t' -> tx_gasPrice t' < price)
  end.
Proof.
  intros Hc. unfold findOne. pose proof (map_begin_max (GasIndex p)) as Hmax.
  destruct (map_begin Z.gtb (GasIndex p)) as [[price bucket]|].
  2: { split; [done|]. left. apply map_empty. intros h. apply eq_None_not_Some. intros [t Ht].
       destruct (con_hash _ Hc _ _ Ht) as [<- _]. destruct (consistent_bucket p t Hc Ht) as (b & Hb & _).
       rewrite Hmax in Hb. by rewrite lookup_empty in Hb. }
  destruct Hmax as [Hb Hmax]. pose proof (map_begin_min bucket) as Hmin.
  assert (forall h t', HashIndex p !! h = Some t' -> exists b, GasIndex p !! tx_gasPrice t' = Some b /\
            b !! m_tranID t' = Some t') as Hfiled.
  { intros h t' Ht'. destruct (con_hash _ Hc _ _ Ht') as [<- _]. by apply consistent_bucket. }
  destruct (map_begin Z.ltb bucket) as [[id t]|].
  - destruct Hmin as [Ht Hmin]. assert (gas_at (GasIndex p) price id = Some t) as Hat
      by (unfold gas_at; by rewrite Hb).
    apply (con_gas _ Hc) in Hat as (-> & -> & Hid). split; [done|]. split; [|split; [done|]].
    + intros h t' Ht'. destruct (Hfiled _ _ Ht') as (b & Hb' & Hin). split; [by eapply Hmax|].
      intros Heq. rewrite Heq, Hb in Hb'. injection Hb' as <-. by eapply Hmin.
    + apply consistent_remove; [done|done|]. by apply gas_removed_drop.
  - subst bucket. split; [done|]. right. exists price. split; [done|]. intros h t' Ht'.
    destruct (Hfiled _ _ Ht') as (b & Hb' & Hin). pose proof (Hmax _ _ Hb').
    destruct (decide (tx_gasPrice t' = price)) as [Heq|]; [|lia].
    rewrite Heq, Hb in Hb'. injection Hb' as <-. by rewrite lookup_empty in Hin.
Qed.

End consistency.

(** ** The pool over time *)

Section history.
Context {PubKey : Type} `{Countable PubKey}.
Implicit Types (t : Transaction PubKey) (p : TxnPool PubKey).

Inductive pool_step p : TxnPool PubKey -> Prop :=
  | pool_step_insert t : pool_step p (pool_insert p t).2
  | pool_step_same t : pool_step p (findSameNonceButHigherGas p t).2
  | pool_step_findOne : pool_step p (findOne p).2
  | pool_step_clear : pool_step p pool_clear.

Lemma reach_consistent p : rtc pool_step pool_clear p -> consistent p.
Proof.
  intros Hr. assert (forall a b, rtc pool_step a b -> consistent a -> consistent b) as Hind.
  { induction 1 as [|a b c Hs _ IH]; [done|]. intros Hc. apply IH. destruct Hs.
    - by apply consistent_insert.
    - by apply consistent_findSame.
    - pose proof (findOne_cases a Hc) as Hf. destruct (findOne a) as [[t|] a'];
        [apply Hf|by destruct Hf as [-> _]].
    - apply consistent_clear. }
  eapply Hind; [exact Hr|apply consistent_clear].
Qed.

(** The nonce index holds exactly the pending transactions. *)
Lemma consistent_size p : consistent p -> size (NonceIndex p) = size (HashIndex p).
Proof.
  intros [Hh Hn _].
  assert (Permutation ((map_to_list (NonceIndex p)).*2) ((map_to_list (HashIndex p)).*2)) as Hp.
  { apply NoDup_Permutation.
    - apply NoDup_fmap_2_strong; [|apply NoDup_map_to_list].
      intros [k t] [k' t'] Hk%elem_of_map_to_list Hk'%elem_of_map_to_list Heq. cbn in Heq. subst t'.
      destruct (Hn _ _ Hk) as [-> _], (Hn _ _ Hk') as [-> _]. done.
    - apply NoDup_fmap_2_strong; [|apply NoDup_map_to_list].
      intros [k t] [k' t'] Hk%elem_of_map_to_list Hk'%elem_of_map_to_list Heq. cbn in Heq. subst t'.
      destruct (Hh _ _ Hk) as [<- _], (Hh _ _ Hk') as [<- _]. done.
    - intros t. rewrite !list_elem_of_fmap. split.
      + intros ([k t'] & -> & Hk%elem_of_map_to_list). exists (m_tranID t', t'). split; [done|].
        apply elem_of_map_to_list. apply (Hn _ _ Hk).
      + intros ([k t'] & -> & Hk%elem_of_map_to_list). exists (nonce_key t', t'). split; [done|].
        apply elem_of_map_to_list. apply (Hh _ _ Hk). }
  apply Permutation_length in Hp. by rewrite !length_fmap, !length_map_to_list in Hp.
Qed.

(** [t] is preferred to [old]: it pays more, or the same with a smaller identifier. *)
Definition preferred (t old : Transaction PubKey) : Prop :=
  tx_gasPrice old < tx_gasPrice t \/ (tx_gasPrice old = tx_gasPrice t /\ m_tranID t < m_tranID old).

#[global] Instance preferred_dec t old : Decision (preferred t old).
Proof. unfold preferred. apply _. Defined.

Lemma replaces_spec (t old : Transaction PubKey) : replaces t old = true <-> preferred t old.
Proof. unfold replaces, preferred. rewrite orb_true_iff, andb_true_iff, Z.gtb_ltb, !Z.ltb_lt, Z.eqb_eq. intuition lia. Qed.

Lemma preferred_trans (a b c : Transaction PubKey) : preferred a b -> preferred b c -> preferred a c.
Proof. unfold preferred. lia. Qed.

(** The pool has, for each sender and nonce, the preferred one of the transactions [ts]. *)
Definition holds_best p (ts : list (Transaction PubKey)) : Prop :=
  forall k, match NonceIndex p !! k with
            | Some t => t ∈ ts /\ nonce_key t = k /\ forall t', t' ∈ ts -> nonce_key t' = k -> t' = t \/ preferred t t'
            | None => forall t', t' ∈ ts -> nonce_key t' <> k
            end.

Lemma insert_best p ts t :
  consistent p -> holds_best p ts -> (forall t', t' ∈ ts -> m_tranID t' = m_tranID t -> t' = t) ->
  holds_best (pool_insert p t).2 (ts ++ [t]).
Proof.
  intros Hc Hb Hid k. specialize (Hb k) as Hk. unfold pool_insert, pool_exist. case_bool_decide as He.
  - destruct He as [t0 H0]. destruct (con_hash _ Hc _ _ H0) as [Hi0 Hn0]. pose proof (Hb (nonce_key t0)) as H1. rewrite Hn0 in H1.
    assert (t0 = t) as -> by (by apply Hid; [apply H1|]). cbn [snd].
    assert (forall x, x ∈ ts ++ [t] <-> x ∈ ts) as Hsame
      by (intros x; rewrite elem_of_app, list_elem_of_singleton; split; [intros [?| ->]; [done|apply H1]|by left]).
    destruct (NonceIndex p !! k) as [t1|]; by setoid_rewrite Hsame.
  - assert (forall old, NonceIndex p !! nonce_key t = Some old -> replaces t old = false -> preferred old t) as Hother.
    { intros old Ho Hr. destruct (con_nonce _ Hc _ _ Ho) as [_ Hh]. unfold replaces in Hr. unfold preferred.
      destruct (decide (m_tranID old = m_tranID t)) as [E|]; [rewrite E in Hh; naive_solver|].
      apply orb_false_iff in Hr as [H1 H2]. rewrite Z.gtb_ltb in H1. apply Z.ltb_ge in H1. apply andb_false_iff in H2.
      rewrite Z.eqb_neq, Z.ltb_ge in H2. lia. }
    assert (NonceIndex (pool_insert p t).2 = NonceIndex p /\ (exists old, NonceIndex p !! nonce_key t = Some old /\ preferred old t) \/
      NonceIndex (pool_insert p t).2 = <[nonce_key t := t]> (NonceIndex p) /\
        (forall old, NonceIndex p !! nonce_key t = Some old -> preferred t old)) as Hcases.
    { unfold pool_insert, pool_exist. rewrite bool_decide_eq_false_2 by done. destruct (NonceIndex p !! nonce_key t) as [old|] eqn:Eo; [|by right].
      destruct (replaces t old) eqn:Er; [right|left; naive_solver]. split; [done|]. intros ? [= <-]. by apply replaces_spec. }
    unfold pool_insert, pool_exist in Hcases. rewrite bool_decide_eq_false_2 in Hcases by done.
    destruct Hcases as [[-> (old & Ho & Hp)]|[-> Hall]].
    + destruct (NonceIndex p !! k) as [t1|] eqn:Ek.
      * destruct Hk as (H1 & H2 & H3). split; [apply elem_of_app; by left|]. split; [done|]. intros t' [Ht'| ->%list_elem_of_singleton]%elem_of_app Hkt; [auto|].
        right. congruence.
      * intros t' [Ht'| ->%list_elem_of_singleton]%elem_of_app Hkt; [by eapply Hk|congruence].
    + destruct (decide (k = nonce_key t)) as [->|Hne].
      * rewrite lookup_insert_eq. split; [apply elem_of_app; right; by apply list_elem_of_singleton|]. split; [done|]. intros t' [Ht'| ->%list_elem_of_singleton]%elem_of_app Hkt; [right|by left].
        destruct (NonceIndex p !! nonce_key t) as [old|]; [|by destruct (Hk t' Ht')]. destruct Hk as (_ & _ & Hk).
        destruct (Hk t' Ht' Hkt) as [->|Hp]; [by apply Hall|]. eapply preferred_trans; [by apply Hall|done].
      * rewrite lookup_insert_ne by done. destruct (NonceIndex p !! k) as [t1|].
        -- destruct Hk as (H1 & H2 & H3). split; [apply elem_of_app; by left|]. split; [done|].
           intros t' [Ht'| ->%list_elem_of_singleton]%elem_of_app Hkt; [auto|congruence].
        -- intros t' [Ht'| ->%list_elem_of_singleton]%elem_of_app Hkt; [by eapply Hk|congruence].
Qed.

Definition pool_inserts (ts : list (Transaction PubKey)) : TxnPool PubKey := foldl (fun p t => (pool_insert p t).2) pool_clear ts.

Lemma inserts_best ts :
  (forall t t', t ∈ ts -> t' ∈ ts -> m_tranID t = m_tranID t' -> t = t') -> consistent (pool_inserts ts) /\ holds_best (pool_inserts ts) ts.
Proof.
  induction ts as [|t ts IH] using rev_ind; intros Hid.
  - split; [apply consistent_clear|]. intros k. cbn. rewrite lookup_empty. intros t' Ht'. by apply not_elem_of_nil in Ht'.
  - destruct IH as [Hc Hb]; [intros a b Ha Hb; apply Hid; apply elem_of_app; by left|]. unfold pool_inserts in *. rewrite foldl_app. cbn [foldl].
    split; [by apply consistent_insert|]. apply insert_best; [done..|].
    intros a Ha. apply Hid; apply elem_of_app; [by left|right; by apply list_elem_of_singleton].
Qed.

(** C35: the pool keeps one best transaction per sender and nonce.  In every pool
    reachable by insertions, removals and clears the three indexes hold the same
    transactions (each under its identifier, its gas price and identifier, its
    sender and nonce); inserting a transaction whose identifier is pending does
    nothing; inserting another one files it for its sender and nonce when there is none
    pending, or when its gas price is higher, or equal with a smaller identifier, and
    touches nothing else.  So after any sequence [ts] of insertions into an empty pool, in
    which an identifier stands for one transaction, each sender and nonce that occurs
    has the transaction with the highest gas price, among equals the one with the
    smallest identifier. *)
Theorem pool_insert_refines p t ts :
  rtc pool_step pool_clear p -> (forall t t', t ∈ ts -> t' ∈ ts -> m_tranID t = m_tranID t' -> t = t') ->
  (let '(ok, p') := pool_insert p t in
   consistent p /\ consistent p' /\ pool_size p = Z.of_nat (size (NonceIndex p)) /\
   ok = negb (pool_exist p (m_tranID t)) /\
   NonceIndex p' =
     if ok && match NonceIndex p !! nonce_key t with
              | Some old => (tx_gasPrice old <? tx_gasPrice t) ||
                            ((tx_gasPrice old =? tx_gasPrice t) && (m_tranID t <? m_tranID old))
              | None => true
              end
     then <[nonce_key t := t]> (NonceIndex p) else NonceIndex p) /\
  forall k, match NonceIndex (pool_inserts ts) !! k with
            | Some best => best ∈ ts /\ nonce_key best = k /\ forall other, other ∈ ts -> nonce_key other = k ->
                other = best \/ tx_gasPrice other < tx_gasPrice best \/
                (tx_gasPrice other = tx_gasPrice best /\ m_tranID best < m_tranID other)
            | None => forall other, other ∈ ts -> nonce_key other <> k
            end.
Proof.
  intros Hc%reach_consistent Hid. split; [|apply (proj2 (inserts_best ts Hid))]. pose proof (consistent_insert p t Hc) as Hc'.
  destruct (pool_insert p t) as [ok p'] eqn:E. split; [done|]. split; [done|].
  split; [unfold pool_size; by rewrite consistent_size|].
  unfold pool_insert in E. destruct (pool_exist p (m_tranID t)); [by simplify_eq|].
  destruct (NonceIndex p !! nonce_key t) as [old|]; [|by simplify_eq].
  destruct (replaces t old) eqn:Er; unfold replaces in Er; rewrite Z.gtb_ltb, (Z.eqb_sym (tx_gasPrice t)) in Er; simplify_eq; cbn; by rewrite Er.
Qed.

(** [findOne] takes the best-paying transaction.  On every reachable pool it
    returns the pending transaction with the highest gas price (among equals the
    least identifier) and removes exactly that one; or it returns none, changes
    nothing, and then the pool is empty or its gas index has an empty bucket at a
    price above all pending transactions. *)
Theorem findOne_takes_best p :
  rtc pool_step pool_clear p ->
  match findOne p with
  | (Some t, p') =>
      NonceIndex p !! nonce_key t = Some t /\
      (forall k t', NonceIndex p !! k = Some t' -> tx_gasPrice t' <= tx_gasPrice t /\
         (tx_gasPrice t' = tx_gasPrice t -> m_tranID t <= m_tranID t')) /\
      NonceIndex p' = delete (nonce_key t) (NonceIndex p)
  | (None, p') =>
      p' = p /\ (NonceIndex p = ∅ \/ exists price, GasIndex p !! price = Some ∅ /\
                   forall k t', NonceIndex p !! k = Some t' -> tx_gasPrice t' < price)
  end.
Proof.
  intros Hc%reach_consistent. pose proof (findOne_cases p Hc) as Hf.
  destruct (findOne p) as [[t|] p'].
  - destruct Hf as (Hid & Hbest & Hn & _). split; [by apply (con_hash _ Hc) in Hid as [_ ?]|].
    split; [|done]. intros k t' [_ Ht']%(con_nonce _ Hc). by eapply Hbest.
  - destruct Hf as [-> [He|(price & Hp & Hlt)]]; (split; [done|]).
    + left. apply map_size_empty_iff. rewrite (consistent_size p Hc). by apply map_size_empty_iff.
    + right. exists price. split; [done|]. intros k t' [_ Ht']%(con_nonce _ Hc). by eapply Hlt.
Qed.

(** Inserting a transaction that is new, one that takes the place of another. *)
Lemma insert_new p t :
  HashIndex p !! m_tranID t = None -> NonceIndex p !! nonce_key t = None ->
  pool_insert p t = (true, mkPool (<[m_tranID t := t]> (HashIndex p)) (gas_insert (GasIndex p) t)
                             (<[nonce_key t := t]> (NonceIndex p))).
Proof.
  intros Hid Hk. unfold pool_insert, pool_exist. rewrite Hid, Hk.
  rewrite bool_decide_eq_false_2; [done|]. by intros [].
Qed.

Lemma insert_over p old t bucket :
  HashIndex p !! m_tranID t = None -> NonceIndex p !! nonce_key t = Some old -> replaces t old = true ->
  GasIndex p !! tx_gasPrice old = Some bucket ->
  pool_insert p t =
    (true, mkPool (<[m_tranID t := t]> (delete (m_tranID old) (HashIndex p)))
             (gas_insert (<[tx_gasPrice old := delete (m_tranID old) bucket]> (GasIndex p)) t)
             (<[nonce_key t := t]> (NonceIndex p))).
Proof.
  intros Hid Hk Hr Hb. unfold pool_insert, pool_exist. rewrite Hid, Hk, Hr, Hb.
  rewrite bool_decide_eq_false_2; [done|]. by intros [].
Qed.

(** A replaced transaction can block the pool.  Replacing a pending
    transaction leaves its empty bucket in the gas index.  Let [t2] replace [t1]
    and let [t3] of another account pay less than [t1]: once [findOne] has handed
    out [t2], it reports that nothing is left, again and again, while [t3] is
    still pending. *)
Theorem replaced_bucket_blocks t1 t2 t3 :
  nonce_key t1 = nonce_key t2 -> nonce_key t3 <> nonce_key t1 ->
  m_tranID t1 <> m_tranID t2 -> m_tranID t3 <> m_tranID t1 -> m_tranID t3 <> m_tranID t2 ->
  tx_gasPrice t3 < tx_gasPrice t1 < tx_gasPrice t2 ->
  let p := (pool_insert (pool_insert (pool_insert pool_clear t1).2 t2).2 t3).2 in
  exists p', findOne p = (Some t2, p') /\ HashIndex p' !! m_tranID t3 = Some t3 /\
    pool_size p' = 1 /\ findOne p' = (None, p').
Proof.
  intros Hk12 Hk3 Hid12 Hid31 Hid32 Hg p.
  set (g1 := tx_gasPrice t1) in *. set (g2 := tx_gasPrice t2) in *. set (g3 := tx_gasPrice t3) in *.
  set (gas := <[g3 := {[m_tranID t3 := t3]}]> (<[g2 := {[m_tranID t2 := t2]}]>
                {[g1 := ∅]}) : gmap Z (gmap Z (Transaction PubKey))).
  assert (p = mkPool (<[m_tranID t3 := t3]> {[m_tranID t2 := t2]}) gas
                (<[nonce_key t3 := t3]> {[nonce_key t2 := t2]})) as ->.
  { unfold p. rewrite (insert_new pool_clear t1) by done. cbn [snd HashIndex GasIndex NonceIndex pool_clear].
    assert (gas_insert ∅ t1 = {[g1 := {[m_tranID t1 := t1]}]}) as -> by done. rewrite !insert_empty.
    rewrite (insert_over _ t1 t2 {[m_tranID t1 := t1]}); cbn [snd HashIndex GasIndex NonceIndex].
    - rewrite delete_singleton_eq, insert_empty. fold g1. rewrite insert_singleton_eq.
      rewrite Hk12, insert_singleton_eq.
      assert (gas_insert {[g1 := ∅]} t2 = <[g2 := {[m_tranID t2 := t2]}]> {[g1 := ∅]}) as ->.
      { unfold gas_insert. fold g2. by rewrite lookup_singleton_ne by lia. }
      rewrite insert_new; cbn [snd HashIndex GasIndex NonceIndex].
      + f_equal. unfold gas_insert. fold g3. rewrite lookup_insert_ne, lookup_singleton_ne by lia. done.
      + by rewrite lookup_singleton_ne.
      + rewrite lookup_singleton_ne; [done|congruence].
    - by rewrite lookup_singleton_ne.
    - rewrite <- Hk12. apply lookup_singleton_eq.
    - unfold replaces. fold g1 g2. lia.
    - apply lookup_singleton_eq. }
  assert (forall k' v', gas !! k' = Some v' -> k' = g3 \/ k' = g2 \/ k' = g1) as Hdom.
  { intros k' v'. unfold gas. rewrite !lookup_insert_Some, lookup_singleton_Some. naive_solver. }
  assert (findOne (mkPool (<[m_tranID t3 := t3]> {[m_tranID t2 := t2]}) gas
                (<[nonce_key t3 := t3]> {[nonce_key t2 := t2]}))
    = (Some t2, mkPool {[m_tranID t3 := t3]} (<[g3 := {[m_tranID t3 := t3]}]> {[g1 := ∅]})
         {[nonce_key t3 := t3]})) as ->.
  { unfold findOne. cbn [GasIndex HashIndex NonceIndex].
    rewrite (map_begin_max_eq gas g2 {[m_tranID t2 := t2]}).
    - rewrite map_begin_min_singleton, delete_singleton_eq, bool_decide_eq_true_2 by done. do 2 f_equal.
      + rewrite delete_insert_ne, delete_singleton_eq by congruence. apply insert_empty.
      + unfold gas. rewrite delete_insert_ne by lia. rewrite delete_insert_id; [done|].
        rewrite lookup_singleton_ne; [done|lia].
      + rewrite delete_insert_ne, delete_singleton_eq by congruence. apply insert_empty.
    - unfold gas. rewrite lookup_insert_ne by lia. apply lookup_insert_eq.
    - intros k' v' Hk'. apply Hdom in Hk'. lia. }
  eexists. split; [done|]. cbn. split; [apply lookup_singleton_eq|].
  split; [unfold pool_size; cbn; by rewrite map_size_singleton|].
  unfold findOne. cbn [GasIndex].
  rewrite (map_begin_max_eq _ g1 ∅); [done|by rewrite lookup_insert_ne, lookup_singleton_eq by lia|].
  intros k' v' [[<- _]|[_ [<- _]%lookup_singleton_Some]]%lookup_insert_Some; lia.
Qed.

End history.

(** ** Witnesses: senders are numbers *)

Definition tx (id key nonce price : Z) : Transaction Z :=
  mkTransaction id 1 nonce 0 key 10 price 50 [] [] (0, 0).

Definition pool1 : TxnPool Z := (pool_insert pool_clear (tx 1 7 1 10)).2.

Lemma pool1_reach : rtc pool_step pool_clear pool1.
Proof. apply rtc_once. exact (pool_step_insert pool_clear (tx 1 7 1 10)). Qed.

(** Two offers of sender 7 for nonce 1 and one for nonce 2. *)
Definition offers : list (Transaction Z) := [tx 1 7 1 10; tx 2 7 1 20; tx 3 7 2 5].

Lemma pool_insert_refines_witness :
  NonceIndex (pool_insert pool1 (tx 2 7 1 20)).2 = <[(7, 1) := tx 2 7 1 20]> (NonceIndex pool1) /\
  consistent (pool_insert pool1 (tx 2 7 1 20)).2 /\
  exists best, NonceIndex (pool_inserts offers) !! (7, 1) = Some best /\ (tx 1 7 1 10 = best \/ tx_gasPrice (tx 1 7 1 10) < tx_gasPrice best).
Proof.
  destruct (pool_insert_refines pool1 (tx 2 7 1 20) offers pool1_reach) as [Hw Hbest].
  { intros t t' Ht Ht' Hid. unfold offers in Ht, Ht'. rewrite !elem_of_cons, elem_of_nil in Ht, Ht'. destruct_or! Ht; destruct_or! Ht'; by subst. }
  destruct (pool_insert pool1 (tx 2 7 1 20)) as [ok p'] eqn:E. destruct Hw as (_ & Hc & _ & Hok & Hn).
  assert (ok = true) as -> by (rewrite Hok; vm_compute; reflexivity). split; [exact Hn|]. split; [exact Hc|].
  specialize (Hbest (7, 1)). destruct (NonceIndex (pool_inserts offers) !! (7, 1)) as [best|] eqn:Eb.
  - destruct Hbest as (_ & _ & Hb). exists best. split; [done|]. destruct (Hb (tx 1 7 1 10)) as [H1|[H1|[_ H1]]]; [by left|done|by left|by right|].
    exfalso. vm_compute in Eb. injection Eb as <-. vm_compute in H1. discriminate.
  - exfalso. apply (Hbest (tx 1 7 1 10)); [by left|done].
Defined.

Lemma findOne_takes_best_witness :
  exists t p', findOne pool1 = (Some t, p') /\ NonceIndex p' = delete (nonce_key t) (NonceIndex pool1).
Proof.
  pose proof (findOne_takes_best pool1 pool1_reach) as Hw.
  destruct (findOne pool1) as [[t|] p'] eqn:E.
  - destruct Hw as (_ & _ & Hn). exists t, p'. split; [reflexivity|exact Hn].
  - apply (f_equal (fun x => match x.1 with Some _ => true | None => false end)) in E.
    vm_compute in E. discriminate E.
Defined.

Lemma replaced_bucket_blocks_witness :
  let p := (pool_insert (pool_insert (pool_insert pool_clear (tx 1 7 1 10)).2 (tx 2 7 1 20)).2 (tx 3 8 1 5)).2 in
  exists p', findOne p = (Some (tx 2 7 1 20), p') /\ pool_size p' = 1 /\ findOne p' = (None, p').
Proof.
  destruct (replaced_bucket_blocks (tx 1 7 1 10) (tx 2 7 1 20) (tx 3 8 1 5)) as (p' & E & _ & Hs & Hn);
    [reflexivity|discriminate..|split; reflexivity|].
  exists p'. split; [exact E|]. split; [exact Hs|exact Hn].
Defined.
