(* ===== verification/LevelDB.v ===== *)
(** * The database objects ([depends/libDatabase/LevelDB.cpp])

    A [LevelDB] object holds the pointer to an open LevelDB database.  Numbers are
    keys in decimal, hashes are keys in hexadecimal.  The LevelDB library and the
    directory on the disk are the class [leveldb]: reading, writing and deleting a
    key, destroying the database and opening an empty one.

    Every use of a null pointer is a fault.  A failed [DB::Open] leaves the new
    pointer unset; it counts as null here. *)

From stdpp Require Import base numbers gmap list.
From S2P Require Import Prelude.
Open Scope Z_scope.

(** ** Numbers and hashes as keys *)

(** Decimal digits, most significant first; [fuel] bounds their number. *)
Fixpoint dec_digits (fuel : nat) (n : Z) : bytes :=
  match fuel with
  | O => []
  | S fuel => if n <? 10 then [48 + n] else dec_digits fuel (n / 10) ++ [48 + n mod 10]
  end.

(** [std::to_string] of an unsigned number, [convert_to<string>]. *)
Definition to_string (n : Z) : bytes := dec_digits (S (Z.to_nat (Z.log2 n))) n.

Definition is_digit (c : Z) : bool := (48 <=? c) && (c <=? 57).
Definition is_space (c : Z) : bool := (c =? 32) || ((9 <=? c) && (c <=? 13)).

Fixpoint skip_spaces (s : bytes) : bytes :=
  match s with
  | c :: s' => if is_space c then skip_spaces s' else s
  | [] => []
  end.

(** The value of the leading digits and their number. *)
Fixpoint dec_value (acc : Z) (s : bytes) : Z :=
  match s with
  | c :: s' => if is_digit c then dec_value (acc * 10 + (c - 48)) s' else acc
  | [] => acc
  end.

(** [std::stoull], [std::stoul]: blanks, a sign, digits, anything after; [None] is
    the exception. *)
Definition stoull (s : bytes) : option Z :=
  let s := skip_spaces s in
  let '(negative, s) :=
    match s with
    | c :: s' => if c =? 45 then (true, s') else if c =? 43 then (false, s') else (false, s)
    | [] => (false, s)
    end in
  match s with
  | c :: _ =>
      if is_digit c then
        let v := dec_value 0 s in
        if v <? 2 ^ 64 then Some (if negative : bool then u64 (- v) else v) else None
      else None
  | [] => None
  end.

Definition hex_digit (d : Z) : Z := if d <? 10 then 48 + d else 87 + d.

(** [FixedHash::hex] *)
Definition hex (h : bytes) : bytes := h ≫= (fun b => [hex_digit (b / 16); hex_digit (b mod 16)]).

(** ** The library *)

(** [ldb_Put] and [ldb_Delete] give the status ([ok()]) and the database after it,
    [ldb_Write] too, for a [WriteBatch] of insertions;
    [ldb_DestroyDB] is the status of destroying the closed database, [ldb_Open] the
    database opened after its directory was removed, [ldb_Reopen] the database
    opened again as it is on the disk ([None]: status not OK). *)
Class leveldb (DB : Type) := {
  ldb_Get : DB -> bytes -> option bytes;
  ldb_Put : DB -> bytes -> bytes -> bool * DB;
  ldb_Delete : DB -> bytes -> bool * DB;
  ldb_Write : DB -> list (bytes * bytes) -> bool * DB;
  ldb_entries : DB -> list (bytes * bytes);
  ldb_DestroyDB : DB -> bool;
  ldb_Open : DB -> option DB;
  ldb_Reopen : DB -> option DB
}.

(** The value of a key after one more insertion of a batch. *)
Definition batch_at (k : bytes) (value : option bytes) (kv : bytes * bytes) : option bytes :=
  if decide (k = kv.1) then Some kv.2 else value.

(** The documented behaviour: an operation on a key leaves the others alone, also
    when it fails; a batch is applied in order, and as a whole or not
    at all; [ldb_entries] is what an iterator visits. *)
Class leveldbSpec (DB : Type) `{leveldb DB} := {
  ldb_get_put db db' k v k' :
    ldb_Put db k v = (true, db') -> ldb_Get db' k' = if decide (k' = k) then Some v else ldb_Get db k';
  ldb_get_delete db db' k k' :
    ldb_Delete db k = (true, db') -> ldb_Get db' k' = if decide (k' = k) then None else ldb_Get db k';
  ldb_put_other db ok db' k v k' : ldb_Put db k v = (ok, db') -> k' <> k -> ldb_Get db' k' = ldb_Get db k';
  ldb_delete_other db ok db' k k' : ldb_Delete db k = (ok, db') -> k' <> k -> ldb_Get db' k' = ldb_Get db k';
  ldb_get_write db db' kvs k :
    ldb_Write db kvs = (true, db') -> ldb_Get db' k = foldl (batch_at k) (ldb_Get db k) kvs;
  ldb_write_failed db db' kvs k : ldb_Write db kvs = (false, db') -> ldb_Get db' k = ldb_Get db k;
  ldb_get_open db db' k : ldb_Open db = Some db' -> ldb_Get db' k = None;
  ldb_get_reopen db db' k : ldb_Reopen db = Some db' -> ldb_Get db' k = ldb_Get db k;
  ldb_get_entries db k v : (k, v) ∈ ldb_entries db <-> ldb_Get db k = Some v;
  ldb_entries_keys db : NoDup (ldb_entries db).*1
}.

(** ** The object *)

(** [m_disk] is the database on the disk, which the object points to while
    [m_open].  [m_in_subdirectory]: [m_subdirectory] is not empty. *)
Record LevelDB (DB : Type) := mkLevelDB {
  m_disk : DB;
  m_open : bool;
  m_in_subdirectory : bool
}.
Arguments mkLevelDB {DB} _ _ _.
Arguments m_disk {DB} _.
Arguments m_open {DB} _.
Arguments m_in_subdirectory {DB} _.

Section operations.
Context {DB : Type} `{leveldb DB}.
Implicit Types l : LevelDB DB.

(** [m_db->...] *)
Definition with_db {A} l (use : DB -> A) : outcome A :=
  if m_open l then Ret (use (m_disk l)) else Fault NullPointer.

Definition set_db l (db : DB) : LevelDB DB := mkLevelDB db (m_open l) (m_in_subdirectory l).

(** The common part of the [Lookup]s: [found] and the value. *)
Definition lookup_key l (key : bytes) : outcome (bool * bytes) :=
  with_db l (fun db => match ldb_Get db key with Some v => (true, v) | None => (false, []) end).

Definition lookup_value l (key : bytes) : outcome bytes := '(_, v) ← lookup_key l key; Ret v.

(** [Insert(key, value)] on slices: 0, or -1 when the status is not OK. *)
Definition insert_key l (key value : bytes) : outcome (Z * LevelDB DB) :=
  with_db l (fun db => let '(ok, db) := ldb_Put db key value in (if ok : bool then 0 else -1, set_db l db)).

Definition delete_key l (key : bytes) : outcome (Z * LevelDB DB) :=
  with_db l (fun db => let '(ok, db) := ldb_Delete db key in (if ok : bool then 0 else -1, set_db l db)).

Definition Lookup_string l (key : bytes) : outcome bytes := lookup_value l key.
Definition Lookup_num l (blockNum : Z) : outcome bytes := lookup_value l (to_string blockNum).
Definition Lookup_num_found l (blockNum : Z) : outcome (bool * bytes) := lookup_key l (to_string blockNum).
Definition Lookup_hash l (key : bytes) : outcome bytes := lookup_value l (hex key).
(** [Lookup(bytesConstRef)]: the 32 bytes themselves. *)
Definition Lookup_raw l (key : bytes) : outcome bytes := lookup_value l (take 32 key).

Definition Insert_string l (key body : bytes) : outcome (Z * LevelDB DB) := insert_key l key body.
Definition Insert_num l (blockNum : Z) (body : bytes) : outcome (Z * LevelDB DB) :=
  insert_key l (to_string blockNum) body.
(** [Insert(h256, bytes)] *)
Definition Insert_hash l (key body : bytes) : outcome (Z * LevelDB DB) := insert_key l (hex key) body.
(** [Insert(h256, string)], [Insert(h256, bytesConstRef)]: the bytes of the hash. *)
Definition Insert_hash_raw l (key value : bytes) : outcome (Z * LevelDB DB) := insert_key l key value.

Definition Exists_hash l (key : bytes) : outcome bool :=
  ret ← Lookup_hash l key; Ret (negb (zlen ret =? 0)).
Definition Exists_num l (blockNum : Z) : outcome bool :=
  ret ← Lookup_num l blockNum; Ret (negb (zlen ret =? 0)).
Definition Exists_string l (key : bytes) : outcome bool :=
  ret ← Lookup_string l key; Ret (negb (zlen ret =? 0)).

Definition DeleteKey_hash l (key : bytes) : outcome (Z * LevelDB DB) := delete_key l (hex key).
Definition DeleteKey_num l (blockNum : Z) : outcome (Z * LevelDB DB) := delete_key l (to_string blockNum).
Definition DeleteKey_string l (key : bytes) : outcome (Z * LevelDB DB) := delete_key l key.

(** [BatchInsert(unordered_map<string, string>)]: empty values are left out. *)
Definition BatchInsert l (kv_map : gmap bytes bytes) : outcome (bool * LevelDB DB) :=
  with_db l (fun db =>
    let '(ok, db) := ldb_Write db (filter (fun kv => kv.2 <> []) (map_to_list kv_map)) in
    (ok : bool, set_db l db)).

(** [RefreshDB]: the database is opened again. *)
Definition RefreshDB l : bool * LevelDB DB :=
  match ldb_Reopen (m_disk l) with
  | None => (false, mkLevelDB (m_disk l) false (m_in_subdirectory l))
  | Some db => (true, mkLevelDB db true (m_in_subdirectory l))
  end.

(** The end of both [ResetDB] functions: a status that is not OK is only logged. *)
Definition open_empty l : bool * LevelDB DB :=
  match ldb_Open (m_disk l) with
  | None => (true, mkLevelDB (m_disk l) false (m_in_subdirectory l))
  | Some db => (true, mkLevelDB db true (m_in_subdirectory l))
  end.

(** [DeleteDBForNormalNode], [DeleteDBForLookupNode]: the object is closed. *)
Definition DeleteDB l : Z * LevelDB DB :=
  (if ldb_DestroyDB (m_disk l) then 0 else -1, mkLevelDB (m_disk l) false (m_in_subdirectory l)).

Definition ResetDBForNormalNode l : bool * LevelDB DB :=
  let '(ret, l) := DeleteDB l in
  if (ret =? 0) && negb (m_in_subdirectory l) then open_empty l else (false, l).

Definition ResetDBForLookupNode l : bool * LevelDB DB :=
  let '(ret, l) := DeleteDB l in
  if ret =? 0 then open_empty l else (false, l).

Definition ResetDB (LOOKUP_NODE_MODE : bool) l : bool * LevelDB DB :=
  if LOOKUP_NODE_MODE then ResetDBForLookupNode l else ResetDBForNormalNode l.

End operations.

(** ** Keys are distinct *)

Lemma dec_digits_digits fuel n c : 0 <= n -> c ∈ dec_digits fuel n -> is_digit c = true.
Proof.
  revert n. induction fuel as [|fuel IH]; intros n Hn Hc; cbn in Hc; [by apply elem_of_nil in Hc|].
  unfold is_digit. destruct (Z.ltb_spec n 10).
  - apply list_elem_of_singleton in Hc as ->. apply andb_true_iff. lia.
  - apply elem_of_app in Hc as [Hc|Hc]; [apply (IH (n / 10)); [zlia|done]|].
    apply list_elem_of_singleton in Hc as ->. apply andb_true_iff. zlia.
Qed.

Lemma dec_value_app a s t :
  (forall c, c ∈ s -> is_digit c = true) -> dec_value a (s ++ t) = dec_value (dec_value a s) t.
Proof.
  revert a. induction s as [|c s IH]; intros a Hs; [done|]. cbn. rewrite Hs by (by left).
  apply IH. intros d Hd. apply Hs. by right.
Qed.

Lemma dec_value_digits fuel n : 0 <= n < 2 ^ Z.of_nat fuel -> dec_value 0 (dec_digits fuel n) = n.
Proof.
  revert n. induction fuel as [|fuel IH]; intros n Hn; [cbn in *; lia|]. cbn [dec_digits].
  destruct (Z.ltb_spec n 10).
  - cbn. unfold is_digit. destruct (Z.leb_spec 48 (48 + n)), (Z.leb_spec (48 + n) 57); try lia. cbn. lia.
  - rewrite dec_value_app by (intros c; apply dec_digits_digits; zlia).
    rewrite IH by (rewrite Nat2Z.inj_succ, Z.pow_succ_r in Hn by lia; zlia).
    cbn. unfold is_digit. destruct (Z.leb_spec 48 (48 + n mod 10)), (Z.leb_spec (48 + n mod 10) 57); try zlia.
    cbn [andb dec_value]. zlia.
Qed.

Lemma to_string_fuel n : 0 <= n -> n < 2 ^ Z.of_nat (S (Z.to_nat (Z.log2 n))).
Proof.
  intros Hn. rewrite Nat2Z.inj_succ, Z2Nat.id by apply Z.log2_nonneg.
  destruct (decide (n = 0)) as [->|]; [done|]. apply Z.log2_spec. lia.
Qed.

Lemma to_string_nonempty n : 0 <= n -> exists c s, to_string n = c :: s /\ is_digit c = true.
Proof.
  intros Hn. destruct (to_string n) as [|c s] eqn:E.
  - unfold to_string in E. cbn [dec_digits] in E. destruct (n <? 10); [done|]. by destruct (dec_digits _ _).
  - exists c, s. split; [done|]. apply (dec_digits_digits (S (Z.to_nat (Z.log2 n))) n); [done|].
    unfold to_string in E. rewrite E. by left.
Qed.

(** What [to_string] wrote is read back. *)
Lemma stoull_to_string n : 0 <= n < 2 ^ 64 -> stoull (to_string n) = Some n.
Proof.
  intros Hn. destruct (to_string_nonempty n) as (c & s & E & Hc); [lia|]. unfold stoull.
  assert (skip_spaces (to_string n) = to_string n) as ->.
  { rewrite E. cbn. unfold is_digit, is_space in *. zbool.
    destruct (Z.eqb_spec c 32), (Z.leb_spec 9 c), (Z.leb_spec c 13); try lia; done. }
  assert (dec_value 0 (to_string n) = n) as Hv.
  { apply dec_value_digits. split; [lia|]. apply to_string_fuel. lia. }
  rewrite E in Hv |- *. unfold is_digit in Hc. zbool.
  destruct (Z.eqb_spec c 45), (Z.eqb_spec c 43); try lia. unfold is_digit.
  destruct (Z.leb_spec 48 c), (Z.leb_spec c 57); try lia. cbn [andb]. rewrite Hv.
  destruct (Z.ltb_spec n (2 ^ 64)); [done|lia].
Qed.

Lemma to_string_inj a b : 0 <= a -> 0 <= b -> to_string a = to_string b -> a = b.
Proof.
  intros Ha Hb E. rewrite <- (dec_value_digits (S (Z.to_nat (Z.log2 a))) a) by (split; [done|by apply to_string_fuel]).
  rewrite <- (dec_value_digits (S (Z.to_nat (Z.log2 b))) b) by (split; [done|by apply to_string_fuel]).
  unfold to_string in E. by rewrite E.
Qed.

Lemma hex_digit_inj a b : 0 <= a < 16 -> 0 <= b < 16 -> hex_digit a = hex_digit b -> a = b.
Proof. unfold hex_digit. intros. destruct (Z.ltb_spec a 10), (Z.ltb_spec b 10); lia. Qed.

Lemma hex_inj a b : bytes_ok a -> bytes_ok b -> hex a = hex b -> a = b.
Proof.
  revert b. induction a as [|x a IH]; intros [|y b] Ha Hb E; [done..|].
  apply Forall_cons in Ha as [Hx Ha]. apply Forall_cons in Hb as [Hy Hb]. unfold is_byte in *.
  unfold hex in E. cbn in E. injection E as E1 E2 E3.
  apply hex_digit_inj in E1; [|zlia..]. apply hex_digit_inj in E2; [|zlia..].
  f_equal; [zlia|]. by apply IH.
Qed.

Lemma length_hex h : length (hex h) = (2 * length h)%nat.
Proof. induction h as [|b h IH]; [done|]. unfold hex in *. cbn. rewrite IH. lia. Qed.

(** ** What the operations do to the stored values *)

Section facts.
Context {DB : Type} `{leveldbSpec DB}.
Implicit Types l : LevelDB DB.

(** The value stored under a key. *)
Definition stored l (key : bytes) : option bytes := ldb_Get (m_disk l) key.

Lemma lookup_key_open l k :
  m_open l = true ->
  lookup_key l k = Ret (match stored l k with Some v => (true, v) | None => (false, []) end).
Proof. intros Ho. unfold lookup_key, with_db. by rewrite Ho. Qed.

Lemma lookup_value_open l k : m_open l = true -> lookup_value l k = Ret (default [] (stored l k)).
Proof. intros Ho. unfold lookup_value. rewrite lookup_key_open by done. cbn. by destruct (stored l k). Qed.

Lemma insert_key_open l k v :
  m_open l = true ->
  exists ret l', insert_key l k v = Ret (ret, l') /\ m_open l' = true /\
    (ret = 0 \/ ret = -1) /\
    (ret = 0 -> forall k', stored l' k' = if decide (k' = k) then Some v else stored l k').
Proof.
  intros Ho. unfold insert_key, with_db. rewrite Ho. destruct (ldb_Put (m_disk l) k v) as [ok db'] eqn:E.
  eexists _, _. split; [done|]. split; [done|]. destruct ok; (split; [by auto|]); [|done].
  intros _ k'. unfold stored. cbn. by apply ldb_get_put.
Qed.

Lemma insert_key_0 l k v l' :
  insert_key l k v = Ret (0, l') ->
  m_open l' = true /\ forall k', stored l' k' = if decide (k' = k) then Some v else stored l k'.
Proof.
  intros E. destruct (m_open l) eqn:Ho; [|by unfold insert_key, with_db in E; rewrite Ho in E].
  destruct (insert_key_open l k v Ho) as (ret & l1 & E1 & Ho1 & _ & Hs). rewrite E in E1.
  injection E1 as <- <-. by auto.
Qed.

Lemma delete_key_0 l k l' :
  delete_key l k = Ret (0, l') ->
  m_open l' = true /\ forall k', stored l' k' = if decide (k' = k) then None else stored l k'.
Proof.
  unfold delete_key, with_db. destruct (m_open l) eqn:Ho; [|done].
  destruct (ldb_Delete (m_disk l) k) as [ok db'] eqn:E. destruct ok; [|done]. intros [= <-].
  split; [done|]. intros k'. unfold stored. cbn. by apply ldb_get_delete.
Qed.

(** Whatever the status, the other keys keep their values. *)
Lemma insert_key_other l k v ret l' k' :
  insert_key l k v = Ret (ret, l') -> k' <> k -> m_open l' = true /\ stored l' k' = stored l k'.
Proof.
  unfold insert_key, with_db. destruct (m_open l) eqn:Ho; [|done].
  destruct (ldb_Put (m_disk l) k v) as [ok db'] eqn:E. intros [= _ <-] Hk. split; [done|].
  unfold stored. cbn. by eapply ldb_put_other.
Qed.

Lemma delete_key_other l k ret l' k' :
  delete_key l k = Ret (ret, l') -> k' <> k -> m_open l' = true /\ stored l' k' = stored l k'.
Proof.
  unfold delete_key, with_db. destruct (m_open l) eqn:Ho; [|done].
  destruct (ldb_Delete (m_disk l) k) as [ok db'] eqn:E. intros [= _ <-] Hk. split; [done|].
  unfold stored. cbn. by eapply ldb_delete_other.
Qed.

(** After a reset that opened the database, it is empty; after one that did not,
    the object is closed. *)
Lemma ResetDB_effect mode l ok l' :
  ResetDB mode l = (ok, l') ->
  (m_open l' = true /\ ok = true /\ forall k, stored l' k = None) \/ m_open l' = false.
Proof.
  assert (forall l1 ok l', open_empty l1 = (ok, l') ->
    (m_open l' = true /\ ok = true /\ forall k, stored l' k = None) \/ m_open l' = false) as Hopen.
  { intros l1 ok1 l1'. unfold open_empty. destruct (ldb_Open _) as [db|] eqn:E; intros [= <- <-]; [left|by right].
    split; [done|]. split; [done|]. intros k. unfold stored. cbn. by eapply ldb_get_open. }
  unfold ResetDB, ResetDBForLookupNode, ResetDBForNormalNode, DeleteDB. destruct mode.
  - destruct (ldb_DestroyDB (m_disk l)); cbn; [by apply Hopen|]. intros [= <- <-]. by right.
  - destruct (ldb_DestroyDB (m_disk l)); cbn; [|intros [= <- <-]; by right].
    destruct (m_in_subdirectory l); cbn; [intros [= <- <-]; by right|by apply Hopen].
Qed.

Lemma ResetDB_subdirectory mode l : m_in_subdirectory (ResetDB mode l).2 = m_in_subdirectory l.
Proof.
  unfold ResetDB, ResetDBForLookupNode, ResetDBForNormalNode, DeleteDB, open_empty. cbn [m_disk m_in_subdirectory].
  destruct mode, (ldb_DestroyDB (m_disk l)), (ldb_Open (m_disk l)); cbn; try done; by destruct (m_in_subdirectory l).
Qed.

(** A key that is not in a batch keeps its value; a key that is takes its value. *)
Lemma batch_other k (kvs : list (bytes * bytes)) o : k ∉ kvs.*1 -> foldl (batch_at k) o kvs = o.
Proof.
  revert o. induction kvs as [|[k1 v1] kvs IH]; intros o Hk; [done|].
  cbn in Hk. rewrite not_elem_of_cons in Hk. destruct Hk as [Hk1 Hk]. cbn.
  unfold batch_at at 2. cbn. rewrite decide_False by done. by apply IH.
Qed.

Lemma batch_entry k v (kvs : list (bytes * bytes)) o :
  NoDup kvs.*1 -> (k, v) ∈ kvs -> foldl (batch_at k) o kvs = Some v.
Proof.
  revert o. induction kvs as [|[k1 v1] kvs IH]; intros o Hnd Hkv; [by apply elem_of_nil in Hkv|].
  apply NoDup_cons in Hnd as [Hn1 Hnd]. apply elem_of_cons in Hkv as [[= <- <-]|Hkv]; cbn.
  - rewrite batch_other by done. unfold batch_at. by rewrite decide_True.
  - by apply IH.
Qed.

(** A batch stores the non-empty values of the map, all or none. *)
Lemma BatchInsert_effect l kv_map ok l' :
  BatchInsert l kv_map = Ret (ok, l') ->
  m_open l' = true /\ m_in_subdirectory l' = m_in_subdirectory l /\
  forall k, stored l' k = match kv_map !! k with
                          | Some v => if ok && bool_decide (v <> []) then Some v else stored l k
                          | None => stored l k
                          end.
Proof.
  unfold BatchInsert, with_db. destruct (m_open l) eqn:Ho; [|done].
  destruct (ldb_Write _ _) as [ok' db'] eqn:E. intros [= <- <-]. split; [done|]. split; [done|]. intros k.
  unfold stored. cbn. destruct ok'; [|rewrite (ldb_write_failed _ _ _ k E); by destruct (kv_map !! k)].
  rewrite (ldb_get_write _ _ _ k E). clear E. cbn [andb].
  set (kvs := filter _ (map_to_list kv_map)).
  assert (forall k v, (k, v) ∈ kvs <-> kv_map !! k = Some v /\ v <> []) as Hin.
  { intros k1 v1. unfold kvs. rewrite list_elem_of_filter, elem_of_map_to_list. naive_solver. }
  destruct (kv_map !! k) as [v|] eqn:Ek; [case_bool_decide as Hv|].
  - apply batch_entry; [|by apply Hin]. unfold kvs.
    apply NoDup_fmap_fst; [|apply NoDup_filter, NoDup_map_to_list].
    intros k1 v1 v2 [H1 _]%Hin [H2 _]%Hin. congruence.
  - apply batch_other. intros ([k1 v1] & -> & Hk1)%list_elem_of_fmap. apply Hin in Hk1. cbn in *. naive_solver.
  - apply batch_other. intros ([k1 v1] & -> & Hk1)%list_elem_of_fmap. apply Hin in Hk1. cbn in *. naive_solver.
Qed.

(** A hash written as a string value is not found again.  [Insert] of a hash
    with a [string] or a [bytesConstRef] stores under the 32 bytes of the hash,
    [Insert] with a byte vector under its hexadecimal form, and [Lookup] and
    [Exists] of a hash read the hexadecimal form: a value written the first way is
    not seen by them, and not removed by [DeleteKey]. *)
Theorem raw_hash_not_found l h v l' :
  bytes_ok h -> zlen h = 32 -> m_open l = true ->
  Insert_hash_raw l h v = Ret (0, l') ->
  Lookup_hash l' h = Lookup_hash l h /\ Exists_hash l' h = Exists_hash l h /\ Lookup_raw l' h = Ret v /\
  (forall l'', DeleteKey_hash l' h = Ret (0, l'') -> Lookup_raw l'' h = Ret v).
Proof.
  intros Hb Hh Ho Hi. apply insert_key_0 in Hi as [Ho' Hs].
  assert (hex h <> h) as Hne.
  { intros E. apply (f_equal length) in E. rewrite length_hex in E. unfold zlen in Hh. lia. }
  assert (take 32 h = h) as Hr by (apply take_ge; unfold zlen in Hh; lia).
  assert (Lookup_hash l' h = Lookup_hash l h) as Hl.
  { unfold Lookup_hash. rewrite !lookup_value_open, Hs by done. by rewrite decide_False. }
  split; [done|]. split; [unfold Exists_hash; by rewrite Hl|]. unfold Lookup_raw. rewrite Hr. split.
  - rewrite lookup_value_open, Hs by done. by rewrite decide_True.
  - intros l'' [Ho'' Hd]%delete_key_0. rewrite lookup_value_open, Hd, Hs by done.
    by rewrite decide_False, decide_True.
Qed.

(** A number key reads back what was inserted last under the same number. *)
Lemma Insert_num_0 l n v l' :
  0 <= n -> Insert_num l n v = Ret (0, l') ->
  m_open l' = true /\
  forall m, 0 <= m -> stored l' (to_string m) = if decide (m = n) then Some v else stored l (to_string m).
Proof.
  intros Hn [Ho Hs]%insert_key_0. split; [done|]. intros m Hm. rewrite Hs.
  destruct (decide (m = n)) as [->|Hne]; [by rewrite decide_True|]. rewrite decide_False; [done|].
  intros E. by apply to_string_inj in E.
Qed.

End facts.

(** ** A database that is a finite map *)

Module MapDB.

Definition db : Type := gmap bytes bytes.

#[global] Instance map_leveldb : leveldb db := {|
  ldb_Get m k := m !! k;
  ldb_Put m k v := (true, <[k := v]> m);
  ldb_Delete m k := (true, delete k m);
  ldb_Write m kvs := (true, foldl (fun m kv => <[kv.1 := kv.2]> m) m kvs);
  ldb_entries m := map_to_list m;
  ldb_DestroyDB _ := true;
  ldb_Open _ := Some ∅;
  ldb_Reopen m := Some m
|}.

#[global] Instance map_leveldb_spec : leveldbSpec db.
Proof.
  split; cbn; try (intros; simplify_eq; apply lookup_empty || done).
  - intros m m' k v k' [= <-]. case_decide as E; [subst; apply lookup_insert_eq|by apply lookup_insert_ne].
  - intros m m' k k' [= <-]. case_decide as E; [subst; apply lookup_delete_eq|by apply lookup_delete_ne].
  - intros m ok m' k v k' [= <- <-] Hk. by apply lookup_insert_ne.
  - intros m ok m' k k' [= <- <-] Hk. by apply lookup_delete_ne.
  - intros m m' kvs k [= <-]. revert m. induction kvs as [|[k1 v1] kvs IH]; intros m; [done|]. cbn. rewrite IH.
    f_equal. unfold batch_at. cbn. case_decide as E; [subst; apply lookup_insert_eq|by apply lookup_insert_ne].
  - intros. apply elem_of_map_to_list.
  - intros. apply NoDup_fst_map_to_list.
Defined.

Definition opened : LevelDB db := mkLevelDB (∅ : db) true false.

Lemma raw_hash_not_found_witness :
  exists l, Insert_hash_raw opened (replicate 32 7) [1; 2] = Ret (0, l) /\
    Lookup_hash l (replicate 32 7) = Ret [] /\ Lookup_raw l (replicate 32 7) = Ret [1; 2].
Proof.
  eexists. split; [reflexivity|].
  destruct (raw_hash_not_found opened (replicate 32 7) [1; 2] _
    ltac:(apply Forall_replicate; unfold is_byte; lia) eq_refl eq_refl eq_refl) as (H1 & _ & H2 & _).
  split; [exact H1|exact H2].
Defined.

End MapDB.
