(* ===== verification/Json.v ===== *)
(** * JSON values ([libUtils/JsonUtils.h])

    The jsoncpp library is the class [Json]: what the node reads of a value
    ([isMember], [operator[]], [asString], iteration, the type tests), how it builds
    one, and the reader and writer behind [JSONUtils].  An exception of the library
    is the fault [Thrown]. *)

From Stdlib Require Import String Ascii.
From stdpp Require Import base numbers list.
From S2P Require Import Prelude.
Open Scope Z_scope.

(** The bytes of a string literal. *)
Definition str (s : string) : bytes :=
  (fun c => Z.of_N (N_of_ascii c)) <$> list_ascii_of_string s.

Arguments str s%_string.

(** The types of a value that the node distinguishes. *)
Inductive JsonType := nullValue | stringValue | arrayValue | objectValue | otherValue.

#[global] Instance JsonType_eq_dec : EqDecision JsonType.
Proof. solve_decision. Defined.

Class Json (J : Type) := {
  J_null : J;
  J_string : bytes -> J;
  J_type : J -> JsonType;
  J_isMember : J -> bytes -> outcome bool;
  J_get : J -> bytes -> outcome J;              (** [v[key]]: null when there is none *)
  J_set : J -> bytes -> J -> outcome J;         (** [v[key] = x] *)
  J_append : J -> J -> outcome J;
  J_asString : J -> outcome bytes;
  J_items : J -> list J;                        (** [for (x : v)] *)
  J_parse : bytes -> option J;                  (** [None]: refused, or an exception *)
  J_write : J -> bytes
}.

(** The library throws, and does nothing else than return or throw. *)
Class JsonThrows (J : Type) `{Json J} : Prop := {
  isMember_throws v k f : J_isMember v k = Fault f -> f = Thrown;
  get_throws v k f : J_get v k = Fault f -> f = Thrown;
  set_throws v k x f : J_set v k x = Fault f -> f = Thrown;
  append_throws v x f : J_append v x = Fault f -> f = Thrown;
  asString_throws v f : J_asString v = Fault f -> f = Thrown
}.

Section json.
Context {J : Type} `{Json J}.

Definition J_isNull (v : J) : bool := bool_decide (J_type v = nullValue).
Definition J_isObject (v : J) : bool := bool_decide (J_type v = objectValue).
Definition J_isArray (v : J) : bool := bool_decide (J_type v = arrayValue).
Definition J_isString (v : J) : bool := bool_decide (J_type v = stringValue).

(** [convertStrtoJson] catches the exceptions of the reader. *)
Definition convertStrtoJson (s : bytes) : option J :=
  match J_parse s with
  | Some v => if J_isObject v || J_isArray v then Some v else None
  | None => None
  end.

Definition convertJsontoStr (v : J) : bytes := J_write v.

(** [v.isMember(k1) && v.isMember(k2) && ...] *)
Fixpoint has_members (v : J) (keys : list bytes) : outcome bool :=
  match keys with
  | [] => Ret true
  | k :: keys =>
      found ← J_isMember v k;
      if found : bool then has_members v keys else Ret false
  end.

(** [v[k1][k2]...] *)
Fixpoint J_at (v : J) (path : list bytes) : outcome J :=
  match path with
  | [] => Ret v
  | k :: path => v ← J_get v k; J_at v path
  end.

Definition J_string_at (v : J) (path : list bytes) : outcome bytes := v ← J_at v path; J_asString v.

(** A new object with these members. *)
Fixpoint J_object (v : J) (members : list (bytes * J)) : outcome J :=
  match members with
  | [] => Ret v
  | (k, x) :: members => v ← J_set v k x; J_object v members
  end.

End json.

(** ** Values as a data type *)

Module JsonTree.

Inductive json :=
  | JNull
  | JBool (b : bool)
  | JNum (z : Z)
  | JStr (s : bytes)
  | JArr (l : list json)
  | JObj (l : list (bytes * json)).

Fixpoint member (l : list (bytes * json)) (k : bytes) : option json :=
  match l with
  | [] => None
  | (k', v) :: l => if decide (k = k') then Some v else member l k
  end.

Definition type_of (v : json) : JsonType :=
  match v with
  | JNull => nullValue
  | JBool _ | JNum _ => otherValue
  | JStr _ => stringValue
  | JArr _ => arrayValue
  | JObj _ => objectValue
  end.

Definition tree_json (reader : bytes -> option json) (writer : json -> bytes) : Json json := {|
  J_null := JNull;
  J_string := JStr;
  J_type := type_of;
  J_isMember v k :=
    match v with
    | JObj l => Ret (bool_decide (member l k <> None))
    | JNull => Ret false
    | _ => Fault Thrown
    end;
  J_get v k :=
    match v with
    | JObj l => Ret (default JNull (member l k))
    | JNull => Ret JNull
    | _ => Fault Thrown
    end;
  J_set v k x :=
    match v with
    | JObj l => Ret (JObj ((k, x) :: l))
    | JNull => Ret (JObj [(k, x)])
    | _ => Fault Thrown
    end;
  J_append v x :=
    match v with
    | JArr l => Ret (JArr (l ++ [x]))
    | JNull => Ret (JArr [x])
    | _ => Fault Thrown
    end;
  J_asString v :=
    match v with
    | JStr s => Ret s
    | JNull => Ret []
    | JBool b => Ret (str (if b then "true" else "false"))
    | _ => Fault Thrown
    end;
  J_items v :=
    match v with
    | JArr l => l
    | JObj l => l.*2
    | _ => []
    end;
  J_parse := reader;
  J_write := writer
|}.

#[global] Instance tree_throws reader writer : JsonThrows json (H := tree_json reader writer).
Proof. split; intros []; cbn; congruence. Qed.

End JsonTree.
