(* ===== verification/Receipt.v ===== *)
(** * Transaction receipts ([libData/AccountData/TransactionReceipt.cpp], [LogEntry.cpp])

    The JSON object of a receipt is written by the setters below only, so it is a
    record of the members they set; it is null while none is.  Its text is a
    parameter ([ReceiptWriter]).  The error codes of a transaction are kept per
    depth of the chain of contract calls, in a JSON object whose members are sorted
    by name. *)

From Stdlib Require Import String.
From stdpp Require Import base numbers list.
From S2P Require Import Prelude LevelDB Json.
Open Scope Z_scope.

(** The error codes, by their position in the enumeration. *)
Inductive ReceiptError :=
  | CHECKER_FAILED | RUNNER_FAILED | BALANCE_TRANSFER_FAILED | EXECUTE_CMD_FAILED | EXECUTE_CMD_TIMEOUT
  | NO_GAS_REMAINING_FOUND | NO_ACCEPTED_FOUND | CALL_CONTRACT_FAILED | CREATE_CONTRACT_FAILED
  | JSON_OUTPUT_CORRUPTED | CONTRACT_NOT_EXIST | STATE_CORRUPTED | LOG_ENTRY_INSTALL_FAILED
  | MESSAGE_CORRUPTED | RECEIPT_IS_NULL | MAX_DEPTH_REACHED | CHAIN_CALL_DIFF_SHARD | PREPARATION_FAILED
  | NO_OUTPUT | OUTPUT_ILLEGAL.

(** Members of a JSON object by name. *)
Definition error_table : Type := list (bytes * list ReceiptError).

Fixpoint bytes_ltb (a b : bytes) : bool :=
  match a, b with
  | [], _ :: _ => true
  | x :: a, y :: b => (x <? y) || ((x =? y) && bytes_ltb a b)
  | _, [] => false
  end.

(** [obj[name] = f(obj[name])], the members stay sorted; a new member starts as
    an empty array. *)
Fixpoint table_alter (f : list ReceiptError -> list ReceiptError) (name : bytes) (t : error_table) : error_table :=
  match t with
  | [] => [(name, f [])]
  | (n, l) :: t' =>
      if decide (n = name) then (n, f l) :: t'
      else if bytes_ltb name n then (name, f []) :: t
      else (n, l) :: table_alter f name t'
  end.

Section receipt.
Context {J : Type} `{Json J}.

(** [m_tranReceiptObj] *)
Record ReceiptObj := mkReceiptObj {
  ro_success : option bool;
  ro_cumulative_gas : option bytes;
  ro_epoch_num : option bytes;
  ro_event_logs : list J;
  ro_errors : error_table
}.

Definition ReceiptObj_null : ReceiptObj := mkReceiptObj None None None [] [].

Definition is_null (o : ReceiptObj) : bool :=
  match o with
  | mkReceiptObj None None None [] [] => true
  | _ => false
  end.

Record TransactionReceipt := mkReceipt {
  m_tranReceiptObj : ReceiptObj;
  m_tranReceiptStr : bytes;
  m_cumGas : Z;          (** [uint64_t] *)
  m_depth : Z;           (** [unsigned int] *)
  m_errorObj : error_table
}.

Definition set_obj (r : TransactionReceipt) (o : ReceiptObj) : TransactionReceipt :=
  mkReceipt o (m_tranReceiptStr r) (m_cumGas r) (m_depth r) (m_errorObj r).

Definition SetResult (r : TransactionReceipt) (result : bool) : TransactionReceipt :=
  let o := m_tranReceiptObj r in
  set_obj r (mkReceiptObj (Some result) (ro_cumulative_gas o) (ro_epoch_num o) (ro_event_logs o) (ro_errors o)).

Definition AddDepth (r : TransactionReceipt) : TransactionReceipt :=
  let depth := u32 (m_depth r + 1) in
  mkReceipt (m_tranReceiptObj r) (m_tranReceiptStr r) (m_cumGas r) depth
    (table_alter (fun _ => []) (to_string depth) (m_errorObj r)).

Definition AddError (r : TransactionReceipt) (errCode : ReceiptError) : TransactionReceipt :=
  mkReceipt (m_tranReceiptObj r) (m_tranReceiptStr r) (m_cumGas r) (m_depth r)
    (table_alter (fun l => l ++ [errCode]) (to_string (m_depth r)) (m_errorObj r)).

Definition SetCumGas (r : TransactionReceipt) (cumGas : Z) : TransactionReceipt :=
  let o := m_tranReceiptObj r in
  mkReceipt (mkReceiptObj (ro_success o) (Some (to_string cumGas)) (ro_epoch_num o) (ro_event_logs o) (ro_errors o))
    (m_tranReceiptStr r) cumGas (m_depth r) (m_errorObj r).

Definition SetEpochNum (r : TransactionReceipt) (epochNum : Z) : TransactionReceipt :=
  let o := m_tranReceiptObj r in
  set_obj r (mkReceiptObj (ro_success o) (ro_cumulative_gas o) (Some (to_string epochNum)) (ro_event_logs o)
               (ro_errors o)).

Definition AddEntry (r : TransactionReceipt) (entry : J) : TransactionReceipt :=
  let o := m_tranReceiptObj r in
  set_obj r (mkReceiptObj (ro_success o) (ro_cumulative_gas o) (ro_epoch_num o) (ro_event_logs o ++ [entry])
               (ro_errors o)).

(** [InstallError]: the non-empty members in their order, renamed by position. *)
Fixpoint renumber (depth : Z) (t : error_table) : error_table :=
  match t with
  | [] => []
  | (_, e) :: t =>
      if bool_decide (e = []) then renumber (u32 (depth + 1)) t
      else (to_string depth, e) :: renumber (u32 (depth + 1)) t
  end.

Definition InstallError (r : TransactionReceipt) : TransactionReceipt :=
  let o := m_tranReceiptObj r in
  let errorObj := foldr (fun '(n, e) t => table_alter (fun _ => e) n t) [] (renumber 0 (m_errorObj r)) in
  if bool_decide (errorObj = []) then r
  else set_obj r (mkReceiptObj (ro_success o) (ro_cumulative_gas o) (ro_epoch_num o) (ro_event_logs o) errorObj).

(** [convertJsontoStr] of the object. *)
Class ReceiptWriter := { receipt_write : ReceiptObj -> bytes }.

Context `{ReceiptWriter}.

Definition update (r : TransactionReceipt) : TransactionReceipt :=
  if is_null (m_tranReceiptObj r) then
    mkReceipt (m_tranReceiptObj r) (str "{}") (m_cumGas r) (m_depth r) (m_errorObj r)
  else
    let r := InstallError r in
    mkReceipt (m_tranReceiptObj r) (receipt_write (m_tranReceiptObj r)) (m_cumGas r) (m_depth r) (m_errorObj r).

Definition TransactionReceipt_new : TransactionReceipt :=
  let r := update (mkReceipt ReceiptObj_null [] 0 0 []) in
  mkReceipt (m_tranReceiptObj r) (m_tranReceiptStr r) (m_cumGas r) (m_depth r)
    (table_alter (fun _ => []) (to_string 0) []).

Definition receipt_clear (r : TransactionReceipt) : TransactionReceipt :=
  update (mkReceipt ReceiptObj_null [] (m_cumGas r) 0 []).

(** ** Log entries *)

Fixpoint params_ok (params : list J) : outcome bool :=
  match params with
  | [] => Ret true
  | p :: params =>
      ok ← has_members p [str "vname"; str "type"; str "value"];
      if ok : bool then params_ok params else Ret false
  end.

(** [Install]: the object with the address of the contract, if it is complete. *)
Definition LogEntry_Install (eventObj : J) (address : bytes) : outcome (option J) :=
  ok ← has_members eventObj [str "_eventname"; str "params"];
  if negb (ok : bool) then Ret None
  else
    params ← J_get eventObj (str "params");
    ok ← params_ok (J_items params);
    if negb (ok : bool) then
      (* the name is read for the log *)
      _ ← J_string_at eventObj [str "_eventname"];
      Ret None
    else
      eventObj ← J_set eventObj (str "address") (J_string (str "0x" ++ hex address));
      Ret (Some eventObj).

End receipt.

Arguments ReceiptObj : clear implicits.
Arguments TransactionReceipt : clear implicits.
Arguments ReceiptWriter : clear implicits.

(** ** The labels of the errors *)

(** A receipt with one error at every depth up to [n]. *)
Fixpoint deep_receipt {J} (n : nat) (r : TransactionReceipt J) : TransactionReceipt J :=
  match n with
  | O => AddError r CALL_CONTRACT_FAILED
  | S n => deep_receipt n (AddDepth r)
  end.

(** The labels in the receipt of a call that failed at depth [n]. *)
Definition error_labels {J} (r : TransactionReceipt J) : list bytes := (ro_errors (m_tranReceiptObj (InstallError r))).*1.

(** Up to depth 9 an error is listed under its depth; from depth 10 on the names
    are sorted as strings and the error is listed under another depth. *)
Theorem error_depth_label {J} (w : ReceiptWriter J) (n : nat) :
  (n < 20)%nat ->
  error_labels (deep_receipt n (@TransactionReceipt_new J w)) = [to_string (Z.of_nat n)] <-> (n < 10)%nat.
Proof.
  intros Hn. do 20 (destruct n as [|n]; [cbv; split; [done || lia|done || lia]|]). lia.
Qed.

(** [update] and [AddError] keep the result and the gas. *)
Lemma update_success {J} `{ReceiptWriter J} (r : TransactionReceipt J) :
  ro_success (m_tranReceiptObj (update r)) = ro_success (m_tranReceiptObj r) /\ m_cumGas (update r) = m_cumGas r.
Proof. unfold update, InstallError. by repeat case_match. Qed.

(** A writer that prints the gas. *)
Definition plain_writer {J} : ReceiptWriter J :=
  {| receipt_write o := default [] (ro_cumulative_gas o) |}.
