(* ===== verification/AccountStore.v ===== *)
(** * Accounts and the transfer of balances
    ([libData/AccountData/Account.cpp], [AccountStoreBase.tpp],
    [AccountStoreTemp.cpp])

    A store maps addresses to accounts.  [GetAccount] is virtual: the base store
    looks into its own map, the temporary store of a micro block copies the
    account from its parent on first use.  Class [AccountMap] is that interface;
    the operations of the base class are written against it and the theorems are
    proved for every store that behaves like one map, its [view].

    [SafeMath] is the overflow-checked arithmetic the source includes; its
    template file is not part of the repository, so it is a class with its
    contract. *)

From stdpp Require Import base numbers gmap countable list.
From S2P Require Import Prelude TxnPool Json Receipt.
Open Scope Z_scope.

(** [add], [sub], [mul], [div] of a [w]-bit type: the operands, the result variable
    before the call; whether it succeeded and the variable after it. *)
Class SafeMath := {
  sm_add : Z -> Z -> Z -> Z -> bool * Z;
  sm_sub : Z -> Z -> Z -> Z -> bool * Z;
  sm_mul : Z -> Z -> Z -> Z -> bool * Z;
  sm_div : Z -> Z -> Z -> Z -> bool * Z
}.

Class SafeMathSpec `{SafeMath} : Prop := {
  sm_add_spec w a b r : 0 <= a < 2 ^ w -> 0 <= b < 2 ^ w ->
    sm_add w a b r = if a + b <? 2 ^ w then (true, a + b) else (false, r);
  sm_sub_spec w a b r : 0 <= a < 2 ^ w -> 0 <= b < 2 ^ w ->
    sm_sub w a b r = if b <=? a then (true, a - b) else (false, r);
  sm_mul_spec w a b r : 0 <= a < 2 ^ w -> 0 <= b < 2 ^ w ->
    sm_mul w a b r = if a * b <? 2 ^ w then (true, a * b) else (false, r);
  sm_div_spec w a b r : 0 <= a < 2 ^ w -> 0 <= b < 2 ^ w ->
    sm_div w a b r = if b =? 0 then (false, r) else (true, a / b)
}.

(** The same of a signed [w]-bit type; a quotient is rounded towards zero. *)
Class SafeMathInt := {
  smi_add : Z -> Z -> Z -> Z -> bool * Z;
  smi_sub : Z -> Z -> Z -> Z -> bool * Z;
  smi_div : Z -> Z -> Z -> Z -> bool * Z
}.

Definition fits_int (w a : Z) : bool := (- 2 ^ (w - 1) <=? a) && (a <? 2 ^ (w - 1)).

Class SafeMathIntSpec `{SafeMathInt} : Prop := {
  smi_add_spec w a b r : fits_int w a = true -> fits_int w b = true ->
    smi_add w a b r = if fits_int w (a + b) then (true, a + b) else (false, r);
  smi_sub_spec w a b r : fits_int w a = true -> fits_int w b = true ->
    smi_sub w a b r = if fits_int w (a - b) then (true, a - b) else (false, r);
  smi_div_spec w a b r : fits_int w a = true -> fits_int w b = true ->
    smi_div w a b r = if (b =? 0) || negb (fits_int w (Z.quot a b)) then (false, r) else (true, Z.quot a b)
}.

Record Account := mkAccount {
  m_version : Z;
  m_balance : Z;      (** [uint128_t] *)
  m_nonce : Z;        (** [uint64_t] *)
  m_storageRoot : Z;
  m_codeHash : Z;
  m_address : Z;      (** set for contracts only *)
  m_codeCache : bytes
}.

Definition acc_balance (a : Account) (b : Z) : Account :=
  mkAccount (m_version a) b (m_nonce a) (m_storageRoot a) (m_codeHash a) (m_address a) (m_codeCache a).
Definition acc_nonce (a : Account) (n : Z) : Account :=
  mkAccount (m_version a) (m_balance a) n (m_storageRoot a) (m_codeHash a) (m_address a) (m_codeCache a).

Section account.
Context `{SafeMath}.
Context (ACCOUNT_VERSION : Z).

Definition Account_new (balance nonce : Z) : Account := mkAccount ACCOUNT_VERSION balance nonce 0 0 0 [].

Definition Account_IncreaseBalance (a : Account) (delta : Z) : bool * Account :=
  let '(ok, b) := sm_add 128 (m_balance a) delta (m_balance a) in (ok, acc_balance a b).

Definition Account_DecreaseBalance (a : Account) (delta : Z) : bool * Account :=
  if m_balance a <? delta then (false, a)
  else let '(ok, b) := sm_sub 128 (m_balance a) delta (m_balance a) in (ok, acc_balance a b).

Definition Account_IncreaseNonce (a : Account) : bool * Account :=
  let '(ok, n) := sm_add 64 (m_nonce a) 1 (m_nonce a) in (ok, acc_nonce a n).

End account.

(** ** Stores *)

Class AccountMap (S : Type) := {
  GetAccount : S -> Z -> option Account * S;
  store_set : S -> Z -> Account -> S;       (** assignment through the pointer *)
  store_insert : S -> Z -> Account -> S;    (** [m_addressToAccount->insert] *)
  store_erase : S -> Z -> S                 (** [m_addressToAccount->erase] *)
}.

(** A store behaves like the map [view]; where it has no entry of its own, it shows
    the accounts [hidden] below, which only other operations change. *)
Class AccountMapSpec (S : Type) `{AccountMap S} := {
  view : S -> gmap Z Account;
  GetAccount_found s a : (GetAccount s a).1 = view s !! a;
  GetAccount_keeps s a : view (GetAccount s a).2 = view s;
  store_set_view s a x : view (store_set s a x) = <[a := x]> (view s);
  store_insert_view s a x : view s !! a = None -> view (store_insert s a x) = <[a := x]> (view s);
  hidden : S -> gmap Z Account;
  store_erase_view s a : view (store_erase s a) = partial_alter (fun _ => hidden s !! a) a (view s);
  GetAccount_hidden s a : hidden (GetAccount s a).2 = hidden s;
  store_set_hidden s a x : hidden (store_set s a x) = hidden s;
  store_insert_hidden s a x : hidden (store_insert s a x) = hidden s;
  store_erase_hidden s a : hidden (store_erase s a) = hidden s
}.

(** Layers of accounts, and the entry of the upper one erased. *)
Lemma union_erase (own below : gmap Z Account) a :
  delete a own ∪ below = partial_alter (fun _ => below !! a) a (own ∪ below).
Proof.
  apply map_eq. intros b. destruct (decide (a = b)) as [<-|Hab].
  - rewrite lookup_partial_alter_eq, lookup_union, lookup_delete_eq. by destruct (below !! a).
  - by rewrite lookup_partial_alter_ne, !lookup_union, lookup_delete_ne.
Qed.

(** [AccountStoreBase] with its own map. *)
Definition base_GetAccount (m : gmap Z Account) (address : Z) : option Account * gmap Z Account :=
  (m !! address, m).

#[global] Instance base_store : AccountMap (gmap Z Account) := {|
  GetAccount := base_GetAccount;
  store_set m a x := <[a := x]> m;
  store_insert m a x := match m !! a with Some _ => m | None => <[a := x]> m end;
  store_erase m a := delete a m
|}.

#[global] Instance base_store_spec : AccountMapSpec (gmap Z Account).
Proof.
  refine {| view m := m; hidden _ := ∅ |}; try done; cbn.
  by intros s a x ->.
Defined.

(** [AccountStoreTemp]: its own map over the store of its parent. *)
Record AccountStoreTemp (P : Type) := mkTemp { temp_own : gmap Z Account; temp_parent : P }.
Arguments mkTemp {_}.
Arguments temp_own {_}.
Arguments temp_parent {_}.

Definition temp_GetAccount {P} `{AccountMap P} (s : AccountStoreTemp P) (address : Z)
  : option Account * AccountStoreTemp P :=
  match temp_own s !! address with
  | Some account => (Some account, s)
  | None =>
      let '(account, parent) := GetAccount (temp_parent s) address in
      match account with
      | Some account => (Some account, mkTemp (<[address := account]> (temp_own s)) parent)
      | None => (None, mkTemp (temp_own s) parent)
      end
  end.

#[global] Instance temp_store {P} `{AccountMap P} : AccountMap (AccountStoreTemp P) := {|
  GetAccount := temp_GetAccount;
  store_set s a x := mkTemp (<[a := x]> (temp_own s)) (temp_parent s);
  store_insert s a x :=
    match temp_own s !! a with
    | Some _ => s
    | None => mkTemp (<[a := x]> (temp_own s)) (temp_parent s)
    end;
  store_erase s a := mkTemp (delete a (temp_own s)) (temp_parent s)
|}.

#[global] Instance temp_store_spec {P} `{AccountMapSpec P} : AccountMapSpec (AccountStoreTemp P).
Proof.
  refine {| view s := temp_own s ∪ view (temp_parent s); hidden s := view (temp_parent s) |}.
  - intros s a. cbn. unfold temp_GetAccount. rewrite lookup_union.
    pose proof (GetAccount_found (temp_parent s) a) as Hf. destruct (temp_own s !! a); cbn;
      [by destruct (view _ !! a)|].
    destruct (GetAccount (temp_parent s) a) as [[x|] p]; cbn in *; by rewrite <- Hf.
  - intros s a. cbn. unfold temp_GetAccount. destruct (temp_own s !! a) eqn:E; [done|].
    pose proof (GetAccount_found (temp_parent s) a) as Hf. pose proof (GetAccount_keeps (temp_parent s) a) as Hk.
    destruct (GetAccount (temp_parent s) a) as [[x|] p]; cbn in *; rewrite Hk; [|done].
    rewrite <- insert_union_l. apply insert_id. by rewrite lookup_union, E, <- Hf.
  - intros s a x. cbn. symmetry. apply insert_union_l.
  - intros s a x. cbn. rewrite lookup_union. destruct (temp_own s !! a) eqn:E; cbn.
    + by destruct (view _ !! a).
    + intros _. symmetry. apply insert_union_l.
  - intros s a. apply union_erase.
  - intros s a. cbn. unfold temp_GetAccount. destruct (temp_own s !! a); [done|].
    pose proof (GetAccount_keeps (temp_parent s) a) as Hk. by destruct (GetAccount (temp_parent s) a) as [[x|] p].
  - done.
  - intros s a x. cbn. by destruct (temp_own s !! a).
  - done.
Defined.

Section operations.
Context `{SafeMath}.
Context {S : Type} `{AccountMap S}.
Context (ACCOUNT_VERSION NORMAL_TRAN_GAS : Z).
Context {PubKey : Type} (GetAddressFromPublicKey : PubKey -> Z).
Context {J : Type} `{Hwriter : ReceiptWriter J}.

Definition IsAccountExist (s : S) (address : Z) : bool * S :=
  let '(account, s) := GetAccount s address in
  (match account with Some _ => true | None => false end, s).

Definition AddAccount (s : S) (address : Z) (account : Account) : S :=
  let '(found, s) := IsAccountExist s address in
  if negb found then store_insert s address account else s.

Definition RemoveAccount (s : S) (address : Z) : S :=
  let '(found, s) := IsAccountExist s address in
  if found : bool then store_erase s address else s.

Definition IncreaseBalance (s : S) (address delta : Z) : bool * S :=
  if delta =? 0 then (true, s)
  else
    let '(account, s) := GetAccount s address in
    match account with
    | Some a =>
        let '(ok, a) := Account_IncreaseBalance a delta in (ok, store_set s address a)
    | None => (true, AddAccount s address (Account_new ACCOUNT_VERSION delta 0))
    end.

Definition DecreaseBalance (s : S) (address delta : Z) : bool * S :=
  if delta =? 0 then (true, s)
  else
    let '(account, s) := GetAccount s address in
    match account with
    | None => (false, s)
    | Some a => let '(ok, a) := Account_DecreaseBalance a delta in (ok, store_set s address a)
    end.

Definition TransferBalance (s : S) (from to delta : Z) : outcome (bool * S) :=
  let '(ok, s) := DecreaseBalance s from delta in
  if negb ok then Ret (false, s)
  else
    let '(ok, s) := IncreaseBalance s to delta in
    if ok : bool then Ret (true, s)
    else
      let '(ok, s) := IncreaseBalance s from delta in
      if negb ok then Fault FatalLog else Ret (false, s).

Definition GetBalance (s : S) (address : Z) : Z * S :=
  let '(account, s) := GetAccount s address in
  (match account with Some a => m_balance a | None => 0 end, s).

Definition IncreaseNonce (s : S) (address : Z) : bool * S :=
  let '(account, s) := GetAccount s address in
  match account with
  | None => (false, s)
  | Some a => let '(ok, a) := Account_IncreaseNonce a in (ok, store_set s address a)
  end.

Definition GetNonce (s : S) (address : Z) : Z * S :=
  let '(account, s) := GetAccount s address in
  (match account with Some a => m_nonce a | None => 0 end, s).

Definition CalculateGasRefund (gasDeposit gasUnit gasPrice gasRefund : Z) : bool * Z :=
  let '(ok, gasFee) := sm_mul 128 gasUnit gasPrice 0 in
  if negb ok then (false, gasRefund)
  else
    let '(ok, gasRefund) := sm_sub 128 gasDeposit gasFee gasRefund in
    if negb ok then (false, gasRefund) else (true, gasRefund).

(** What [UpdateAccounts] writes into the receipt at its end. *)
Definition transfer_receipt (r : TransactionReceipt J) : TransactionReceipt J :=
  update (SetCumGas (SetResult r true) NORMAL_TRAN_GAS).

Definition UpdateAccounts (s : S) (transaction : Transaction PubKey) (receipt : TransactionReceipt J)
  : outcome (bool * S * TransactionReceipt J) :=
  let fromAddr := GetAddressFromPublicKey (tx_senderPubKey transaction) in
  let toAddr := tx_toAddr transaction in
  let amount := tx_amount transaction in
  let '(fromAccount, s) := GetAccount s fromAddr in
  match fromAccount with
  | None => Ret (false, s, receipt)
  | Some fromAccount =>
      if tx_gasLimit transaction <? NORMAL_TRAN_GAS then Ret (false, s, receipt)
      else
        let '(ok, gasDeposit) := sm_mul 128 (tx_gasLimit transaction) (tx_gasPrice transaction) 0 in
        if negb ok then Ret (false, s, receipt)
        else if m_balance fromAccount <? wrap 128 (amount + gasDeposit) then Ret (false, s, receipt)
        else
          let '(ok, s) := DecreaseBalance s fromAddr gasDeposit in
          if negb ok then Ret (false, s, receipt)
          else
            '(ok, s) ← TransferBalance s fromAddr toAddr amount;
            if negb (ok : bool) then
              let '(ok, s) := IncreaseBalance s fromAddr gasDeposit in
              if negb ok then Fault FatalLog else Ret (false, s, receipt)
            else
              let '(ok, gasRefund) :=
                CalculateGasRefund gasDeposit NORMAL_TRAN_GAS (tx_gasPrice transaction) 0 in
              if negb ok then Ret (false, s, receipt)
              else
                let '(ok, s) := IncreaseBalance s fromAddr gasRefund in
                if negb ok then Fault FatalLog
                else
                  let '(ok, s) := IncreaseNonce s fromAddr in
                  if negb ok then Ret (false, s, receipt)
                  else Ret (true, s, transfer_receipt receipt)
  end.

End operations.

(** ** What the operations do to the view *)

Section effects.
Context `{Hsm : SafeMathSpec}.
Context {S : Type} `{Hstore : AccountMapSpec S}.
Context (ACCOUNT_VERSION NORMAL_TRAN_GAS : Z).

(** Balances and nonces are within their types. *)
Definition account_ok (a : Account) : Prop := 0 <= m_balance a < 2 ^ 128 /\ 0 <= m_nonce a < 2 ^ 64.
Definition accounts_ok (m : gmap Z Account) : Prop := map_Forall (fun _ a => account_ok a) m.

(** Adding to the balance of an address, with a new account if there is none. *)
Definition credit (m : gmap Z Account) (a delta : Z) : gmap Z Account :=
  if delta =? 0 then m
  else match m !! a with
       | Some x => <[a := acc_balance x (m_balance x + delta)]> m
       | None => <[a := Account_new ACCOUNT_VERSION delta 0]> m
       end.

Definition debit (m : gmap Z Account) (a delta : Z) : gmap Z Account :=
  if delta =? 0 then m
  else match m !! a with
       | Some x => <[a := acc_balance x (m_balance x - delta)]> m
       | None => m
       end.

Definition balance_at (m : gmap Z Account) (a : Z) : Z :=
  match m !! a with Some x => m_balance x | None => 0 end.

Lemma acc_balance_same x : acc_balance x (m_balance x) = x.
Proof. by destruct x. Qed.

Lemma DecreaseBalance_effect s a delta :
  accounts_ok (view s) -> 0 <= delta < 2 ^ 128 ->
  let '(ok, s') := DecreaseBalance s a delta in
  ok = ((delta =? 0) || (bool_decide (is_Some (view s !! a)) && (delta <=? balance_at (view s) a))) /\
  view s' = if ok then debit (view s) a delta else view s.
Proof.
  intros Hok Hd. unfold DecreaseBalance, debit, balance_at.
  destruct (Z.eqb_spec delta 0) as [->|Hne]; [done|]. cbn [orb].
  pose proof (GetAccount_found s a) as Hf. pose proof (GetAccount_keeps s a) as Hk.
  destruct (GetAccount s a) as [[x|] s1]; cbn [fst snd] in Hf, Hk; rewrite <- Hf.
  - rewrite bool_decide_eq_true_2 by done. destruct (Hok a x (eq_sym Hf)) as [Hb _].
    unfold Account_DecreaseBalance. destruct (Z.ltb_spec (m_balance x) delta), (Z.leb_spec delta (m_balance x));
      try lia; cbn [andb].
    + split; [done|]. rewrite store_set_view, Hk. apply insert_id. by rewrite <- Hf.
    + rewrite sm_sub_spec by lia. destruct (Z.leb_spec delta (m_balance x)); [|lia].
      split; [done|]. by rewrite store_set_view, Hk.
  - rewrite bool_decide_eq_false_2 by (by intros []). done.
Qed.

Lemma IncreaseBalance_effect s a delta :
  accounts_ok (view s) -> 0 <= delta < 2 ^ 128 ->
  let '(ok, s') := IncreaseBalance ACCOUNT_VERSION s a delta in
  ok = (balance_at (view s) a + delta <? 2 ^ 128) /\
  view s' = if ok then credit (view s) a delta else view s.
Proof.
  intros Hok Hd. unfold IncreaseBalance, credit, balance_at.
  destruct (Z.eqb_spec delta 0) as [->|Hne].
  { destruct (view s !! a) as [x|] eqn:E; [|done]. destruct (Hok a x E) as [Hb _].
    destruct (Z.ltb_spec (m_balance x + 0) (2 ^ 128)); [done|lia]. }
  pose proof (GetAccount_found s a) as Hf. pose proof (GetAccount_keeps s a) as Hk.
  destruct (GetAccount s a) as [[x|] s1]; cbn [fst snd] in Hf, Hk; rewrite <- Hf.
  - destruct (Hok a x (eq_sym Hf)) as [Hb _]. unfold Account_IncreaseBalance. rewrite sm_add_spec by lia.
    destruct (Z.ltb_spec (m_balance x + delta) (2 ^ 128)).
    + split; [done|]. by rewrite store_set_view, Hk.
    + split; [done|]. rewrite store_set_view, Hk, acc_balance_same. apply insert_id. by rewrite <- Hf.
  - destruct (Z.ltb_spec (0 + delta) (2 ^ 128)); [|lia]. split; [done|].
    unfold AddAccount, IsAccountExist. pose proof (GetAccount_found s1 a) as Hf1.
    pose proof (GetAccount_keeps s1 a) as Hk1. rewrite Hk, <- Hf in Hf1.
    destruct (GetAccount s1 a) as [y s2]; cbn [fst snd] in Hf1, Hk1. subst y. cbn [negb].
    rewrite store_insert_view; rewrite Hk1, Hk; done.
Qed.

Lemma credit_ok m a delta :
  accounts_ok m -> 0 <= delta -> balance_at m a + delta < 2 ^ 128 -> accounts_ok (credit m a delta).
Proof.
  intros Hok Hd Hb. unfold credit, balance_at in *. case_test; [done|].
  destruct (m !! a) as [x|] eqn:E0; (apply map_Forall_insert_2; [|done]).
  - destruct (Hok a x E0) as [? ?]. split; cbn; lia.
  - split; cbn; lia.
Qed.

Lemma debit_ok m a delta : accounts_ok m -> 0 <= delta <= balance_at m a -> accounts_ok (debit m a delta).
Proof.
  intros Hok Hd. unfold debit, balance_at in *. case_test; [done|].
  destruct (m !! a) as [x|] eqn:E0; [|done]. apply map_Forall_insert_2; [|done].
  destruct (Hok a x E0) as [? ?]. split; cbn; lia.
Qed.

(** A credit undoes a debit. *)
Lemma credit_debit m a delta :
  is_Some (m !! a) -> credit (debit m a delta) a delta = m.
Proof.
  intros [x E]. unfold credit, debit. case_test; [done|]. rewrite E, lookup_insert_eq, insert_insert_eq. cbn.
  rewrite Z.sub_add. unfold acc_balance. cbn. destruct x; cbn. by apply insert_id.
Qed.

Lemma balance_debit m a delta b :
  is_Some (m !! a) -> balance_at (debit m a delta) b = balance_at m b - if decide (a = b) then delta else 0.
Proof.
  intros [x E]. unfold balance_at, debit. destruct (Z.eqb_spec delta 0) as [->|].
  { case_decide; lia. }
  rewrite E. case_decide as Hab.
  - subst b. rewrite lookup_insert_eq, E. done.
  - rewrite lookup_insert_ne by done. lia.
Qed.

Lemma balance_credit m a delta b :
  balance_at (credit m a delta) b = balance_at m b + if decide (a = b) then delta else 0.
Proof.
  unfold balance_at, credit. destruct (Z.eqb_spec delta 0) as [->|].
  { case_decide; lia. }
  case_decide as Hab.
  - subst b. destruct (m !! a) as [x|]; rewrite lookup_insert_eq; done.
  - destruct (m !! a) as [x|]; rewrite lookup_insert_ne by done; lia.
Qed.

Definition nonce_at (m : gmap Z Account) (a : Z) : Z :=
  match m !! a with Some x => m_nonce x | None => 0 end.

Lemma nonce_credit m a delta b : nonce_at (credit m a delta) b = nonce_at m b.
Proof.
  unfold nonce_at, credit. case_test; [done|]. destruct (decide (a = b)) as [<-|Hab].
  - destruct (m !! a) as [x|]; by rewrite lookup_insert_eq.
  - destruct (m !! a) as [x|]; by rewrite lookup_insert_ne by done.
Qed.

Lemma nonce_debit m a delta b : nonce_at (debit m a delta) b = nonce_at m b.
Proof.
  unfold nonce_at, debit. case_test; [done|]. destruct (m !! a) as [x|] eqn:E0; [|done].
  destruct (decide (a = b)) as [<-|Hab]; [by rewrite lookup_insert_eq, E0|by rewrite lookup_insert_ne by done].
Qed.

Lemma credit_some m a delta b : is_Some (m !! b) -> is_Some (credit m a delta !! b).
Proof.
  intros Hb. unfold credit. case_test; [done|].
  destruct (m !! a); destruct (decide (a = b)) as [<-|Hab];
    rewrite ?lookup_insert_eq, ?lookup_insert_ne by done; done.
Qed.

Lemma debit_some m a delta b : is_Some (m !! b) -> is_Some (debit m a delta !! b).
Proof.
  intros Hb. unfold debit. case_test; [done|]. destruct (m !! a); [|done].
  destruct (decide (a = b)) as [<-|Hab]; rewrite ?lookup_insert_eq, ?lookup_insert_ne by done; done.
Qed.

(** The sum of all balances. *)
Definition total (m : gmap Z Account) : Z := map_fold (fun _ x acc => m_balance x + acc) 0 m.

Lemma total_fresh m a x : m !! a = None -> total (<[a := x]> m) = m_balance x + total m.
Proof. intros Ha. unfold total. rewrite map_fold_insert_L; [done| |done]. intros; lia. Qed.

Lemma total_insert m a x : total (<[a := x]> m) = total m - balance_at m a + m_balance x.
Proof.
  unfold balance_at. destruct (m !! a) as [y|] eqn:E0; [|rewrite total_fresh by done; lia].
  rewrite <- (insert_delete_id m a y E0) at 2. rewrite <- insert_delete_eq.
  rewrite !total_fresh by apply lookup_delete_eq. lia.
Qed.

Lemma total_credit m a delta : total (credit m a delta) = total m + delta.
Proof.
  unfold credit. destruct (Z.eqb_spec delta 0) as [->|]; [lia|].
  destruct (m !! a) as [x|] eqn:E0; rewrite total_insert; unfold balance_at; rewrite E0; cbn; lia.
Qed.

Lemma total_debit m a delta : is_Some (m !! a) -> total (debit m a delta) = total m - delta.
Proof.
  intros [x E0]. unfold debit. destruct (Z.eqb_spec delta 0) as [->|]; [lia|].
  rewrite E0, total_insert. unfold balance_at. rewrite E0. cbn. lia.
Qed.

(** No balance exceeds the sum. *)
Lemma balance_le_total m a : accounts_ok m -> balance_at m a <= total m.
Proof.
  intros Hok. assert (forall m, accounts_ok m -> 0 <= total m) as Hpos.
  { intros m1. unfold total. apply (map_fold_weak_ind (fun r m => accounts_ok m -> 0 <= r)); [done|].
    intros i x m2 r Hi IH [Hx Hm]%map_Forall_insert; [|done]. destruct Hx. specialize (IH Hm). lia. }
  unfold balance_at. destruct (m !! a) as [x|] eqn:E; [|by apply Hpos].
  rewrite <- (insert_delete_id m a x E), total_fresh by apply lookup_delete_eq.
  pose proof (Hpos (delete a m) ltac:(by apply map_Forall_delete)). lia.
Qed.

(** A transfer moves the amount or changes nothing; it never ends the process. *)
Lemma TransferBalance_effect s from to delta :
  accounts_ok (view s) -> 0 <= delta < 2 ^ 128 -> is_Some (view s !! from) ->
  exists ok s', TransferBalance ACCOUNT_VERSION s from to delta = Ret (ok, s') /\
    ok = ((delta <=? balance_at (view s) from) &&
          (balance_at (debit (view s) from delta) to + delta <? 2 ^ 128)) /\
    view s' = if ok then credit (debit (view s) from delta) to delta else view s.
Proof.
  intros Hok Hd Hf. unfold TransferBalance. pose proof (DecreaseBalance_effect s from delta Hok Hd) as H1.
  destruct (DecreaseBalance s from delta) as [ok1 s1]. destruct H1 as [Hok1 Hv1].
  assert (ok1 = (delta <=? balance_at (view s) from)) as Hle.
  { rewrite Hok1, bool_decide_eq_true_2 by done. cbn [andb]. destruct Hf as [x Hx].
    destruct (Hok _ _ Hx) as [Hx' _]. unfold balance_at. rewrite Hx. lia. }
  rewrite <- Hle. destruct ok1; cbn [negb andb]; [|eauto].
  assert (accounts_ok (view s1)) as Hok1' by (rewrite Hv1; apply debit_ok; [done|lia]).
  pose proof (IncreaseBalance_effect s1 to delta Hok1' Hd) as H2.
  destruct (IncreaseBalance _ s1 to delta) as [ok2 s2]. destruct H2 as [Hok2 Hv2]. rewrite Hv1 in Hok2, Hv2.
  destruct ok2; [eauto|].
  assert (accounts_ok (view s2)) as Hok2' by (rewrite Hv2, <- Hv1; done).
  pose proof (IncreaseBalance_effect s2 from delta Hok2' Hd) as H3.
  destruct (IncreaseBalance _ s2 from delta) as [ok3 s3]. destruct H3 as [Hok3 Hv3].
  rewrite Hv2 in Hok3, Hv3. rewrite (balance_debit _ _ _ _ Hf) in Hok3. rewrite decide_True in Hok3 by done.
  assert (balance_at (view s) from < 2 ^ 128) as Hlt.
  { destruct Hf as [x Hx]. destruct (Hok _ _ Hx) as [Hx' _]. unfold balance_at. rewrite Hx. lia. }
  assert (ok3 = true) as -> by (rewrite Hok3; apply Z.ltb_lt; lia). cbn [negb]. do 2 eexists. split; [done|]. split; [done|].
  by rewrite Hv3, credit_debit.
Qed.

(** A transfer on any store: it never ends the process and moves balances only. *)
Lemma TransferBalance_conserves (s : S) from to d :
  accounts_ok (view s) -> 0 <= d < 2 ^ 128 ->
  exists ok s', TransferBalance ACCOUNT_VERSION s from to d = Ret (ok, s') /\
    accounts_ok (view s') /\ total (view s') = total (view s) /\
    (forall a, nonce_at (view s') a = nonce_at (view s) a) /\
    (forall a, is_Some (view s !! a) -> is_Some (view s' !! a)).
Proof.
  intros Hok Hd. destruct (decide (is_Some (view s !! from))) as [Hf|Hf].
  - destruct (TransferBalance_effect s from to d Hok Hd Hf) as (ok & s' & E & Hr & Hv).
    exists ok, s'. split; [done|]. destruct ok; rewrite Hv; [|done]. symmetry in Hr. zbool.
    assert (0 <= balance_at (debit (view s) from d) to) as Hb.
    { rewrite (balance_debit _ _ _ _ Hf). unfold balance_at in *. destruct (decide (from = to)) as [->|]; [lia|].
      destruct (view s !! to) as [x|] eqn:Ex; [|lia]. destruct (Hok _ _ Ex). lia. }
    split; [|split; [|split]].
    + apply credit_ok; [apply debit_ok; [done|lia]|lia|done].
    + rewrite total_credit, total_debit by done. lia.
    + intros a. by rewrite nonce_credit, nonce_debit.
    + intros a Ha. by apply credit_some, debit_some.
  - unfold TransferBalance. pose proof (DecreaseBalance_effect s from d Hok Hd) as Hdec.
    destruct (Z.eqb_spec d 0) as [->|Hne].
    + exists true, s. split; [done|]. done.
    + destruct (DecreaseBalance s from d) as [ok1 s1]. destruct Hdec as [-> Hv].
      rewrite bool_decide_eq_false_2 in Hv |- * by done. cbn in *. exists false, s1. split; [done|]. by rewrite Hv.
Qed.

End effects.

(** ** Transactions *)

Section update.
Context `{Hsm : SafeMathSpec}.
Context {S : Type} `{Hstore : AccountMapSpec S}.
Context (ACCOUNT_VERSION NORMAL_TRAN_GAS : Z) (HN : 0 <= NORMAL_TRAN_GAS < 2 ^ 32).
Context {PubKey : Type} (GetAddressFromPublicKey : PubKey -> Z).
Context {J : Type} `{Hwriter : ReceiptWriter J}.

Record tx_ok (t : Transaction PubKey) : Prop := {
  tx_ok_amount : 0 <= tx_amount t < 2 ^ 128;
  tx_ok_price : 0 <= tx_gasPrice t < 2 ^ 128;
  tx_ok_limit : 0 <= tx_gasLimit t < 2 ^ 64
}.

Definition deposit (t : Transaction PubKey) : Z := tx_gasLimit t * tx_gasPrice t.
Definition fee (t : Transaction PubKey) : Z := NORMAL_TRAN_GAS * tx_gasPrice t.
Definition sender (t : Transaction PubKey) : Z := GetAddressFromPublicKey (tx_senderPubKey t).

(** The sender exists and can pay amount and deposit, exactly; the receiver's
    balance stays within its type; the sender's nonce can grow. *)
Definition payable (m : gmap Z Account) (t : Transaction PubKey) : bool :=
  bool_decide (is_Some (m !! sender t)) && (NORMAL_TRAN_GAS <=? tx_gasLimit t) &&
  (deposit t <? 2 ^ 128) && (tx_amount t + deposit t <=? balance_at m (sender t)) &&
  ((tx_toAddr t =? sender t) || (balance_at m (tx_toAddr t) + tx_amount t <? 2 ^ 128)).

Lemma CalculateGasRefund_effect t r :
  tx_ok t -> NORMAL_TRAN_GAS <= tx_gasLimit t -> deposit t < 2 ^ 128 ->
  CalculateGasRefund (deposit t) NORMAL_TRAN_GAS (tx_gasPrice t) r = (true, deposit t - fee t).
Proof.
  intros [Ha Hp Hl] Hn Hd. assert (0 <= fee t <= deposit t) as Hfee by (unfold fee, deposit; nia).
  unfold CalculateGasRefund. rewrite sm_mul_spec by lia. fold (fee t).
  destruct (Z.ltb_spec (fee t) (2 ^ 128)); [|lia]. cbn [negb].
  rewrite sm_sub_spec by lia. destruct (Z.leb_spec (fee t) (deposit t)); [done|lia].
Qed.

Lemma IncreaseNonce_effect s a :
  accounts_ok (view s) -> is_Some (view s !! a) ->
  let '(ok, s') := IncreaseNonce s a in
  ok = (nonce_at (view s) a + 1 <? 2 ^ 64) /\
  (forall b, balance_at (view s') b = balance_at (view s) b) /\
  (forall b, nonce_at (view s') b = nonce_at (view s) b + if ok && bool_decide (a = b) then 1 else 0) /\
  total (view s') = total (view s) /\ accounts_ok (view s').
Proof.
  intros Hok [x Hx]. unfold IncreaseNonce. pose proof (GetAccount_found s a) as Hf.
  pose proof (GetAccount_keeps s a) as Hk. destruct (GetAccount s a) as [y s1]; cbn [fst snd] in Hf, Hk.
  rewrite Hx in Hf. subst y. destruct (Hok _ _ Hx) as [Hb Hn]. unfold Account_IncreaseNonce.
  rewrite sm_add_spec by lia. assert (nonce_at (view s) a = m_nonce x) as -> by (unfold nonce_at; by rewrite Hx).
  destruct (Z.ltb_spec (m_nonce x + 1) (2 ^ 64)); (split; [done|]); rewrite store_set_view, Hk;
    (split; [|split; [|split]]); cbn [andb].
  - intros b. unfold balance_at. destruct (decide (a = b)) as [<-|Hab];
      [by rewrite lookup_insert_eq, Hx|by rewrite lookup_insert_ne by done].
  - intros b. unfold nonce_at. case_bool_decide as Hab;
      [subst b; by rewrite lookup_insert_eq, Hx|rewrite lookup_insert_ne by done; lia].
  - rewrite total_insert. unfold balance_at. rewrite Hx. cbn. lia.
  - apply map_Forall_insert_2; [split; cbn; lia|done].
  - intros b. unfold balance_at. destruct (decide (a = b)) as [<-|Hab];
      [by rewrite lookup_insert_eq, Hx|by rewrite lookup_insert_ne by done].
  - intros b. unfold nonce_at. destruct (decide (a = b)) as [<-|Hab];
      [rewrite lookup_insert_eq, Hx; cbn; lia|rewrite lookup_insert_ne by done; lia].
  - rewrite total_insert. unfold balance_at. rewrite Hx. cbn. lia.
  - apply map_Forall_insert_2; [split; cbn; lia|done].
Qed.

(** The contract of [UpdateAccounts]: the accounts before and after, the result. *)
Record update_spec (m m' : gmap Z Account) (t : Transaction PubKey) (ok : bool) : Prop := {
  update_result : ok = payable m t && (nonce_at m (sender t) + 1 <? 2 ^ 64);
  update_types : accounts_ok m';
  update_balances : payable m t = true -> forall a,
    balance_at m' a = balance_at m a - (if decide (sender t = a) then fee t + tx_amount t else 0)
                      + (if decide (tx_toAddr t = a) then tx_amount t else 0);
  update_total : payable m t = true -> total m' = total m - fee t;
  update_refused : payable m t = false -> m' = m;
  update_nonces : ok = true -> forall a,
    nonce_at m' a = nonce_at m a + if decide (sender t = a) then 1 else 0
}.

Lemma update_spec_refused m t : accounts_ok m -> payable m t = false -> update_spec m m t false.
Proof. intros Hok Hp. split; rewrite ?Hp; done. Qed.

(** The refund and the nonce, after the amount and the deposit are paid. *)
Lemma refund_effect s t (r : TransactionReceipt J) :
  accounts_ok (view s) -> tx_ok t -> is_Some (view s !! sender t) ->
  NORMAL_TRAN_GAS <= tx_gasLimit t -> deposit t < 2 ^ 128 ->
  balance_at (view s) (sender t) + (deposit t - fee t) < 2 ^ 128 ->
  exists (ok : bool) (s' : S),
    (let '(ok, gasRefund) := CalculateGasRefund (deposit t) NORMAL_TRAN_GAS (tx_gasPrice t) 0 in
     if negb ok then Ret (false, s, r)
     else
       let '(ok, s) := IncreaseBalance ACCOUNT_VERSION s (sender t) gasRefund in
       if negb ok then Fault FatalLog
       else
         let '(ok, s) := IncreaseNonce s (sender t) in
         if negb ok then Ret (false, s, r) else Ret (true, s, transfer_receipt NORMAL_TRAN_GAS r))
    = Ret (ok, s', if ok then transfer_receipt NORMAL_TRAN_GAS r else r) /\
    ok = (nonce_at (view s) (sender t) + 1 <? 2 ^ 64) /\ accounts_ok (view s') /\
    (forall a, balance_at (view s') a = balance_at (view s) a
               + if decide (sender t = a) then deposit t - fee t else 0) /\
    (forall a, nonce_at (view s') a = nonce_at (view s) a
               + if ok && bool_decide (sender t = a) then 1 else 0) /\
    total (view s') = total (view s) + (deposit t - fee t).
Proof.
  intros Hok Ht Hs Hn Hd Hb. rewrite CalculateGasRefund_effect by done. cbn [negb].
  assert (0 <= fee t <= deposit t) as Hfee by (destruct Ht; unfold fee, deposit; nia).
  pose proof (IncreaseBalance_effect ACCOUNT_VERSION s (sender t) (deposit t - fee t) Hok ltac:(lia)) as H1.
  destruct (IncreaseBalance _ s (sender t) _) as [ok1 s1]. destruct H1 as [Hok1 Hv1].
  assert (ok1 = true) as -> by (rewrite Hok1; apply Z.ltb_lt; lia). cbn [negb].
  assert (accounts_ok (view s1)) as Hs1 by (rewrite Hv1; apply credit_ok; [done|lia|done]).
  assert (is_Some (view s1 !! sender t)) as Hsome by (rewrite Hv1; by apply credit_some).
  pose proof (IncreaseNonce_effect s1 (sender t) Hs1 Hsome) as H2.
  destruct (IncreaseNonce s1 (sender t)) as [ok2 s2]. destruct H2 as (Hok2 & Hb2 & Hn2 & Ht2 & Ha2).
  exists ok2, s2. split; [by destruct ok2|]. rewrite Hv1 in *. rewrite nonce_credit in Hok2.
  split; [done|]. split; [done|]. split; [intros a; rewrite Hb2; apply balance_credit|].
  split; [intros a; by rewrite Hn2, nonce_credit|]. by rewrite Ht2, total_credit.
Qed.

(** The transfer and what follows it, after the deposit is paid. *)
Lemma settle_effect m s t (r : TransactionReceipt J) :
  accounts_ok m -> tx_ok t -> is_Some (m !! sender t) -> NORMAL_TRAN_GAS <= tx_gasLimit t ->
  0 <= deposit t <= balance_at m (sender t) -> deposit t < 2 ^ 128 ->
  view s = debit m (sender t) (deposit t) ->
  exists (ok : bool) (s' : S),
    ('(ok, s) ← TransferBalance ACCOUNT_VERSION s (sender t) (tx_toAddr t) (tx_amount t);
     if negb (ok : bool) then
       let '(ok, s) := IncreaseBalance ACCOUNT_VERSION s (sender t) (deposit t) in
       if negb ok then Fault FatalLog else Ret (false, s, r)
     else
       let '(ok, gasRefund) := CalculateGasRefund (deposit t) NORMAL_TRAN_GAS (tx_gasPrice t) 0 in
       if negb ok then Ret (false, s, r)
       else
         let '(ok, s) := IncreaseBalance ACCOUNT_VERSION s (sender t) gasRefund in
         if negb ok then Fault FatalLog
         else
           let '(ok, s) := IncreaseNonce s (sender t) in
           if negb ok then Ret (false, s, r) else Ret (true, s, transfer_receipt NORMAL_TRAN_GAS r))
    = Ret (ok, s', if ok then transfer_receipt NORMAL_TRAN_GAS r else r) /\
    update_spec m (view s') t ok.
Proof.
  intros Hok Ht Hs Hn Hd H128 Hv. pose proof Ht as [Ha Hp Hl].
  assert (balance_at m (sender t) < 2 ^ 128) as Hmax.
  { destruct Hs as [x Hx]. destruct (Hok _ _ Hx). unfold balance_at. rewrite Hx. lia. }
  assert (accounts_ok (view s)) as Hok1 by (rewrite Hv; by apply debit_ok).
  assert (is_Some (view s !! sender t)) as Hs1 by (rewrite Hv; by apply debit_some).
  destruct (TransferBalance_effect ACCOUNT_VERSION s (sender t) (tx_toAddr t) (tx_amount t) Hok1 Ha Hs1)
    as (ok1 & s1 & -> & Hok2 & Hv2). cbn [mbind outcome_bind].
  rewrite (balance_debit _ _ _ _ Hs1), Hv, !(balance_debit _ _ _ _ Hs) in Hok2.
  rewrite decide_True in Hok2 by done.
  assert (payable m t = ok1) as Hpay.
  { unfold payable. rewrite bool_decide_eq_true_2, Hok2 by done. apply Z.leb_le in Hn as ->.
    apply Z.ltb_lt in H128 as ->. cbn [andb]. case_decide as Hto; destruct (Z.eqb_spec (tx_toAddr t) (sender t))
      as [He|He]; try congruence; rewrite ?He; cbn [orb]; lia. }
  rewrite <- Hpay in Hv2. destruct ok1; rewrite Hpay in Hv2; cbn [negb].
  - assert (accounts_ok (view s1)) as Hok3.
    { rewrite Hv2. apply credit_ok; [apply debit_ok; [done|]| |]; rewrite ?(balance_debit _ _ _ _ Hs1), ?Hv,
        ?(balance_debit _ _ _ _ Hs); repeat case_decide; try done; lia. }
    clear Hok2. destruct (refund_effect s1 t r Hok3 Ht) as (ok & s' & E & Hr & Hty & Hbal & Hnon & Htot); try done.
    + rewrite Hv2. by apply credit_some, debit_some.
    + rewrite Hv2, balance_credit, (balance_debit _ _ _ _ Hs1), Hv, (balance_debit _ _ _ _ Hs), !decide_True by done.
      assert (0 <= fee t) by (unfold fee; nia). case_decide; lia.
    + exists ok, s'. split; [exact E|]. rewrite Hv2, nonce_credit, nonce_debit, Hv, nonce_debit in Hr.
      split; rewrite ?Hpay; try done.
      * intros _ a. rewrite Hbal, Hv2, balance_credit, (balance_debit _ _ _ _ Hs1), Hv, (balance_debit _ _ _ _ Hs).
        repeat case_decide; lia.
      * intros _. rewrite Htot, Hv2, total_credit, total_debit, Hv, total_debit by done. lia.
      * intros -> a. rewrite Hnon, Hv2, nonce_credit, nonce_debit, Hv, nonce_debit. cbn [andb].
        case_bool_decide; case_decide; done || lia.
  - pose proof (IncreaseBalance_effect ACCOUNT_VERSION s1 (sender t) (deposit t)) as Hinc. rewrite Hv2, Hv in Hinc.
    destruct (IncreaseBalance _ s1 (sender t) (deposit t)) as [ok3 s3].
    destruct Hinc as [Hok3 Hv3]; [by rewrite <- Hv|lia|].
    rewrite (balance_debit _ _ _ _ Hs), decide_True in Hok3 by done.
    assert (ok3 = true) as -> by (rewrite Hok3; apply Z.ltb_lt; lia). cbn [negb].
    exists false, s3. split; [done|]. rewrite Hv3, credit_debit by done. by apply update_spec_refused.
Qed.

(** C36: a transaction moves its amount and charges its fee, or does nothing.
    On every store (the base store and the temporary store alike),
    [UpdateAccounts] never ends the process; it returns true exactly when the
    sender exists, the gas limit covers a plain transfer, the deposit fits in 128
    bits, the sender can pay amount and deposit (although the sum is computed
    modulo 2^128), the receiver's balance does not overflow and the sender's nonce
    is not exhausted; then the sender has paid the amount and the fee, the
    receiver has the amount, the sender's nonce has grown by one, all other
    balances and nonces are unchanged and the sum of all balances has fallen by
    the fee.  When it returns false the accounts are unchanged, except for a
    payable transaction of a sender with an exhausted nonce. *)
Theorem UpdateAccounts_effect s t r :
  accounts_ok (view s) -> tx_ok t ->
  exists (ok : bool) (s' : S),
    UpdateAccounts ACCOUNT_VERSION NORMAL_TRAN_GAS GetAddressFromPublicKey s t r
      = Ret (ok, s', if ok then transfer_receipt NORMAL_TRAN_GAS r else r) /\
    update_spec (view s) (view s') t ok.
Proof.
  intros Hok Ht. pose proof Ht as [Ha Hp Hl]. unfold UpdateAccounts. fold (sender t).
  pose proof (GetAccount_found s (sender t)) as Hf. pose proof (GetAccount_keeps s (sender t)) as Hk.
  destruct (GetAccount s (sender t)) as [acc s0]; cbn [fst snd] in Hf, Hk. rewrite <- Hk in Hf, Hok |- *.
  clear s Hk. assert (0 <= deposit t) as Hd0 by (unfold deposit; nia).
  destruct acc as [x|]; [|exists false, s0; split; [done|]; apply update_spec_refused; [done|];
    unfold payable; rewrite <- Hf; done].
  assert (payable (view s0) t = ((NORMAL_TRAN_GAS <=? tx_gasLimit t) && (deposit t <? 2 ^ 128)
    && (tx_amount t + deposit t <=? m_balance x)
    && ((tx_toAddr t =? sender t) || (balance_at (view s0) (tx_toAddr t) + tx_amount t <? 2 ^ 128)))) as Hpay.
  { unfold payable, balance_at at 1. by rewrite <- Hf, bool_decide_eq_true_2. }
  destruct (Hok _ _ (eq_sym Hf)) as [Hxb Hxn].
  destruct (Z.ltb_spec (tx_gasLimit t) NORMAL_TRAN_GAS).
  { exists false, s0. split; [done|]. apply update_spec_refused; [done|]. rewrite Hpay.
    by destruct (Z.leb_spec NORMAL_TRAN_GAS (tx_gasLimit t)); [lia|]. }
  rewrite sm_mul_spec by lia. fold (deposit t).
  destruct (Z.ltb_spec (deposit t) (2 ^ 128)) as [Hdep|]; cbn [negb].
  2: { exists false, s0. split; [done|]. apply update_spec_refused; [done|]. rewrite Hpay. by rewrite andb_false_r. }
  assert (wrap 128 (tx_amount t + deposit t) <= tx_amount t + deposit t) as Hwrap
    by (unfold wrap; apply Z.mod_le; lia).
  destruct (Z.ltb_spec (m_balance x) (wrap 128 (tx_amount t + deposit t))).
  { exists false, s0. split; [done|]. apply update_spec_refused; [done|]. rewrite Hpay.
    destruct (Z.leb_spec (tx_amount t + deposit t) (m_balance x)); [lia|]. by rewrite andb_false_r. }
  assert (is_Some (view s0 !! sender t)) as Hsome by (rewrite <- Hf; done).
  assert (balance_at (view s0) (sender t) = m_balance x) as Hbal by (unfold balance_at; by rewrite <- Hf).
  pose proof (DecreaseBalance_effect s0 (sender t) (deposit t) Hok ltac:(lia)) as Hdec.
  destruct (DecreaseBalance s0 (sender t) (deposit t)) as [ok1 s1]. destruct Hdec as [Hok1 Hv1].
  rewrite bool_decide_eq_true_2, Hbal in Hok1 by done.
  destruct ok1; cbn [negb].
  2: { exists false, s1. split; [done|]. rewrite Hv1. apply update_spec_refused; [done|]. rewrite Hpay.
       destruct (Z.leb_spec (tx_amount t + deposit t) (m_balance x)); [lia|]. by rewrite andb_false_r. }
  apply settle_effect; try done. rewrite Hbal. lia.
Qed.

End update.

(** ** Witness: a transfer on a temporary store whose parent has the sender *)

#[global] Instance checked_math : SafeMath := {|
  sm_add w a b r := if a + b <? 2 ^ w then (true, a + b) else (false, r);
  sm_sub w a b r := if b <=? a then (true, a - b) else (false, r);
  sm_mul w a b r := if a * b <? 2 ^ w then (true, a * b) else (false, r);
  sm_div w a b r := if b =? 0 then (false, r) else (true, a / b)
|}.

#[global] Instance checked_math_spec : SafeMathSpec.
Proof. by split. Qed.

#[global] Instance checked_int : SafeMathInt := {|
  smi_add w a b r := if fits_int w (a + b) then (true, a + b) else (false, r);
  smi_sub w a b r := if fits_int w (a - b) then (true, a - b) else (false, r);
  smi_div w a b r := if (b =? 0) || negb (fits_int w (Z.quot a b)) then (false, r) else (true, Z.quot a b)
|}.

#[global] Instance checked_int_spec : SafeMathIntSpec.
Proof. by split. Qed.

Definition sample_temp : AccountStoreTemp (gmap Z Account) := mkTemp ∅ {[7 := mkAccount 1 1000 4 0 0 0 []]}.

(** 10 from address 7 to address 9, gas price 2, gas limit 50. *)
Definition sample_tx : Transaction Z := mkTransaction 1 1 5 9 7 10 2 50 [] [] (0, 0).

Definition sample_receipt : TransactionReceipt JsonTree.json := @TransactionReceipt_new _ plain_writer.
#[local] Existing Instance plain_writer.

Lemma sample_temp_ok : accounts_ok (view sample_temp).
Proof.
  change (view sample_temp) with (∅ ∪ {[7 := mkAccount 1 1000 4 0 0 0 []]} : gmap Z Account).
  rewrite map_empty_union. apply map_Forall_singleton. by split.
Qed.

Lemma sample_tx_ok : tx_ok sample_tx.
Proof. by split. Qed.

Lemma UpdateAccounts_effect_witness :
  exists s', UpdateAccounts 1 1 (fun k => k) sample_temp sample_tx sample_receipt
               = Ret (true, s', transfer_receipt 1 sample_receipt) /\
    balance_at (view s') 7 = 988 /\ balance_at (view s') 9 = 10 /\ nonce_at (view s') 7 = 5.
Proof.
  destruct (UpdateAccounts_effect 1 1 ltac:(lia) (fun k => k) sample_temp sample_tx sample_receipt
              sample_temp_ok sample_tx_ok) as (ok & s' & E & [Hr _ Hb _ _ Hn]).
  assert (payable 1 (fun k => k) (view sample_temp) sample_tx = true) as Hp by (vm_compute; reflexivity).
  assert (ok = true) as -> by (rewrite Hr; vm_compute; reflexivity).
  exists s'. split; [exact E|]. specialize (Hb Hp). specialize (Hn eq_refl).
  rewrite !Hb, Hn. split; [vm_compute; reflexivity|]. split; vm_compute; reflexivity.
Defined.

(** The parent is not touched, and an account that is removed from the temporary
    store reappears with the parent's value. *)
Example temp_remove_reappears :
  view (RemoveAccount sample_temp 7) !! 7 = Some (mkAccount 1 1000 4 0 0 0 []).
Proof. vm_compute. reflexivity. Qed.
