(* ===== verification/RumorSpreading.v ===== *)
(** * Gossip: rumors and their holder
    ([libRumorSpreading/RumorStateMachine.cpp], [RumorHolder.cpp])

    A rumor a node holds is new, known or old; every round it may be pushed to a
    few neighbours until it is old.  The network configuration a state machine
    points to is an argument.  Hash sets and maps are finite sets and maps, the
    order in which the source iterates over them is that of [elements] and
    [map_to_list].  The random choice of neighbours is a list of draws.  The
    statistics counters are left out. *)

From stdpp Require Import base numbers gmap countable list.
From S2P Require Import Prelude.
Open Scope Z_scope.

(** The compared rounds are [int]s that stay below the configured limits. *)
Record NetworkConfig := mkNetworkConfig {
  m_networkSize : Z;
  m_maxRoundsInB : Z;
  m_maxRoundsInC : Z;
  m_maxRoundsTotal : Z
}.

Inductive MessageType := UNDEFINED | PUSH | PULL | EMPTY_PUSH | EMPTY_PULL | FORWARD | LAZY_PUSH | LAZY_PULL.

#[global] Instance MessageType_eq_dec : EqDecision MessageType.
Proof. solve_decision. Defined.

Record RumorMessage := mkMessage { m_type : MessageType; m_rumorId : Z; msg_rounds : Z }.

Inductive RumorState := UNKNOWN | NEW | KNOWN | OLD.

#[global] Instance RumorState_eq_dec : EqDecision RumorState.
Proof. solve_decision. Defined.

Record RumorStateMachine := mkMachine {
  rs_state : RumorState;
  m_rounds : Z;
  m_roundsInB : Z;
  m_roundsInC : Z;
  m_memberRounds : gmap Z Z
}.

Definition isOld (m : RumorStateMachine) : bool := bool_decide (rs_state m = OLD).

Definition advanceToOld (m : RumorStateMachine) : RumorStateMachine :=
  mkMachine OLD (m_rounds m) (m_roundsInB m) (m_roundsInC m) ∅.

Definition advanceFromKnown (cfg : NetworkConfig) (m : RumorStateMachine) : RumorStateMachine :=
  let c := m_roundsInC m + 1 in
  if (m_rounds m >? m_maxRoundsTotal cfg) || (c >? m_maxRoundsInC cfg)
  then advanceToOld (mkMachine KNOWN (m_rounds m - 1) (m_roundsInB m) (c - 1) (m_memberRounds m))
  else mkMachine KNOWN (m_rounds m) (m_roundsInB m) c (m_memberRounds m).

(** Members heard of in this round count with round 0. *)
Definition fill_members (members : list Z) (r : gmap Z Z) : gmap Z Z :=
  foldl (fun r id => match r !! id with Some _ => r | None => <[id := 0]> r end) r members.

(** The comparison of our round with one of theirs: how many are less, how many
    greater or equal, the state. *)
Definition compare_round (cfg : NetworkConfig) (rounds : Z) (acc : Z * Z * RumorState) (theirRound : Z)
  : Z * Z * RumorState :=
  let '(numLess, numGreaterOrEqual, state) := acc in
  if theirRound <? rounds then (numLess + 1, numGreaterOrEqual, state)
  else if theirRound >? m_maxRoundsInB cfg then (numLess, numGreaterOrEqual, KNOWN)
  else (numLess, numGreaterOrEqual + 1, state).

Definition advanceFromNew (cfg : NetworkConfig) (membersInRound : gset Z) (m : RumorStateMachine)
  : RumorStateMachine :=
  let b := m_roundsInB m + 1 in
  if m_rounds m >? m_maxRoundsTotal cfg
  then advanceToOld (mkMachine (rs_state m) (m_rounds m - 1) b (m_roundsInC m) (m_memberRounds m))
  else
    let memberRounds := fill_members (elements membersInRound) (m_memberRounds m) in
    let '(numLess, numGreaterOrEqual, state) :=
      foldl (compare_round cfg (m_rounds m)) (0, 0, rs_state m) (map_to_list memberRounds).*2 in
    let b := if numGreaterOrEqual >? numLess then b + 1 else b in
    let state := if b >? m_maxRoundsInB cfg then KNOWN else state in
    if bool_decide (state = KNOWN)
    then mkMachine state (m_rounds m) (b - 1) (m_roundsInC m + 1) ∅
    else mkMachine state (m_rounds m) b (m_roundsInC m) ∅.

Definition RumorStateMachine_new : RumorStateMachine := mkMachine NEW 0 0 0 ∅.

Definition RumorStateMachine_from (cfg : NetworkConfig) (fromMember theirRound : Z) : RumorStateMachine :=
  if theirRound >? m_maxRoundsTotal cfg then advanceToOld RumorStateMachine_new
  else if theirRound >? m_maxRoundsInB cfg then advanceFromKnown cfg RumorStateMachine_new
  else mkMachine NEW 0 0 0 {[fromMember := theirRound]}.

(** [m_memberRounds[memberId]] creates an entry 0. *)
Definition rumorReceived (m : RumorStateMachine) (memberId theirRound : Z) : RumorStateMachine :=
  if bool_decide (rs_state m = NEW) then
    let old := default 0 (m_memberRounds m !! memberId) in
    mkMachine (rs_state m) (m_rounds m) (m_roundsInB m) (m_roundsInC m)
      (<[memberId := if old <? theirRound then theirRound else old]> (m_memberRounds m))
  else m.

Definition machine_rounds (m : RumorStateMachine) (r : Z) : RumorStateMachine :=
  mkMachine (rs_state m) r (m_roundsInB m) (m_roundsInC m) (m_memberRounds m).

(** [None]: the exception of an unexpected state. *)
Definition machine_advanceRound (cfg : NetworkConfig) (peersInCurrentRound : gset Z)
    (m : RumorStateMachine) : option RumorStateMachine :=
  let m := machine_rounds m (m_rounds m + 1) in
  match rs_state m with
  | NEW => Some (advanceFromNew cfg peersInCurrentRound m)
  | KNOWN => Some (advanceFromKnown cfg m)
  | OLD => Some m
  | UNKNOWN => None
  end.

(** ** The holder *)

Record RumorHolder := mkHolder {
  m_id : Z;
  m_networkConfig : NetworkConfig;
  m_peers : list Z;
  m_peersInCurrentRound : gset Z;
  m_rumors : gmap Z RumorStateMachine;
  m_nonPriorityPeers : gset Z;
  m_maxNeighborsPerRound : Z
}.

Definition MAX_RETRY : Z := 3.

Definition holder_rumors (h : RumorHolder) (r : gmap Z RumorStateMachine) : RumorHolder :=
  mkHolder (m_id h) (m_networkConfig h) (m_peers h) (m_peersInCurrentRound h) r (m_nonPriorityPeers h)
    (m_maxNeighborsPerRound h).
Definition holder_peers (h : RumorHolder) (current nonPriority : gset Z) : RumorHolder :=
  mkHolder (m_id h) (m_networkConfig h) (m_peers h) current (m_rumors h) nonPriority
    (m_maxNeighborsPerRound h).

(** [toVector] *)
Definition toVector (peers : gset Z) (id : Z) : list Z := filter (fun p => p <> id) (elements peers).

Definition RumorHolder_new (peers : gset Z) (maxRoundsInB maxRoundsInC maxTotalRounds maxNeighborsPerRound id : Z)
  : RumorHolder :=
  mkHolder id (mkNetworkConfig (Z.of_nat (size peers)) maxRoundsInB maxRoundsInC maxTotalRounds)
    (toVector peers id) ∅ ∅ ∅ maxNeighborsPerRound.

Definition addRumor (h : RumorHolder) (rumorId : Z) : bool * RumorHolder :=
  match m_rumors h !! rumorId with
  | Some _ => (false, h)
  | None => (true, holder_rumors h (<[rumorId := RumorStateMachine_new]> (m_rumors h)))
  end.

(** The pull messages: one for each rumor that is spreading. *)
Definition pull_messages (rumors : gmap Z RumorStateMachine) : list RumorMessage :=
  (fun kv => mkMessage LAZY_PULL kv.1 (m_rounds kv.2)) <$>
    filter (fun kv => Is_true ((m_rounds kv.2 >? 0) && negb (isOld kv.2))) (map_to_list rumors).

Definition receivedMessage (SEND_RESPONSE_FOR_LAZY_PUSH : bool) (h : RumorHolder) (message : RumorMessage)
    (fromPeer : Z) : (Z * list RumorMessage) * RumorHolder :=
  let isNewPeer := negb (bool_decide (fromPeer ∈ m_peersInCurrentRound h)) in
  let h := holder_peers h ({[fromPeer]} ∪ m_peersInCurrentRound h) (m_nonPriorityPeers h) in
  let '(pullMessages, h) :=
    if isNewPeer && ((bool_decide (m_type message = LAZY_PUSH) && SEND_RESPONSE_FOR_LAZY_PUSH)
                     || bool_decide (m_type message = EMPTY_PUSH)) then
      match pull_messages (m_rumors h) with
      | [] => ([mkMessage EMPTY_PULL (-1) 0], h)
      | pulls => (pulls, holder_peers h (m_peersInCurrentRound h) ({[fromPeer]} ∪ m_nonPriorityPeers h))
      end
    else ([], h) in
  let receivedRumorId := m_rumorId message in
  let theirRound := msg_rounds message in
  let h :=
    if receivedRumorId >=? 0 then
      match m_rumors h !! receivedRumorId with
      | Some m => holder_rumors h (<[receivedRumorId := rumorReceived m fromPeer theirRound]> (m_rumors h))
      | None => holder_rumors h (<[receivedRumorId :=
                    RumorStateMachine_from (m_networkConfig h) fromPeer theirRound]> (m_rumors h))
      end
    else h in
  ((fromPeer, pullMessages), h).

(** The loop that looks for neighbours: the members chosen so far (latest last),
    the number of failures in a row. *)
Fixpoint choose_neighbors (draws : list Z) (maxNeighbors maxRetry : Z) (nonPriority : gset Z)
    (chosen : list Z) (retryCount : Z) : outcome (list Z) :=
  if (Z.of_nat (length chosen) <? maxNeighbors) && (retryCount <? maxRetry) then
    match draws with
    | [] => Fault StillDrawing
    | toMember :: draws' =>
        if negb (bool_decide (toMember ∈ chosen)) && negb (bool_decide (toMember ∈ nonPriority))
        then choose_neighbors draws' maxNeighbors maxRetry nonPriority (chosen ++ [toMember]) 0
        else choose_neighbors draws' maxNeighbors maxRetry nonPriority chosen (retryCount + 1)
    end
  else Ret chosen.

(** Advancing the rumors of a round: the push messages and the machines. *)
Fixpoint advance_rumors (cfg : NetworkConfig) (peers : gset Z) (rumors : list (Z * RumorStateMachine))
    (all : gmap Z RumorStateMachine) : option (list RumorMessage * gmap Z RumorStateMachine) :=
  match rumors with
  | [] => Some ([], all)
  | (id, m) :: rest =>
      if isOld m then advance_rumors cfg peers rest all
      else
        match machine_advanceRound cfg peers m with
        | None => None
        | Some m' =>
            match advance_rumors cfg peers rest (<[id := m']> all) with
            | None => None
            | Some (msgs, all') =>
                Some (if isOld m' then (msgs, all')
                      else (mkMessage LAZY_PUSH id (m_rounds m') :: msgs, all'))
            end
        end
  end.

(** The outer option is the exception of the state machine. *)
Definition holder_advanceRound (h : RumorHolder) (draws : list Z)
  : outcome (option ((list Z * list RumorMessage) * RumorHolder)) :=
  let size := Z.of_nat (length (m_peers h)) in
  if size =? 0 then Ret (Some (([-1], []), holder_peers h ∅ ∅))
  else
    let nonPriority :=
      if size - Z.of_nat (stdpp.base.size (m_nonPriorityPeers h)) <? m_maxNeighborsPerRound h
      then ∅ else m_nonPriorityPeers h in
    let maxRetry := Z.max (size - m_maxNeighborsPerRound h) MAX_RETRY in
    chosen ← choose_neighbors draws (m_maxNeighborsPerRound h) maxRetry nonPriority [] 0;
    let toMembers :=
      chosen ++ take (Z.to_nat (m_maxNeighborsPerRound h - Z.of_nat (length chosen)))
                  (elements nonPriority) in
    Ret (match advance_rumors (m_networkConfig h) (m_peersInCurrentRound h)
                 (map_to_list (m_rumors h)) (m_rumors h) with
         | None => None
         | Some (msgs, rumors) =>
             let pushMessages :=
               match msgs with [] => [mkMessage EMPTY_PUSH (-1) 0] | _ => msgs end in
             Some ((toMembers, pushMessages), holder_peers (holder_rumors h rumors) ∅ ∅)
         end).

(** ** The life of a rumor *)

Section life.
Context (cfg : NetworkConfig).

(** What happens to a state machine. *)
Inductive rumor_event := Received (member theirRound : Z) | Round (peers : gset Z).

Definition machine_event (o : option RumorStateMachine) (e : rumor_event) : option RumorStateMachine :=
  m ← o;
  match e with
  | Received member theirRound => Some (rumorReceived m member theirRound)
  | Round peers => machine_advanceRound cfg peers m
  end.

Definition run_machine (m : RumorStateMachine) (evs : list rumor_event) : option RumorStateMachine :=
  foldl machine_event (Some m) evs.

Definition is_round (e : rumor_event) : bool := match e with Round _ => true | _ => false end.

Definition rounds_of (evs : list rumor_event) : Z := Z.of_nat (count_true (is_round <$> evs)).

(** Comparing rounds keeps the state or makes the rumor known. *)
Lemma compare_rounds_state rounds theirs acc :
  let r := foldl (compare_round cfg rounds) acc theirs in r.2 = acc.2 \/ r.2 = KNOWN.
Proof.
  revert acc. induction theirs as [|x theirs IH]; intros [[a b] s]; cbn [foldl]; [by left|].
  destruct (IH (compare_round cfg rounds (a, b, s) x)) as [Hs|Hs]; [|by right].
  rewrite Hs. unfold compare_round. repeat case_test; auto.
Qed.

(** Where a machine can be after [n] rounds. *)
Definition phase (n : Z) (m : RumorStateMachine) : Prop :=
  match rs_state m with
  | UNKNOWN => False
  | NEW => m_rounds m = n /\ (n = 0 \/ n <= m_maxRoundsTotal cfg) /\
           m_roundsInC m = 0 /\ 0 <= m_roundsInB m <= Z.max 0 (m_maxRoundsInB cfg)
  | KNOWN => m_rounds m = n /\ (n = 0 \/ n <= m_maxRoundsTotal cfg) /\
             1 <= m_roundsInC m <= Z.max 1 (m_maxRoundsInC cfg)
  | OLD => True
  end.

Lemma phase_known n m :
  0 <= n -> m_rounds m = n -> (n <= m_maxRoundsTotal cfg \/ n = 0) -> 0 <= m_roundsInC m ->
  phase n (advanceFromKnown cfg m).
Proof.
  intros Hn Hr Ht Hc. unfold advanceFromKnown, phase. case_test; [done|]. cbn. zbool. lia.
Qed.

Lemma phase_round n m peers :
  0 <= n -> phase n m ->
  exists m', machine_advanceRound cfg peers m = Some m' /\ phase (n + 1) m' /\
    (rs_state m = KNOWN -> rs_state m' <> NEW) /\ (rs_state m = OLD -> rs_state m' = OLD).
Proof.
  intros Hn. unfold phase at 1, machine_advanceRound. cbn [machine_rounds rs_state].
  destruct (rs_state m) eqn:Es; [done|..].
  - intros (Hr & Ht & Hc & Hb). eexists. split; [done|]. split; [|done].
    unfold advanceFromNew. cbn [m_rounds machine_rounds m_roundsInB m_roundsInC rs_state m_memberRounds].
    rewrite Hr, Es. case_test; zbool; [done|].
    pose proof (compare_rounds_state (n + 1)
      (map_to_list (fill_members (elements peers) (m_memberRounds m))).*2 (0, 0, NEW)) as Hcmp.
    cbn zeta in Hcmp. destruct (foldl _ _ _) as [[less ge] st]. cbn [snd] in Hcmp.
    case_bool_decide as Hk; unfold phase; cbn [rs_state m_rounds m_roundsInB m_roundsInC].
    + rewrite Hk. split; [done|]. lia.
    + case_test; [done|]. zbool. destruct Hcmp as [-> | ->]; [|done]. split; [done|].
      case_test; lia.
  - intros (Hr & Ht & Hc). eexists. split; [done|]. split; [|split; [|done]].
    + unfold advanceFromKnown, phase. cbn [m_rounds machine_rounds m_roundsInC]. case_test; [done|].
      cbn. zbool. lia.
    + intros _. unfold advanceFromKnown. case_test; done.
  - intros _. eexists. split; [done|]. split; [by unfold phase; cbn; rewrite Es|]. split; [done|].
    intros _. exact Es.
Qed.

Lemma phase_received n m member theirRound : phase n m -> phase n (rumorReceived m member theirRound).
Proof. unfold rumorReceived. case_bool_decide; [|done]. done. Qed.

Lemma run_machine_phase evs n m :
  0 <= n -> phase n m -> exists m', run_machine m evs = Some m' /\ phase (n + rounds_of evs) m' /\
    (rs_state m = OLD -> rs_state m' = OLD).
Proof.
  unfold run_machine. revert n m. induction evs as [|e evs IH]; intros n m Hn Hp; cbn [foldl].
  { exists m. split; [done|]. split; [|done]. unfold rounds_of. cbn. by rewrite Z.add_0_r. }
  destruct e as [member theirRound|peers]; cbn [machine_event mbind option_bind].
  - destruct (IH n (rumorReceived m member theirRound)) as (m' & E & Hm' & Ho);
      [done|by apply phase_received|]. exists m'. split; [exact E|]. split; [exact Hm'|].
    intros Hold. apply Ho. unfold rumorReceived. by rewrite Hold.
  - destruct (phase_round n m peers Hn Hp) as (m1 & -> & Hp1 & _ & Ho1).
    destruct (IH (n + 1) m1) as (m' & E & Hm' & Ho); [lia|done|]. exists m'. split; [exact E|].
    split; [|auto]. unfold rounds_of in *. cbn [fmap list_fmap is_round count_true] in *.
    by replace (n + Z.of_nat (1 + count_true (is_round <$> evs)))
      with (n + 1 + Z.of_nat (count_true (is_round <$> evs))) by lia.
Qed.

Lemma new_phase : phase 0 RumorStateMachine_new.
Proof. unfold phase. cbn. lia. Qed.

Lemma from_phase member theirRound : phase 0 (RumorStateMachine_from cfg member theirRound).
Proof.
  unfold RumorStateMachine_from. case_test; [done|]. case_test; [|unfold phase; cbn; lia].
  apply phase_known; cbn; auto; lia.
Qed.

(** every rumor dies.  A rumor that starts here or is heard from a member,
    whatever is heard of it later and whoever took part in the rounds, never
    throws; while it is new or known its round counter is the number of rounds it
    took part in, at most the configured total; a known rumor cools for at most
    the configured number of rounds (at least one); and after one round more than
    the configured total it is old, for good. *)
Theorem rumor_becomes_old m0 evs :
  (m0 = RumorStateMachine_new \/ exists member r, m0 = RumorStateMachine_from cfg member r) ->
  exists m, run_machine m0 evs = Some m /\
    (rs_state m = NEW \/ rs_state m = KNOWN ->
       m_rounds m = rounds_of evs /\ m_rounds m <= Z.max 0 (m_maxRoundsTotal cfg)) /\
    (rs_state m = KNOWN -> 1 <= m_roundsInC m <= Z.max 1 (m_maxRoundsInC cfg)) /\
    (Z.max 0 (m_maxRoundsTotal cfg) < rounds_of evs -> rs_state m = OLD) /\
    (forall evs' m', rs_state m = OLD -> run_machine m evs' = Some m' -> rs_state m' = OLD).
Proof.
  intros Hm0. assert (phase 0 m0) as Hp by (destruct Hm0 as [->|(member & r & ->)];
    [apply new_phase|apply from_phase]).
  destruct (run_machine_phase evs 0 m0 ltac:(lia) Hp) as (m & E & Hm & _). exists m. split; [exact E|].
  pose proof (Zle_0_nat (count_true (is_round <$> evs))) as Hn. fold (rounds_of evs) in Hn.
  rewrite Z.add_0_l in Hm. split; [|split; [|split]].
  - intros Hs. unfold phase in Hm. destruct Hs as [Hs|Hs]; rewrite Hs in Hm; lia.
  - intros Hs. unfold phase in Hm. rewrite Hs in Hm. lia.
  - intros Hlt. unfold phase in Hm. destruct (rs_state m); [done|lia|lia|done].
  - intros evs' m' Hold E'. destruct (run_machine_phase evs' (rounds_of evs) m Hn Hm) as (m2 & E2 & _ & Ho).
    rewrite E' in E2. injection E2 as <-. auto.
Qed.

End life.

(** ** A round of the holder *)

(** Enough draws: every choice takes at most [maxRetry] of them. *)
Lemma choose_neighbors_returns draws maxN maxRetry np chosen retry :
  0 <= retry -> (maxN - Z.of_nat (length chosen)) * maxRetry - retry <= Z.of_nat (length draws) ->
  exists chosen', choose_neighbors draws maxN maxRetry np chosen retry = Ret chosen'.
Proof.
  revert chosen retry. induction draws as [|x draws IH]; intros chosen retry Hr Hl; cbn [choose_neighbors].
  - case_test; [|eauto]. zbool. cbn in Hl. nia.
  - case_test; [|eauto]. zbool. cbn [length] in Hl. case_test.
    + apply IH; [lia|]. rewrite length_app. cbn [length]. nia.
    + apply IH; lia.
Qed.

Lemma choose_neighbors_spec draws maxN maxRetry np chosen retry chosen' :
  NoDup chosen -> (forall x, x ∈ chosen -> x ∉ np) -> Z.of_nat (length chosen) <= Z.max 0 maxN ->
  choose_neighbors draws maxN maxRetry np chosen retry = Ret chosen' ->
  NoDup chosen' /\ (forall x, x ∈ chosen' -> x ∉ np /\ (x ∈ chosen \/ x ∈ draws)) /\
  Z.of_nat (length chosen') <= Z.max 0 maxN.
Proof.
  revert chosen retry. induction draws as [|x draws IH]; intros chosen retry Hnd Hnp Hl E;
    cbn [choose_neighbors] in E.
  - case_test_in E; [done|]. injection E as <-. split; [done|]. split; [|done]. auto.
  - case_test_in E; [|injection E as <-; split; [done|]; split; [|done]; auto].
    destruct (negb (bool_decide (x ∈ chosen)) && negb (bool_decide (x ∈ np))) eqn:Hx; zbool.
    + repeat match goal with Hb : bool_decide _ = false |- _ => apply bool_decide_eq_false_1 in Hb end.
      apply IH in E as (C1 & C2 & C3).
      * split; [done|]. split; [|done]. intros y Hy. destruct (C2 y Hy) as [Hy1 Hy2]. split; [done|].
        destruct Hy2 as [[Hy2|Hy2]%elem_of_app|Hy2]; [by left| |right; by right].
        apply list_elem_of_singleton in Hy2 as ->. right. by left.
      * apply NoDup_app. split; [done|]. split; [|apply NoDup_singleton].
        by intros y Hy ->%list_elem_of_singleton.
      * by intros y [Hy| ->%list_elem_of_singleton]%elem_of_app; [auto|].
      * rewrite length_app. cbn [length]. lia.
    + apply IH in E as (C1 & C2 & C3); [|done..]. split; [done|]. split; [|done].
      intros y Hy. destruct (C2 y Hy) as [? [?|?]]; [auto|]. split; [done|]. right. by right.
Qed.

(** What a round makes of one rumor. *)
Definition advanced (cfg : NetworkConfig) (peers : gset Z) (m : RumorStateMachine) : option RumorStateMachine :=
  if isOld m then Some m else machine_advanceRound cfg peers m.

Lemma advance_rumors_spec cfg peers l all :
  NoDup l.*1 -> (forall id m, (id, m) ∈ l -> all !! id = Some m /\ rs_state m <> UNKNOWN) ->
  exists msgs all', advance_rumors cfg peers l all = Some (msgs, all') /\
    (forall id, id ∉ l.*1 -> all' !! id = all !! id) /\
    (forall id m, (id, m) ∈ l -> all' !! id = advanced cfg peers m) /\
    (forall msg, msg ∈ msgs <-> exists id m m', (id, m) ∈ l /\ isOld m = false /\
       machine_advanceRound cfg peers m = Some m' /\ isOld m' = false /\
       msg = mkMessage LAZY_PUSH id (m_rounds m')).
Proof.
  revert all. induction l as [|[id m] l IH]; intros all Hnd Hall; cbn [advance_rumors].
  { exists [], all. split; [done|]. split; [done|]. split; [by intros ? ? ?%elem_of_nil|].
    intros msg. split; [by intros ?%elem_of_nil|]. by intros (? & ? & ? & ?%elem_of_nil & _). }
  cbn [fmap list_fmap] in Hnd. apply NoDup_cons in Hnd as [Hid Hnd].
  destruct (Hall id m ltac:(by left)) as [Hm Hst].
  assert (forall id' m', (id', m') ∈ l -> id' <> id) as Hne.
  { intros id' m' Hin ->. apply Hid. apply list_elem_of_fmap. by exists (id, m'). }
  destruct (isOld m) eqn:Hold.
  - destruct (IH all Hnd) as (msgs & all' & -> & Hout & Hin & Hmsg); [intros; apply Hall; by right|].
    exists msgs, all'. split; [done|]. split; [|split].
    + intros i Hi. apply Hout. intros ?. apply Hi. by right.
    + intros i x [[= -> ->]|Hx]%elem_of_cons; [|by apply Hin]. unfold advanced. rewrite Hold.
      by rewrite Hout.
    + intros msg. rewrite Hmsg. split; intros (i & x & x' & Hx & Hrest); exists i, x, x'; (split; [|done]);
        [by right|]. apply elem_of_cons in Hx as [[= -> ->]|Hx]; [|done]. destruct Hrest; congruence.
  - assert (exists m', machine_advanceRound cfg peers m = Some m') as [m' Hadv].
    { unfold machine_advanceRound. cbn. destruct (rs_state m); eauto. done. }
    rewrite Hadv. destruct (IH (<[id := m']> all) Hnd) as (msgs & all' & -> & Hout & Hin & Hmsg).
    { intros id2 m2 H2. rewrite lookup_insert_ne by (by apply not_eq_sym, (Hne id2 m2)).
      apply Hall. by right. }
    exists (if isOld m' then msgs else mkMessage LAZY_PUSH id (m_rounds m') :: msgs), all'. split; [by destruct (isOld m')|]. split; [|split].
    + intros i [Hi1 Hi2]%not_elem_of_cons. rewrite Hout by done. by rewrite lookup_insert_ne.
    + intros i x [[= -> ->]|Hx]%elem_of_cons; [|by apply Hin]. unfold advanced. rewrite Hold, Hadv.
      rewrite Hout by done. apply lookup_insert_eq.
    + intros msg. transitivity ((isOld m' = false /\ msg = mkMessage LAZY_PUSH id (m_rounds m')) \/ msg ∈ msgs).
      { destruct (isOld m'); [naive_solver|]. rewrite elem_of_cons. naive_solver. }
      rewrite Hmsg. split.
      * intros [[H1 ->]|(i & x & x' & Hx & Hrest)]; [exists id, m, m'; split; [by left|done]|].
        exists i, x, x'. split; [by right|done].
      * intros (i & x & x' & [[= -> ->]|Hx]%elem_of_cons & Ho & Ha & Hrest); [left|right].
        -- rewrite Hadv in Ha. injection Ha as <-. done.
        -- exists i, x, x'. done.
Qed.

(** A round of gossip.  With enough random draws (as many as the neighbours
    wanted times the retries allowed) a round returns, and throws for no rumor
    that is new, known or old; it contacts at most the configured number of
    neighbours, all different, each drawn or one of the peers answered in this
    round; every rumor that is not old is advanced exactly once; the pushes are
    those of exactly the rumors that are still spreading after that, or one empty
    push; and the round's bookkeeping is cleared. *)
Theorem holder_round h draws :
  m_peers h <> [] -> map_Forall (fun _ m => rs_state m <> UNKNOWN) (m_rumors h) ->
  m_maxNeighborsPerRound h * Z.max (Z.of_nat (length (m_peers h)) - m_maxNeighborsPerRound h) MAX_RETRY
    <= Z.of_nat (length draws) ->
  exists to msgs h', holder_advanceRound h draws = Ret (Some ((to, msgs), h')) /\
    NoDup to /\ Z.of_nat (length to) <= Z.max 0 (m_maxNeighborsPerRound h) /\
    (forall p, p ∈ to -> p ∈ draws \/ p ∈ m_nonPriorityPeers h) /\
    (forall id, m_rumors h' !! id = m ← m_rumors h !! id;
                                     advanced (m_networkConfig h) (m_peersInCurrentRound h) m) /\
    msgs <> [] /\
    (forall msg, msg ∈ msgs -> msg = mkMessage EMPTY_PUSH (-1) 0 \/
       exists id m', m_rumors h' !! id = Some m' /\ isOld m' = false /\
                     msg = mkMessage LAZY_PUSH id (m_rounds m')) /\
    (forall id m', m_rumors h' !! id = Some m' -> isOld m' = false ->
       mkMessage LAZY_PUSH id (m_rounds m') ∈ msgs) /\
    m_peersInCurrentRound h' = ∅ /\ m_nonPriorityPeers h' = ∅.
Proof.
  intros Hpeers Hok Hdraws. unfold holder_advanceRound.
  destruct (Z.eqb_spec (Z.of_nat (length (m_peers h))) 0); [by destruct (m_peers h)|].
  set (np := if _ <? _ then ∅ else m_nonPriorityPeers h).
  set (retry := Z.max _ MAX_RETRY) in Hdraws |- *.
  destruct (choose_neighbors_returns draws (m_maxNeighborsPerRound h) retry np [] 0) as [chosen E];
    [lia|cbn; lia|]. rewrite E. cbn [mbind outcome_bind].
  apply choose_neighbors_spec in E as (Hnd & Hfrom & Hlen);
    [|constructor|by intros ? ?%elem_of_nil|cbn; lia].
  destruct (advance_rumors_spec (m_networkConfig h) (m_peersInCurrentRound h) (map_to_list (m_rumors h))
    (m_rumors h)) as (msgs & all' & -> & Hout & Hin & Hmsg); [apply NoDup_fst_map_to_list| |].
  { intros id m Hm%elem_of_map_to_list. split; [done|]. by apply (Hok id m). }
  assert (forall p, p ∈ np -> p ∈ m_nonPriorityPeers h) as Hnp
    by (intros p; unfold np; case_test; [by intros ?%elem_of_empty|done]).
  assert (forall id, all' !! id = m ← m_rumors h !! id;
            advanced (m_networkConfig h) (m_peersInCurrentRound h) m) as Hall.
  { intros id. destruct (m_rumors h !! id) as [m|] eqn:Em; cbn.
    - apply Hin. by apply elem_of_map_to_list.
    - rewrite Hout; [done|]. intros ([i m] & -> & Hm%elem_of_map_to_list)%list_elem_of_fmap. cbn in Em.
      congruence. }
  do 3 eexists. split; [reflexivity|]. cbn [m_rumors holder_peers holder_rumors]. split; [|split; [|split]].
  - apply NoDup_app. split; [done|]. split.
    + intros x Hx Hx'%elem_of_take. destruct Hx' as (j & Hj & _). apply (Hfrom x Hx).
      apply elem_of_elements. by eapply list_elem_of_lookup_2.
    + eapply sublist_NoDup; [exact (NoDup_elements np)|]. apply sublist_take.
  - rewrite length_app. rewrite length_take. lia.
  - intros p [Hp|Hp]%elem_of_app; [left; by destruct (Hfrom p Hp) as [_ [?%elem_of_nil|?]]|right].
    apply elem_of_take in Hp as (j & Hj & _). apply Hnp, elem_of_elements. by eapply list_elem_of_lookup_2.
  - split; [exact Hall|]. split; [by destruct msgs|]. split; [|split; [|done]].
    + intros msg Hm. destruct msgs as [|m0 rest]; [left; by apply list_elem_of_singleton in Hm|right].
      apply Hmsg in Hm as (id & m & m' & Hm & Ho & Ha & Ho' & ->). exists id, m'. split; [|done].
      apply elem_of_map_to_list in Hm. rewrite Hall, Hm. cbn. unfold advanced. by rewrite Ho.
    + intros id m' Hm' Ho'. assert (mkMessage LAZY_PUSH id (m_rounds m') ∈ msgs) as Hmem; [|destruct msgs; [by apply elem_of_nil in Hmem|exact Hmem]].
      rewrite Hall in Hm'. destruct (m_rumors h !! id) as [m|] eqn:Em; [|done]. cbn in Hm'.
      apply Hmsg. exists id, m, m'. unfold advanced in Hm'. destruct (isOld m) eqn:Ho; [congruence|].
      split; [by apply elem_of_map_to_list|]. done.
Qed.

(** ** Witnesses *)

Definition sample_network : NetworkConfig := mkNetworkConfig 5 2 2 4.

Lemma rumor_becomes_old_witness :
  exists m, run_machine sample_network (RumorStateMachine_from sample_network 3 1)
              [Round {[3]}; Received 4 2; Round ∅; Round ∅; Round ∅; Round ∅] = Some m /\ rs_state m = OLD.
Proof.
  destruct (rumor_becomes_old sample_network (RumorStateMachine_from sample_network 3 1)
              [Round {[3]}; Received 4 2; Round ∅; Round ∅; Round ∅; Round ∅]) as (m & E & _ & _ & Hold & _).
  - right. exists 3, 1. reflexivity.
  - exists m. split; [exact E|]. apply Hold. vm_compute. reflexivity.
Defined.

Definition sample_holder : RumorHolder :=
  (receivedMessage true (RumorHolder_new {[1; 2; 3; 4; 5]} 2 2 4 2 1) (mkMessage LAZY_PUSH 7 1) 3).2.

Lemma holder_round_witness :
  exists to msgs h', holder_advanceRound sample_holder [2; 2; 4; 5; 3; 2] = Ret (Some ((to, msgs), h')) /\
    NoDup to /\ Z.of_nat (length to) <= 2.
Proof.
  destruct (holder_round sample_holder [2; 2; 4; 5; 3; 2]) as (to & msgs & h' & E & Hnd & Hlen & _).
  - vm_compute. discriminate.
  - apply map_Forall_to_list. vm_compute. repeat constructor; discriminate.
  - vm_compute. discriminate.
  - exists to, msgs, h'. split; [exact E|]. split; [exact Hnd|exact Hlen].
Defined.
