(* ===== verification/BlockChain.v ===== *)
(** * The block stores in memory
    ([libData/DataStructures/CircularArray.h], [libData/BlockChainData/BlockChain.h])

    A [CircularArray] keeps the last [m_capacity] elements; [m_size] counts the
    elements ever stored, [m_index] is the slot of the newest one.  [BlockChain]
    indexes it by block number and falls back to the persistent storage for blocks
    that have left the array.

    The template parameter is a type of class [Block].  [throw;] in the array runs
    outside any handler: the process ends ([Terminate]), also in [GetLastBlock],
    whose handler only sees exceptions. *)

From Stdlib Require Import Sorted.
From stdpp Require Import base numbers gmap list.
From S2P Require Import Prelude.
Open Scope Z_scope.

Definition INIT_BLOCK_NUMBER : Z := u64 (-1).
Definition BLOCKCHAIN_SIZE : Z := 50.

Record CircularArray (T : Type) := mkCircular {
  m_array : list T;
  m_capacity : Z;
  m_size : Z;       (** [uint64_t] *)
  m_index : Z       (** [uint64_t] *)
}.
Arguments mkCircular {T} _ _ _ _.
Arguments m_array {T} _.
Arguments m_capacity {T} _.
Arguments m_size {T} _.
Arguments m_index {T} _.

Section circular.
Context {T : Type}.
Implicit Types c : CircularArray T.

(** The constructor leaves [m_index] unset: [index] is whatever it holds. *)
Definition circ_new (index : Z) : CircularArray T := mkCircular [] 0 0 index.

Definition circ_resize (d : T) (capacity : Z) : CircularArray T :=
  mkCircular (replicate (Z.to_nat capacity) d) capacity 0 0.

Definition circ_empty c : bool := match m_array c with [] => true | _ => false end.

Definition circ_at c (index : Z) : outcome T :=
  if circ_empty c then Fault Terminate else at_ (m_array c) (index mod m_capacity c).

Definition circ_insert_new c (index : Z) (element : T) : outcome (CircularArray T) :=
  if circ_empty c then Fault Terminate
  else
    let m_index := index mod m_capacity c in
    array ← at_set (m_array c) m_index element;
    Ret (mkCircular array (m_capacity c) (u64 (m_size c + 1)) m_index).

Definition circ_back c : outcome T :=
  if circ_empty c then Fault Terminate else at_ (m_array c) (m_index c).

Definition circ_increase_size c (size : Z) : CircularArray T :=
  mkCircular (m_array c) (m_capacity c) (u64 (m_size c + size)) (m_index c).

(** Constructed and resized to a positive capacity, then only used. *)
Record circ_ok c : Prop := {
  circ_ok_cap : 0 < m_capacity c;
  circ_ok_len : zlen (m_array c) = m_capacity c;
  circ_ok_index : 0 <= m_index c < m_capacity c
}.

(** What the array holds for [index]. *)
Definition slot c (index : Z) : option T := m_array c !! Z.to_nat (index mod m_capacity c).

Lemma circ_resize_ok d capacity : 0 < capacity -> circ_ok (circ_resize d capacity).
Proof.
  intros Hc. split; unfold circ_resize, m_capacity, m_array, m_index; [done| |lia].
  unfold zlen. rewrite length_replicate. lia.
Qed.

Lemma circ_nonempty c : circ_ok c -> circ_empty c = false.
Proof. intros [H1 H2 _]. unfold circ_empty. destruct (m_array c); [|done]. by rewrite <- H2 in H1. Qed.

Lemma slot_lt c index : circ_ok c -> 0 <= index mod m_capacity c < m_capacity c.
Proof. intros [H1 _ _]. by apply Z.mod_pos_bound. Qed.

Lemma circ_at_slot c index : circ_ok c -> exists x, circ_at c index = Ret x /\ slot c index = Some x.
Proof.
  intros Hc. unfold circ_at. rewrite circ_nonempty by done. apply at_some.
  rewrite (circ_ok_len _ Hc). by apply slot_lt.
Qed.

Lemma circ_back_index c : circ_ok c -> exists x, circ_back c = Ret x /\ m_array c !! Z.to_nat (m_index c) = Some x.
Proof.
  intros Hc. unfold circ_back. rewrite circ_nonempty by done. apply at_some.
  rewrite (circ_ok_len _ Hc). apply Hc.
Qed.

Lemma circ_insert_new_ok c index x :
  circ_ok c ->
  exists c', circ_insert_new c index x = Ret c' /\ circ_ok c' /\
    m_capacity c' = m_capacity c /\ m_size c' = u64 (m_size c + 1) /\ circ_back c' = Ret x /\
    (forall j, slot c' j = if decide (j mod m_capacity c = index mod m_capacity c) then Some x else slot c j).
Proof.
  intros Hc. pose proof (slot_lt c index Hc) as Hi. pose proof Hc as [H1 H2 H3].
  unfold circ_insert_new. rewrite circ_nonempty by done.
  rewrite at_set_some by (rewrite H2; done). cbn [mbind outcome_bind].
  eexists. split; [done|].
  assert (circ_ok (mkCircular (<[Z.to_nat (index mod m_capacity c):=x]> (m_array c)) (m_capacity c)
    (u64 (m_size c + 1)) (index mod m_capacity c))) as Hok.
  { split; cbn; [done| |done]. by rewrite zlen_insert. }
  split; [done|]. split; [done|]. split; [done|].
  assert (Z.to_nat (index mod m_capacity c) < length (m_array c))%nat as Hlt by (unfold zlen in H2; lia).
  split.
  - destruct (circ_back_index _ Hok) as (y & -> & Hy). cbn in Hy.
    rewrite list_lookup_insert_eq in Hy by done. congruence.
  - intros j. unfold slot. cbn. destruct (decide (j mod m_capacity c = index mod m_capacity c)) as [->|Hne].
    + by apply list_lookup_insert_eq.
    + apply list_lookup_insert_ne. pose proof (slot_lt c j Hc). lia.
Qed.

End circular.

(** ** The chain *)

Class Block (T : Type) := {
  block_default : T;            (** [T()] *)
  GetBlockNum : T -> Z          (** [GetHeader().GetBlockNum()] *)
}.

(** The default headers carry the invalid number. *)
Class BlockSpec (T : Type) `{Block T} := {
  default_num : GetBlockNum block_default = INIT_BLOCK_NUMBER
}.

Section chain.
Context {T : Type} `{Block T}.
(** [GetBlockFromPersistentStorage], virtual. *)
Context (GetBlockFromPersistentStorage : Z -> outcome T).
Implicit Types c : CircularArray T.

Definition chain_Reset : CircularArray T := circ_resize block_default BLOCKCHAIN_SIZE.

Definition GetBlockCount c : Z := m_size c.

Definition GetLastBlock c : outcome T := circ_back c.

Definition GetBlock c (blockNum : Z) : outcome T :=
  too_high ← (if m_size c >? 0 then last ← circ_back c; Ret (GetBlockNum last <? blockNum) else Ret false);
  if too_high : bool then Ret block_default
  else if u64 (blockNum + m_capacity c) <? m_size c then GetBlockFromPersistentStorage blockNum
  else
    block ← circ_at c blockNum;
    if negb (GetBlockNum block =? blockNum) then Ret block_default else Ret block.

Definition AddBlock c (block : T) : outcome (Z * CircularArray T) :=
  let blockNumOfNewBlock := GetBlockNum block in
  existing ← circ_at c blockNumOfNewBlock;
  let blockNumOfExistingBlock := GetBlockNum existing in
  if (blockNumOfExistingBlock <? blockNumOfNewBlock) || (INIT_BLOCK_NUMBER =? blockNumOfExistingBlock) then
    c ← (if m_size c >? 0 then
           last ← circ_back c;
           let blockNumMissed := u64 (blockNumOfNewBlock - GetBlockNum last - 1) in
           if blockNumMissed >? 0 then Ret (circ_increase_size c blockNumMissed) else Ret c
         else Ret c);
    c ← circ_insert_new c blockNumOfNewBlock block;
    Ret (1, c)
  else Ret (-1, c).

End chain.

(** ** What the chain promises

    [hist] maps every number to the block added under it, [last] is the highest
    number ([-1]: none). *)

Section refinement.
Context {T : Type} `{BlockSpec T}.
Context (persistent : Z -> outcome T).
Implicit Types (c : CircularArray T) (hist : gmap Z T).

Record chain_refines c hist (last : Z) : Prop := {
  cr_ok : circ_ok c;
  cr_size : m_size c = last + 1;
  cr_range : -1 <= last /\ last + m_capacity c < 2 ^ 64 - 1;
  cr_back : 0 <= last -> exists b, circ_back c = Ret b /\ GetBlockNum b = last;
  cr_slots n x : slot c n = Some x ->
    GetBlockNum x = INIT_BLOCK_NUMBER \/
    (hist !! GetBlockNum x = Some x /\ GetBlockNum x mod m_capacity c = n mod m_capacity c);
  cr_hist n x : hist !! n = Some x -> 0 <= n <= last /\ GetBlockNum x = n;
  cr_window n x : hist !! n = Some x -> last < n + m_capacity c -> slot c n = Some x
}.

(** The reading of block [n] from the abstract state. *)
Definition chain_read (capacity : Z) hist (last n : Z) : outcome T :=
  if last <? n then Ret block_default
  else if n + capacity <=? last then persistent n
  else Ret (default block_default (hist !! n)).

Lemma INIT_value : INIT_BLOCK_NUMBER = 2 ^ 64 - 1.
Proof. done. Qed.

Lemma chain_Reset_refines : chain_refines chain_Reset ∅ (-1).
Proof.
  assert (circ_ok chain_Reset) as Hok by (by apply (circ_resize_ok block_default)).
  split; try done.
  - intros n x. unfold slot, chain_Reset, circ_resize. cbn [m_array m_capacity].
    rewrite lookup_replicate. intros [-> _]. left. apply default_num.
Qed.

(** Two numbers of the window in the same slot are equal. *)
Lemma window_mod_inj cap a b : 0 < cap -> - cap < a - b < cap -> a mod cap = b mod cap -> a = b.
Proof.
  intros Hc Hd He. pose proof (Z.div_mod a cap ltac:(lia)). pose proof (Z.div_mod b cap ltac:(lia)).
  assert (cap * (a / cap - b / cap) = a - b) as Hq by lia.
  assert (a / cap - b / cap = 0) by nia. lia.
Qed.

Lemma GetBlock_refines c hist last n :
  chain_refines c hist last -> 0 <= n -> n + m_capacity c < 2 ^ 64 ->
  GetBlock persistent c n = chain_read (m_capacity c) hist last n.
Proof.
  intros [Hok Hsz Hr Hb Hsl Hh Hw] Hn Hov. pose proof (circ_ok_cap _ Hok) as Hcap.
  assert ((if m_size c >? 0 then last ← circ_back c; Ret (GetBlockNum last <? n) else Ret false)
    = Ret (bool_decide (0 <= last /\ last < n))) as Hhigh.
  { rewrite Hsz. destruct (Z.gtb_spec (last + 1) 0).
    - destruct (Hb ltac:(lia)) as (b & -> & Hbn). cbn [mbind outcome_bind]. f_equal. rewrite Hbn.
      destruct (Z.ltb_spec last n); symmetry; [apply bool_decide_eq_true_2|apply bool_decide_eq_false_2]; lia.
    - rewrite bool_decide_eq_false_2 by lia. done. }
  unfold GetBlock, chain_read. rewrite Hhigh. cbn [mbind outcome_bind].
  rewrite (wrap_small 64), Hsz by (unfold in_range; lia).
  destruct (circ_at_slot c n Hok) as (x & -> & Hx). cbn [mbind outcome_bind].
  destruct (Hsl n x Hx) as [Hi|[Hhx Hm]].
  - rewrite INIT_value in Hi. rewrite Hi.
    destruct (Z.eqb_spec (2 ^ 64 - 1) n); [lia|]. cbn [negb].
    destruct (hist !! n) as [y|] eqn:Ey.
    + destruct (Hh _ _ Ey) as [Hy1 Hy2].
      rewrite bool_decide_eq_false_2 by lia. destruct (Z.ltb_spec last n); [lia|].
      destruct (Z.ltb_spec (n + m_capacity c) (last + 1)), (Z.leb_spec (n + m_capacity c) last); try lia; [done|].
      rewrite (Hw n y Ey) in Hx by lia. simplify_eq; lia.
    + cbn [default]. case_bool_decide; destruct (Z.ltb_spec last n); try lia; try done.
      * destruct (Z.ltb_spec (n + m_capacity c) (last + 1)); [lia|done].
      * destruct (Z.ltb_spec (n + m_capacity c) (last + 1)), (Z.leb_spec (n + m_capacity c) last); try lia; done.
  - destruct (Hh _ _ Hhx) as [Hx1 _].
    case_bool_decide as Hhi; destruct (Z.ltb_spec last n); try lia; [done|].
    destruct (Z.ltb_spec (n + m_capacity c) (last + 1)), (Z.leb_spec (n + m_capacity c) last); try lia; [done|].
    destruct (Z.eqb_spec (GetBlockNum x) n) as [<-|Hne]; cbn [negb]; [by rewrite Hhx|].
    destruct (hist !! n) as [y|] eqn:Ey; [|done].
    rewrite (Hw n y Ey) in Hx by lia. simplify_eq. destruct (Hh _ _ Ey) as [_ ?]. lia.
Qed.

(** The counter of a chain that holds a block follows the number of the newest
    one: the missing numbers are added to it, in [uint64_t]. *)
Lemma add_size (size last n : Z) :
  size = last + 1 -> 0 <= last < 2 ^ 64 - 1 -> 0 <= n < 2 ^ 64 - 1 ->
  u64 ((if u64 (n - last - 1) >? 0 then u64 (size + u64 (n - last - 1)) else size) + 1) = n + 1.
Proof.
  intros -> Hl Hn.
  assert (forall z, u64 (u64 (last + 1 + u64 (n - last - 1)) + z) = u64 (n + z)) as Hs.
  { intros z. rewrite wrap_add_r, wrap_add_l by lia. f_equal. lia. }
  destruct (Z.gtb_spec (u64 (n - last - 1)) 0) as [|Hz].
  - rewrite Hs. apply wrap_small. unfold in_range. lia.
  - pose proof (wrap_range 64 (n - last - 1) ltac:(lia)) as Hr. unfold in_range in Hr.
    specialize (Hs 1). rewrite (wrap_add_l 64 (last + 1 + _)) in Hs by lia.
    replace (u64 (n - last - 1)) with 0 in Hs by lia. rewrite Z.add_0_r in Hs. rewrite Hs.
    apply wrap_small. unfold in_range. lia.
Qed.

(** An accepted block: it becomes the newest, whatever its number. *)
Lemma AddBlock_accept c hist last b x :
  chain_refines c hist last -> slot c (GetBlockNum b) = Some x ->
  GetBlockNum x < GetBlockNum b \/ GetBlockNum x = INIT_BLOCK_NUMBER ->
  0 <= last \/ GetBlockNum b = 0 -> 0 <= GetBlockNum b < 2 ^ 64 - 1 ->
  exists c', AddBlock c b = Ret (1, c') /\ circ_ok c' /\ m_capacity c' = m_capacity c /\
    m_size c' = GetBlockNum b + 1 /\ circ_back c' = Ret b /\
    (forall j, slot c' j = if decide (j mod m_capacity c = GetBlockNum b mod m_capacity c)
                           then Some b else slot c j).
Proof.
  intros [Hok Hsz Hr Hb _ _ _] Hx Hlt Hfirst Hnum. unfold AddBlock.
  destruct (circ_at_slot c (GetBlockNum b) Hok) as (x' & -> & Hx'). rewrite Hx in Hx'. simplify_eq.
  cbn [mbind outcome_bind]. pose proof (circ_ok_cap _ Hok) as Hcap.
  assert ((GetBlockNum x' <? GetBlockNum b) || (INIT_BLOCK_NUMBER =? GetBlockNum x') = true) as ->.
  { apply orb_true_iff. destruct Hlt as [?|?]; [left; by apply Z.ltb_lt|right; by apply Z.eqb_eq]. }
  set (c1 := if m_size c >? 0 then
               if u64 (GetBlockNum b - last - 1) >? 0
               then circ_increase_size c (u64 (GetBlockNum b - last - 1)) else c
             else c).
  assert ((if m_size c >? 0 then last ← circ_back c;
             if u64 (GetBlockNum b - GetBlockNum last - 1) >? 0
             then Ret (circ_increase_size c (u64 (GetBlockNum b - GetBlockNum last - 1))) else Ret c
           else Ret c) = Ret c1) as ->.
  { unfold c1. destruct (Z.gtb_spec (m_size c) 0) as [Hp|]; [|done].
    destruct (Hb ltac:(lia)) as (b0 & -> & Hb0n). cbn [mbind outcome_bind]. rewrite Hb0n. by case_test. }
  cbn [mbind outcome_bind].
  assert (circ_ok c1 /\ m_capacity c1 = m_capacity c /\ (forall j, slot c1 j = slot c j) /\
    u64 (m_size c1 + 1) = GetBlockNum b + 1) as (Hok1 & Hcap1 & Hsl1 & Hs1).
  { unfold c1. rewrite Hsz. destruct (Z.gtb_spec (last + 1) 0) as [Hp|Hp].
    - pose proof (add_size _ last (GetBlockNum b) Hsz ltac:(lia) Hnum) as Ha.
      destruct (u64 (GetBlockNum b - last - 1) >? 0); [|done].
      split; [destruct Hok; by split|]. done.
    - destruct Hfirst as [?|Hz]; [lia|]. rewrite Hz, Hsz.
      replace (last + 1) with 0 by lia. done. }
  destruct (circ_insert_new_ok c1 (GetBlockNum b) b Hok1) as (c' & -> & Hok' & Hcap' & Hsz' & Hb' & Hsl').
  cbn [mbind outcome_bind]. exists c'. rewrite Hcap', Hsz', Hs1, Hcap1. split_and!; try done.
  intros j. rewrite Hsl', Hcap1, Hsl1. done.
Qed.

Lemma AddBlock_newer c hist last b :
  chain_refines c hist last -> last < GetBlockNum b -> (last = -1 -> GetBlockNum b = 0) ->
  GetBlockNum b + m_capacity c < 2 ^ 64 - 1 ->
  exists c', AddBlock c b = Ret (1, c') /\ m_capacity c' = m_capacity c /\
    chain_refines c' (<[GetBlockNum b := b]> hist) (GetBlockNum b).
Proof.
  intros Hcr Hlt Hfirst Hov. pose proof Hcr as [Hok Hsz Hr Hb Hsl Hh Hw].
  pose proof (circ_ok_cap _ Hok) as Hcap.
  destruct (circ_at_slot c (GetBlockNum b) Hok) as (x & _ & Hx).
  destruct (AddBlock_accept c hist last b x Hcr Hx) as (c' & Hadd & Hok' & Hc' & Hs' & Hb' & Hsl');
    [|lia|lia|].
  { destruct (Hsl _ _ Hx) as [?|[Hhx _]]; [by right|left]. apply Hh in Hhx. lia. }
  exists c'. split; [done|]. split; [done|]. split; try done.
  - rewrite Hc'. lia.
  - intros _. by exists b.
  - intros n y. rewrite Hsl', Hc'. case_decide as Hd.
    + intros [= <-]. right. by rewrite lookup_insert_eq.
    + intros Hy. destruct (Hsl _ _ Hy) as [?|[Hhy Hm]]; [by left|right].
      rewrite lookup_insert_ne; [done|]. intros He. by rewrite He, Hm in Hd.
  - intros n y [[<- <-]|[Hne Hy]]%lookup_insert_Some; [lia|]. apply Hh in Hy. lia.
  - intros n y Hy Hwin. rewrite Hsl'. rewrite Hc' in Hwin.
    apply lookup_insert_Some in Hy as [[<- <-]|[Hne Hy]]; [by rewrite decide_True|].
    rewrite decide_False; [apply Hw; [done|lia]|]. intros Hm. apply Hh in Hy as [Hy _].
    apply Hne. symmetry. apply (window_mod_inj (m_capacity c)); [done|lia|done].
Qed.

(** A block that is still in the array is not replaced. *)
Lemma AddBlock_duplicate c hist last b x :
  chain_refines c hist last -> hist !! GetBlockNum b = Some x -> last < GetBlockNum b + m_capacity c ->
  AddBlock c b = Ret (-1, c).
Proof.
  intros [Hok Hsz Hr Hb Hsl Hh Hw] Hx Hwin. unfold AddBlock.
  destruct (circ_at_slot c (GetBlockNum b) Hok) as (x' & -> & Hx'). cbn [mbind outcome_bind].
  rewrite (Hw _ _ Hx Hwin) in Hx'. simplify_eq. apply Hh in Hx as [Hn ->].
  pose proof (circ_ok_cap _ Hok). rewrite Z.ltb_irrefl, INIT_value.
  destruct (Z.eqb_spec (2 ^ 64 - 1) (GetBlockNum b)); [lia|done].
Qed.

(** Adding a list of blocks, in order. *)
Fixpoint AddBlocks c (bs : list T) : outcome (CircularArray T) :=
  match bs with
  | [] => Ret c
  | b :: bs => '(_, c) ← AddBlock c b; AddBlocks c bs
  end.

Definition hist_of (hist : gmap Z T) (bs : list T) : gmap Z T :=
  foldl (fun h b => <[GetBlockNum b := b]> h) hist bs.
Definition last_of (last : Z) (bs : list T) : Z := foldl (fun _ b => GetBlockNum b) last bs.

Lemma AddBlocks_refines bs c hist last :
  chain_refines c hist last -> Sorted Z.lt (last :: (GetBlockNum <$> bs)) ->
  (last = -1 -> bs <> [] -> GetBlockNum <$> head bs = Some 0) ->
  Forall (fun b => GetBlockNum b + m_capacity c < 2 ^ 64 - 1) bs ->
  exists c', AddBlocks c bs = Ret c' /\ m_capacity c' = m_capacity c /\
    chain_refines c' (hist_of hist bs) (last_of last bs).
Proof.
  revert c hist last. induction bs as [|b bs IH]; intros c hist last Hcr Hs Hf Hov; [by exists c|].
  apply Sorted_inv in Hs as [Hs Hlt]. apply HdRel_inv in Hlt. apply Forall_cons in Hov as [Hb Hov].
  destruct (AddBlock_newer c hist last b) as (c' & Hadd & Hc' & Hcr'); [done|done| |done|].
  { intros Hl. specialize (Hf Hl ltac:(done)). by injection Hf. }
  cbn [AddBlocks]. rewrite Hadd. cbn [mbind outcome_bind]. rewrite <- Hc' in Hov |- *.
  apply IH; [done|done| |done]. intros Hm. pose proof (cr_range _ _ _ Hcr). lia.
Qed.

Lemma hist_of_other hist bs n :
  n ∉ GetBlockNum <$> bs -> hist_of hist bs !! n = hist !! n.
Proof.
  revert hist. induction bs as [|b bs IH]; intros hist Hn; [done|]. rewrite fmap_cons, not_elem_of_cons in Hn.
  destruct Hn as [Hne Hn]. cbn. fold (hist_of (<[GetBlockNum b := b]> hist) bs). rewrite IH by done.
  by apply lookup_insert_ne.
Qed.

Lemma hist_of_lookup bs b :
  Sorted Z.lt (GetBlockNum <$> bs) -> b ∈ bs -> hist_of ∅ bs !! GetBlockNum b = Some b.
Proof.
  generalize (∅ : gmap Z T) as hist. induction bs as [|x bs IH]; intros hist Hs Hin; [by apply elem_of_nil in Hin|].
  rewrite fmap_cons in Hs. apply Sorted_StronglySorted in Hs; [|intros ???; apply Z.lt_trans].
  apply StronglySorted_inv in Hs as [Hs Hlt]. apply StronglySorted_Sorted in Hs.
  cbn. fold (hist_of (<[GetBlockNum x := x]> hist) bs).
  apply elem_of_cons in Hin as [->|Hin]; [|by apply IH].
  rewrite hist_of_other; [apply lookup_insert_eq|]. intros Hin. rewrite Forall_forall in Hlt. specialize (Hlt _ Hin). lia.
Qed.

(** The block chain serves what was added.  After blocks with increasing
    numbers from 0 on have been added to a fresh chain (numbers may be skipped),
    [GetBlock] of any number above the newest gives the dummy block, of a number
    that has left the window of [BLOCKCHAIN_SIZE] blocks the block of the
    persistent storage, and of any other number the block that was added under it
    or, if that number was skipped, the dummy block. *)
Theorem chain_serves_blocks bs :
  Sorted Z.lt (GetBlockNum <$> bs) -> GetBlockNum <$> head bs = Some 0 ->
  Forall (fun b => GetBlockNum b + BLOCKCHAIN_SIZE < 2 ^ 64 - 1) bs ->
  exists c, AddBlocks chain_Reset bs = Ret c /\
    GetBlockCount c = last_of (-1) bs + 1 /\
    forall n, 0 <= n -> n + BLOCKCHAIN_SIZE < 2 ^ 64 ->
      GetBlock persistent c n =
      if last_of (-1) bs <? n then Ret block_default
      else if n + BLOCKCHAIN_SIZE <=? last_of (-1) bs then persistent n
      else Ret (default block_default (hist_of ∅ bs !! n)).
Proof.
  intros Hs Hf Hov.
  destruct (AddBlocks_refines bs chain_Reset ∅ (-1)) as (c & Hadd & Hcap & Hcr).
  - apply chain_Reset_refines.
  - constructor; [done|]. destruct bs as [|b bs]; [done|]. injection Hf as Hf. constructor. lia.
  - by intros _ _.
  - done.
  - exists c. split; [done|]. split; [apply Hcr|]. intros n Hn Hn'.
    rewrite (GetBlock_refines _ _ _ _ Hcr), Hcap by (rewrite ?Hcap; done). done.
Qed.

(** A late block hides the newer ones.  If a number inside the window was
    skipped and its block is added after newer ones, [AddBlock] accepts it and
    makes it the last block: from then on every newer block reads as the dummy
    block although it is still in the array. *)
Theorem late_block_hides_newer c hist last b n :
  chain_refines c hist last -> hist !! GetBlockNum b = None -> 0 <= GetBlockNum b < last ->
  last < GetBlockNum b + m_capacity c -> GetBlockNum b < n ->
  exists c', AddBlock c b = Ret (1, c') /\ GetLastBlock c' = Ret b /\
    GetBlock persistent c' n = Ret block_default /\
    (forall x, hist !! n = Some x -> last < n + m_capacity c -> slot c' n = Some x).
Proof.
  intros Hcr Hno Hb Hwin Hn. pose proof Hcr as [Hok Hsz Hr Hbk Hsl Hh Hw].
  pose proof (circ_ok_cap _ Hok) as Hcap.
  destruct (circ_at_slot c (GetBlockNum b) Hok) as (x & _ & Hx).
  destruct (AddBlock_accept c hist last b x Hcr Hx) as (c' & Hadd & Hok' & Hc' & Hs' & Hb' & Hsl');
    [|lia|lia|].
  { destruct (Hsl _ _ Hx) as [?|[Hhx Hm]]; [by right|left]. destruct (Hh _ _ Hhx) as [Hx1 _].
    destruct (decide (GetBlockNum x < GetBlockNum b)); [done|].
    rewrite (window_mod_inj (m_capacity c) (GetBlockNum x) (GetBlockNum b)) in Hhx; [congruence|lia|lia|done]. }
  exists c'. split; [done|]. split; [done|]. split.
  - unfold GetBlock. rewrite Hs', Hb'. destruct (Z.gtb_spec (GetBlockNum b + 1) 0); [|lia].
    cbn [mbind outcome_bind]. by rewrite (proj2 (Z.ltb_lt _ _) Hn).
  - intros y Hy Hyw. rewrite Hsl', decide_False; [by apply Hw|]. intros Hm. apply Hh in Hy as [Hy _].
    apply (window_mod_inj (m_capacity c)) in Hm; lia.
Qed.

End refinement.

(** ** Examples: blocks that are only their number *)

Module NumberedBlocks.

#[local] Instance numbered : Block Z := {| block_default := INIT_BLOCK_NUMBER; GetBlockNum n := n |}.
#[local] Instance numbered_spec : BlockSpec Z.
Proof. by split. Defined.

Lemma chain_serves_blocks_witness :
  exists c, AddBlocks chain_Reset [0; 1; 2; 5; 60] = Ret c /\ GetBlockCount c = 61 /\
    GetBlock (fun n => Ret (n + 1000)) c 5 = Ret 1005 /\ GetBlock (fun n => Ret (n + 1000)) c 60 = Ret 60 /\
    GetBlock (fun n => Ret (n + 1000)) c 59 = Ret INIT_BLOCK_NUMBER.
Proof.
  destruct (chain_serves_blocks (fun n => Ret (n + 1000)) [0; 1; 2; 5; 60]) as (c & H1 & H2 & H3).
  - repeat constructor.
  - done.
  - repeat constructor.
  - exists c. split; [done|]. split; [done|]. split_and!; by rewrite H3.
Defined.

Lemma late_block_hides_newer_witness :
  exists c c', AddBlocks chain_Reset [0; 1; 3] = Ret c /\ AddBlock c 2 = Ret (1, c') /\
    GetBlock (fun n => Ret n) c' 3 = Ret INIT_BLOCK_NUMBER.
Proof.
  destruct (AddBlocks_refines [0; 1; 3] chain_Reset ∅ (-1)) as (c & Hadd & Hcap & Hcr);
    [apply chain_Reset_refines|repeat constructor|done|repeat constructor|].
  destruct (late_block_hides_newer (fun n => Ret n) c _ _ 2 3 Hcr) as (c' & H1 & H2 & H3 & _);
    [done|by split|by rewrite Hcap|done|].
  by exists c, c'.
Defined.

End NumberedBlocks.
