(* ===== verification/BlockLinkChain.v ===== *)
(** * The chain of directory-block links
    ([libData/BlockChainData/BlockLinkChain.cpp], and the links in
    [libPersistence/BlockStorage.cpp] and [libMessage/Messenger.cpp])

    Every directory, view-change and fallback block has a link: its index in the
    common sequence, its directory epoch, its type and its hash.  The newest links
    are in a [CircularArray]; all of them are written to a database.

    The protobuf encoding of a link is the class [LinkProto]. *)

From Stdlib Require Import Sorted.
From stdpp Require Import base numbers gmap list.
From S2P Require Import Prelude BlockChain LevelDB.
Open Scope Z_scope.

(** ** Links *)

Inductive BlockType := BT_DS | BT_Tx | BT_VC | BT_FB.

#[global] Instance BlockType_eq_dec : EqDecision BlockType.
Proof. solve_decision. Defined.

Definition BlockType_value (t : BlockType) : Z :=
  match t with BT_DS => 0 | BT_Tx => 1 | BT_VC => 2 | BT_FB => 3 end.

Record BlockLink := mkLink {
  bl_version : Z;      (** [VERSION] *)
  bl_index : Z;        (** [INDEX] *)
  bl_dsindex : Z;      (** [DSINDEX] *)
  bl_type : Z;         (** [BLOCKTYPE], an unscoped enumeration *)
  bl_hash : bytes      (** [BLOCKHASH] *)
}.

(** [BlockLink()]: a value-initialized tuple. *)
Definition BlockLink_default : BlockLink := mkLink 0 0 0 0 (replicate 32 0).

(** [ProtoBlockLink], with presence. *)
Record ProtoBlockLink := mkProtoLink {
  pbl_version : option Z;
  pbl_index : option Z;
  pbl_dsindex : option Z;
  pbl_blocktype : option Z;
  pbl_blockhash : option bytes
}.

(** [link_parse] is [ParseFromArray] with [IsInitialized]. *)
Class LinkProto := {
  link_serialize : ProtoBlockLink -> bytes;
  link_parse : bytes -> option ProtoBlockLink
}.

Class LinkProtoSpec `{LinkProto} := {
  link_parse_serialize m : link_parse (link_serialize m) = Some m;
  link_nonempty m : 0 < zlen (link_serialize m)
}.

Section messenger.
Context `{LinkProto}.

(** A failed [IsInitialized] is only logged here. *)
Definition SetBlockLink (dst : bytes) (offset : Z) (blocklink : BlockLink) : bool * bytes :=
  proto_write (link_serialize (mkProtoLink (Some (bl_version blocklink)) (Some (bl_index blocklink))
    (Some (bl_dsindex blocklink)) (Some (bl_type blocklink)) (Some (bl_hash blocklink)))) dst offset.

(** [CheckRequiredFieldsProtoBlockLink] and the size check of the hash are the
    two ways out after parsing. *)
Definition Messenger_GetBlockLink (src : bytes) (offset : Z) : option BlockLink :=
  if offset >=? zlen src then None
  else
    match link_parse (drop (Z.to_nat offset) src) with
    | Some (mkProtoLink (Some version) (Some index) (Some dsindex) (Some blocktype) (Some blockhash)) =>
        if negb (zlen blockhash =? 32) then None
        else Some (mkLink version index dsindex blocktype blockhash)
    | _ => None
    end.

End messenger.

Section chain.
Context `{LinkProto} {DB : Type} `{leveldb DB}.
Context (BLOCKLINK_VERSION : Z).

Definition PutBlockLink (db : LevelDB DB) (index : Z) (body : bytes) : outcome (bool * LevelDB DB) :=
  '(ret, db) ← Insert_num db index body; Ret (ret =? 0, db).

Definition Storage_GetBlockLink (db : LevelDB DB) (index : Z) : outcome (option BlockLink) :=
  blockString ← Lookup_num db index;
  Ret (if zlen blockString =? 0 then None
       else
         match Messenger_GetBlockLink blockString 0 with
         | None => None
         | Some blnk => if negb (bl_version blnk =? BLOCKLINK_VERSION) then None else Some blnk
         end).

Definition GetFromPersistentStorage (db : LevelDB DB) (index : Z) : outcome BlockLink :=
  blnk ← Storage_GetBlockLink db index; Ret (default BlockLink_default blnk).

Definition links_Reset : CircularArray BlockLink := circ_resize BlockLink_default BLOCKCHAIN_SIZE.

Definition GetBlockLink (c : CircularArray BlockLink) (db : LevelDB DB) (index : Z) : outcome BlockLink :=
  if m_size c <=? index then Ret BlockLink_default
  else if u64 (index + m_capacity c) <? m_size c then GetFromPersistentStorage db index
  else
    link ← circ_at c index;
    if negb (bl_index link =? index) then Ret BlockLink_default else Ret link.

Definition GetLatestIndex (c : CircularArray BlockLink) : outcome Z :=
  if m_size c =? 0 then Ret 0 else link ← circ_back c; Ret (bl_index link).

Definition GetLatestBlockLink (c : CircularArray BlockLink) : outcome BlockLink := circ_back c.

Definition AddBlockLink (c : CircularArray BlockLink) (db : LevelDB DB) (index dsindex blocktype : Z)
    (blockhash : bytes) : outcome (bool * CircularArray BlockLink * LevelDB DB) :=
  latestIndex ← GetLatestIndex c;
  if (m_size c >? 0) && (index <=? latestIndex) then Ret (false, c, db)
  else if (m_size c =? 0) && (index >? 0) then Ret (false, c, db)
  else
    let link := mkLink BLOCKLINK_VERSION index dsindex blocktype blockhash in
    c ← circ_insert_new c index link;
    let '(ok, dst) := SetBlockLink [] 0 link in
    if negb ok then Ret (false, c, db)
    else
      '(ok, db) ← PutBlockLink db index dst;
      if negb ok then Ret (false, c, db) else Ret (true, c, db).

End chain.

(** ** What the chain promises: all links of the sequence *)

Section refinement.
Context `{LinkProtoSpec} {DB : Type} `{leveldbSpec DB}.
Context (VERSION : Z).
Implicit Types (c : CircularArray BlockLink) (db : LevelDB DB) (links : list BlockLink).

Definition link_ok (i : nat) (l : BlockLink) : Prop :=
  bl_version l = VERSION /\ bl_index l = Z.of_nat i /\ zlen (bl_hash l) = 32.

Record links_refine c db links : Prop := {
  lr_open : m_open db = true;
  lr_ok : circ_ok c;
  lr_size : m_size c = zlen links;
  lr_range : zlen links + m_capacity c < 2 ^ 64 - 1;
  lr_back : links <> [] -> exists l, circ_back c = Ret l /\ bl_index l = zlen links - 1;
  lr_links i l : links !! i = Some l -> link_ok i l;
  lr_window i l : links !! i = Some l -> zlen links <= Z.of_nat i + m_capacity c -> slot c (Z.of_nat i) = Some l;
  lr_stored i l : links !! i = Some l -> Storage_GetBlockLink VERSION db (Z.of_nat i) = Ret (Some l)
}.

Lemma links_Reset_refine db : m_open db = true -> links_refine links_Reset db [].
Proof. by split. Qed.

Lemma PutBlockLink_true db index body db' :
  0 <= index -> PutBlockLink db index body = Ret (true, db') ->
  m_open db' = true /\
  forall m, 0 <= m -> stored db' (to_string m) = if decide (m = index) then Some body else stored db (to_string m).
Proof.
  intros Hi E. unfold PutBlockLink in E. unbind E. destruct v as [ret db1]. injection E as Hr <-.
  apply Z.eqb_eq in Hr as ->. by apply Insert_num_0.
Qed.

(** A link read back from the database. *)
Lemma stored_link db db' l :
  bl_version l = VERSION -> zlen (bl_hash l) = 32 ->
  0 <= bl_index l -> PutBlockLink db (bl_index l) (SetBlockLink [] 0 l).2 = Ret (true, db') ->
  Storage_GetBlockLink VERSION db' (bl_index l) = Ret (Some l).
Proof.
  intros Hv Hh Hi [Ho Hs]%PutBlockLink_true; [|done].
  unfold Storage_GetBlockLink, Lookup_num. rewrite lookup_value_open, Hs, decide_True by done.
  cbn [mbind outcome_bind from_option id]. f_equal.
  unfold SetBlockLink. rewrite (proto_write_append _ []), app_nil_l.
  match goal with |- context [link_serialize ?m] => set (p := m) end.
  pose proof (link_nonempty p) as Hne. destruct (Z.eqb_spec (zlen (link_serialize p)) 0); [lia|].
  unfold Messenger_GetBlockLink. destruct (Z.geb_spec 0 (zlen (link_serialize p))); [lia|].
  rewrite drop_0, link_parse_serialize. cbn. rewrite Hh. cbn. rewrite Hv, Z.eqb_refl. destruct l; cbn in *. by subst.
Qed.

Lemma GetBlockLink_refines c db links i :
  links_refine c db links -> 0 <= i -> i + m_capacity c < 2 ^ 64 ->
  GetBlockLink VERSION c db i = Ret (default BlockLink_default (links !! Z.to_nat i)).
Proof.
  intros [Hopen Hok Hsz Hr Hb Hl Hw Hst] Hi Hov. unfold GetBlockLink. rewrite Hsz.
  destruct (links !! Z.to_nat i) as [l|] eqn:El.
  - pose proof (lookup_lt_Some _ _ _ El) as Hlt.
    destruct (Z.leb_spec (zlen links) i); [unfold zlen in *; lia|].
    rewrite (wrap_small 64) by (unfold in_range; pose proof (circ_ok_cap _ Hok); lia).
    destruct (Z.ltb_spec (i + m_capacity c) (zlen links)).
    + unfold GetFromPersistentStorage. specialize (Hst _ _ El). rewrite Z2Nat.id in Hst by done. by rewrite Hst.
    + destruct (circ_at_slot c i Hok) as (x & -> & Hx). specialize (Hw _ _ El).
      rewrite Z2Nat.id, Hx in Hw by done. specialize (Hw ltac:(lia)). injection Hw as ->.
      destruct (Hl _ _ El) as (_ & Hidx & _). rewrite Z2Nat.id in Hidx by done. cbn [mbind outcome_bind].
      by rewrite Hidx, Z.eqb_refl.
  - apply lookup_ge_None in El. destruct (Z.leb_spec (zlen links) i); [done|unfold zlen in *; lia].
Qed.

(** Every index up to the latest one is refused, and so is a first link other
    than link 0. *)
Lemma AddBlockLink_reject c db links i ds ty h :
  links_refine c db links -> 0 <= i -> (links = [] -> 0 < i) -> (links <> [] -> i < zlen links) ->
  AddBlockLink VERSION c db i ds ty h = Ret (false, c, db).
Proof.
  intros [Hopen Hok Hsz Hr Hb Hl Hw Hst] Hi He Hne. unfold AddBlockLink, GetLatestIndex. rewrite Hsz.
  destruct links as [|l0 links'] eqn:El.
  - specialize (He eq_refl). cbn. destruct (Z.gtb_spec i 0); [done|lia].
  - specialize (Hne ltac:(done)). destruct (Hb ltac:(done)) as (b & -> & Hbi).
    destruct (Z.eqb_spec (zlen (l0 :: links')) 0); [unfold zlen in *; cbn in *; lia|].
    cbn [mbind outcome_bind]. rewrite Hbi. destruct (Z.gtb_spec (zlen (l0 :: links')) 0); [|lia].
    destruct (Z.leb_spec i (zlen (l0 :: links') - 1)); [done|lia].
Qed.

(** An accepted index: the link becomes the newest, in memory and, if the write
    succeeds, in the database. *)
Lemma AddBlockLink_accept c db links i ds ty h :
  links_refine c db links -> zlen links <= i -> (links = [] -> i = 0) ->
  let l := mkLink VERSION i ds ty h in
  exists ok db' c', PutBlockLink db i (SetBlockLink [] 0 l).2 = Ret (ok, db') /\ AddBlockLink VERSION c db i ds ty h = Ret (ok, c', db') /\ circ_ok c' /\
    m_capacity c' = m_capacity c /\ m_size c' = zlen links + 1 /\ circ_back c' = Ret l /\
    (forall j, slot c' j = if decide (j mod m_capacity c = i mod m_capacity c) then Some l else slot c j).
Proof.
  intros [Hopen Hok Hsz Hr Hb Hl Hw Hst] Hi He l.
  assert (exists ok db', PutBlockLink db i (SetBlockLink [] 0 l).2 = Ret (ok, db')) as (ok & db' & Eput).
  { unfold PutBlockLink, Insert_num.
    destruct (insert_key_open db (to_string i) (SetBlockLink [] 0 l).2 Hopen) as (ret & l' & -> & _). by eexists _, _. }
  destruct (circ_insert_new_ok c i l Hok) as (c' & Hins & Hok' & Hc' & Hs' & Hb' & Hsl').
  rewrite Hsz in Hs'. pose proof (circ_ok_cap _ Hok) as Hcap. pose proof (zlen_nonneg links) as Hnn.
  rewrite (wrap_small 64) in Hs' by (unfold in_range; lia).
  assert (AddBlockLink VERSION c db i ds ty h = Ret (ok, c', db')) as Hadd.
  { unfold AddBlockLink, GetLatestIndex. rewrite Hsz. fold l. rewrite Hins.
    assert (SetBlockLink [] 0 l = (true, (SetBlockLink [] 0 l).2)) as -> by done.
    destruct (Z.eqb_spec (zlen links) 0) as [Hz|Hz]; cbn [mbind outcome_bind].
    - destruct links; [|done]. rewrite (He eq_refl) in Eput |- *. cbn [andb negb Z.gtb Z.compare Z.leb mbind outcome_bind].
      rewrite Eput. cbn. by destruct ok.
    - destruct (Hb ltac:(by intros ->)) as (b & -> & Hbi). cbn [mbind outcome_bind].
      rewrite Hbi. destruct (Z.leb_spec i (zlen links - 1)); [lia|]. rewrite andb_false_r. cbn [andb negb mbind outcome_bind].
      rewrite Eput. by destruct ok. }
  exists ok, db', c'. split_and!; done.
Qed.

Lemma AddBlockLink_next c db links ds ty h c' db' :
  links_refine c db links -> zlen h = 32 -> zlen links + m_capacity c + 1 < 2 ^ 64 - 1 ->
  AddBlockLink VERSION c db (zlen links) ds ty h = Ret (true, c', db') ->
  m_capacity c' = m_capacity c /\
  links_refine c' db' (links ++ [mkLink VERSION (zlen links) ds ty h]).
Proof.
  intros Hlr Hh Hov Hadd. set (l := mkLink VERSION (zlen links) ds ty h).
  pose proof (AddBlockLink_accept c db links (zlen links) ds ty h Hlr ltac:(lia) ltac:(by intros ->)) as Hacc.
  fold l in Hacc. cbn zeta in Hacc. destruct Hacc as (ok & db1 & c1 & Eput & Hadd' & Hok' & Hc' & Hs' & Hb' & Hsl').
  rewrite Hadd in Hadd'. injection Hadd' as <- <- <-.
  pose proof Hlr as [Hopen Hok Hsz Hr Hb Hl Hw Hst]. pose proof (circ_ok_cap _ Hok) as Hcap. split; [done|].
  assert (forall i y, (links ++ [l]) !! i = Some y -> links !! i = Some y \/ (i = length links /\ y = l)) as Hlook.
  { intros i y [?|[Hge Hy]]%lookup_app_Some; [by left|right].
    apply list_lookup_singleton_Some in Hy as [Hy <-]. split; [lia|done]. }
  destruct (PutBlockLink_true _ _ _ _ (zlen_nonneg _) Eput) as [Hopen' Hdb].
  split.
  - done.
  - done.
  - by rewrite Hs', zlen_app.
  - rewrite zlen_app, Hc'. change (zlen [l]) with 1. lia.
  - intros _. exists l. rewrite zlen_app. split; [done|]. change (zlen [l]) with 1. cbn. lia.
  - intros i y [Hy|[-> ->]]%Hlook; [by apply Hl|]. by repeat split.
  - intros i y Hy Hwin. rewrite Hsl'. rewrite zlen_app, Hc' in Hwin. change (zlen [l]) with 1 in Hwin.
    apply Hlook in Hy as [Hy|[-> ->]]; [|by rewrite decide_True].
    pose proof (lookup_lt_Some _ _ _ Hy) as Hlt. rewrite decide_False; [apply Hw; [done|lia]|].
    intros Hm. apply (window_mod_inj (m_capacity c)) in Hm; unfold zlen in *; lia.
  - intros i y [Hy|[-> ->]]%Hlook; [|by apply (stored_link db db' l); try apply zlen_nonneg].
    specialize (Hst _ _ Hy). pose proof (lookup_lt_Some _ _ _ Hy) as Hlt.
    unfold Storage_GetBlockLink, Lookup_num in *. rewrite lookup_value_open in * by done.
    rewrite Hdb, decide_False; [done|unfold zlen; lia|lia].
Qed.

(** The states of a chain used as the node uses it: links are added with the next
    index; anything may be refused. *)
Inductive links_reach : CircularArray BlockLink -> LevelDB DB -> list BlockLink -> Prop :=
  | reach_start db : m_open db = true -> links_reach links_Reset db []
  | reach_add c db links ds ty h c' db' :
      links_reach c db links -> zlen h = 32 -> zlen links < 2 ^ 63 ->
      AddBlockLink VERSION c db (zlen links) ds ty h = Ret (true, c', db') ->
      links_reach c' db' (links ++ [mkLink VERSION (zlen links) ds ty h])
  | reach_refused c db links i ds ty h :
      links_reach c db links -> 0 <= i ->
      AddBlockLink VERSION c db i ds ty h = Ret (false, c, db) ->
      links_reach c db links.

Lemma reach_refine c db links :
  links_reach c db links -> m_capacity c = BLOCKCHAIN_SIZE /\ links_refine c db links.
Proof.
  induction 1 as [db Ho|c db links ds ty h c' db' _ [Hcap Hlr] Hh Hlt Hadd|].
  - split; [done|]. by apply links_Reset_refine.
  - edestruct AddBlockLink_next as [Hc' Hlr']; [exact Hlr|exact Hh| |exact Hadd|].
    + rewrite Hcap. unfold BLOCKCHAIN_SIZE. lia.
    + split; [congruence|done].
  - done.
Qed.

(** no link is lost.  In every state of a chain to which links were added one
    after the other with success, [GetBlockLink] returns for every index the link
    that was added there, from memory or from the database, and the empty link
    for every index that was not added; [GetLatestIndex] is the index of the last
    one; and an index that was already used is refused without a change. *)
Theorem links_never_lost c db links :
  links_reach c db links ->
  (forall i, 0 <= i -> i + BLOCKCHAIN_SIZE < 2 ^ 64 ->
     GetBlockLink VERSION c db i = Ret (default BlockLink_default (links !! Z.to_nat i))) /\
  (links <> [] -> GetLatestIndex c = Ret (zlen links - 1)) /\
  (forall i ds ty h, 0 <= i < zlen links -> AddBlockLink VERSION c db i ds ty h = Ret (false, c, db)).
Proof.
  intros [Hcap Hlr]%reach_refine. split; [|split].
  - intros i Hi Hov. apply GetBlockLink_refines; [done|done|by rewrite Hcap].
  - intros Hne. unfold GetLatestIndex. rewrite (lr_size _ _ _ Hlr).
    destruct (lr_back _ _ _ Hlr Hne) as (l & -> & Hl).
    destruct (Z.eqb_spec (zlen links) 0); [by destruct links|]. cbn. by rewrite Hl.
  - intros i ds ty h Hi. apply (AddBlockLink_reject _ _ links); [done|lia| |intros; lia].
    intros ->. unfold zlen in Hi. cbn in Hi. lia.
Qed.

(** A skipped index makes links unreadable.  [AddBlockLink] accepts an index
    above the next one, but its counter grows by one only: the new link reads as
    the empty link. *)
Theorem skipped_index_unreadable c db links i ds ty h :
  links_reach c db links -> links <> [] -> zlen links < i < 2 ^ 63 ->
  exists ok c' db', AddBlockLink VERSION c db i ds ty h = Ret (ok, c', db') /\
    GetLatestBlockLink c' = Ret (mkLink VERSION i ds ty h) /\
    GetBlockLink VERSION c' db' i = Ret BlockLink_default.
Proof.
  intros [Hcap Hlr]%reach_refine Hne Hi.
  pose proof (AddBlockLink_accept c db links i ds ty h Hlr ltac:(lia) ltac:(done)) as Hacc.
  cbn zeta in Hacc. destruct Hacc as (ok & db' & c' & _ & Hadd & _ & _ & Hs & Hb & _). exists ok, c', db'.
  split; [done|]. split; [done|]. unfold GetBlockLink. rewrite Hs.
  destruct (Z.leb_spec (zlen links + 1) i); [done|lia].
Qed.

End refinement.

(** ** An encoding *)

Module LinkExamples.

#[local] Instance ProtoBlockLink_eq_dec : EqDecision ProtoBlockLink.
Proof. solve_decision. Defined.
#[local] Instance ProtoBlockLink_countable : Countable ProtoBlockLink.
Proof.
  refine (inj_countable' (fun m => (pbl_version m, pbl_index m, pbl_dsindex m, pbl_blocktype m, pbl_blockhash m))
    (fun '(a, b, c, d, e) => mkProtoLink a b c d e) _). by intros [].
Defined.

(** A message as one number. *)
#[local] Instance count_proto : LinkProto := {|
  link_serialize m := [Zpos (encode m)];
  link_parse bs := match bs with [Zpos p] => decode p | _ => None end
|}.
#[local] Instance count_proto_spec : LinkProtoSpec.
Proof. split; [|done]. intros m. cbn. apply decode_encode. Defined.

Definition hash_of (n : Z) : bytes := replicate 32 n.

(** Writes to this database succeed. *)
Lemma reach_one_more c (db : LevelDB MapDB.db) links ds ty h :
  links_reach 1 c db links -> zlen h = 32 -> zlen links < 2 ^ 63 ->
  exists c' db', links_reach 1 c' db' (links ++ [mkLink 1 (zlen links) ds ty h]).
Proof.
  intros Hr Hh Hlt. destruct (reach_refine _ _ _ _ Hr) as [_ Hlr].
  destruct (AddBlockLink_accept 1 c db links (zlen links) ds ty h Hlr ltac:(lia) ltac:(by intros ->))
    as (ok & db' & c' & Hput & Hadd & _).
  unfold PutBlockLink, Insert_num, insert_key, with_db in Hput. rewrite (lr_open _ _ _ _ Hlr) in Hput.
  injection Hput as <- <-. eexists c', _. by eapply reach_add.
Qed.

Definition three_links : list BlockLink :=
  [mkLink 1 0 0 0 (hash_of 7); mkLink 1 1 1 2 (hash_of 8); mkLink 1 2 1 0 (hash_of 9)].

Lemma three_links_reach : exists c (db : LevelDB MapDB.db), links_reach 1 c db three_links.
Proof.
  destruct (reach_one_more _ _ _ 0 0 (hash_of 7) (reach_start 1 MapDB.opened eq_refl)) as (c1 & db1 & H1); [done..|].
  destruct (reach_one_more _ _ _ 1 2 (hash_of 8) H1) as (c2 & db2 & H2); [done..|].
  destruct (reach_one_more _ _ _ 1 0 (hash_of 9) H2) as (c3 & db3 & H3); [done..|]. by exists c3, db3.
Qed.

Lemma links_never_lost_witness :
  exists c db, GetBlockLink 1 c (db : LevelDB MapDB.db) 1 = Ret (mkLink 1 1 1 2 (hash_of 8)) /\
    GetBlockLink 1 c db 3 = Ret BlockLink_default /\ GetLatestIndex c = Ret 2 /\
    AddBlockLink 1 c db 1 5 0 (hash_of 1) = Ret (false, c, db).
Proof.
  destruct three_links_reach as (c & db & Hr). destruct (links_never_lost 1 c db _ Hr) as (H1 & H2 & H3).
  exists c, db. rewrite !H1, H2, H3 by done. done.
Defined.

Lemma skipped_index_unreadable_witness :
  exists c db ok c' db', AddBlockLink 1 c (db : LevelDB MapDB.db) 9 5 0 (hash_of 1) = Ret (ok, c', db') /\
    GetBlockLink 1 c' db' 9 = Ret BlockLink_default.
Proof.
  destruct three_links_reach as (c & db & Hr).
  destruct (skipped_index_unreadable 1 c db _ 9 5 0 (hash_of 1) Hr ltac:(done) ltac:(done))
    as (ok & c' & db' & H1 & _ & H2).
  by exists c, db, ok, c', db'.
Defined.

End LinkExamples.
