(* ===== verification/Blocks.v ===== *)
(** * Block headers, blocks and their collective signatures
    ([libData/BlockData], and the checks of [libNode], [libDirectoryService] and
    [libValidator] that a block was co-signed)

    A record per class of the source; the fields keep their names behind a prefix
    for the class.  [std::map<PubKey, Peer>] is the list of its entries in key
    order.  The protobuf form of a header is the class [HeaderProto]: the
    serialized header, [None] when a required field is missing. *)

From stdpp Require Import base numbers list.
From S2P Require Import Prelude BitVector Peer OpenSSL Schnorr MultiSig ConsensusMessages ConsensusCommon ConsensusBackup.
From S2P Require Import BlockChain.
Open Scope Z_scope.

(** ** Headers *)

Record BlockHeaderBase := mkHeaderBase {
  hb_version : Z;
  hb_committeeHash : bytes;
  hb_prevHash : bytes
}.

Definition zero_hash : bytes := replicate 32 0.

Definition BlockHeaderBase_default : BlockHeaderBase := mkHeaderBase 0 zero_hash zero_hash.

Section blocks.
Context `{OpenSSL}.

(** [SWInfo] is carried along only. *)
Record DSBlockHeader := mkDSHeader {
  dsh_base : BlockHeaderBase;
  dsh_dsDifficulty : Z;
  dsh_difficulty : Z;
  dsh_leaderPubKey : PubKey;
  dsh_blockNum : Z;
  dsh_epochNum : Z;
  dsh_gasPrice : Z;
  dsh_swInfo : list Z;
  dsh_PoWDSWinners : DequeOfNode;
  dsh_shardingHash : bytes;
  dsh_reservedField : bytes
}.

Record TxBlockHeader := mkTxHeader {
  txh_base : BlockHeaderBase;
  txh_gasLimit : Z;
  txh_gasUsed : Z;
  txh_rewards : Z;
  txh_blockNum : Z;
  txh_stateRootHash : bytes;
  txh_stateDeltaHash : bytes;
  txh_mbInfoHash : bytes;
  txh_numTxs : Z;
  txh_minerPubKey : PubKey;
  txh_dsBlockNum : Z
}.

Record MicroBlockHeader := mkMicroHeader {
  mbh_base : BlockHeaderBase;
  mbh_shardId : Z;
  mbh_gasLimit : Z;
  mbh_gasUsed : Z;
  mbh_rewards : Z;
  mbh_epochNum : Z;
  mbh_txRootHash : bytes;
  mbh_stateDeltaHash : bytes;
  mbh_tranReceiptHash : bytes;
  mbh_numTxs : Z;
  mbh_minerPubKey : PubKey;
  mbh_dsBlockNum : Z
}.

Record VCBlockHeader := mkVCHeader {
  vch_base : BlockHeaderBase;
  vch_VieWChangeDSEpochNo : Z;
  vch_VieWChangeEpochNo : Z;
  vch_ViewChangeState : Z;
  vch_CandidateLeaderNetworkInfo : Peer;
  vch_CandidateLeaderPubKey : PubKey;
  vch_VCCounter : Z;
  vch_FaultyLeaders : DequeOfNode
}.

Record FallbackBlockHeader := mkFallbackHeader {
  fbh_base : BlockHeaderBase;
  fbh_fallbackDSEpochNo : Z;
  fbh_fallbackEpochNo : Z;
  fbh_fallbackState : Z;
  fbh_stateRootHash : bytes;
  fbh_leaderConsensusId : Z;
  fbh_leaderNetworkInfo : Peer;
  fbh_leaderPubKey : PubKey;
  fbh_shardId : Z
}.

Definition DSBlockHeader_default : DSBlockHeader :=
  mkDSHeader BlockHeaderBase_default 0 0 PubKey_default INIT_BLOCK_NUMBER (u64 (-1)) 0 [] [] zero_hash
    (replicate 128 0).

Definition TxBlockHeader_default : TxBlockHeader :=
  mkTxHeader BlockHeaderBase_default 0 0 0 INIT_BLOCK_NUMBER zero_hash zero_hash zero_hash 0 PubKey_default
    INIT_BLOCK_NUMBER.

(** ** Blocks *)

Record CoSignatures := mkCoSigs {
  cs_CS1 : Signature;
  cs_B1 : list bool;
  cs_CS2 : Signature;
  cs_B2 : list bool
}.

Definition CoSignatures_new (bitmaplen : Z) : CoSignatures :=
  mkCoSigs Signature_default (replicate (Z.to_nat bitmaplen) false)
    Signature_default (replicate (Z.to_nat bitmaplen) false).

Record BlockBase := mkBlockBase {
  bb_blockHash : bytes;
  bb_cosigs : CoSignatures;
  bb_timestamp : Z
}.

Definition BlockBase_default : BlockBase := mkBlockBase zero_hash (CoSignatures_new 1) 0.

(** [SetCoSignatures(const ConsensusCommon&)] *)
Definition SetCoSignatures (b : BlockBase) (src : ConsensusCommon) : BlockBase :=
  mkBlockBase (bb_blockHash b) (mkCoSigs (m_CS1 src) (m_B1 src) (m_CS2 src) (m_B2 src)) (bb_timestamp b).

Record MicroBlockInfo := mkMBInfo {
  mbi_microBlockHash : bytes;
  mbi_txnRootHash : bytes;
  mbi_shardId : Z
}.

Record DSBlock := mkDSBlock { dsb_base : BlockBase; dsb_header : DSBlockHeader }.
Record TxBlock := mkTxBlock { txb_base : BlockBase; txb_header : TxBlockHeader; txb_mbInfos : list MicroBlockInfo }.
Record MicroBlock := mkMicroBlock { mb_base : BlockBase; mb_header : MicroBlockHeader; mb_tranHashes : list bytes }.
Record VCBlock := mkVCBlock { vcb_base : BlockBase; vcb_header : VCBlockHeader }.
Record FallbackBlock := mkFallbackBlock { fbb_base : BlockBase; fbb_header : FallbackBlockHeader }.

(** [std::tuple<PubKey, Peer, uint16_t>]: a shard member with its reputation. *)
Abbreviation Shard := (list (PubKey * Peer * Z)).
Abbreviation DequeOfShard := (list Shard).

(** The keys of a shard, [std::get<SHARD_NODE_PUBKEY>]. *)
Definition shard_keys (shard : Shard) : list PubKey := (fun n : PubKey * Peer * Z => n.1.1) <$> shard.

Record FallbackBlockWShardingStructure := mkFallbackW { fbw_block : FallbackBlock; fbw_shards : DequeOfShard }.

Definition DSBlock_default : DSBlock := mkDSBlock BlockBase_default DSBlockHeader_default.
Definition TxBlock_default : TxBlock := mkTxBlock BlockBase_default TxBlockHeader_default [].

(** ** Serialized headers and hashes *)

Class HeaderProto (H : Type) := header_proto : H -> option bytes.

(** [Messenger::Set...Header] behind the header's [Serialize]. *)
Definition Header_Serialize {H} `{HeaderProto H} (h : H) (dst : bytes) (offset : Z) : bool * bytes :=
  match header_proto h with
  | None => (false, dst)
  | Some data => proto_write data dst offset
  end.

(** The result of [Serialize] is not looked at. *)
Definition GetMyHash {H} `{HeaderProto H} (h : H) : bytes :=
  SHA256 (SHA2.Update SHA2.Reset (Header_Serialize h [] 0).2).

(** The constructor with header and co-signatures; the timestamp is the time. *)
Definition DSBlock_new `{HeaderProto DSBlockHeader} (now : Z) (header : DSBlockHeader) (cosigs : CoSignatures)
  : DSBlock := mkDSBlock (mkBlockBase (GetMyHash header) cosigs now) header.

Definition TxBlock_new `{HeaderProto TxBlockHeader} (now : Z) (header : TxBlockHeader)
    (mbInfos : list MicroBlockInfo) (cosigs : CoSignatures) : TxBlock :=
  mkTxBlock (mkBlockBase (GetMyHash header) cosigs now) header mbInfos.

(** ** The check of a collective signature *)

(** The signers' keys and their number: a loop over the committee with an index
    into the bit map. *)
Fixpoint collect_signers (B2 : list bool) (keys : list PubKey) (index : Z) : outcome (list PubKey * Z) :=
  match keys with
  | [] => Ret ([], 0)
  | k :: keys =>
      signs ← at_ B2 index;
      '(signers, count) ← collect_signers B2 keys (u32 (index + 1));
      Ret (if signs : bool then (k :: signers, u32 (count + 1)) else (signers, count))
  end.

(** The message under a block's second signature: header, first signature, first
    bit map. *)
Definition cosigned_message (header : bytes) (cosigs : CoSignatures) : outcome bytes :=
  append_round1 header (cs_CS1 cosigs) (cs_B1 cosigs).

(** The common part of the six checks of the source: the sizes agree, exactly the
    required number signed, their keys aggregate, the signature verifies. *)
Definition cosig_check (committee : list PubKey) (cosigs : CoSignatures) (header : option bytes)
  : outcome bool :=
  let B2 := cs_B2 cosigs in
  if negb (zlen committee =? zlen B2) then Ret false
  else
    '(keys, count) ← collect_signers B2 committee 0;
    if negb (count =? NumForConsensus (zlen B2)) then Ret false
    else
      match AggregatePubKeys keys with
      | None => Ret false
      | Some aggregatedKey =>
          match header with
          | None => Ret false
          | Some header =>
              message ← cosigned_message header cosigs;
              Ret (MultiSigVerifyRange message 0 (u32 (zlen message)) (cs_CS2 cosigs) aggregatedKey)
          end
      end.

(** A header that was serialized, or whose serialization failed and is reported. *)
Definition header_checked {H} `{HeaderProto H} (h : H) : option bytes :=
  let '(ok, message) := Header_Serialize h [] 0 in if ok : bool then Some message else None.

Definition VerifyDSBlockCoSignature `{HeaderProto DSBlockHeader} (DSCommittee : DequeOfNode)
    (dsblock : DSBlock) : outcome bool :=
  cosig_check (fst <$> DSCommittee) (bb_cosigs (dsb_base dsblock)) (header_checked (dsb_header dsblock)).

Definition VerifyVCBlockCoSignature `{HeaderProto VCBlockHeader} (DSCommittee : DequeOfNode)
    (vcblock : VCBlock) : outcome bool :=
  cosig_check (fst <$> DSCommittee) (bb_cosigs (vcb_base vcblock)) (header_checked (vcb_header vcblock)).

Definition VerifyFinalBlockCoSignature `{HeaderProto TxBlockHeader} (DSCommittee : DequeOfNode)
    (txblock : TxBlock) : outcome bool :=
  cosig_check (fst <$> DSCommittee) (bb_cosigs (txb_base txblock)) (header_checked (txb_header txblock)).

(** [m_shards[shard_id]]: unchecked, so an index out of range is a fault here. *)
Definition VerifyFallbackBlockCoSignature `{HeaderProto FallbackBlockHeader} (shards : DequeOfShard)
    (fallbackblock : FallbackBlock) : outcome bool :=
  shard ← at_ shards (fbh_shardId (fbb_header fallbackblock));
  cosig_check (shard_keys shard) (bb_cosigs (fbb_base fallbackblock))
    (header_checked (fbb_header fallbackblock)).

(** The micro block of the directory committee has the number after the last
    shard. *)
Definition VerifyMicroBlockCoSignature `{HeaderProto MicroBlockHeader} (LOOKUP_NODE_MODE : bool)
    (shards : DequeOfShard) (DSCommittee : DequeOfNode) (microBlock : MicroBlock) (shardId : Z) : outcome bool :=
  if LOOKUP_NODE_MODE then Ret true
  else
    keys ← (if shardId =? zlen shards then Ret (fst <$> DSCommittee)
            else shard ← at_ shards shardId; Ret (shard_keys shard));
    cosig_check keys (bb_cosigs (mb_base microBlock)) (header_checked (mb_header microBlock)).

(** [Validator::CheckBlockCosignature]: here a failed serialization goes on with
    the empty header. *)
Definition CheckBlockCosignature {H} `{HeaderProto H} (header : H) (base : BlockBase)
    (commKeys : list PubKey) : outcome bool :=
  cosig_check commKeys (bb_cosigs base) (Some (Header_Serialize header [] 0).2).

End blocks.

Abbreviation Shard := (list (PubKey * Peer * Z)).
Abbreviation DequeOfShard := (list Shard).

#[global] Instance TxBlock_block `{OpenSSL} : Block TxBlock :=
  {| block_default := TxBlock_default; GetBlockNum b := txh_blockNum (txb_header b) |}.
#[global] Instance TxBlock_block_spec `{OpenSSL} : BlockSpec TxBlock.
Proof. by split. Defined.

#[global] Instance DSBlock_block `{OpenSSL} : Block DSBlock :=
  {| block_default := DSBlock_default; GetBlockNum b := dsh_blockNum (dsb_header b) |}.
#[global] Instance DSBlock_block_spec `{OpenSSL} : BlockSpec DSBlock.
Proof. by split. Defined.

(** ** What the check decides *)

Section cosigned.
Context `{Hnf : OpenSSLNoFail}.
Implicit Types (committee keys : list PubKey) (cosigs : CoSignatures).

(** Exactly the required number of members of [committee] signed [header] with
    the first-round certificate appended. *)
Definition cosigned committee cosigs (header : bytes) : Prop :=
  length (cs_B2 cosigs) = length committee /\
  Z.of_nat (count_true (cs_B2 cosigs)) = NumForConsensus (zlen committee) /\
  exists key message,
    AggregatePubKeys (select (cs_B2 cosigs) committee) = Some key /\
    cosigned_message header cosigs = Ret message /\
    MultiSigVerify message (cs_CS2 cosigs) key = true.

Lemma collect_signers_select B2 keys (i : nat) :
  (length B2 = i + length keys)%nat -> zlen B2 < 2 ^ 32 ->
  collect_signers B2 keys (Z.of_nat i) =
  Ret (select (drop i B2) keys, Z.of_nat (count_true (drop i B2))).
Proof.
  revert i. induction keys as [|k keys IH]; intros i Hl Hs.
  - rewrite drop_ge by (cbn in Hl; lia). done.
  - cbn in Hl. cbn [collect_signers].
    destruct (lookup_lt_is_Some_2 B2 i) as [b Hb]; [lia|].
    destruct (at_some B2 (Z.of_nat i)) as (b' & -> & Hb'); [unfold zlen; lia|].
    rewrite Nat2Z.id in Hb'. simplify_eq. cbn [mbind outcome_bind].
    rewrite (wrap_small 32) by (unfold in_range, zlen in *; lia).
    replace (Z.of_nat i + 1) with (Z.of_nat (S i)) by lia. rewrite IH by (done || lia). cbn [mbind outcome_bind].
    rewrite (drop_S B2 b i) by done. cbn [select count_true]. destruct b; [|done].
    rewrite wrap_small; [do 2 f_equal; lia|]. unfold in_range.
    pose proof (count_true_le_length (drop (S i) B2)) as Hc. rewrite length_drop in Hc. unfold zlen in *. lia.
Qed.

Lemma cosig_check_iff committee cosigs header :
  zlen committee < 2 ^ 32 ->
  (cosig_check committee cosigs (Some header) = Ret true <-> cosigned committee cosigs header).
Proof.
  intros Hs. unfold cosig_check, cosigned.
  destruct (Z.eqb_spec (zlen committee) (zlen (cs_B2 cosigs))) as [Hl|Hl]; cbn [negb].
  2: { split; [done|]. intros [Hl' _]. unfold zlen in Hl. lia. }
  rewrite (collect_signers_select _ _ 0) by (unfold zlen in *; lia). rewrite drop_0.
  cbn [mbind outcome_bind]. rewrite Hl.
  destruct (Z.eqb_spec (Z.of_nat (count_true (cs_B2 cosigs))) (NumForConsensus (zlen (cs_B2 cosigs)))) as [Hc|Hc];
    cbn [negb].
  2: { split; [done|]. by intros (_ & ? & _). }
  destruct (AggregatePubKeys _) as [key|] eqn:Ek.
  2: { split; [done|]. intros (_ & _ & k & m & Hk & _). congruence. }
  destruct (cosigned_message header cosigs) as [m|] eqn:Em; cbn [mbind outcome_bind].
  - split.
    + intros [= Hv]. split; [unfold zlen in Hl; lia|]. split; [done|]. by exists key, m.
    + intros (_ & _ & k & m' & [= <-] & [= <-] & Hv). f_equal. exact Hv.
  - split; [done|]. by intros (_ & _ & k & m' & _ & ? & _).
Qed.

Lemma header_checked_some {Hd} `{HeaderProto Hd} (h : Hd) data :
  header_proto h = Some data -> header_checked h = Some data /\ (Header_Serialize h [] 0).2 = data.
Proof.
  intros Hp. unfold header_checked, Header_Serialize. rewrite Hp.
  assert (proto_write data [] 0 = (true, data)) as ->; [|done].
  rewrite (surjective_pairing (proto_write data [] 0)). f_equal. apply (proto_write_append data []).
Qed.

(** all checks ask the same of a block.  For a header that can be serialized,
    the checks of shard nodes (directory, view-change, final and fallback blocks),
    of directory nodes (micro blocks) and of a node that catches up return true
    exactly if the bit map has the size of the committee, exactly
    [NumForConsensus] of its members are set, and the second signature holds under
    their aggregated key over the header followed by the first signature and the
    first bit map. *)
Theorem cosig_checks_agree `{HeaderProto DSBlockHeader, HeaderProto VCBlockHeader, HeaderProto TxBlockHeader,
    HeaderProto FallbackBlockHeader, HeaderProto MicroBlockHeader} (comm : DequeOfNode) (shards : DequeOfShard) shard base data :
  zlen comm < 2 ^ 32 -> zlen shard < 2 ^ 32 ->
  (forall h, header_proto h = Some data ->
     VerifyDSBlockCoSignature comm (mkDSBlock base h) = Ret true <-> cosigned (fst <$> comm) (bb_cosigs base) data) /\
  (forall h, header_proto h = Some data ->
     VerifyVCBlockCoSignature comm (mkVCBlock base h) = Ret true <-> cosigned (fst <$> comm) (bb_cosigs base) data) /\
  (forall h infos, header_proto h = Some data ->
     VerifyFinalBlockCoSignature comm (mkTxBlock base h infos) = Ret true <-> cosigned (fst <$> comm) (bb_cosigs base) data) /\
  (forall h, header_proto h = Some data -> at_ shards (fbh_shardId h) = Ret shard ->
     VerifyFallbackBlockCoSignature shards (mkFallbackBlock base h) = Ret true <->
     cosigned (shard_keys shard) (bb_cosigs base) data) /\
  (forall h txs, header_proto h = Some data ->
     VerifyMicroBlockCoSignature false shards comm (mkMicroBlock base h txs) (zlen shards) = Ret true <->
     cosigned (fst <$> comm) (bb_cosigs base) data) /\
  (forall h : DSBlockHeader, header_proto h = Some data ->
     CheckBlockCosignature h base (fst <$> comm) = Ret true <->
     cosigned (fst <$> comm) (bb_cosigs base) data).
Proof.
  intros Hc Hs. assert (zlen (fst <$> comm) < 2 ^ 32) as Hc' by (unfold zlen in *; by rewrite length_fmap).
  assert (zlen (shard_keys shard) < 2 ^ 32) as Hs' by (unfold shard_keys, zlen in *; by rewrite length_fmap).
  split_and!; intros h; intros; match goal with Hp : header_proto h = Some data |- _ => apply header_checked_some in Hp as [Hp1 Hp2] end.
  - unfold VerifyDSBlockCoSignature. cbn [dsb_base dsb_header]. rewrite Hp1. by apply cosig_check_iff.
  - unfold VerifyVCBlockCoSignature. cbn [vcb_base vcb_header]. rewrite Hp1. by apply cosig_check_iff.
  - unfold VerifyFinalBlockCoSignature. cbn [txb_base txb_header]. rewrite Hp1. by apply cosig_check_iff.
  - unfold VerifyFallbackBlockCoSignature. cbn [fbb_base fbb_header].
    match goal with Ha : at_ _ _ = _ |- _ => rewrite Ha end. cbn [mbind outcome_bind]. rewrite Hp1. by apply cosig_check_iff.
  - unfold VerifyMicroBlockCoSignature. cbn [mb_base mb_header]. rewrite Z.eqb_refl. cbn [mbind outcome_bind].
    rewrite Hp1. by apply cosig_check_iff.
  - unfold CheckBlockCosignature. rewrite Hp2. by apply cosig_check_iff.
Qed.

End cosigned.

(** ** Example: three signers on the cyclic group *)

Module CosigExample.

#[local] Instance ds_proto : HeaderProto DSBlockHeader := fun h => Some [1; dsh_blockNum h].
#[local] Instance vc_proto : HeaderProto VCBlockHeader := fun h => Some [5; vch_VieWChangeDSEpochNo h].
#[local] Instance fb_proto : HeaderProto FallbackBlockHeader := fun h => Some [3; fbh_fallbackDSEpochNo h].
#[local] Instance tx_proto : HeaderProto TxBlockHeader := fun h => Some [4; txh_blockNum h].
#[local] Instance mb_proto : HeaderProto MicroBlockHeader := fun h => Some [6; mbh_epochNum h].

(** The signers of the multisignature example sign [header] with a first-round
    signature and the bit map [bm]. *)
Definition cosign (bm : list bool) (header : bytes) : CoSignatures :=
  let cs1 := mkSignature 1 1 in
  match append_round1 header cs1 bm with
  | Ret message =>
      let ch := Challenge_new sample_aggQ sample_aggP message in
      match MultiSig.AggregateResponses ((fun x => Response_new x.2 ch x.1) <$> sample_keys) with
      | Some r => match MultiSig.AggregateSign ch r with
                  | Some sg => mkCoSigs cs1 bm sg bm
                  | None => CoSignatures_new 1
                  end
      | None => CoSignatures_new 1
      end
  | Fault _ => CoSignatures_new 1
  end.

Definition three : DequeOfNode := (fun k => (k, Peer_new 1 2)) <$> sample_pubs.
Definition signed_base : BlockBase := mkBlockBase zero_hash (cosign [true; true; true] [1; 9]) 0.
Definition header9 : DSBlockHeader :=
  mkDSHeader BlockHeaderBase_default 0 0 PubKey_default 9 0 0 [] [] zero_hash [].

Lemma cosig_checks_agree_witness : VerifyDSBlockCoSignature three (mkDSBlock signed_base header9) = Ret true.
Proof.
  destruct (cosig_checks_agree three [] [] signed_base [1; 9]) as (H1 & _); [done|done|].
  apply (H1 header9 eq_refl). apply cosig_check_iff; [done|]. vm_compute. reflexivity.
Defined.

End CosigExample.
