(* ===== verification/Committee.v ===== *)
(** * How the directory committee changes
    ([libDirectoryService/DSBlockPostProcessing.cpp], [ViewChangePreProcessing.cpp],
    [ViewChangePostProcessing.cpp], [libNode/DSBlockProcessing.cpp],
    [ViewChangeBlockProcessing.cpp], [FallbackBlockProcessing.cpp])

    Every node keeps the committee as a deque of keys and addresses; the members
    themselves are listed with the empty address on their own node.  A directory
    block brings new members in and pushes the oldest out, a view change moves the
    faulty leaders to the back, a fallback replaces the committee by a shard.

    The node's key [selfKey], its address [selfPeer], guard mode and the number of
    directory guards are parameters of each component. *)

From stdpp Require Import base numbers list.
From S2P Require Import Prelude Peer OpenSSL Schnorr ConsensusMessages BlockChain Blocks.
Open Scope Z_scope.

(** [DataConversion::charArrTo16Bits] *)
Definition charArrTo16Bits (hex_arr : bytes) : outcome Z :=
  if zlen hex_arr =? 0 then Ret 0
  else
    let lsb := u32 (zlen hex_arr - 1) in
    hi ← at_ hex_arr (u32 (lsb - 1));
    lo ← at_ hex_arr lsb;
    Ret (u16 (Z.lor (Z.shiftl hi 8) lo)).

Inductive Mode := IDLE | PRIMARY_DS | BACKUP_DS.

Section committee.
Context `{OpenSSL}.
Context (selfKey : PubKey) (selfPeer : Peer) (GUARD_MODE : bool) (NumOfDSGuard : Z).
Implicit Types (dsComm : DequeOfNode) (node : PubKey * Peer).

(** [PairOfNode::operator==] *)
Definition node_eqb node1 node2 : bool := PubKey_eq node1.1 node2.1 && Peer_eqb node1.2 node2.2.

(** [deque::emplace(begin() + n, x)]: beyond the end is undefined. *)
Definition deque_emplace {A} (l : list A) (n : Z) (x : A) : outcome (list A) :=
  if (0 <=? n) && (n <=? zlen l) then Ret (take (Z.to_nat n) l ++ x :: drop (Z.to_nat n) l)
  else Fault OutOfRange.

(** [deque::pop_back()] *)
Definition pop_back {A} (l : list A) : list A := take (pred (length l)) l.

(** ** After a directory block *)

(** One winner: my own entry has the empty address. *)
Definition admit_winner dsComm (winner : PubKey * Peer) : outcome DequeOfNode :=
  let entry := if PubKey_eq selfKey winner.1 then (selfKey, Peer_default) else winner in
  dsComm ← (if negb GUARD_MODE then Ret (entry :: dsComm) else deque_emplace dsComm NumOfDSGuard entry);
  Ret (pop_back dsComm).

Fixpoint admit_winners dsComm (winners : DequeOfNode) : outcome DequeOfNode :=
  match winners with
  | [] => Ret dsComm
  | w :: winners => dsComm ← admit_winner dsComm w; admit_winners dsComm winners
  end.

(** [Node::UpdateDSCommiteeComposition] *)
Definition Node_UpdateDSCommiteeComposition dsComm (dsblock : DSBlock) : outcome DequeOfNode :=
  admit_winners dsComm (dsh_PoWDSWinners (dsb_header dsblock)).

(** Keys that are equivalent in the order of [std::map]. *)
Definition key_equiv (a b : PubKey) : bool := negb (PubKey_lt a b) && negb (PubKey_lt b a).

Definition map_erase {V} (m : list (PubKey * V)) (k : PubKey) : list (PubKey * V) :=
  filter (fun e => key_equiv e.1 k = false) m.

(** [DirectoryService::UpdateDSCommiteeComposition]: the winners come from the last
    block of the chain, and their connections are forgotten. *)
Fixpoint ds_admit_winners dsComm (allPoWConns : list (PubKey * Peer)) (winners : DequeOfNode)
  : outcome (DequeOfNode * list (PubKey * Peer)) :=
  match winners with
  | [] => Ret (dsComm, allPoWConns)
  | w :: winners =>
      let allPoWConns := map_erase allPoWConns w.1 in
      dsComm ← admit_winner dsComm w;
      ds_admit_winners dsComm allPoWConns winners
  end.

Definition DS_UpdateDSCommiteeComposition (LOOKUP_NODE_MODE : bool) (chain : CircularArray DSBlock)
    dsComm (allPoWConns : list (PubKey * Peer)) : outcome (DequeOfNode * list (PubKey * Peer)) :=
  if LOOKUP_NODE_MODE then Ret (dsComm, allPoWConns)
  else
    last ← GetLastBlock chain;
    ds_admit_winners dsComm allPoWConns (dsh_PoWDSWinners (dsb_header last)).

(** [DirectoryService::UpdateMyDSModeAndConsensusId], run after the committee has
    been updated.  [hash] is [GetHashForRandom] of the last directory block.  The
    result: mode, own ID, leader ID. *)
Definition UpdateMyDSModeAndConsensusId (LOOKUP_NODE_MODE : bool) (currentEpochNum : Z)
    (last : DSBlock) (hash : bytes) dsComm (mode : Mode) (consensusMyID consensusLeaderID : Z)
  : outcome (Mode * Z * Z) :=
  let numOfIncomingDs := u16 (zlen (dsh_PoWDSWinners (dsb_header last))) in
  if LOOKUP_NODE_MODE then Ret (mode, consensusMyID, consensusLeaderID)
  else
    lastBlockHash ← (if currentEpochNum >? 1 then charArrTo16Bits hash else Ret 0);
    if u32 (consensusMyID + numOfIncomingDs) >=? zlen dsComm then Ret (IDLE, consensusMyID, consensusLeaderID)
    else
      let '(myID, leaderID) :=
        if negb GUARD_MODE
        then (u16 (consensusMyID + numOfIncomingDs), u16 (lastBlockHash mod zlen dsComm))
        else (if consensusMyID >=? NumOfDSGuard then u16 (consensusMyID + numOfIncomingDs) else consensusMyID,
              u16 (lastBlockHash mod NumOfDSGuard)) in
      leader ← at_ dsComm leaderID;
      Ret (if PubKey_eq leader.1 selfKey then PRIMARY_DS else BACKUP_DS, myID, leaderID).

(** The loop of [Node::ProcessVCDSBlocksMessage] over the winners: the index of a
    new member counts down from the last winner ([unsigned int]). *)
Fixpoint new_member_loop (winners : DequeOfNode) (index : Z) (found : option Z) : option Z :=
  match winners with
  | [] => found
  | w :: winners =>
      new_member_loop winners (u32 (index - 1)) (if PubKey_eq selfKey w.1 then Some (u16 index) else found)
  end.

(** The consensus ID of a node that won the election, [None] if it did not. *)
Definition new_member_id (winners : DequeOfNode) : option Z :=
  let index := u32 (zlen winners - 1) in
  new_member_loop winners (if GUARD_MODE then u32 (index + NumOfDSGuard) else index) None.

(** ** After a view change *)

(** [find_if] and [erase] of the first match. *)
Fixpoint erase_first {A} (p : A -> bool) (l : list A) : option (list A) :=
  match l with
  | [] => None
  | x :: l => if p x then Some l else (x ::.) <$> erase_first p l
  end.

(** Eject and append; a leader that is not found is only logged. *)
Definition eject dsComm (p : PubKey * Peer -> bool) (back : PubKey * Peer) : DequeOfNode :=
  match erase_first p dsComm with
  | Some dsComm => dsComm
  | None => dsComm
  end ++ [back].

(** [Node::UpdateDSCommiteeCompositionAfterVC] *)
Definition UpdateDSCommiteeCompositionAfterVC (vcblock : VCBlock) dsComm : DequeOfNode :=
  if GUARD_MODE then dsComm
  else
    foldl (fun dsComm faultyLeader =>
      if PubKey_eq faultyLeader.1 selfKey && Peer_eqb faultyLeader.2 Peer_default
      then eject dsComm (fun n => node_eqb n (faultyLeader.1, Peer_default)) faultyLeader
      else eject dsComm (fun n => node_eqb n faultyLeader) faultyLeader)
    dsComm (vch_FaultyLeaders (vcb_header vcblock)).

(** [Node::UpdateRetrieveDSCommiteeCompositionAfterVC]: only the keys count. *)
Definition UpdateRetrieveDSCommiteeCompositionAfterVC (vcblock : VCBlock) dsComm : DequeOfNode :=
  if GUARD_MODE then dsComm
  else
    foldl (fun dsComm faultyLeader =>
      eject dsComm (fun p => PubKey_eq p.1 faultyLeader.1) faultyLeader)
    dsComm (vch_FaultyLeaders (vcb_header vcblock)).

(** The part of [DirectoryService::ProcessViewChangeConsensusWhenDone] that moves
    the faulty leaders: the node's own address stands for the node. *)
Definition ds_eject_faulty dsComm (faultyLeaders : DequeOfNode) : DequeOfNode :=
  if GUARD_MODE then dsComm
  else
    foldl (fun dsComm faultyLeader =>
      if Peer_eqb faultyLeader.2 selfPeer
      then eject dsComm (fun n => node_eqb n (faultyLeader.1, Peer_default)) (faultyLeader.1, Peer_default)
      else eject dsComm (fun n => node_eqb n faultyLeader) faultyLeader)
    dsComm faultyLeaders.

(** [distance(begin, find(...))] *)
Fixpoint find_index {A} (p : A -> bool) (l : list A) : option Z :=
  match l with
  | [] => None
  | x :: l => if p x then Some 0 else (Z.add 1) <$> find_index p l
  end.

(** The new own ID and leader ID; [None] when the node or the new leader is not in
    the committee (the handler gives up). *)
Definition vc_new_ids dsComm (candidateKey : PubKey) (candidatePeer : Peer) : option (Z * Z) :=
  match find_index (fun n => node_eqb n (selfKey, Peer_default)) dsComm with
  | None => None
  | Some myID =>
      let myID := u16 myID in
      if PubKey_eq candidateKey selfKey && Peer_eqb candidatePeer selfPeer then Some (myID, myID)
      else
        match find_index (fun n => node_eqb n (candidateKey, candidatePeer)) dsComm with
        | None => None
        | Some leaderID => Some (myID, u16 leaderID)
        end
  end.

(** ** After a fallback *)

(** [Node::UpdateDSCommitteeAfterFallback]: [shards[shard_id]] is unchecked. *)
Definition UpdateDSCommitteeAfterFallback (shard_id : Z) (leaderPubKey : PubKey) (leaderNetworkInfo : Peer)
    (shards : DequeOfShard) : outcome DequeOfNode :=
  shard ← at_ shards shard_id;
  Ret (foldl (fun (dsComm : DequeOfNode) (shardNode : PubKey * Peer * Z) =>
         if PubKey_eq shardNode.1.1 leaderPubKey && Peer_eqb shardNode.1.2 leaderNetworkInfo
         then (leaderPubKey, leaderNetworkInfo) :: dsComm
         else dsComm ++ [shardNode.1]) [] shard).

End committee.

(** ** The committee after a directory block *)

Section rotation.
Context `{Hnf : OpenSSLNoFail}.
Context (selfKey : PubKey) (GUARD_MODE : bool) (NumOfDSGuard : Z).
Implicit Types (dsComm winners : DequeOfNode).

(** The entry of a winner on this node. *)
Definition entry_of (w : PubKey * Peer) : PubKey * Peer :=
  if PubKey_eq selfKey w.1 then (selfKey, Peer_default) else w.

(** The members in front of the places of the new ones. *)
Definition guards : nat := if GUARD_MODE then Z.to_nat NumOfDSGuard else 0.

(** Guards, new members (the last winner first), the remaining old members. *)
Definition rotated dsComm winners : DequeOfNode :=
  take guards dsComm ++ reverse (entry_of <$> winners) ++
  take (length dsComm - guards - length winners) (drop guards dsComm).

Lemma length_rotated dsComm winners :
  (guards + length winners <= length dsComm)%nat -> length (rotated dsComm winners) = length dsComm.
Proof.
  intros Hl. unfold rotated. rewrite !length_app, length_reverse, length_fmap, !length_take, length_drop. lia.
Qed.

Lemma admit_winner_rotated dsComm w :
  0 <= NumOfDSGuard -> (guards < length dsComm)%nat ->
  admit_winner selfKey GUARD_MODE NumOfDSGuard dsComm w = Ret (rotated dsComm [w]).
Proof.
  intros Hg Hl. unfold admit_winner, rotated, guards in *. fold (entry_of w).
  cbn [length]. change (reverse (entry_of <$> [w])) with [entry_of w].
  destruct GUARD_MODE; cbn [negb mbind outcome_bind].
  - unfold deque_emplace. destruct (Z.leb_spec 0 NumOfDSGuard), (Z.leb_spec NumOfDSGuard (zlen dsComm));
      unfold zlen in *; try lia. cbn [andb mbind outcome_bind]. f_equal. unfold pop_back.
    rewrite length_app. cbn [length]. rewrite length_drop, length_take.
    rewrite take_app_ge by (rewrite length_take; lia). f_equal. rewrite length_take.
    match goal with |- take ?n _ = _ => replace n with (S (length dsComm - Z.to_nat NumOfDSGuard - 1)) by lia end.
    done.
  - f_equal. unfold pop_back. cbn [length pred take drop app]. destruct dsComm as [|x dsComm]; [cbn in Hl; lia|].
    cbn [length]. replace (S (length dsComm) - 0 - 1)%nat with (length dsComm) by lia. done.
Qed.

Lemma rotated_cons dsComm w winners :
  (guards + S (length winners) <= length dsComm)%nat ->
  rotated (rotated dsComm [w]) winners = rotated dsComm (w :: winners).
Proof.
  intros Hl. unfold rotated at 1. rewrite length_rotated by (cbn; lia).
  unfold rotated. cbn [length].
  change (reverse (entry_of <$> [w])) with [entry_of w]. rewrite fmap_cons, reverse_cons.
  rewrite !take_app_le, take_take, Nat.min_id by (rewrite length_take; lia).
  rewrite drop_app_ge by (rewrite length_take; lia). rewrite length_take.
  replace (guards - guards `min` length dsComm)%nat with 0%nat by lia. rewrite drop_0.
  replace (length dsComm - guards - length winners)%nat
    with (S (length dsComm - guards - S (length winners))) by lia.
  cbn [app]. rewrite firstn_cons, take_take, <- app_assoc. do 2 f_equal. cbn [app]. do 2 f_equal. lia.
Qed.

Lemma admit_winners_rotated dsComm winners :
  0 <= NumOfDSGuard -> (guards + length winners <= length dsComm)%nat ->
  admit_winners selfKey GUARD_MODE NumOfDSGuard dsComm winners = Ret (rotated dsComm winners).
Proof.
  intros Hg. revert dsComm. induction winners as [|w winners IH]; intros dsComm Hl.
  - cbn. f_equal. unfold rotated. cbn. rewrite Nat.sub_0_r, (take_ge (drop guards dsComm)) by (rewrite length_drop; lia).
    by rewrite take_drop.
  - cbn in Hl. cbn [admit_winners]. rewrite admit_winner_rotated by (done || lia). cbn [mbind outcome_bind].
    rewrite IH by (rewrite length_rotated by (cbn; lia); lia). f_equal. apply rotated_cons. done.
Qed.

Lemma ds_admit_winners_rotated dsComm conns winners :
  0 <= NumOfDSGuard -> (guards + length winners <= length dsComm)%nat ->
  ds_admit_winners selfKey GUARD_MODE NumOfDSGuard dsComm conns winners
  = Ret (rotated dsComm winners, foldl (fun c w => map_erase c w.1) conns winners).
Proof.
  intros Hg. revert dsComm conns. induction winners as [|w winners IH]; intros dsComm conns Hl.
  - pose proof (admit_winners_rotated dsComm [] Hg Hl) as Hr. cbn in *. congruence.
  - cbn in Hl. cbn [ds_admit_winners foldl]. rewrite admit_winner_rotated by (done || lia). cbn [mbind outcome_bind].
    rewrite IH by (rewrite length_rotated by (cbn; lia); lia). do 2 f_equal. apply rotated_cons. done.
Qed.

(** C9: shard nodes, lookup nodes and directory nodes rotate the committee alike.
    When a directory block brings no more winners than there are members behind
    the guards, [Node::UpdateDSCommiteeComposition] and, with that block last in
    the chain, [DirectoryService::UpdateDSCommiteeComposition] both give: the
    guards in place, the new members with the last winner first, then the old
    members without as many of the oldest as came in; the size does not change. *)
Theorem committee_rotation dsComm conns dsblock chain :
  let winners := dsh_PoWDSWinners (dsb_header dsblock) in
  0 <= NumOfDSGuard -> (guards + length winners <= length dsComm)%nat ->
  GetLastBlock chain = Ret dsblock ->
  exists dsComm' conns',
    Node_UpdateDSCommiteeComposition selfKey GUARD_MODE NumOfDSGuard dsComm dsblock = Ret dsComm' /\
    DS_UpdateDSCommiteeComposition selfKey GUARD_MODE NumOfDSGuard false chain dsComm conns
    = Ret (dsComm', conns') /\
    length dsComm' = length dsComm /\
    dsComm' = take guards dsComm ++ reverse (entry_of <$> winners) ++
              take (length dsComm - guards - length winners) (drop guards dsComm).
Proof.
  intros winners Hg Hl Hlast. exists (rotated dsComm winners), (foldl (fun c w => map_erase c w.1) conns winners).
  split; [by apply admit_winners_rotated|]. split; [|split; [by apply length_rotated|done]].
  unfold DS_UpdateDSCommiteeComposition. rewrite Hlast. cbn [mbind outcome_bind].
  by apply ds_admit_winners_rotated.
Qed.

(** Where an old member is afterwards. *)
Lemma rotated_guard dsComm winners i n :
  (i < guards)%nat -> dsComm !! i = Some n -> rotated dsComm winners !! i = Some n.
Proof.
  intros Hi Hn. unfold rotated. apply lookup_lt_Some in Hn as Hlt.
  rewrite lookup_app_l by (rewrite length_take; lia). by rewrite lookup_take_lt.
Qed.

Lemma rotated_old dsComm winners i n :
  (guards <= i)%nat -> (i + length winners < length dsComm)%nat -> dsComm !! i = Some n ->
  rotated dsComm winners !! (i + length winners)%nat = Some n.
Proof.
  intros Hi Hl Hn. unfold rotated. apply lookup_lt_Some in Hn as Hlt.
  rewrite lookup_app_r by (rewrite length_take; lia). rewrite length_take, lookup_app_r
    by (rewrite length_reverse, length_fmap; lia). rewrite length_reverse, length_fmap.
  rewrite lookup_take_lt by lia. rewrite lookup_drop. rewrite <- Hn. f_equal. lia.
Qed.

Lemma rotated_new dsComm winners i w :
  (guards <= length dsComm)%nat -> winners !! i = Some w ->
  rotated dsComm winners !! (guards + (length winners - S i))%nat = Some (entry_of w).
Proof.
  intros Hl Hw. unfold rotated. apply lookup_lt_Some in Hw as Hlt.
  rewrite lookup_app_r by (rewrite length_take; lia). rewrite length_take, lookup_app_l
    by (rewrite length_reverse, length_fmap; lia).
  replace (guards + (length winners - S i) - guards `min` length dsComm)%nat with (length winners - S i)%nat by lia.
  rewrite reverse_lookup by (rewrite length_fmap; lia). rewrite length_fmap, list_lookup_fmap.
  replace (length winners - S (length winners - S i))%nat with i by lia. by rewrite Hw.
Qed.

(** What a member after the rotation was before. *)
Lemma rotated_origin dsComm winners n :
  n ∈ rotated dsComm winners ->
  n ∈ entry_of <$> winners \/
  exists i, dsComm !! i = Some n /\ ((i < guards)%nat \/ (guards <= i /\ i + length winners < length dsComm)%nat).
Proof.
  unfold rotated. rewrite !elem_of_app, elem_of_reverse, !elem_of_take.
  intros [(i & Hi & Hlt)|[?|(i & Hi & Hlt)]]; [right; by exists i; auto|by left|right].
  rewrite lookup_drop in Hi. exists (guards + i)%nat. split; [done|]. right. lia.
Qed.

(** Distinct valid keys. *)
Definition good_nodes (l : DequeOfNode) : Prop :=
  Forall (fun n => m_P n.1 <> inf) l /\ NoDup (fst <$> l).

Lemma rotated_NoDup dsComm winners :
  NoDup (fst <$> dsComm) -> NoDup (fst <$> (entry_of <$> winners)) ->
  (forall k, k ∈ fst <$> (entry_of <$> winners) -> k ∉ fst <$> dsComm) ->
  NoDup (fst <$> rotated dsComm winners).
Proof.
  intros Hd Hw Hdis. set (rest := take guards dsComm ++ take (length dsComm - guards - length winners) (drop guards dsComm)).
  assert (rest `sublist_of` dsComm) as Hsub.
  { transitivity (take guards dsComm ++ drop guards dsComm); [|by rewrite take_drop].
    apply sublist_app; [done|]. apply sublist_take. }
  assert (rotated dsComm winners ≡ₚ (entry_of <$> winners) ++ rest) as ->.
  { unfold rotated, rest. rewrite reverse_Permutation, !app_assoc. f_equiv. apply Permutation_app_comm. }
  rewrite fmap_app. apply NoDup_app. split; [done|]. apply (fmap_sublist fst) in Hsub. split.
  - intros k Hk Hin. apply (Hdis k Hk). by eapply elem_of_sublist.
  - exact (sublist_NoDup _ _ Hd Hsub).
Qed.

Lemma key_neq k k' : m_P k <> inf -> m_P k' <> inf -> k <> k' -> PubKey_eq k k' = false.
Proof. intros H1 H2 Hne. apply not_true_iff_false. by rewrite PubKey_eq_spec. Qed.

(** On the other nodes the winners are listed as they are. *)
Lemma entry_of_others winners :
  m_P selfKey <> inf -> Forall (fun n => m_P n.1 <> inf) winners -> selfKey ∉ fst <$> winners ->
  entry_of <$> winners = winners.
Proof.
  intros Hs Hw Hni. induction winners as [|w winners IH]; [done|].
  apply Forall_cons in Hw as [Hw1 Hw]. rewrite fmap_cons, not_elem_of_cons in Hni. destruct Hni as [Hne Hni].
  rewrite fmap_cons, (IH Hw Hni). unfold entry_of. by rewrite key_neq.
Qed.

Lemma charArrTo16Bits_some hash :
  2 <= zlen hash < 2 ^ 32 -> exists z, charArrTo16Bits hash = Ret z /\ 0 <= z < 2 ^ 16.
Proof.
  intros Hl. unfold charArrTo16Bits. destruct (Z.eqb_spec (zlen hash) 0); [lia|].
  rewrite !(wrap_small 32) by (rewrite ?(wrap_small 32); unfold in_range; lia).
  destruct (at_some hash (zlen hash - 1 - 1)) as (hi & -> & _); [lia|].
  destruct (at_some hash (zlen hash - 1)) as (lo & -> & _); [lia|]. cbn [mbind outcome_bind].
  eexists. split; [done|]. by apply (wrap_range 16).
Qed.

(** The hypotheses on the committee and the winners of a block. *)
Record election dsComm winners : Prop := {
  el_guard : 0 <= NumOfDSGuard /\ (GUARD_MODE = true -> 0 < NumOfDSGuard);
  el_fits : (guards + length winners <= length dsComm)%nat;
  el_size : 0 < zlen dsComm < 2 ^ 16;
  el_comm : good_nodes dsComm;
  el_winners : good_nodes winners;
  el_fresh k : k ∈ fst <$> winners -> k ∉ fst <$> dsComm
}.

Lemma key_index (l : DequeOfNode) i j n m :
  NoDup (fst <$> l) -> l !! i = Some n -> l !! j = Some m -> n.1 = m.1 -> i = j.
Proof.
  intros Hnd Hi Hj Hk. apply (NoDup_lookup (fst <$> l) i j n.1); [done|by rewrite list_lookup_fmap, Hi|].
  by rewrite list_lookup_fmap, Hj, Hk.
Qed.

(** A member leaves exactly when its place is taken. *)
Lemma ousted_gone dsComm winners id p :
  election dsComm winners -> entry_of <$> winners = winners -> dsComm !! id = Some (selfKey, p) ->
  selfKey ∉ fst <$> winners -> (length dsComm <= id + length winners)%nat ->
  selfKey ∉ fst <$> rotated dsComm winners.
Proof.
  intros [_ Hfit _ [_ Hnd] _ _] Hent Hid Hnw Hge ([k q] & Hk & Hin)%list_elem_of_fmap. cbn in Hk. subst k.
  apply rotated_origin in Hin as [Hin|(i & Hi & Hpos)].
  - rewrite Hent in Hin. apply Hnw. apply list_elem_of_fmap. by exists (selfKey, q).
  - rewrite (key_index dsComm i id _ _ Hnd Hi Hid eq_refl) in Hpos. lia.
Qed.

(** The ID a member keeps points at it. *)
Lemma tracked_index dsComm winners id p :
  election dsComm winners -> dsComm !! id = Some (selfKey, p) ->
  (id + length winners < length dsComm)%nat ->
  rotated dsComm winners !! (if decide (id < guards)%nat then id else id + length winners)%nat = Some (selfKey, p).
Proof.
  intros _ Hid Hlt. case_decide; [by apply rotated_guard|apply rotated_old; [lia|done|done]].
Qed.

(** The leader index computed from the hash is inside the committee. *)
Lemma leader_index dsComm winners z :
  election dsComm winners -> 0 <= z < 2 ^ 16 ->
  let lid := u16 (z mod (if GUARD_MODE then NumOfDSGuard else zlen dsComm)) in
  0 <= lid < zlen dsComm /\ (GUARD_MODE = true -> lid < NumOfDSGuard).
Proof.
  intros [[Hg Hg1] Hfit Hsz _ _ _] Hz lid. unfold lid, guards in *. unfold zlen in *. destruct GUARD_MODE.
  - specialize (Hg1 eq_refl). pose proof (Z.mod_pos_bound z NumOfDSGuard Hg1).
    rewrite wrap_small by (unfold in_range; lia). lia.
  - pose proof (Z.mod_pos_bound z (Z.of_nat (length dsComm)) ltac:(lia)).
    rewrite wrap_small by (unfold in_range; lia). split; [lia|done].
Qed.

Lemma acts_as_leader dsComm winners id p lid :
  election dsComm winners -> m_P selfKey <> inf -> dsComm !! id = Some (selfKey, p) ->
  selfKey ∉ fst <$> winners -> (id + length winners < length dsComm)%nat -> 0 <= lid < zlen dsComm ->
  exists leader, at_ (rotated dsComm winners) lid = Ret leader /\
    PubKey_eq leader.1 selfKey
    = (Z.of_nat (if decide (id < guards)%nat then id else id + length winners)%nat =? lid).
Proof.
  intros Hel Hself Hid Hnw Hlt Hlid. pose proof Hel as [_ Hfit _ [Hok Hnd] [Hwok Hwnd] Hfr].
  pose proof (entry_of_others winners Hself Hwok Hnw) as Hent.
  assert (NoDup (fst <$> rotated dsComm winners)) as Hnd' by (apply rotated_NoDup; by rewrite ?Hent).
  pose proof (tracked_index dsComm winners id p Hel Hid Hlt) as Hidx.
  destruct (at_some (rotated dsComm winners) lid) as (n & -> & Hn); [unfold zlen in *; by rewrite length_rotated|].
  exists n. split; [done|]. match goal with |- _ = (?i =? lid) => destruct (Z.eqb_spec i lid) as [He|Hne] end.
  - rewrite <- He, Nat2Z.id, Hidx in Hn. injection Hn as <-. by apply PubKey_eq_spec.
  - apply not_true_iff_false. intros Heq. apply Hne. assert (n.1 = selfKey) as Hk.
    { apply PubKey_eq_spec; [|done|done]. apply list_elem_of_lookup_2, rotated_origin in Hn.
      rewrite Hent in Hn. rewrite Forall_forall in Hok, Hwok.
      destruct Hn as [Hn|(i & Hi%list_elem_of_lookup_2 & _)]; [by apply Hwok|by apply Hok]. }
    rewrite (key_index _ _ _ _ _ Hnd' Hidx Hn); [|done]. lia.
Qed.

(** a member's consensus ID follows its place.  After a directory block, a
    member of the committee that did not run again either finds itself idle and is
    not in the new committee, or its new consensus ID is its index there, the
    leader ID is an index of the committee (a guard's in guard mode), and it acts
    as leader exactly if both IDs are equal. *)
Theorem member_id_tracks dsComm dsblock hash epoch mode id lid p :
  let winners := dsh_PoWDSWinners (dsb_header dsblock) in
  election dsComm winners -> m_P selfKey <> inf -> dsComm !! id = Some (selfKey, p) ->
  selfKey ∉ fst <$> winners -> 2 <= zlen hash < 2 ^ 32 ->
  exists dsComm' mode' id' lid',
    Node_UpdateDSCommiteeComposition selfKey GUARD_MODE NumOfDSGuard dsComm dsblock = Ret dsComm' /\
    UpdateMyDSModeAndConsensusId selfKey GUARD_MODE NumOfDSGuard false epoch dsblock hash dsComm' mode
      (Z.of_nat id) lid = Ret (mode', id', lid') /\
    ((mode' = IDLE /\ selfKey ∉ fst <$> dsComm') \/
     (dsComm' !! Z.to_nat id' = Some (selfKey, p) /\ 0 <= lid' < zlen dsComm' /\
      (GUARD_MODE = true -> lid' < NumOfDSGuard) /\
      mode' = if id' =? lid' then PRIMARY_DS else BACKUP_DS)).
Proof.
  intros winners Hel Hself Hid Hnw Hhash. pose proof Hel as [[Hg Hg1] Hfit Hsz [Hok Hnd] [Hwok Hwnd] Hfr].
  pose proof (entry_of_others winners Hself Hwok Hnw) as Hent.
  exists (rotated dsComm winners). unfold UpdateMyDSModeAndConsensusId. fold winners.
  apply lookup_lt_Some in Hid as Hlt. unfold zlen in Hsz.
  assert (zlen (rotated dsComm winners) = zlen dsComm) as Hlen by (unfold zlen; by rewrite length_rotated).
  assert (exists z, (if epoch >? 1 then charArrTo16Bits hash else Ret 0) = Ret z /\ 0 <= z < 2 ^ 16)
    as (z & -> & Hz) by (destruct (epoch >? 1); [by apply charArrTo16Bits_some|by exists 0]).
  cbn [mbind outcome_bind]. rewrite (wrap_small 16) by (unfold in_range, zlen; lia).
  rewrite (wrap_small 32) by (unfold in_range, zlen; lia). rewrite Hlen.
  destruct (Z.geb_spec (Z.of_nat id + zlen winners) (zlen dsComm)) as [Hge|Hge].
  { exists IDLE, (Z.of_nat id), lid. split; [by apply admit_winners_rotated|]. split; [done|]. left.
    split; [done|]. apply (ousted_gone _ _ id p); try done. unfold zlen in Hge. lia. }
  pose proof (leader_index dsComm winners z Hel Hz) as Hli. cbn zeta in Hli.
  set (lid' := u16 (z mod _)) in Hli.
  set (id' := Z.of_nat (if decide (id < guards)%nat then id else id + length winners)).
  destruct (acts_as_leader dsComm winners id p lid' Hel Hself Hid Hnw ltac:(unfold zlen in Hge; lia) ltac:(apply Hli))
    as (leader & Hat & Hmode). fold id' in Hmode.
  exists (if PubKey_eq leader.1 selfKey then PRIMARY_DS else BACKUP_DS), id', lid'.
  split; [by apply admit_winners_rotated|]. split.
  { match goal with |- context [let '(_, _) := ?x in _] => assert (x = (id', lid')) as -> end; [|by rewrite Hat].
    assert (u16 (Z.of_nat id + zlen winners) = Z.of_nat (id + length winners)) as Hw.
    { rewrite wrap_small by (unfold in_range, zlen in *; lia). unfold zlen. lia. }
    unfold id', lid', guards. rewrite Hw. destruct GUARD_MODE; cbn [negb]; f_equal.
    destruct (Z.geb_spec (Z.of_nat id) NumOfDSGuard); case_decide; lia || done. }
  right. rewrite Hmode. split; [|split; [apply Hli|split; [apply Hli|done]]]. unfold id'. rewrite Nat2Z.id.
  apply tracked_index; [done|done|]. unfold zlen in Hge. lia.
Qed.

Lemma new_member_loop_found winners i w index found :
  winners !! i = Some w -> PubKey_eq selfKey w.1 = true ->
  (forall j v, winners !! j = Some v -> PubKey_eq selfKey v.1 = true -> j = i) ->
  Z.of_nat i <= index < 2 ^ 32 ->
  new_member_loop selfKey winners index found = Some (u16 (index - Z.of_nat i)).
Proof.
  assert (forall ws idx f, (forall v, v ∈ ws -> PubKey_eq selfKey v.1 = false) ->
    new_member_loop selfKey ws idx f = f) as Hskip.
  { induction ws as [|v ws IH]; intros idx f Hno; [done|]. cbn.
    rewrite Hno by (by left). apply IH. intros u Hu. apply Hno. by right. }
  revert i index found. induction winners as [|v winners IH]; intros [|i] index found Hw He Hu Hidx; cbn in Hw;
    [done|done| |].
  - injection Hw as ->. cbn [new_member_loop]. rewrite He. rewrite Hskip; [do 2 f_equal; lia|].
    intros v Hv. apply not_true_iff_false. intros Hv'. apply list_elem_of_lookup in Hv as [j Hj].
    by specialize (Hu (S j) v Hj Hv').
  - cbn [new_member_loop]. rewrite (wrap_small 32) by (unfold in_range; lia). rewrite (IH i).
    + do 2 f_equal. lia.
    + done.
    + done.
    + intros j u Hj Hu'. specialize (Hu (S j) u Hj Hu'). congruence.
    + lia.
Qed.

(** a winner joins at the ID it computes.  The consensus ID that a node
    derives from its place among the winners of a directory block is its index in
    the new committee. *)
Theorem winner_id_tracks dsComm dsblock i w :
  let winners := dsh_PoWDSWinners (dsb_header dsblock) in
  election dsComm winners -> winners !! i = Some w -> w.1 = selfKey ->
  exists dsComm' id,
    Node_UpdateDSCommiteeComposition selfKey GUARD_MODE NumOfDSGuard dsComm dsblock = Ret dsComm' /\
    new_member_id selfKey GUARD_MODE NumOfDSGuard winners = Some id /\
    dsComm' !! Z.to_nat id = Some (selfKey, Peer_default).
Proof.
  intros winners [[Hg Hg1] Hfit Hsz _ [Hwok Hwnd] _] Hw Hself. pose proof (lookup_lt_Some _ _ _ Hw) as Hlt.
  rewrite Forall_lookup in Hwok.
  assert (PubKey_eq selfKey w.1 = true) as He.
  { pose proof (Hwok _ _ Hw) as Hi. rewrite Hself in *. by apply PubKey_eq_spec. }
  assert (forall j v, winners !! j = Some v -> PubKey_eq selfKey v.1 = true -> j = i) as Hu.
  { intros j v Hj Hv. apply (key_index winners j i v w Hwnd Hj Hw). rewrite Hself. symmetry.
    apply PubKey_eq_spec; [|by apply (Hwok j)|done]. rewrite <- Hself. by apply (Hwok i). }
  exists (rotated dsComm winners), (Z.of_nat (guards + (length winners - S i))).
  split; [by apply admit_winners_rotated|]. split.
  - unfold new_member_id. unfold zlen in *. rewrite (wrap_small 32 (_ - 1)) by (unfold in_range; lia).
    set (index := if GUARD_MODE then _ else _).
    assert (index = Z.of_nat guards + Z.of_nat (length winners) - 1) as ->.
    { unfold index, guards in *. destruct GUARD_MODE; [|lia]. rewrite wrap_small by (unfold in_range; lia). lia. }
    rewrite (new_member_loop_found winners i w) by (done || lia).
    rewrite wrap_small by (unfold in_range; lia). f_equal. lia.
  - rewrite Nat2Z.id, (rotated_new dsComm winners i w) by (done || lia). unfold entry_of. by rewrite He.
Qed.

End rotation.

(** ** The committee after a view change *)

Section viewchange.
Context `{Hnf : OpenSSLNoFail}.
Context (selfKey : PubKey).
Implicit Types (dsComm faulty : DequeOfNode).

(** The leader leaves its place and goes to the back. *)
Definition to_back dsComm (f : PubKey * Peer) : DequeOfNode :=
  filter (fun n => PubKey_eq n.1 f.1 = false) dsComm ++ [f].

Lemma erase_first_filter dsComm (p : PubKey * Peer -> bool) n :
  good_nodes dsComm -> n ∈ dsComm -> p n = true ->
  (forall m, m ∈ dsComm -> p m = true -> m.1 = n.1) ->
  erase_first p dsComm = Some (filter (fun m => PubKey_eq m.1 n.1 = false) dsComm).
Proof.
  induction dsComm as [|x l IH]; intros [Hok Hnd] Hin Hp Huniq; [by apply elem_of_nil in Hin|].
  apply Forall_cons in Hok as [Hx Hok]. rewrite fmap_cons in Hnd. apply NoDup_cons in Hnd as [Hnx Hnd].
  cbn [erase_first]. destruct (p x) eqn:Epx.
  - pose proof (Huniq x ltac:(by left) Epx) as Hk. f_equal. rewrite filter_cons_False.
    + symmetry. apply filter_all. intros m Hm. rewrite Forall_forall in Hok.
      apply key_neq; [by apply Hok|by rewrite <- Hk|]. intros Hmk. apply Hnx. rewrite Hk, <- Hmk.
      by apply list_elem_of_fmap_2.
    + rewrite Hk. assert (PubKey_eq n.1 n.1 = true) as ->; [|done]. rewrite <- Hk. by apply PubKey_eq_spec.
  - apply elem_of_cons in Hin as [->|Hin]; [congruence|].
    rewrite (IH (conj Hok Hnd) Hin Hp) by (intros m Hm; apply Huniq; by right).
    rewrite filter_cons_True; [done|]. apply key_neq; [done| |].
    + rewrite Forall_forall in Hok. by apply Hok.
    + intros Hk. apply Hnx. rewrite Hk. by apply list_elem_of_fmap_2.
Qed.

(** The leader [f] is listed, with its address. *)
Definition listed dsComm (f : PubKey * Peer) : Prop :=
  exists n, n ∈ dsComm /\ n.1 = f.1 /\ Peer_eqb n.2 f.2 = true.

Lemma Peer_eqb_common a b c : Peer_eqb a b = true -> Peer_eqb a c = true -> Peer_eqb b c = true.
Proof. rewrite !Peer_eqb_true. intros [-> ->]. done. Qed.

Lemma good_node_ok dsComm n : good_nodes dsComm -> n ∈ dsComm -> m_P n.1 <> inf.
Proof. intros [Hok _] Hin. rewrite Forall_forall in Hok. by apply Hok. Qed.

Lemma good_node_key dsComm n m : good_nodes dsComm -> n ∈ dsComm -> m ∈ dsComm -> n.1 = m.1 -> n = m.
Proof.
  intros [_ Hnd] [i Hi]%list_elem_of_lookup [j Hj]%list_elem_of_lookup Hk.
  rewrite (key_index _ _ _ _ _ Hnd Hi Hj Hk) in Hi. congruence.
Qed.

Lemma good_nodes_keys dsComm dsComm' :
  fst <$> dsComm' ≡ₚ fst <$> dsComm -> good_nodes dsComm -> good_nodes dsComm'.
Proof.
  intros Hp [Hok Hnd]. split; [|by rewrite Hp].
  rewrite Forall_forall in Hok |- *. intros n Hn%(list_elem_of_fmap_2 fst). rewrite Hp in Hn.
  apply list_elem_of_fmap in Hn as (m & -> & Hm). by apply Hok.
Qed.

Lemma erase_first_perm {A} (p : A -> bool) l l' :
  erase_first p l = Some l' -> exists x, p x = true /\ l ≡ₚ x :: l'.
Proof.
  revert l'. induction l as [|y l IH]; intros l' E; cbn in E; [done|]. destruct (p y) eqn:Ep.
  - injection E as <-. by exists y.
  - apply fmap_Some in E as (l1 & E1 & ->). destruct (IH _ E1) as (x & Hx & Hp). exists x. split; [done|].
    rewrite Hp. apply perm_swap.
Qed.

(** Ejecting a listed leader moves it to the back; nobody joins or leaves. *)
Lemma eject_listed dsComm (p : PubKey * Peer -> bool) f :
  good_nodes dsComm -> listed dsComm f ->
  (forall n, n ∈ dsComm -> n.1 = f.1 -> Peer_eqb n.2 f.2 = true -> p n = true) ->
  (forall n, n ∈ dsComm -> p n = true -> n.1 = f.1) ->
  eject dsComm p f = to_back dsComm f /\ fst <$> to_back dsComm f ≡ₚ fst <$> dsComm.
Proof.
  intros Hg (n & Hin & Hk & Hpe) Hhit Honly. pose proof (Hhit n Hin Hk Hpe) as Hpn.
  pose proof (erase_first_filter dsComm p n Hg Hin Hpn) as He. rewrite Hk in He.
  specialize (He ltac:(intros m Hm Hp; by apply Honly)).
  split; [unfold eject, to_back; by rewrite He|].
  destruct (erase_first_perm _ _ _ He) as (x & Hx & Hperm). unfold to_back. rewrite fmap_app. cbn.
  rewrite <- Permutation_cons_append. transitivity (fst <$> x :: filter (fun n => PubKey_eq n.1 f.1 = false) dsComm).
  - rewrite fmap_cons, (Honly x); [done| |done]. rewrite Hperm. by left.
  - by rewrite <- Hperm.
Qed.

Lemma listed_to_back dsComm f g :
  good_nodes dsComm -> listed dsComm f -> listed dsComm g -> listed (to_back dsComm f) g.
Proof.
  intros Hg (n & Hn & Hkn & Hpn) (m & Hm & Hkm & Hpm). unfold listed, to_back. setoid_rewrite elem_of_app.
  destruct (PubKey_eq m.1 f.1) eqn:Emf.
  - exists f. split; [right; by left|]. apply PubKey_eq_spec in Emf;
      [|by eapply good_node_ok|rewrite <- Hkn; by eapply good_node_ok].
    split; [congruence|]. assert (m = n) as -> by (eapply good_node_key; [done..|congruence]).
    by eapply Peer_eqb_common.
  - exists m. split; [left; by apply list_elem_of_filter|done].
Qed.

(** The two updates of the source as one step on a listed leader. *)
Lemma vc_step dsComm f :
  good_nodes dsComm -> listed dsComm f ->
  (if PubKey_eq f.1 selfKey && Peer_eqb f.2 Peer_default
   then eject dsComm (fun n => node_eqb n (f.1, Peer_default)) f
   else eject dsComm (fun n => node_eqb n f) f) = to_back dsComm f /\
  eject dsComm (fun n => PubKey_eq n.1 f.1) f = to_back dsComm f /\
  fst <$> to_back dsComm f ≡ₚ fst <$> dsComm.
Proof.
  intros Hg Hl. pose proof Hl as (n0 & Hn0 & Hk0 & _).
  assert (m_P f.1 <> inf) as Hf by (rewrite <- Hk0; by eapply good_node_ok).
  assert (forall n, n ∈ dsComm -> PubKey_eq n.1 f.1 = true <-> n.1 = f.1) as Hkey
    by (intros n Hn; apply PubKey_eq_spec; [by eapply good_node_ok|done]).
  assert (forall q, Peer_eqb f.2 q = true -> eject dsComm (fun n => node_eqb n (f.1, q)) f = to_back dsComm f) as Hq.
  { intros q Hfq. apply eject_listed; [done|done| |].
    - intros n Hn Hk Hp. unfold node_eqb. cbn. apply andb_true_iff. split; [by apply Hkey|].
      rewrite Peer_eqb_true in *. intuition congruence.
    - intros n Hn [Hk _]%andb_true_iff. by apply Hkey. }
  split; [|apply eject_listed; [done|done| |]; intros n Hn ?; [intros _|]; by apply Hkey].
  destruct (PubKey_eq f.1 selfKey && Peer_eqb f.2 Peer_default) eqn:E.
  - apply andb_true_iff in E as [_ E]. by apply Hq.
  - destruct f as [k q]. apply (Hq q), Peer_eqb_true. done.
Qed.

(** the view-change updates agree.  If the committee has distinct members and
    lists every faulty leader with the address the block names, then
    [UpdateDSCommiteeCompositionAfterVC], which compares keys and addresses, and
    [UpdateRetrieveDSCommiteeCompositionAfterVC], which compares keys, both move
    the faulty leaders to the back in the block's order, and the members stay the
    same. *)
Theorem vc_updates_agree vcblock dsComm :
  let faulty := vch_FaultyLeaders (vcb_header vcblock) in
  good_nodes dsComm -> Forall (listed dsComm) faulty ->
  UpdateDSCommiteeCompositionAfterVC selfKey false vcblock dsComm = foldl to_back dsComm faulty /\
  UpdateRetrieveDSCommiteeCompositionAfterVC false vcblock dsComm = foldl to_back dsComm faulty /\
  fst <$> foldl to_back dsComm faulty ≡ₚ fst <$> dsComm.
Proof.
  unfold UpdateDSCommiteeCompositionAfterVC, UpdateRetrieveDSCommiteeCompositionAfterVC.
  generalize (vch_FaultyLeaders (vcb_header vcblock)) as faulty. intros faulty. revert dsComm.
  induction faulty as [|f faulty IH]; intros dsComm Hg Hl; [done|]. apply Forall_cons in Hl as [Hf Hl].
  destruct (vc_step dsComm f Hg Hf) as (H1 & H2 & H3). cbn [foldl]. rewrite H1, H2.
  destruct (IH (to_back dsComm f)) as (I1 & I2 & I3).
  - by eapply good_nodes_keys.
  - eapply Forall_impl; [exact Hl|]. intros g Hg'. by apply listed_to_back.
  - split; [done|]. split; [done|]. by rewrite I3.
Qed.

(** the faulty leader duplicates itself.  A member lists itself with the empty
    address.  If a view-change block names it with its real address,
    [UpdateDSCommiteeCompositionAfterVC] on that node does not find it and appends
    it: the committee has one member more, and the node is in it twice.  (The
    comment promises to look for the empty address in this case; the condition
    also requires the block to name the empty address.) *)
Theorem own_fault_duplicates vcblock dsComm p :
  good_nodes dsComm -> (selfKey, Peer_default) ∈ dsComm -> Peer_eqb p Peer_default = false ->
  vch_FaultyLeaders (vcb_header vcblock) = [(selfKey, p)] ->
  UpdateDSCommiteeCompositionAfterVC selfKey false vcblock dsComm = dsComm ++ [(selfKey, p)] /\
  UpdateRetrieveDSCommiteeCompositionAfterVC false vcblock dsComm = to_back dsComm (selfKey, p).
Proof.
  intros Hg Hin Hp Hf. unfold UpdateDSCommiteeCompositionAfterVC, UpdateRetrieveDSCommiteeCompositionAfterVC.
  rewrite Hf. cbn [foldl fst snd]. rewrite Hp, andb_false_r. split.
  - assert (forall l, (forall n, n ∈ l -> n ∈ dsComm) ->
      erase_first (fun n => node_eqb n (selfKey, p)) l = None) as He; [|unfold eject; by rewrite (He dsComm)].
    induction l as [|n l IH]; intros Hl; [done|]. cbn [erase_first].
    destruct (node_eqb n (selfKey, p)) eqn:En; [|by rewrite IH by (intros m Hm; apply Hl; by right)].
    apply andb_true_iff in En as [Hk Hq]. cbn in Hk, Hq. pose proof (Hl n ltac:(by left)) as Hn.
    apply PubKey_eq_spec in Hk; [|by eapply good_node_ok|by apply (good_node_ok _ _ Hg Hin)].
    assert (n = (selfKey, Peer_default)) as -> by (by eapply good_node_key).
    rewrite Peer_eqb_true in Hq. cbn in Hq. destruct Hq as [Hq1 Hq2].
    apply not_true_iff_false in Hp. destruct Hp. apply Peer_eqb_true. done.
  - pose proof (good_node_ok _ _ Hg Hin) as Hself. cbn in Hself.
    unfold eject, to_back. rewrite (erase_first_filter dsComm _ (selfKey, Peer_default)); [done|done|done| |].
    + by apply PubKey_eq_spec.
    + intros m Hm Hk. apply PubKey_eq_spec in Hk; [done|by eapply good_node_ok|done].
Qed.

(** The committee as the member [selfKey] lists it. *)
Definition own_view (n : PubKey * Peer) : PubKey * Peer :=
  if PubKey_eq n.1 selfKey then (n.1, Peer_default) else n.

Lemma own_view_key n : (own_view n).1 = n.1.
Proof. unfold own_view. by case_test. Qed.

Lemma own_view_keys dsComm : fst <$> (own_view <$> dsComm) = fst <$> dsComm.
Proof. induction dsComm as [|n l IH]; [done|]. rewrite !fmap_cons, own_view_key. by f_equal. Qed.

Lemma own_view_to_back dsComm f : own_view <$> to_back dsComm f = to_back (own_view <$> dsComm) (own_view f).
Proof.
  unfold to_back. rewrite fmap_app. f_equal. rewrite own_view_key.
  induction dsComm as [|n l IH]; [done|]. rewrite fmap_cons, !filter_cons, own_view_key, <- IH. by case_decide.
Qed.

(** directory nodes keep the same committee as everybody else.  Where the other
    nodes move the faulty leaders [faulty] to the back of the committee, the
    handler of the view-change consensus does so on a member's own listing, in
    which the member has the empty address: the listings stay the same up to that
    address.  Only the member itself uses its address. *)
Theorem own_listing_agrees selfPeer dsComm faulty :
  good_nodes dsComm -> m_P selfKey <> inf -> Forall (listed dsComm) faulty ->
  Forall (fun f => Peer_eqb f.2 selfPeer = true <-> f.1 = selfKey) faulty ->
  ds_eject_faulty selfPeer false (own_view <$> dsComm) faulty = own_view <$> foldl to_back dsComm faulty.
Proof.
  intros Hg Hself. unfold ds_eject_faulty. revert dsComm Hg.
  induction faulty as [|f faulty IH]; intros dsComm Hg Hl Hp; [done|].
  apply Forall_cons in Hl as [Hf Hl]. apply Forall_cons in Hp as [Hfp Hp]. cbn [foldl].
  pose proof Hf as (n0 & Hn0 & Hk0 & _).
  assert (m_P f.1 <> inf) as Hfo by (rewrite <- Hk0; by eapply good_node_ok).
  assert (listed (own_view <$> dsComm) (own_view f)) as Hlv.
  { destruct Hf as (n & Hn & Hk & Hpe). exists (own_view n). split; [by apply list_elem_of_fmap_2|].
    split; [by rewrite !own_view_key|]. unfold own_view. rewrite Hk. by case_test. }
  assert (good_nodes (own_view <$> dsComm)) as Hgv by (eapply good_nodes_keys; [by rewrite own_view_keys|done]).
  assert (forall q, Peer_eqb (own_view f).2 q = true ->
    eject (own_view <$> dsComm) (fun n => node_eqb n (f.1, q)) (own_view f) = own_view <$> to_back dsComm f) as Hq.
  { intros q Hfq. rewrite own_view_to_back. apply eject_listed; [done|done| |].
    - intros n Hn Hk Hpe. rewrite own_view_key in Hk. unfold node_eqb. apply andb_true_iff. cbn. split.
      + apply PubKey_eq_spec; [by eapply good_node_ok|done|done].
      + rewrite Peer_eqb_true in *. intuition congruence.
    - intros n Hn [Hk _]%andb_true_iff. rewrite own_view_key.
      apply PubKey_eq_spec in Hk; [done|by eapply good_node_ok|done]. }
  match goal with |- foldl _ ?x _ = _ => assert (x = own_view <$> to_back dsComm f) as -> end.
  { unfold own_view in Hq. destruct (Peer_eqb f.2 selfPeer) eqn:Ep.
    - assert (PubKey_eq f.1 selfKey = true) as Hk by (apply PubKey_eq_spec; [done|done|by apply Hfp]).
      rewrite Hk in Hq. apply Hq. done.
    - assert (PubKey_eq f.1 selfKey = false) as Hk.
      { apply key_neq; [done|done|]. intros He. apply Hfp in He. congruence. }
      rewrite Hk in Hq. destruct f as [k q]. apply Hq, Peer_eqb_true. done. }
  destruct (vc_step dsComm f Hg Hf) as (_ & _ & H3).
  apply IH; [by eapply good_nodes_keys| |done].
  eapply Forall_impl; [exact Hl|]. intros g Hg'. by apply listed_to_back.
Qed.

End viewchange.

(** ** The committee after a fallback *)

Section fallback.
Context `{Hnf : OpenSSLNoFail}.

(** The shard becomes the committee, its leader first. *)
Lemma fallback_committee shard_id leaderKey leaderPeer shards shard :
  at_ shards shard_id = Ret shard -> Forall (fun n => m_P n.1.1 <> inf) shard -> m_P leaderKey <> inf ->
  exists dsComm,
    UpdateDSCommitteeAfterFallback shard_id leaderKey leaderPeer shards = Ret dsComm /\
    fst <$> dsComm ≡ₚ shard_keys shard /\
    ((exists n, n ∈ shard /\ n.1.1 = leaderKey /\ Peer_eqb n.1.2 leaderPeer = true) ->
     head dsComm = Some (leaderKey, leaderPeer)).
Proof.
  intros Hat Hok Hlk. unfold UpdateDSCommitteeAfterFallback. rewrite Hat. cbn [mbind outcome_bind].
  set (step := fun (c : DequeOfNode) n => _). eexists. split; [done|].
  assert (forall l c, Forall (fun n => m_P n.1.1 <> inf) l ->
    fst <$> foldl step c l ≡ₚ (fst <$> c) ++ shard_keys l /\
    ((exists n, n ∈ l /\ n.1.1 = leaderKey /\ Peer_eqb n.1.2 leaderPeer = true) \/ head c = Some (leaderKey, leaderPeer) ->
     head (foldl step c l) = Some (leaderKey, leaderPeer))) as Hgen.
  2: { destruct (Hgen shard [] Hok) as [H1 H2]. split; [done|]. intros Hex. apply H2. by left. }
  induction l as [|n l IH]; intros c Hl; cbn [foldl].
  { split; [by rewrite app_nil_r|]. intros [(n & Hn & _)|?]; [by apply elem_of_nil in Hn|done]. }
  apply Forall_cons in Hl as [Hn Hl]. destruct (IH (step c n) Hl) as [H1 H2]. rewrite H1. clear H1 IH.
  unfold step at 1. unfold step at 1 in H2. destruct (PubKey_eq n.1.1 leaderKey && Peer_eqb n.1.2 leaderPeer) eqn:E.
  - apply andb_true_iff in E as [Ek _]. apply PubKey_eq_spec in Ek; [|done|done]. split.
    + unfold shard_keys. rewrite !fmap_cons, Ek. cbn. apply Permutation_middle.
    + intros _. apply H2. by right.
  - split.
    + unfold shard_keys. rewrite fmap_app, fmap_cons, <- app_assoc. done.
    + intros Hex. apply H2. destruct Hex as [(m & Hm & Hmk & Hmp)|Hh].
      * apply elem_of_cons in Hm as [->|Hm]; [|left; by exists m].
        exfalso. apply not_true_iff_false in E. apply E. apply andb_true_iff. split; [|done].
        by apply PubKey_eq_spec.
      * right. by destruct c.
Qed.

End fallback.

(** ** Examples on the cyclic group *)

Module CommitteeExamples.

#[local] Instance residue_eq_dec : EqDecision (EC_POINT (OpenSSL := Cyclic.openssl)).
Proof. unfold EC_POINT. cbn. solve_decision. Defined.
#[local] Instance key_eq_dec : EqDecision (PubKey (H := Cyclic.openssl)).
Proof. solve_decision. Defined.

Ltac decide_it := refine (bool_decide_unpack _ _); vm_compute; exact I.

Definition key (d : Z) : PubKey := PubKey_from_priv (mkPrivKey d).
Definition addr (d : Z) : Peer := Peer_new d (30000 + d).
Definition node (d : Z) : PubKey * Peer := (key d, addr d).

(** The members 1, 2, 3 and 4 of the committee, and the winners 11 and 12. *)
Definition members : DequeOfNode := node <$> [1; 2; 3; 4].
Definition newcomers : DequeOfNode := node <$> [11; 12].
Definition block : DSBlock :=
  mkDSBlock BlockBase_default
    (mkDSHeader BlockHeaderBase_default 0 0 (key 1) 0 0 0 [] newcomers zero_hash []).
Definition vcblock (faulty : DequeOfNode) : VCBlock :=
  mkVCBlock BlockBase_default (mkVCHeader BlockHeaderBase_default 0 0 0 Peer_default (key 1) 0 faulty).

Lemma members_good : good_nodes members.
Proof. split; decide_it. Qed.

Lemma election_members : election true 1 members newcomers.
Proof.
  split; [lia|cbn; lia|done|apply members_good|split; decide_it|].
  intros k Hk. cut (Forall (fun k => k ∉ fst <$> members) (fst <$> newcomers)).
  - rewrite Forall_forall. by intros Hf; apply Hf.
  - decide_it.
Qed.

Lemma committee_rotation_witness :
  exists conns, DS_UpdateDSCommiteeComposition (key 12) true 1 false (mkCircular [block] 1 1 0) members []
    = Ret ([node 1; (key 12, Peer_default); node 11; node 2], conns).
Proof.
  destruct (committee_rotation (key 12) true 1 members [] block (mkCircular [block] 1 1 0))
    as (comm & conns & _ & H2 & _ & H3); [done|cbn; lia|done|].
  exists conns. rewrite H2, H3. reflexivity.
Defined.

Lemma member_id_tracks_witness :
  exists comm mode id lid,
    Node_UpdateDSCommiteeComposition (key 2) true 1 members block = Ret comm /\
    UpdateMyDSModeAndConsensusId (key 2) true 1 false 5 block [7; 9] comm BACKUP_DS 1 0 = Ret (mode, id, lid) /\
    ((mode = IDLE /\ key 2 ∉ fst <$> comm) \/ comm !! Z.to_nat id = Some (node 2)).
Proof.
  destruct (member_id_tracks (key 2) true 1 members block [7; 9] 5 BACKUP_DS 1 0 (addr 2))
    as (comm & mode & id & lid & H1 & H2 & H3); [apply election_members|decide_it|done|decide_it|done|].
  exists comm, mode, id, lid. split; [exact H1|]. split; [exact H2|]. destruct H3 as [?|[? _]]; [by left|by right].
Defined.

Lemma winner_id_tracks_witness :
  exists comm, Node_UpdateDSCommiteeComposition (key 12) true 1 members block = Ret comm /\
    comm !! 1%nat = Some (key 12, Peer_default).
Proof.
  destruct (winner_id_tracks (key 12) true 1 members block 1 (node 12)) as (comm & id & H1 & H2 & H3);
    [apply election_members|done|done|].
  assert (new_member_id (key 12) true 1 newcomers = Some 1) as Hid by (vm_compute; reflexivity).
  exists comm. split; [exact H1|]. assert (Some 1 = Some id) as [= <-] by (rewrite <- Hid, <- H2; reflexivity).
  exact H3.
Defined.

Lemma faulty_listed : Forall (listed members) [node 2; node 1].
Proof. repeat apply Forall_cons_2; [exists (node 2)|exists (node 1)|by apply Forall_nil_2]; (split; [decide_it|done]). Qed.

Lemma vc_updates_agree_witness :
  UpdateDSCommiteeCompositionAfterVC (key 3) false (vcblock [node 2; node 1]) members
  = [node 3; node 4; node 2; node 1].
Proof.
  destruct (vc_updates_agree (key 3) (vcblock [node 2; node 1]) members members_good faulty_listed)
    as (-> & _). reflexivity.
Defined.

Lemma own_fault_duplicates_witness :
  UpdateDSCommiteeCompositionAfterVC (key 2) false (vcblock [node 2]) [node 1; (key 2, Peer_default); node 3]
  = [node 1; (key 2, Peer_default); node 3; node 2].
Proof.
  apply (own_fault_duplicates (key 2) (vcblock [node 2]) [node 1; (key 2, Peer_default); node 3] (addr 2)).
  - split; decide_it.
  - decide_it.
  - done.
  - done.
Defined.

Lemma own_listing_agrees_witness :
  ds_eject_faulty (addr 2) false [node 1; (key 2, Peer_default); node 3; node 4] [node 2; node 1]
  = [node 3; node 4; (key 2, Peer_default); node 1].
Proof.
  pose proof (own_listing_agrees (key 2) (addr 2) members [node 2; node 1] members_good) as Ho.
  transitivity (own_view (key 2) <$> foldl to_back members [node 2; node 1]); [|reflexivity].
  rewrite <- Ho; [reflexivity|decide_it|apply faulty_listed|].
  repeat apply Forall_cons_2; [decide_it..|by apply Forall_nil_2].
Defined.

End CommitteeExamples.
