(* ===== verification/BlockStorage.v ===== *)
(** * The persistent storage ([libPersistence/BlockStorage.cpp])

    [BlockStorage] owns one [LevelDB] object per kind of data.  Its members are
    indexed here by the enumeration [DBTYPE] of the source, which names them one by
    one; [m_txBodyDB] and [m_txBodyTmpDB] exist on lookup nodes only and are closed
    objects elsewhere.  The locks around every access are left out: each operation
    holds the lock of its database to the end.

    The constructors [DSBlock(bytes, 0)] and the like are the class [FromBytes],
    [Serialize] of a block the class [ToBytes]. *)

From Stdlib Require Import Sorted.
From stdpp Require Import base numbers gmap list.
From S2P Require Import Prelude Serializable Peer OpenSSL Schnorr ConsensusMessages BlockChain LevelDB BlockLinkChain.
Open Scope Z_scope.

Inductive DBTYPE :=
  | META | DS_BLOCK | TX_BLOCK | TX_BODY | TX_BODY_TMP | MICROBLOCK | DS_COMMITTEE | VC_BLOCK | FB_BLOCK
  | BLOCKLINK | SHARD_STRUCTURE | STATE_DELTA | TEMP_STATE | DIAGNOSTIC_NODES | DIAGNOSTIC_COINBASE
  | STATE_ROOT.

#[global] Instance DBTYPE_eq_dec : EqDecision DBTYPE.
Proof. solve_decision. Defined.

(** [MetaType] *)
Inductive MetaType :=
  STATEROOT | DSINCOMPLETED | LATESTACTIVEDSBLOCKNUM | WAKEUPFORUPGRADE | LATEST_EPOCH_STATES_UPDATED.

Definition MetaType_value (t : MetaType) : Z :=
  match t with
  | STATEROOT => 0 | DSINCOMPLETED => 1 | LATESTACTIVEDSBLOCKNUM => 2 | WAKEUPFORUPGRADE => 3
  | LATEST_EPOCH_STATES_UPDATED => 4
  end.

Class FromBytes (T : Type) := from_bytes : bytes -> T.
Class ToBytes (T : Type) := to_bytes : T -> bytes.

(** A block is read back as it was written. *)
Class BytesSpec (T : Type) `{FromBytes T, ToBytes T} := {
  from_to_bytes (x : T) : from_bytes (to_bytes x) = x;
  to_bytes_nonempty (x : T) : zlen (to_bytes x) <> 0
}.

Record BlockStorage (DB : Type) := mkStorage {
  st_db : DBTYPE -> LevelDB DB;
  m_diagnosticDBNodesCounter : Z;
  m_diagnosticDBCoinbaseCounter : Z
}.
Arguments mkStorage {DB} _ _ _.
Arguments st_db {DB} _ _.
Arguments m_diagnosticDBNodesCounter {DB} _.
Arguments m_diagnosticDBCoinbaseCounter {DB} _.

Section storage.
Context `{OpenSSL} {DB : Type} `{leveldb DB} (LOOKUP_NODE_MODE : bool).
Implicit Types st : BlockStorage DB.

Definition set_store st (t : DBTYPE) (l : LevelDB DB) : BlockStorage DB :=
  mkStorage (fun t' => if decide (t' = t) then l else st_db st t')
    (m_diagnosticDBNodesCounter st) (m_diagnosticDBCoinbaseCounter st).

(** One call on a member; [ret == 0] is success. *)
Definition on_db st (t : DBTYPE) (f : LevelDB DB -> outcome (Z * LevelDB DB)) : outcome (bool * BlockStorage DB) :=
  '(ret, l) ← f (st_db st t); Ret (ret =? 0, set_store st t l).

(** ** Writing *)

Definition PutMetadata st (type : MetaType) (data : bytes) : outcome (bool * BlockStorage DB) :=
  on_db st META (fun l => Insert_string l (to_string (MetaType_value type)) data).

Definition DeleteDSBlock st (blocknum : Z) : outcome (bool * BlockStorage DB) :=
  on_db st DS_BLOCK (fun l => DeleteKey_num l blocknum).
Definition DeleteVCBlock st (blockhash : bytes) : outcome (bool * BlockStorage DB) :=
  on_db st VC_BLOCK (fun l => DeleteKey_hash l blockhash).
Definition DeleteFallbackBlock st (blockhash : bytes) : outcome (bool * BlockStorage DB) :=
  on_db st FB_BLOCK (fun l => DeleteKey_hash l blockhash).
Definition DeleteTxBlock st (blocknum : Z) : outcome (bool * BlockStorage DB) :=
  on_db st TX_BLOCK (fun l => DeleteKey_num l blocknum).
Definition DeleteTxBody st (key : bytes) : outcome (bool * BlockStorage DB) :=
  if negb LOOKUP_NODE_MODE then Ret (false, st) else on_db st TX_BODY (fun l => DeleteKey_hash l key).

(** Neither of the two types: nothing is written, -1. *)
Definition PutBlock st (blockNum : Z) (body : bytes) (blockType : BlockType) : outcome (bool * BlockStorage DB) :=
  match blockType with
  | BT_DS => on_db st DS_BLOCK (fun l => Insert_num l blockNum body)
  | BT_Tx => on_db st TX_BLOCK (fun l => Insert_num l blockNum body)
  | _ => Ret (false, st)
  end.

(** The block, then the mark that the epoch is incomplete; without the mark the
    block is taken back. *)
Definition PutDSBlock st (blockNum : Z) (body : bytes) : outcome (bool * BlockStorage DB) :=
  '(ok, st) ← PutBlock st blockNum body BT_DS;
  if negb ok then Ret (false, st)
  else
    '(ok, st) ← PutMetadata st DSINCOMPLETED [49];
    if ok : bool then Ret (true, st)
    else '(_, st) ← DeleteDSBlock st blockNum; Ret (false, st).

Definition PutVCBlock st (blockhash body : bytes) : outcome (bool * BlockStorage DB) :=
  on_db st VC_BLOCK (fun l => Insert_hash l blockhash body).
Definition PutFallbackBlock st (blockhash body : bytes) : outcome (bool * BlockStorage DB) :=
  on_db st FB_BLOCK (fun l => Insert_hash l blockhash body).
Definition PutTxBlock st (blockNum : Z) (body : bytes) : outcome (bool * BlockStorage DB) :=
  PutBlock st blockNum body BT_Tx.
Definition PutMicroBlock st (blockHash body : bytes) : outcome (bool * BlockStorage DB) :=
  on_db st MICROBLOCK (fun l => Insert_hash l blockHash body).

(** [ret = Insert(...) && Insert(...)]: the second call only when the first one
    returned something else than 0. *)
Definition PutTxBody st (key body : bytes) : outcome (bool * BlockStorage DB) :=
  if negb LOOKUP_NODE_MODE then Ret (false, st)
  else
    '(ok1, st) ← on_db st TX_BODY (fun l => Insert_hash l key body);
    if ok1 : bool then Ret (true, st)
    else '(ok2, st) ← on_db st TX_BODY_TMP (fun l => Insert_hash l key body); Ret (ok2, st).

Definition PutStateRoot st (data : bytes) : outcome (bool * BlockStorage DB) :=
  on_db st STATE_ROOT (fun l => Insert_string l (to_string (MetaType_value STATEROOT)) data).
Definition PutLatestEpochStatesUpdated st (epochNum : Z) : outcome (bool * BlockStorage DB) :=
  on_db st STATE_ROOT (fun l => Insert_num l (MetaType_value LATEST_EPOCH_STATES_UPDATED) (to_string epochNum)).
Definition PutStateDelta st (finalBlockNum : Z) (stateDelta : bytes) : outcome (bool * BlockStorage DB) :=
  on_db st STATE_DELTA (fun l => Insert_num l finalBlockNum stateDelta).

(** ** Reading *)

(** The end of every [Get...]: the empty string means there is nothing. *)
Definition parsed {T} `{FromBytes T} (s : bytes) : option T := if zlen s =? 0 then None else Some (from_bytes s).

Definition GetDSBlock {T} `{FromBytes T} st (blockNum : Z) : outcome (option T) :=
  s ← Lookup_num (st_db st DS_BLOCK) blockNum; Ret (parsed s).
Definition GetTxBlock {T} `{FromBytes T} st (blockNum : Z) : outcome (option T) :=
  s ← Lookup_num (st_db st TX_BLOCK) blockNum; Ret (parsed s).
Definition GetVCBlock {T} `{FromBytes T} st (blockhash : bytes) : outcome (option T) :=
  s ← Lookup_hash (st_db st VC_BLOCK) blockhash; Ret (parsed s).
Definition GetFallbackBlock {T} `{FromBytes T} st (blockhash : bytes) : outcome (option T) :=
  s ← Lookup_hash (st_db st FB_BLOCK) blockhash; Ret (parsed s).
Definition GetMicroBlock {T} `{FromBytes T} st (blockHash : bytes) : outcome (option T) :=
  s ← Lookup_hash (st_db st MICROBLOCK) blockHash; Ret (parsed s).
Definition GetTxBody {T} `{FromBytes T} st (key : bytes) : outcome (option T) :=
  s ← Lookup_hash (st_db st TX_BODY) key; Ret (parsed s).

Definition GetMetadata st (type : MetaType) : outcome (option bytes) :=
  s ← Lookup_string (st_db st META) (to_string (MetaType_value type));
  Ret (if zlen s =? 0 then None else Some s).
Definition GetStateRoot st : outcome (option bytes) :=
  s ← Lookup_string (st_db st STATE_ROOT) (to_string (MetaType_value STATEROOT));
  Ret (if zlen s =? 0 then None else Some s).
Definition GetLatestEpochStatesUpdated st : outcome (option Z) :=
  s ← Lookup_num (st_db st STATE_ROOT) (MetaType_value LATEST_EPOCH_STATES_UPDATED);
  Ret (if zlen s =? 0 then None else stoull s).
Definition GetStateDelta st (finalBlockNum : Z) : outcome (option bytes) :=
  '(found, s) ← Lookup_num_found (st_db st STATE_DELTA) finalBlockNum;
  Ret (if found : bool then Some s else None).

(** [DSBlockChain::GetBlockFromPersistentStorage] and [TxBlockChain::...]: the
    default block stands for one that is not there. *)
Definition DSBlockChain_persistent {T} `{FromBytes T, Block T} st (blockNum : Z) : outcome T :=
  block ← GetDSBlock st blockNum; Ret (default block_default block).
Definition TxBlockChain_persistent {T} `{FromBytes T, Block T} st (blockNum : Z) : outcome T :=
  block ← GetTxBlock st blockNum; Ret (default block_default block).

(** The loop of [GetAllDSBlocks] and [GetAllTxBlocks] over the iterator: an empty
    value gives up (the blocks read so far stay in the list). *)
Fixpoint read_blocks {T} `{FromBytes T} (entries : list (bytes * bytes)) (blocks : list T) : bool * list T :=
  match entries with
  | [] => (match blocks with [] => false | _ => true end, blocks)
  | (_, s) :: entries => if zlen s =? 0 then (false, blocks) else read_blocks entries (blocks ++ [from_bytes s])
  end.

Definition GetAllDSBlocks {T} `{FromBytes T} st (blocks : list T) : outcome (bool * list T) :=
  with_db (st_db st DS_BLOCK) (fun db => read_blocks (ldb_entries db) blocks).
Definition GetAllTxBlocks {T} `{FromBytes T} st (blocks : list T) : outcome (bool * list T) :=
  with_db (st_db st TX_BLOCK) (fun db => read_blocks (ldb_entries db) blocks).

Fixpoint read_links `{LinkProto} (BLOCKLINK_VERSION : Z) (entries : list (bytes * bytes)) (links : list BlockLink)
  : bool * list BlockLink :=
  match entries with
  | [] => (match links with [] => false | _ => true end, links)
  | (_, s) :: entries =>
      if zlen s =? 0 then (false, links)
      else
        match Messenger_GetBlockLink s 0 with
        | None => (false, links)
        | Some l =>
            if negb (bl_version l =? BLOCKLINK_VERSION) then (false, links)
            else read_links BLOCKLINK_VERSION entries (links ++ [l])
        end
  end.

Definition GetAllBlockLink `{LinkProto} (BLOCKLINK_VERSION : Z) st (links : list BlockLink)
  : outcome (bool * list BlockLink) :=
  with_db (st_db st BLOCKLINK) (fun db => read_links BLOCKLINK_VERSION (ldb_entries db) links).

(** The keys as they are: [TxnHash(hashString)] reads the hexadecimal form. *)
Definition GetAllTxBodiesTmp st (txnHashes : list bytes) : outcome (bool * list bytes) :=
  if negb LOOKUP_NODE_MODE then Ret (true, txnHashes)
  else
    with_db (st_db st TX_BODY_TMP) (fun db =>
      foldl (fun '(go, hashes) '(k, _) =>
        if negb go then (false, hashes) else if zlen k =? 0 then (false, hashes) else (true, hashes ++ [k]))
      (true, txnHashes) (ldb_entries db)).

(** ** The directory committee *)

(** The loop of [PutDSCommittee]: [data] is one buffer for all members. *)
Fixpoint put_members (l : LevelDB DB) (index : Z) (data : bytes) (dsCommittee : DequeOfNode)
  : outcome (bool * LevelDB DB) :=
  match dsCommittee with
  | [] => Ret (true, l)
  | ds :: dsCommittee =>
      let '(pubKeySize, data) := PubKey_Serialize ds.1 data 0 in
      match Peer_Serialize ds.2 data pubKeySize with
      | None => Fault Thrown
      | Some (_, data) =>
          '(ret, l) ← Insert_num l index data;
          if negb (ret =? 0) then Ret (false, l) else put_members l (u32 (index + 1)) data dsCommittee
      end
  end.

(** The result of [ResetDB] is not looked at. *)
Definition PutDSCommittee st (dsCommittee : DequeOfNode) (consensusLeaderID : Z) : outcome (bool * BlockStorage DB) :=
  let '(_, l) := ResetDB LOOKUP_NODE_MODE (st_db st DS_COMMITTEE) in
  '(ret, l) ← Insert_num l 0 (to_string consensusLeaderID);
  if negb (ret =? 0) then Ret (false, set_store st DS_COMMITTEE l)
  else '(ok, l) ← put_members l 1 [] dsCommittee; Ret (ok, set_store st DS_COMMITTEE l).

(** [PubKey(bytes, 0)] *)
Definition PubKey_from_bytes (src : bytes) (offset : Z) : PubKey := (PubKey_Deserialize PubKey_default src offset).2.

(** The loop [while (true)] of [GetDSCommittee], for [fuel] entries;
    [dataStr.begin() + PUB_KEY_SIZE] must be inside the string. *)
Fixpoint get_members (fuel : nat) (l : LevelDB DB) (index : Z) (dsCommittee : DequeOfNode) : outcome DequeOfNode :=
  match fuel with
  | O => Fault StillDrawing
  | S fuel =>
      dataStr ← Lookup_num l index;
      if zlen dataStr =? 0 then Ret dsCommittee
      else if zlen dataStr <? PUB_KEY_SIZE then Fault OutOfRange
      else
        get_members fuel l (u32 (index + 1))
          (dsCommittee ++ [(PubKey_from_bytes (take (Z.to_nat PUB_KEY_SIZE) dataStr) 0,
                            Peer_from_bytes (drop (Z.to_nat PUB_KEY_SIZE) dataStr) 0)])
  end.

(** The members are appended to [dsCommittee]; [None]: no committee, or its
    leader ID is not a number. *)
Definition GetDSCommittee (fuel : nat) st (dsCommittee : DequeOfNode) : outcome (option (DequeOfNode * Z)) :=
  let l := st_db st DS_COMMITTEE in
  s ← Lookup_num l 0;
  if zlen s =? 0 then Ret None
  else
    match stoull s with
    | None => Ret None
    | Some id => dsCommittee ← get_members fuel l 1 dsCommittee; Ret (Some (dsCommittee, u16 id))
    end.

(** ** Resetting *)

(** The counter of diagnostic entries starts over. *)
Definition clear_counter st (type : DBTYPE) : BlockStorage DB :=
  match type with
  | DIAGNOSTIC_NODES => mkStorage (st_db st) 0 (m_diagnosticDBCoinbaseCounter st)
  | DIAGNOSTIC_COINBASE => mkStorage (st_db st) (m_diagnosticDBNodesCounter st) 0
  | _ => st
  end.

Definition Storage_ResetDB st (type : DBTYPE) : bool * BlockStorage DB :=
  let '(ret, l) := ResetDB LOOKUP_NODE_MODE (st_db st type) in
  let st := set_store st type l in
  (ret, if ret : bool then clear_counter st type else st).

Definition Storage_RefreshDB st (type : DBTYPE) : bool * BlockStorage DB :=
  let '(ret, l) := RefreshDB (st_db st type) in
  let st := set_store st type l in
  (ret, if ret : bool then clear_counter st type else st).

(** The databases of a node. *)
Definition all_types : list DBTYPE :=
  [META; DS_BLOCK; TX_BLOCK] ++ (if LOOKUP_NODE_MODE then [TX_BODY; TX_BODY_TMP] else []) ++
  [MICROBLOCK; DS_COMMITTEE; VC_BLOCK; FB_BLOCK; BLOCKLINK; SHARD_STRUCTURE; STATE_DELTA; TEMP_STATE;
   DIAGNOSTIC_NODES; DIAGNOSTIC_COINBASE; STATE_ROOT].

(** [&], so every database is tried, in some order. *)
Definition ResetAll st : bool * BlockStorage DB :=
  foldl (fun '(ok, st) t => let '(ret, st) := Storage_ResetDB st t in (ok && ret, st)) (true, st) all_types.

(** [contract]: the result of [ContractStorage::RefreshAll]. *)
Definition RefreshAll (contract : bool) st : bool * BlockStorage DB :=
  let '(ok, st) :=
    foldl (fun '(ok, st) t => let '(ret, st) := Storage_RefreshDB st t in (ok && ret, st)) (true, st) all_types in
  (ok && contract, st).

(** [data]: the serialized entry, [None] when [Messenger] failed. *)
Definition PutDiagnosticDataNodes st (dsBlockNum : Z) (data : option bytes) : outcome (bool * BlockStorage DB) :=
  match data with
  | None => Ret (false, st)
  | Some data =>
      '(ok, st) ← on_db st DIAGNOSTIC_NODES (fun l => Insert_num l dsBlockNum data);
      Ret (ok, if ok : bool
               then mkStorage (st_db st) (u32 (m_diagnosticDBNodesCounter st + 1)) (m_diagnosticDBCoinbaseCounter st)
               else st)
  end.
Definition PutDiagnosticDataCoinbase st (dsBlockNum : Z) (data : option bytes) : outcome (bool * BlockStorage DB) :=
  match data with
  | None => Ret (false, st)
  | Some data =>
      '(ok, st) ← on_db st DIAGNOSTIC_COINBASE (fun l => Insert_num l dsBlockNum data);
      Ret (ok, if ok : bool
               then mkStorage (st_db st) (m_diagnosticDBNodesCounter st) (u32 (m_diagnosticDBCoinbaseCounter st + 1))
               else st)
  end.

Definition DeleteDiagnosticDataNodes st (dsBlockNum : Z) : outcome (bool * BlockStorage DB) :=
  '(ok, st) ← on_db st DIAGNOSTIC_NODES (fun l => DeleteKey_num l dsBlockNum);
  Ret (ok, if ok : bool
           then mkStorage (st_db st) (u32 (m_diagnosticDBNodesCounter st - 1)) (m_diagnosticDBCoinbaseCounter st)
           else st).
Definition DeleteDiagnosticDataCoinbase st (dsBlockNum : Z) : outcome (bool * BlockStorage DB) :=
  '(ok, st) ← on_db st DIAGNOSTIC_COINBASE (fun l => DeleteKey_num l dsBlockNum);
  Ret (ok, if ok : bool
           then mkStorage (st_db st) (m_diagnosticDBNodesCounter st) (u32 (m_diagnosticDBCoinbaseCounter st - 1))
           else st).

(** [Retriever::CleanExtraTxBodies]: the bodies noted since the last epoch are
    deleted; [unhex] is [TxnHash(hashString)]. *)
Fixpoint delete_bodies (unhex : bytes -> bytes) st (keys : list bytes) : outcome (BlockStorage DB) :=
  match keys with
  | [] => Ret st
  | k :: keys => '(_, st) ← DeleteTxBody st (unhex k); delete_bodies unhex st keys
  end.

Definition CleanExtraTxBodies (unhex : bytes -> bytes) st : outcome (bool * BlockStorage DB) :=
  if negb LOOKUP_NODE_MODE then Ret (true, st)
  else
    '(ok, keys) ← GetAllTxBodiesTmp st [];
    st ← (if ok : bool then delete_bodies unhex st keys else Ret st);
    Ret (Storage_ResetDB st TX_BODY_TMP).

End storage.

(** ** The members of the storage are independent *)

Section facts.
Context {DB : Type} `{leveldbSpec DB}.
Implicit Types st : BlockStorage DB.

Lemma set_store_same st t l : st_db (set_store st t l) t = l.
Proof. cbn. by rewrite decide_True. Qed.

Lemma set_store_other st t t' l : t' <> t -> st_db (set_store st t l) t' = st_db st t'.
Proof. intros Hne. cbn. by rewrite decide_False. Qed.

Lemma on_db_true st t f st' :
  on_db st t f = Ret (true, st') ->
  f (st_db st t) = Ret (0, st_db st' t) /\ (forall t', t' <> t -> st_db st' t' = st_db st t').
Proof.
  unfold on_db. intros E. unbind E. destruct v as [ret l]. injection E as Hr <-. apply Z.eqb_eq in Hr as ->.
  split; [by rewrite set_store_same|]. intros t' Hne. by apply set_store_other.
Qed.

Lemma on_db_frame st t f ok st' t' :
  on_db st t f = Ret (ok, st') -> t' <> t -> st_db st' t' = st_db st t'.
Proof. unfold on_db. intros E Hne. unbind E. destruct v as [ret l]. injection E as _ <-. by apply set_store_other. Qed.

Lemma parsed_some {T} `{FromBytes T} s : zlen s <> 0 -> parsed s = Some (from_bytes s).
Proof. intros Hs. unfold parsed. by destruct (Z.eqb_spec (zlen s) 0). Qed.

Lemma Lookup_num_stored (l : LevelDB DB) n v :
  m_open l = true -> stored l (to_string n) = v -> Lookup_num l n = Ret (default [] v).
Proof. intros Ho <-. unfold Lookup_num. by apply lookup_value_open. Qed.

Lemma Lookup_hash_stored (l : LevelDB DB) h v :
  m_open l = true -> stored l (hex h) = v -> Lookup_hash l h = Ret (default [] v).
Proof. intros Ho <-. unfold Lookup_hash. by apply lookup_value_open. Qed.

(** a directory block is stored as a whole.  If [PutDSBlock] reports success,
    the block and the mark that its epoch is incomplete are read back and no other
    block has changed; if writing the mark failed and the block could be removed,
    it reports failure and the block is not found. *)
Theorem ds_block_atomic {T} `{FromBytes T} st n body st' :
  0 <= n -> zlen body <> 0 ->
  (PutDSBlock st n body = Ret (true, st') ->
     GetDSBlock st' n = Ret (Some (from_bytes body : T)) /\
     GetMetadata st' DSINCOMPLETED = Ret (Some [49]) /\
     (forall m, 0 <= m -> m <> n -> m_open (st_db st DS_BLOCK) = true ->
        GetDSBlock (T := T) st' m = GetDSBlock st m)) /\
  (forall st1 st2, PutBlock st n body BT_DS = Ret (true, st1) -> PutMetadata st1 DSINCOMPLETED [49] = Ret (false, st2) ->
     DeleteDSBlock st2 n = Ret (true, st') ->
     PutDSBlock st n body = Ret (false, st') /\ GetDSBlock (T := T) st' n = Ret None).
Proof.
  intros Hn Hb. split.
  - unfold PutDSBlock. intros E. unbind E. destruct v as [[] st1]; cbn [negb] in E; [|done].
    unbind E. destruct v as [[] st2]; [injection E as <-|by unbind E; destruct v].
    unfold PutBlock in E0. unfold PutMetadata in E1. apply on_db_true in E0 as [Hput Hfr]. apply on_db_true in E1 as [Hm Hfr'].
    apply insert_key_0 in Hm as [Hom Hsm]. pose proof (Insert_num_0 _ _ _ _ Hn Hput) as [Ho Hs].
    unfold GetDSBlock. rewrite (Hfr' DS_BLOCK) by done. split; [|split].
    + rewrite (Lookup_num_stored _ n (Some body)); [|done|rewrite Hs by done; by rewrite decide_True].
      cbn. by rewrite parsed_some.
    + unfold GetMetadata, Lookup_string. rewrite lookup_value_open, Hsm, decide_True by done. done.
    + intros m Hm Hne Ho0. rewrite (Lookup_num_stored _ m _ Ho eq_refl), Hs, decide_False by done.
      by rewrite (Lookup_num_stored _ m _ Ho0 eq_refl).
  - intros st1 st2 E1 E2 E3. unfold PutDSBlock. rewrite E1. cbn [mbind outcome_bind negb]. rewrite E2.
    cbn [mbind outcome_bind]. rewrite E3. split; [done|].
    unfold DeleteDSBlock in E3. apply on_db_true in E3 as [[Ho Hs]%delete_key_0 _]. unfold GetDSBlock.
    rewrite (Lookup_num_stored _ n None); [done|done|]. rewrite Hs. by rewrite decide_True.
Qed.

(** the transaction bodies of an unfinished epoch are never cleaned up.  On a
    lookup node a successful [PutTxBody] writes the body but not the note in the
    temporary database that [CleanExtraTxBodies] goes by: with no notes the
    clean-up leaves the body where it is. *)
Theorem tx_body_not_noted {T} `{FromBytes T} st h body st1 unhex :
  zlen body <> 0 -> on_db st TX_BODY (fun l => Insert_hash l h body) = Ret (true, st1) ->
  m_open (st_db st TX_BODY_TMP) = true -> ldb_entries (m_disk (st_db st TX_BODY_TMP)) = [] ->
  PutTxBody true st h body = Ret (true, st1) /\
  GetAllTxBodiesTmp true st1 [] = Ret (true, []) /\
  exists ok st2, CleanExtraTxBodies true unhex st1 = Ret (ok, st2) /\
    GetTxBody st2 h = Ret (Some (from_bytes body : T)).
Proof.
  intros Hb Hput Ho He. unfold PutTxBody. cbn [negb]. rewrite Hput. split; [done|].
  apply on_db_true in Hput as [[Hob Hs]%insert_key_0 Hfr].
  assert (GetAllTxBodiesTmp true st1 [] = Ret (true, [])) as Hall.
  { unfold GetAllTxBodiesTmp, with_db. cbn [negb]. by rewrite (Hfr TX_BODY_TMP), Ho, He. }
  split; [done|]. unfold CleanExtraTxBodies. cbn [negb]. rewrite Hall. cbn [mbind outcome_bind delete_bodies].
  unfold Storage_ResetDB. destruct (ResetDB _ _) as [ret l]. eexists _, _. split; [done|].
  unfold GetTxBody. match goal with |- context [st_db ?x TX_BODY] => assert (st_db x TX_BODY = st_db st1 TX_BODY) as -> end.
  { destruct ret; by cbn; rewrite decide_False. }
  rewrite (Lookup_hash_stored _ h (Some body)); [|done|rewrite Hs; by rewrite decide_True].
  cbn. by rewrite parsed_some.
Qed.

(** Refreshing loses count of the diagnostic entries.  [RefreshDB] only opens
    the database of diagnostic data again, its entries stay, but the counter is set
    to zero; deleting the oldest of them then wraps the counter to the largest
    number. *)
Theorem refresh_miscounts st n v st' :
  0 <= n -> m_open (st_db st DIAGNOSTIC_NODES) = true -> Lookup_num (st_db st DIAGNOSTIC_NODES) n = Ret v ->
  Storage_RefreshDB st DIAGNOSTIC_NODES = (true, st') ->
  Lookup_num (st_db st' DIAGNOSTIC_NODES) n = Ret v /\ m_diagnosticDBNodesCounter st' = 0 /\
  (forall st'', DeleteDiagnosticDataNodes st' n = Ret (true, st'') -> m_diagnosticDBNodesCounter st'' = 2 ^ 32 - 1).
Proof.
  intros Hn Ho Hv E. unfold Storage_RefreshDB, RefreshDB in E.
  destruct (ldb_Reopen _) as [db|] eqn:Er; [|done]. injection E as <-. split; [|split; [done|]].
  - erewrite (Lookup_num_stored _ n); [|done|done]. rewrite (Lookup_num_stored _ n _ Ho eq_refl) in Hv.
    rewrite <- Hv. unfold stored. cbn. by rewrite (ldb_get_reopen _ _ _ Er).
  - intros st''. unfold DeleteDiagnosticDataNodes. intros E. unbind E. destruct v0 as [[] st1]; [|done].
    injection E as <-. unfold on_db in E0. unbind E0. destruct v0 as [ret l]. injection E0 as _ <-. done.
Qed.

(** What the directory has to do for a reset to succeed. *)
Definition resettable (mode : bool) (l : LevelDB DB) : Prop :=
  ldb_DestroyDB (m_disk l) = true /\ is_Some (ldb_Open (m_disk l)) /\ (mode = false -> m_in_subdirectory l = false).

Lemma ResetDB_resettable mode l :
  resettable mode l -> exists l', ResetDB mode l = (true, l') /\ m_open l' = true /\ forall k, stored l' k = None.
Proof.
  intros (Hd & [db Hop] & Hsub). unfold ResetDB, ResetDBForLookupNode, ResetDBForNormalNode, DeleteDB, open_empty.
  destruct mode; rewrite Hd; cbn [m_disk m_in_subdirectory Z.eqb andb negb]; [|rewrite Hsub by done; cbn [negb]];
    rewrite Hop; (eexists; split; [done|]; split; [done|]; intros k; unfold stored; cbn; by eapply ldb_get_open).
Qed.

Lemma clear_counter_db st t : st_db (clear_counter st t) = st_db st.
Proof. by destruct t. Qed.

Lemma reset_types_spec mode ts st :
  NoDup ts -> Forall (fun t => resettable mode (st_db st t)) ts ->
  exists st', foldl (fun '(ok, st) t => let '(ret, st) := Storage_ResetDB mode st t in (ok && ret, st)) (true, st) ts
    = (true, st') /\
    forall t, if decide (t ∈ ts) then m_open (st_db st' t) = true /\ (forall k, stored (st_db st' t) k = None)
              else st_db st' t = st_db st t.
Proof.
  revert st. induction ts as [|t ts IH]; intros st Hnd Hr; [by exists st|].
  apply NoDup_cons in Hnd as [Hni Hnd]. apply Forall_cons in Hr as [Ht Hr].
  destruct (ResetDB_resettable mode _ Ht) as (l & El & Hol & Hsl). cbn [foldl].
  unfold Storage_ResetDB at 2. rewrite El. cbn [andb].
  set (st1 := clear_counter (set_store st t l) t).
  assert (forall t', st_db st1 t' = if decide (t' = t) then l else st_db st t') as Hst1
    by (intros t'; unfold st1; by rewrite clear_counter_db).
  destruct (IH st1 Hnd) as (st' & E & Hs).
  { apply Forall_forall. intros t' Ht'. rewrite Hst1, decide_False by congruence. rewrite Forall_forall in Hr. by apply Hr. }
  exists st'. split; [done|]. intros t'. specialize (Hs t'). destruct (decide (t' ∈ t :: ts)) as [Hin|Hin].
  - destruct (decide (t' ∈ ts)); [done|]. apply elem_of_cons in Hin as [->|]; [|done]. rewrite Hst1, decide_True in Hs by done.
    by rewrite Hs.
  - rewrite not_elem_of_cons in Hin. destruct Hin as [Hne Hin]. rewrite decide_False in Hs by done.
    by rewrite Hst1, decide_False in Hs.
Qed.

(** [ResetAll] empties every database of the node.  If the directories can be
    destroyed and opened, it reports success, and afterwards each database that the
    node has is open and holds nothing, and the databases it does not have are
    untouched. *)
Theorem reset_all_empties mode st :
  Forall (fun t => resettable mode (st_db st t)) (all_types mode) ->
  exists st', ResetAll mode st = (true, st') /\
    forall t, if decide (t ∈ all_types mode)
              then m_open (st_db st' t) = true /\ (forall k, stored (st_db st' t) k = None)
              else st_db st' t = st_db st t.
Proof.
  intros Hr. apply reset_types_spec; [|done].
  destruct mode; by apply (bool_decide_unpack _).
Qed.

End facts.

(** ** Memory and disk together *)

Section ledger.
Context {DB : Type} `{leveldbSpec DB} {T : Type} `{BlockSpec T, BytesSpec T}.
Implicit Types (st : BlockStorage DB) (c : CircularArray T).

(** How a final block is stored: in the chain and in the database. *)
Fixpoint store_blocks c st (bs : list T) : outcome (bool * CircularArray T * BlockStorage DB) :=
  match bs with
  | [] => Ret (true, c, st)
  | b :: bs =>
      '(_, c) ← AddBlock c b;
      '(ok, st) ← PutTxBlock st (GetBlockNum b) (to_bytes b);
      if ok : bool then store_blocks c st bs else Ret (false, c, st)
  end.

(** The database holds the block under its number. *)
Definition on_disk st (b : T) : Prop :=
  stored (st_db st TX_BLOCK) (to_string (GetBlockNum b)) = Some (to_bytes b).

Lemma store_blocks_AddBlocks c st bs c' st' :
  store_blocks c st bs = Ret (true, c', st') -> AddBlocks c bs = Ret c'.
Proof.
  revert c st. induction bs as [|b bs IH]; intros c st E; [by injection E as -> _|]. cbn [store_blocks AddBlocks] in *.
  apply bind_Ret in E as ([r c1] & -> & E). apply bind_Ret in E as ([[] st1] & _ & E); [|done].
  cbn [mbind outcome_bind]. by eapply IH.
Qed.

Lemma store_blocks_on_disk c st bs c' st' :
  Forall (fun b => 0 <= GetBlockNum b) bs -> Sorted Z.lt (GetBlockNum <$> bs) ->
  store_blocks c st bs = Ret (true, c', st') ->
  (bs <> [] -> m_open (st_db st' TX_BLOCK) = true) /\
  Forall (on_disk st') bs /\
  (forall n, 0 <= n -> n ∉ GetBlockNum <$> bs ->
     stored (st_db st' TX_BLOCK) (to_string n) = stored (st_db st TX_BLOCK) (to_string n)).
Proof.
  revert c st. induction bs as [|b bs IH]; intros c st Hn Hs E; [injection E as _ ->; done|].
  apply Forall_cons in Hn as [Hb Hn]. cbn [store_blocks] in E.
  apply bind_Ret in E as ([r c1] & _ & E). apply bind_Ret in E as ([[] st1] & Hp & E); [|done].
  unfold PutTxBlock, PutBlock in Hp. apply on_db_true in Hp as [Hp _]. apply Insert_num_0 in Hp as [Ho Hst]; [|done].
  rewrite fmap_cons in Hs. apply Sorted_StronglySorted in Hs; [|intros ???; apply Z.lt_trans].
  apply StronglySorted_inv in Hs as [Hs Hlt]. apply StronglySorted_Sorted in Hs.
  destruct (IH c1 st1 Hn Hs E) as (Ho' & Hd & Hr).
  assert (GetBlockNum b ∉ GetBlockNum <$> bs) as Hni.
  { intros Hin. rewrite Forall_forall in Hlt. specialize (Hlt _ Hin). lia. }
  split; [|split].
  - intros _. destruct bs as [|b' bs]; [injection E as _ <-; exact Ho|by apply Ho'].
  - apply Forall_cons. split; [|done]. unfold on_disk. rewrite Hr, Hst by done. by rewrite decide_True.
  - intros n Hnn Hout. rewrite fmap_cons, not_elem_of_cons in Hout. destruct Hout as [Hne Hout].
    rewrite Hr, Hst, decide_False by done. done.
Qed.

(** C12: no final block is lost.  After blocks with strictly increasing numbers, from 0
    on, have been stored in the chain and in the database with success, [GetBlock]
    of [TxBlockChain] gives back each of them under its number, however many came
    after it.  (A block that is added after one with a higher number can hide that one:
    [late_block_hides_newer].) *)
Theorem ledger_complete st bs c st' b :
  Sorted Z.lt (GetBlockNum <$> bs) -> GetBlockNum <$> head bs = Some 0 ->
  Forall (fun b => GetBlockNum b + BLOCKCHAIN_SIZE < 2 ^ 64 - 1) bs ->
  store_blocks chain_Reset st bs = Ret (true, c, st') -> b ∈ bs ->
  GetBlock (TxBlockChain_persistent st') c (GetBlockNum b) = Ret b.
Proof.
  intros Hs Hf Hov E Hin.
  destruct (AddBlocks_refines bs chain_Reset ∅ (-1)) as (c1 & Hadd & Hcap & Hcr).
  - apply chain_Reset_refines.
  - constructor; [done|]. destruct bs as [|b0 bs]; [done|]. injection Hf as Hf. constructor. lia.
  - by intros _ _.
  - done.
  - rewrite (store_blocks_AddBlocks _ _ _ _ _ E) in Hadd. injection Hadd as <-.
    pose proof (hist_of_lookup bs b Hs Hin) as Hb. pose proof (cr_hist _ _ _ Hcr _ _ Hb) as [Hrange _].
    assert (Forall (fun b => 0 <= GetBlockNum b) bs) as Hnn.
    { apply Forall_forall. intros x Hx. pose proof (hist_of_lookup bs x Hs Hx) as Hbx.
      apply (cr_hist _ _ _ Hcr _ _ Hbx). }
    destruct (store_blocks_on_disk _ _ _ _ _ Hnn Hs E) as (Ho & Hd & _). rewrite Forall_forall in Hov, Hd.
    specialize (Hov _ Hin). specialize (Hd _ Hin).
    change (m_capacity chain_Reset) with BLOCKCHAIN_SIZE in Hcap.
    rewrite (GetBlock_refines (TxBlockChain_persistent st') _ _ _ _ Hcr) by (rewrite ?Hcap; lia).
    unfold chain_read. rewrite Hb. destruct (Z.ltb_spec (last_of (-1) bs) (GetBlockNum b)); [lia|].
    destruct (Z.leb_spec (GetBlockNum b + m_capacity c) (last_of (-1) bs)); [|done].
    unfold TxBlockChain_persistent, GetTxBlock.
    rewrite (Lookup_num_stored _ _ (Some (to_bytes b))); [|apply Ho; by intros ->|exact Hd].
    cbn. rewrite parsed_some by apply to_bytes_nonempty. cbn. by rewrite from_to_bytes.
Qed.

End ledger.

(** ** The committee survives a restart *)

Section committee.
Context `{Hnf : OpenSSLNoFail} {DB : Type} `{leveldbSpec DB}.
Implicit Types (l : LevelDB DB) (dsComm : DequeOfNode).

(** Valid keys and addresses in range. *)
Definition storable (n : PubKey * Peer) : Prop := m_P n.1 <> inf /\ Peer_ok n.2.

(** The database keeps no host names. *)
Definition without_hostname (n : PubKey * Peer) : PubKey * Peer := (n.1, SetHostname n.2 (m_hostname Peer_default)).

(** A member in the database, however long the buffer was before. *)
Lemma node_codec n :
  storable n ->
  exists enc, zlen enc = 53 /\
    (forall data, zlen data <= 53 -> Peer_Serialize n.2 (PubKey_Serialize n.1 data 0).2 33 = Some (20, enc)) /\
    PubKey_from_bytes (take 33 enc) 0 = n.1 /\
    Peer_from_bytes (drop 33 enc) 0 = (without_hostname n).2.
Proof.
  intros [HP Hp]. destruct (PubKey_codec n.1 HP) as (enc & Hl & Hok & Hw & Hr).
  exists (enc ++ peer_bytes n.2). rewrite zlen_app, zlen_peer_bytes, Hl.
  assert (length enc = 33%nat) as Hle by (unfold zlen in Hl; lia).
  split; [done|]. split; [|split].
  - intros data Hd. pose proof (Hw [] data ltac:(done)) as Hw0. cbn [app] in Hw0. change (zlen []) with 0 in Hw0. rewrite Hw0, <- Hl.
    assert (zlen (drop 33 data) <= 20) by (unfold zlen in *; rewrite length_drop; lia).
    rewrite Peer_written by lia. rewrite (drop_ge (drop 33 data)) by (unfold zlen in *; lia). by rewrite app_nil_r.
  - rewrite take_app_le, take_ge by lia. unfold PubKey_from_bytes.
    specialize (Hr [] [] PubKey_default ltac:(done)). rewrite app_nil_r in Hr. cbn [app] in Hr. change (zlen (@nil Z)) with 0 in Hr.
    by rewrite Hr.
  - rewrite drop_app_ge, Hle by lia. rewrite drop_0. unfold Peer_from_bytes.
    pose proof (Peer_read n.2 Peer_default [] [] Hp ltac:(by constructor) ltac:(by constructor) ltac:(done)) as Hq.
    rewrite app_nil_r in Hq. cbn [app] in Hq. change (zlen (@nil Z)) with 0 in Hq. by rewrite Hq.
Qed.

(** The entry [v] is a member that is read back as [n]. *)
Definition encodes (n : PubKey * Peer) (v : bytes) : Prop :=
  zlen v = 53 /\ (PubKey_from_bytes (take 33 v) 0, Peer_from_bytes (drop 33 v) 0) = without_hostname n.

(** The members from [index] on, and nothing behind them. *)
Lemma put_members_spec dsComm l index data l' :
  Forall storable dsComm -> zlen data <= 53 -> 0 <= index -> index + zlen dsComm < 2 ^ 32 -> m_open l = true ->
  put_members l index data dsComm = Ret (true, l') ->
  m_open l' = true /\
  (forall i n, dsComm !! i = Some n -> exists v, stored l' (to_string (index + Z.of_nat i)) = Some v /\ encodes n v) /\
  (forall m, 0 <= m -> m < index \/ index + zlen dsComm <= m -> stored l' (to_string m) = stored l (to_string m)).
Proof.
  revert l index data. induction dsComm as [|n dsComm IH]; intros l index data Hst Hd Hi Hb Ho E.
  { injection E as <-. done. }
  apply Forall_cons in Hst as [Hn Hst]. destruct (node_codec n Hn) as (enc & Hl & Hser & Hk & Hp).
  cbn [put_members] in E. change (zlen (n :: dsComm)) with (Z.of_nat (S (length dsComm))) in Hb.
  assert (PubKey_Serialize n.1 data 0 = (33, (PubKey_Serialize n.1 data 0).2)) as Hpk by done.
  rewrite Hpk, (Hser data Hd) in E. unbind E. destruct v as [ret l1].
  destruct (Z.eqb_spec ret 0) as [->|]; cbn [negb] in E; [|done].
  destruct (Insert_num_0 _ _ _ _ Hi E0) as [Ho1 Hs1].
  rewrite (wrap_small 32) in E by (unfold in_range; lia).
  destruct (IH l1 (index + 1) enc) as (Ho' & Hmem & Hrest); [done|lia|lia|unfold zlen; lia|done|done|].
  split; [done|]. split.
  - intros [|i] m Hm; cbn in Hm.
    + injection Hm as <-. exists enc. rewrite Z.add_0_r. split; [|split; [done|by rewrite Hk, Hp]].
      rewrite Hrest, Hs1, decide_True by (done || lia). done.
    + destruct (Hmem i m Hm) as (v & Hv & Hc). exists v. split; [|done]. rewrite <- Hv. do 2 f_equal. lia.
  - intros m Hm Hout. change (zlen (n :: dsComm)) with (Z.of_nat (S (length dsComm))) in Hout. unfold zlen in Hrest.
    rewrite Hrest, Hs1, decide_False by lia. done.
Qed.

Lemma get_members_spec dsComm l index fuel acc :
  (length dsComm < fuel)%nat -> 0 <= index -> index + zlen dsComm < 2 ^ 32 -> m_open l = true ->
  (forall i n, dsComm !! i = Some n -> exists v, stored l (to_string (index + Z.of_nat i)) = Some v /\ encodes n v) ->
  stored l (to_string (index + zlen dsComm)) = None ->
  get_members fuel l index acc = Ret (acc ++ (without_hostname <$> dsComm)).
Proof.
  revert l index fuel acc. induction dsComm as [|n dsComm IH]; intros l index [|fuel] acc Hf Hi Hb Ho Hmem Hend;
    cbn [length] in Hf; try lia; cbn [get_members].
  - change (zlen (@nil (PubKey * Peer))) with 0 in Hend. rewrite Z.add_0_r in Hend.
    rewrite (Lookup_num_stored _ _ _ Ho Hend). cbn. by rewrite app_nil_r.
  - destruct (Hmem 0%nat n eq_refl) as (v & Hv & Hl & Hdec). rewrite Z.add_0_r in Hv.
    rewrite (Lookup_num_stored _ _ _ Ho Hv). cbn [mbind outcome_bind from_option id]. unfold PUB_KEY_SIZE.
    rewrite Hl. cbn [Z.eqb Z.ltb Z.compare Pos.compare Pos.compare_cont].
    change (zlen (n :: dsComm)) with (Z.of_nat (S (length dsComm))) in *.
    rewrite (wrap_small 32) by (unfold in_range; lia). change (Z.to_nat 33) with 33%nat. rewrite Hdec.
    rewrite IH; [by rewrite fmap_cons, <- app_assoc|lia|lia|unfold zlen; lia|done| |].
    + intros i m Hm. destruct (Hmem (S i) m Hm) as (w & Hw & He). exists w. split; [|done].
      rewrite <- Hw. do 2 f_equal. lia.
    + rewrite <- Hend. do 2 f_equal. unfold zlen. lia.
Qed.

(** C11: the directory committee survives a restart.  After [PutDSCommittee] has
    reported success, [GetDSCommittee] ends and gives the same members in the same
    order (their host names excepted) and the same leader, appended to what the
    caller passed in; nothing of a longer committee stored before is left over. *)
Theorem committee_persisted mode st dsComm leaderID st' acc fuel :
  Forall storable dsComm -> zlen dsComm < 2 ^ 32 - 1 -> 0 <= leaderID < 2 ^ 16 ->
  (length dsComm < fuel)%nat ->
  PutDSCommittee mode st dsComm leaderID = Ret (true, st') ->
  GetDSCommittee fuel st' acc = Ret (Some (acc ++ (without_hostname <$> dsComm), leaderID)).
Proof.
  intros Hst Hb Hid Hf E. unfold PutDSCommittee in E. destruct (ResetDB mode (st_db st DS_COMMITTEE)) as [ok l] eqn:Er.
  unbind E. destruct v as [ret l1]. destruct (Z.eqb_spec ret 0) as [->|]; cbn [negb] in E; [|done].
  unbind E. destruct v as [[] l2]; [|done]. injection E as <-.
  destruct (ResetDB_effect _ _ _ _ Er) as [(Ho & _ & Hempty)|Hc].
  2: { unfold Insert_num, insert_key, with_db in E0. by rewrite Hc in E0. }
  destruct (Insert_num_0 _ _ _ _ (Z.le_refl 0) E0) as [Ho1 Hs1].
  destruct (put_members_spec dsComm l1 1 [] l2 Hst ltac:(done) ltac:(lia) ltac:(lia) Ho1 E1) as (Ho2 & Hmem & Hrest).
  pose proof (zlen_nonneg dsComm).
  unfold GetDSCommittee. rewrite set_store_same.
  rewrite (Lookup_num_stored _ _ (Some (to_string leaderID)) Ho2) by (rewrite Hrest, Hs1 by lia; by rewrite decide_True).
  cbn [mbind outcome_bind from_option id].
  destruct (to_string_nonempty leaderID) as (c & s & Hc & _); [lia|]. rewrite Hc.
  destruct (Z.eqb_spec (zlen (c :: s)) 0); [done|]. rewrite <- Hc, stoull_to_string by lia.
  rewrite (get_members_spec dsComm); [|done|lia|lia|done|done|].
  - cbn. by rewrite wrap_small by (unfold in_range; lia).
  - rewrite Hrest, Hs1, decide_False, Hempty by lia. done.
Qed.

End committee.

(** ** Examples on databases that are finite maps *)

Module StorageExamples.

#[local] Instance raw_bytes : FromBytes bytes := fun s => s.

Definition empty_storage : BlockStorage MapDB.db := mkStorage (fun _ => MapDB.opened) 0 0.

Definition stored_block : BlockStorage MapDB.db :=
  set_store empty_storage DS_BLOCK (mkLevelDB (<[to_string 7 := [1; 2]]> (∅ : MapDB.db)) true false).

Lemma ds_block_atomic_witness :
  exists st, PutDSBlock empty_storage 7 [1; 2] = Ret (true, st) /\ GetDSBlock st 7 = Ret (Some [1; 2]).
Proof.
  eexists. split; [reflexivity|].
  match goal with |- GetDSBlock ?s _ = _ => set (st := s) end.
  destruct (ds_block_atomic (T := bytes) empty_storage 7 [1; 2] st ltac:(done) ltac:(done)) as [Ha _].
  destruct (Ha eq_refl) as (H1 & _). exact H1.
Defined.

Lemma tx_body_not_noted_witness :
  exists st, PutTxBody true empty_storage (replicate 32 5) [1; 2] = Ret (true, st) /\
    GetAllTxBodiesTmp true st [] = Ret (true, []).
Proof.
  eexists. destruct (tx_body_not_noted (T := bytes) empty_storage (replicate 32 5) [1; 2] _ (fun k => k)
    ltac:(done) eq_refl eq_refl eq_refl) as (H1 & H2 & _).
  split; [exact H1|exact H2].
Defined.

Lemma refresh_miscounts_witness :
  exists st, PutDiagnosticDataNodes empty_storage 7 (Some [1; 2]) = Ret (true, st) /\
    m_diagnosticDBNodesCounter st = 1 /\
    m_diagnosticDBNodesCounter (Storage_RefreshDB st DIAGNOSTIC_NODES).2 = 0 /\
    Lookup_num (st_db (Storage_RefreshDB st DIAGNOSTIC_NODES).2 DIAGNOSTIC_NODES) 7 = Ret [1; 2].
Proof.
  eexists. split; [reflexivity|]. split; [reflexivity|].
  match goal with |- context [Storage_RefreshDB ?s _] => set (st := s) end.
  destruct (refresh_miscounts st 7 [1; 2] (Storage_RefreshDB st DIAGNOSTIC_NODES).2) as (H1 & H2 & _);
    [done|reflexivity|reflexivity|reflexivity|]. split; [exact H2|exact H1].
Defined.

Lemma reset_all_empties_witness :
  exists st, ResetAll false stored_block = (true, st) /\ stored (st_db st DS_BLOCK) (to_string 7) = None.
Proof.
  destruct (reset_all_empties false stored_block) as (st & H1 & H2).
  - apply Forall_forall. intros t _. unfold stored_block, set_store, resettable. cbn.
    split; [done|]. split; [by eexists|]. by case_decide.
  - exists st. split; [exact H1|]. specialize (H2 DS_BLOCK). rewrite decide_True in H2; [by apply H2|].
    by apply (bool_decide_unpack _).
Defined.

(** Blocks that are only their number, as in the chain's examples. *)
#[local] Existing Instance NumberedBlocks.numbered.
#[local] Existing Instance NumberedBlocks.numbered_spec.
#[local] Instance numbered_from : FromBytes Z := fun s => match s with [n] => n | _ => 0 end.
#[local] Instance numbered_to : ToBytes Z := fun n => [n].
#[local] Instance numbered_bytes : BytesSpec Z.
Proof. by split. Defined.

Lemma ledger_complete_witness :
  exists c st, store_blocks chain_Reset empty_storage [0; 1; 60; 61] = Ret (true, c, st) /\
    GetBlock (TxBlockChain_persistent st) c 1 = Ret 1.
Proof.
  eexists _, _. split; [reflexivity|].
  match goal with |- GetBlock (TxBlockChain_persistent ?s) ?d _ = _ => set (st := s); set (c := d) end.
  change 1 with (GetBlockNum 1) at 1.
  apply (ledger_complete empty_storage [0; 1; 60; 61] c st 1);
    [repeat constructor|reflexivity|repeat constructor|reflexivity|by right; left].
Defined.

Definition two_members : DequeOfNode :=
  [(PubKey_from_priv (mkPrivKey 77), Peer_new 16777343 33133); (PubKey_from_priv (mkPrivKey 5), Peer_new 1 2)].

Lemma committee_persisted_witness :
  exists st, PutDSCommittee false empty_storage two_members 1 = Ret (true, st) /\
    GetDSCommittee 3 st [] = Ret (Some (two_members, 1)).
Proof.
  assert (exists st, PutDSCommittee false empty_storage two_members 1 = Ret (true, st)) as [st Hput]
    by (eexists; vm_compute; reflexivity).
  exists st. split; [exact Hput|].
  rewrite (committee_persisted false empty_storage two_members 1 st [] 3);
    [|  |reflexivity|lia|unfold two_members; cbn [length]; lia|exact Hput].
  { unfold two_members. generalize (PubKey_from_priv (mkPrivKey 77)) (PubKey_from_priv (mkPrivKey 5)). reflexivity. }
  repeat apply Forall_cons_2; [..|by apply Forall_nil_2];
    (split; [cbn [fst]|unfold Peer_ok, Peer_new; cbn; lia]); intros E; apply (f_equal Cyclic.val) in E; vm_compute in E; discriminate E.
Defined.

End StorageExamples.
