(* ===== verification/Validator.v ===== *)
(** * Catching up: the checks on blocks fetched from a seed
    ([libValidator/Validator.cpp])

    A node that has fallen behind asks a seed for the directory blocks and the
    final blocks it has missed.  [CheckDirBlocks] walks over the directory blocks,
    checks each against the committee of its time, and moves the committee, the
    chains and the storage on; [CheckTxBlocks] checks the final blocks.

    [Mediator] holds what the checks touch.  The serialized blocks and the
    protobuf form of a sharding structure are parameters. *)

From stdpp Require Import base numbers gmap list.
From S2P Require Import Prelude BitVector Peer OpenSSL Schnorr MultiSig ConsensusMessages ConsensusCommon ConsensusBackup.
From S2P Require Import BlockChain LevelDB BlockLinkChain Blocks Committee BlockStorage.
Open Scope Z_scope.

(** [ProtoShardingStructure], [None] when a field is missing. *)
Class ShardingProto `{OpenSSL} := sharding_proto : Z -> list (list (PubKey * Peer * Z)) -> option bytes.

Inductive TxBlockValidationMsg := VALID | STALEDSINFO | INVALID.

Section validator.
Context `{OpenSSL} `{HeaderProto DSBlockHeader} `{HeaderProto VCBlockHeader} `{HeaderProto FallbackBlockHeader}
  `{HeaderProto TxBlockHeader} `{!ShardingProto} `{LinkProto}.
Context `{ToBytes DSBlock} `{ToBytes VCBlock} `{ToBytes FallbackBlockWShardingStructure}.
Context {DB : Type} `{leveldb DB}.
Context (selfKey : PubKey) (GUARD_MODE : bool) (NumOfDSGuard : Z) (LOOKUP_NODE_MODE : bool)
  (BLOCKLINK_VERSION SHARDINGSTRUCTURE_VERSION : Z).

(** [boost::variant<DSBlock, VCBlock, FallbackBlockWShardingStructure>] *)
Inductive DirBlock :=
  | DirDS (dsblock : DSBlock)
  | DirVC (vcblock : VCBlock)
  | DirFB (fallback : FallbackBlockWShardingStructure).

Record Mediator := mkMediator {
  m_dsBlockChain : CircularArray DSBlock;
  m_blocklinkchain : CircularArray BlockLink;
  m_storage : BlockStorage DB
}.

(** The variables of the loop. *)
Record DirState := mkDirState {
  mutable_ds_comm : DequeOfNode;
  prevdsblocknum : Z;
  totalIndex : Z;
  prevShardingHash : bytes;
  prevHash : bytes;
  mediator : Mediator
}.

(** Go on; [ret = false; break;]; [return false;]. *)
Inductive Verdict :=
  | Continue (s : DirState)
  | Break (s : DirState)
  | GiveUp (m : Mediator).

(** [Messenger::GetShardingStructureHash] *)
Definition GetShardingStructureHash (version : Z) (shards : DequeOfShard) : option bytes :=
  match sharding_proto version shards with
  | None => None
  | Some tmp => Some (SHA256 (SHA2.Update SHA2.Reset tmp))
  end.

(** [m_blocklinkchain.AddBlockLink(...)], its result not looked at. *)
Definition add_link (m : Mediator) (index dsindex : Z) (type : BlockType) (hash : bytes) : outcome Mediator :=
  '(_, links, db) ← AddBlockLink BLOCKLINK_VERSION (m_blocklinkchain m) (st_db (m_storage m) BLOCKLINK)
                      index dsindex (BlockType_value type) hash;
  Ret (mkMediator (m_dsBlockChain m) links (set_store (m_storage m) BLOCKLINK db)).

Definition check_ds (s : DirState) (dsblock : DSBlock) : outcome Verdict :=
  let header := dsb_header dsblock in
  if negb (dsh_blockNum header =? u64 (prevdsblocknum s + 1)) then Ret (Break s)
  else
    ok ← CheckBlockCosignature header (dsb_base dsblock) (fst <$> mutable_ds_comm s);
    if negb ok then Ret (Break s)
    else if negb (bool_decide (prevHash s = hb_prevHash (dsh_base header))) then Ret (Break s)
    else
      let prevdsblocknum := u64 (prevdsblocknum s + 1) in
      let hash := bb_blockHash (dsb_base dsblock) in
      m ← add_link (mediator s) (totalIndex s) prevdsblocknum BT_DS hash;
      '(_, chain) ← AddBlock (m_dsBlockChain m) dsblock;
      '(ok, st) ← PutDSBlock (m_storage m) (dsh_blockNum header) (to_bytes dsblock);
      let m := mkMediator chain (m_blocklinkchain m) st in
      if negb ok then Ret (GiveUp m)
      else
        comm ← Node_UpdateDSCommiteeComposition selfKey GUARD_MODE NumOfDSGuard (mutable_ds_comm s) dsblock;
        let '(ok, st) := Storage_ResetDB LOOKUP_NODE_MODE st STATE_DELTA in
        let m := mkMediator chain (m_blocklinkchain m) st in
        if negb ok then Ret (GiveUp m)
        else Ret (Continue (mkDirState comm prevdsblocknum (u64 (totalIndex s + 1)) (dsh_shardingHash header) hash m)).

Definition check_vc (s : DirState) (vcblock : VCBlock) : outcome Verdict :=
  let header := vcb_header vcblock in
  if negb (vch_VieWChangeDSEpochNo header =? u64 (prevdsblocknum s + 1)) then Ret (Break s)
  else
    ok ← CheckBlockCosignature header (vcb_base vcblock) (fst <$> mutable_ds_comm s);
    if negb ok then Ret (Break s)
    else if negb (bool_decide (prevHash s = hb_prevHash (vch_base header))) then Ret (Break s)
    else
      let comm := UpdateRetrieveDSCommiteeCompositionAfterVC GUARD_MODE vcblock (mutable_ds_comm s) in
      let hash := bb_blockHash (vcb_base vcblock) in
      m ← add_link (mediator s) (totalIndex s) (u64 (prevdsblocknum s + 1)) BT_VC hash;
      '(ok, st) ← PutVCBlock (m_storage m) hash (to_bytes vcblock);
      let m := mkMediator (m_dsBlockChain m) (m_blocklinkchain m) st in
      if negb ok then Ret (GiveUp m)
      else Ret (Continue (mkDirState comm (prevdsblocknum s) (u64 (totalIndex s + 1)) (prevShardingHash s) hash m)).

(** [shards.at(shard_id)] comes before the signature is checked. *)
Definition check_fb (s : DirState) (fb : FallbackBlockWShardingStructure) : outcome Verdict :=
  let fallbackblock := fbw_block fb in
  let shards := fbw_shards fb in
  let header := fbb_header fallbackblock in
  if negb (fbh_fallbackDSEpochNo header =? u64 (prevdsblocknum s + 1)) then Ret (Break s)
  else if negb (bool_decide (prevHash s = hb_prevHash (fbh_base header))) then Ret (Break s)
  else
    match GetShardingStructureHash SHARDINGSTRUCTURE_VERSION shards with
    | None => Ret (Break s)
    | Some shardinghash =>
        if negb (bool_decide (shardinghash = prevShardingHash s)) then Ret (Break s)
        else
          let shard_id := fbh_shardId header in
          shard ← at_ shards shard_id;
          ok ← CheckBlockCosignature header (fbb_base fallbackblock) (shard_keys shard);
          if negb ok then Ret (Break s)
          else
            comm ← UpdateDSCommitteeAfterFallback shard_id (fbh_leaderPubKey header) (fbh_leaderNetworkInfo header) shards;
            let hash := bb_blockHash (fbb_base fallbackblock) in
            m ← add_link (mediator s) (totalIndex s) (u64 (prevdsblocknum s + 1)) BT_FB hash;
            '(ok, st) ← PutFallbackBlock (m_storage m) hash (to_bytes fb);
            let m := mkMediator (m_dsBlockChain m) (m_blocklinkchain m) st in
            if negb ok then Ret (GiveUp m)
            else Ret (Continue (mkDirState comm (prevdsblocknum s) (u64 (totalIndex s + 1)) (prevShardingHash s) hash m))
    end.

Definition check_dir (s : DirState) (b : DirBlock) : outcome Verdict :=
  match b with DirDS d => check_ds s d | DirVC v => check_vc s v | DirFB f => check_fb s f end.

(** The loop: the result and, unless the function returned early, the committee it
    has come to ([newDSComm]). *)
Fixpoint check_loop (s : DirState) (dirBlocks : list DirBlock) : outcome (bool * option DequeOfNode * Mediator) :=
  match dirBlocks with
  | [] => Ret (true, Some (mutable_ds_comm s), mediator s)
  | b :: dirBlocks =>
      v ← check_dir s b;
      match v with
      | Continue s => check_loop s dirBlocks
      | Break s => Ret (false, Some (mutable_ds_comm s), mediator s)
      | GiveUp m => Ret (false, None, m)
      end
  end.

Definition CheckDirBlocks (m : Mediator) (dirBlocks : list DirBlock) (initDsComm : DequeOfNode) (index_num : Z)
  : outcome (bool * option DequeOfNode * Mediator) :=
  last ← GetLastBlock (m_dsBlockChain m);
  link ← GetLatestBlockLink (m_blocklinkchain m);
  check_loop (mkDirState initDsComm (dsh_blockNum (dsb_header last)) index_num (dsh_shardingHash (dsb_header last))
                (bl_hash link) m) dirBlocks.

(** ** Final blocks *)

(** The loop over [sIndex], down to the first block. *)
Fixpoint check_hashes (txBlocks : list TxBlock) (rounds : nat) (sIndex : Z) (prevBlockHash : bytes) : outcome bool :=
  match rounds with
  | O => Ret true
  | S rounds =>
      block ← at_ txBlocks sIndex;
      if negb (bool_decide (prevBlockHash = GetMyHash (txb_header block))) then Ret false
      else check_hashes txBlocks rounds (u32 (sIndex - 1)) (hb_prevHash (txh_base (txb_header block)))
  end.

Definition CheckTxBlocks (txBlocks : list TxBlock) (dsComm : DequeOfNode) (latestBlockLink : BlockLink)
  : outcome TxBlockValidationMsg :=
  let latestDSIndex := bl_dsindex latestBlockLink in
  let not_ds := negb (bl_type latestBlockLink =? BlockType_value BT_DS) in
  if not_ds && (latestDSIndex =? 0) then Ret INVALID
  else
    let latestDSIndex := if not_ds then latestDSIndex - 1 else latestDSIndex in
    latestTxBlock ← at_ txBlocks (zlen txBlocks - 1);
    let header := txb_header latestTxBlock in
    if negb (txh_dsBlockNum header =? latestDSIndex) then
      Ret (if latestDSIndex >? txh_dsBlockNum header then INVALID else STALEDSINFO)
    else
      ok ← CheckBlockCosignature header (txb_base latestTxBlock) (fst <$> dsComm);
      if negb ok then Ret INVALID
      else if zlen txBlocks <? 2 then Ret VALID
      else
        ok ← check_hashes txBlocks (pred (length txBlocks)) (u32 (zlen txBlocks - 2)) (hb_prevHash (txh_base header));
        Ret (if ok : bool then VALID else INVALID).

End validator.

(** ** Which blocks are accepted *)

Section acceptance.
Context `{Hnf : OpenSSLNoFail} `{HeaderProto DSBlockHeader} `{HeaderProto VCBlockHeader}
  `{HeaderProto FallbackBlockHeader} `{!ShardingProto} `{LinkProtoSpec}.
Context `{ToBytes DSBlock} `{ToBytes VCBlock} `{ToBytes FallbackBlockWShardingStructure}.
Context {DB : Type} `{leveldbSpec DB}.
Context (selfKey : PubKey) (GUARD_MODE : bool) (NumOfDSGuard : Z) (LOOKUP_NODE_MODE : bool)
  (VERSION SHARDINGSTRUCTURE_VERSION : Z).

Abbreviation check_dir :=
  (check_dir (DB := DB) selfKey GUARD_MODE NumOfDSGuard LOOKUP_NODE_MODE VERSION SHARDINGSTRUCTURE_VERSION).
Abbreviation check_loop :=
  (check_loop (DB := DB) selfKey GUARD_MODE NumOfDSGuard LOOKUP_NODE_MODE VERSION SHARDINGSTRUCTURE_VERSION).
Abbreviation CheckDirBlocks :=
  (CheckDirBlocks (DB := DB) selfKey GUARD_MODE NumOfDSGuard LOOKUP_NODE_MODE VERSION SHARDINGSTRUCTURE_VERSION).

(** What the next block is checked against. *)
Record View := mkView {
  v_comm : DequeOfNode;
  v_num : Z;
  v_hash : bytes;
  v_shardingHash : bytes
}.

Definition view (s : DirState (DB := DB)) : View :=
  mkView (mutable_ds_comm s) (prevdsblocknum s) (prevHash s) (prevShardingHash s).

(** The header [h] with its base carries enough signatures of [keys]. *)
Definition signed_by {Hd} `{HeaderProto Hd} (keys : list PubKey) (base : BlockBase) (h : Hd) : Prop :=
  cosigned keys (bb_cosigs base) (Header_Serialize h [] 0).2.

(** A block follows: the next number, the hash of the block before it, signed by
    the committee of its time, or, for a fallback, by a shard of the sharding
    structure the last directory block commits to. *)
Inductive follows : View -> DirBlock -> View -> Prop :=
  | follows_ds v b comm :
      dsh_blockNum (dsb_header b) = u64 (v_num v + 1) ->
      signed_by (fst <$> v_comm v) (dsb_base b) (dsb_header b) ->
      hb_prevHash (dsh_base (dsb_header b)) = v_hash v ->
      Node_UpdateDSCommiteeComposition selfKey GUARD_MODE NumOfDSGuard (v_comm v) b = Ret comm ->
      follows v (DirDS b)
        (mkView comm (u64 (v_num v + 1)) (bb_blockHash (dsb_base b)) (dsh_shardingHash (dsb_header b)))
  | follows_vc v b :
      vch_VieWChangeDSEpochNo (vcb_header b) = u64 (v_num v + 1) ->
      signed_by (fst <$> v_comm v) (vcb_base b) (vcb_header b) ->
      hb_prevHash (vch_base (vcb_header b)) = v_hash v ->
      follows v (DirVC b)
        (mkView (UpdateRetrieveDSCommiteeCompositionAfterVC GUARD_MODE b (v_comm v)) (v_num v)
           (bb_blockHash (vcb_base b)) (v_shardingHash v))
  | follows_fb v b shards shard comm :
      fbh_fallbackDSEpochNo (fbb_header b) = u64 (v_num v + 1) ->
      hb_prevHash (fbh_base (fbb_header b)) = v_hash v ->
      GetShardingStructureHash SHARDINGSTRUCTURE_VERSION shards = Some (v_shardingHash v) ->
      at_ shards (fbh_shardId (fbb_header b)) = Ret shard ->
      signed_by (shard_keys shard) (fbb_base b) (fbb_header b) ->
      UpdateDSCommitteeAfterFallback (fbh_shardId (fbb_header b)) (fbh_leaderPubKey (fbb_header b))
        (fbh_leaderNetworkInfo (fbb_header b)) shards = Ret comm ->
      follows v (DirFB (mkFallbackW b shards))
        (mkView comm (v_num v) (bb_blockHash (fbb_base b)) (v_shardingHash v)).

Inductive follow_all : View -> list DirBlock -> View -> Prop :=
  | follow_nil v : follow_all v [] v
  | follow_cons v b v1 bs v2 : follows v b v1 -> follow_all v1 bs v2 -> follow_all v (b :: bs) v2.

(** How many members a block may bring in at most. *)
Definition growth (b : DirBlock) : Z :=
  match b with
  | DirDS _ => 0
  | DirVC v => zlen (vch_FaultyLeaders (vcb_header v))
  | DirFB f => Z.of_nat (sum_list_with (fun s => length s) (fbw_shards f))
  end.

Definition growths (bs : list DirBlock) : Z := foldr (fun b n => growth b + n) 0 bs.

Lemma growth_nonneg b : 0 <= growth b.
Proof. destruct b; cbn; [lia|apply zlen_nonneg|lia]. Qed.

Lemma growths_nonneg bs : 0 <= growths bs.
Proof. induction bs as [|b bs IH]; cbn; [lia|]. pose proof (growth_nonneg b). unfold growths in IH. lia. Qed.

Lemma admit_winners_length winners comm comm' :
  admit_winners selfKey GUARD_MODE NumOfDSGuard comm winners = Ret comm' -> length comm' = length comm.
Proof.
  revert comm. induction winners as [|w winners IH]; intros comm E; [by injection E as ->|].
  cbn [admit_winners] in E. unbind E. rewrite (IH _ E). clear IH E. unfold admit_winner in E0. unbind E0.
  injection E0 as <-. unfold pop_back. rewrite length_take.
  assert (length v0 = S (length comm)) as ->; [|lia]. destruct GUARD_MODE; cbn [negb] in E; [|by injection E as <-].
  unfold deque_emplace in E. case_test_in E; [|done]. zbool. injection E as <-.
  rewrite length_app, length_take. cbn. rewrite length_drop. unfold zlen in *. lia.
Qed.

Lemma eject_length dsComm (p : PubKey * Peer -> bool) f : (length (eject dsComm p f) <= S (length dsComm))%nat.
Proof.
  unfold eject. rewrite length_app. cbn. destruct (erase_first p dsComm) as [l|] eqn:E; [|lia].
  destruct (erase_first_perm _ _ _ E) as (x & _ & Hp). apply Permutation_length in Hp. cbn in Hp. lia.
Qed.

Lemma shard_le_growth (shards : list (list (PubKey * Peer * Z))) i shard :
  shards !! i = Some shard -> (length shard <= sum_list_with (fun s => length s) shards)%nat.
Proof.
  revert i. induction shards as [|x shards IH]; intros [|i] Hs; cbn in Hs |- *;
    [done|done|injection Hs as ->; lia|specialize (IH _ Hs); lia].
Qed.

Lemma follows_size v b v' : follows v b v' -> zlen (v_comm v') <= zlen (v_comm v) + growth b.
Proof.
  destruct 1 as [v b comm _ _ _ E|v b _ _ _|v b shards shard comm _ _ _ Hat _ E]; cbn.
  - apply admit_winners_length in E. unfold zlen. lia.
  - unfold UpdateRetrieveDSCommiteeCompositionAfterVC. destruct GUARD_MODE; [pose proof (zlen_nonneg (vch_FaultyLeaders (vcb_header b))); lia|].
    generalize (vch_FaultyLeaders (vcb_header b)) as fl. intros fl. unfold zlen. generalize (v_comm v) as c.
    induction fl as [|f fl IH]; intros c; cbn [foldl length]; [lia|].
    specialize (IH (eject c (fun p => PubKey_eq p.1 f.1) f)). pose proof (eject_length c (fun p => PubKey_eq p.1 f.1) f). lia.
  - unfold UpdateDSCommitteeAfterFallback in E. rewrite Hat in E. cbn [mbind outcome_bind] in E. injection E as <-.
    apply at_Ret in Hat as [_ Hs]. pose proof (zlen_nonneg (v_comm v)).
    apply shard_le_growth in Hs.
    match goal with |- zlen (foldl ?f [] shard) <= _ => assert (forall c, length (foldl f c shard) = length c + length shard)%nat as Hl end.
    { clear. induction shard as [|n shard IH]; intros c; cbn [foldl length]; [lia|]. rewrite IH.
      case_test; cbn; rewrite ?length_app; cbn; lia. }
    unfold zlen in *. rewrite Hl. cbn. lia.
Qed.

(** ** Soundness of one step *)

Lemma CheckBlockCosignature_iff {Hd} `{HeaderProto Hd} (h : Hd) base keys :
  zlen keys < 2 ^ 32 -> CheckBlockCosignature h base keys = Ret true <-> signed_by keys base h.
Proof. intros Hk. unfold CheckBlockCosignature, signed_by. by apply cosig_check_iff. Qed.

Lemma zlen_fmap {A B} (f : A -> B) l : zlen (f <$> l) = zlen l.
Proof. unfold zlen. by rewrite length_fmap. Qed.

Lemma signed_check {Hd} `{HeaderProto Hd} (h : Hd) base (comm : DequeOfNode) :
  zlen comm < 2 ^ 32 -> signed_by (fst <$> comm) base h -> CheckBlockCosignature h base (fst <$> comm) = Ret true.
Proof. intros Hc Hs. apply CheckBlockCosignature_iff; [by rewrite zlen_fmap|done]. Qed.

(** Take a guard of the form [if negb c then stop else ...] apart. *)
Ltac pass E :=
  match type of E with
  | (if negb ?c then _ else _) = Ret (Continue _) =>
      let G := fresh "G" in destruct c eqn:G; cbn [negb] in E; [|done]
  | (if negb ?c then Ret _ else _) = _ =>
      let G := fresh "G" in destruct c eqn:G; cbn [negb] in E; [|done]
  end.

Lemma check_ds_sound s b s' :
  zlen (mutable_ds_comm s) < 2 ^ 32 ->
  check_ds selfKey GUARD_MODE NumOfDSGuard LOOKUP_NODE_MODE VERSION s b = Ret (Continue s') ->
  follows (view s) (DirDS b) (view s').
Proof.
  intros Hc E. unfold check_ds in E. pass E. apply bind_Ret in E as ([] & Hcs & E); cbn [negb] in E; [|done].
  pass E. apply bind_Ret in E as (m & _ & E). apply bind_Ret in E as ([r chain] & _ & E).
  apply bind_Ret in E as ([ok st] & _ & E). pass E. apply bind_Ret in E as (comm & Hcomm & E).
  destruct (Storage_ResetDB LOOKUP_NODE_MODE st STATE_DELTA) as [ok' st']. pass E. injection E as <-.
  apply Z.eqb_eq in G. apply bool_decide_eq_true in G0. constructor; [done| |done|done].
  apply CheckBlockCosignature_iff; [by rewrite zlen_fmap|done].
Qed.

Lemma check_vc_sound s b s' :
  zlen (mutable_ds_comm s) < 2 ^ 32 ->
  check_vc GUARD_MODE VERSION s b = Ret (Continue s') -> follows (view s) (DirVC b) (view s').
Proof.
  intros Hc E. unfold check_vc in E. pass E. apply bind_Ret in E as ([] & Hcs & E); cbn [negb] in E; [|done].
  pass E. apply bind_Ret in E as (m & _ & E). apply bind_Ret in E as ([ok st] & _ & E). pass E.
  injection E as <-. apply Z.eqb_eq in G. apply bool_decide_eq_true in G0.
  apply (follows_vc (view s) b); [done| |done].
  apply CheckBlockCosignature_iff; [by rewrite zlen_fmap|done].
Qed.

Lemma check_fb_sound s b s' :
  growth (DirFB b) < 2 ^ 32 ->
  check_fb VERSION SHARDINGSTRUCTURE_VERSION s b = Ret (Continue s') -> follows (view s) (DirFB b) (view s').
Proof.
  intros Hc E. unfold check_fb in E. pass E. pass E.
  destruct (GetShardingStructureHash _ _) as [sh|] eqn:Esh; [|done]. pass E.
  apply bind_Ret in E as (shard & Hat & E). apply bind_Ret in E as ([] & Hcs & E); cbn [negb] in E; [|done].
  apply bind_Ret in E as (comm & Hcomm & E). apply bind_Ret in E as (m & _ & E).
  apply bind_Ret in E as ([ok st] & _ & E). pass E. injection E as <-. destruct b as [b shards]. cbn in *.
  apply Z.eqb_eq in G. apply bool_decide_eq_true in G0, G1. subst.
  apply (follows_fb (view s) b shards shard); [done|done|done|done| |done].
  apply CheckBlockCosignature_iff; [|done]. unfold shard_keys. rewrite zlen_fmap.
  apply at_Ret in Hat as [_ Hs]. apply shard_le_growth in Hs. unfold zlen. lia.
Qed.

Lemma check_dir_sound s b s' :
  zlen (mutable_ds_comm s) + growth b < 2 ^ 32 ->
  check_dir s b = Ret (Continue s') -> follows (view s) b (view s').
Proof.
  intros Hc. pose proof (zlen_nonneg (mutable_ds_comm s)). pose proof (growth_nonneg b).
  destruct b; cbn [Validator.check_dir].
  - apply check_ds_sound. lia.
  - apply check_vc_sound. lia.
  - apply check_fb_sound. lia.
Qed.

(** ** A block that follows is stored *)

(** The disk does not fail. *)
Class Reliable : Prop := {
  put_ok (db : DB) k v : (ldb_Put db k v).1 = true;
  destroy_ok (db : DB) : ldb_DestroyDB db = true;
  open_ok (db : DB) : is_Some (ldb_Open db)
}.
Context `{Reliable}.

Definition used_types : list DBTYPE := [META; DS_BLOCK; VC_BLOCK; FB_BLOCK; BLOCKLINK; STATE_DELTA].

Record storage_ready (st : BlockStorage DB) : Prop := {
  sr_open t : t ∈ used_types -> m_open (st_db st t) = true;
  sr_delta : m_in_subdirectory (st_db st STATE_DELTA) = false
}.

(** The chains of the mediator hold [hist] and [links], and the loop stands at
    their ends. *)
Record synced (s : DirState (DB := DB)) (links : list BlockLink) (hist : gmap Z DSBlock) : Prop := {
  sy_chain : chain_refines (m_dsBlockChain (mediator s)) hist (prevdsblocknum s);
  sy_num : 0 <= prevdsblocknum s;
  sy_chain_cap : m_capacity (m_dsBlockChain (mediator s)) = BLOCKCHAIN_SIZE;
  sy_links : links_refine VERSION (m_blocklinkchain (mediator s)) (st_db (m_storage (mediator s)) BLOCKLINK) links;
  sy_links_cap : m_capacity (m_blocklinkchain (mediator s)) = BLOCKCHAIN_SIZE;
  sy_index : totalIndex s = zlen links;
  sy_storage : storage_ready (m_storage (mediator s))
}.

Lemma insert_reliable (l : LevelDB DB) k v :
  m_open l = true ->
  exists l', insert_key l k v = Ret (0, l') /\ m_open l' = true /\ m_in_subdirectory l' = m_in_subdirectory l.
Proof.
  intros Ho. unfold insert_key, with_db. rewrite Ho. pose proof (put_ok (m_disk l) k v) as Hp.
  destruct (ldb_Put _ _ _) as [ok db]. cbn in Hp. subst ok. by eexists.
Qed.

Lemma on_db_insert st t k v :
  storage_ready st -> t ∈ used_types ->
  exists st', on_db st t (fun l => insert_key l k v) = Ret (true, st') /\ storage_ready st' /\
    (forall t', t' <> t -> st_db st' t' = st_db st t').
Proof.
  intros [Ho Hd] Ht. destruct (insert_reliable (st_db st t) k v (Ho t Ht)) as (l & E & Hol & Hsl).
  unfold on_db. rewrite E. eexists. split; [reflexivity|]. split.
  - split.
    + intros t' Ht'. cbn. case_decide; [done|by apply Ho].
    + cbn. case_decide as Hdt; [by rewrite Hsl, <- Hdt|done].
  - intros t' Hne. by apply set_store_other.
Qed.

Lemma add_link_synced m links n ty h :
  links_refine VERSION (m_blocklinkchain m) (st_db (m_storage m) BLOCKLINK) links ->
  m_capacity (m_blocklinkchain m) = BLOCKCHAIN_SIZE -> storage_ready (m_storage m) ->
  zlen h = 32 -> zlen links < 2 ^ 63 ->
  exists m', add_link VERSION m (zlen links) n ty h = Ret m' /\ m_dsBlockChain m' = m_dsBlockChain m /\
    links_refine VERSION (m_blocklinkchain m') (st_db (m_storage m') BLOCKLINK)
      (links ++ [mkLink VERSION (zlen links) n (BlockType_value ty) h]) /\
    m_capacity (m_blocklinkchain m') = BLOCKCHAIN_SIZE /\ storage_ready (m_storage m').
Proof.
  intros Hlr Hcap [Ho Hd] Hh Hn.
  destruct (AddBlockLink_accept VERSION _ _ links (zlen links) n (BlockType_value ty) h Hlr ltac:(lia)
    ltac:(by intros ->)) as (ok & db & c & Hput & Hadd & _).
  assert (ok = true /\ m_open db = true) as [-> Hodb].
  { unfold PutBlockLink, Insert_num in Hput.
    destruct (insert_reliable (st_db (m_storage m) BLOCKLINK) (to_string (zlen links))
      (SetBlockLink [] 0 (mkLink VERSION (zlen links) n (BlockType_value ty) h)).2) as (l & El & Hol & _).
    { apply Ho. by apply (bool_decide_unpack _). }
    rewrite El in Hput. injection Hput as <- <-. done. }
  destruct (AddBlockLink_next VERSION _ _ links n (BlockType_value ty) h c db Hlr Hh) as [Hcap' Hlr'];
    [rewrite Hcap; unfold BLOCKCHAIN_SIZE; lia|done|].
  unfold add_link. rewrite Hadd. eexists. split; [reflexivity|]. cbn.
  split; [done|]. split; [done|]. split; [congruence|]. split; cbn; [|done].
  intros t Ht. case_decide; [done|by apply Ho].
Qed.

(** The link of an accepted block, and what it adds to the chain. *)
Definition block_hash (b : DirBlock) : bytes :=
  match b with
  | DirDS d => bb_blockHash (dsb_base d)
  | DirVC v => bb_blockHash (vcb_base v)
  | DirFB f => bb_blockHash (fbb_base (fbw_block f))
  end.

Definition block_type (b : DirBlock) : BlockType :=
  match b with DirDS _ => BT_DS | DirVC _ => BT_VC | DirFB _ => BT_FB end.

Definition link_of (index num : Z) (b : DirBlock) : BlockLink :=
  mkLink VERSION index (u64 (num + 1)) (BlockType_value (block_type b)) (block_hash b).

Definition hist_after (hist : gmap Z DSBlock) (b : DirBlock) : gmap Z DSBlock :=
  match b with DirDS d => <[dsh_blockNum (dsb_header d) := d]> hist | _ => hist end.

(** The room left in the counters. *)
Definition in_bounds (s : DirState (DB := DB)) : Prop :=
  prevdsblocknum s < 2 ^ 63 /\ totalIndex s < 2 ^ 63.

Lemma ready_used t : bool_decide (t ∈ used_types) = true -> t ∈ used_types.
Proof. apply bool_decide_eq_true. Qed.

Lemma check_ds_complete s b v' links hist :
  synced s links hist -> in_bounds s -> zlen (mutable_ds_comm s) < 2 ^ 32 -> zlen (bb_blockHash (dsb_base b)) = 32 ->
  follows (view s) (DirDS b) v' ->
  exists s', check_dir s (DirDS b) = Ret (Continue s') /\ view s' = v' /\
    synced s' (links ++ [link_of (totalIndex s) (prevdsblocknum s) (DirDS b)]) (hist_after hist (DirDS b)) /\
    totalIndex s' = totalIndex s + 1.
Proof.
  intros [Hch Hnum Hcc Hlr Hlc Hidx Hst] [Hb1 Hb2] Hc Hh Hf. inversion Hf as [v b' comm Hn Hsig Hp Hcomm| |]; subst.
  cbn [v_num v_comm v_hash v_shardingHash view] in *. rewrite (wrap_small 64) in Hn by (unfold in_range; lia).
  cbn [Validator.check_dir]. unfold check_ds. rewrite (wrap_small 64) by (unfold in_range; lia).
  rewrite Hn, Z.eqb_refl, (signed_check _ _ _ Hc Hsig).
  cbn [negb mbind outcome_bind]. rewrite bool_decide_eq_true_2 by done. cbn [negb].
  rewrite Hidx in *.
  destruct (add_link_synced (mediator s) links (prevdsblocknum s + 1) BT_DS (bb_blockHash (dsb_base b)) Hlr Hlc Hst Hh Hb2)
    as (m & -> & Hmc & Hmlr & Hmlc & Hmst). cbn [mbind outcome_bind]. rewrite Hmc.
  destruct (AddBlock_newer _ hist _ b Hch) as (c & -> & Hcc' & Hch'); [cbn; lia|lia|cbn; rewrite Hcc; unfold BLOCKCHAIN_SIZE; lia|].
  cbn [mbind outcome_bind]. unfold PutDSBlock, PutBlock, Insert_num.
  destruct (on_db_insert (m_storage m) DS_BLOCK (to_string (prevdsblocknum s + 1)) (to_bytes b) Hmst
    ltac:(by apply ready_used)) as (st1 & -> & Hst1 & Hfr1). cbn [mbind outcome_bind negb].
  unfold PutMetadata, Insert_string.
  destruct (on_db_insert st1 META (to_string (MetaType_value DSINCOMPLETED)) [49] Hst1 ltac:(by apply ready_used))
    as (st2 & -> & Hst2 & Hfr2). cbn [mbind outcome_bind negb]. rewrite Hcomm. cbn [mbind outcome_bind].
  unfold Storage_ResetDB.
  destruct (ResetDB_resettable LOOKUP_NODE_MODE (st_db st2 STATE_DELTA)) as (l & El & Hol & _).
  { split; [apply destroy_ok|]. split; [apply open_ok|]. intros _. apply Hst2. }
  rewrite El. cbn [negb clear_counter]. pose proof (zlen_nonneg links).
  rewrite (wrap_small 64 (zlen links + 1)) by (unfold in_range; lia).
  eexists. split; [reflexivity|]. split; [done|]. split; [|done].
  cbn in Hch'. rewrite Hn in Hch'. split; cbn.
  - by rewrite Hn.
  - lia.
  - congruence.
  - unfold link_of. cbn [block_type block_hash]. rewrite (wrap_small 64) by (unfold in_range; lia).
    by rewrite (Hfr2 BLOCKLINK), (Hfr1 BLOCKLINK) by done.
  - done.
  - by rewrite zlen_app.
  - split; cbn.
    + intros t Ht. case_decide; [done|by apply Hst2].
    + assert (l = (ResetDB LOOKUP_NODE_MODE (st_db st2 STATE_DELTA)).2) as -> by (by rewrite El).
      rewrite decide_True, ResetDB_subdirectory by done. apply Hst2.
Qed.

(** View-change and fallback blocks end alike: a link and a block by its hash. *)
Lemma synced_hash_block s b t links hist comm body :
  synced s links hist -> in_bounds s -> zlen (block_hash b) = 32 -> t ∈ used_types -> t <> BLOCKLINK ->
  hist_after hist b = hist ->
  exists m st', add_link VERSION (mediator s) (totalIndex s) (u64 (prevdsblocknum s + 1)) (block_type b) (block_hash b)
      = Ret m /\
    on_db (m_storage m) t (fun l => Insert_hash l (block_hash b) body) = Ret (true, st') /\
    forall s', s' = mkDirState comm (prevdsblocknum s) (u64 (totalIndex s + 1)) (prevShardingHash s) (block_hash b)
                     (mkMediator (m_dsBlockChain m) (m_blocklinkchain m) st') ->
      synced s' (links ++ [link_of (totalIndex s) (prevdsblocknum s) b]) (hist_after hist b) /\
      totalIndex s' = totalIndex s + 1.
Proof.
  intros [Hch Hnum Hcc Hlr Hlc Hidx Hst] [Hb1 Hb2] Hh Ht Hne Hhist. rewrite Hidx, Hhist in *.
  destruct (add_link_synced (mediator s) links (u64 (prevdsblocknum s + 1)) (block_type b) (block_hash b) Hlr Hlc Hst Hh Hb2)
    as (m & -> & Hmc & Hmlr & Hmlc & Hmst).
  destruct (on_db_insert (m_storage m) t (hex (block_hash b)) body Hmst Ht) as (st' & E & Hst' & Hfr).
  exists m, st'. split; [done|]. split; [exact E|]. intros s' ->. pose proof (zlen_nonneg links).
  rewrite (wrap_small 64 (zlen links + 1)) by (unfold in_range; lia). split; [|done]. split; cbn.
  - by rewrite Hmc.
  - done.
  - by rewrite Hmc.
  - rewrite (Hfr BLOCKLINK) by done. exact Hmlr.
  - done.
  - by rewrite zlen_app.
  - done.
Qed.

Lemma check_vc_complete s b v' links hist :
  synced s links hist -> in_bounds s -> zlen (mutable_ds_comm s) < 2 ^ 32 -> zlen (block_hash (DirVC b)) = 32 ->
  follows (view s) (DirVC b) v' ->
  exists s', check_dir s (DirVC b) = Ret (Continue s') /\ view s' = v' /\
    synced s' (links ++ [link_of (totalIndex s) (prevdsblocknum s) (DirVC b)]) (hist_after hist (DirVC b)) /\
    totalIndex s' = totalIndex s + 1.
Proof.
  intros Hsy Hb Hc Hh Hf. inversion Hf as [|v b' Hn Hsig Hp|]; subst.
  cbn [v_num v_comm v_hash v_shardingHash view] in *.
  cbn [Validator.check_dir]. unfold check_vc.
  rewrite Hn, Z.eqb_refl, (signed_check _ _ _ Hc Hsig). cbn [negb mbind outcome_bind].
  rewrite bool_decide_eq_true_2 by done. cbn [negb].
  destruct (synced_hash_block s (DirVC b) VC_BLOCK links hist
    (UpdateRetrieveDSCommiteeCompositionAfterVC GUARD_MODE b (mutable_ds_comm s)) (to_bytes b) Hsy Hb Hh
    ltac:(by apply ready_used) ltac:(done) eq_refl) as (m & st' & El & Ep & Hs). cbn [block_type block_hash] in *.
  rewrite El. cbn [mbind outcome_bind]. unfold PutVCBlock. rewrite Ep. cbn [mbind outcome_bind negb].
  eexists. split; [reflexivity|]. split; [done|]. by apply Hs.
Qed.

Lemma check_fb_complete s b v' links hist :
  synced s links hist -> in_bounds s -> growth (DirFB b) < 2 ^ 32 -> zlen (block_hash (DirFB b)) = 32 ->
  follows (view s) (DirFB b) v' ->
  exists s', check_dir s (DirFB b) = Ret (Continue s') /\ view s' = v' /\
    synced s' (links ++ [link_of (totalIndex s) (prevdsblocknum s) (DirFB b)]) (hist_after hist (DirFB b)) /\
    totalIndex s' = totalIndex s + 1.
Proof.
  intros Hsy Hb Hc Hh Hf. inversion Hf as [| |v b' shards shard comm Hn Hp Hsh Hat Hsig Hcomm]; subst.
  cbn [v_num v_comm v_hash v_shardingHash view] in *.
  cbn [Validator.check_dir]. unfold check_fb. cbn [fbw_block fbw_shards].
  rewrite Hn, Z.eqb_refl. cbn [negb]. rewrite bool_decide_eq_true_2 by done. cbn [negb]. rewrite Hsh.
  rewrite bool_decide_eq_true_2 by done. cbn [negb]. rewrite Hat. cbn [mbind outcome_bind].
  assert (CheckBlockCosignature (fbb_header b') (fbb_base b') (shard_keys shard) = Ret true) as ->.
  { apply CheckBlockCosignature_iff; [|done]. unfold shard_keys. rewrite zlen_fmap.
    apply at_Ret in Hat as [_ Hs]. apply shard_le_growth in Hs. cbn in Hc. unfold zlen. lia. }
  cbn [mbind outcome_bind negb]. rewrite Hcomm. cbn [mbind outcome_bind].
  destruct (synced_hash_block s (DirFB (mkFallbackW b' shards)) FB_BLOCK links hist comm (to_bytes (mkFallbackW b' shards))
    Hsy Hb Hh ltac:(by apply ready_used) ltac:(done) eq_refl) as (m & st' & El & Ep & Hs). cbn [block_type block_hash fbw_block] in *.
  rewrite El. cbn [mbind outcome_bind]. unfold PutFallbackBlock. rewrite Ep. cbn [mbind outcome_bind negb].
  eexists. split; [reflexivity|]. split; [done|]. by apply Hs.
Qed.

Lemma check_dir_complete s b v' links hist :
  synced s links hist -> in_bounds s -> zlen (mutable_ds_comm s) + growth b < 2 ^ 32 -> zlen (block_hash b) = 32 ->
  follows (view s) b v' ->
  exists s', check_dir s b = Ret (Continue s') /\ view s' = v' /\
    synced s' (links ++ [link_of (totalIndex s) (prevdsblocknum s) b]) (hist_after hist b) /\
    totalIndex s' = totalIndex s + 1.
Proof.
  intros Hsy Hb Hc Hh Hf. pose proof (zlen_nonneg (mutable_ds_comm s)). pose proof (growth_nonneg b).
  destruct b; [apply check_ds_complete|apply check_vc_complete|apply check_fb_complete]; try done; lia.
Qed.

(** ** The whole sequence *)

Fixpoint links_of (index num : Z) (bs : list DirBlock) : list BlockLink :=
  match bs with
  | [] => []
  | b :: bs => link_of index num b :: links_of (index + 1) (match b with DirDS _ => u64 (num + 1) | _ => num end) bs
  end.

Definition hist_all (hist : gmap Z DSBlock) (bs : list DirBlock) : gmap Z DSBlock := foldl hist_after hist bs.

Lemma follows_num v b v' :
  follows v b v' -> v_num v' = match b with DirDS _ => u64 (v_num v + 1) | _ => v_num v end.
Proof. by destruct 1. Qed.

Lemma check_loop_iff bs s links hist :
  synced s links hist -> prevdsblocknum s + zlen bs < 2 ^ 63 -> totalIndex s + zlen bs < 2 ^ 63 ->
  zlen (mutable_ds_comm s) + growths bs < 2 ^ 32 -> Forall (fun b => zlen (block_hash b) = 32) bs ->
  forall comm,
  (exists m, check_loop s bs = Ret (true, Some comm, m)) <->
  (exists v, follow_all (view s) bs v /\ v_comm v = comm).
Proof.
  revert s links hist. induction bs as [|b bs IH]; intros s links hist Hsy Hb1 Hb2 Hc Hh comm.
  { split; [intros (m & [= <- <-])|intros (v & Hv & <-)].
    - exists (view s). split; [constructor|done].
    - inversion Hv; subst. by eexists. }
  apply Forall_cons in Hh as [Hh1 Hh]. cbn [growths foldr] in Hc. fold (growths bs) in Hc.
  change (zlen (b :: bs)) with (Z.of_nat (S (length bs))) in *.
  pose proof (growths_nonneg bs). pose proof (growth_nonneg b).
  assert (in_bounds s) as Hib by (split; lia).
  assert (forall v1, follows (view s) b v1 ->
    exists s', check_dir s b = Ret (Continue s') /\ view s' = v1 /\
      forall comm, (exists m, check_loop s' bs = Ret (true, Some comm, m)) <->
                   (exists v, follow_all (view s') bs v /\ v_comm v = comm)) as Hstep.
  { intros v1 Hf. destruct (check_dir_complete s b v1 links hist) as (s' & E & Hv & Hsy' & Hti); [done..|lia|done|done|].
    exists s'. split; [done|]. split; [done|]. pose proof (follows_size _ _ _ Hf) as Hsz. pose proof (follows_num _ _ _ Hf) as Hnum.
    rewrite <- Hv in Hsz, Hnum. cbn in Hsz, Hnum. pose proof (sy_num _ _ _ Hsy).
    eapply IH; [exact Hsy'| |unfold zlen; lia|lia|done].
    unfold zlen. rewrite Hnum. destruct b; rewrite ?(wrap_small 64) by (unfold in_range; lia); lia. }
  cbn [Validator.check_loop]. split.
  - intros (m & E). apply bind_Ret in E as ([s'|s'|m'] & E1 & E); [|done|done].
    pose proof (check_dir_sound s b s' ltac:(lia) E1) as Hf. destruct (Hstep _ Hf) as (s2 & E2 & _ & Hiff).
    rewrite E1 in E2. injection E2 as <-. destruct (proj1 (Hiff comm)) as (v & Hv & Hcv); [by eexists|].
    exists v. split; [by econstructor|done].
  - intros (v & Hv & <-). inversion Hv as [|? ? v1 ? ? Hf Hrest]; subst.
    destruct (Hstep _ Hf) as (s2 & -> & <- & Hiff). cbn [mbind outcome_bind]. apply Hiff. by exists v.
Qed.

Lemma check_loop_recorded bs s links hist comm m :
  synced s links hist -> prevdsblocknum s + zlen bs < 2 ^ 63 -> totalIndex s + zlen bs < 2 ^ 63 ->
  zlen (mutable_ds_comm s) + growths bs < 2 ^ 32 -> Forall (fun b => zlen (block_hash b) = 32) bs ->
  check_loop s bs = Ret (true, Some comm, m) ->
  exists s', synced s' (links ++ links_of (totalIndex s) (prevdsblocknum s) bs) (hist_all hist bs) /\ mediator s' = m.
Proof.
  revert s links hist. induction bs as [|b bs IH]; intros s links hist Hsy Hb1 Hb2 Hc Hh E.
  { injection E as _ <-. exists s. by rewrite app_nil_r. }
  apply Forall_cons in Hh as [Hh1 Hh]. cbn [growths foldr] in Hc. fold (growths bs) in Hc.
  change (zlen (b :: bs)) with (Z.of_nat (S (length bs))) in *.
  pose proof (growths_nonneg bs). pose proof (growth_nonneg b). pose proof (sy_num _ _ _ Hsy).
  cbn [Validator.check_loop] in E. apply bind_Ret in E as ([s'|s'|m'] & E1 & E); [|done|done].
  pose proof (check_dir_sound s b s' ltac:(lia) E1) as Hf.
  destruct (check_dir_complete s b (view s') links hist) as (s2 & E2 & _ & Hsy' & Hti); [done|split; lia|lia|done|done|].
  rewrite E1 in E2. injection E2 as <-.
  pose proof (follows_size _ _ _ Hf) as Hsz. pose proof (follows_num _ _ _ Hf) as Hnum. cbn in Hsz, Hnum.
  destruct (IH s' _ _ Hsy') as (s3 & Hs3 & Hm3); [|unfold zlen; lia|lia|done|done|].
  { unfold zlen. rewrite Hnum. destruct b; rewrite ?(wrap_small 64) by (unfold in_range; lia); lia. }
  exists s3. split; [|done]. cbn [links_of hist_all foldl]. rewrite <- app_assoc in Hs3. cbn [app] in Hs3.
  by rewrite Hti, Hnum in Hs3.
Qed.

(** The situation of a node that catches up: its chains end at the block [last] and
    the link [link], its storage works, and the blocks [bs] it was sent do not
    overflow its counters. *)
Record catching_up (m : Mediator (DB := DB)) (bs : list DirBlock) (comm : DequeOfNode)
    (last : DSBlock) (link : BlockLink) (links : list BlockLink) (hist : gmap Z DSBlock) : Prop := {
  cu_last : GetLastBlock (m_dsBlockChain m) = Ret last;
  cu_link : GetLatestBlockLink (m_blocklinkchain m) = Ret link;
  cu_synced : synced (mkDirState comm (dsh_blockNum (dsb_header last)) (zlen links)
                        (dsh_shardingHash (dsb_header last)) (bl_hash link) m) links hist;
  cu_num : dsh_blockNum (dsb_header last) + zlen bs < 2 ^ 63;
  cu_index : zlen links + zlen bs < 2 ^ 63;
  cu_size : zlen comm + growths bs < 2 ^ 32;
  cu_hashes : Forall (fun b => zlen (block_hash b) = 32) bs
}.

(** The view such a node has. *)
Definition start_view (comm : DequeOfNode) (last : DSBlock) (link : BlockLink) : View :=
  mkView comm (dsh_blockNum (dsb_header last)) (bl_hash link) (dsh_shardingHash (dsb_header last)).

Lemma CheckDirBlocks_loop m bs comm last link links hist :
  catching_up m bs comm last link links hist ->
  CheckDirBlocks m bs comm (zlen links) =
  check_loop (mkDirState comm (dsh_blockNum (dsb_header last)) (zlen links)
                (dsh_shardingHash (dsb_header last)) (bl_hash link) m) bs.
Proof. intros [Hl Hk _ _ _ _ _]. unfold Validator.CheckDirBlocks. rewrite Hl. cbn [mbind outcome_bind]. by rewrite Hk. Qed.

Lemma CheckDirBlocks_iff m bs comm last link links hist comm' :
  catching_up m bs comm last link links hist ->
  (exists m', CheckDirBlocks m bs comm (zlen links) = Ret (true, Some comm', m')) <->
  (exists v, follow_all (start_view comm last link) bs v /\ v_comm v = comm').
Proof.
  intros Hcu. rewrite (CheckDirBlocks_loop _ _ _ _ _ _ _ Hcu). destruct Hcu as [Hl Hk Hs Hn Hi Hz Hh].
  by apply (check_loop_iff bs _ links hist Hs).
Qed.

(** C6: a node that catches up accepts exactly the blocks that follow.  On a working
    storage, [CheckDirBlocks] returns true with the committee [comm'] if and only
    if every block has the next directory number, names the hash of the block
    before it, and carries exactly the required number of signatures of the
    committee of its time (a fallback block of a shard of the structure that the
    last directory block commits to), where the committee is moved on by each
    block, and ends as [comm']. *)
Theorem dir_blocks_iff m bs comm last link links hist comm' :
  catching_up m bs comm last link links hist ->
  (exists m', CheckDirBlocks m bs comm (zlen links) = Ret (true, Some comm', m')) <->
  (exists v, follow_all (start_view comm last link) bs v /\ v_comm v = comm').
Proof. apply CheckDirBlocks_iff. Qed.

(** C8: accepted blocks are recorded.  When [CheckDirBlocks] has returned true, the
    chain of directory blocks is the old one with the accepted directory blocks
    under their numbers, and the chain of links is the old one with one link per
    accepted block, in order, in memory and in the database. *)
Theorem dir_blocks_recorded m bs comm last link links hist comm' m' :
  catching_up m bs comm last link links hist ->
  CheckDirBlocks m bs comm (zlen links) = Ret (true, Some comm', m') ->
  (exists num, chain_refines (m_dsBlockChain m') (hist_all hist bs) num) /\
  links_refine VERSION (m_blocklinkchain m') (st_db (m_storage m') BLOCKLINK)
    (links ++ links_of (zlen links) (dsh_blockNum (dsb_header last)) bs).
Proof.
  intros Hcu E. rewrite (CheckDirBlocks_loop _ _ _ _ _ _ _ Hcu) in E. destruct Hcu as [Hl Hk Hs Hn Hi Hz Hh].
  destruct (check_loop_recorded bs _ links hist comm' m' Hs Hn Hi Hz Hh E) as (s' & Hs' & <-).
  split; [exists (prevdsblocknum s'); apply Hs'|apply Hs'].
Qed.

(** The block with another hash in front of its header. *)
Definition with_hash (h : bytes) (b : DirBlock) : DirBlock :=
  let change base := mkBlockBase h (bb_cosigs base) (bb_timestamp base) in
  match b with
  | DirDS d => DirDS (mkDSBlock (change (dsb_base d)) (dsb_header d))
  | DirVC v => DirVC (mkVCBlock (change (vcb_base v)) (vcb_header v))
  | DirFB f => DirFB (mkFallbackW (mkFallbackBlock (change (fbb_base (fbw_block f))) (fbb_header (fbw_block f))) (fbw_shards f))
  end.

Lemma follows_with_hash v b v' h :
  follows v b v' ->
  follows v (with_hash h b) (mkView (v_comm v') (v_num v') h (v_shardingHash v')).
Proof.
  destruct 1 as [v b comm|v b|v b shards shard comm]; cbn.
  - by apply (follows_ds v (mkDSBlock (mkBlockBase h (bb_cosigs (dsb_base b)) (bb_timestamp (dsb_base b))) (dsb_header b))).
  - by apply (follows_vc v (mkVCBlock (mkBlockBase h (bb_cosigs (vcb_base b)) (bb_timestamp (vcb_base b))) (vcb_header b))).
  - by eapply (follows_fb v (mkFallbackBlock (mkBlockBase h (bb_cosigs (fbb_base b)) (bb_timestamp (fbb_base b))) (fbb_header b))).
Qed.

Lemma follow_all_snoc v bs b v' :
  follow_all v (bs ++ [b]) v' <-> exists v1, follow_all v bs v1 /\ follows v1 b v'.
Proof.
  revert v. induction bs as [|b0 bs IH]; intros v; cbn [app].
  - split.
    + intros Hf. inversion Hf as [|? ? v1 ? ? Hb Hn]; subst. inversion Hn; subst. exists v. split; [constructor|done].
    + intros (v1 & Hn & Hb). inversion Hn; subst. econstructor; [done|constructor].
  - split.
    + intros Hf. inversion Hf as [|? ? v1 ? ? Hb Hn]; subst. apply IH in Hn as (v2 & Hn & Hl).
      exists v2. split; [by econstructor|done].
    + intros (v2 & Hn & Hl). inversion Hn as [|? ? v1 ? ? Hb Hr]; subst. econstructor; [done|]. apply IH. by exists v2.
Qed.

(** the hash of the last block is taken on trust.  The committee signs the
    header; the hash stored with a block comes from the message and is never
    compared with the header's.  If a sequence is accepted, the same sequence with
    any hash on its last block is accepted with the same committee, and the next
    block is then expected to name that hash. *)
Theorem last_hash_trusted m bs b comm last link links hist comm' m' h :
  catching_up m (bs ++ [b]) comm last link links hist -> zlen h = 32 ->
  CheckDirBlocks m (bs ++ [b]) comm (zlen links) = Ret (true, Some comm', m') ->
  (exists m'', CheckDirBlocks m (bs ++ [with_hash h b]) comm (zlen links) = Ret (true, Some comm', m'')) /\
  exists v, follow_all (start_view comm last link) (bs ++ [with_hash h b]) v /\ v_hash v = h.
Proof.
  intros Hcu Hh E.
  assert (catching_up m (bs ++ [with_hash h b]) comm last link links hist) as Hcu'.
  { destruct Hcu as [Hl Hk Hs Hn Hi Hz Hha]. rewrite zlen_app in Hn, Hi. change (zlen [b]) with 1 in Hn, Hi.
    apply Forall_app in Hha as [Hha _]. split; [done|done|done|by rewrite zlen_app|by rewrite zlen_app| |].
    - assert (growths (bs ++ [with_hash h b]) = growths (bs ++ [b])) as ->; [|done].
      unfold growths. rewrite !foldr_app. by destruct b.
    - apply Forall_app. split; [done|]. apply Forall_singleton. by destruct b. }
  destruct (proj1 (CheckDirBlocks_iff _ _ _ _ _ _ _ comm' Hcu) (ex_intro _ m' E)) as (v & Hv & <-).
  apply follow_all_snoc in Hv as (v1 & Hv1 & Hb). apply (follows_with_hash _ _ _ h) in Hb.
  assert (follow_all (start_view comm last link) (bs ++ [with_hash h b]) (mkView (v_comm v) (v_num v) h (v_shardingHash v)))
    as Hall by (apply follow_all_snoc; by exists v1).
  split; [|by eexists]. apply (CheckDirBlocks_iff _ _ _ _ _ _ _ _ Hcu'). by eexists.
Qed.

End acceptance.

(** ** Which final blocks are accepted *)

Section txblocks.
Context `{Hnf : OpenSSLNoFail} `{HeaderProto TxBlockHeader}.
Implicit Types (txBlocks : list TxBlock).

(** Each block names the hash of the one before it. *)
Definition hash_linked txBlocks (upto : nat) : Prop :=
  forall j a b, (j < upto)%nat -> txBlocks !! j = Some a -> txBlocks !! S j = Some b ->
    hb_prevHash (txh_base (txb_header b)) = GetMyHash (txb_header a).

Lemma check_hashes_iff txBlocks i h x :
  zlen txBlocks < 2 ^ 32 -> txBlocks !! i = Some x ->
  check_hashes txBlocks (S i) (Z.of_nat i) h = Ret true <->
  h = GetMyHash (txb_header x) /\ hash_linked txBlocks i.
Proof.
  intros Hl. revert h x. induction i as [|i IH]; intros h x Hx; pose proof (lookup_lt_Some _ _ _ Hx) as Hlt;
    cbn [check_hashes]; rewrite (at_of_nat _ _ _ Hx); cbn [mbind outcome_bind].
  - destruct (bool_decide_reflect (h = GetMyHash (txb_header x))) as [Hh|Hh]; cbn [negb].
    + split; [|done]. intros _. split; [done|]. intros j a b Hj. lia.
    + split; [done|]. by intros [? _].
  - destruct (bool_decide_reflect (h = GetMyHash (txb_header x))) as [Hh|Hh]; cbn [negb].
    2: { split; [done|]. by intros [? _]. }
    assert (u32 (Z.of_nat (S i) - 1) = Z.of_nat i) as ->
      by (rewrite wrap_small; [lia|unfold in_range; unfold zlen in Hl; lia]).
    destruct (lookup_lt_is_Some_2 txBlocks i) as [y Hy]; [lia|].
    change (check_hashes txBlocks (S i) (Z.of_nat i) (hb_prevHash (txh_base (txb_header x))) = Ret true <->
            h = GetMyHash (txb_header x) /\ hash_linked txBlocks (S i)).
    rewrite (IH _ y Hy). split.
    + intros [Hp Hch]. split; [done|]. intros j a b Hj Ha Hb. destruct (decide (j = i)) as [->|]; [|apply (Hch j); [lia|done..]].
      congruence.
    + intros [_ Hch]. split; [by apply (Hch i y x); [lia|..]|]. intros j a b Hj. apply Hch. lia.
Qed.

(** The directory number of the newest final block that [link] allows. *)
Definition expected_ds (link : BlockLink) : option Z :=
  if bl_type link =? BlockType_value BT_DS then Some (bl_dsindex link)
  else if bl_dsindex link =? 0 then None else Some (bl_dsindex link - 1).

(** The last block and its predecessor complete the chain. *)
Lemma hash_linked_last txBlocks b x :
  (txBlocks ++ [b]) !! pred (length txBlocks) = Some x -> (0 < length txBlocks)%nat ->
  hb_prevHash (txh_base (txb_header b)) = GetMyHash (txb_header x) /\
  hash_linked (txBlocks ++ [b]) (pred (length txBlocks)) <-> hash_linked (txBlocks ++ [b]) (length txBlocks).
Proof.
  intros Hx Hpos. assert ((txBlocks ++ [b]) !! length txBlocks = Some b) as Hb by (by rewrite list_lookup_middle).
  assert (length txBlocks = S (pred (length txBlocks))) as Hlen by lia. split.
  - intros [Hp Hr] j u w Hj Hu Hw. destruct (decide (j = pred (length txBlocks))) as [->|]; [|apply (Hr j); [lia|done..]].
    rewrite <- Hlen in Hw. congruence.
  - intros Hr. split; [by apply (Hr (pred (length txBlocks))); [lia|..|rewrite <- Hlen]|].
    intros j u w Hj. apply Hr. lia.
Qed.

(** The loop over the earlier blocks. *)
Lemma check_hashes_chain txBlocks b :
  zlen (txBlocks ++ [b]) < 2 ^ 32 -> (0 < length txBlocks)%nat ->
  check_hashes (txBlocks ++ [b]) (pred (length (txBlocks ++ [b]))) (u32 (zlen (txBlocks ++ [b]) - 2))
    (hb_prevHash (txh_base (txb_header b))) = Ret true <-> hash_linked (txBlocks ++ [b]) (length txBlocks).
Proof.
  intros Hl Hpos. rewrite zlen_app in Hl |- *. rewrite length_app. change (zlen [b]) with 1 in *. cbn [length].
  destruct (lookup_lt_is_Some_2 (txBlocks ++ [b]) (pred (length txBlocks))) as [x Hx]; [rewrite length_app; cbn; lia|].
  rewrite <- (hash_linked_last txBlocks b x Hx Hpos).
  replace (pred (length txBlocks + 1)) with (S (pred (length txBlocks))) by lia.
  rewrite (wrap_small 32) by (unfold in_range, zlen in *; lia).
  replace (zlen txBlocks + 1 - 2) with (Z.of_nat (pred (length txBlocks))) by (unfold zlen; lia).
  apply check_hashes_iff; [|done]. rewrite zlen_app. done.
Qed.

(** C10: a node that catches up accepts exactly the final blocks that form a signed
    chain.  [CheckTxBlocks] says VALID for a non-empty list if and only if the last
    block belongs to the directory epoch of the latest link, carries exactly the
    required number of signatures of the committee, and every other block is the
    one whose header hash its successor names. *)
Theorem tx_blocks_valid_iff txBlocks b dsComm link :
  zlen (txBlocks ++ [b]) < 2 ^ 32 -> zlen dsComm < 2 ^ 32 ->
  CheckTxBlocks (txBlocks ++ [b]) dsComm link = Ret VALID <->
  expected_ds link = Some (txh_dsBlockNum (txb_header b)) /\
  signed_by (fst <$> dsComm) (txb_base b) (txb_header b) /\
  hash_linked (txBlocks ++ [b]) (length txBlocks).
Proof.
  intros Hl Hc. pose proof (check_hashes_chain txBlocks b Hl) as Hch.
  assert (CheckBlockCosignature (txb_header b) (txb_base b) (fst <$> dsComm) = Ret true <->
          signed_by (fst <$> dsComm) (txb_base b) (txb_header b)) as Hsig
    by (apply CheckBlockCosignature_iff; by rewrite zlen_fmap).
  unfold CheckTxBlocks. assert (at_ (txBlocks ++ [b]) (zlen (txBlocks ++ [b]) - 1) = Ret b) as ->.
  { rewrite zlen_app. change (zlen [b]) with 1. replace (zlen txBlocks + 1 - 1) with (Z.of_nat (length txBlocks)) by (unfold zlen; lia).
    apply at_of_nat. by rewrite list_lookup_middle. }
  assert (expected_ds link = Some (txh_dsBlockNum (txb_header b)) <->
    (negb (bl_type link =? BlockType_value BT_DS) && (bl_dsindex link =? 0) = false /\
     txh_dsBlockNum (txb_header b) = if negb (bl_type link =? BlockType_value BT_DS) then bl_dsindex link - 1 else bl_dsindex link))
    as Hexp.
  { unfold expected_ds. destruct (bl_type link =? BlockType_value BT_DS), (bl_dsindex link =? 0); cbn; intuition congruence. }
  rewrite Hexp, <- Hsig. clear Hexp Hsig.
  destruct (negb (bl_type link =? BlockType_value BT_DS) && (bl_dsindex link =? 0)); [split; [done|]; by intros [[? _] _]|].
  set (d := if negb _ then _ else _). cbn [mbind outcome_bind].
  destruct (Z.eqb_spec (txh_dsBlockNum (txb_header b)) d) as [Hd|Hd]; cbn [negb].
  2: { split; [by case_test|]. by intros [[_ ?] _]. }
  destruct (CheckBlockCosignature _ _ _) as [[]|f]; cbn [mbind outcome_bind negb];
    [|split; [done|]; by intros (_ & ? & _)..].
  destruct (Z.ltb_spec (zlen (txBlocks ++ [b])) 2) as [Hlt|Hge].
  { split; [|done]. intros _. split; [done|]. split; [done|]. intros j x y Hj. rewrite zlen_app in Hlt. unfold zlen in Hlt. cbn in Hlt. lia. }
  rewrite zlen_app in Hge. change (zlen [b]) with 1 in Hge. specialize (Hch ltac:(unfold zlen in Hge; lia)).
  rewrite <- Hch. destruct (check_hashes _ _ _ _) as [[]|]; cbn [mbind outcome_bind]; intuition congruence.
Qed.

End txblocks.

(** ** Examples: a committee of four on the cyclic group *)

Module ValidatorExamples.

#[local] Instance ds_proto : HeaderProto DSBlockHeader := fun h => Some [1; dsh_blockNum h].
#[local] Instance vc_proto : HeaderProto VCBlockHeader := fun h => Some [5; vch_VieWChangeDSEpochNo h].
#[local] Instance fb_proto : HeaderProto FallbackBlockHeader := fun h => Some [3; fbh_fallbackDSEpochNo h].
#[local] Instance tx_proto : HeaderProto TxBlockHeader := fun h => Some [4; txh_blockNum h].
#[local] Instance sh_proto : ShardingProto := fun version shards => Some [version; zlen shards].
#[local] Instance ds_bytes : ToBytes DSBlock := fun _ => [1].
#[local] Instance vc_bytes : ToBytes VCBlock := fun _ => [2].
#[local] Instance fb_bytes : ToBytes FallbackBlockWShardingStructure := fun _ => [3].
#[local] Existing Instance LinkExamples.count_proto.
#[local] Existing Instance LinkExamples.count_proto_spec.

#[local] Instance map_reliable : Reliable (DB := MapDB.db).
Proof. split; [done|done|by eexists]. Defined.

(** The three signers of the multisignature example and a fourth member. *)
Definition signers : list PubKey := sample_pubs.
Definition four : DequeOfNode :=
  (fun k => (k, Peer_new 1 2)) <$> (signers ++ [PubKey_from_priv (mkPrivKey 8)]).

Definition three_of_four : list bool := [true; true; true; false].

Definition cosign : bytes -> CoSignatures := CosigExample.cosign three_of_four.

Definition hash (n : Z) : bytes := replicate 32 n.

(** Directory block 0, and a view change after it that ejects the first member. *)
Definition block0 : DSBlock :=
  mkDSBlock (mkBlockBase (hash 7) (CoSignatures_new 1) 0)
    (mkDSHeader BlockHeaderBase_default 0 0 PubKey_default 0 0 0 [] [] (hash 0) []).
Definition view_change : VCBlock :=
  mkVCBlock (mkBlockBase (hash 8) (cosign [5; 1]) 0)
    (mkVCHeader (mkHeaderBase 0 (hash 0) (hash 7)) 1 0 0 Peer_default PubKey_default 0 (take 1 four)).

Lemma view_change_signed : signed_by (fst <$> four) (vcb_base view_change) (vcb_header view_change).
Proof. apply CheckBlockCosignature_iff; [done|]. vm_compute. reflexivity. Qed.

Definition four_after : DequeOfNode := drop 1 four ++ take 1 four.

(** A node that has the first block only. *)
Definition chain0 : CircularArray DSBlock :=
  match AddBlock chain_Reset block0 with Ret (_, c) => c | Fault _ => chain_Reset end.
Definition link0 : BlockLink := mkLink 1 0 0 0 (hash 7).
Definition added0 : outcome (bool * CircularArray BlockLink * LevelDB MapDB.db) :=
  AddBlockLink 1 links_Reset MapDB.opened 0 0 0 (hash 7).
Definition node0 : Mediator (DB := MapDB.db) :=
  match added0 with
  | Ret (_, c, db) => mkMediator chain0 c (set_store StorageExamples.empty_storage BLOCKLINK db)
  | Fault _ => mkMediator chain0 links_Reset StorageExamples.empty_storage
  end.

Definition catch_up0 (bs : list DirBlock) : Prop :=
  catching_up 1 node0 bs four block0 link0 [link0] (<[0 := block0]> ∅).

Lemma node0_links :
  links_refine 1 (m_blocklinkchain node0) (st_db (m_storage node0) BLOCKLINK) [link0].
Proof.
  destruct added0 as [[[ok c] db]|] eqn:E; [|exfalso; vm_compute in E; discriminate E].
  assert (ok = true) as -> by (vm_compute in E; injection E as <- _ _; reflexivity).
  unfold node0. rewrite E. cbn [m_blocklinkchain m_storage]. rewrite set_store_same.
  by destruct (AddBlockLink_next 1 links_Reset MapDB.opened [] 0 0 (hash 7) c db (links_Reset_refine 1 MapDB.opened eq_refl)
    eq_refl eq_refl E) as [_ Hl].
Qed.

Lemma node0_chain : chain_refines (m_dsBlockChain node0) (<[0 := block0]> ∅) 0.
Proof.
  destruct (AddBlock_newer chain_Reset ∅ (-1) block0 chain_Reset_refines) as (c & E & _ & Hc); [done..|].
  assert (m_dsBlockChain node0 = c) as -> by (unfold node0, chain0; rewrite E; by destruct added0 as [[[? ?] ?]|]).
  exact Hc.
Qed.

Lemma node0_ready bs :
  zlen bs < 2 ^ 62 -> growths bs < 2 ^ 31 -> Forall (fun b => zlen (block_hash b) = 32) bs -> catch_up0 bs.
Proof.
  intros Hb Hg Hh. split; [reflexivity|reflexivity| |cbn; lia|change (zlen [link0]) with 1; lia|change (zlen four) with 4; lia|done].
  split; cbn [prevdsblocknum totalIndex mediator].
  - apply node0_chain.
  - done.
  - reflexivity.
  - apply node0_links.
  - reflexivity.
  - reflexivity.
  - split; [|reflexivity]. intros t _. unfold node0. destruct added0 as [[[ok c] db]|] eqn:E; [|reflexivity].
    cbn. case_decide; [|reflexivity]. vm_compute in E. injection E as _ _ <-. reflexivity.
Qed.

Abbreviation check0 := (CheckDirBlocks (DB := MapDB.db) (PubKey_from_priv (mkPrivKey 8)) false 0 false 1 1).

Lemma view_change_follows :
  follow_all (PubKey_from_priv (mkPrivKey 8)) false 0 1 (start_view four block0 link0) [DirVC view_change]
    (mkView four_after 0 (hash 8) (hash 0)).
Proof.
  econstructor; [|constructor].
  exact (follows_vc (PubKey_from_priv (mkPrivKey 8)) false 0 1 (start_view four block0 link0) view_change
           eq_refl view_change_signed eq_refl).
Qed.

Lemma dir_blocks_iff_witness : exists m, check0 node0 [DirVC view_change] four 1 = Ret (true, Some four_after, m).
Proof.
  apply (dir_blocks_iff (PubKey_from_priv (mkPrivKey 8)) false 0 false 1 1 node0 [DirVC view_change] four block0 link0 [link0]
    (<[0 := block0]> ∅) four_after); [apply node0_ready; [reflexivity|reflexivity|repeat constructor]|].
  eexists. split; [apply view_change_follows|reflexivity].
Defined.

(** The same without naming the theorem. *)
Lemma view_change_accepted : exists m, check0 node0 [DirVC view_change] four 1 = Ret (true, Some four_after, m).
Proof.
  apply (CheckDirBlocks_iff (PubKey_from_priv (mkPrivKey 8)) false 0 false 1 1 node0 [DirVC view_change] four block0 link0 [link0]
    (<[0 := block0]> ∅) four_after); [apply node0_ready; [reflexivity|reflexivity|repeat constructor]|].
  eexists. split; [apply view_change_follows|reflexivity].
Qed.

Lemma dir_blocks_recorded_witness :
  exists m, check0 node0 [DirVC view_change] four 1 = Ret (true, Some four_after, m) /\
    links_refine 1 (m_blocklinkchain m) (st_db (m_storage m) BLOCKLINK) [link0; mkLink 1 1 1 2 (hash 8)].
Proof.
  destruct view_change_accepted as [m Hm]. exists m. split; [exact Hm|].
  apply (dir_blocks_recorded (PubKey_from_priv (mkPrivKey 8)) false 0 false 1 1 node0 [DirVC view_change] four block0 link0 [link0]
    (<[0 := block0]> ∅) four_after m); [apply node0_ready; [reflexivity|reflexivity|repeat constructor]|exact Hm].
Defined.

Lemma last_hash_trusted_witness :
  exists m, check0 node0 [with_hash (hash 99) (DirVC view_change)] four 1 = Ret (true, Some four_after, m).
Proof.
  destruct view_change_accepted as [m Hm].
  destruct (last_hash_trusted (PubKey_from_priv (mkPrivKey 8)) false 0 false 1 1 node0 [] (DirVC view_change) four block0 link0 [link0]
    (<[0 := block0]> ∅) four_after m (hash 99)) as [Ha _];
    [apply node0_ready; [reflexivity|reflexivity|repeat constructor]|reflexivity|exact Hm|exact Ha].
Defined.

(** Two final blocks of the epoch of block 0. *)
Definition final (n : Z) (prev : bytes) (cosigs : CoSignatures) : TxBlock :=
  mkTxBlock (mkBlockBase (hash n) cosigs 0)
    (mkTxHeader (mkHeaderBase 0 (hash 0) prev) 0 0 0 n (hash 0) (hash 0) (hash 0) 0 PubKey_default 0) [].
Definition final1 : TxBlock := final 1 (hash 0) (CoSignatures_new 4).
Definition final2 : TxBlock := final 2 (GetMyHash (txb_header final1)) (cosign [4; 2]).

Lemma tx_blocks_valid_iff_witness : CheckTxBlocks [final1; final2] four link0 = Ret VALID.
Proof.
  apply (tx_blocks_valid_iff [final1] final2 four link0); [done|done|].
  split; [reflexivity|]. split.
  - apply CheckBlockCosignature_iff; [done|]. vm_compute. reflexivity.
  - intros j a b Hj Ha Hb. destruct j; [|cbn in Hj; lia]. injection Ha as <-. injection Hb as <-. reflexivity.
Defined.

End ValidatorExamples.
