(* ===== verification/Decision.v ===== *)
(** * From a decision to an accepted block

    The leader of a consensus that is [DONE] puts its two collective signatures and
    bit maps on the block ([SetCoSignatures]).  Here the promise of the consensus
    (a certificate of each round) meets what the checks of the other nodes ask of a
    block. *)

From stdpp Require Import base numbers relations list.
From S2P Require Import Prelude BitVector Peer OpenSSL Schnorr MultiSig ConsensusMessages ConsensusCommon ConsensusBackup.
From S2P Require Import ConsensusLeader LeaderProperties ConsensusSession BlockChain Blocks.
Open Scope Z_scope.

Import Leader.

Section certified.
Context `{Hnf : OpenSSLNoFail}.

(** The second certificate, over a message that ends in the first one, is what
    makes a header co-signed. *)
Lemma certificate_cosigned c m0 base :
  0 < zlen (m_committee c) <= 1000 ->
  certificate c (NumForConsensus (zlen (m_committee c))) (m_B2 c) (m_CS2 c) (m_messageToCosign c) ->
  append_round1 m0 (m_CS1 c) (m_B1 c) = Ret (m_messageToCosign c) ->
  cosigned (fst <$> m_committee c) (bb_cosigs (SetCoSignatures base c)) m0.
Proof.
  intros Hsz (Hl & Hn & key & Hk & Hv) Hm. unfold cosigned, SetCoSignatures. cbn [bb_cosigs cs_B2 cs_CS2 cs_CS1 cs_B1].
  rewrite length_fmap. split; [done|]. unfold zlen in Hn |- *. rewrite length_fmap. split; [done|].
  assert (count_true (m_B2 c) <> 0%nat) as Hne.
  { pose proof (NumForConsensus_ceil (zlen (m_committee c)) ltac:(lia)) as Hc. unfold zlen in *. zlia. }
  rewrite AggregateKeys_sum in Hk by done. injection Hk as <-.
  eexists _, _. split; [|split; [exact Hm|exact Hv]].
  rewrite select_fmap, AggregatePubKeys_some; [done|].
  intros E. apply Hne. rewrite <- (length_select (m_B2 c) (m_committee c)) by done. by destruct (select _ _).
Qed.

End certified.

Section decision.
Context `{Hnf : OpenSSLNoFail}.
Context `{!Proto CommitBody unit, !Proto ResponseBody unit, !Proto ChallengeBody unit,
          !Proto CollectiveSigBody unit, !Proto bytes unit, !Proto unit unit}.
Context (cfg : Config) (k d : Z) (committee : DequeOfNode) (l0 : ConsensusLeader).
Context (Hsession : session cfg k d committee l0).

(** C7: what the committee decides, the network accepts.  When a leader has
    reached [DONE], there is a first-round message such that every block whose
    serialized header is that message passes the checks of the other nodes for a
    directory, view-change and final block and the check of a node that catches
    up, once the leader has put its co-signatures on it. *)
Theorem decided_block_accepted `{HeaderProto DSBlockHeader, HeaderProto VCBlockHeader, HeaderProto TxBlockHeader}
    l base :
  rtc (leader_step cfg) l0 l -> m_state (lbase l) = DONE ->
  exists m0, append_round1 m0 (m_CS1 (lbase l)) (m_B1 (lbase l)) = Ret (m_messageToCosign (lbase l)) /\
    let signed := SetCoSignatures base (lbase l) in
    (forall h, header_proto h = Some m0 -> VerifyDSBlockCoSignature committee (mkDSBlock signed h) = Ret true) /\
    (forall h, header_proto h = Some m0 -> VerifyVCBlockCoSignature committee (mkVCBlock signed h) = Ret true) /\
    (forall h infos, header_proto h = Some m0 -> VerifyFinalBlockCoSignature committee (mkTxBlock signed h infos) = Ret true) /\
    (forall {Hd} `{HeaderProto Hd} (h : Hd), header_proto h = Some m0 ->
       CheckBlockCosignature h signed (fst <$> committee) = Ret true).
Proof.
  intros Hrun Hdone. destruct (reach_leader_inv cfg k d committee l0 Hsession l Hrun) as [Hst _ _ Hsi].
  pose proof (static_committee _ _ _ _ Hst) as Hcom. pose proof (static_num _ _ _ _ Hst) as Hnum.
  unfold state_inv in Hsi. rewrite Hdone in Hsi. destruct Hsi as (Hc2 & m0 & _ & Hm0).
  pose proof (session_size _ _ _ _ _ Hsession) as Hsz. exists m0. split; [done|]. intros signed.
  assert (cosigned (fst <$> committee) (bb_cosigs signed) m0) as Hco.
  { rewrite <- Hcom in Hsz |- *. apply certificate_cosigned; [lia| |done]. by rewrite <- Hnum. }
  apply cosig_check_iff in Hco; [|unfold zlen in *; rewrite length_fmap; lia].
  split; [|split; [|split]]; intros; match goal with Hp : header_proto _ = Some m0 |- _ => apply header_checked_some in Hp as [Hp1 Hp2] end.
  - unfold VerifyDSBlockCoSignature. cbn [dsb_header dsb_base]. by rewrite Hp1.
  - unfold VerifyVCBlockCoSignature. cbn [vcb_header vcb_base]. by rewrite Hp1.
  - unfold VerifyFinalBlockCoSignature. cbn [txb_header txb_base]. by rewrite Hp1.
  - unfold CheckBlockCosignature. by rewrite Hp2.
Qed.

End decision.

(** The session of five nodes: a header that is its own serialized form. *)
Module DecisionExample.

#[local] Instance raw_header : HeaderProto bytes := fun h => Some h.
#[local] Instance no_ds : HeaderProto DSBlockHeader := fun _ => None.
#[local] Instance no_vc : HeaderProto VCBlockHeader := fun _ => None.
#[local] Instance no_tx : HeaderProto TxBlockHeader := fun _ => None.

Lemma decided_block_accepted_witness :
  exists header : bytes,
    CheckBlockCosignature header (SetCoSignatures BlockBase_default (lbase (lead5 4))) (fst <$> committee5) = Ret true.
Proof.
  destruct (decided_block_accepted config1 11 77 committee5 leader5 session5 (lead5 4) BlockBase_default
              (lead5_reach 4 returned4) lead5_4_done) as (m0 & _ & _ & _ & _ & Hcheck).
  exists m0. apply (Hcheck bytes raw_header m0 eq_refl).
Defined.

End DecisionExample.
