(* ===== verification/ContractStorage.v ===== *)
(** * The states of contracts ([libPersistence/ContractStorage.cpp])

    The states of a contract are protobuf strings, each filed under an index (a
    hash); the indexes of a contract are a list filed under its address.  Both
    live in up to three layers: the temporary maps [t_...] of the micro block being
    processed, the maps [m_...] of the account store, and the databases.  The maps
    [r_...] undo a committed delta, [p_...] a chain of contract calls.

    Class [StateProto] is the generated protobuf code of the two messages. *)

From Stdlib Require Import String.
From stdpp Require Import base numbers gmap list.
From S2P Require Import Prelude OpenSSL Schnorr LevelDB Json.
Open Scope Z_scope.

(** [Contract::StateEntry] *)
Record StateEntry := mkStateEntry {
  se_vname : bytes;
  se_mutable : bool;
  se_type : bytes;
  se_value : bytes
}.

(** The message [ProtoStateData]: every field is optional. *)
Record ProtoStateData := mkProtoStateData {
  pd_version : option Z;
  pd_vname : option bytes;
  pd_ismutable : option bool;
  pd_type : option bytes;
  pd_value : option bytes
}.

Class StateProto := {
  index_serialize : list bytes -> bytes;
  index_parse : bytes -> list bytes;
  data_serialize : ProtoStateData -> bytes;
  data_parse : bytes -> ProtoStateData
}.

(** [Address.hex()]; an address is a number of 20 bytes. *)
Definition address_bytes (address : Z) : bytes := be_split 20 address.
Definition address_hex (address : Z) : bytes := hex (address_bytes address).

(** [fromHexChar]; [None] is -1. *)
Definition fromHexChar (c : Z) : option Z :=
  if (48 <=? c) && (c <=? 57) then Some (c - 48)
  else if (97 <=? c) && (c <=? 102) then Some (c - 97 + 10)
  else if (65 <=? c) && (c <=? 70) then Some (c - 65 + 10)
  else None.

(** The loop of [fromHex] over pairs of characters. *)
Fixpoint hex_pairs (s : bytes) : option bytes :=
  match s with
  | a :: b :: s =>
      match fromHexChar a, fromHexChar b, hex_pairs s with
      | Some h, Some l, Some rest => Some (u8 (h * 16 + l) :: rest)
      | _, _, _ => None
      end
  | _ => Some []
  end.

(** [fromHex(s, WhenError::Throw)]; the first digit of an odd string stands alone. *)
Definition fromHex (s : bytes) : outcome bytes :=
  let tail :=
    match s with
    | a :: b :: rest => if (a =? 48) && (b =? 120) then rest else s
    | _ => s
    end in
  match (if zlen s mod 2 =? 0 then hex_pairs tail
         else match tail with
              | a :: rest => match fromHexChar a, hex_pairs rest with
                             | Some h, Some r => Some (h :: r)
                             | _, _ => None
                             end
              | [] => None
              end) with
  | Some r => Ret r
  | None => Fault Thrown
  end.

(** [Address(string)]: any other length than 20 gives the null address. *)
Definition Address_of_string (s : bytes) : outcome Z :=
  b ← fromHex s; Ret (if zlen b =? 20 then be_combine b else 0).

(** [boost::lexical_cast] to an unsigned type of [w] bits; [None] is the exception. *)
Class LexicalCast := { lexical_cast : Z -> bytes -> option Z }.

Class LexicalCastSpec `{LexicalCast} : Prop :=
  { lexical_cast_range w s v : lexical_cast w s = Some v -> 0 <= v < 2 ^ w }.

Section messages.
Context `{StateProto} (CONTRACT_STATE_VERSION : Z).

Definition SetStateIndex (indexes : list bytes) : bool * bytes := proto_write (index_serialize indexes) [] 0.

(** [ProtobufToStateIndex]: an index is cut or filled up to 32 bytes. *)
Definition ProtobufToStateIndex (proto : list bytes) : list bytes := resize 32 0 <$> proto.

Definition GetStateIndex (src : bytes) : option (list bytes) :=
  if zlen src <=? 0 then None else Some (ProtobufToStateIndex (index_parse src)).

(** [StateDataToProtobuf]: a quote at the beginning and one at the end are
    dropped.  [front()] and [back()] of an empty string are undefined. *)
Definition strip_quotes (value : bytes) : outcome bytes :=
  match value with
  | [] => Fault Undefined
  | c :: rest =>
      let value := if c =? 34 then rest else value in
      match last value with
      | None => Fault Undefined
      | Some c => Ret (if c =? 34 then take (length value - 1) value else value)
      end
  end.

Definition SetStateData (entry : StateEntry) : outcome (bool * bytes) :=
  value ← strip_quotes (se_value entry);
  Ret (proto_write (data_serialize (mkProtoStateData (Some CONTRACT_STATE_VERSION) (Some (se_vname entry))
                                      (Some (se_mutable entry)) (Some (se_type entry)) (Some value))) [] 0).

(** The entry and the version. *)
Definition GetStateData (src : bytes) : option (StateEntry * Z) :=
  if zlen src <=? 0 then None
  else
    match data_parse src with
    | mkProtoStateData (Some version) (Some vname) (Some ismutable) (Some type) (Some value) =>
        Some (mkStateEntry vname ismutable type value, version)
    | _ => None
    end.

End messages.

Record ContractStorage (DB : Type) := mkContractStorage {
  m_codeDB : LevelDB DB;
  m_stateIndexDB : LevelDB DB;
  m_stateDataDB : LevelDB DB;
  m_stateIndexMap : gmap bytes bytes;
  m_stateDataMap : gmap bytes bytes;
  t_stateIndexMap : gmap bytes bytes;
  t_stateDataMap : gmap bytes bytes;
  r_stateIndexMap : gmap bytes bytes;
  r_stateDataMap : gmap bytes bytes;
  p_stateIndexMap : gmap bytes bytes;
  p_stateDataMap : gmap bytes bytes
}.
Arguments mkContractStorage {DB}.
Arguments m_codeDB {DB} _.
Arguments m_stateIndexDB {DB} _.
Arguments m_stateDataDB {DB} _.
Arguments m_stateIndexMap {DB} _.
Arguments m_stateDataMap {DB} _.
Arguments t_stateIndexMap {DB} _.
Arguments t_stateDataMap {DB} _.
Arguments r_stateIndexMap {DB} _.
Arguments r_stateDataMap {DB} _.
Arguments p_stateIndexMap {DB} _.
Arguments p_stateDataMap {DB} _.

Section storage.
Context `{OpenSSL} `{StateProto} {DB : Type} `{leveldb DB} (CONTRACT_STATE_VERSION : Z).
Implicit Types c : ContractStorage DB.

Definition set_code c db := mkContractStorage db (m_stateIndexDB c) (m_stateDataDB c)
  (m_stateIndexMap c) (m_stateDataMap c) (t_stateIndexMap c) (t_stateDataMap c)
  (r_stateIndexMap c) (r_stateDataMap c) (p_stateIndexMap c) (p_stateDataMap c).
Definition set_state_dbs c index data := mkContractStorage (m_codeDB c) index data
  (m_stateIndexMap c) (m_stateDataMap c) (t_stateIndexMap c) (t_stateDataMap c)
  (r_stateIndexMap c) (r_stateDataMap c) (p_stateIndexMap c) (p_stateDataMap c).
Definition set_m c index data := mkContractStorage (m_codeDB c) (m_stateIndexDB c) (m_stateDataDB c)
  index data (t_stateIndexMap c) (t_stateDataMap c)
  (r_stateIndexMap c) (r_stateDataMap c) (p_stateIndexMap c) (p_stateDataMap c).
Definition set_t c index data := mkContractStorage (m_codeDB c) (m_stateIndexDB c) (m_stateDataDB c)
  (m_stateIndexMap c) (m_stateDataMap c) index data
  (r_stateIndexMap c) (r_stateDataMap c) (p_stateIndexMap c) (p_stateDataMap c).
Definition set_r c index data := mkContractStorage (m_codeDB c) (m_stateIndexDB c) (m_stateDataDB c)
  (m_stateIndexMap c) (m_stateDataMap c) (t_stateIndexMap c) (t_stateDataMap c)
  index data (p_stateIndexMap c) (p_stateDataMap c).
Definition set_p c index data := mkContractStorage (m_codeDB c) (m_stateIndexDB c) (m_stateDataDB c)
  (m_stateIndexMap c) (m_stateDataMap c) (t_stateIndexMap c) (t_stateDataMap c)
  (r_stateIndexMap c) (r_stateDataMap c) index data.

(** ** Code *)

Definition PutContractCode c (address : Z) (code : bytes) : outcome (bool * ContractStorage DB) :=
  '(ret, db) ← Insert_string (m_codeDB c) (address_hex address) code; Ret (ret =? 0, set_code c db).

Definition PutContractCodeBatch c (batch : gmap bytes bytes) : outcome (bool * ContractStorage DB) :=
  '(ok, db) ← BatchInsert (m_codeDB c) batch; Ret (ok : bool, set_code c db).

Definition GetContractCode c (address : Z) : outcome bytes := Lookup_string (m_codeDB c) (address_hex address).

Definition DeleteContractCode c (address : Z) : outcome (bool * ContractStorage DB) :=
  '(ret, db) ← DeleteKey_string (m_codeDB c) (address_hex address); Ret (ret =? 0, set_code c db).

(** ** Indexes *)

Definition GetIndex (address : Z) (key : bytes) (counter : Z) : bytes :=
  let sha2 := SHA2.Update (SHA2.Update SHA2.Reset (address_bytes address)) key in
  SHA256 (if negb (counter =? 0) then SHA2.Update sha2 (to_string counter) else sha2).

Definition CheckIndexExists c (index : bytes) : outcome bool :=
  if bool_decide (is_Some (t_stateDataMap c !! hex index)) || bool_decide (is_Some (m_stateDataMap c !! hex index))
  then Ret true
  else Exists_string (m_stateDataDB c) (hex index).

(** The loop of [GetNewIndex]: the next hash that is the contract's own or free. *)
Fixpoint new_index_loop (fuel : nat) c (address : Z) (key : bytes) (existing : list bytes) (counter : Z)
  : outcome bytes :=
  match fuel with
  | O => Fault StillSearching
  | S fuel =>
      let index := GetIndex address key counter in
      if bool_decide (index ∈ existing) then Ret index
      else
        taken ← CheckIndexExists c index;
        if taken : bool then new_index_loop fuel c address key existing (u32 (counter + 1)) else Ret index
  end.

Definition GetNewIndex (fuel : nat) c (address : Z) (key : bytes) (existing : list bytes) : outcome bytes :=
  new_index_loop fuel c address key existing 0.

(** The bytes the indexes of a contract are filed as: the temporary layer if asked
    for, the maps of the store, the database. *)
Definition raw_indexes c (address : Z) (temp : bool) : outcome (option bytes) :=
  match (if temp then t_stateIndexMap c !! address_hex address else None) with
  | Some raw => Ret (Some raw)
  | None =>
      match m_stateIndexMap c !! address_hex address with
      | Some raw => Ret (Some raw)
      | None =>
          found ← Exists_string (m_stateIndexDB c) (address_hex address);
          if found : bool then raw ← Lookup_string (m_stateIndexDB c) (address_hex address); Ret (Some raw)
          else Ret None
      end
  end.

Definition GetContractStateIndexes c (address : Z) (temp : bool) : outcome (list bytes) :=
  raw ← raw_indexes c address temp;
  Ret (match raw with Some raw => default [] (GetStateIndex raw) | None => [] end).

Definition SetContractStateIndexes c (address : Z) (indexes : list bytes) (temp revertible : bool)
  : bool * ContractStorage DB :=
  let '(ok, rawBytes) := SetStateIndex indexes in
  if negb ok then (false, c)
  else if temp then
    (true, set_t c (<[address_hex address := rawBytes]> (t_stateIndexMap c)) (t_stateDataMap c))
  else
    let c :=
      if revertible then
        set_r c (<[address_hex address := default [] (m_stateIndexMap c !! address_hex address)]> (r_stateIndexMap c))
          (r_stateDataMap c)
      else c in
    (true, set_m c (<[address_hex address := rawBytes]> (m_stateIndexMap c)) (m_stateDataMap c)).

(** ** States *)

(** One entry of [PutContractState]: the index list and the storage after it. *)
Definition put_entry (temp revertible : bool) (st : list bytes * ContractStorage DB) (entry : bytes * bytes)
  : list bytes * ContractStorage DB :=
  let '(entry_indexes, c) := st in
  let '(index, value) := entry in
  (if bool_decide (index ∈ entry_indexes) then entry_indexes else entry_indexes ++ [index],
   if temp then set_t c (t_stateIndexMap c) (<[hex index := value]> (t_stateDataMap c))
   else
     let c :=
       if revertible then
         set_r c (r_stateIndexMap c)
           (<[hex index := default [] (m_stateDataMap c !! hex index)]> (r_stateDataMap c))
       else c in
     set_m c (m_stateIndexMap c) (<[hex index := value]> (m_stateDataMap c))).

(** The states read for a contract, index by index. *)
Definition read_state c (temp : bool) (index : bytes) : outcome bytes :=
  match (if temp then t_stateDataMap c !! hex index else None) with
  | Some raw => Ret raw
  | None =>
      match m_stateDataMap c !! hex index with
      | Some raw => Ret raw
      | None =>
          found ← Exists_string (m_stateDataDB c) (hex index);
          if found : bool then Lookup_string (m_stateDataDB c) (hex index) else Ret []
      end
  end.

Fixpoint read_states c (temp : bool) (indexes : list bytes) : outcome (list bytes) :=
  match indexes with
  | [] => Ret []
  | index :: indexes =>
      raw ← read_state c temp index;
      rest ← read_states c temp indexes;
      Ret (raw :: rest)
  end.

Definition GetContractStatesData c (address : Z) (temp : bool) : outcome (list bytes) :=
  if address =? 0 then Ret []
  else indexes ← GetContractStateIndexes c address temp; read_states c temp indexes.

Definition GetContractStateData c (index : bytes) (temp : bool) : outcome bytes :=
  match (if temp then t_stateDataMap c !! hex index else None) with
  | Some raw => Ret raw
  | None =>
      match m_stateDataMap c !! hex index with
      | Some raw => Ret raw
      | None => Lookup_string (m_stateDataDB c) (hex index)
      end
  end.

(** [dev::h256(digest)] as a number; the null hash is 0. *)
Definition GetContractStateHash c (address : Z) (temp : bool) : outcome Z :=
  if address =? 0 then Ret 0
  else
    rawStates ← GetContractStatesData c address temp;
    Ret (be_combine (SHA256 (foldl SHA2.Update SHA2.Reset rawStates))).

(** [PutContractState] of indexed entries: the result, the state hash after it
    (written only on success) and the storage. *)
Definition PutContractState_entries c (address : Z) (entries : list (bytes * bytes)) (stateHash : Z)
    (temp revertible : bool) (existing_indexes : list bytes) (provideExisting : bool)
  : outcome (bool * Z * ContractStorage DB) :=
  if address =? 0 then Ret (false, stateHash, c)
  else
    entry_indexes ← (if provideExisting then Ret existing_indexes else GetContractStateIndexes c address temp);
    let '(entry_indexes, c) := foldl (put_entry temp revertible) (entry_indexes, c) entries in
    let '(ok, c) := SetContractStateIndexes c address entry_indexes temp revertible in
    if negb ok then Ret (false, stateHash, c)
    else stateHash ← GetContractStateHash c address temp; Ret (true, stateHash, c).

(** The entries of [PutContractState] of named states; [None] when an encoding fails. *)
Fixpoint index_entries (fuel : nat) c (address : Z) (existing : list bytes) (states : list StateEntry)
  : outcome (option (list (bytes * bytes))) :=
  match states with
  | [] => Ret (Some [])
  | state :: states =>
      index ← GetNewIndex fuel c address (se_vname state) existing;
      '(ok, rawBytes) ← SetStateData CONTRACT_STATE_VERSION state;
      if negb (ok : bool) then Ret None
      else
        rest ← index_entries fuel c address existing states;
        Ret (match rest with Some rest => Some ((index, rawBytes) :: rest) | None => None end)
  end.

Definition PutContractState (fuel : nat) c (address : Z) (states : list StateEntry) (stateHash : Z) (temp : bool)
  : outcome (bool * Z * ContractStorage DB) :=
  entry_indexes ← GetContractStateIndexes c address true;
  entries ← index_entries fuel c address entry_indexes states;
  match entries with
  | None => Ret (false, stateHash, c)
  | Some entries => PutContractState_entries c address entries stateHash temp false entry_indexes true
  end.

(** ** States as JSON *)

Section state_json.
Context {J : Type} `{Json J} `{LexicalCast}.

(** The JSON object of a state; [None] skips a value that is not JSON. *)
Definition state_item (entry : StateEntry) : outcome (option J) :=
  value ← (match se_value entry with
           | c :: _ =>
               if (c =? 91) || (c =? 123) then Ret (convertStrtoJson (se_value entry))
               else Ret (Some (J_string (se_value entry)))
           | [] => Ret (Some (J_string (se_value entry)))
           end);
  match value with
  | None => Ret None
  | Some value =>
      item ← J_object J_null [(str "vname", J_string (se_vname entry)); (str "type", J_string (se_type entry));
                              (str "value", value)];
      Ret (Some item)
  end.

Definition is_scilla_version (entry : StateEntry) : bool :=
  bool_decide (se_vname entry = str "_scilla_version") && bool_decide (se_type entry = str "Uint32")
  && negb (se_mutable entry).

(** The loop of [GetContractStateJson]: the version found so far and both arrays;
    [None] is the early return. *)
Fixpoint state_json_loop (rawStates : list bytes) (version : option Z) (init state : J)
  : outcome (option (option Z * J * J)) :=
  match rawStates with
  | [] => Ret (Some (version, init, state))
  | rawState :: rawStates =>
      match GetStateData rawState with
      | None => Ret None
      | Some (entry, v) =>
          if negb (v =? CONTRACT_STATE_VERSION) then Ret None
          else
            match (if bool_decide (version = None) && is_scilla_version entry
                   then match lexical_cast 32 (se_value entry) with Some n => Some (Some n) | None => None end
                   else Some version) with
            | None => Ret None
            | Some version =>
                item ← state_item entry;
                match item with
                | None => state_json_loop rawStates version init state
                | Some item =>
                    if negb (se_mutable entry) then
                      init ← J_append init item; state_json_loop rawStates version init state
                    else
                      state ← J_append state item; state_json_loop rawStates version init state
                end
            end
      end
  end.

(** The two arrays and the Scilla version. *)
Definition GetContractStateJson c (address : Z) (temp : bool) : outcome (option (J * J * Z)) :=
  if address =? 0 then Ret None
  else
    rawStates ← GetContractStatesData c address temp;
    roots ← try_catch (state_json_loop rawStates None J_null J_null) (Ret None);
    Ret (match roots with
         | Some (Some version, init, state) => Some (init, state, version)
         | _ => None
         end).

End state_json.

(** ** Undoing *)

Definition BufferCurrentState c : ContractStorage DB := set_p c (t_stateIndexMap c) (t_stateDataMap c).

(** The buffer is moved out of, which leaves it empty. *)
Definition RevertPrevState c : ContractStorage DB := set_p (set_t c (p_stateIndexMap c) (p_stateDataMap c)) ∅ ∅.

(** [m[key] = value] for every entry of the undo map, an empty value erases. *)
Definition revert_map (r m : gmap bytes bytes) : gmap bytes bytes :=
  map_fold (fun k v m => if bool_decide (v = []) then delete k m else <[k := v]> m) m r.

Definition RevertContractStates c : ContractStorage DB :=
  set_m c (revert_map (r_stateIndexMap c) (m_stateIndexMap c)) (revert_map (r_stateDataMap c) (m_stateDataMap c)).

Definition InitRevertibles c : ContractStorage DB := set_r c ∅ ∅.

Definition InitTempState c : ContractStorage DB := set_t c ∅ ∅.

(** ** The databases *)

(** The values of the index database before [CommitStateDB]. *)
Fixpoint read_buffer (db : LevelDB DB) (keys : list bytes) : outcome (list (bytes * bytes)) :=
  match keys with
  | [] => Ret []
  | k :: keys =>
      v ← Lookup_string db k;
      rest ← read_buffer db keys;
      Ret ((k, v) :: rest)
  end.

(** Writing them back; a failure is only logged. *)
Fixpoint reset_buffer (db : LevelDB DB) (buffer : list (bytes * bytes)) : outcome (LevelDB DB) :=
  match buffer with
  | [] => Ret db
  | (k, v) :: buffer =>
      '(_, db) ← (if bool_decide (v = []) then DeleteKey_string db k else Insert_string db k v);
      reset_buffer db buffer
  end.

Definition CommitStateDB c : outcome (bool * ContractStorage DB) :=
  buffer ← read_buffer (m_stateIndexDB c) (map_to_list (m_stateIndexMap c)).*1;
  '(ok, index_db) ← BatchInsert (m_stateIndexDB c) (m_stateIndexMap c);
  if negb (ok : bool) then Ret (false, set_state_dbs c index_db (m_stateDataDB c))
  else
    '(ok, data_db) ← BatchInsert (m_stateDataDB c) (m_stateDataMap c);
    if negb (ok : bool) then
      index_db ← reset_buffer index_db buffer;
      Ret (false, set_state_dbs c index_db data_db)
    else Ret (true, InitTempState (set_m (set_state_dbs c index_db data_db) ∅ ∅)).

Definition ContractStorage_Reset (LOOKUP_NODE_MODE : bool) c : ContractStorage DB :=
  set_state_dbs (set_code c (ResetDB LOOKUP_NODE_MODE (m_codeDB c)).2)
    (ResetDB LOOKUP_NODE_MODE (m_stateIndexDB c)).2 (ResetDB LOOKUP_NODE_MODE (m_stateDataDB c)).2.

Definition ContractStorage_RefreshAll c : bool * ContractStorage DB :=
  let '(ret, code) := RefreshDB (m_codeDB c) in
  let c := set_code c code in
  if negb ret then (false, c)
  else
    let '(ret, index) := RefreshDB (m_stateIndexDB c) in
    let c := set_state_dbs c index (m_stateDataDB c) in
    if negb ret then (false, c)
    else
      let '(ret, data) := RefreshDB (m_stateDataDB c) in
      (ret, set_state_dbs c (m_stateIndexDB c) data).

End storage.

(** ** What a reader sees *)

Section reads.
Context `{OpenSSL} `{StateProto} {DB : Type} `{leveldbSpec DB}.
Implicit Types c : ContractStorage DB.

Definition databases_open c : Prop := m_open (m_stateIndexDB c) = true /\ m_open (m_stateDataDB c) = true.

(** A key looked up in the layers of the storage. *)
Definition layered (temp : bool) (t m : gmap bytes bytes) (db : LevelDB DB) (k : bytes) : option bytes :=
  match (if temp then t !! k else None) with
  | Some v => Some v
  | None =>
      match m !! k with
      | Some v => Some v
      | None => match stored db k with Some [] => None | o => o end
      end
  end.

Definition index_bytes c temp (address : Z) : option bytes :=
  layered temp (t_stateIndexMap c) (m_stateIndexMap c) (m_stateIndexDB c) (address_hex address).
Definition data_bytes c temp (k : bytes) : option bytes :=
  layered temp (t_stateDataMap c) (m_stateDataMap c) (m_stateDataDB c) k.

(** The indexes of a contract. *)
Definition indexes_of c temp (address : Z) : list bytes :=
  match index_bytes c temp address with Some raw => default [] (GetStateIndex raw) | None => [] end.

Lemma Exists_string_open (db : LevelDB DB) k :
  m_open db = true -> Exists_string db k = Ret (bool_decide (default [] (stored db k) <> [])).
Proof.
  intros Ho. unfold Exists_string, Lookup_string. rewrite lookup_value_open by done. cbn. do 2 f_equal.
  destruct (default [] (stored db k)) as [|x l]; [done|]. unfold zlen. cbn [length].
  rewrite bool_decide_eq_true_2 by done. destruct (Z.eqb_spec (Z.of_nat (S (length l))) 0); [lia|done].
Qed.

Lemma layered_db (temp : bool) (t m : gmap bytes bytes) (db : LevelDB DB) k (absent : outcome bytes) :
  m_open db = true ->
  match (if temp then t !! k else None) with
  | Some raw => Ret raw
  | None => match m !! k with
            | Some raw => Ret raw
            | None => found ← Exists_string db k; if found : bool then Lookup_string db k else absent
            end
  end = match layered temp t m db k with Some v => Ret v | None => absent end.
Proof.
  intros Ho. unfold layered. destruct (if temp then t !! k else None); [done|]. destruct (m !! k); [done|].
  rewrite Exists_string_open by done. cbn. unfold Lookup_string. rewrite lookup_value_open by done.
  destruct (stored db k) as [[|x l]|]; done.
Qed.

Lemma GetContractStateIndexes_open c address temp :
  databases_open c -> GetContractStateIndexes c address temp = Ret (indexes_of c temp address).
Proof.
  intros [Ho _]. unfold GetContractStateIndexes, raw_indexes, indexes_of, index_bytes, layered.
  destruct (if temp then t_stateIndexMap c !! address_hex address else None); [done|].
  destruct (m_stateIndexMap c !! address_hex address); [done|].
  rewrite Exists_string_open by done. cbn. unfold Lookup_string. rewrite lookup_value_open by done.
  destruct (stored _ _) as [[|x l]|]; done.
Qed.

Lemma read_state_open c temp i :
  databases_open c -> read_state c temp i = Ret (default [] (data_bytes c temp (hex i))).
Proof.
  intros [_ Ho]. unfold read_state. rewrite (layered_db temp _ _ _ _ (Ret [])) by done.
  unfold data_bytes. by destruct (layered _ _ _ _ _).
Qed.

Lemma read_states_open c temp is_ :
  databases_open c ->
  read_states c temp is_ = Ret ((fun i => default [] (data_bytes c temp (hex i))) <$> is_).
Proof. intros Ho. induction is_ as [|i l IH]; [done|]. cbn. rewrite read_state_open by done. cbn. by rewrite IH. Qed.

Lemma GetContractStatesData_open c address temp :
  databases_open c ->
  GetContractStatesData c address temp
  = Ret (if address =? 0 then []
         else (fun i => default [] (data_bytes c temp (hex i))) <$> indexes_of c temp address).
Proof.
  intros Ho. unfold GetContractStatesData. destruct (address =? 0); [done|].
  rewrite GetContractStateIndexes_open by done. cbn. by apply read_states_open.
Qed.

Lemma CheckIndexExists_open c i :
  databases_open c -> CheckIndexExists c i = Ret (bool_decide (is_Some (data_bytes c true (hex i)))).
Proof.
  intros [_ Ho]. unfold CheckIndexExists, data_bytes, layered.
  destruct (t_stateDataMap c !! hex i); [done|]. destruct (m_stateDataMap c !! hex i); [done|]. cbn.
  rewrite Exists_string_open by done. f_equal. destruct (stored _ _) as [[|x l]|]; cbn; done.
Qed.

(** Two storages that look the same. *)
Definition same_view temp c temp' c' : Prop :=
  (forall a, index_bytes c temp a = index_bytes c' temp' a) /\
  (forall k, data_bytes c temp k = data_bytes c' temp' k).

Lemma same_view_states temp c temp' c' address :
  databases_open c -> databases_open c' -> same_view temp c temp' c' ->
  GetContractStatesData c address temp = GetContractStatesData c' address temp'.
Proof.
  intros Ho Ho' [Hi Hd]. rewrite !GetContractStatesData_open by done. unfold indexes_of. rewrite Hi.
  do 2 f_equal. destruct (address =? 0); [done|]. apply list_fmap_ext. intros _ i _. by rewrite Hd.
Qed.

(** ** Moving the states to the disk *)

(** No state and no index list is the empty string. *)
Definition values_ok c : Prop :=
  map_Forall (fun _ v => v <> []) (m_stateIndexMap c) /\ map_Forall (fun _ v => v <> []) (m_stateDataMap c).

Lemma layered_batch (m : gmap bytes bytes) (db db' : LevelDB DB) k :
  map_Forall (fun _ v => v <> []) m ->
  BatchInsert db m = Ret (true, db') -> forall t : gmap bytes bytes, layered true ∅ ∅ db' k = layered false t m db k.
Proof.
  intros Hm (_ & _ & Hs)%BatchInsert_effect t. unfold layered. rewrite !lookup_empty, Hs.
  destruct (m !! k) as [v|] eqn:E; [|done]. rewrite bool_decide_eq_true_2 by by eapply Hm.
  pose proof (Hm k v E). cbn. by destruct v.
Qed.

(** A layer that shadows the database hides what happens to its keys. *)
Lemma layered_shadow (temp : bool) (t m : gmap bytes bytes) (db db' : LevelDB DB) k :
  (m !! k = None -> stored db' k = stored db k) -> layered temp t m db' k = layered temp t m db k.
Proof.
  intros Hs. unfold layered. destruct (if temp then _ else _); [done|].
  destruct (m !! k); [done|]. by rewrite Hs.
Qed.

Lemma reset_buffer_shadow (db db' : LevelDB DB) buffer k :
  reset_buffer db buffer = Ret db' -> m_open db = true ->
  m_open db' = true /\ (k ∉ buffer.*1 -> stored db' k = stored db k).
Proof.
  revert db. induction buffer as [|[k1 v1] buffer IH]; intros db E Ho; [by injection E as <-|].
  cbn in E. apply bind_Ret in E as ([ret db1] & E1 & E).
  assert (m_open db1 = true /\ (k <> k1 -> stored db1 k = stored db k)) as [Ho1 Hs1].
  { split.
    - case_bool_decide; unfold DeleteKey_string, delete_key, Insert_string, insert_key, with_db in E1;
        rewrite Ho in E1; [destruct (ldb_Delete _ _)|destruct (ldb_Put _ _ _)]; by injection E1 as <- <-.
    - intros Hk. case_bool_decide; [by eapply delete_key_other|by eapply insert_key_other]. }
  destruct (IH _ E Ho1) as [Ho' Hs']. split; [done|]. cbn. rewrite not_elem_of_cons. intros [Hk Hk'].
  by rewrite Hs', Hs1.
Qed.

Lemma read_buffer_keys (db : LevelDB DB) keys buffer : read_buffer db keys = Ret buffer -> buffer.*1 = keys.
Proof.
  revert buffer. induction keys as [|k keys IH]; intros buffer E; cbn in E; unbind E; [by injection E as <-|].
  injection E as <-. cbn. f_equal. by apply IH.
Qed.

(** Moving the states to the disk does not change them.  When [CommitStateDB]
    succeeds, the maps are empty and every contract reads from the databases what
    it read from the store before, also through the cleared temporary layer.  When
    one of the two batches fails, every contract reads what it read before, in both
    layers, even if the entries of the index database cannot be put back. *)
Theorem commit_keeps_states c ok c' :
  databases_open c -> values_ok c -> CommitStateDB c = Ret (ok, c') ->
  databases_open c' /\
  (ok = true -> m_stateIndexMap c' = ∅ /\ m_stateDataMap c' = ∅) /\
  forall address temp,
    GetContractStatesData c' address temp = GetContractStatesData c address (if ok then false else temp).
Proof.
  intros [Hi Hd] [Hvi Hvd] E. unfold CommitStateDB in E. unbind E. destruct v0 as [ok1 idb].
  pose proof (BatchInsert_effect _ _ _ _ E1) as (Hi1 & _ & Hs1).
  assert (forall k, m_stateIndexMap c !! k = None -> stored idb k = stored (m_stateIndexDB c) k) as Hother.
  { intros k Hk. by rewrite Hs1, Hk. }
  destruct ok1; cbn [negb] in E.
  2: { injection E as <- <-. assert (databases_open (set_state_dbs c idb (m_stateDataDB c))) as Ho by done.
       split; [done|]. split; [done|]. intros a temp. apply same_view_states; [done..|]. split; intros k.
       - apply layered_shadow. cbn. apply Hother.
       - done. }
  unbind E. destruct v0 as [ok2 ddb]. pose proof (BatchInsert_effect _ _ _ _ E2) as (Hd2 & _ & Hs2).
  destruct ok2; cbn [negb] in E.
  - injection E as <- <-. set (c1 := InitTempState _). assert (databases_open c1) as Ho by done.
    split; [done|]. split; [done|]. intros a temp. apply same_view_states; [done..|].
    split; intros k; (etrans; [|by eapply layered_batch]); by destruct temp.
  - unbind E. injection E as <- <-. destruct (reset_buffer_shadow _ _ _ [] E3 Hi1) as [Ho3 _].
    set (c1 := set_state_dbs _ _ _). assert (databases_open c1) as Ho by done.
    split; [done|]. split; [done|]. intros a temp. apply same_view_states; [done..|]. split; intros k.
    + apply layered_shadow. cbn. intros Hk. rewrite <- Hother by done.
      destruct (reset_buffer_shadow _ _ _ (address_hex k) E3 Hi1) as [_ Hs3]. apply Hs3.
      rewrite (read_buffer_keys _ _ _ E0). intros ([k1 v1] & E4 & Hin)%list_elem_of_fmap.
      apply elem_of_map_to_list in Hin. cbn in E4. congruence.
    + apply layered_shadow. cbn. intros Hk. by rewrite Hs2, Hk.
Qed.

End reads.

(** ** Contracts do not touch each other's states *)

Class StateProtoSpec `{StateProto} : Prop := {
  index_parse_serialize l : index_parse (index_serialize l) = l;
  index_serialize_empty l : index_serialize l = [] -> l = []
}.

Definition is_address (a : Z) : Prop := 0 <= a < 2 ^ 160.

Lemma address_hex_inj a b : is_address a -> is_address b -> address_hex a = address_hex b -> a = b.
Proof.
  unfold address_hex, address_bytes, is_address. intros Ha Hb E.
  apply hex_inj in E; [|apply be_split_ok..].
  apply (f_equal be_combine) in E. rewrite !be_combine_split in E.
  rewrite !Z.mod_small in E by (change (256 ^ Z.of_nat 20) with (2 ^ 160); lia). done.
Qed.

Section isolation.
Context `{OpenSSLSpec} `{StateProtoSpec} {DB : Type} `{leveldbSpec DB} (CONTRACT_STATE_VERSION : Z).
Implicit Types c : ContractStorage DB.

Record storage_ok c : Prop := {
  so_open : databases_open c;
  so_disjoint a b i j : is_address a -> is_address b -> a <> b ->
    i ∈ indexes_of c true a -> j ∈ indexes_of c true b -> hex i <> hex j;
  so_filed a i : is_address a -> i ∈ indexes_of c true a -> is_Some (data_bytes c true (hex i))
}.

(** An index the contract may write to: its own, or one nobody uses. *)
Definition may_write c (existing : list bytes) (i : bytes) : Prop :=
  length i = 32%nat /\ (i ∈ existing \/ data_bytes c true (hex i) = None).

Lemma GetNewIndex_may_write fuel c address key existing i :
  databases_open c -> GetNewIndex fuel c address key existing = Ret i -> may_write c existing i.
Proof.
  intros Ho. unfold GetNewIndex. generalize 0 at 1. induction fuel as [|fuel IH]; intros counter E; [done|].
  cbn in E. case_bool_decide as Hin.
  - injection E as <-. split; [apply sha256_len|by left].
  - rewrite CheckIndexExists_open in E by done. cbn in E. case_bool_decide as Hs; [by eapply IH|].
    injection E as <-. split; [apply sha256_len|right]. by apply eq_None_not_Some.
Qed.

Lemma index_entries_may_write fuel c address existing states entries :
  databases_open c ->
  index_entries CONTRACT_STATE_VERSION fuel c address existing states = Ret (Some entries) ->
  Forall (fun e => may_write c existing e.1) entries.
Proof.
  intros Ho. revert entries. induction states as [|s states IH]; intros entries E; cbn in E; [by injection E as <-|].
  unbind E. destruct v0 as [ok raw]. destruct ok; cbn [negb] in E; [|done]. unbind E.
  destruct v0 as [rest|]; [|done]. injection E as <-. constructor; [|by apply IH].
  by eapply GetNewIndex_may_write.
Qed.

(** The index list and the temporary map after the entries. *)
Definition add_index (l : list bytes) (i : bytes) : list bytes := if bool_decide (i ∈ l) then l else l ++ [i].
Definition file_entry (m : gmap bytes bytes) (e : bytes * bytes) : gmap bytes bytes := <[hex e.1 := e.2]> m.

Lemma put_entries_temp (entries : list (bytes * bytes)) l c :
  foldl (put_entry true false) (l, c) entries
  = (foldl add_index l entries.*1, set_t c (t_stateIndexMap c) (foldl file_entry (t_stateDataMap c) entries)).
Proof.
  revert l c. induction entries as [|[i v] entries IH]; intros l c; [by destruct c|].
  cbn [foldl]. unfold put_entry at 2. rewrite IH. cbn. by destruct c.
Qed.

Lemma elem_of_add_indexes i l is_ : i ∈ foldl add_index l is_ <-> i ∈ l \/ i ∈ is_.
Proof.
  revert l. induction is_ as [|x is_ IH]; intros l; cbn.
  - rewrite elem_of_nil. naive_solver.
  - rewrite IH, elem_of_cons. unfold add_index. case_bool_decide; [naive_solver|].
    rewrite elem_of_app, list_elem_of_singleton. naive_solver.
Qed.

Lemma filed_other (entries : list (bytes * bytes)) m k :
  k ∉ hex <$> entries.*1 -> foldl file_entry m entries !! k = m !! k.
Proof.
  revert m. induction entries as [|[i v] entries IH]; intros m Hk; [done|].
  cbn in Hk. rewrite not_elem_of_cons in Hk. destruct Hk as [Hne Hk]. cbn. rewrite IH by done.
  by apply lookup_insert_ne.
Qed.

Lemma filed_some (entries : list (bytes * bytes)) m k :
  k ∈ hex <$> entries.*1 -> is_Some (foldl file_entry m entries !! k).
Proof.
  revert m. induction entries as [|[i v] entries IH]; intros m Hk; [by apply elem_of_nil in Hk|]. cbn.
  destruct (decide (k ∈ hex <$> entries.*1)) as [Hin|Hout]; [by apply IH|].
  cbn in Hk. apply elem_of_cons in Hk as [->|Hk]; [|done]. rewrite filed_other by done.
  unfold file_entry. cbn. rewrite lookup_insert_eq. eauto.
Qed.

(** What is read of an index that was written last. *)
Lemma filed_last (entries : list (bytes * bytes)) m i v post :
  hex i ∉ hex <$> post.*1 -> foldl file_entry m (entries ++ (i, v) :: post) !! hex i = Some v.
Proof. intros Hk. rewrite foldl_app. cbn. rewrite filed_other by done. apply lookup_insert_eq. Qed.

Lemma indexes_of_length c temp a i : i ∈ indexes_of c temp a -> length i = 32%nat.
Proof.
  unfold indexes_of. destruct (index_bytes c temp a) as [raw|]; [|by intros ?%elem_of_nil].
  unfold GetStateIndex. destruct (zlen raw <=? 0); cbn; [by intros ?%elem_of_nil|].
  unfold ProtobufToStateIndex. intros (x & -> & _)%list_elem_of_fmap. apply length_resize.
Qed.

(** An index list of 32-byte hashes is read back. *)
Lemma GetStateIndex_Set l : Forall (fun i : bytes => length i = 32%nat) l ->
  (SetStateIndex l).1 = true /\ default [] (GetStateIndex (SetStateIndex l).2) = l.
Proof.
  intros Hl. unfold SetStateIndex. split; [done|].
  rewrite (proto_write_append (index_serialize l) [] : (proto_write (index_serialize l) [] 0).2 = _). cbn [app].
  unfold GetStateIndex. destruct (Z.leb_spec (zlen (index_serialize l)) 0) as [Hz|Hz].
  - symmetry. apply index_serialize_empty. unfold zlen in Hz. destruct (index_serialize l); [done|cbn in *; lia].
  - cbn. rewrite index_parse_serialize. unfold ProtobufToStateIndex. clear Hz.
    induction Hl as [|i l Hi Hl IH]; [done|]. cbn. rewrite IH. f_equal. rewrite <- Hi. apply resize_all.
Qed.

(** The storage after a write to the temporary layer. *)
Lemma PutContractState_temp fuel c a states h ok h' c' :
  storage_ok c -> is_address a -> a <> 0 ->
  PutContractState CONTRACT_STATE_VERSION fuel c a states h true = Ret (ok, h', c') ->
  (ok = false /\ c' = c /\ h' = h) \/
  exists entries, ok = true /\ Forall (fun e => may_write c (indexes_of c true a) e.1) entries /\
    index_entries CONTRACT_STATE_VERSION fuel c a (indexes_of c true a) states = Ret (Some entries) /\
    c' = set_t c (<[address_hex a := (SetStateIndex (foldl add_index (indexes_of c true a) entries.*1)).2]>
                    (t_stateIndexMap c)) (foldl file_entry (t_stateDataMap c) entries) /\
    GetContractStateHash c' a true = Ret h'.
Proof.
  intros Hok Ha H0' E. unfold PutContractState in E.
  rewrite GetContractStateIndexes_open in E by apply Hok. cbn [mbind outcome_bind] in E. unbind E.
  destruct v as [entries|]; [right|injection E as <- <- <-; by left].
  unfold PutContractState_entries in E. destruct (Z.eqb_spec a 0); [done|].
  cbn [mbind outcome_bind] in E. rewrite put_entries_temp in E. cbn [mbind outcome_bind] in E.
  unfold SetContractStateIndexes in E.
  destruct (SetStateIndex _) as [ok1 raw] eqn:Er. assert (ok1 = true) as -> by (unfold SetStateIndex in Er; by injection Er as <- <-).
  cbn [negb] in E. unbind E. injection E as <- <- <-. exists entries. split; [done|].
  split; [by eapply index_entries_may_write; [apply Hok|]|]. split; [done|]. rewrite Er. split; [by destruct c|done].
Qed.

(** The lists and the data after a successful write. *)
Lemma written_indexes c a entries :
  storage_ok c -> is_address a -> Forall (fun e => may_write c (indexes_of c true a) e.1) entries ->
  let c' := set_t c (<[address_hex a := (SetStateIndex (foldl add_index (indexes_of c true a) entries.*1)).2]>
                    (t_stateIndexMap c)) (foldl file_entry (t_stateDataMap c) entries) in
  (forall b, is_address b -> b <> a -> indexes_of c' true b = indexes_of c true b) /\
  indexes_of c' true a = foldl add_index (indexes_of c true a) entries.*1 /\
  (forall b j, is_address b -> b <> a -> j ∈ indexes_of c true b ->
     data_bytes c' true (hex j) = data_bytes c true (hex j)) /\
  (forall i, i ∈ foldl add_index (indexes_of c true a) entries.*1 -> is_Some (data_bytes c' true (hex i))).
Proof.
  intros Hok Ha He c'. rewrite Forall_forall in He.
  assert (forall b, is_address b -> b <> a -> indexes_of c' true b = indexes_of c true b) as Hother.
  { intros b Hb Hne. unfold indexes_of, index_bytes, layered. cbn. rewrite lookup_insert_ne; [done|].
    intros E. by apply address_hex_inj in E. }
  assert (forall k, k ∉ hex <$> entries.*1 -> data_bytes c' true k = data_bytes c true k) as Hkeep.
  { intros k Hk. unfold data_bytes, layered. cbn. by rewrite filed_other. }
  split; [done|]. split; [|split].
  - assert (Forall (fun i : bytes => length i = 32%nat) (foldl add_index (indexes_of c true a) entries.*1)) as H32.
    { apply Forall_forall. intros i [Hi|Hi]%elem_of_add_indexes; [by eapply indexes_of_length|].
      apply list_elem_of_fmap in Hi as (e & -> & Hi). by apply He. }
    unfold indexes_of at 1, index_bytes, layered. cbn [t_stateIndexMap c' set_t]. rewrite lookup_insert_eq.
    by apply GetStateIndex_Set.
  - intros b j Hb Hne Hj. apply Hkeep. intros (i & Hij & Hi)%list_elem_of_fmap.
    apply list_elem_of_fmap in Hi as (e & -> & Hi). destruct (He _ Hi) as [_ [Hown|Hfree]].
    + by apply (so_disjoint c Hok a b e.1 j).
    + rewrite <- Hij in Hfree. pose proof (so_filed c Hok b j Hb Hj) as Hs. rewrite Hfree in Hs. by destruct Hs.
  - intros i Hi. destruct (decide (hex i ∈ hex <$> entries.*1)) as [Hin|Hout].
    + unfold data_bytes, layered. cbn. destruct (filed_some entries (t_stateDataMap c) _ Hin) as [v ->]. eauto.
    + rewrite Hkeep by done. apply (so_filed c Hok a i Ha). apply elem_of_add_indexes in Hi as [Hi|Hi]; [done|].
      destruct Hout. by apply list_elem_of_fmap_2.
Qed.

(** C32: Contracts do not touch each other's states.  In a storage whose contracts
    have disjoint lists of filed indexes, writing states of one contract into the
    temporary layer keeps that so, leaves what every other contract reads and
    everything below the temporary layer as it was, and, when it succeeds, lists
    every index it wrote and reads back under it the value written last. *)
Theorem contract_states_isolated fuel c a states h ok h' c' :
  storage_ok c -> is_address a -> a <> 0 ->
  PutContractState CONTRACT_STATE_VERSION fuel c a states h true = Ret (ok, h', c') ->
  storage_ok c' /\
  (forall b, is_address b -> b <> a -> GetContractStatesData c' b true = GetContractStatesData c b true) /\
  (forall b, GetContractStatesData c' b false = GetContractStatesData c b false) /\
  (ok = true -> exists entries,
     index_entries CONTRACT_STATE_VERSION fuel c a (indexes_of c true a) states = Ret (Some entries) /\
     forall pre i v post, entries = pre ++ (i, v) :: post -> hex i ∉ hex <$> post.*1 ->
       GetContractStateIndexes c' a true = Ret (indexes_of c' true a) /\ i ∈ indexes_of c' true a /\
       GetContractStateData c' i true = Ret v).
Proof.
  intros Hok Ha H0' E. destruct (PutContractState_temp _ _ _ _ _ _ _ _ Hok Ha H0' E)
    as [(-> & -> & _)|(entries & -> & He & Hie & Hc' & Hh)]; [done|].
  destruct (written_indexes c a entries Hok Ha He) as (Hother & Hown & Hdata & Hfiled). rewrite <- Hc' in *.
  assert (databases_open c') as Ho' by (rewrite Hc'; apply Hok).
  assert (forall b j i, is_address b -> b <> a -> j ∈ indexes_of c true b ->
    i ∈ foldl add_index (indexes_of c true a) entries.*1 -> hex i <> hex j) as Hdis.
  { intros b j i Hb Hne Hj [Hi|Hi]%elem_of_add_indexes Hij; [by apply (so_disjoint c Hok a b i j)|].
    apply list_elem_of_fmap in Hi as (e & -> & Hi). rewrite Forall_forall in He.
    destruct (He _ Hi) as [_ [Hin|Hfree]]; [by apply (so_disjoint c Hok a b e.1 j)|].
    rewrite Hij in Hfree. pose proof (so_filed c Hok b j Hb Hj) as Hs. rewrite Hfree in Hs. by destruct Hs. }
  split; [split|split; [|split]].
  - done.
  - intros a1 b1 i j Ha1 Hb1 Hne Hi Hj. destruct (decide (a1 = a)) as [->|Hne1], (decide (b1 = a)) as [->|Hne2].
    + done.
    + rewrite Hown in Hi. rewrite Hother in Hj by done. by apply (Hdis b1).
    + rewrite Hown in Hj. rewrite Hother in Hi by done. apply not_eq_sym. by apply (Hdis a1).
    + rewrite Hother in Hi, Hj by done. by apply (so_disjoint c Hok a1 b1).
  - intros b i Hb Hi. destruct (decide (b = a)) as [->|Hne]; [rewrite Hown in Hi; by apply Hfiled|].
    rewrite Hother in Hi by done. rewrite (Hdata b) by done. by apply (so_filed c Hok b).
  - intros b Hb Hne. rewrite !GetContractStatesData_open by (done || apply Hok). rewrite Hother by done.
    do 2 f_equal. destruct (b =? 0); [done|]. apply list_fmap_ext. intros n j Hj%list_elem_of_lookup_2.
    by rewrite (Hdata b).
  - intros b. apply same_view_states; [done|apply Hok|]. rewrite Hc'. done.
  - intros _. exists entries. split; [done|]. intros pre i v post Hsplit Hpost.
    split; [by apply GetContractStateIndexes_open|]. rewrite Hown. split.
    + apply elem_of_add_indexes. right. rewrite Hsplit, fmap_app. apply elem_of_app. right. by left.
    + unfold GetContractStateData. rewrite Hc', Hsplit. cbn. by rewrite filed_last.
Qed.

(** ** A free index is found *)

(** The keys filed anywhere. *)
Definition filed_keys c : gset bytes :=
  dom (t_stateDataMap c) ∪ dom (m_stateDataMap c) ∪ list_to_set (ldb_entries (m_disk (m_stateDataDB c))).*1.

Lemma filed_keys_spec c k : is_Some (data_bytes c true k) -> k ∈ filed_keys c.
Proof.
  unfold data_bytes, layered, filed_keys. rewrite !elem_of_union, !elem_of_dom, elem_of_list_to_set.
  destruct (t_stateDataMap c !! k) eqn:Et; [by eauto|]. destruct (m_stateDataMap c !! k) eqn:Em; [by eauto|].
  intros [v Hv]. right. apply list_elem_of_fmap. exists (k, v). split; [done|]. apply ldb_get_entries.
  unfold stored in Hv. destruct (ldb_Get _ k) as [[|x l]|]; congruence.
Qed.

(** [GetNewIndex] ends: with more turns than there are filed states it finds an
    index, if the hashes of these turns are different. *)
Theorem GetNewIndex_returns fuel c address key existing :
  databases_open c -> Z.of_nat fuel < 2 ^ 32 ->
  (forall i j, 0 <= i < Z.of_nat fuel -> 0 <= j < Z.of_nat fuel ->
     hex (GetIndex address key i) = hex (GetIndex address key j) -> i = j) ->
  (size (filed_keys c) < fuel)%nat ->
  exists i, GetNewIndex fuel c address key existing = Ret i.
Proof.
  intros Ho Hf Hinj Hsize.
  assert (forall n counter, 0 <= counter -> counter + Z.of_nat n = Z.of_nat fuel ->
    (exists i, new_index_loop n c address key existing counter = Ret i) \/
    forall k, counter <= k < Z.of_nat fuel -> hex (GetIndex address key k) ∈ filed_keys c) as Hloop.
  { induction n as [|n IH]; intros counter Hc Hn; [right; intros; lia|]. cbn.
    case_bool_decide; [left; eauto|]. rewrite CheckIndexExists_open by done. cbn.
    case_bool_decide as Hs; [|left; eauto].
    rewrite (wrap_small 32 (counter + 1)) by (unfold in_range; lia).
    destruct (IH (counter + 1)) as [?|Hk]; [lia..|by left|right]. intros k Hr.
    destruct (decide (k = counter)) as [->|]; [by apply filed_keys_spec|apply Hk; lia]. }
  destruct (Hloop fuel 0) as [?|Hall]; [lia..|done|]. exfalso.
  set (ks := (fun n => hex (GetIndex address key (Z.of_nat n))) <$> seq 0 fuel).
  assert (NoDup ks) as Hnd.
  { apply NoDup_fmap_2_strong; [|apply NoDup_seq]. intros x y Hx%elem_of_seq Hy%elem_of_seq E.
    apply Hinj in E; lia. }
  assert (list_to_set ks ⊆ filed_keys c) as Hsub.
  { intros k Hk. apply elem_of_list_to_set, list_elem_of_fmap in Hk as (n & -> & Hn%elem_of_seq). apply Hall. lia. }
  apply subseteq_size in Hsub. rewrite size_list_to_set in Hsub by done.
  unfold ks in Hsub. rewrite length_fmap, length_seq in Hsub. lia.
Qed.

End isolation.

(** ** Witnesses: length-prefixed fields, databases that are maps *)

Module StateCodec.

Definition fields (l : list bytes) : bytes := l ≫= (fun f => zlen f :: f).

Fixpoint parse_fields (fuel : nat) (bs : bytes) : list bytes :=
  match fuel, bs with
  | S fuel, n :: bs => take (Z.to_nat n) bs :: parse_fields fuel (drop (Z.to_nat n) bs)
  | _, _ => []
  end.

Lemma parse_fields_spec l fuel : (length l <= fuel)%nat -> parse_fields fuel (fields l) = l.
Proof.
  revert fuel. induction l as [|f l IH]; intros [|fuel] Hf; cbn in *; try lia; try done.
  unfold zlen. rewrite Nat2Z.id, take_app_length, drop_app_length. f_equal. apply IH. lia.
Qed.

Lemma length_fields l : (length l <= length (fields l))%nat.
Proof. induction l as [|f l IH]; [done|]. unfold fields in *. cbn. rewrite length_app. lia. Qed.

Definition field {A} (enc : A -> bytes) (o : option A) : bytes :=
  match o with Some x => 1 :: enc x | None => [] end.
Definition unfield {A} (dec : bytes -> A) (f : bytes) : option A :=
  match f with _ :: x => Some (dec x) | [] => None end.

#[global] Instance codec : StateProto := {|
  index_serialize := fields;
  index_parse bs := parse_fields (length bs) bs;
  data_serialize d :=
    fields [field (be_split 4) (pd_version d); field id (pd_vname d);
            field (fun b => [if b : bool then 1 else 0]) (pd_ismutable d); field id (pd_type d);
            field id (pd_value d)];
  data_parse bs :=
    match parse_fields (length bs) bs with
    | [v; n; m; t; x] => mkProtoStateData (unfield be_combine v) (unfield id n)
                           (unfield (fun b => bool_decide (b = [1])) m) (unfield id t) (unfield id x)
    | _ => mkProtoStateData None None None None None
    end
|}.

#[global] Instance codec_spec : StateProtoSpec.
Proof.
  split.
  - intros l. apply parse_fields_spec, length_fields.
  - intros [|f l]; [done|]. done.
Qed.

End StateCodec.

Module StorageSample.
Import Cyclic StateCodec.

Definition empty : ContractStorage MapDB.db :=
  mkContractStorage MapDB.opened MapDB.opened MapDB.opened ∅ ∅ ∅ ∅ ∅ ∅ ∅ ∅.

Lemma empty_ok : storage_ok empty.
Proof.
  split; [done|..].
  - intros a b i j _ _ _ Hi. unfold indexes_of, index_bytes, layered, stored in Hi. cbn in Hi.
    rewrite !lookup_empty in Hi. by apply elem_of_nil in Hi.
  - intros a i _ Hi. unfold indexes_of, index_bytes, layered, stored in Hi. cbn in Hi.
    rewrite !lookup_empty in Hi. by apply elem_of_nil in Hi.
Qed.

Definition counter_state : StateEntry := mkStateEntry [99] true [85] [53].

(** Contract 5 writes one state; contract 6 still reads nothing. *)
Definition after_write := PutContractState 1 2 empty 5 [counter_state] 0 true.

Lemma contract_states_isolated_witness :
  exists h' c', after_write = Ret (true, h', c') /\ storage_ok c' /\
    GetContractStatesData c' 6 true = GetContractStatesData empty 6 true.
Proof.
  destruct after_write as [[[ok h'] c']|f] eqn:E; [|vm_compute in E; discriminate E].
  destruct ok; [|vm_compute in E; discriminate E].
  destruct (contract_states_isolated 1 2 empty 5 [counter_state] 0 true h' c' empty_ok
    ltac:(unfold is_address; lia) ltac:(lia) E) as (Hok & Hother & _).
  exists h', c'. split; [reflexivity|]. split; [exact Hok|]. apply Hother; [unfold is_address; lia|lia].
Defined.

(** A store with one contract is moved to the disk. *)
Definition loaded : ContractStorage MapDB.db :=
  set_m empty {[address_hex 5 := index_serialize [replicate 32 7]]} {[hex (replicate 32 7) := [1; 2; 3]]}.

Lemma commit_keeps_states_witness :
  exists c', CommitStateDB loaded = Ret (true, c') /\
    GetContractStatesData c' 5 false = GetContractStatesData loaded 5 false /\
    GetContractStatesData loaded 5 false = Ret [[1; 2; 3]].
Proof.
  destruct (CommitStateDB loaded) as [[ok c']|f] eqn:E; [|vm_compute in E; discriminate E].
  destruct ok; [|vm_compute in E; discriminate E].
  assert (values_ok loaded) as Hv by (split; by apply map_Forall_singleton).
  destruct (commit_keeps_states loaded true c' (conj eq_refl eq_refl) Hv E) as (_ & _ & Hr).
  exists c'. split; [reflexivity|]. split; [exact (Hr 5 false)|]. vm_compute. reflexivity.
Defined.

Lemma GetNewIndex_returns_witness : exists i, GetNewIndex 1 empty 5 [99] [] = Ret i.
Proof.
  apply (GetNewIndex_returns 1 empty 5 [99] []); [done|done| |].
  - intros i j Hi Hj _. lia.
  - vm_compute. lia.
Defined.

End StorageSample.
