(* ===== verification/ContractAccount.v ===== *)
(** * Contract accounts ([libData/AccountData/Account.cpp], [Transaction.cpp])

    The members of [Account] that concern contracts: initialization, code, states;
    the addresses of accounts and of new contracts; the type of a transaction and
    its shard. *)

From Stdlib Require Import String.
From stdpp Require Import base numbers gmap list.
From S2P Require Import Prelude Serializable OpenSSL Schnorr TxnPool LevelDB Json AccountStore ContractStorage.
Open Scope Z_scope.

(** ** Transactions *)

Inductive ContractType := NON_CONTRACT | CONTRACT_CREATION | CONTRACT_CALL | CONTRACT_ERROR.

Definition is_empty {A} (l : list A) : bool := match l with [] => true | _ => false end.

Definition GetTransactionType {PubKey} (tx : Transaction PubKey) : ContractType :=
  if negb (is_empty (tx_data tx)) && negb (tx_toAddr tx =? 0) && is_empty (tx_code tx) then CONTRACT_CALL
  else if negb (is_empty (tx_code tx)) && (tx_toAddr tx =? 0) then CONTRACT_CREATION
  else if is_empty (tx_data tx) && negb (tx_toAddr tx =? 0) && is_empty (tx_code tx) then NON_CONTRACT
  else CONTRACT_ERROR.

(** The last four bytes of the address. *)
Definition GetShardIndex (fromAddr numShards : Z) : Z :=
  if numShards =? 0 then 0
  else
    let x := foldl (fun x b => Z.lor (u32 (Z.shiftl x 8)) b) 0 (drop 16 (address_bytes fromAddr)) in
    x mod numShards.

(** ** Addresses *)

Section addresses.
Context `{OpenSSL}.

(** The last 20 bytes of a digest. *)
Definition address_of_digest (output : bytes) : Z := be_combine (drop (length output - 20) output).

Definition GetAddressFromPublicKey (pubKey : PubKey) : Z :=
  address_of_digest (SHA256 (SHA2.Update SHA2.Reset (PubKey_Serialize pubKey [] 0).2)).

Definition GetAddressForContract (sender nonce : Z) : Z :=
  let conBytes := address_bytes sender in
  address_of_digest (SHA256 (SHA2.Update SHA2.Reset (conBytes ++ be_split 8 nonce))).

End addresses.

(** ** The members of [Account] *)

Definition isContract (a : Account) : bool := negb (m_codeHash a =? 0).

Definition acc_storageRoot (a : Account) (root : Z) : Account :=
  mkAccount (m_version a) (m_balance a) (m_nonce a) root (m_codeHash a) (m_address a) (m_codeCache a).

Definition SetAddress (a : Account) (addr : Z) : Account :=
  if m_address a =? 0 then
    mkAccount (m_version a) (m_balance a) (m_nonce a) (m_storageRoot a) (m_codeHash a) addr (m_codeCache a)
  else a.

Section contracts.
Context `{OpenSSL} `{StateProto} {DB : Type} `{leveldb DB} {J : Type} `{Json J} `{LexicalCast}.
Context (CONTRACT_STATE_VERSION : Z) (index_fuel : nat).
Implicit Types (a : Account) (c : ContractStorage DB).

Definition SetCode a (code : bytes) : bool * Account :=
  if is_empty code then (false, a)
  else
    (true, mkAccount (m_version a) (m_balance a) (m_nonce a) (m_storageRoot a)
             (be_combine (SHA256 (SHA2.Update SHA2.Reset code))) (m_address a) code).

Definition GetCode c a : outcome bytes :=
  if negb (isContract a) then Ret []
  else if is_empty (m_codeCache a) then GetContractCode c (m_address a)
  else Ret (m_codeCache a).

(** [SetStorage(state_entries, temp)] *)
Definition SetStorage c a (state_entries : list StateEntry) (temp : bool)
  : outcome (bool * Account * ContractStorage DB) :=
  if negb (isContract a) then Ret (false, a, c)
  else
    '(ok, root, c) ← PutContractState CONTRACT_STATE_VERSION index_fuel c (m_address a) state_entries
                       (m_storageRoot a) temp;
    Ret (ok, acc_storageRoot a root, c).

(** [SetStorage(addr, entries, temp, revertible)] *)
Definition SetStorage_delta c a (addr : Z) (entries : list (bytes * bytes)) (temp revertible : bool)
  : outcome (bool * Account * ContractStorage DB) :=
  if negb (isContract a) then Ret (false, a, c)
  else
    '(ok, root, c) ← PutContractState_entries c addr entries (m_storageRoot a) temp revertible [] false;
    let a := acc_storageRoot a root in
    if negb (ok : bool) then Ret (false, a, c) else Ret (true, SetAddress a addr, c).

Definition GetRawStorage c a (k_hash : bytes) (temp : bool) : outcome bytes :=
  if negb (isContract a) then Ret [] else GetContractStateData c k_hash temp.

Definition GetStorageKeyHashes c a (temp : bool) : outcome (list bytes) :=
  if negb (isContract a) then Ret [] else GetContractStateIndexes c (m_address a) temp.

(** The object of a variable. *)
Definition variable (vname type value : bytes) : outcome J :=
  J_object J_null [(str "vname", J_string vname); (str "type", J_string type); (str "value", J_string value)].

Definition PrepareInitDataJson (initData : bytes) (addr blockNum : Z) : outcome (option J) :=
  if is_empty initData then Ret None
  else
    match convertStrtoJson initData with
    | None => Ret None
    | Some root =>
        createBlockNumObj ← variable (str "_creation_block") (str "BNum") (to_string blockNum);
        root ← J_append root createBlockNumObj;
        thisAddressObj ← variable (str "_this_address") (str "ByStr20") (str "0x" ++ address_hex addr);
        root ← J_append root thisAddressObj;
        Ret (Some root)
    end.

(** The state entries of the initial data; [None] when a variable is incomplete. *)
Fixpoint init_entries (vs : list J) : outcome (option (list StateEntry)) :=
  match vs with
  | [] => Ret (Some [])
  | v :: vs =>
      ok ← has_members v [str "vname"; str "type"; str "value"];
      if negb (ok : bool) then Ret None
      else
        vname ← J_string_at v [str "vname"];
        type ← J_string_at v [str "type"];
        value ← J_at v [str "value"];
        rest ← init_entries vs;
        Ret (match rest with
             | Some rest => Some (mkStateEntry vname false type (convertJsontoStr value) :: rest)
             | None => None
             end)
  end.

Definition InitContract c a (code initData : bytes) (addr blockNum : Z) (temp : bool)
  : outcome (bool * Account * ContractStorage DB) :=
  if isContract a then Ret (false, a, c)
  else
    initDataJson ← PrepareInitDataJson initData addr blockNum;
    match initDataJson with
    | None => Ret (false, a, c)
    | Some initDataJson =>
        entries ← init_entries (J_items initDataJson);
        match entries with
        | None => Ret (false, a, c)
        | Some state_entries =>
            '(ok, root, c) ← PutContractState CONTRACT_STATE_VERSION index_fuel c addr state_entries
                               (m_storageRoot a) temp;
            let a := acc_storageRoot a root in
            if negb (ok : bool) then Ret (false, a, c)
            else
              let '(ok, a) := SetCode a code in
              if negb ok then Ret (false, a, c) else Ret (true, SetAddress a addr, c)
        end
    end.

(** The initial data, the states with the balance, and the Scilla version. *)
Definition GetStorageJson c a (temp : bool) : outcome (option (J * J * Z)) :=
  if negb (isContract a) then Ret None
  else
    roots ← GetContractStateJson CONTRACT_STATE_VERSION c (m_address a) temp;
    match roots with
    | None => Ret None
    | Some (init, states, version) =>
        try_catch
          (balance ← variable (str "_balance") (str "Uint128") (to_string (m_balance a));
           states ← J_append states balance;
           Ret (Some (init, states, version)))
          (Ret None)
    end.

End contracts.
