(* ===== verification/AccountStoreSC.v ===== *)
(** * Execution of transactions ([libData/AccountData/AccountStoreSC.tpp],
    [AccountStoreAtomic.tpp])

    [UpdateAccounts] applies a transaction: a plain transfer, the creation of a
    contract or a call of one.  Contracts are run by the external Scilla
    interpreter: the node writes its input to files, executes a command and reads
    the output as JSON; a contract can call the next one.  Class [Environment] is
    that outside: the file system, the execution of commands and the timeout flag
    that another thread sets.

    The transfers of a chain of calls are made in the atomic store, a map over the
    store, and written to the store when the whole chain has succeeded. *)

From Stdlib Require Import String.
From stdpp Require Import base numbers gmap list.
From S2P Require Import Prelude OpenSSL TxnPool LevelDB Json Receipt AccountStore ContractStorage ContractAccount.
Open Scope Z_scope.

(** ** The atomic store *)

Record AtomicStore (S : Type) := mkAtomic { atomic_own : gmap Z Account; atomic_parent : S }.
Arguments mkAtomic {S} _ _.
Arguments atomic_own {S} _.
Arguments atomic_parent {S} _.

Definition atomic_GetAccount {S} `{AccountMap S} (s : AtomicStore S) (address : Z)
  : option Account * AtomicStore S :=
  match atomic_own s !! address with
  | Some account => (Some account, s)
  | None =>
      let '(account, parent) := GetAccount (atomic_parent s) address in
      match account with
      | Some account => (Some account, mkAtomic (<[address := account]> (atomic_own s)) parent)
      | None => (None, mkAtomic (atomic_own s) parent)
      end
  end.

#[global] Instance atomic_store {S} `{AccountMap S} : AccountMap (AtomicStore S) := {|
  GetAccount := atomic_GetAccount;
  store_set s a x := mkAtomic (<[a := x]> (atomic_own s)) (atomic_parent s);
  store_insert s a x :=
    match atomic_own s !! a with
    | Some _ => s
    | None => mkAtomic (<[a := x]> (atomic_own s)) (atomic_parent s)
    end;
  store_erase s a := mkAtomic (delete a (atomic_own s)) (atomic_parent s)
|}.

(** ** The outside *)

Inductive execution := Executed (output : bytes) | ExecuteFailed | ExecuteThrew.

(** [env_prepare] empties the directory of the interpreter's files, [env_write]
    writes one of them ([false]: an exception); [env_read] is [None] when the file
    cannot be opened; [env_timeout] is [m_txnProcessTimeout], which
    [env_clear_timeout] resets. *)
Class Environment (W : Type) := {
  env_prepare : W -> bool * W;
  env_exists : W -> bytes -> bool;
  env_write : W -> bytes -> bytes -> bool * W;
  env_execute : W -> bytes -> execution * W;
  env_read : W -> bytes -> option bytes;
  env_timeout : W -> bool;
  env_clear_timeout : W -> W
}.

(** The configuration of the interpreter. *)
Record ScillaConfig := mkScilla {
  SCILLA_ROOT : bytes;
  SCILLA_CHECKER : bytes;
  SCILLA_BINARY : bytes;
  SCILLA_LIB : bytes;
  INPUT_CODE : bytes;
  INIT_JSON : bytes;
  INPUT_STATE_JSON : bytes;
  INPUT_BLOCKCHAIN_JSON : bytes;
  INPUT_MESSAGE_JSON : bytes;
  OUTPUT_JSON : bytes;
  ENABLE_SCILLA_MULTI_VERSION : bool
}.

(** The gas constants and limits. *)
Record GasConfig := mkGas {
  CONTRACT_CREATE_GAS : Z;
  CONTRACT_INVOKE_GAS : Z;
  NORMAL_TRAN_GAS : Z;
  MAX_CONTRACT_DEPTH : Z
}.

(** ** The object *)

Record AccountStoreSC (S DB W : Type) := mkSC {
  sc_accounts : AtomicStore S;
  sc_contracts : ContractStorage DB;
  sc_world : W;
  m_curBlockNum : Z;
  m_curContractAddr : Z;
  m_curSenderAddr : Z;
  m_curAmount : Z;
  m_curGasLimit : Z;
  m_curGasPrice : Z;
  m_curNumShards : Z;
  m_curIsDS : bool;
  m_root_w_version : bytes;
  m_curDepth : Z
}.
Arguments mkSC {S DB W}.
Arguments sc_accounts {S DB W} _.
Arguments sc_contracts {S DB W} _.
Arguments sc_world {S DB W} _.
Arguments m_curBlockNum {S DB W} _.
Arguments m_curContractAddr {S DB W} _.
Arguments m_curSenderAddr {S DB W} _.
Arguments m_curAmount {S DB W} _.
Arguments m_curGasLimit {S DB W} _.
Arguments m_curGasPrice {S DB W} _.
Arguments m_curNumShards {S DB W} _.
Arguments m_curIsDS {S DB W} _.
Arguments m_root_w_version {S DB W} _.
Arguments m_curDepth {S DB W} _.

(** Whether the files could be exported, or an exception was thrown. *)
Inductive export_status := Exported | ExportFailed | ExportThrew.

Section setters.
Context {S DB W : Type}.
Abbreviation SC := (AccountStoreSC S DB W).

Definition sc_set_accounts (st : SC) x : SC := mkSC x (sc_contracts st) (sc_world st) (m_curBlockNum st)
  (m_curContractAddr st) (m_curSenderAddr st) (m_curAmount st) (m_curGasLimit st) (m_curGasPrice st)
  (m_curNumShards st) (m_curIsDS st) (m_root_w_version st) (m_curDepth st).
Definition sc_set_contracts (st : SC) x : SC := mkSC (sc_accounts st) x (sc_world st) (m_curBlockNum st)
  (m_curContractAddr st) (m_curSenderAddr st) (m_curAmount st) (m_curGasLimit st) (m_curGasPrice st)
  (m_curNumShards st) (m_curIsDS st) (m_root_w_version st) (m_curDepth st).
Definition sc_set_world (st : SC) x : SC := mkSC (sc_accounts st) (sc_contracts st) x (m_curBlockNum st)
  (m_curContractAddr st) (m_curSenderAddr st) (m_curAmount st) (m_curGasLimit st) (m_curGasPrice st)
  (m_curNumShards st) (m_curIsDS st) (m_root_w_version st) (m_curDepth st).
Definition sc_set_blockNum (st : SC) x : SC := mkSC (sc_accounts st) (sc_contracts st) (sc_world st) x
  (m_curContractAddr st) (m_curSenderAddr st) (m_curAmount st) (m_curGasLimit st) (m_curGasPrice st)
  (m_curNumShards st) (m_curIsDS st) (m_root_w_version st) (m_curDepth st).
Definition sc_set_amount (st : SC) x : SC := mkSC (sc_accounts st) (sc_contracts st) (sc_world st)
  (m_curBlockNum st) (m_curContractAddr st) (m_curSenderAddr st) x (m_curGasLimit st) (m_curGasPrice st)
  (m_curNumShards st) (m_curIsDS st) (m_root_w_version st) (m_curDepth st).
Definition sc_set_root (st : SC) x : SC := mkSC (sc_accounts st) (sc_contracts st) (sc_world st)
  (m_curBlockNum st) (m_curContractAddr st) (m_curSenderAddr st) (m_curAmount st) (m_curGasLimit st)
  (m_curGasPrice st) (m_curNumShards st) (m_curIsDS st) x (m_curDepth st).
Definition sc_set_depth (st : SC) x : SC := mkSC (sc_accounts st) (sc_contracts st) (sc_world st)
  (m_curBlockNum st) (m_curContractAddr st) (m_curSenderAddr st) (m_curAmount st) (m_curGasLimit st)
  (m_curGasPrice st) (m_curNumShards st) (m_curIsDS st) (m_root_w_version st) x.
Definition sc_set_isDS (st : SC) x : SC := mkSC (sc_accounts st) (sc_contracts st) (sc_world st)
  (m_curBlockNum st) (m_curContractAddr st) (m_curSenderAddr st) (m_curAmount st) (m_curGasLimit st)
  (m_curGasPrice st) (m_curNumShards st) x (m_root_w_version st) (m_curDepth st).
(** The next hop: the contract called so far is the sender. *)
Definition sc_set_hop (st : SC) sender contract : SC := mkSC (sc_accounts st) (sc_contracts st) (sc_world st)
  (m_curBlockNum st) contract sender (m_curAmount st) (m_curGasLimit st) (m_curGasPrice st)
  (m_curNumShards st) (m_curIsDS st) (m_root_w_version st) (m_curDepth st).
(** What a contract call notes of its transaction. *)
Definition sc_set_call (st : SC) gasLimit gasPrice contract amount numShards : SC :=
  mkSC (sc_accounts st) (sc_contracts st) (sc_world st) (m_curBlockNum st) contract (m_curSenderAddr st) amount
    gasLimit gasPrice numShards (m_curIsDS st) (m_root_w_version st) (m_curDepth st).

(** [this->...]: an operation of the store itself. *)
Definition sc_store (st : SC) : S := atomic_parent (sc_accounts st).
Definition sc_set_store (st : SC) (s : S) : SC :=
  sc_set_accounts st (mkAtomic (atomic_own (sc_accounts st)) s).
Definition on_store {A} (st : SC) (f : S -> A * S) : A * SC :=
  let '(r, s) := f (sc_store st) in (r, sc_set_store st s).
(** [m_accountStoreAtomic->...] *)
Definition on_atomic {A} (st : SC) (f : AtomicStore S -> A * AtomicStore S) : A * SC :=
  let '(r, s) := f (sc_accounts st) in (r, sc_set_accounts st s).

End setters.

Section execution.
Context `{OpenSSL} `{StateProto} {DB : Type} `{leveldb DB} {J : Type} `{Json J} `{LexicalCast}.
Context `{ReceiptWriter J} `{SafeMath} {S : Type} `{AccountMap S} {W : Type} `{Environment W}.
Context {PubKey : Type} (GetAddressFromPublicKey : PubKey -> Z).
Context (CONTRACT_STATE_VERSION ACCOUNT_VERSION : Z) (index_fuel : nat) (scilla : ScillaConfig) (gas : GasConfig).
Abbreviation SC := (AccountStoreSC S DB W).
Implicit Types (st : SC) (receipt : TransactionReceipt J).

(** [m_accountStoreAtomic->TransferBalance] *)
Definition TransferBalanceAtomic st (from to delta : Z) : outcome (bool * SC) :=
  '(ok, s) ← TransferBalance ACCOUNT_VERSION (sc_accounts st) from to delta;
  Ret (ok, sc_set_accounts st s).

(** Every account of the atomic store is assigned to the store's, or added to it. *)
Definition commit_entry (address : Z) (account : Account) (s : S) : S :=
  let '(found, s) := GetAccount s address in
  match found with
  | Some _ => store_set s address account
  | None => AddAccount s address account
  end.

Definition CommitTransferAtomic st : SC :=
  sc_set_store st (map_fold commit_entry (sc_store st) (atomic_own (sc_accounts st))).

Definition DiscardTransferAtomic st : SC := sc_set_accounts st (mkAtomic ∅ (sc_store st)).

(** ** The files of the interpreter *)

Definition GetBlockStateJson (BlockNum : Z) : outcome J :=
  item ← variable (str "BLOCKNUMBER") (str "BNum") (to_string BlockNum);
  J_append J_null item.

Definition PrepareRootPathWVersion st (scilla_version : Z) : bool * SC :=
  let root := if ENABLE_SCILLA_MULTI_VERSION scilla
              then SCILLA_ROOT scilla ++ str "/" ++ to_string scilla_version else SCILLA_ROOT scilla in
  (env_exists (sc_world st) root, sc_set_root st root).

Definition GetContractCheckerCmdStr (root : bytes) : bytes :=
  root ++ str "/" ++ SCILLA_CHECKER scilla ++ str " -libdir " ++ root ++ str "/" ++ SCILLA_LIB scilla
  ++ str " " ++ INPUT_CODE scilla.

Definition GetCreateContractCmdStr (root : bytes) (available_gas : Z) : bytes :=
  root ++ str "/" ++ SCILLA_BINARY scilla ++ str " -init " ++ INIT_JSON scilla
  ++ str " -iblockchain " ++ INPUT_BLOCKCHAIN_JSON scilla ++ str " -o " ++ OUTPUT_JSON scilla
  ++ str " -i " ++ INPUT_CODE scilla ++ str " -libdir " ++ root ++ str "/" ++ SCILLA_LIB scilla
  ++ str " -gaslimit " ++ to_string available_gas ++ str " -jsonerrors".

Definition GetCallContractCmdStr (root : bytes) (available_gas : Z) : bytes :=
  root ++ str "/" ++ SCILLA_BINARY scilla ++ str " -init " ++ INIT_JSON scilla
  ++ str " -istate " ++ INPUT_STATE_JSON scilla ++ str " -iblockchain " ++ INPUT_BLOCKCHAIN_JSON scilla
  ++ str " -imessage " ++ INPUT_MESSAGE_JSON scilla ++ str " -o " ++ OUTPUT_JSON scilla
  ++ str " -i " ++ INPUT_CODE scilla ++ str " -libdir " ++ root ++ str "/" ++ SCILLA_LIB scilla
  ++ str " -gaslimit " ++ to_string available_gas ++ str " -disable-pp-json" ++ str " -disable-validate-json"
  ++ str " -jsonerrors".

(** Write files one after the other; an exception ends it. *)
Fixpoint write_files (w : W) (files : list (bytes * bytes)) : bool * W :=
  match files with
  | [] => (true, w)
  | (path, content) :: files =>
      let '(ok, w) := env_write w path content in
      if ok : bool then write_files w files else (false, w)
  end.

(** [ExportCreateContractFiles] ([states] false) and [ExportContractFiles] ([states]
    true), which also writes the states. *)
Definition ExportFiles st (contract : Account) (states : bool) : outcome (export_status * SC) :=
  let '(ok, w) := env_prepare (sc_world st) in
  let st := sc_set_world st w in
  if negb ok then Ret (ExportThrew, st)
  else
    roots ← GetStorageJson CONTRACT_STATE_VERSION (sc_contracts st) contract true;
    match roots with
    | None => Ret (ExportFailed, st)
    | Some (init, state, scilla_version) =>
        let '(ok, st) := PrepareRootPathWVersion st scilla_version in
        if negb ok then Ret (ExportFailed, st)
        else
          files ← try_catch
            (code ← GetCode (sc_contracts st) contract;
             blockJson ← GetBlockStateJson (m_curBlockNum st);
             Ret (Some ([(INPUT_CODE scilla, code); (INIT_JSON scilla, J_write init)]
                        ++ (if states : bool then [(INPUT_STATE_JSON scilla, J_write state)] else [])
                        ++ [(INPUT_BLOCKCHAIN_JSON scilla, J_write blockJson)]))) (Ret None);
          match files with
          | None => Ret (ExportFailed, st)
          | Some files =>
              let '(ok, w) := write_files (sc_world st) files in
              Ret (if ok : bool then Exported else ExportFailed, sc_set_world st w)
          end
    end.

Definition ExportCreateContractFiles st (contract : Account) : outcome (export_status * SC) :=
  ExportFiles st contract false.
Definition ExportContractFiles st (contract : Account) : outcome (export_status * SC) :=
  ExportFiles st contract true.

(** The message file. *)
Definition write_message st (message : J) : export_status * SC :=
  let '(ok, w) := env_write (sc_world st) (INPUT_MESSAGE_JSON scilla) (J_write message) in
  (if ok : bool then Exported else ExportFailed, sc_set_world st w).

(** [ExportCallContractFiles] of a transaction. *)
Definition ExportCallContractFiles_tx st (contract : Account) (transaction : Transaction PubKey)
  : outcome (export_status * SC) :=
  '(status, st) ← ExportContractFiles st contract;
  match status with
  | Exported =>
      message ← try_catch
        (match convertStrtoJson (tx_data transaction) with
         | None => Ret None
         | Some msgObj =>
             msgObj ← J_object msgObj
               [(str "_sender", J_string (str "0x" ++ address_hex (GetAddressFromPublicKey (tx_senderPubKey transaction))));
                (str "_amount", J_string (to_string (tx_amount transaction)))];
             Ret (Some msgObj)
         end) (Ret None);
      match message with
      | None => Ret (ExportFailed, st)
      | Some msgObj => Ret (write_message st msgObj)
      end
  | _ => Ret (status, st)
  end.

(** [ExportCallContractFiles] of a message between contracts. *)
Definition ExportCallContractFiles st (contract : Account) (contractData : J) : outcome (export_status * SC) :=
  '(status, st) ← ExportContractFiles st contract;
  match status with
  | Exported => Ret (write_message st contractData)
  | _ => Ret (status, st)
  end.

(** ** Running a command

    The thread that executes it, the wait and the timeout: whether it succeeded,
    its printout, and the receipt. *)
Definition run_command st (cmd : bytes) receipt : bool * bytes * SC * TransactionReceipt J :=
  let '(e, w) := env_execute (sc_world st) cmd in
  let st := sc_set_world st w in
  let '(ok, out, receipt) :=
    match e with
    | Executed out => (true, out, receipt)
    | ExecuteFailed => (false, [], AddError receipt EXECUTE_CMD_FAILED)
    | ExecuteThrew => (false, [], receipt)
    end in
  if env_timeout w then (false, out, st, AddError receipt EXECUTE_CMD_TIMEOUT) else (ok, out, st, receipt).

(** ** The output of the interpreter *)

Definition ParseContractCheckerOutput (checkerPrint : bytes) receipt : bool * TransactionReceipt J :=
  match convertStrtoJson (checkerPrint : bytes) : option J with
  | None => (false, AddError receipt JSON_OUTPUT_CORRUPTED)
  | Some _ => (true, receipt)
  end.

(** [ParseCreateContractOutput], [ParseCallContractOutput]: the output file, or the
    printout when there is none. *)
Definition ParseOutput st (runnerPrint : bytes) receipt : option J * TransactionReceipt J :=
  let outStr :=
    match env_read (sc_world st) (OUTPUT_JSON scilla) with
    | Some out => Some out
    | None => if is_empty runnerPrint then None else Some runnerPrint
    end in
  match outStr with
  | None => (None, AddError receipt NO_OUTPUT)
  | Some outStr =>
      match convertStrtoJson outStr with
      | None => (None, AddError receipt JSON_OUTPUT_CORRUPTED)
      | Some v => (Some v, receipt)
      end
  end.

(** [gas_remaining] of the output: whether to go on, and the gas.  The handler of
    the conversion reads the member again for the log, so an exception of
    [asString] is passed on. *)
Definition read_gas (_json : J) (penalty gasRemained : Z) receipt
  : outcome (bool * Z * TransactionReceipt J) :=
  found ← J_isMember _json (str "gas_remaining");
  if negb (found : bool) then
    Ret (false, if gasRemained >? penalty then gasRemained - penalty else 0, AddError receipt NO_GAS_REMAINING_FOUND)
  else
    s ← J_string_at _json [str "gas_remaining"];
    match lexical_cast 64 s with
    | Some g => Ret (true, Z.min gasRemained g, receipt)
    | None => Ret (false, gasRemained, receipt)
    end.

(** Message, states and events are there; otherwise the error. *)
Definition check_members (_json : J) (failed : ReceiptError) receipt : outcome (bool * TransactionReceipt J) :=
  ok ← has_members _json [str "message"; str "states"; str "events"];
  if ok : bool then Ret (true, receipt)
  else
    errors ← J_isMember _json (str "errors");
    Ret (false, AddError receipt (if errors : bool then failed else OUTPUT_ILLEGAL)).

Definition ParseCreateContractJsonOutput (_json : J) (gasRemained : Z) receipt
  : outcome (bool * Z * TransactionReceipt J) :=
  '(ok, gasRemained, receipt) ← read_gas _json (CONTRACT_CREATE_GAS gas) gasRemained receipt;
  if negb (ok : bool) then Ret (false, gasRemained, receipt)
  else
    '(ok, receipt) ← check_members _json CREATE_CONTRACT_FAILED receipt;
    if negb (ok : bool) then Ret (false, gasRemained, receipt)
    else
      message ← J_get _json (str "message");
      states ← J_get _json (str "states");
      events ← J_get _json (str "events");
      if J_isNull message && J_isArray states && J_isArray events then Ret (true, gasRemained, receipt)
      else Ret (false, gasRemained, AddError receipt OUTPUT_ILLEGAL).

Definition ParseCreateContract st (gasRemained : Z) (runnerPrint : bytes) receipt
  : outcome (bool * Z * TransactionReceipt J) :=
  match ParseOutput st runnerPrint receipt with
  | (None, receipt) => Ret (false, gasRemained, receipt)
  | (Some jsonOutput, receipt) => ParseCreateContractJsonOutput jsonOutput gasRemained receipt
  end.

(** The states of the output: entries, an incomplete one ([None]). *)
Fixpoint parse_states (states : list J) : outcome (option (list StateEntry)) :=
  match states with
  | [] => Ret (Some [])
  | s :: states =>
      ok ← has_members s [str "vname"; str "type"; str "value"];
      if negb (ok : bool) then Ret None
      else
        vname ← J_string_at s [str "vname"];
        type ← J_string_at s [str "type"];
        v ← J_at s [str "value"];
        value ← (if J_isString v then J_asString v else Ret (convertJsontoStr v));
        rest ← parse_states states;
        Ret (match rest with
             | None => None
             | Some rest =>
                 Some (if bool_decide (vname = str "_balance") then rest
                       else mkStateEntry vname true type value :: rest)
             end)
  end.

(** The events of the output, added to the receipt one by one; an exception is
    caught with the receipt as it is. *)
Fixpoint install_events (events : list J) (contract : Z) receipt : bool * TransactionReceipt J :=
  match events with
  | [] => (true, receipt)
  | e :: events =>
      match LogEntry_Install e (address_bytes contract) with
      | Ret (Some entry) => install_events events contract (AddEntry receipt entry)
      | Ret None => (false, AddError receipt LOG_ENTRY_INSTALL_FAILED)
      | Fault _ => (false, receipt)
      end
  end.

(** The block of [ParseCallContractJsonOutput] that reads states and events. *)
Definition parse_states_events (_json : J) (contract : Z) receipt
  : option (list StateEntry) * TransactionReceipt J :=
  match (states ← J_get _json (str "states"); parse_states (J_items states)) with
  | Fault _ => (None, receipt)
  | Ret None => (None, AddError receipt STATE_CORRUPTED)
  | Ret (Some state_entries) =>
      match J_get _json (str "events") with
      | Fault _ => (None, receipt)
      | Ret events =>
          let '(ok, receipt) := install_events (J_items events) contract receipt in
          (if ok : bool then Some state_entries else None, receipt)
      end
  end.

(** [contractAccount->SetStorage]: the account of the atomic store is changed. *)
Definition store_states st (contract : Z) (state_entries : list StateEntry) (temp : bool) : outcome (bool * SC) :=
  match atomic_own (sc_accounts st) !! contract with
  | None => Fault NullPointer
  | Some account =>
      '(ok, account, c) ← SetStorage CONTRACT_STATE_VERSION index_fuel (sc_contracts st) account state_entries temp;
      Ret (ok, sc_set_contracts (sc_set_accounts st (store_set (sc_accounts st) contract account)) c)
  end.

(** What the message of the output asks for: the transaction is finished, another
    contract is called, or the output is refused. *)
Inductive message_result := Finished | CallNext (recipient : Z) | Refused.

(** The message of the output, up to the test of its tag. *)
Definition handle_message st (message : J) receipt : outcome (message_result * SC * TransactionReceipt J) :=
  if J_isNull message then Ret (Finished, st, receipt)
  else if negb (J_isObject message) then Ret (Refused, st, receipt)
  else
    ok ← has_members message [str "_tag"; str "_amount"; str "params"; str "_recipient"];
    if negb (ok : bool) then Ret (Refused, st, AddError receipt MESSAGE_CORRUPTED)
    else
      s ← J_string_at message [str "_amount"];
      match lexical_cast 128 s with
      | None => Ret (Refused, st, receipt)
      | Some amount =>
          let st := sc_set_amount st amount in
          s ← J_string_at message [str "_recipient"];
          recipient ← Address_of_string s;
          if recipient =? 0 then Ret (Refused, st, AddError receipt RECEIPT_IS_NULL)
          else
            let '(account, st) := on_atomic st (fun s => GetAccount s recipient) in
            let '(account, st) :=
              match account with
              | Some account => (Some account, st)
              | None =>
                  let st := sc_set_store st (AddAccount (sc_store st) recipient (Account_new ACCOUNT_VERSION 0 0)) in
                  on_atomic st (fun s => GetAccount s recipient)
              end in
            match account with
            | None => Fault NullPointer
            | Some account =>
                '(ok, st) ← (if negb (isContract account)
                             then TransferBalanceAtomic st (m_curContractAddr st) recipient (m_curAmount st)
                             else Ret (true, st));
                if negb (ok : bool) then Ret (Refused, st, AddError receipt BALANCE_TRANSFER_FAILED)
                else
                  tag ← J_string_at message [str "_tag"];
                  Ret (if negb (isContract account) || is_empty tag then Finished else CallNext recipient, st, receipt)
            end
      end.

(** The message for the next contract. *)
Definition next_message st (message : J) : outcome J :=
  amount ← J_get message (str "_amount");
  tag ← J_get message (str "_tag");
  params ← J_get message (str "params");
  J_object J_null [(str "_sender", J_string (str "0x" ++ address_hex (m_curContractAddr st)));
                   (str "_amount", amount); (str "_tag", tag); (str "params", params)].

(** The first part of [ParseCallContractJsonOutput], before the storage is written:
    gas, acceptance of the amount, states, events and the message.  The result, the
    states, the gas. *)
Definition accept_output st (_json : J) (gasRemained : Z) receipt
  : outcome (message_result * list StateEntry * Z * SC * TransactionReceipt J) :=
  '(ok, gasRemained, receipt) ← read_gas _json (CONTRACT_INVOKE_GAS gas) gasRemained receipt;
  if negb (ok : bool) then Ret (Refused, [], gasRemained, st, receipt)
  else
    '(ok, receipt) ← check_members _json CALL_CONTRACT_FAILED receipt;
    if negb (ok : bool) then Ret (Refused, [], gasRemained, st, receipt)
    else
      found ← J_isMember _json (str "_accepted");
      if negb (found : bool) then Ret (Refused, [], gasRemained, st, AddError receipt NO_ACCEPTED_FOUND)
      else
        accepted ← J_string_at _json [str "_accepted"];
        '(ok, st) ← (if bool_decide (accepted = str "true")
                     then TransferBalanceAtomic st (m_curSenderAddr st) (m_curContractAddr st) (m_curAmount st)
                     else Ret (true, st));
        if negb (ok : bool) then Ret (Refused, [], gasRemained, st, AddError receipt BALANCE_TRANSFER_FAILED)
        else
          let '(contractAccount, st) := on_atomic st (fun s => GetAccount s (m_curContractAddr st)) in
          match contractAccount with
          | None => Ret (Refused, [], gasRemained, st, AddError receipt CONTRACT_NOT_EXIST)
          | Some _ =>
              match parse_states_events _json (m_curContractAddr st) receipt with
              | (None, receipt) => Ret (Refused, [], gasRemained, st, receipt)
              | (Some state_entries, receipt) =>
                  message ← J_get _json (str "message");
                  '(result, st, receipt) ← handle_message st message receipt;
                  Ret (result, state_entries, gasRemained, st, receipt)
              end
          end.

(** The last part of [ParseCallContractJsonOutput]: the depth and the shard of the
    next contract are checked, its files are exported and it is run.  Its printout,
    or [None] when the output is refused. *)
Definition call_next st (_json : J) (recipient gasRemained : Z) receipt
  : outcome (option bytes * SC * TransactionReceipt J) :=
  let st := sc_set_depth st (u32 (m_curDepth st + 1)) in
  if m_curDepth st >? MAX_CONTRACT_DEPTH gas then Ret (None, st, AddError receipt MAX_DEPTH_REACHED)
  else
    let receipt := AddDepth receipt in
    if negb (m_curIsDS st) && negb (GetShardIndex (m_curContractAddr st) (m_curNumShards st)
                                    =? GetShardIndex recipient (m_curNumShards st))
    then Ret (None, st, AddError receipt CHAIN_CALL_DIFF_SHARD)
    else
      message ← J_get _json (str "message");
      input_message ← next_message st message;
      match atomic_own (sc_accounts st) !! recipient with
      | None => Fault NullPointer
      | Some account =>
          '(status, st) ← ExportCallContractFiles st account input_message;
          match status with
          | ExportThrew => Fault Thrown
          | ExportFailed => Ret (None, st, AddError receipt PREPARATION_FAILED)
          | Exported =>
              let '(result, runnerPrint, st, receipt) :=
                run_command st (GetCallContractCmdStr (m_root_w_version st) gasRemained) receipt in
              Ret (if result : bool then Some runnerPrint else None, st, receipt)
          end
      end.

(** The states are buffered before the first contract of a longer chain writes. *)
Definition buffered (first : bool) st : SC :=
  if first then sc_set_contracts st (BufferCurrentState (sc_contracts st)) else st.

(** [ParseCallContract] and [ParseCallContractJsonOutput] ([first]: of the contract
    the transaction calls): the result, the gas, the object and the receipt.  A chain
    of calls is no deeper than [MAX_CONTRACT_DEPTH]. *)
Fixpoint ParseCallContract (fuel : nat) st (gasRemained : Z) (runnerPrint : bytes) receipt (temp first : bool)
  : outcome (bool * Z * SC * TransactionReceipt J) :=
  match ParseOutput st runnerPrint receipt with
  | (None, receipt) => Ret (false, gasRemained, st, receipt)
  | (Some _json, receipt) =>
      '(result, state_entries, gasRemained, st, receipt) ← accept_output st _json gasRemained receipt;
      match result with
      | Refused => Ret (false, gasRemained, st, receipt)
      | Finished =>
          '(ok, st) ← store_states st (m_curContractAddr st) state_entries temp;
          Ret (if first then ok else true, gasRemained, st, receipt)
      | CallNext recipient =>
          '(_, st) ← store_states (buffered first st) (m_curContractAddr st) state_entries temp;
          '(print, st, receipt) ← call_next st _json recipient gasRemained receipt;
          match print with
          | None => Ret (false, gasRemained, st, receipt)
          | Some runnerPrint =>
              let t_address := m_curContractAddr st in
              match fuel with
              | O => Fault StillDrawing
              | Datatypes.S fuel =>
                  '(ok, gasRemained, st, receipt) ←
                    ParseCallContract fuel (sc_set_hop st t_address recipient) gasRemained runnerPrint receipt temp false;
                  if negb (ok : bool) then Ret (false, gasRemained, st, receipt)
                  else
                    let '(ok, st) := on_store st (fun s => IncreaseNonce s t_address) in
                    Ret (ok, gasRemained, st, receipt)
              end
          end
      end
  end.

(** Every hop takes one unit: the depth grows by one and is bounded. *)
Definition chain_fuel : nat := Z.to_nat (MAX_CONTRACT_DEPTH gas).

(** ** Transactions *)

(** [IncreaseNonce(fromAddr)], the end of a transaction that changed the state. *)
Definition finish_nonce st (fromAddr : Z) : bool * SC := on_store st (fun s => IncreaseNonce s fromAddr).

(** The end of a transaction that failed after the state was changed: the receipt
    says so, the nonce grows, and the result is true. *)
Definition failed_receipt (receipt : TransactionReceipt J) (cumGas : Z) : TransactionReceipt J :=
  update (SetCumGas receipt cumGas).

(** The try block of a contract creation: initialize the account, export the files,
    take the deposit.  [None]: the contract could not be initialized. *)
Definition init_creation st (blockNum fromAddr toAddr gasDeposit : Z) (toAccount : Account)
    (transaction : Transaction PubKey) (temp : bool) : outcome (bool * SC) :=
  match InitContract CONTRACT_STATE_VERSION index_fuel (sc_contracts st) toAccount (tx_code transaction)
          (tx_data transaction) toAddr blockNum temp with
  | Fault OutOfRange | Fault Thrown => Ret (false, st)
  | Fault f => Fault f
  | Ret (init, toAccount, c) =>
      let st := sc_set_blockNum (sc_set_contracts (sc_set_store st (store_set (sc_store st) toAddr toAccount)) c)
                  blockNum in
      if negb init then Ret (false, st)
      else
        match ExportCreateContractFiles st toAccount with
        | Fault OutOfRange | Fault Thrown => Ret (false, st)
        | Fault f => Fault f
        | Ret (Exported, st) =>
            let '(ok, st) := on_store st (fun s => DecreaseBalance s fromAddr gasDeposit) in Ret (ok, st)
        | Ret (_, st) => Ret (false, st)
        end
  end.

(** The checker and the interpreter: whether each succeeded, the gas left. *)
Definition run_creation st (gasLimit penalty : Z) receipt
  : outcome (bool * bool * Z * SC * TransactionReceipt J) :=
  let '(ret_checker, checkerPrint, st, receipt) :=
    run_command st (GetContractCheckerCmdStr (m_root_w_version st)) receipt in
  let '(ret_checker, receipt) :=
    if ret_checker : bool then ParseContractCheckerOutput checkerPrint receipt else (false, receipt) in
  if negb ret_checker then Ret (true, false, Z.min (u64 (gasLimit - penalty)) gasLimit, st, receipt)
  else
    let '(ret, runnerPrint, st, receipt) :=
      run_command st (GetCreateContractCmdStr (m_root_w_version st) gasLimit) receipt in
    if negb ret then Ret (false, true, Z.min (u64 (gasLimit - penalty)) gasLimit, st, receipt)
    else
      match ParseCreateContract st gasLimit runnerPrint receipt with
      | Fault OutOfRange | Fault Thrown => Ret (false, true, gasLimit, st, receipt)
      | Fault f => Fault f
      | Ret (ret, gasRemained, receipt) =>
          Ret (ret, true, if ret : bool then gasRemained else Z.min (u64 (gasLimit - penalty)) gasRemained, st, receipt)
      end.

Definition CreateContract st (blockNum fromAddr gasDeposit : Z) (transaction : Transaction PubKey) receipt (temp : bool)
  : outcome (bool * SC * TransactionReceipt J) :=
  let gasLimit := tx_gasLimit transaction in
  let amount := tx_amount transaction in
  let '(fromAccount, st) := on_store st (fun s => GetAccount s fromAddr) in
  match fromAccount with
  | None => Ret (false, st, receipt)
  | Some fromAccount =>
      let createGasPenalty := Z.max (CONTRACT_CREATE_GAS gas)
                                (u32 (zlen (tx_code transaction) + zlen (tx_data transaction))) in
      if gasLimit <? createGasPenalty then Ret (false, st, receipt)
      else if m_balance fromAccount <? gasDeposit then Ret (false, st, receipt)
      else
        let validToTransferBalance := negb (m_balance fromAccount <? u128 (gasDeposit + amount)) in
        let toAddr := GetAddressForContract fromAddr (m_nonce fromAccount) in
        let st := sc_set_store st (AddAccount (sc_store st) toAddr (Account_new ACCOUNT_VERSION 0 0)) in
        let '(toAccount, st) := on_store st (fun s => GetAccount s toAddr) in
        match toAccount with
        | None => Ret (false, st, receipt)
        | Some toAccount =>
            '(init, st) ← init_creation st blockNum fromAddr toAddr gasDeposit toAccount transaction temp;
            if negb (init : bool) then Ret (false, sc_set_store st (RemoveAccount (sc_store st) toAddr), receipt)
            else
              '(ret, ret_checker, gasRemained, st, receipt) ← run_creation st gasLimit createGasPenalty receipt;
              let '(ok, gasRefund) := sm_mul 128 gasRemained (tx_gasPrice transaction) 0 in
              if negb ok then Ret (false, sc_set_store st (RemoveAccount (sc_store st) toAddr), receipt)
              else
                let '(ok, st) := on_store st (fun s => IncreaseBalance ACCOUNT_VERSION s fromAddr gasRefund) in
                if negb ok then Fault FatalLog
                else if negb ret || negb ret_checker then
                  let st := sc_set_store st (store_erase (sc_store st) toAddr) in
                  let receipt := SetResult receipt false in
                  let receipt := if negb ret then AddError receipt RUNNER_FAILED else receipt in
                  let receipt := if negb ret_checker then AddError receipt CHECKER_FAILED else receipt in
                  let receipt := failed_receipt receipt (u64 (gasLimit - gasRemained)) in
                  let '(ok, st) := finish_nonce st fromAddr in
                  if negb ok then Ret (false, sc_set_store st (RemoveAccount (sc_store st) toAddr), receipt)
                  else Ret (true, st, receipt)
                else if gasLimit <? gasRemained then Ret (false, st, receipt)
                else
                  '(ok, st) ← (if validToTransferBalance
                               then '(ok, s) ← TransferBalance ACCOUNT_VERSION (sc_store st) fromAddr toAddr amount;
                                    Ret (ok : bool, sc_set_store st s)
                               else Ret (true, st));
                  if negb (ok : bool) then
                    let receipt := failed_receipt (AddError (SetResult receipt false) BALANCE_TRANSFER_FAILED)
                                     (u64 (gasLimit - gasRemained)) in
                    let '(ok, st) := finish_nonce st fromAddr in
                    if negb ok then Ret (false, sc_set_store st (RemoveAccount (sc_store st) toAddr), receipt)
                    else Ret (true, st, receipt)
                  else
                    let receipt := SetCumGas receipt (u64 (gasLimit - gasRemained)) in
                    let '(ok, st) := finish_nonce st fromAddr in
                    if negb ok then Ret (false, st, receipt)
                    else Ret (true, st, update (SetResult receipt true))
        end
  end.

(** Commit the transfers of a call that succeeded, undo what a failed one did. *)
Definition settle_call st (ret : bool) (gasLimit penalty gasRemained : Z) : Z * SC :=
  if ret then (gasRemained, CommitTransferAtomic st)
  else (Z.min (u64 (gasLimit - penalty)) gasRemained, DiscardTransferAtomic st).

(** Run the contract of the transaction and parse its output; the states of a chain
    that failed are reverted. *)
Definition run_call st (gasLimit : Z) receipt (temp : bool) : outcome (bool * Z * SC * TransactionReceipt J) :=
  let '(ret, runnerPrint, st, receipt) :=
    run_command st (GetCallContractCmdStr (m_root_w_version st) gasLimit) receipt in
  if negb ret then Ret (false, gasLimit, st, receipt)
  else
    '(ret, gasRemained, st, receipt) ← ParseCallContract chain_fuel st gasLimit runnerPrint receipt temp true;
    let st := if negb (ret : bool) && (m_curDepth st >? 0)
              then sc_set_contracts st (RevertPrevState (sc_contracts st)) else st in
    Ret (ret : bool, gasRemained, st, receipt).

(** The end of a call: commit or discard, refund, receipt and nonce. *)
Definition end_call st (ret : bool) (gasLimit penalty gasRemained fromAddr gasPrice : Z) receipt
  : bool * SC * TransactionReceipt J :=
  let '(gasRemained, st) := settle_call st ret gasLimit penalty gasRemained in
  let '(ok, gasRefund) := sm_mul 128 gasRemained gasPrice 0 in
  if negb ok then (false, st, receipt)
  else
    (* a failure is only logged *)
    let '(_, st) := on_store st (fun s => IncreaseBalance ACCOUNT_VERSION s fromAddr gasRefund) in
    if gasLimit <? gasRemained then (false, st, receipt)
    else
      let receipt := SetCumGas receipt (u64 (gasLimit - gasRemained)) in
      let receipt := if negb ret then update (SetResult receipt false) else receipt in
      let '(ok, st) := finish_nonce st fromAddr in
      if negb ok then (false, st, receipt)
      else if negb ret then (true, st, receipt)
      else (true, st, update (SetResult receipt true)).

Definition CallContract st (blockNum numShards fromAddr gasDeposit : Z) (transaction : Transaction PubKey) receipt
    (temp : bool) : outcome (bool * SC * TransactionReceipt J) :=
  let gasLimit := tx_gasLimit transaction in
  let amount := tx_amount transaction in
  let toAddr := tx_toAddr transaction in
  let '(fromAccount, st) := on_store st (fun s => GetAccount s fromAddr) in
  match fromAccount with
  | None => Ret (false, st, receipt)
  | Some fromAccount =>
      let callGasPenalty := Z.max (CONTRACT_INVOKE_GAS gas) (u32 (zlen (tx_data transaction))) in
      if gasLimit <? callGasPenalty then Ret (false, st, receipt)
      else if m_balance fromAccount <? u128 (gasDeposit + amount) then Ret (false, st, receipt)
      else
        let st := sc_set_depth (sc_set_hop st fromAddr (m_curContractAddr st)) 0 in
        let '(toAccount, st) := on_store st (fun s => GetAccount s toAddr) in
        match toAccount with
        | None => Ret (false, st, receipt)
        | Some toAccount =>
            let st := sc_set_blockNum st blockNum in
            '(status, st) ← ExportCallContractFiles_tx st toAccount transaction;
            match status with
            | ExportThrew => Fault Thrown
            | ExportFailed => Ret (false, st, receipt)
            | Exported =>
                let st := DiscardTransferAtomic st in
                let '(ok, st) := on_store st (fun s => DecreaseBalance s fromAddr gasDeposit) in
                if negb ok then Ret (false, st, receipt)
                else
                  let st := sc_set_call st gasLimit (tx_gasPrice transaction) toAddr amount numShards in
                  '(ret, gasRemained, st, receipt) ← run_call st gasLimit receipt temp;
                  Ret (end_call st ret gasLimit callGasPenalty gasRemained fromAddr (tx_gasPrice transaction) receipt)
            end
        end
  end.

(** [AccountStoreSC::UpdateAccounts] *)
Definition SC_UpdateAccounts st (blockNum numShards : Z) (isDS : bool) (transaction : Transaction PubKey) receipt
    (temp : bool) : outcome (bool * SC * TransactionReceipt J) :=
  let st := sc_set_world (sc_set_isDS st isDS) (env_clear_timeout (sc_world st)) in
  let fromAddr := GetAddressFromPublicKey (tx_senderPubKey transaction) in
  let '(ok, gasDeposit) := sm_mul 128 (tx_gasLimit transaction) (tx_gasPrice transaction) 0 in
  if negb ok then Ret (false, st, receipt)
  else
    match GetTransactionType transaction with
    | NON_CONTRACT =>
        let '(toAccount, st) := on_store st (fun s => GetAccount s (tx_toAddr transaction)) in
        if match toAccount with Some a => isContract a | None => false end then Ret (false, st, receipt)
        else
          '(ok, s, receipt) ← UpdateAccounts ACCOUNT_VERSION (NORMAL_TRAN_GAS gas) GetAddressFromPublicKey
                                (sc_store st) transaction receipt;
          Ret (ok, sc_set_store st s, receipt)
    | CONTRACT_CREATION => CreateContract st blockNum fromAddr gasDeposit transaction receipt temp
    | CONTRACT_CALL => CallContract st blockNum numShards fromAddr gasDeposit transaction receipt temp
    | CONTRACT_ERROR => Ret (false, st, receipt)
    end.

(** [AccountStoreSC::Init] *)
Definition SC_Init (empty : S) st : SC :=
  mkSC (mkAtomic (atomic_own (sc_accounts st)) empty) (sc_contracts st) (env_clear_timeout (sc_world st))
    (m_curBlockNum st) 0 0 0 0 0 (m_curNumShards st) (m_curIsDS st) (m_root_w_version st) (m_curDepth st).

End execution.
