(* ===== verification/ContractProperties.v ===== *)
(** * What contract execution guarantees

    For every behaviour of the interpreter, the file system, the JSON library and the
    timeout: the transfers of a chain of calls move balances and create or destroy
    none; the chain ends; a failed chain leaves accounts and states as they were;
    the sender pays for the gas that was used. *)

From stdpp Require Import base numbers gmap list.
From S2P Require Import Prelude OpenSSL TxnPool LevelDB Json Receipt AccountStore ContractStorage ContractAccount AccountStoreSC.
Open Scope Z_scope.

(** ** The atomic store behaves like one map *)

Section atomic.
Context `{Hsm : SafeMathSpec} {S : Type} `{Hstore : AccountMapSpec S} (ACCOUNT_VERSION : Z).
Implicit Types s : AtomicStore S.

#[global] Instance atomic_store_spec : AccountMapSpec (AtomicStore S).
Proof.
  refine {| view s := atomic_own s ∪ view (atomic_parent s); hidden s := view (atomic_parent s) |}.
  - intros s a. cbn. unfold atomic_GetAccount. rewrite lookup_union.
    pose proof (GetAccount_found (atomic_parent s) a) as Hf.
    destruct (atomic_own s !! a); cbn; [by destruct (view _ !! a)|].
    destruct (GetAccount (atomic_parent s) a) as [[x|] p]; cbn in *; rewrite <- Hf; done.
  - intros s a. cbn. unfold atomic_GetAccount. destruct (atomic_own s !! a) eqn:E; [done|].
    pose proof (GetAccount_found (atomic_parent s) a) as Hf. pose proof (GetAccount_keeps (atomic_parent s) a) as Hk.
    destruct (GetAccount (atomic_parent s) a) as [[x|] p]; cbn in *; rewrite Hk; [|done].
    rewrite <- insert_union_l. apply insert_id. by rewrite lookup_union, E, <- Hf.
  - intros s a x. cbn. symmetry. apply insert_union_l.
  - intros s a x. cbn. rewrite lookup_union. destruct (atomic_own s !! a) eqn:E; cbn.
    + by destruct (view _ !! a).
    + intros _. symmetry. apply insert_union_l.
  - intros s a. apply union_erase.
  - intros s a. cbn. unfold atomic_GetAccount. destruct (atomic_own s !! a); [done|].
    pose proof (GetAccount_keeps (atomic_parent s) a) as Hk. by destruct (GetAccount (atomic_parent s) a) as [[x|] p].
  - done.
  - intros s a x. cbn. by destruct (atomic_own s !! a).
  - done.
Defined.

Lemma view_atomic s : view s = atomic_own s ∪ view (atomic_parent s).
Proof. done. Qed.

Lemma view_own s a x : atomic_own s !! a = Some x -> view s !! a = Some x.
Proof. intros E. rewrite view_atomic, lookup_union, E. by destruct (view _ !! a). Qed.

(** A step of a chain of calls, seen from the accounts: balances move within the
    atomic view, no nonce changes there, and the store below gets at most new empty
    accounts and higher nonces. *)
Definition sound s : Prop := accounts_ok (view s) /\ accounts_ok (view (atomic_parent s)).

Record chain_step s s' : Prop := {
  cs_sound : sound s';
  cs_total : total (view s') = total (view s);
  cs_nonce : forall a, nonce_at (view s') a = nonce_at (view s) a;
  cs_some : forall a, is_Some (view s !! a) -> is_Some (view s' !! a);
  cs_own : forall a, is_Some (atomic_own s !! a) -> is_Some (atomic_own s' !! a);
  cs_below : forall a, balance_at (view (atomic_parent s')) a = balance_at (view (atomic_parent s)) a;
  cs_below_total : total (view (atomic_parent s')) = total (view (atomic_parent s));
  cs_below_nonce : forall a, nonce_at (view (atomic_parent s)) a <= nonce_at (view (atomic_parent s')) a;
  cs_below_some : forall a, is_Some (view (atomic_parent s) !! a) -> is_Some (view (atomic_parent s') !! a);
  cs_hidden : hidden (atomic_parent s') = hidden (atomic_parent s)
}.

Definition chain_rel s s' : Prop := sound s -> chain_step s s'.

#[global] Instance chain_rel_preorder : PreOrder chain_rel.
Proof.
  split.
  - intros s Hs. by split.
  - intros s1 s2 s3 H12 H23 Hs. destruct (H12 Hs) as [Hs2 ? ? ? ? ? ? Hn1 ? ?].
    destruct (H23 Hs2) as [? ? ? ? ? ? ? Hn2 ? ?].
    split; try done; try congruence; try (intros a; by auto || congruence).
    intros a. etrans; [apply Hn1|apply Hn2].
Qed.

(** Steps that keep the store below. *)
Lemma chain_rel_keeps s s' :
  (sound s -> accounts_ok (view s') /\ total (view s') = total (view s) /\
   (forall a, nonce_at (view s') a = nonce_at (view s) a) /\
   (forall a, is_Some (view s !! a) -> is_Some (view s' !! a))) ->
  (forall a, is_Some (atomic_own s !! a) -> is_Some (atomic_own s' !! a)) ->
  view (atomic_parent s') = view (atomic_parent s) -> hidden (atomic_parent s') = hidden (atomic_parent s) ->
  chain_rel s s'.
Proof.
  intros Hv Ho Hp Hh Hs. destruct (Hv Hs) as (H1 & H2 & H3 & H4). split; try done; rewrite ?Hp; try done.
  split; [done|]. rewrite Hp. apply Hs.
Qed.

(** What the operations of the base class do to the parts of the atomic store. *)
Definition below_kept s s' : Prop :=
  view (atomic_parent s') = view (atomic_parent s) /\ hidden (atomic_parent s') = hidden (atomic_parent s) /\
  forall a, is_Some (atomic_own s !! a) -> is_Some (atomic_own s' !! a).

#[global] Instance below_kept_preorder : PreOrder below_kept.
Proof.
  split; [by intros s|]. intros s1 s2 s3 (H1 & H1' & H1'') (H2 & H2' & H2''). split; [congruence|]. split; [congruence|auto].
Qed.

Lemma insert_some (m : gmap Z Account) b x a : is_Some (m !! a) -> is_Some (<[b := x]> m !! a).
Proof. intros Ha. destruct (decide (b = a)) as [->|]; [by rewrite lookup_insert_eq|by rewrite lookup_insert_ne]. Qed.

Lemma atomic_GetAccount_kept s a : below_kept s (GetAccount s a).2.
Proof.
  cbn. unfold atomic_GetAccount. destruct (atomic_own s !! a) eqn:E; [done|].
  pose proof (GetAccount_keeps (atomic_parent s) a) as Hk. pose proof (GetAccount_hidden (atomic_parent s) a) as Hh.
  destruct (GetAccount (atomic_parent s) a) as [[x|] p]; cbn in *; (split; [done|]); (split; [done|]); [|done].
  intros b. cbn. apply insert_some.
Qed.

Lemma atomic_set_kept s a x : below_kept s (store_set s a x).
Proof. split; [done|]. split; [done|]. intros b. cbn. apply insert_some. Qed.

Lemma atomic_insert_kept s a x : below_kept s (store_insert s a x).
Proof. cbn. destruct (atomic_own s !! a); [done|]. split; [done|]. split; [done|]. intros b. cbn. apply insert_some. Qed.

Lemma AddAccount_kept s a x : below_kept s (AddAccount s a x).
Proof.
  unfold AddAccount, IsAccountExist. pose proof (atomic_GetAccount_kept s a) as Hk.
  destruct (GetAccount s a) as [[y|] s1]; cbn [fst snd negb] in *; [done|]. etrans; [done|].
  apply atomic_insert_kept.
Qed.

Lemma DecreaseBalance_kept s a d : below_kept s (DecreaseBalance s a d).2.
Proof.
  unfold DecreaseBalance. destruct (d =? 0); [done|]. pose proof (atomic_GetAccount_kept s a) as Hk.
  destruct (GetAccount s a) as [[y|] s1]; cbn [fst snd] in *; [|done].
  destruct (Account_DecreaseBalance y d) as [ok z]. cbn [snd]. etrans; [done|]. apply atomic_set_kept.
Qed.

Lemma IncreaseBalance_kept s a d : below_kept s (IncreaseBalance ACCOUNT_VERSION s a d).2.
Proof.
  unfold IncreaseBalance. destruct (d =? 0); [done|]. pose proof (atomic_GetAccount_kept s a) as Hk.
  destruct (GetAccount s a) as [[y|] s1]; cbn [fst snd] in *; (etrans; [done|]).
  - destruct (Account_IncreaseBalance y d) as [ok z]. apply atomic_set_kept.
  - apply AddAccount_kept.
Qed.

Lemma TransferBalance_kept s from to d ok s' :
  TransferBalance ACCOUNT_VERSION s from to d = Ret (ok, s') -> below_kept s s'.
Proof.
  unfold TransferBalance. pose proof (DecreaseBalance_kept s from d) as H1.
  destruct (DecreaseBalance s from d) as [ok1 s1]. destruct ok1; cbn [negb snd] in *; [|by intros [= <- <-]].
  pose proof (IncreaseBalance_kept s1 to d) as H2. destruct (IncreaseBalance _ s1 to d) as [ok2 s2].
  destruct ok2; cbn [snd] in *; [intros [= <- <-]; by etrans|].
  pose proof (IncreaseBalance_kept s2 from d) as H3. destruct (IncreaseBalance _ s2 from d) as [ok3 s3].
  destruct ok3; cbn [negb snd] in *; [|done]. intros [= <- <-]. etrans; [done|]. by etrans.
Qed.

End atomic.

(** ** Steps of a chain *)

Section steps.
Context `{Hsm : SafeMathSpec} {S : Type} `{Hstore : AccountMapSpec S} (ACCOUNT_VERSION : Z).

Implicit Types s : AtomicStore S.

Lemma chain_transfer s from to d ok s' :
  0 <= d < 2 ^ 128 -> TransferBalance ACCOUNT_VERSION s from to d = Ret (ok, s') -> chain_rel s s'.
Proof.
  intros Hd E. destruct (TransferBalance_kept ACCOUNT_VERSION s from to d ok s' E) as (Hp & Hh & Ho).
  apply chain_rel_keeps; [|done..]. intros Hs.
  destruct (TransferBalance_conserves ACCOUNT_VERSION s from to d (proj1 Hs) Hd) as (ok1 & s1 & E1 & Hrest).
  rewrite E in E1. by injection E1 as <- <-.
Qed.

Lemma chain_get s a : chain_rel s (GetAccount s a).2.
Proof.
  pose proof (GetAccount_keeps s a) as Hk. destruct (atomic_GetAccount_kept s a) as (Hp & Hh & Ho).
  apply chain_rel_keeps; [|done..]. intros [Hs _]. by rewrite Hk.
Qed.

Lemma chain_root s a x root :
  atomic_own s !! a = Some x -> chain_rel s (store_set s a (acc_storageRoot x root)).
Proof.
  intros E%view_own. destruct (atomic_set_kept s a (acc_storageRoot x root)) as (Hp & Hh & Ho).
  apply chain_rel_keeps; [|done..]. intros [Hs _]. rewrite store_set_view.
  split; [apply map_Forall_insert_2; [exact (Hs _ _ E)|done]|]. split.
  { rewrite total_insert. unfold balance_at. rewrite E. cbn. lia. }
  split; [|by intros; apply insert_some]. intros b. unfold nonce_at.
  destruct (decide (a = b)) as [<-|]; [by rewrite lookup_insert_eq, E|by rewrite lookup_insert_ne].
Qed.

Lemma AddAccount_view (s : S) a x :
  view s !! a = None -> view (AddAccount s a x) = <[a := x]> (view s).
Proof.
  intros Ha. unfold AddAccount, IsAccountExist. pose proof (GetAccount_found s a) as Hf.
  pose proof (GetAccount_keeps s a) as Hk. destruct (GetAccount s a) as [y s1]; cbn [fst snd] in *.
  rewrite Ha in Hf. subst y. cbn [negb]. by rewrite store_insert_view; rewrite Hk.
Qed.

(** No operation of the base class changes what is below. *)
Lemma AddAccount_hidden (s : S) a x : hidden (AddAccount s a x) = hidden s.
Proof.
  unfold AddAccount, IsAccountExist. pose proof (GetAccount_hidden s a) as Hk.
  destruct (GetAccount s a) as [[y|] s1]; cbn [fst snd negb] in *; [done|]. by rewrite store_insert_hidden.
Qed.

Lemma IncreaseNonce_hidden (s : S) a : hidden (IncreaseNonce s a).2 = hidden s.
Proof.
  unfold IncreaseNonce. pose proof (GetAccount_hidden s a) as Hk.
  destruct (GetAccount s a) as [[y|] s1]; cbn [fst snd] in *; [|done].
  destruct (Account_IncreaseNonce y) as [ok z]. cbn [snd]. by rewrite store_set_hidden.
Qed.

Lemma IncreaseBalance_hidden (s : S) a d : hidden (IncreaseBalance ACCOUNT_VERSION s a d).2 = hidden s.
Proof.
  unfold IncreaseBalance. destruct (d =? 0); [done|]. pose proof (GetAccount_hidden s a) as Hk.
  destruct (GetAccount s a) as [[y|] s1]; cbn [fst snd] in *; [|by rewrite AddAccount_hidden].
  destruct (Account_IncreaseBalance y d) as [ok z]. cbn [snd]. by rewrite store_set_hidden.
Qed.

Lemma DecreaseBalance_hidden (s : S) a d : hidden (DecreaseBalance s a d).2 = hidden s.
Proof.
  unfold DecreaseBalance. destruct (d =? 0); [done|]. pose proof (GetAccount_hidden s a) as Hk.
  destruct (GetAccount s a) as [[y|] s1]; cbn [fst snd] in *; [|done].
  destruct (Account_DecreaseBalance y d) as [ok z]. cbn [snd]. by rewrite store_set_hidden.
Qed.

Lemma TransferBalance_hidden (s s' : S) from to d ok :
  TransferBalance ACCOUNT_VERSION s from to d = Ret (ok, s') -> hidden s' = hidden s.
Proof.
  unfold TransferBalance. pose proof (DecreaseBalance_hidden s from d) as Hk1.
  destruct (DecreaseBalance s from d) as [ok1 s1]. destruct ok1; cbn [negb snd] in *; [|by intros [= <- <-]].
  pose proof (IncreaseBalance_hidden s1 to d) as Hk2. destruct (IncreaseBalance _ s1 to d) as [ok2 s2].
  destruct ok2; cbn [snd] in *; [intros [= <- <-]; congruence|].
  pose proof (IncreaseBalance_hidden s2 from d) as Hk3. destruct (IncreaseBalance _ s2 from d) as [ok3 s3].
  destruct ok3; cbn [negb snd] in *; [|done]. intros [= <- <-]. congruence.
Qed.

(** A new empty account below. *)
Lemma new_account_facts (m : gmap Z Account) a :
  m !! a = None ->
  let m' := <[a := Account_new ACCOUNT_VERSION 0 0]> m in
  (accounts_ok m -> accounts_ok m') /\ total m' = total m /\
  (forall b, nonce_at m' b = nonce_at m b) /\ (forall b, balance_at m' b = balance_at m b).
Proof.
  intros Ha m'. split; [intros Hm; apply map_Forall_insert_2; [by split|done]|]. split.
  { unfold m'. rewrite total_insert. unfold balance_at. rewrite Ha. cbn. lia. }
  split; intros b; unfold m', nonce_at, balance_at; destruct (decide (a = b)) as [<-|];
    rewrite ?lookup_insert_eq, ?Ha, ?lookup_insert_ne by done; done.
Qed.

Lemma chain_add s a :
  (GetAccount s a).1 = None ->
  chain_rel s (mkAtomic (atomic_own s) (AddAccount (atomic_parent s) a (Account_new ACCOUNT_VERSION 0 0))).
Proof.
  rewrite GetAccount_found. intros Ha [Hs Hsp].
  assert (view (atomic_parent s) !! a = None) as Hap.
  { rewrite view_atomic, lookup_union in Ha. destruct (atomic_own s !! a), (view (atomic_parent s) !! a); done. }
  assert (atomic_own s !! a = None) as Hao.
  { rewrite view_atomic, lookup_union in Ha. destruct (atomic_own s !! a), (view (atomic_parent s) !! a); done. }
  set (s' := mkAtomic _ _).
  assert (view (atomic_parent s') = <[a := Account_new ACCOUNT_VERSION 0 0]> (view (atomic_parent s))) as Hp
    by (by apply AddAccount_view).
  assert (view s' = <[a := Account_new ACCOUNT_VERSION 0 0]> (view s)) as Hv.
  { rewrite !view_atomic, Hp. symmetry. by apply insert_union_r. }
  destruct (new_account_facts _ _ Ha) as (H1 & H2 & H3 & H4).
  destruct (new_account_facts _ _ Hap) as (H1' & H2' & H3' & H4').
  split; rewrite ?Hp, ?Hv; auto.
  - split; rewrite ?Hp, ?Hv; auto.
  - intros b. apply insert_some.
  - intros b. rewrite H3'. lia.
  - intros b. apply insert_some.
  - apply AddAccount_hidden.
Qed.

(** The nonce of an account that the atomic store has a copy of. *)
Lemma chain_nonce s a :
  is_Some (atomic_own s !! a) ->
  chain_rel s (mkAtomic (atomic_own s) (IncreaseNonce (atomic_parent s) a).2).
Proof.
  intros Hown [Hs Hsp]. set (s' := mkAtomic _ _).
  assert (accounts_ok (view (atomic_parent s')) /\ total (view (atomic_parent s')) = total (view (atomic_parent s)) /\
    (forall b, balance_at (view (atomic_parent s')) b = balance_at (view (atomic_parent s)) b) /\
    (forall b, nonce_at (view (atomic_parent s)) b <= nonce_at (view (atomic_parent s')) b) /\
    (forall b, b <> a -> view (atomic_parent s') !! b = view (atomic_parent s) !! b) /\
    (forall b, is_Some (view (atomic_parent s) !! b) -> is_Some (view (atomic_parent s') !! b)))
    as (H1 & H2 & H3 & H4 & H5 & H6).
  { unfold s'. cbn. destruct (view (atomic_parent s) !! a) as [x|] eqn:Ex.
    - pose proof (IncreaseNonce_effect (atomic_parent s) a Hsp ltac:(by rewrite Ex)) as Hi.
      unfold IncreaseNonce in *. pose proof (GetAccount_found (atomic_parent s) a) as Hf.
      pose proof (GetAccount_keeps (atomic_parent s) a) as Hk.
      destruct (GetAccount (atomic_parent s) a) as [y s1]; cbn [fst snd] in Hf, Hk. rewrite Ex in Hf. subst y.
      destruct (Account_IncreaseNonce x) as [ok z]. destruct Hi as (Hok & Hb & Hn & Ht & Ha). cbn [snd].
      split; [done|]. split; [done|]. split; [done|]. split; [|split].
      + intros b. rewrite Hn. destruct (ok && _); lia.
      + intros b Hb'. rewrite store_set_view, Hk. by apply lookup_insert_ne.
      + intros b Hb'. rewrite store_set_view, Hk. by apply insert_some.
    - unfold IncreaseNonce. pose proof (GetAccount_found (atomic_parent s) a) as Hf.
      pose proof (GetAccount_keeps (atomic_parent s) a) as Hk.
      destruct (GetAccount (atomic_parent s) a) as [y s1]; cbn [fst snd] in Hf, Hk. rewrite Ex in Hf. subst y.
      cbn [snd]. rewrite Hk. do 3 (split; [done|]). split; [intros b; lia|]. by split. }
  assert (view s' = view s) as Hv.
  { rewrite !view_atomic. apply map_eq. intros b. rewrite !lookup_union. unfold s'. cbn [atomic_own].
    destruct (decide (b = a)) as [->|Hb]; [|by rewrite H5].
    destruct Hown as [z ->]. by destruct (view _ !! a), (view _ !! a). }
  split; rewrite ?Hv; auto; [split; [by rewrite Hv|done]|]. apply IncreaseNonce_hidden.
Qed.

(** Writing the atomic store to the store: the store then is what the atomic store
    showed. *)
Lemma CommitTransferAtomic_view (own : gmap Z Account) (s : S) :
  view (map_fold commit_entry s own) = own ∪ view s.
Proof.
  apply (map_fold_weak_ind (fun r m => view r = m ∪ view s)); [by rewrite map_empty_union|].
  intros a x m r Ha IH. unfold commit_entry. pose proof (GetAccount_found r a) as Hf.
  pose proof (GetAccount_keeps r a) as Hk. destruct (GetAccount r a) as [[y|] r1]; cbn [fst snd] in *.
  - by rewrite store_set_view, Hk, IH, insert_union_l.
  - rewrite AddAccount_view by (rewrite Hk; by symmetry). by rewrite Hk, IH, insert_union_l.
Qed.

End steps.

(** ** Execution *)

(** Only the temporary layer and the undo buffer of the contract states differ. *)
Definition tp_only {DB} (c c' : ContractStorage DB) : Prop :=
  c' = set_p (set_t c (t_stateIndexMap c') (t_stateDataMap c')) (p_stateIndexMap c') (p_stateDataMap c').

#[global] Instance tp_only_preorder {DB} : PreOrder (@tp_only DB).
Proof. split; [by intros []|]. intros c1 c2 c3 H1 H2. unfold tp_only in *. rewrite H2, H1. done. Qed.

Definition same_buffer {DB} (c c' : ContractStorage DB) : Prop :=
  p_stateIndexMap c' = p_stateIndexMap c /\ p_stateDataMap c' = p_stateDataMap c.

Section properties.
Context `{Hssl : OpenSSL} `{Hproto : StateProto} {DB : Type} `{Hdb : leveldb DB} {J : Type} `{Hjson : Json J}.
Context `{Hcast : LexicalCast} `{Hlex : !LexicalCastSpec} `{Hwriter : ReceiptWriter J} `{Hmath : SafeMath}.
Context `{Hsm : !SafeMathSpec} {S : Type} `{Hmap : AccountMap S} `{Hstore : !AccountMapSpec S}.
Context {W : Type} `{Henv : Environment W}.
Context {PubKey : Type} (GetAddressFromPublicKey : PubKey -> Z).
Context (CONTRACT_STATE_VERSION ACCOUNT_VERSION : Z) (index_fuel : nat) (scilla : ScillaConfig) (gas : GasConfig).
Abbreviation SC := (AccountStoreSC S DB W).
Implicit Types (st : SC) (receipt : TransactionReceipt J).

(** The gas constants are unsigned, the depth can be counted. *)
Record gas_ok : Prop := {
  gas_create : 0 <= CONTRACT_CREATE_GAS gas < 2 ^ 32;
  gas_invoke : 0 <= CONTRACT_INVOKE_GAS gas < 2 ^ 32;
  gas_normal : 0 <= NORMAL_TRAN_GAS gas < 2 ^ 32;
  gas_depth : 0 <= MAX_CONTRACT_DEPTH gas < 2 ^ 32 - 1
}.

Definition amount_ok st : Prop := 0 <= m_curAmount st < 2 ^ 128.

(** A step that leaves the states of contracts and the position in the chain alone. *)
Record hop_step st st' : Prop := {
  hop_accounts : chain_rel (sc_accounts st) (sc_accounts st');
  hop_contracts : sc_contracts st' = sc_contracts st;
  hop_depth : m_curDepth st' = m_curDepth st;
  hop_contract : m_curContractAddr st' = m_curContractAddr st;
  hop_amount : amount_ok st -> amount_ok st'
}.

#[global] Instance hop_step_preorder : PreOrder hop_step.
Proof.
  split; [by intros st; split|]. intros s1 s2 s3 [? ? ? ? ?] [? ? ? ? ?].
  split; [by etrans|congruence..|auto].
Qed.

Lemma hop_transfer st from to d ok st' :
  0 <= d < 2 ^ 128 -> TransferBalanceAtomic ACCOUNT_VERSION st from to d = Ret (ok, st') -> hop_step st st'.
Proof.
  intros Hd E. unfold TransferBalanceAtomic in E. unbind E. destruct v as [ok1 s]. injection E as <- <-.
  split; try done. by eapply chain_transfer.
Qed.

Lemma hop_get st a r st' :
  on_atomic st (fun s => GetAccount s a) = (r, st') ->
  hop_step st st' /\ r = view (sc_accounts st) !! a /\ view (sc_accounts st') = view (sc_accounts st) /\
  (is_Some r -> is_Some (atomic_own (sc_accounts st') !! a)).
Proof.
  unfold on_atomic. pose proof (GetAccount_keeps (sc_accounts st) a) as Hk. pose proof (chain_get (sc_accounts st) a) as Hc. pose proof (GetAccount_found (sc_accounts st) a) as Hf.
  assert (forall x, (GetAccount (sc_accounts st) a).1 = Some x ->
    is_Some (atomic_own (GetAccount (sc_accounts st) a).2 !! a)) as Hown.
  { cbn. unfold atomic_GetAccount. destruct (atomic_own (sc_accounts st) !! a) eqn:E; [by cbn; rewrite E|].
    destruct (GetAccount (atomic_parent (sc_accounts st)) a) as [[y|] p]; cbn; [|done]. by rewrite lookup_insert_eq. }
  destruct (GetAccount (sc_accounts st) a) as [y s]; cbn [fst snd] in *. intros [= <- <-].
  split; [by split|]. split; [done|]. split; [done|]. cbn. intros [x ->]. by eapply Hown.
Qed.

Lemma hop_add st a :
  view (sc_accounts st) !! a = None ->
  hop_step st (sc_set_store st (AddAccount (sc_store st) a (Account_new ACCOUNT_VERSION 0 0))).
Proof. intros Ha. split; try done. apply chain_add. by rewrite GetAccount_found. Qed.

(** The recipient of a message: an account that is there, or a new empty one. *)
Lemma hop_recipient st a account st' :
  (let '(account, st) := on_atomic st (fun s => GetAccount s a) in
   match account with
   | Some account => (Some account, st)
   | None =>
       let st := sc_set_store st (AddAccount (sc_store st) a (Account_new ACCOUNT_VERSION 0 0)) in
       on_atomic st (fun s => GetAccount s a)
   end) = (account, st') ->
  hop_step st st' /\ (is_Some account -> is_Some (atomic_own (sc_accounts st') !! a)).
Proof.
  destruct (on_atomic st _) as [acc1 st1] eqn:E1. apply hop_get in E1 as (H1 & Hr1 & Hv1 & Ho1).
  destruct acc1 as [x|]; [by intros [= <- <-]|]. cbv zeta. intros (H2 & _ & _ & Ho2)%hop_get.
  split; [|done]. etrans; [exact H1|]. etrans; [|exact H2]. apply hop_add. by rewrite Hv1.
Qed.

Lemma handle_message_step st message receipt result st' receipt' :
  handle_message ACCOUNT_VERSION st message receipt = Ret (result, st', receipt') ->
  hop_step st st' /\ (forall r, result = CallNext r -> is_Some (atomic_own (sc_accounts st') !! r)).
Proof.
  intros E. unfold handle_message in E. destruct (J_isNull message); [by simplify_eq|].
  destruct (J_isObject message); cbn [negb] in E; [|by simplify_eq].
  apply bind_Ret in E as (ok & _ & E). destruct ok; cbn [negb] in E; [|by simplify_eq].
  apply bind_Ret in E as (s & _ & E). destruct (lexical_cast 128 s) as [amount|] eqn:Ea; [|by simplify_eq].
  apply lexical_cast_range in Ea. apply bind_Ret in E as (s1 & _ & E). apply bind_Ret in E as (recipient & _ & E).
  assert (hop_step st (sc_set_amount st amount)) as H0' by by split.
  destruct (recipient =? 0); [by simplify_eq|].
  destruct (on_atomic (sc_set_amount st amount) _) as [acc1 st1] eqn:E1.
  destruct (match acc1 with Some _ => _ | None => _ end) as [acc2 st2] eqn:E2.
  destruct (hop_recipient (sc_set_amount st amount) recipient acc2 st2) as [H2 Ho2]; [by rewrite E1|].
  destruct acc2 as [account|]; [|done]. apply bind_Ret in E as ([ok st3] & E3 & E).
  assert (hop_step st st3) as H3.
  { etrans; [exact H0'|]. etrans; [exact H2|]. destruct (isContract account); cbn [negb] in E3; [by simplify_eq|].
    eapply hop_transfer; [|exact E3]. by apply (hop_amount _ _ H2). }
  destruct ok; cbn [negb] in E; [|by simplify_eq]. apply bind_Ret in E as (tag & _ & E).
  injection E as <- <- <-. split; [done|]. intros r Hr.
  destruct (isContract account); cbn [negb orb] in *; [|done]. injection E3 as <-.
  destruct (is_empty tag); simplify_eq. apply Ho2. eauto.
Qed.

Lemma read_gas_bound _json penalty g receipt ok g' receipt' :
  0 <= penalty -> 0 <= g -> read_gas _json penalty g receipt = Ret (ok, g', receipt') -> 0 <= g' <= g.
Proof.
  intros Hp Hg E. unfold read_gas in E. apply bind_Ret in E as (found & _ & E). destruct found; cbn [negb] in E.
  - apply bind_Ret in E as (s & _ & E). destruct (lexical_cast 64 s) as [x|] eqn:Ex; injection E as <- <- <-; [|lia].
    apply lexical_cast_range in Ex. lia.
  - injection E as <- <- <-. destruct (Z.gtb_spec g penalty); lia.
Qed.

Lemma accept_output_step st _json g receipt result entries g' st' receipt' :
  gas_ok -> amount_ok st -> 0 <= g ->
  accept_output ACCOUNT_VERSION gas st _json g receipt = Ret (result, entries, g', st', receipt') ->
  hop_step st st' /\ 0 <= g' <= g /\
  (forall r, result = CallNext r -> is_Some (atomic_own (sc_accounts st') !! r)).
Proof.
  intros Hgas Ham Hg E. unfold accept_output in E. apply bind_Ret in E as ([[ok g1] r1] & Eg & E).
  apply read_gas_bound in Eg; [|apply Hgas|done].
  assert (hop_step st st) as Hrefl by reflexivity.
  destruct ok; cbn [negb] in E; [|injection E as <- <- <- <- <-; done].
  apply bind_Ret in E as ([ok r2] & _ & E). destruct ok; cbn [negb] in E; [|injection E as <- <- <- <- <-; done].
  apply bind_Ret in E as (found & _ & E). destruct found; cbn [negb] in E; [|injection E as <- <- <- <- <-; done].
  apply bind_Ret in E as (acc & _ & E). apply bind_Ret in E as ([ok st1] & E1 & E).
  assert (hop_step st st1) as H1.
  { case_bool_decide; [by eapply hop_transfer|by simplify_eq]. }
  destruct ok; cbn [negb] in E; [|injection E as <- <- <- <- <-; done].
  destruct (on_atomic st1 _) as [ca st2] eqn:E2. apply hop_get in E2 as (H2 & _).
  assert (hop_step st st2) as H2' by by etrans.
  destruct ca as [x|]; [|injection E as <- <- <- <- <-; done].
  destruct (parse_states_events _ _ _) as [[ents|] r3]; [|injection E as <- <- <- <- <-; done].
  apply bind_Ret in E as (msg & _ & E). apply bind_Ret in E as ([[res st3] r4] & E3 & E).
  injection E as <- <- <- <- <-. apply handle_message_step in E3 as [H3 Hr]. split; [by etrans|]. done.
Qed.

(** Writing the states of a contract into the temporary layer. *)
Lemma PutContractState_tp fuel (c : ContractStorage DB) a states h ok h' c' :
  PutContractState CONTRACT_STATE_VERSION fuel c a states h true = Ret (ok, h', c') ->
  tp_only c c' /\ same_buffer c c' /\ (ok = false -> c' = c).
Proof.
  intros E. unfold PutContractState in E. apply bind_Ret in E as (idx & _ & E).
  apply bind_Ret in E as (entries & _ & E). destruct entries as [entries|]; [|injection E as <- <- <-; done].
  unfold PutContractState_entries in E. destruct (a =? 0); [injection E as <- <- <-; done|].
  apply bind_Ret in E as (idx1 & _ & E). rewrite put_entries_temp in E.
  unfold SetContractStateIndexes, SetStateIndex, proto_write in E. cbn [negb] in E.
  apply bind_Ret in E as (hh & _ & E). injection E as <- <- <-. done.
Qed.

(** A step that may write states. *)
Record write_step st st' : Prop := {
  ws_accounts : chain_rel (sc_accounts st) (sc_accounts st');
  ws_contracts : tp_only (sc_contracts st) (sc_contracts st');
  ws_buffer : same_buffer (sc_contracts st) (sc_contracts st')
}.

#[global] Instance write_step_preorder : PreOrder write_step.
Proof.
  split; [by intros st; split|]. intros s1 s2 s3 [? ? [B1 B2]] [? ? [B3 B4]].
  split; [by etrans..|]. split; congruence.
Qed.

Lemma hop_write st st' : hop_step st st' -> write_step st st'.
Proof. intros [? Hc ? ? ?]. split; [done| |]; by rewrite Hc. Qed.

Lemma store_states_step st contract entries ok st' :
  store_states CONTRACT_STATE_VERSION index_fuel st contract entries true = Ret (ok, st') ->
  write_step st st' /\ m_curDepth st' = m_curDepth st /\ m_curContractAddr st' = m_curContractAddr st /\
  (amount_ok st -> amount_ok st') /\ (ok = false -> sc_contracts st' = sc_contracts st) /\
  is_Some (atomic_own (sc_accounts st') !! contract).
Proof.
  intros E. unfold store_states in E. destruct (atomic_own (sc_accounts st) !! contract) as [x|] eqn:Ex; [|done].
  apply bind_Ret in E as ([[ok1 x1] c1] & E1 & E). injection E as <- <-. unfold SetStorage in E1.
  assert (exists root, x1 = acc_storageRoot x root /\ tp_only (sc_contracts st) c1 /\ same_buffer (sc_contracts st) c1 /\
    (ok1 = false -> c1 = sc_contracts st)) as (root & -> & Htp & Hb & Hf).
  { destruct (isContract x); cbn [negb] in E1.
    - apply bind_Ret in E1 as ([[ok2 root] c2] & E2 & E1). injection E1 as <- <- <-.
      apply PutContractState_tp in E2. by exists root.
    - injection E1 as <- <- <-. exists (m_storageRoot x). split; [by destruct x|]. done. }
  split; [split; [by apply chain_root|done|done]|]. do 3 (split; [done|]). split; [done|].
  cbn. by rewrite lookup_insert_eq.
Qed.

(** Exporting files and running commands touch the outside only. *)
Record outside_step st st' : Prop := {
  os_accounts : sc_accounts st' = sc_accounts st;
  os_contracts : sc_contracts st' = sc_contracts st;
  os_depth : m_curDepth st' = m_curDepth st;
  os_contract : m_curContractAddr st' = m_curContractAddr st;
  os_amount : m_curAmount st' = m_curAmount st
}.

#[global] Instance outside_step_preorder : PreOrder outside_step.
Proof. split; [by intros st; split|]. intros s1 s2 s3 [] []. split; congruence. Qed.

Lemma outside_hop st st' : outside_step st st' -> hop_step st st'.
Proof. intros [Ha ? ? ? Hm]. split; rewrite ?Ha; try done. unfold amount_ok. by rewrite Hm. Qed.

Lemma ExportFiles_outside st contract states status st' :
  ExportFiles CONTRACT_STATE_VERSION scilla st contract states = Ret (status, st') -> outside_step st st'.
Proof.
  intros E. unfold ExportFiles in E. destruct (env_prepare _) as [ok w]. destruct ok; cbn [negb] in E;
    [|injection E as <- <-; by split].
  apply bind_Ret in E as (roots & _ & E). destruct roots as [[[init state] ver]|]; [|injection E as <- <-; by split].
  unfold PrepareRootPathWVersion in E.
  destruct (env_exists _ _); cbn [negb] in E; [|injection E as <- <-; by split].
  apply bind_Ret in E as (files & _ & E). destruct files as [files|]; [|injection E as <- <-; by split].
  destruct (write_files _ _) as [ok w2]. injection E as <- <-. by split.
Qed.

Lemma write_message_outside st message status st' :
  write_message scilla st message = (status, st') -> outside_step st st'.
Proof. unfold write_message. destruct (env_write _ _ _) as [ok w]. intros [= <- <-]. by split. Qed.

Lemma ExportCallContractFiles_outside st contract message status st' :
  ExportCallContractFiles CONTRACT_STATE_VERSION scilla st contract message = Ret (status, st') -> outside_step st st'.
Proof.
  intros E. unfold ExportCallContractFiles in E. apply bind_Ret in E as ([s1 st1] & E1 & E).
  apply ExportFiles_outside in E1. etrans; [exact E1|]. destruct s1; [|by injection E as <- <-..].
  injection E as E. by eapply write_message_outside.
Qed.

Lemma ExportCallContractFiles_tx_outside st contract tx status st' :
  ExportCallContractFiles_tx GetAddressFromPublicKey CONTRACT_STATE_VERSION scilla st contract tx = Ret (status, st') ->
  outside_step st st'.
Proof.
  intros E. unfold ExportCallContractFiles_tx in E. apply bind_Ret in E as ([s1 st1] & E1 & E).
  apply ExportFiles_outside in E1. etrans; [exact E1|]. destruct s1; [|by injection E as <- <-..].
  apply bind_Ret in E as (msg & _ & E). destruct msg; [|by injection E as <- <-].
  injection E as E. by eapply write_message_outside.
Qed.

Lemma run_command_outside st cmd receipt ok out st' receipt' :
  run_command st cmd receipt = (ok, out, st', receipt') -> outside_step st st'.
Proof.
  unfold run_command. destruct (env_execute _ _) as [e w].
  destruct (match e with Executed _ => _ | ExecuteFailed => _ | ExecuteThrew => _ end) as [[ok1 out1] r1].
  destruct (env_timeout w); intros [= <- <- <- <-]; by split.
Qed.

(** After a hop, the nonce of the contract that made the call. *)
Lemma chain_then_nonce (s s' : AtomicStore S) a :
  is_Some (atomic_own s !! a) -> chain_rel s s' ->
  chain_rel s (mkAtomic (atomic_own s') (IncreaseNonce (atomic_parent s') a).2).
Proof.
  intros Ha Hc Hs. pose proof (Hc Hs) as Hstep. revert Hs. change (chain_rel s (mkAtomic (atomic_own s')
    (IncreaseNonce (atomic_parent s') a).2)). etrans; [exact Hc|]. apply chain_nonce. by apply Hstep.
Qed.

(** What the execution of a chain does: to the accounts, the gas, the depth, and
    the contract states with their undo buffer. *)
Record chain_result st (first ok : bool) (g g' : Z) st' : Prop := {
  ch_accounts : chain_rel (sc_accounts st) (sc_accounts st');
  ch_contracts : tp_only (sc_contracts st) (sc_contracts st');
  ch_gas : 0 <= g' <= g;
  ch_depth : m_curDepth st <= m_curDepth st';
  ch_later : first = false -> same_buffer (sc_contracts st) (sc_contracts st');
  ch_first : first = true ->
    (m_curDepth st' = m_curDepth st /\ (ok = false -> sc_contracts st' = sc_contracts st)) \/
    (m_curDepth st < m_curDepth st' /\
     p_stateIndexMap (sc_contracts st') = t_stateIndexMap (sc_contracts st) /\
     p_stateDataMap (sc_contracts st') = t_stateDataMap (sc_contracts st))
}.

Lemma chain_result_hop st first ok g g' st' :
  hop_step st st' -> 0 <= g' <= g -> chain_result st first ok g g' st'.
Proof.
  intros [Ha Hc Hd ? ?] Hg. split; rewrite ?Hc; try done; [lia|]. intros _. left. split; [lia|done].
Qed.

Lemma chain_result_deeper st st0 st1 first ok g g' st' :
  hop_step st st0 -> write_step (buffered first st0) st1 -> m_curDepth st1 = m_curDepth st0 ->
  chain_rel (sc_accounts st1) (sc_accounts st') -> tp_only (sc_contracts st1) (sc_contracts st') ->
  same_buffer (sc_contracts st1) (sc_contracts st') -> 0 <= g' <= g -> m_curDepth st0 + 1 <= m_curDepth st' ->
  chain_result st first ok g g' st'.
Proof.
  intros [Ha Hc Hd _ _] [Wa Wc [Wb Wb']] Hd1 Hacc Htp [Hb Hb'] Hg Hdep. split; try done.
  - etrans; [exact Ha|]. etrans; [|exact Hacc]. by destruct first.
  - rewrite <- Hc. etrans; [|exact Htp]. destruct first; [|done]. etrans; [|exact Wc]. done.
  - lia.
  - intros ->. cbn in *. split; congruence.
  - intros ->. right. cbn in *. split; [lia|]. split; congruence.
Qed.

(** Calling the next contract. *)
Lemma call_next_step st json recipient g receipt print st' receipt' :
  gas_ok -> 0 <= m_curDepth st <= MAX_CONTRACT_DEPTH gas ->
  call_next CONTRACT_STATE_VERSION scilla gas st json recipient g receipt = Ret (print, st', receipt') ->
  sc_accounts st' = sc_accounts st /\ sc_contracts st' = sc_contracts st /\ m_curDepth st' = m_curDepth st + 1 /\
  m_curContractAddr st' = m_curContractAddr st /\ m_curAmount st' = m_curAmount st /\
  (is_Some print -> m_curDepth st' <= MAX_CONTRACT_DEPTH gas).
Proof.
  intros Hgas Hd E. unfold call_next in E.
  rewrite (wrap_small 32 (m_curDepth st + 1)) in E by (unfold in_range; destruct Hgas; lia).
  set (st1 := sc_set_depth st (m_curDepth st + 1)) in *.
  assert (forall st2, outside_step st1 st2 -> (is_Some print -> m_curDepth st + 1 <= MAX_CONTRACT_DEPTH gas) ->
    sc_accounts st2 = sc_accounts st /\ sc_contracts st2 = sc_contracts st /\ m_curDepth st2 = m_curDepth st + 1 /\
    m_curContractAddr st2 = m_curContractAddr st /\ m_curAmount st2 = m_curAmount st /\
    (is_Some print -> m_curDepth st2 <= MAX_CONTRACT_DEPTH gas)) as Hout.
  { intros st2 [H1 H2 H3 H4 H5] Hp. rewrite H1, H2, H3, H4, H5. done. }
  destruct (Z.gtb_spec (m_curDepth st1) (MAX_CONTRACT_DEPTH gas)) as [|Hle].
  { injection E as <- <- <-. apply Hout; [done|by intros []]. }
  destruct (negb (m_curIsDS st1) && _); [injection E as <- <- <-; apply Hout; [done|by intros []]|].
  apply bind_Ret in E as (msg & _ & E). apply bind_Ret in E as (inp & _ & E).
  destruct (atomic_own (sc_accounts st1) !! recipient) as [account|]; [|done].
  apply bind_Ret in E as ([status st2] & E2 & E). apply ExportCallContractFiles_outside in E2.
  destruct status; [|injection E as <- <- <-; apply Hout; [done|by intros []]|done].
  destruct (run_command st2 _ _) as [[[res out] st3] r3] eqn:E3. apply run_command_outside in E3.
  injection E as <- <- <-. apply Hout; [by etrans|]. intros _. cbn in Hle. lia.
Qed.

Lemma ParseCallContract_result fuel st g out receipt first ok g' st' receipt' :
  gas_ok -> amount_ok st -> 0 <= g -> 0 <= m_curDepth st <= MAX_CONTRACT_DEPTH gas ->
  ParseCallContract CONTRACT_STATE_VERSION ACCOUNT_VERSION index_fuel scilla gas fuel st g out receipt true first
    = Ret (ok, g', st', receipt') ->
  chain_result st first ok g g' st'.
Proof.
  intros Hgas. revert st g out receipt first ok g' st' receipt'.
  induction fuel as [|fuel IH]; intros st g out receipt first ok g' st' receipt' Ham Hg Hdep E.
  all: cbn [ParseCallContract] in E; destruct (ParseOutput scilla st out receipt) as [[json|] r0];
    [|injection E as <- <- <- <-; apply chain_result_hop; [done|lia]].
  all: apply bind_Ret in E as ([[[[result entries] g1] st1] r1] & Ea & E);
    apply (accept_output_step _ _ _ _ _ _ _ _ _ Hgas Ham Hg) in Ea as (H1 & Hg1 & Hnext).
  all: destruct result as [|recipient|];
    [ apply bind_Ret in E as ([ok2 st2] & E2 & E); injection E as <- <- <- <-;
      apply store_states_step in E2 as (Hw & Hd2 & _ & _ & Hf2 & _);
      destruct H1 as [Ha1 Hc1 Hd1 _ _], Hw as [Ha2 Hc2 Hb2];
      rewrite Hc1 in Hc2, Hb2; split; try done; [by etrans|lia|];
      intros ->; left; split; [lia|]; intros ->; by rewrite <- Hc1, <- Hf2
    | | injection E as <- <- <- <-; by apply chain_result_hop ].
  all: apply bind_Ret in E as ([ok2 st2] & E2 & E); apply store_states_step in E2 as (Hw & Hd2 & Hct2 & Ham2 & _ & Hown2).
  all: assert (m_curDepth st2 = m_curDepth st1 /\ m_curDepth st1 = m_curDepth st) as [Hd21 Hd10]
    by (split; [rewrite Hd2; by destruct first|apply H1]).
  all: assert (amount_ok st2) as Ha2 by (apply Ham2; destruct first; by apply (hop_amount _ _ H1)).
  all: apply bind_Ret in E as ([[print st3] r3] & E3 & E);
    apply call_next_step in E3 as (Ha3 & Hc3 & Hd3 & Hct3 & Hm3 & Hmax); [|done|lia].
  all: destruct print as [print|]; [|injection E as <- <- <- <-;
    eapply (chain_result_deeper st st1 st2); [done..| | | | |]; rewrite ?Ha3, ?Hc3; done || lia].
  - done.
  - apply bind_Ret in E as ([[[ok4 g4] st4] r4] & E4 & E). specialize (Hmax (mk_is_Some _ _ eq_refl)).
    apply IH in E4 as [Ha4 Hc4 Hg4 Hd4 Hb4 _]; [|unfold amount_ok in *; cbn; by rewrite Hm3|lia|cbn; lia].
    specialize (Hb4 eq_refl). cbn [sc_set_hop sc_accounts sc_contracts m_curDepth] in *. rewrite Ha3, Hc3 in *.
    destruct ok4; cbn [negb] in E; [|injection E as <- <- <- <-; eapply (chain_result_deeper st st1 st2); done || lia].
    unfold on_store in E. pose proof (chain_then_nonce (sc_accounts st2) (sc_accounts st4) (m_curContractAddr st3)) as Hn.
    fold (sc_store st4) in Hn. destruct (IncreaseNonce (sc_store st4) (m_curContractAddr st3)) as [ok5 s5].
    injection E as <- <- <- <-. eapply (chain_result_deeper st st1 st2); try (done || lia).
    + apply Hn; [|done]. rewrite Hct3, Hct2. by destruct first.
    + cbn. lia.
Qed.

(** ** The chain ends *)

(** Once there is fuel for every hop that the depth allows, more makes no difference. *)
Lemma ParseCallContract_fuel fuel fuel' st g out receipt first :
  gas_ok -> amount_ok st -> 0 <= g -> 0 <= m_curDepth st <= MAX_CONTRACT_DEPTH gas ->
  MAX_CONTRACT_DEPTH gas - m_curDepth st <= Z.of_nat fuel ->
  MAX_CONTRACT_DEPTH gas - m_curDepth st <= Z.of_nat fuel' ->
  ParseCallContract CONTRACT_STATE_VERSION ACCOUNT_VERSION index_fuel scilla gas fuel st g out receipt true first
  = ParseCallContract CONTRACT_STATE_VERSION ACCOUNT_VERSION index_fuel scilla gas fuel' st g out receipt true first.
Proof.
  intros Hgas. revert fuel' st g out receipt first.
  induction fuel as [|fuel IH]; intros fuel' st g out receipt first Ham Hg Hdep Hf Hf'.
  all: destruct fuel' as [|fuel']; cbn [ParseCallContract]; [try done|].
  all: destruct (ParseOutput scilla st out receipt) as [[json|] r0]; [|done].
  all: destruct (accept_output ACCOUNT_VERSION gas st json g r0) as [[[[[result entries] g1] st1] r1]|f] eqn:Ea; [|done].
  all: cbn [mbind outcome_bind]; destruct result as [|recipient|]; try done.
  all: destruct (store_states _ _ _ _ _ _) as [[ok2 st2]|f] eqn:E2; [|done]; cbn [mbind outcome_bind].
  all: destruct (call_next _ _ _ _ _ _ _ _) as [[[print st3] r3]|f] eqn:E3; [|done]; cbn [mbind outcome_bind].
  all: destruct print as [print|]; [|done].
  all: apply (accept_output_step _ _ _ _ _ _ _ _ _ Hgas Ham Hg) in Ea as (H1 & Hg1 & _);
    apply store_states_step in E2 as (_ & Hd2 & _ & Ham2 & _).
  all: assert (m_curDepth st2 = m_curDepth st) as Hd20
    by (rewrite Hd2; rewrite <- (hop_depth _ _ H1); by destruct first).
  all: assert (amount_ok st2) as Ha2 by (apply Ham2; destruct first; by apply (hop_amount _ _ H1)).
  all: apply call_next_step in E3 as (_ & _ & Hd3 & _ & Hm3 & Hmax); [|done|lia].
  all: specialize (Hmax (mk_is_Some _ _ eq_refl)); try lia.
  rewrite (IH fuel'); [done|unfold amount_ok in *; cbn; by rewrite Hm3|lia|cbn; lia..].
Qed.

(** ** The settlement of a call *)

(** The refund and the nonce at the end. *)
Lemma settle_facts (s : S) from r :
  accounts_ok (view s) -> is_Some (view s !! from) -> 0 <= r -> total (view s) + r < 2 ^ 128 ->
  exists s1 ok s2,
    IncreaseBalance ACCOUNT_VERSION s from r = (true, s1) /\ IncreaseNonce s1 from = (ok, s2) /\
    ok = (nonce_at (view s) from + 1 <? 2 ^ 64) /\ accounts_ok (view s2) /\
    total (view s2) = total (view s) + r /\
    (forall a, balance_at (view s2) a = balance_at (view s) a + if decide (from = a) then r else 0) /\
    (forall a, nonce_at (view s2) a = nonce_at (view s) a + if ok && bool_decide (from = a) then 1 else 0).
Proof.
  intros Hok Hs Hr Ht. pose proof (balance_le_total (view s) from Hok) as Hle.
  assert (0 <= balance_at (view s) from) as Hb.
  { destruct Hs as [x Hx]. unfold balance_at. rewrite Hx. destruct (Hok _ _ Hx); lia. }
  pose proof (IncreaseBalance_effect ACCOUNT_VERSION s from r Hok ltac:(lia)) as H1.
  destruct (IncreaseBalance _ s from r) as [ok1 s1]. destruct H1 as [Hok1 Hv1].
  assert (ok1 = true) as -> by (rewrite Hok1; apply Z.ltb_lt; lia).
  assert (accounts_ok (view s1)) as Hs1 by (rewrite Hv1; apply credit_ok; [done|lia..]).
  pose proof (IncreaseNonce_effect s1 from Hs1 ltac:(rewrite Hv1; by apply credit_some)) as H2.
  destruct (IncreaseNonce s1 from) as [ok2 s2] eqn:E2. destruct H2 as (Hok2 & Hb2 & Hn2 & Ht2 & Ha2).
  exists s1, ok2, s2. split; [done|]. split; [done|]. rewrite Hv1 in *. rewrite nonce_credit in Hok2.
  split; [done|]. split; [done|]. split; [by rewrite Ht2, total_credit|].
  split; intros a; [by rewrite Hb2, balance_credit|by rewrite Hn2, nonce_credit].
Qed.

(** The contract states, apart from the undo buffer, are the same. *)
Definition states_same (c c' : ContractStorage DB) : Prop :=
  c' = set_p c (p_stateIndexMap c') (p_stateDataMap c').

Lemma run_call_result st g receipt ret g' st' receipt' :
  gas_ok -> amount_ok st -> 0 <= g -> m_curDepth st = 0 ->
  run_call CONTRACT_STATE_VERSION ACCOUNT_VERSION index_fuel scilla gas st g receipt true
    = Ret (ret, g', st', receipt') ->
  chain_rel (sc_accounts st) (sc_accounts st') /\ 0 <= g' <= g /\
  (ret = false -> states_same (sc_contracts st) (sc_contracts st')).
Proof.
  intros Hgas Ham Hg Hd E. unfold run_call in E.
  destruct (run_command st _ receipt) as [[[ok out] st1] r1] eqn:Er. apply run_command_outside in Er.
  destruct Er as [Ha1 Hc1 Hd1 _ Hm1]. destruct ok; cbn [negb] in E.
  2: { injection E as <- <- <- <-. rewrite Ha1, Hc1. split; [done|]. split; [lia|]. intros _.
       by destruct (sc_contracts st). }
  apply bind_Ret in E as ([[[ret2 g2] st2] r2] & E2 & E).
  apply ParseCallContract_result in E2 as [Ha2 Hc2 Hg2 Hd2 _ Hf2];
    [|done|unfold amount_ok in *; by rewrite Hm1|done|destruct Hgas; lia].
  rewrite Ha1 in Ha2. rewrite Hc1 in Hc2, Hf2. specialize (Hf2 eq_refl). injection E as <- <- <- <-.
  split; [by destruct (negb ret2 && _)|]. split; [done|]. intros ->. cbn [negb andb].
  destruct Hf2 as [[Hsame Hc]|[Hdeep [Hp1 Hp2]]].
  - destruct (Z.gtb_spec (m_curDepth st2) 0); [lia|]. rewrite Hc by done. by destruct (sc_contracts st).
  - destruct (Z.gtb_spec (m_curDepth st2) 0); [|lia]. cbn [sc_contracts sc_set_contracts].
    unfold states_same, RevertPrevState. unfold tp_only in Hc2. rewrite Hc2. cbn. rewrite Hp1, Hp2.
    by destruct (sc_contracts st).
Qed.

(** What a call has done when it returns true. *)
Record call_effect (m m' : gmap Z Account) (c c' : ContractStorage DB) (from gasLimit price : Z)
    (receipt : TransactionReceipt J) : Prop := {
  ce_types : accounts_ok m';
  ce_gas : 0 <= m_cumGas receipt <= gasLimit;
  ce_total : total m' = total m - m_cumGas receipt * price;
  ce_replay : nonce_at m from < nonce_at m' from;
  ce_success : ro_success (m_tranReceiptObj receipt) = Some true -> forall a,
    nonce_at m' a = nonce_at m a + if decide (from = a) then 1 else 0;
  ce_failure : ro_success (m_tranReceiptObj receipt) = Some false ->
    states_same c c' /\ forall a,
      balance_at m' a = balance_at m a - if decide (from = a) then m_cumGas receipt * price else 0;
  ce_result : is_Some (ro_success (m_tranReceiptObj receipt))
}.

(** The store after commit or discard, before the refund. *)
Lemma settle_call_facts st st1 ret gasLimit penalty g g' st2 s deposit from m :
  0 <= penalty <= gasLimit -> gasLimit < 2 ^ 64 -> 0 <= g <= gasLimit ->
  sc_accounts st = mkAtomic ∅ s -> chain_rel (sc_accounts st) (sc_accounts st1) ->
  accounts_ok m -> is_Some (m !! from) -> 0 <= deposit <= balance_at m from -> view s = debit m from deposit ->
  settle_call st1 ret gasLimit penalty g = (g', st2) ->
  0 <= g' <= gasLimit /\ accounts_ok (view (sc_store st2)) /\ is_Some (view (sc_store st2) !! from) /\
  total (view (sc_store st2)) = total m - deposit /\ sc_contracts st2 = sc_contracts st1 /\
  nonce_at m from <= nonce_at (view (sc_store st2)) from /\
  (ret = true -> forall a, nonce_at (view (sc_store st2)) a = nonce_at m a) /\
  (ret = false -> forall a, balance_at (view (sc_store st2)) a = balance_at m a - if decide (from = a) then deposit else 0).
Proof.
  intros Hp H64 Hg Hst Hc Hm Hfrom Hd Hv E.
  assert (view (sc_accounts st) = view s) as Hvs by (rewrite Hst, view_atomic; apply map_empty_union).
  assert (sound (sc_accounts st)) as Hsound.
  { split; rewrite ?Hvs, ?Hst; cbn; rewrite Hv; by apply debit_ok. }
  destruct (Hc Hsound) as [[Hok Hokp] Ht Hn Hsome _ Hb Htp Hnp Hsomep _].
  rewrite Hvs, Hv in Ht, Hn, Hsome. rewrite Hst in Hb, Htp, Hnp, Hsomep. cbn in Hb, Htp, Hnp, Hsomep.
  rewrite Hv in Hb, Htp, Hnp, Hsomep. rewrite total_debit in Ht, Htp by done.
  unfold settle_call in E. destruct ret; injection E as <- <-.
  - unfold CommitTransferAtomic. cbn. rewrite CommitTransferAtomic_view.
    change (atomic_own (sc_accounts st1) ∪ view (sc_store st1)) with (view (sc_accounts st1)).
    split; [lia|]. split; [done|]. split; [by apply Hsome, debit_some|]. split; [lia|]. split; [done|].
    rewrite Hn, nonce_debit. split; [lia|]. split; [|done]. intros _ a. by rewrite Hn, nonce_debit.
  - unfold DiscardTransferAtomic. cbn.
    rewrite (wrap_small 64 (gasLimit - penalty)) by (unfold in_range; lia).
    split; [lia|]. split; [done|]. split; [by apply Hsomep, debit_some|]. split; [done|]. split; [done|].
    specialize (Hnp from). rewrite nonce_debit in Hnp. split; [done|]. split; [done|]. intros _ a.
    by rewrite Hb, (balance_debit _ _ _ _ Hfrom).
Qed.

Lemma end_call_facts st st1 ret gasLimit penalty price g s from m receipt ok st' receipt' :
  0 <= penalty <= gasLimit -> gasLimit < 2 ^ 64 -> 0 <= g <= gasLimit -> 0 <= price < 2 ^ 128 ->
  gasLimit * price < 2 ^ 128 -> total m < 2 ^ 128 ->
  sc_accounts st = mkAtomic ∅ s -> chain_rel (sc_accounts st) (sc_accounts st1) ->
  (ret = false -> states_same (sc_contracts st) (sc_contracts st1)) ->
  accounts_ok m -> is_Some (m !! from) -> gasLimit * price <= balance_at m from ->
  view s = debit m from (gasLimit * price) ->
  end_call ACCOUNT_VERSION st1 ret gasLimit penalty g from price receipt = (ok, st', receipt') ->
  if ok then call_effect m (view (sc_store st')) (sc_contracts st) (sc_contracts st') from gasLimit price receipt'
  else 2 ^ 64 <= nonce_at (view (sc_store st')) from + 1.
Proof.
  intros Hp H64 Hg Hpr Hdep Htot Hst Hc Hstates Hm Hfrom Hd Hv E. unfold end_call in E.
  destruct (settle_call st1 ret gasLimit penalty g) as [g2 st2] eqn:E2.
  assert (0 <= gasLimit * price) as Hd0 by nia.
  eapply (settle_call_facts st) in E2 as (Hg2 & Hok2 & Hs2 & Ht2 & Hc2 & Hn2 & Htrue & Hfalse); [|done..].
  rewrite sm_mul_spec in E by lia. assert (0 <= g2 * price <= gasLimit * price) as Hr by nia.
  destruct (Z.ltb_spec (g2 * price) (2 ^ 128)); [|lia]. cbn [negb] in E. unfold finish_nonce, on_store in E.
  destruct (settle_facts (sc_store st2) from (g2 * price)) as (s3 & ok3 & s4 & E3 & E4 & Hok4 & Hty & Htt & Hbb & Hnn);
    [done|done|lia|lia|]. rewrite E3 in E. destruct (Z.ltb_spec gasLimit g2); [lia|].
  change (sc_store (sc_set_store st2 s3)) with s3 in E. rewrite E4 in E.
  rewrite (wrap_small 64 (gasLimit - g2)) in E by (unfold in_range; lia).
  destruct ok3; cbn [negb] in E; zbool.
  2: { injection E as <- <- <-. cbn. symmetry in Hok4. zbool. rewrite Hnn. cbn [andb]. lia. }
  assert (forall r, m_cumGas r = gasLimit - g2 -> ro_success (m_tranReceiptObj r) = Some ret ->
    call_effect m (view s4) (sc_contracts st) (sc_contracts st1) from gasLimit price r) as Heff.
  { intros r Hgas Hres. split; rewrite ?Hgas, ?Hres; try done; [lia|lia|..].
    - rewrite Hnn, bool_decide_eq_true_2 by done. cbn [andb]. lia.
    - intros [= ->] a. rewrite Hnn, Htrue by done. cbn [andb]. case_bool_decide; case_decide; done || lia.
    - intros [= ->]. split; [by apply Hstates|]. intros a. rewrite Hbb, Hfalse by done. case_decide; lia. }
  destruct ret; cbn [negb] in E; injection E as <- <- <-;
    change (sc_store (sc_set_store (sc_set_store st2 s3) s4)) with s4;
    change (sc_contracts (sc_set_store (sc_set_store st2 s3) s4)) with (sc_contracts st2); rewrite Hc2; apply Heff.
  all: match goal with |- context [update ?r] => destruct (update_success r) as [Hs Hcg] end.
  all: rewrite ?Hs, ?Hcg; done.
Qed.

(** An operation of the store that only looks. *)
Lemma on_store_get st a r st' :
  on_store st (fun s => GetAccount s a) = (r, st') ->
  r = view (sc_store st) !! a /\ view (sc_store st') = view (sc_store st) /\ sc_contracts st' = sc_contracts st /\
  exists s, st' = sc_set_store st s.
Proof.
  unfold on_store. pose proof (GetAccount_found (sc_store st) a) as Hf. pose proof (GetAccount_keeps (sc_store st) a) as Hk.
  destruct (GetAccount (sc_store st) a) as [y s]; cbn [fst snd] in *. intros [= <- <-]. eauto.
Qed.

(** The sender of a transaction. *)
Definition sender_of (t : Transaction PubKey) : Z := GetAddressFromPublicKey (tx_senderPubKey t).

(** C27: A contract call settles.  Whatever the interpreter prints, whatever the JSON
    library, the file system and the timeout do: when [UpdateAccounts] applies a
    contract call and returns true, the gas charged is at most the gas limit, the sum
    of all balances has fallen by exactly the gas charged times the price, and the
    sender's nonce has grown, so the transaction cannot be applied again.  If the
    receipt reports success, no other nonce has changed (the nonces that the source
    increases for the calling contracts are overwritten by the commit).  If it
    reports failure, the states of all contracts are as before and no other account
    has a different balance.  When it returns false, all accounts are as before, or
    the sender's nonce is exhausted. *)
Theorem contract_call_settles st blockNum numShards isDS t receipt ok st' receipt' :
  gas_ok -> accounts_ok (view (sc_store st)) -> total (view (sc_store st)) < 2 ^ 128 -> tx_ok t ->
  GetTransactionType t = CONTRACT_CALL ->
  SC_UpdateAccounts GetAddressFromPublicKey CONTRACT_STATE_VERSION ACCOUNT_VERSION index_fuel scilla gas
    st blockNum numShards isDS t receipt true = Ret (ok, st', receipt') ->
  if ok then call_effect (view (sc_store st)) (view (sc_store st')) (sc_contracts st) (sc_contracts st')
               (sender_of t) (tx_gasLimit t) (tx_gasPrice t) receipt'
  else view (sc_store st') = view (sc_store st) \/
       2 ^ 64 <= nonce_at (view (sc_store st')) (sender_of t) + 1.
Proof.
  intros Hgas Hok Htot Ht Htype E. pose proof Ht as [Ham Hpr Hl]. unfold SC_UpdateAccounts in E. rewrite Htype in E.
  set (st0 := sc_set_world (sc_set_isDS st isDS) _) in E.
  change (sc_store st) with (sc_store st0) in Hok, Htot |- *. change (sc_contracts st) with (sc_contracts st0).
  clearbody st0. clear st. rewrite sm_mul_spec in E by lia.
  destruct (Z.ltb_spec (tx_gasLimit t * tx_gasPrice t) (2 ^ 128)) as [Hdep|]; cbn [negb] in E;
    [|injection E as <- <- <-; by left].
  unfold CallContract in E. fold (sender_of t) in E.
  destruct (on_store st0 _) as [fa st1] eqn:E1. apply on_store_get in E1 as (Hfa & Hv1 & Hc1 & s1 & Hs1).
  destruct fa as [fa|]; [|injection E as <- <- <-; by left].
  set (penalty := Z.max _ _) in E. destruct (Z.ltb_spec (tx_gasLimit t) penalty); [injection E as <- <- <-; by left|].
  destruct (m_balance fa <? _); [injection E as <- <- <-; by left|].
  set (st2 := sc_set_depth _ 0) in E. destruct (on_store st2 _) as [ta st3] eqn:E3.
  apply on_store_get in E3 as (_ & Hv3 & Hc3 & s3 & Hs3). change (view (sc_store st2)) with (view (sc_store st1)) in Hv3.
  change (sc_contracts st2) with (sc_contracts st1) in Hc3.
  destruct ta as [ta|]; [|injection E as <- <- <-; left; congruence].
  apply bind_Ret in E as ([status st4] & E4 & E). apply ExportCallContractFiles_tx_outside in E4 as [Ha4 Hc4 Hd4 _ _].
  assert (view (sc_store st4) = view (sc_store st0)) as Hv4.
  { unfold sc_store at 1. rewrite Ha4. change (view (sc_store st3) = view (sc_store st0)). congruence. }
  assert (sc_contracts st4 = sc_contracts st0) as Hc40.
  { rewrite Hc4. change (sc_contracts st3 = sc_contracts st0). congruence. }
  assert (m_curDepth st4 = 0) as Hd40 by (rewrite Hd4; change (m_curDepth st3 = 0); by rewrite Hs3).
  destruct status; [|injection E as <- <- <-; by left|done].
  unfold on_store in E. change (sc_store (DiscardTransferAtomic st4)) with (sc_store st4) in E.
  pose proof (DecreaseBalance_effect (sc_store st4) (sender_of t) (tx_gasLimit t * tx_gasPrice t)) as Hdec.
  rewrite Hv4 in Hdec. destruct (DecreaseBalance (sc_store st4) _ _) as [ok5 s5].
  destruct Hdec as [Hok5 Hv5]; [done|nia|]. destruct ok5; cbn [negb] in E; [|injection E as <- <- <-; by left].
  apply bind_Ret in E as ([[[ret g6] st6] r6] & E6 & E). injection E as E.
  set (st5 := sc_set_call _ _ _ _ _ _) in E6.
  apply run_call_result in E6 as (Hacc & Hg6 & Hstates); [|done|done|lia|exact Hd40].
  assert (balance_at (view (sc_store st0)) (sender_of t) = m_balance fa) as Hbal by (unfold balance_at; by rewrite <- Hfa).
  assert (0 <= penalty) as Hpen by (unfold penalty; destruct Hgas; lia).
  eapply (end_call_facts st5 st6 ret _ penalty _ _ s5 _ (view (sc_store st0))) in E;
    [|lia|lia|done|done|done|done|done|done|done|done|by rewrite <- Hfa| |done].
  - change (sc_contracts st5) with (sc_contracts st4) in E. rewrite Hc40 in E. destruct ok; [exact E|by right].
  - rewrite Hbal. symmetry in Hok5. apply orb_true_iff in Hok5 as [Hz|Hz]; zbool.
    + destruct (Hok _ _ (eq_sym Hfa)). lia.
    + by rewrite <- Hbal.
Qed.

End properties.

(** ** Witnesses: a node with a scripted interpreter *)

Module ContractSample.
Import String Cyclic StateCodec JsonTree.

(** The interpreter prints the next of the given outputs. *)
#[global] Instance scripted : Environment (list bytes) := {|
  env_prepare w := (true, w);
  env_exists _ _ := true;
  env_write w _ _ := (true, w);
  env_execute w _ := match w with out :: w => (Executed out, w) | [] => (ExecuteFailed, []) end;
  env_read _ _ := None;
  env_timeout _ := false;
  env_clear_timeout w := w
|}.

Definition answer (message : json) : json :=
  JObj [(str "gas_remaining", JStr (str "40")); (str "_accepted", JStr (str "true"));
        (str "states", JArr []); (str "events", JArr []); (str "message", message)].

Definition pay (recipient tag : string) : json :=
  JObj [(str "_tag", JStr (str tag)); (str "_amount", JStr (str "3")); (str "params", JArr []);
        (str "_recipient", JStr (str recipient))].

(** Texts and what they stand for. *)
Definition reader (s : bytes) : option json :=
  if bool_decide (s = str "call") then Some (JObj [])
  else if bool_decide (s = str "done") then Some (answer JNull)
  else if bool_decide (s = str "chain") then Some (answer (pay "0x0000000000000000000000000000000000000006" "go"))
  else if bool_decide (s = str "loop") then Some (answer (pay "0x0000000000000000000000000000000000000005" "go"))
  else if bool_decide (s = str "init")
  then Some (JArr [JObj [(str "vname", JStr (str "_scilla_version")); (str "type", JStr (str "Uint32"));
                         (str "value", JStr (str "0"))]])
  else if bool_decide (s = str "fail") then Some (JObj [(str "gas_remaining", JStr (str "40")); (str "errors", JArr [])])
  else None.

Definition writer (v : json) : bytes :=
  match v with JStr s => 34 :: s ++ [34] | _ => str "[]" end.

#[global] Instance sample_json : Json json := tree_json reader writer.
#[global] Instance sample_writer : ReceiptWriter json := plain_writer.

#[global] Instance digits_cast : LexicalCast :=
  {| lexical_cast w s := match stoull s with
                         | Some v => if (0 <=? v) && (v <? 2 ^ w) then Some v else None
                         | None => None
                         end |}.

#[global] Instance digits_cast_spec : LexicalCastSpec.
Proof.
  split. intros w s v. cbn. destruct (stoull s) as [x|]; [|done].
  destruct ((0 <=? x) && (x <? 2 ^ w)) eqn:E; [|done]. intros [= <-]. zbool. lia.
Qed.

Definition scilla : ScillaConfig := mkScilla [] [] [] [] [] [] [] [] [] [] false.
Definition gas : GasConfig := mkGas 50 10 1 3.

Lemma sample_gas_ok : gas_ok gas.
Proof. split; cbn; lia. Qed.

(** Contracts 5 and 6, each with its version. *)
Definition version_state : StateEntry := mkStateEntry (str "_scilla_version") false (str "Uint32") (str "0").

Definition with_version (c : outcome (ContractStorage MapDB.db)) (a : Z) : outcome (ContractStorage MapDB.db) :=
  c ← c;
  '(_, _, c) ← PutContractState 1 2 c a [version_state] 0 true;
  Ret c.

Definition storage : ContractStorage MapDB.db :=
  match with_version (with_version (Ret StorageSample.empty) 5) 6 with
  | Ret c => c
  | Fault _ => StorageSample.empty
  end.

(** Account 7 pays; contracts 5 and 6 have code. *)
Definition sample_accounts : gmap Z Account :=
  {[7 := mkAccount 1 1000 4 0 0 0 []; 5 := mkAccount 1 50 0 0 1 5 [1]; 6 := mkAccount 1 0 0 0 1 6 [1]]}.

Lemma sample_accounts_ok : accounts_ok sample_accounts.
Proof. repeat (apply map_Forall_insert_2; [by split|]). apply map_Forall_empty. Qed.

Definition node (outputs : list bytes) : AccountStoreSC (gmap Z Account) MapDB.db (list bytes) :=
  mkSC (mkAtomic ∅ sample_accounts) storage outputs 0 0 0 0 0 0 0 false [] 0.

(** 10 to contract 5, gas price 2, gas limit 50. *)
Definition call_tx : Transaction Z := mkTransaction 1 1 5 5 7 10 2 50 [] (str "call") (0, 0).

Definition apply_call (outputs : list bytes) :=
  SC_UpdateAccounts (J := json) (fun k => k) 1 1 2 scilla gas (node outputs) 9 1 true call_tx
    (@TransactionReceipt_new _ sample_writer) true.

Definition success {A B} (o : outcome (bool * A * TransactionReceipt B)) : option (bool * option bool * Z) :=
  match o with
  | Ret (ok, _, r) => Some (ok, ro_success (m_tranReceiptObj r), m_cumGas r)
  | Fault _ => None
  end.

(** Contract 5 accepts; contract 5 calls contract 6; contract 5 fails. *)
Example call_accepted : success (apply_call [str "done"]) = Some (true, Some true, 10).
Proof. vm_compute. reflexivity. Qed.

Example chain_accepted : success (apply_call [str "chain"; str "done"]) = Some (true, Some true, 10).
Proof. vm_compute. reflexivity. Qed.

Example call_failed : success (apply_call [str "fail"]) = Some (true, Some false, 10).
Proof. vm_compute. reflexivity. Qed.

Lemma node_accounts outputs : view (sc_store (node outputs)) = sample_accounts.
Proof. reflexivity. Qed.

Lemma sample_total : total sample_accounts < 2 ^ 128.
Proof. vm_compute. reflexivity. Qed.

Lemma call_tx_ok : tx_ok call_tx.
Proof. by split. Qed.

Definition new_receipt : TransactionReceipt json := @TransactionReceipt_new _ sample_writer.

Lemma contract_call_settles_witness :
  exists st' r', apply_call [str "chain"; str "done"] = Ret (true, st', r') /\
    total (view (sc_store st')) = total sample_accounts - 10 * 2 /\
    nonce_at (view (sc_store st')) 7 = 5 /\ nonce_at (view (sc_store st')) 5 = 0.
Proof.
  pose proof chain_accepted as Hs.
  destruct (apply_call [str "chain"; str "done"]) as [[[ok st'] r']|f] eqn:E; [|discriminate Hs].
  injection Hs as -> Hres Hg. unfold apply_call in E. fold new_receipt in E.
  apply contract_call_settles in E; [|exact sample_gas_ok|exact sample_accounts_ok|exact sample_total|exact call_tx_ok|reflexivity].
  destruct E as [_ _ Ht _ Hn _ _]. exists st', r'. split; [reflexivity|]. rewrite node_accounts in Ht, Hn.
  split; [rewrite <- Hg; exact Ht|]. split; rewrite (Hn Hres); vm_compute; reflexivity.
Defined.

(** A contract that calls itself is stopped at the third hop. *)
Example self_call_stopped : success (apply_call (replicate 9 (str "loop"))) = Some (true, Some false, 10).
Proof. vm_compute. reflexivity. Qed.

(** ** A creation that fails destroys what the new address had *)

(** The address of the next contract of account 7. *)
Definition next_contract : Z := GetAddressForContract 7 4.

(** In this epoch somebody has sent 100 to that address. *)
Definition prefunded : AccountStoreSC (AccountStoreTemp (gmap Z Account)) MapDB.db (list bytes) :=
  mkSC (mkAtomic ∅ (mkTemp {[next_contract := mkAccount 1 100 0 0 0 0 []]} {[7 := mkAccount 1 1000 4 0 0 0 []]}))
    StorageSample.empty [str "call"; str "fail"] 0 0 0 0 0 0 0 false [] 0.

Definition create_tx : Transaction Z := mkTransaction 1 1 5 0 7 0 2 60 [1] (str "init") (0, 0).

Definition creation :=
  SC_UpdateAccounts (J := json) (fun k => k) 1 1 2 scilla gas prefunded 9 1 true create_tx new_receipt true.

(** The creation fails and is charged 50 units of gas; the 100 are gone as well. *)
Example failed_creation_destroys :
  match creation with
  | Ret (ok, st, r) =>
      ok = true /\ ro_success (m_tranReceiptObj r) = Some false /\ m_cumGas r = 50 /\
      total (view (sc_store prefunded)) = 1100 /\ total (view (sc_store st)) = 900
  | Fault _ => False
  end.
Proof. vm_compute. repeat split; reflexivity. Qed.

End ContractSample.
