(* ===== verification/ContractTermination.v ===== *)
(** * Chains of contract calls end

    Whatever the contracts print, the chain of calls of a transaction is cut at the
    maximal depth: the fuel of the model, one unit per hop, is never used up, and no step
    on the way can fail to return except the search for an unused index of a state,
    which [GetNewIndex_returns] bounds. *)

From Stdlib Require Import String.
From stdpp Require Import base numbers gmap list.
From S2P Require Import Prelude OpenSSL LevelDB Json Receipt TxnPool AccountStore ContractStorage ContractAccount AccountStoreSC ContractProperties.
Open Scope Z_scope.

(** The faults of the model's loops. *)
Definition loops (f : fault) : bool := match f with StillDrawing | StillSearching => true | _ => false end.
Definition draws (f : fault) : bool := match f with StillDrawing => true | _ => false end.

Create HintDb ends.

(** Take a computation apart, down to the calls whose lemmas are in [ends]. *)
Ltac ends :=
  repeat (cbn [negb]; match goal with
  | |- clear_of _ (Ret _) => exact I
  | |- clear_of _ (Fault _) => reflexivity
  | |- clear_of _ (try_catch _ _) => apply clear_try
  | |- clear_of _ (_ ≫= _) => apply clear_bind; [|intros ? _]
  | |- clear_of _ (match ?x with _ => _ end) => destruct x
  | |- clear_of _ (let '_ := ?x in _) => destruct x
  | |- _ => solve [eauto 2 with ends]
  end).

Section json.
Context {J : Type} `{Hjson : Json J} `{Hthrows : !JsonThrows J}.

Lemma throws_ends {A} (o : outcome A) : (forall f, o = Fault f -> f = Thrown) -> clear_of loops o.
Proof. destruct o as [|f]; [done|]. intros Hf. by rewrite (Hf f eq_refl). Qed.

Lemma isMember_ends v k : clear_of loops (J_isMember v k).
Proof. apply throws_ends, isMember_throws. Qed.
Lemma get_ends v k : clear_of loops (J_get v k).
Proof. apply throws_ends, get_throws. Qed.
Lemma set_ends v k x : clear_of loops (J_set v k x).
Proof. apply throws_ends, set_throws. Qed.
Lemma append_ends v x : clear_of loops (J_append v x).
Proof. apply throws_ends, append_throws. Qed.
Lemma asString_ends v : clear_of loops (J_asString v).
Proof. apply throws_ends, asString_throws. Qed.
#[local] Hint Resolve isMember_ends get_ends set_ends append_ends asString_ends : ends.

Lemma has_members_ends v keys : clear_of loops (has_members v keys).
Proof. induction keys as [|k keys IH]; cbn [has_members]; ends. Qed.
Lemma J_at_ends v path : clear_of loops (J_at v path).
Proof. revert v. induction path as [|k path IH]; intros v; cbn [J_at]; ends. Qed.
#[local] Hint Resolve J_at_ends : ends.
Lemma J_string_at_ends v path : clear_of loops (J_string_at v path).
Proof. unfold J_string_at. ends. Qed.
Lemma J_object_ends v members : clear_of loops (J_object v members).
Proof. revert v. induction members as [|[k x] members IH]; intros v; cbn [J_object]; ends. Qed.

End json.
#[export] Hint Resolve isMember_ends get_ends set_ends append_ends asString_ends has_members_ends J_at_ends J_string_at_ends J_object_ends : ends.

(** ** The storage *)

Section storage.
Context `{Hssl : OpenSSL} `{Hproto : StateProto} {DB : Type} `{Hdb : leveldb DB} (CONTRACT_STATE_VERSION : Z).
Implicit Types c : ContractStorage DB.

Lemma Lookup_string_ends (l : LevelDB DB) k : clear_of loops (Lookup_string l k).
Proof. unfold Lookup_string, lookup_value, lookup_key, with_db. ends. Qed.
#[local] Hint Resolve Lookup_string_ends : ends.
Lemma Exists_string_ends (l : LevelDB DB) k : clear_of loops (Exists_string l k).
Proof. unfold Exists_string. ends. Qed.
#[local] Hint Resolve Exists_string_ends : ends.
Lemma indexes_ends c a temp : clear_of loops (GetContractStateIndexes c a temp).
Proof. unfold GetContractStateIndexes, raw_indexes. ends. Qed.
#[local] Hint Resolve indexes_ends : ends.
Lemma read_states_ends c temp l : clear_of loops (read_states c temp l).
Proof. induction l as [|i l IH]; cbn [read_states]; unfold read_state; ends. Qed.
#[local] Hint Resolve read_states_ends : ends.
Lemma states_data_ends c a temp : clear_of loops (GetContractStatesData c a temp).
Proof. unfold GetContractStatesData. ends. Qed.
#[local] Hint Resolve states_data_ends : ends.
Lemma state_hash_ends c a temp : clear_of loops (GetContractStateHash c a temp).
Proof. unfold GetContractStateHash. ends. Qed.
#[local] Hint Resolve state_hash_ends : ends.
Lemma put_entries_ends c a entries h temp rev existing provide :
  clear_of loops (PutContractState_entries c a entries h temp rev existing provide).
Proof. unfold PutContractState_entries. ends. Qed.
Lemma SetStateData_ends entry : clear_of loops (SetStateData CONTRACT_STATE_VERSION entry).
Proof. unfold SetStateData, strip_quotes. ends. Qed.
Lemma CheckIndexExists_ends c i : clear_of loops (CheckIndexExists c i).
Proof. unfold CheckIndexExists. ends. Qed.

Lemma loops_draws {A} (o : outcome A) : clear_of loops o -> clear_of draws o.
Proof. apply clear_weaken. by intros []. Qed.

(** The search for an index may go on, but it draws nothing. *)
Lemma new_index_draws fuel c a key existing n : clear_of draws (new_index_loop fuel c a key existing n).
Proof.
  revert n. induction fuel as [|fuel IH]; intros n; cbn [new_index_loop]; [done|]. case_bool_decide; [done|].
  apply clear_bind; [apply loops_draws, CheckIndexExists_ends|]. intros [] _; [apply IH|done].
Qed.

Lemma PutContractState_draws fuel c a states h temp :
  clear_of draws (PutContractState CONTRACT_STATE_VERSION fuel c a states h temp).
Proof.
  unfold PutContractState. apply clear_bind; [apply loops_draws, indexes_ends|]. intros existing _. apply clear_bind.
  - induction states as [|s states IH]; cbn [index_entries]; [done|]. apply clear_bind; [apply new_index_draws|]. intros i _.
    apply clear_bind; [apply loops_draws, SetStateData_ends|]. intros [ok raw] _. destruct (negb ok); [done|].
    apply clear_bind; [done|]. by intros rest _.
  - intros [entries|] _; [apply loops_draws, put_entries_ends|done].
Qed.

End storage.
#[export] Hint Resolve Lookup_string_ends states_data_ends : ends.

(** ** The execution *)

Section execution.
Context `{Hssl : OpenSSL} `{Hproto : StateProto} {DB : Type} `{Hdb : leveldb DB} {J : Type} `{Hjson : Json J} `{Hthrows : !JsonThrows J}.
Context `{Hcast : LexicalCast} `{Hlex : !LexicalCastSpec} `{Hwriter : ReceiptWriter J} `{Hmath : SafeMath}.
Context `{Hsm : !SafeMathSpec} {S : Type} `{Hmap : AccountMap S} `{Hstore : !AccountMapSpec S}.
Context {W : Type} `{Henv : Environment W}.
Context (CONTRACT_STATE_VERSION ACCOUNT_VERSION : Z) (index_fuel : nat) (scilla : ScillaConfig) (gas : GasConfig).
Abbreviation SC := (AccountStoreSC S DB W).
Implicit Types (st : SC) (receipt : TransactionReceipt J).

Lemma Transfer_ends st from to delta : clear_of loops (TransferBalanceAtomic ACCOUNT_VERSION st from to delta).
Proof. unfold TransferBalanceAtomic, TransferBalance. ends. Qed.
#[local] Hint Resolve Transfer_ends : ends.

Lemma Address_ends s : clear_of loops (Address_of_string s).
Proof. unfold Address_of_string, fromHex. ends. Qed.
#[local] Hint Resolve Address_ends : ends.

Lemma handle_message_ends st (message : J) receipt : clear_of loops (handle_message ACCOUNT_VERSION st message receipt).
Proof. unfold handle_message. ends. Qed.
#[local] Hint Resolve handle_message_ends : ends.

Lemma accept_output_ends st (json : J) g receipt : clear_of loops (accept_output ACCOUNT_VERSION gas st json g receipt).
Proof. unfold accept_output, read_gas, check_members. ends. Qed.

Lemma state_json_ends c a : clear_of loops (GetContractStateJson (J := J) CONTRACT_STATE_VERSION c a true (DB := DB)).
Proof.
  unfold GetContractStateJson. destruct (a =? 0); [done|]. apply clear_bind; [apply states_data_ends|]. intros raw _.
  apply clear_bind; [|intros; exact I]. apply clear_try; [|done]. generalize (@None Z). generalize (J_null (J := J)) at 2. generalize (J_null (J := J)).
  induction raw as [|x raw IH]; intros init state version; cbn [state_json_loop]; [done|]. unfold state_item. ends.
Qed.
#[local] Hint Resolve state_json_ends : ends.

Lemma export_ends st account (message : J) : clear_of loops (ExportCallContractFiles CONTRACT_STATE_VERSION scilla st account message).
Proof.
  unfold ExportCallContractFiles, ExportContractFiles, ExportFiles, GetStorageJson, GetCode, GetContractCode, GetBlockStateJson, variable. ends.
Qed.
#[local] Hint Resolve export_ends : ends.

Lemma call_next_ends st (json : J) recipient g receipt : clear_of loops (call_next CONTRACT_STATE_VERSION scilla gas st json recipient g receipt).
Proof. unfold call_next, next_message. ends. Qed.

(** At the maximal depth the next contract is not called. *)
Lemma call_next_stops st (json : J) recipient g receipt :
  gas_ok gas -> m_curDepth st = MAX_CONTRACT_DEPTH gas ->
  call_next CONTRACT_STATE_VERSION scilla gas st json recipient g receipt
  = Ret (None, sc_set_depth st (MAX_CONTRACT_DEPTH gas + 1), AddError receipt MAX_DEPTH_REACHED).
Proof.
  intros Hgas Hd. unfold call_next. rewrite Hd, wrap_small by (unfold in_range; destruct Hgas; lia). cbn [sc_set_depth m_curDepth].
  rewrite Z.gtb_ltb. by destruct (Z.ltb_spec (MAX_CONTRACT_DEPTH gas) (MAX_CONTRACT_DEPTH gas + 1)); [|lia].
Qed.

Lemma store_states_draws st contract entries :
  clear_of draws (store_states CONTRACT_STATE_VERSION index_fuel st contract entries true).
Proof.
  unfold store_states, SetStorage. destruct (atomic_own _ !! contract) as [account|]; [|done]. apply clear_bind; [|by intros [[ok a] c] _].
  destruct (negb _); [done|]. apply clear_bind; [apply PutContractState_draws|by intros [[ok root] c] _].
Qed.

(** The search for an index did not end when states were written. *)
Definition search_goes_on : Prop :=
  exists st contract entries, store_states CONTRACT_STATE_VERSION index_fuel st contract entries true = Fault StillSearching.

(** What a computation of a chain may be: it returns, it fails like the code does, or one
    of its searches goes on. *)
Definition comes_back {A} (o : outcome A) : Prop := clear_of draws o /\ (o = Fault StillSearching -> search_goes_on).

Lemma comes_back_ends {A} (o : outcome A) : clear_of loops o -> comes_back o.
Proof. intros Ho. split; [by apply loops_draws|]. intros ->. done. Qed.

Lemma comes_back_bind {A B} (m : outcome A) (k : A -> outcome B) :
  comes_back m -> (forall a, m = Ret a -> comes_back (k a)) -> comes_back (m ≫= k).
Proof. intros [Hm Hs] Hk. destruct m as [a|f]; [by apply Hk|]. split; [done|]. cbn. intros [= ->]. by apply Hs. Qed.

Lemma store_states_back st contract entries :
  comes_back (store_states CONTRACT_STATE_VERSION index_fuel st contract entries true).
Proof. split; [apply store_states_draws|]. intros E. by exists st, contract, entries. Qed.

Lemma chain_comes_back fuel st g out receipt first :
  gas_ok gas -> amount_ok st -> 0 <= g -> 0 <= m_curDepth st <= MAX_CONTRACT_DEPTH gas ->
  MAX_CONTRACT_DEPTH gas - m_curDepth st <= Z.of_nat fuel ->
  comes_back (ParseCallContract CONTRACT_STATE_VERSION ACCOUNT_VERSION index_fuel scilla gas fuel st g out receipt true first).
Proof.
  intros Hgas. revert st g out receipt first.
  induction fuel as [|fuel IH]; intros st g out receipt first Ham Hg Hdep Hf.
  all: cbn [ParseCallContract]; destruct (ParseOutput scilla st out receipt) as [[json|] r0]; [|by apply comes_back_ends].
  all: apply comes_back_bind; [apply comes_back_ends, accept_output_ends|]; intros [[[[result entries] g1] st1] r1] Ea.
  all: destruct result as [|recipient|];
    [apply comes_back_bind; [apply store_states_back|intros [ok2 st2] _; by apply comes_back_ends]| |by apply comes_back_ends].
  all: apply comes_back_bind; [apply store_states_back|]; intros [ok2 st2] E2.
  all: apply comes_back_bind; [apply comes_back_ends, call_next_ends|]; intros [[print st3] r3] E3.
  all: destruct print as [print|]; [|by apply comes_back_ends].
  all: apply (accept_output_step _ _ _ _ _ _ _ _ _ _ _ Hgas Ham Hg) in Ea as (H1 & Hg1 & _);
    apply store_states_step in E2 as (_ & Hd2 & _ & Ham2 & _).
  all: assert (m_curDepth st2 = m_curDepth st) as Hd20 by (rewrite Hd2; rewrite <- (hop_depth _ _ H1); by destruct first).
  all: assert (amount_ok st2) as Ha2 by (apply Ham2; destruct first; by apply (hop_amount _ _ H1)).
  all: apply call_next_step in E3 as (_ & _ & Hd3 & _ & Hm3 & Hmax); [|done|lia].
  all: specialize (Hmax (mk_is_Some _ _ eq_refl)); try lia.
  apply comes_back_bind; [apply IH; [unfold amount_ok in *; cbn; by rewrite Hm3|lia|cbn; lia..]|].
  intros [[[ok4 g4] st4] r4] _. apply comes_back_ends. ends.
Qed.

(** C33: A chain of contract calls ends.  The call of a transaction starts at depth 0.
    With one unit of fuel per hop that the maximal depth allows, or more, whatever the
    contracts print and the interpreter does: the execution never runs out of fuel, so it
    returns or raises a fault of the code; only the search for an unused index may go
    on, and then it is one that [SetStorage] started.  More fuel changes nothing.  At
    the maximal depth the next contract is not run: the call returns with the error. *)
Theorem chain_calls_end fuel st g out receipt first :
  gas_ok gas -> amount_ok st -> 0 <= g -> m_curDepth st = 0 -> (chain_fuel gas <= fuel)%nat ->
  let run fuel := ParseCallContract CONTRACT_STATE_VERSION ACCOUNT_VERSION index_fuel scilla gas fuel st g out receipt true first in
  run fuel <> Fault StillDrawing /\
  (run fuel = Fault StillSearching ->
     exists st contract entries, store_states CONTRACT_STATE_VERSION index_fuel st contract entries true = Fault StillSearching) /\
  run fuel = run (chain_fuel gas) /\
  (forall st (json : J) recipient g receipt, m_curDepth st = MAX_CONTRACT_DEPTH gas ->
     call_next CONTRACT_STATE_VERSION scilla gas st json recipient g receipt
     = Ret (None, sc_set_depth st (MAX_CONTRACT_DEPTH gas + 1), AddError receipt MAX_DEPTH_REACHED)).
Proof.
  intros Hgas Ham Hg Hd Hf run. pose proof (gas_depth _ Hgas). unfold chain_fuel in *.
  assert (comes_back (run fuel)) as [Hdraws Hsearch] by (apply chain_comes_back; [done..|rewrite Hd; lia|rewrite Hd; lia]).
  split; [intros E; by rewrite E in Hdraws|]. split; [exact Hsearch|]. split; [|intros; by apply call_next_stops].
  apply ParseCallContract_fuel; try done; rewrite ?Hd; lia.
Qed.

End execution.

(** ** A contract that calls itself *)

Module ChainSample.
Import Cyclic StateCodec JsonTree ContractSample.

(** Account 7 has called contract 5; the interpreter prints the next call nine times. *)
Definition called : AccountStoreSC (gmap Z Account) MapDB.db (list bytes) :=
  mkSC (mkAtomic ∅ sample_accounts) storage (replicate 9 (str "loop")) 0 5 7 3 50 2 1 true [] 0.

Definition chain (fuel : nat) := ParseCallContract 1 1 2 scilla gas fuel called 50 (str "loop") new_receipt true true.

Definition depth_reached (o : outcome (bool * Z * AccountStoreSC (gmap Z Account) MapDB.db (list bytes) * TransactionReceipt json)) : option (bool * Z) :=
  match o with Ret (ok, _, st, _) => Some (ok, m_curDepth st) | Fault _ => None end.

(** Three calls are made, the fourth is refused; two units of fuel would not do. *)
Example three_hops : depth_reached (chain 3) = Some (false, 4) /\ chain 2 = Fault StillDrawing.
Proof. vm_compute. split; reflexivity. Qed.

Lemma chain_calls_end_witness : chain 9 <> Fault StillDrawing /\ depth_reached (chain 9) = Some (false, 4).
Proof.
  destruct (chain_calls_end 1 1 2 scilla gas 9 called 50 (str "loop") new_receipt true) as (Hend & _ & Hsame & _);
    [exact sample_gas_ok|split; reflexivity || discriminate|discriminate|reflexivity|vm_compute; lia|].
  split; [exact Hend|]. unfold chain. rewrite Hsame. vm_compute. reflexivity.
Defined.

End ChainSample.
