(* ===== verification/AccountMessages.v ===== *)
(** * Accounts on the wire and the deltas of accounts
    ([libMessage/Messenger.cpp], the account messages of [ZilliqaMessage.proto])

    A shard publishes what its transactions changed as a delta: for every account
    the difference of balance and nonce, for contracts the code, if new, and the
    states that differ.  Class [AccountProto] is the generated protobuf code of the
    two messages, [AccountProtoSpec] that parsing inverts serializing. *)

From stdpp Require Import base numbers gmap countable list.
From S2P Require Import Prelude Serializable OpenSSL Schnorr LevelDB Json TxnPool AccountStore ContractStorage ContractAccount.
Open Scope Z_scope.

Record ProtoAccountBase := mkProtoAccountBase {
  pab_version : option Z;
  pab_balance : option bytes;
  pab_nonce : option Z;
  pab_codehash : option bytes;
  pab_storageroot : option bytes
}.

(** [storage]: the key hash and the data of every entry. *)
Record ProtoAccount := mkProtoAccount {
  pa_base : option ProtoAccountBase;
  pa_code : option bytes;
  pa_storage : list (bytes * bytes);
  pa_numbersign : option bool
}.

(** The entries of a [ProtoAccountStore]: address and account. *)
Abbreviation ProtoAccountStore := (list (bytes * ProtoAccount)).

(** Parsing a store that lacks a required field leaves it uninitialized: [None]. *)
Class AccountProto := {
  base_serialize : ProtoAccountBase -> bytes;
  base_parse : bytes -> ProtoAccountBase;
  store_serialize : ProtoAccountStore -> bytes;
  store_parse : bytes -> option ProtoAccountStore
}.

Class AccountProtoSpec `{AccountProto} : Prop := {
  base_parse_serialize p : base_parse (base_serialize p) = p;
  base_not_empty p : base_serialize p <> [];
  store_parse_serialize l : store_parse (store_serialize l) = Some l
}.

(** [NumberToProtobufByteArray<T, S>] and [ProtobufByteArrayToNumber<T, S>]; at
    offset 0 of their own buffer neither access is out of range. *)
Definition NumberToProtobufByteArray (S number : Z) : bytes := default [] (Serializable.SetNumber [] 0 number S).
Definition ProtobufByteArrayToNumber (S : Z) (byteArray : bytes) : Z := default 0 (Serializable.GetNumber (8 * S) byteArray 0 S).

(** [Messenger::CopyWithSizeCheck] into a hash of 32 bytes. *)
Definition CopyWithSizeCheck (arr : bytes) : option Z := if zlen arr =? 32 then Some (be_combine arr) else None.

(** A hash that is not null. *)
Definition hash_field (h : Z) : option bytes := if h =? 0 then None else Some (be_split 32 h).

Definition AccountBaseToProtobuf (a : Account) : ProtoAccountBase :=
  mkProtoAccountBase (Some (m_version a)) (Some (NumberToProtobufByteArray 16 (m_balance a))) (Some (m_nonce a))
    (hash_field (m_codeHash a)) (hash_field (m_storageRoot a)).

Definition acc_codeHash (a : Account) (h : Z) : Account :=
  mkAccount (m_version a) (m_balance a) (m_nonce a) (m_storageRoot a) h (m_address a) (m_codeCache a).
Definition acc_version (a : Account) (v : Z) : Account :=
  mkAccount v (m_balance a) (m_nonce a) (m_storageRoot a) (m_codeHash a) (m_address a) (m_codeCache a).

Definition CheckRequiredFieldsProtoAccountBase (p : ProtoAccountBase) : bool :=
  bool_decide (is_Some (pab_version p)) && bool_decide (is_Some (pab_balance p)) && bool_decide (is_Some (pab_nonce p)).

(** A hash field of the message: the member after reading it, or a wrong size. *)
Definition read_hash (field : option bytes) (old : Z) : option Z :=
  match field with
  | None => Some old
  | Some arr => CopyWithSizeCheck arr
  end.

(** The result and the account after the call. *)
Definition ProtobufToAccountBase (p : ProtoAccountBase) (a : Account) : bool * Account :=
  match pab_version p, pab_balance p, pab_nonce p with
  | Some version, Some balance, Some nonce =>
      let a := acc_nonce (acc_balance (acc_version a version) (ProtobufByteArrayToNumber 16 balance)) nonce in
      match read_hash (pab_codehash p) (m_codeHash a) with
      | None => (false, a)
      | Some h =>
          let a := acc_codeHash a h in
          match read_hash (pab_storageroot p) (m_storageRoot a) with
          | None => (false, a)
          | Some r => (true, acc_storageRoot a r)
          end
      end
  | _, _, _ => (false, a)
  end.

Section base.
Context `{AccountProto}.

(** [Account::SerializeBase], [Messenger::SetAccountBase]; the message is always
    initialized, all its fields are optional. *)
Definition SetAccountBase (dst : bytes) (offset : Z) (a : Account) : bool * bytes :=
  proto_write (base_serialize (AccountBaseToProtobuf a)) dst offset.

(** [Account::DeserializeBase], [Messenger::GetAccountBase]. *)
Definition GetAccountBase (src : bytes) (offset : Z) (a : Account) : bool * Account :=
  if offset >=? zlen src then (false, a)
  else ProtobufToAccountBase (base_parse (drop (Z.to_nat offset) src)) a.

End base.

Section delta.
Context `{SafeMath} `{OpenSSL} `{StateProto} {DB : Type} `{leveldb DB} (ACCOUNT_VERSION MAX_CODE_SIZE_IN_BYTES : Z).
Implicit Types (a : Account) (c : ContractStorage DB).

(** [AccountBase::ChangeBalance], [IncreaseNonceBy] *)
Definition ChangeBalance a (delta : Z) : bool * Account :=
  if delta >=? 0 then Account_IncreaseBalance a (u128 delta) else Account_DecreaseBalance a (u128 (- delta)).

Definition IncreaseNonceBy a (nonceDelta : Z) : bool * Account :=
  let '(ok, n) := sm_add 64 (m_nonce a) nonceDelta (m_nonce a) in (ok, acc_nonce a n).

(** The states of a contract that the delta carries. *)
Fixpoint delta_storage c (oldAccount newAccount : Account) (fullCopy : bool) (keys : list bytes)
  : outcome (list (bytes * bytes)) :=
  match keys with
  | [] => Ret []
  | keyHash :: keys =>
      rlpStr ← GetRawStorage c newAccount keyHash true;
      sent ← (if fullCopy then Ret true
              else old ← GetRawStorage c oldAccount keyHash false; Ret (negb (bool_decide (rlpStr = old))));
      rest ← delta_storage c oldAccount newAccount fullCopy keys;
      Ret (if sent : bool then (keyHash, rlpStr) :: rest else rest)
  end.

Definition AccountDeltaToProtobuf c (oldAccount : option Account) (newAccount : Account) : outcome ProtoAccount :=
  let fullCopy := match oldAccount with Some _ => false | None => true end in
  let oldAccount := default (Account_new ACCOUNT_VERSION 0 0) oldAccount in
  let balanceDelta := m_balance newAccount - m_balance oldAccount in
  let numbersign := Some (balanceDelta >? 0) in
  let '(ok, nonceDelta) := sm_sub 64 (m_nonce newAccount) (m_nonce oldAccount) 0 in
  if negb ok then Ret (mkProtoAccount None None [] numbersign)
  else
    let accbase := mkAccount (m_version newAccount) (u128 (Z.abs balanceDelta)) nonceDelta 0 0 0 [] in
    if negb (isContract newAccount) then
      Ret (mkProtoAccount (Some (AccountBaseToProtobuf accbase)) None [] numbersign)
    else
      '(accbase, code) ←
        (if fullCopy then
           code ← GetCode c newAccount; Ret (acc_codeHash accbase (m_codeHash newAccount), Some code)
         else Ret (accbase, None));
      '(accbase, storage) ←
        (if fullCopy || negb (m_storageRoot newAccount =? m_storageRoot oldAccount) then
           keys ← GetStorageKeyHashes c newAccount true;
           storage ← delta_storage c oldAccount newAccount fullCopy keys;
           Ret (acc_storageRoot accbase (m_storageRoot newAccount), storage)
         else Ret (accbase, []));
      Ret (mkProtoAccount (Some (AccountBaseToProtobuf accbase)) code storage numbersign).

(** The entries of a delta: key hashes must have 32 bytes. *)
Fixpoint read_entries (storage : list (bytes * bytes)) : option (list (bytes * bytes)) :=
  match storage with
  | [] => Some []
  | (keyhash, data) :: storage =>
      match CopyWithSizeCheck keyhash, read_entries storage with
      | Some _, Some rest => Some ((keyhash, data) :: rest)
      | _, _ => None
      end
  end.

(** The part of [ProtobufToAccountDelta] for contracts. *)
Definition contract_delta c (protoAccount : ProtoAccount) (accbase account : Account) (addr : Z)
    (fullCopy temp revertible : bool) : outcome (bool * Account * ContractStorage DB) :=
  let code := default [] (pa_code protoAccount) in
  '(ok, account) ←
    (if fullCopy then
       if zlen code >? MAX_CODE_SIZE_IN_BYTES then Ret (false, account)
       else
         old ← GetCode c account;
         let account := if bool_decide (code = old) then account else (SetCode account code).2 in
         Ret (m_codeHash account =? m_codeHash accbase, account)
     else Ret (true, account));
  if negb (ok : bool) then Ret (false, account, c)
  else if m_storageRoot accbase =? m_storageRoot account then Ret (true, account, c)
  else
    match read_entries (pa_storage protoAccount) with
    | None => Ret (false, account, c)
    | Some entries =>
        '(ok, account, c) ← SetStorage_delta c account addr entries temp revertible;
        if negb (ok : bool) then Ret (false, account, c)
        else if negb (is_empty entries) && negb (m_storageRoot accbase =? m_storageRoot account)
        then Ret (false, account, c)
        else Ret (true, account, c)
    end.

(** The result, the account and the contract states after the call.  The result of
    [ChangeBalance] is not looked at. *)
Definition ProtobufToAccountDelta c (protoAccount : ProtoAccount) (account : Account) (addr : Z)
    (fullCopy temp revertible : bool) : outcome (bool * Account * ContractStorage DB) :=
  match pa_base protoAccount with
  | None => Ret (false, account, c)
  | Some base =>
      let '(ok, accbase) := ProtobufToAccountBase base (mkAccount 0 0 0 0 0 0 []) in
      if negb ok then Ret (false, account, c)
      else if negb (m_version accbase =? ACCOUNT_VERSION) then Ret (false, account, c)
      else
        match pa_numbersign protoAccount with
        | None => Ret (false, account, c)
        | Some numbersign =>
            let balanceDelta := if numbersign : bool then m_balance accbase else 0 - m_balance accbase in
            let '(_, account) := ChangeBalance account balanceDelta in
            let '(ok, account) := IncreaseNonceBy account (m_nonce accbase) in
            if negb ok then Ret (false, account, c)
            else if negb (is_empty (default [] (pa_code protoAccount))) || isContract account then
              contract_delta c protoAccount accbase account addr fullCopy temp revertible
            else Ret (true, account, c)
        end
  end.

End delta.
