(* ===== verification/StateDelta.v ===== *)
(** * The account store and its deltas
    ([libData/AccountData/AccountStore.cpp], [AccountStoreTrie.tpp],
    [AccountStoreTemp.cpp], the account-store messages of
    [libMessage/Messenger.cpp])

    The permanent accounts are a map over a Merkle trie; [AccountStoreTemp], where
    the transactions of an epoch are executed, lies over it and is the only path of
    change: its difference to the permanent accounts is serialized, and every node,
    the one that made it included, applies the serialized difference.  Class
    [Trie] is the trie of [depends/libTrie], [TrieSpec] that it is a map; the
    contract states are the object of [ContractStorage.v]. *)

From stdpp Require Import base numbers gmap countable list sorting.
From S2P Require Import Prelude Serializable OpenSSL Schnorr LevelDB Json Receipt TxnPool AccountStore ContractStorage ContractAccount AccountStoreSC BlockChain BlockStorage AccountMessages.
Open Scope Z_scope.

(** [trie_at] of a key that is not there is empty; [None]: an exception. *)
Class Trie (T : Type) := {
  trie_at : T -> Z -> bytes;
  trie_insert : T -> Z -> bytes -> T;
  trie_remove : T -> Z -> T;
  trie_root : T -> Z;
  trie_init : T -> T;
  trie_commit : T -> option T;
  trie_rollback : T -> option T;
  trie_setRoot : T -> Z -> option T
}.

Class TrieSpec (T : Type) `{Trie T} := {
  trie_items : T -> gmap Z bytes;
  trie_at_spec t a : trie_at t a = default [] (trie_items t !! a);
  trie_insert_spec t a v : trie_items (trie_insert t a v) = <[a := v]> (trie_items t);
  trie_remove_spec t a : trie_items (trie_remove t a) = delete a (trie_items t)
}.

(** The accounts of [AccountStoreTrie]. *)
Record MainStore (T : Type) := mkMain {
  main_accounts : gmap Z Account;
  m_state : T;
  m_prevRoot : Z
}.
Arguments mkMain {_}.
Arguments main_accounts {_}.
Arguments m_state {_}.
Arguments m_prevRoot {_}.

Section main.
Context {T : Type} `{Trie T} `{AccountProto}.
Implicit Types s : MainStore T.

(** The account that the bytes of the trie describe. *)
Definition decode_account (address : Z) (raw : bytes) : option Account :=
  if is_empty raw then None
  else
    let '(ok, account) := GetAccountBase raw 0 (mkAccount 0 0 0 0 0 0 []) in
    if negb ok then None else Some (if isContract account then SetAddress account address else account).

Definition trie_GetAccount s (address : Z) : option Account * MainStore T :=
  match main_accounts s !! address with
  | Some account => (Some account, s)
  | None =>
      match decode_account address (trie_at (m_state s) address) with
      | None => (None, s)
      | Some account =>
          (Some account, mkMain (<[address := account]> (main_accounts s)) (m_state s) (m_prevRoot s))
      end
  end.

Definition main_set s (accounts : gmap Z Account) : MainStore T := mkMain accounts (m_state s) (m_prevRoot s).

#[global] Instance main_store : AccountMap (MainStore T) := {|
  GetAccount := trie_GetAccount;
  store_set s a x := main_set s (<[a := x]> (main_accounts s));
  store_insert s a x := match main_accounts s !! a with Some _ => s | None => main_set s (<[a := x]> (main_accounts s)) end;
  store_erase s a := main_set s (delete a (main_accounts s))
|}.

Definition UpdateStateTrie s (address : Z) (account : Account) : bool * MainStore T :=
  let '(ok, rawBytes) := SetAccountBase [] 0 account in
  if negb ok then (false, s)
  else (true, mkMain (main_accounts s) (trie_insert (m_state s) address rawBytes) (m_prevRoot s)).

Definition RemoveFromTrie s (address : Z) : MainStore T :=
  mkMain (main_accounts s) (trie_remove (m_state s) address) (m_prevRoot s).

Definition InitTrie s : MainStore T :=
  mkMain (main_accounts s) (trie_init (m_state s)) (trie_root (trie_init (m_state s))).

(** [AccountStoreTrie::Init]; the other members of the permanent store's own
    [AccountStoreSC] are never used. *)
Definition main_Init s : MainStore T := InitTrie (main_set s ∅).

End main.

(** [AccountStore]: the temporary store over the permanent one, with the contract
    states they share. *)
Record AccountStore (T DB W : Type) := mkAccountStore {
  as_temp : AccountStoreSC (AccountStoreTemp (MainStore T)) DB W;
  m_stateDeltaSerialized : bytes;
  m_addressToAccountRevChanged : gmap Z Account;
  m_addressToAccountRevCreated : gmap Z Account
}.
Arguments mkAccountStore {T DB W}.
Arguments as_temp {T DB W}.
Arguments m_stateDeltaSerialized {T DB W}.
Arguments m_addressToAccountRevChanged {T DB W}.
Arguments m_addressToAccountRevCreated {T DB W}.

Section members.
Context {T DB W : Type}.
Implicit Types st : AccountStore T DB W.

Definition as_main st : MainStore T := temp_parent (sc_store (as_temp st)).
Definition as_own st : gmap Z Account := temp_own (sc_store (as_temp st)).
Definition as_contracts st : ContractStorage DB := sc_contracts (as_temp st).

Definition as_set_temp st x : AccountStore T DB W :=
  mkAccountStore x (m_stateDeltaSerialized st) (m_addressToAccountRevChanged st) (m_addressToAccountRevCreated st).
Definition as_set_store st x : AccountStore T DB W := as_set_temp st (sc_set_store (as_temp st) x).
Definition as_set_main st m : AccountStore T DB W := as_set_store st (mkTemp (as_own st) m).
Definition as_set_contracts st c : AccountStore T DB W := as_set_temp st (sc_set_contracts (as_temp st) c).
Definition as_set_delta st d : AccountStore T DB W :=
  mkAccountStore (as_temp st) d (m_addressToAccountRevChanged st) (m_addressToAccountRevCreated st).
Definition as_set_rev st changed created : AccountStore T DB W :=
  mkAccountStore (as_temp st) (m_stateDeltaSerialized st) changed created.

End members.

(** ** The messages *)

(** The address of an entry: up to 20 bytes, the rest zero. *)
Definition entry_address (address : bytes) : Z := be_combine (resize 20 0 address).

Section deltas.
Context `{SafeMath} `{OpenSSL} `{StateProto} {DB : Type} `{leveldb DB} {T : Type} `{Trie T} `{AccountProto} {W : Type}.
Context `{Environment W} (ACCOUNT_VERSION MAX_CODE_SIZE_IN_BYTES : Z).
Implicit Types (st : AccountStore T DB W) (m : MainStore T) (c : ContractStorage DB).

(** The loop of [SetAccountStoreDelta] over the temporary accounts; the permanent
    store is only looked up. *)
Fixpoint delta_entries c m (entries : list (Z * Account)) : outcome (ProtoAccountStore * MainStore T) :=
  match entries with
  | [] => Ret ([], m)
  | (address, account) :: entries =>
      let '(old, m) := GetAccount m address in
      proto ← AccountDeltaToProtobuf ACCOUNT_VERSION c old account;
      '(rest, m) ← delta_entries c m entries;
      Ret ((address_bytes address, proto) :: rest, m)
  end.

Definition SetAccountStoreDelta c (dst : bytes) (offset : Z) (own : gmap Z Account) m
  : outcome (bool * bytes * MainStore T) :=
  '(result, m) ← delta_entries c m (ordered_entries own);
  let '(ok, dst) := proto_write (store_serialize result) dst offset in
  Ret (ok, dst, m).

(** [AddAccountDuringDeserialization] of the permanent store. *)
Definition AddAccountDuringDeserialization st (address : Z) (account oriAccount : Account)
    (fullCopy revertible : bool) : AccountStore T DB W :=
  let st := as_set_main st (main_set (as_main st) (<[address := account]> (main_accounts (as_main st)))) in
  let st :=
    if revertible then
      if fullCopy then as_set_rev st (m_addressToAccountRevChanged st)
                         (<[address := account]> (m_addressToAccountRevCreated st))
      else as_set_rev st (<[address := oriAccount]> (m_addressToAccountRevChanged st))
             (m_addressToAccountRevCreated st)
    else st in
  as_set_main st (UpdateStateTrie (as_main st) address account).2.

(** One entry of [GetAccountStoreDelta] into the permanent store. *)
Definition apply_entry st (entry : bytes * ProtoAccount) (revertible temp : bool) : outcome (bool * AccountStore T DB W) :=
  let address := entry_address entry.1 in
  let '(found, m) := GetAccount (as_main st) address in
  let st := as_set_main st m in
  let '(oriAccount, fullCopy, st) :=
    match found with
    | Some a => (Some a, false, st)
    | None =>
        let m := AddAccount (as_main st) address (Account_new ACCOUNT_VERSION 0 0) in
        let '(a, m) := GetAccount m address in (a, true, as_set_main st m)
    end in
  match oriAccount with
  | None => Ret (false, st)
  | Some ori =>
      '(ok, account, c) ← ProtobufToAccountDelta ACCOUNT_VERSION MAX_CODE_SIZE_IN_BYTES (as_contracts st) entry.2 ori
                            address fullCopy temp revertible;
      let st := as_set_contracts st c in
      if negb (ok : bool) then Ret (false, st)
      else Ret (true, AddAccountDuringDeserialization st address account ori fullCopy revertible)
  end.

Fixpoint apply_entries st (entries : ProtoAccountStore) (revertible temp : bool) : outcome (bool * AccountStore T DB W) :=
  match entries with
  | [] => Ret (true, st)
  | entry :: entries =>
      '(ok, st) ← apply_entry st entry revertible temp;
      if negb (ok : bool) then Ret (false, st) else apply_entries st entries revertible temp
  end.

Definition GetAccountStoreDelta st (src : bytes) (offset : Z) (revertible temp : bool)
  : outcome (bool * AccountStore T DB W) :=
  match store_parse (drop (Z.to_nat offset) src) with
  | None => Ret (false, st)
  | Some entries => apply_entries st entries revertible temp
  end.

(** One entry of [GetAccountStoreDelta] into the temporary store. *)
Definition apply_entry_temp st (entry : bytes * ProtoAccount) (temp : bool) : outcome (bool * AccountStore T DB W) :=
  let address := entry_address entry.1 in
  let '(found, s) := GetAccount (sc_store (as_temp st)) address in
  let '(fullCopy, s) :=
    match found with
    | Some _ => (false, s)
    | None => (true, AddAccount s address (Account_new ACCOUNT_VERSION 0 0))
    end in
  let '(oriAccount, s) := GetAccount s address in
  let st := as_set_store st s in
  match oriAccount with
  | None => Ret (false, st)
  | Some ori =>
      '(ok, account, c) ← ProtobufToAccountDelta ACCOUNT_VERSION MAX_CODE_SIZE_IN_BYTES (as_contracts st) entry.2 ori
                            address fullCopy temp false;
      let st := as_set_contracts st c in
      if negb (ok : bool) then Ret (false, st)
      else Ret (true, as_set_store st (store_set (sc_store (as_temp st)) address account))
  end.

Fixpoint apply_entries_temp st (entries : ProtoAccountStore) (temp : bool) : outcome (bool * AccountStore T DB W) :=
  match entries with
  | [] => Ret (true, st)
  | entry :: entries =>
      '(ok, st) ← apply_entry_temp st entry temp;
      if negb (ok : bool) then Ret (false, st) else apply_entries_temp st entries temp
  end.

Definition GetAccountStoreDelta_temp st (src : bytes) (offset : Z) (temp : bool) : outcome (bool * AccountStore T DB W) :=
  match store_parse (drop (Z.to_nat offset) src) with
  | None => Ret (false, st)
  | Some entries => apply_entries_temp st entries temp
  end.

(** The balance difference of every entry. *)
Definition StateDeltaToAddressMap (src : bytes) (offset : Z) (accountMap : gmap Z Z) : bool * gmap Z Z :=
  if offset >=? zlen src then (false, accountMap)
  else
    match store_parse (drop (Z.to_nat offset) src) with
    | None => (false, accountMap)
    | Some entries =>
        (true, foldl (fun accountMap entry =>
           let base := default (mkProtoAccountBase None None None None None) (pa_base entry.2) in
           let tmpNumber := ProtobufByteArrayToNumber 16 (default [] (pab_balance base)) in
           let balanceDelta := if default false (pa_numbersign entry.2) then tmpNumber else 0 - tmpNumber in
           match accountMap !! entry_address entry.1 with
           | Some _ => accountMap
           | None => <[entry_address entry.1 := balanceDelta]> accountMap
           end) accountMap entries)
    end.

(** ** [AccountStore] *)

Definition InitTemp st : AccountStore T DB W :=
  let st := as_set_temp st (SC_Init (mkTemp ∅ (as_main st)) (as_temp st)) in
  as_set_contracts (as_set_delta st []) (InitTempState (as_contracts st)).

Definition as_InitRevertibles st : AccountStore T DB W :=
  as_set_contracts (as_set_rev st ∅ ∅) (InitRevertibles (as_contracts st)).

Definition InitSoft st : AccountStore T DB W :=
  InitTemp (as_InitRevertibles (as_set_main st (main_Init (as_main st)))).

Definition SerializeDelta st : outcome (bool * AccountStore T DB W) :=
  '(ok, delta, m) ← SetAccountStoreDelta (as_contracts st) [] 0 (as_own st) (as_main st);
  Ret (ok, as_set_delta (as_set_main st m) delta).

Definition DeserializeDelta st (src : bytes) (offset : Z) (revertible : bool) : outcome (bool * AccountStore T DB W) :=
  GetAccountStoreDelta st src offset revertible false.

Definition DeserializeDeltaTemp st (src : bytes) (offset : Z) : outcome (bool * AccountStore T DB W) :=
  GetAccountStoreDelta_temp st src offset true.

Definition GetNonceTemp st (address : Z) : Z :=
  match as_own st !! address with
  | Some _ => (GetNonce (sc_store (as_temp st)) address).1
  | None => (GetNonce (as_main st) address).1
  end.

Definition GetStateDeltaHash st : Z :=
  if forallb (fun i => i =? 0) (m_stateDeltaSerialized st) then 0
  else be_combine (SHA256 (SHA2.Update SHA2.Reset (m_stateDeltaSerialized st))).

Definition UpdateCoinbaseTemp st (rewardee genesisAddress amount : Z) : outcome (bool * AccountStore T DB W) :=
  let '(found, s) := GetAccount (sc_store (as_temp st)) rewardee in
  let s := match found with
           | Some _ => s
           | None => AddAccount s rewardee (Account_new ACCOUNT_VERSION 0 0)
           end in
  '(ok, s) ← TransferBalance ACCOUNT_VERSION s genesisAddress rewardee amount;
  Ret (ok, as_set_store st s).

(** A failure of [DeserializeDelta] is only logged. *)
Definition CommitTemp st : outcome (AccountStore T DB W) :=
  '(_, st) ← DeserializeDelta st (m_stateDeltaSerialized st) 0 false; Ret st.

Definition CommitTempRevertible st : outcome (AccountStore T DB W) :=
  let st := as_InitRevertibles st in
  '(_, st) ← DeserializeDelta st (m_stateDeltaSerialized st) 0 true; Ret st.

(** An account as it was, a created account taken out. *)
Definition revert_changed (address : Z) (account : Account) m : MainStore T :=
  (UpdateStateTrie (main_set m (<[address := account]> (main_accounts m))) address account).2.

Definition revert_created (address : Z) (_ : Account) m : MainStore T :=
  RemoveFromTrie (RemoveAccount m address) address.

Definition RevertCommitTemp st : AccountStore T DB W :=
  let m := map_fold revert_changed (as_main st) (m_addressToAccountRevChanged st) in
  let m := map_fold revert_created m (m_addressToAccountRevCreated st) in
  as_set_contracts (as_set_main st m) (RevertContractStates (as_contracts st)).

(** [DiscardUnsavedUpdates]: an exception leaves what was done before it. *)
Definition DiscardUnsavedUpdates st : AccountStore T DB W :=
  let m := as_main st in
  match trie_rollback (m_state m) with
  | None => st
  | Some t =>
      match trie_setRoot t (m_prevRoot m) with
      | None => as_set_main st (mkMain (main_accounts m) t (m_prevRoot m))
      | Some t => as_set_main st (mkMain ∅ t (m_prevRoot m))
      end
  end.

(** ** Moving to disk *)

Definition MoveRootToDisk (blocks : BlockStorage DB) (root : Z) : outcome (bool * BlockStorage DB) :=
  PutStateRoot blocks (be_split 32 root).

(** The code of contracts that is not on disk yet. *)
Fixpoint code_batch_of c (accounts : list (Z * Account)) : outcome (gmap bytes bytes) :=
  match accounts with
  | [] => Ret ∅
  | (address, account) :: accounts =>
      batch ← code_batch_of c accounts;
      if negb (isContract account) then Ret batch
      else
        stored ← GetContractCode c address;
        if negb (is_empty stored) then Ret batch
        else code ← GetCode c account; Ret (<[address_hex address := code]> batch)
  end.

Fixpoint delete_codes c (keys : list bytes) : outcome (ContractStorage DB) :=
  match keys with
  | [] => Ret c
  | k :: keys =>
      address ← Address_of_string k;
      '(_, c) ← DeleteContractCode c address;
      delete_codes c keys
  end.

(** [MoveUpdatesToDisk(false)]: the result, the store and the block storage. *)
Definition MoveUpdatesToDisk st (blocks : BlockStorage DB) : outcome (bool * AccountStore T DB W * BlockStorage DB) :=
  let m := as_main st in
  code_batch ← code_batch_of (as_contracts st) (map_to_list (main_accounts m));
  '(ok, c) ← PutContractCodeBatch (as_contracts st) code_batch;
  let st := as_set_contracts st c in
  if negb (ok : bool) then Ret (false, st, blocks)
  else
    '(ok, c) ← CommitStateDB (as_contracts st);
    c ← (if negb (ok : bool) then delete_codes c (map_to_list code_batch).*1 else Ret c);
    let st := as_set_contracts st c in
    match trie_commit (m_state m) with
    | None => Ret (false, st, blocks)
    | Some t =>
        let root := trie_root t in
        let st := as_set_main st (mkMain (main_accounts m) t root) in
        '(ok, blocks) ← MoveRootToDisk blocks root;
        if negb (ok : bool) then Ret (false, st, blocks)
        else Ret (true, as_set_main st (mkMain ∅ t root), blocks)
    end.

(** [RetrieveFromDisk]; the root may still be in the metadata of an old database. *)
Definition RetrieveFromDisk st (blocks : BlockStorage DB) : outcome (bool * AccountStore T DB W * BlockStorage DB) :=
  let st := InitSoft st in
  root ← GetStateRoot blocks;
  '(rootBytes, blocks) ←
    match root with
    | Some rootBytes => Ret (Some rootBytes, blocks)
    | None =>
        root ← GetMetadata blocks STATEROOT;
        match root with
        | None => Ret (None, blocks)
        | Some rootBytes =>
            '(ok, blocks) ← PutStateRoot blocks rootBytes;
            Ret (if ok : bool then Some rootBytes else None, blocks)
        end
    end;
  match rootBytes with
  | None => Ret (false, st, blocks)
  | Some rootBytes =>
      let root := if zlen rootBytes =? 32 then be_combine rootBytes else 0 in
      match trie_setRoot (m_state (as_main st)) root with
      | None => Ret (false, st, blocks)
      | Some t => Ret (true, as_set_main st (mkMain (main_accounts (as_main st)) t (m_prevRoot (as_main st))), blocks)
      end
  end.

End deltas.

(** [AccountStore::UpdateAccountsTemp] *)
Section execution.
Context `{OpenSSL} `{StateProto} {DB : Type} `{leveldb DB} {J : Type} `{Json J} `{LexicalCast}.
Context `{ReceiptWriter J} `{SafeMath} {T : Type} `{Trie T} `{AccountProto} {W : Type} `{Environment W}.
Context {PubKey : Type} (GetAddressFromPublicKey : PubKey -> Z).
Context (CONTRACT_STATE_VERSION ACCOUNT_VERSION : Z) (index_fuel : nat) (scilla : ScillaConfig) (gas : GasConfig).

Definition UpdateAccountsTemp (st : AccountStore T DB W) (blockNum numShards : Z) (isDS : bool)
    (transaction : Transaction PubKey) (receipt : TransactionReceipt J)
  : outcome (bool * AccountStore T DB W * TransactionReceipt J) :=
  '(ok, sc, receipt) ← SC_UpdateAccounts GetAddressFromPublicKey CONTRACT_STATE_VERSION ACCOUNT_VERSION index_fuel
                         scilla gas (as_temp st) blockNum numShards isDS transaction receipt true;
  Ret (ok, as_set_temp st sc, receipt).

End execution.
