(* ===== verification/DeltaProperties.v ===== *)
(** * What the deltas of accounts do

    A delta of one shard is applied by every node, on accounts that other shards'
    deltas may already have changed. *)

From stdpp Require Import base numbers gmap countable list sorting.
From S2P Require Import Prelude Serializable OpenSSL Schnorr LevelDB Json Receipt TxnPool AccountStore ContractStorage ContractAccount AccountStoreSC BlockChain BlockStorage AccountMessages StateDelta.
Open Scope Z_scope.

(** ** The trie-backed store is a map *)

Section main.
Context {T : Type} `{Htrie : TrieSpec T} `{Hproto : AccountProto}.
Implicit Types s : MainStore T.

Lemma decode_at s a :
  decode_account a (trie_at (m_state s) a) = map_imap decode_account (trie_items (m_state s)) !! a.
Proof.
  rewrite trie_at_spec, map_lookup_imap. by destruct (trie_items (m_state s) !! a).
Qed.

#[global] Instance main_store_spec : AccountMapSpec (MainStore T).
Proof.
  refine {| view s := main_accounts s ∪ map_imap decode_account (trie_items (m_state s));
            hidden s := map_imap decode_account (trie_items (m_state s)) |}.
  - intros s a. cbn. unfold trie_GetAccount. rewrite lookup_union, decode_at.
    destruct (main_accounts s !! a); cbn; [by destruct (map_imap _ _ !! a)|]. by destruct (map_imap _ _ !! a).
  - intros s a. cbn. unfold trie_GetAccount. destruct (main_accounts s !! a) eqn:E; [done|].
    rewrite decode_at. destruct (map_imap _ _ !! a) as [x|] eqn:E'; [|done]. cbn.
    rewrite <- insert_union_l. apply insert_id. by rewrite lookup_union, E, E'.
  - intros s a x. cbn. symmetry. apply insert_union_l.
  - intros s a x. cbn. rewrite lookup_union. destruct (main_accounts s !! a) eqn:E; cbn.
    + by destruct (map_imap _ _ !! a).
    + intros _. symmetry. apply insert_union_l.
  - intros s a. apply union_erase.
  - intros s a. cbn. unfold trie_GetAccount. destruct (main_accounts s !! a); [done|]. by destruct (decode_account _ _).
  - done.
  - intros s a x. cbn. by destruct (main_accounts s !! a).
  - done.
Defined.

(** Writing an account into the map and the trie. *)
Lemma UpdateStateTrie_view s a x y :
  main_accounts s !! a = Some y -> view (UpdateStateTrie s a x).2 = view s.
Proof.
  intros Ha. unfold UpdateStateTrie. destruct (SetAccountBase [] 0 x) as [[] raw]; [|done]. cbn.
  apply map_eq. intros b. rewrite !lookup_union, trie_insert_spec, !map_lookup_imap.
  destruct (decide (a = b)) as [<-|Hab]; [|by rewrite lookup_insert_ne].
  rewrite Ha, lookup_insert_eq. cbn. by destruct (decode_account a raw), (trie_items (m_state s) !! a ≫= decode_account a).
Qed.

End main.

(** ** Numbers and hashes of an account message *)

Lemma number_roundtrip n : 0 <= n < 2 ^ 128 -> ProtobufByteArrayToNumber 16 (NumberToProtobufByteArray 16 n) = n.
Proof.
  intros Hn. unfold ProtobufByteArrayToNumber, NumberToProtobufByteArray.
  rewrite Serializable.SetNumber_spec by (unfold zlen; cbn; lia). cbn [default].
  erewrite (Serializable.Get_SetNumber _ [] 0 n 16); [|lia|constructor|unfold zlen; cbn; lia..|
    rewrite Serializable.SetNumber_spec by (unfold zlen; cbn; lia); reflexivity].
  apply Z.mod_small. lia.
Qed.

Lemma read_hash_field h old : 0 <= h < 2 ^ 256 -> read_hash (hash_field h) old = Some (if h =? 0 then old else h).
Proof.
  intros Hh. unfold read_hash, hash_field, CopyWithSizeCheck. destruct (h =? 0); [done|].
  rewrite zlen_be_split, be_combine_split. cbn [Z.of_nat Z.eqb]. f_equal. apply Z.mod_small. lia.
Qed.

Definition hashes_ok (a : Account) : Prop := 0 <= m_codeHash a < 2 ^ 256 /\ 0 <= m_storageRoot a < 2 ^ 256.

(** An account base survives the message; a null hash leaves the old value. *)
Lemma AccountBase_roundtrip a b :
  account_ok a -> hashes_ok a ->
  ProtobufToAccountBase (AccountBaseToProtobuf a) b =
  (true, mkAccount (m_version a) (m_balance a) (m_nonce a)
           (if m_storageRoot a =? 0 then m_storageRoot b else m_storageRoot a)
           (if m_codeHash a =? 0 then m_codeHash b else m_codeHash a) (m_address b) (m_codeCache b)).
Proof.
  intros [Hb _] [Hc Hr]. unfold ProtobufToAccountBase, AccountBaseToProtobuf. cbn [pab_version pab_balance pab_nonce
    pab_codehash pab_storageroot]. rewrite number_roundtrip, !read_hash_field by done. done.
Qed.

(** ** One account *)

Section account.
Context `{Hmath : SafeMath} `{Hsm : !SafeMathSpec} `{Hssl : OpenSSL} `{Hstate : StateProto} {DB : Type} `{Hdb : leveldb DB}.
Context (ACCOUNT_VERSION MAX_CODE_SIZE_IN_BYTES : Z).
Implicit Types (a account : Account) (c : ContractStorage DB) (p : ProtoAccount).

(** The differences that a message carries: the sign, the balance, the nonce; and the
    code hash. *)
Definition carries p (dbalance dnonce hash : Z) : Prop :=
  exists base root,
    pa_base p = Some base /\ pa_numbersign p = Some (dbalance >? 0) /\ 0 <= dnonce < 2 ^ 64 /\
    ProtobufToAccountBase base (mkAccount 0 0 0 0 0 0 []) =
      (true, mkAccount ACCOUNT_VERSION (Z.abs dbalance) dnonce root hash 0 []).

Definition old_balance (old : option Account) : Z := match old with Some o => m_balance o | None => 0 end.
Definition old_nonce (old : option Account) : Z := match old with Some o => m_nonce o | None => 0 end.

Lemma accbase_carries db dn root hash code storage :
  Z.abs db < 2 ^ 128 -> 0 <= dn < 2 ^ 64 -> 0 <= root < 2 ^ 256 -> 0 <= hash < 2 ^ 256 ->
  carries (mkProtoAccount (Some (AccountBaseToProtobuf (mkAccount ACCOUNT_VERSION (Z.abs db) dn root hash 0 [])))
             code storage (Some (db >? 0))) db dn hash.
Proof.
  intros Hb Hn Hr Hh. eexists _, _. split; [done|]. split; [done|]. split; [done|].
  rewrite AccountBase_roundtrip; [|split; cbn; lia|done]. cbn. by destruct (Z.eqb_spec hash 0) as [->|].
Qed.

(** The code hash that is sent: that of a contract at an address that was not used. *)
Definition sent_hash (old : option Account) (new : Account) : Z :=
  match old with Some _ => 0 | None => if isContract new then m_codeHash new else 0 end.

(** The code that is sent. *)
Definition sends_code (old : option Account) (new : Account) p : Prop :=
  match old with
  | Some _ => pa_code p = None
  | None => isContract new = true -> m_codeCache new <> [] -> pa_code p = Some (m_codeCache new)
  end.

(** A delta carries the differences, or no base at all when the nonce went back. *)
Lemma AccountDeltaToProtobuf_carries c old new p :
  account_ok new -> hashes_ok new -> (forall o, old = Some o -> account_ok o) -> m_version new = ACCOUNT_VERSION ->
  AccountDeltaToProtobuf ACCOUNT_VERSION c old new = Ret p ->
  if old_nonce old <=? m_nonce new
  then carries p (m_balance new - old_balance old) (m_nonce new - old_nonce old) (sent_hash old new) /\
       sends_code old new p
  else pa_base p = None.
Proof.
  intros Hnew [Hh Hr] Hold Hv E. unfold AccountDeltaToProtobuf in E. rewrite Hv in E.
  set (o := default _ old) in E.
  assert (account_ok o /\ m_balance o = old_balance old /\ m_nonce o = old_nonce old) as (Ho & Hob & Hon).
  { unfold o. destruct old as [x|]; [by auto|]. split; [split; cbn; lia|done]. }
  destruct Hnew as [Hnb Hnn], Ho as [Hb Hn]. rewrite sm_sub_spec in E by lia. rewrite Hob, Hon in *.
  rewrite (wrap_small 128 (Z.abs _)) in E by (unfold in_range; lia).
  destruct (Z.leb_spec (old_nonce old) (m_nonce new)); cbn [negb] in E; [|by injection E as <-].
  unfold sent_hash, sends_code. destruct (isContract new) eqn:Hcon; cbn [negb] in E.
  2: { injection E as <-. split; [destruct old; apply accbase_carries; lia|]. by destruct old. }
  apply bind_Ret in E as ([b1 code] & E1 & E). apply bind_Ret in E as ([b2 storage] & E2 & E). injection E as <-.
  set (hash := match old with Some _ => 0 | None => m_codeHash new end).
  assert (0 <= hash < 2 ^ 256) as Hhash by (unfold hash; destruct old; lia).
  assert (b1 = mkAccount ACCOUNT_VERSION (Z.abs (m_balance new - old_balance old)) (m_nonce new - old_nonce old) 0 hash 0 [] /\
    match old with Some _ => code = None | None => m_codeCache new <> [] -> code = Some (m_codeCache new) end) as [-> Hcode].
  { unfold hash. destruct old; cbn in E1; [by injection E1 as <- <-|]. apply bind_Ret in E1 as (code' & Ec & E1).
    injection E1 as <- <-. split; [done|]. intros Hne. unfold GetCode in Ec. rewrite Hcon in Ec. cbn [negb] in Ec.
    destruct (m_codeCache new); [done|]. by injection Ec as <-. }
  assert (exists root, 0 <= root < 2 ^ 256 /\ b2 = mkAccount ACCOUNT_VERSION (Z.abs (m_balance new - old_balance old))
            (m_nonce new - old_nonce old) root hash 0 []) as (root & Hroot & ->).
  { destruct (_ || _) in E2; [|injection E2 as <- _; by exists 0]. apply bind_Ret in E2 as (keys & _ & E2).
    apply bind_Ret in E2 as (s & _ & E2). injection E2 as <- _. by exists (m_storageRoot new). }
  split; [apply accbase_carries; lia|]. by destruct old; [|intros _].
Qed.

(** Balance, nonce are not touched; nor is the code hash. *)
Definition same_base a b : Prop := m_balance b = m_balance a /\ m_nonce b = m_nonce a.
Definition same_code a b : Prop := m_codeHash b = m_codeHash a.

Lemma SetCode_base a code : same_base a (SetCode a code).2.
Proof. unfold SetCode. by destruct (is_empty code). Qed.

Lemma SetStorage_delta_base c a addr entries temp rev ok a' c' :
  SetStorage_delta c a addr entries temp rev = Ret (ok, a', c') -> same_base a a' /\ same_code a a'.
Proof.
  unfold SetStorage_delta. intros E. destruct (isContract a); cbn [negb] in E; [|by injection E as _ <- _].
  apply bind_Ret in E as ([[ok1 root] c1] & _ & E). destruct ok1; cbn [negb] in E; injection E as _ <- _; [|done].
  unfold SetAddress. by destruct (_ =? _).
Qed.

Lemma contract_delta_base c p accbase account addr fullCopy temp rev ok account' c' :
  contract_delta MAX_CODE_SIZE_IN_BYTES c p accbase account addr fullCopy temp rev = Ret (ok, account', c') ->
  same_base account account' /\ (ok = true -> fullCopy = true -> m_codeHash account' = m_codeHash accbase).
Proof.
  unfold contract_delta. intros E. apply bind_Ret in E as ([ok1 a1] & E1 & E).
  assert (same_base account a1 /\ (ok1 = true -> fullCopy = true -> m_codeHash a1 = m_codeHash accbase)) as [[Hb Hn] Hc].
  { destruct fullCopy; [|by injection E1 as <- <-]. destruct (_ >? _) in E1; [by injection E1 as <- <-|].
    apply bind_Ret in E1 as (old & _ & E1). injection E1 as <- <-. split; [|by intros ->%Z.eqb_eq].
    case_bool_decide; [done|apply SetCode_base]. }
  destruct ok1; cbn [negb] in E; [|by injection E as <- <- _]. specialize (Hc eq_refl).
  destruct (_ =? _) in E; [by injection E as <- <- _|].
  destruct (read_entries _) as [entries|]; [|by injection E as <- <- _].
  apply bind_Ret in E as ([[ok2 a2] c2] & E2 & E). apply SetStorage_delta_base in E2 as [[Hb2 Hn2] Hc2]. red in Hc2.
  assert (same_base account a2) by (split; congruence).
  destruct ok2; cbn [negb] in E; [|by injection E as <- <- _].
  destruct (_ && _) in E; injection E as <- <- _; split; try done. intros _ ->. rewrite Hc2. by apply Hc.
Qed.

Lemma ChangeBalance_in_range a d :
  account_ok a -> Z.abs d < 2 ^ 128 -> 0 <= m_balance a + d < 2 ^ 128 ->
  ChangeBalance a d = (true, acc_balance a (m_balance a + d)).
Proof.
  intros [Hb _] Hd Hr. unfold ChangeBalance, Account_IncreaseBalance, Account_DecreaseBalance.
  destruct (Z.geb_spec d 0).
  - rewrite (wrap_small 128 d) by (unfold in_range; lia). rewrite sm_add_spec by lia.
    destruct (Z.ltb_spec (m_balance a + d) (2 ^ 128)); [done|lia].
  - rewrite (wrap_small 128 (- d)) by (unfold in_range; lia). destruct (Z.ltb_spec (m_balance a) (- d)); [lia|].
    rewrite sm_sub_spec by lia. destruct (Z.leb_spec (- d) (m_balance a)); [|lia]. do 2 f_equal. lia.
Qed.

Lemma sign_abs d : (if d >? 0 then Z.abs d else 0 - Z.abs d) = d.
Proof. destruct (Z.gtb_spec d 0); lia. Qed.

(** An accepted message adds the differences it carries; without code in it the
    account does not become a contract, with code a new account gets its hash. *)
Lemma ProtobufToAccountDelta_adds c p account addr fullCopy temp rev account' c' db dn hash :
  account_ok account -> carries p db dn hash -> Z.abs db < 2 ^ 128 -> 0 <= m_balance account + db < 2 ^ 128 ->
  ProtobufToAccountDelta ACCOUNT_VERSION MAX_CODE_SIZE_IN_BYTES c p account addr fullCopy temp rev
    = Ret (true, account', c') ->
  m_balance account' = m_balance account + db /\ m_nonce account' = m_nonce account + dn /\ account_ok account' /\
  (pa_code p = None -> isContract account = false -> isContract account' = false) /\
  (forall code, pa_code p = Some code -> code <> [] -> fullCopy = true -> m_codeHash account' = hash).
Proof.
  intros Hok (base & root & Hb & Hs & Hdn & Hbase) Hd Hr E. unfold ProtobufToAccountDelta in E.
  rewrite Hb, Hbase, Hs in E. cbn [negb m_version m_balance m_nonce] in E. rewrite Z.eqb_refl in E. cbn [negb] in E.
  rewrite sign_abs, ChangeBalance_in_range in E by done. unfold IncreaseNonceBy in E. cbn [acc_balance m_nonce] in E.
  destruct Hok as [Hab Han]. rewrite sm_add_spec in E by lia.
  destruct (Z.ltb_spec (m_nonce account + dn) (2 ^ 64)); cbn [negb] in E; [|done].
  set (a1 := acc_nonce _ _) in E.
  assert (same_base a1 account' /\ (pa_code p = None -> isContract account = false -> isContract account' = false) /\
    (forall code, pa_code p = Some code -> code <> [] -> fullCopy = true -> m_codeHash account' = hash))
    as ([Hb1 Hn1] & Hplain & Hcode).
  { change (isContract a1) with (isContract account) in E.
    destruct (negb (is_empty _) || isContract account) eqn:Eb.
    - apply contract_delta_base in E as [Hsb Hc]. split; [done|]. split.
      + intros Hnone Hp. rewrite Hnone, Hp in Eb. done.
      + intros code _ _ Hfull. by apply Hc.
    - injection E as <- <-. split; [done|]. split; [done|]. intros code Hsome Hne _. rewrite Hsome in Eb.
      by destruct code. }
  cbn in Hb1, Hn1. split; [done|]. split; [done|]. split; [split; rewrite ?Hb1, ?Hn1; lia|done].
Qed.

Lemma no_base_refused c p account addr fullCopy temp rev ok account' c' :
  pa_base p = None ->
  ProtobufToAccountDelta ACCOUNT_VERSION MAX_CODE_SIZE_IN_BYTES c p account addr fullCopy temp rev
    = Ret (ok, account', c') -> ok = false.
Proof. unfold ProtobufToAccountDelta. intros ->. by intros [= <- _ _]. Qed.

(** A message without code for an account without code is accepted. *)
Lemma ProtobufToAccountDelta_plain c p account addr fullCopy temp rev db dn hash :
  account_ok account -> carries p db dn hash -> Z.abs db < 2 ^ 128 -> 0 <= m_balance account + db < 2 ^ 128 ->
  m_nonce account + dn < 2 ^ 64 -> pa_code p = None -> isContract account = false ->
  ProtobufToAccountDelta ACCOUNT_VERSION MAX_CODE_SIZE_IN_BYTES c p account addr fullCopy temp rev
    = Ret (true, acc_nonce (acc_balance account (m_balance account + db)) (m_nonce account + dn), c).
Proof.
  intros Hok (base & root & Hb & Hs & Hdn & Hbase) Hd Hr Hn Hcode Hc. unfold ProtobufToAccountDelta.
  rewrite Hb, Hbase, Hs. cbn [negb m_version m_balance m_nonce]. rewrite Z.eqb_refl. cbn [negb].
  rewrite sign_abs, ChangeBalance_in_range by done. unfold IncreaseNonceBy. cbn [acc_balance m_nonce].
  destruct Hok as [Hab Han]. rewrite sm_add_spec by lia.
  destruct (Z.ltb_spec (m_nonce account + dn) (2 ^ 64)); [|lia]. rewrite Hcode. cbn [negb default is_empty orb].
  unfold isContract in *. cbn. by rewrite Hc.
Qed.

End account.

(** ** The whole delta *)

Lemma entry_address_bytes a : is_address a -> entry_address (address_bytes a) = a.
Proof.
  intros Ha. unfold entry_address, address_bytes.
  rewrite resize_all_alt by (by rewrite length_be_split). rewrite be_combine_split. apply Z.mod_small. exact Ha.
Qed.

Section delta.
Context `{Hmath : SafeMath} `{Hsm : !SafeMathSpec} `{Hssl : OpenSSL} `{Hstate : StateProto} {DB : Type} `{Hdb : leveldb DB}.
Context {T : Type} `{Htr : Trie T} `{Htrie : !TrieSpec T} `{Hproto : AccountProto} `{Hps : !AccountProtoSpec}.
Context {W : Type} `{Henv : Environment W} (ACCOUNT_VERSION MAX_CODE_SIZE_IN_BYTES : Z).
Implicit Types (st : AccountStore T DB W) (m : MainStore T) (c : ContractStorage DB) (own P V : gmap Z Account).

(** The message made of the account [x] at [a] over the accounts [P]. *)
Definition entry_for P (e : Z * Account) (pe : bytes * ProtoAccount) : Prop :=
  pe.1 = address_bytes e.1 /\
  if old_nonce (P !! e.1) <=? m_nonce e.2
  then carries ACCOUNT_VERSION pe.2 (m_balance e.2 - balance_at P e.1) (m_nonce e.2 - nonce_at P e.1)
         (sent_hash (P !! e.1) e.2) /\ sends_code (P !! e.1) e.2 pe.2
  else pa_base pe.2 = None.

(** Accounts that a temporary store may hold. *)
Definition temp_account (x : Account) : Prop := account_ok x /\ hashes_ok x /\ m_version x = ACCOUNT_VERSION.

Lemma delta_entries_sound c m entries protos m' :
  accounts_ok (view m) -> Forall (fun e => temp_account e.2) entries ->
  delta_entries ACCOUNT_VERSION c m entries = Ret (protos, m') ->
  view m' = view m /\ Forall2 (entry_for (view m)) entries protos.
Proof.
  intros Hok. revert m protos m' Hok. induction entries as [|[a x] entries IH]; intros m protos m' Hok Hx E.
  { injection E as <- <-. by split. }
  apply Forall_cons in Hx as [[Hxo [Hxh Hxv]] Hx]. cbn [snd] in *. cbn [delta_entries] in E.
  pose proof (GetAccount_found m a) as Hf. pose proof (GetAccount_keeps m a) as Hk.
  destruct (GetAccount m a) as [old m1]; cbn [fst snd] in *.
  apply bind_Ret in E as (p & Ep & E). apply bind_Ret in E as ([rest m2] & E2 & E). injection E as <- <-.
  apply IH in E2 as [Hv2 HF]; [|by rewrite Hk|done]. rewrite Hk in Hv2, HF. split; [done|].
  constructor; [|done]. split; [done|]. cbn [fst snd]. subst old.
  apply AccountDeltaToProtobuf_carries in Ep; [|done..|by intros o; apply Hok|done].
  unfold balance_at, nonce_at. by destruct (view m !! a).
Qed.

(** The permanent accounts after an entry, and what is kept to undo it. *)
Lemma AddAccountDuringDeserialization_main st a x ori full rev :
  exists m, as_main (AddAccountDuringDeserialization st a x ori full rev) = (UpdateStateTrie m a x).2 /\
    m = main_set (as_main st) (<[a := x]> (main_accounts (as_main st))).
Proof. destruct rev, full; by eexists. Qed.

Lemma AddAccountDuringDeserialization_view st a x ori full rev :
  view (as_main (AddAccountDuringDeserialization st a x ori full rev)) = <[a := x]> (view (as_main st)).
Proof.
  destruct (AddAccountDuringDeserialization_main st a x ori full rev) as (m & -> & ->).
  rewrite (UpdateStateTrie_view _ a x x) by apply lookup_insert_eq. symmetry. apply insert_union_l.
Qed.

(** The account an entry is applied to: the permanent one, or a new empty one. *)
Definition original V (a : Z) : Account := default (Account_new ACCOUNT_VERSION 0 0) (V !! a).

(** One entry: the account is looked up or added, then the message is applied. *)
Lemma apply_entry_prepares st pe rev temp :
  let a := entry_address pe.1 in let V := view (as_main st) in
  exists m, view m = <[a := original V a]> V /\
    apply_entry ACCOUNT_VERSION MAX_CODE_SIZE_IN_BYTES st pe rev temp =
    ('(ok, account, c) ← ProtobufToAccountDelta ACCOUNT_VERSION MAX_CODE_SIZE_IN_BYTES (as_contracts st) pe.2
                            (original V a) a (bool_decide (V !! a = None)) temp rev;
     let st := as_set_contracts (as_set_main st m) c in
     if negb (ok : bool) then Ret (false, st)
     else Ret (true, AddAccountDuringDeserialization st a account (original V a) (bool_decide (V !! a = None)) rev)).
Proof.
  intros a V. unfold apply_entry. fold a. pose proof (GetAccount_found (as_main st) a) as Hf.
  pose proof (GetAccount_keeps (as_main st) a) as Hk. fold V in Hf, Hk. unfold original.
  destruct (GetAccount (as_main st) a) as [found m1]; cbn [fst snd] in *. rewrite <- Hf. destruct found as [x|].
  - exists m1. split; [|done]. rewrite Hk. symmetry. by apply insert_id.
  - assert (view (AddAccount m1 a (Account_new ACCOUNT_VERSION 0 0)) = <[a := Account_new ACCOUNT_VERSION 0 0]> V) as Hadd.
    { unfold AddAccount, IsAccountExist. pose proof (GetAccount_found m1 a) as Hf1.
      pose proof (GetAccount_keeps m1 a) as Hk1. destruct (GetAccount m1 a) as [z m3]; cbn [fst snd] in *.
      rewrite Hk, <- Hf in Hf1. subst z. cbn [negb]. rewrite store_insert_view by (by rewrite Hk1, Hk).
      by rewrite Hk1, Hk. }
    change (as_main (as_set_main st m1)) with m1. set (m2 := AddAccount m1 a _) in *.
    pose proof (GetAccount_found m2 a) as Hf2. pose proof (GetAccount_keeps m2 a) as Hk2.
    destruct (GetAccount m2 a) as [z m3]; cbn [fst snd] in *. rewrite Hadd, lookup_insert_eq in Hf2. subst z.
    exists m3. by rewrite Hk2.
Qed.

(** One entry, backwards. *)
Lemma apply_entry_view st pe rev temp ok st' :
  apply_entry ACCOUNT_VERSION MAX_CODE_SIZE_IN_BYTES st pe rev temp = Ret (ok, st') ->
  let a := entry_address pe.1 in let V := view (as_main st) in
  exists y c', ProtobufToAccountDelta ACCOUNT_VERSION MAX_CODE_SIZE_IN_BYTES (as_contracts st) pe.2 (original V a) a
      (bool_decide (V !! a = None)) temp rev = Ret (ok, y, c') /\
    view (as_main st') = <[a := if ok then y else original V a]> V /\
    m_addressToAccountRevChanged st' =
      (if ok && rev && bool_decide (is_Some (V !! a))
       then <[a := original V a]> (m_addressToAccountRevChanged st) else m_addressToAccountRevChanged st) /\
    m_addressToAccountRevCreated st' =
      (if ok && rev && bool_decide (V !! a = None)
       then <[a := y]> (m_addressToAccountRevCreated st) else m_addressToAccountRevCreated st).
Proof.
  intros E a V. destruct (apply_entry_prepares st pe rev temp) as (m & Hm & Ha). rewrite Ha in E. fold a V in Hm, E.
  apply bind_Ret in E as ([[ok1 y] c'] & Ey & E). exists y, c'.
  destruct ok1; cbn [negb] in E; injection E as <- <-; (split; [exact Ey|]); [|done].
  rewrite AddAccountDuringDeserialization_view. split.
  { change (as_main _) with m. by rewrite Hm, insert_insert_eq. }
  destruct (V !! a) as [x|] eqn:Ex.
  - rewrite bool_decide_eq_false_2, bool_decide_eq_true_2 by done. by destruct rev.
  - rewrite bool_decide_eq_true_2, bool_decide_eq_false_2 by (done || by intros []). by destruct rev.
Qed.

(** The sum of the balance differences. *)
Definition delta_sum P (entries : list (Z * Account)) : Z :=
  foldr (fun e acc => (m_balance e.2 - balance_at P e.1) + acc) 0 entries.

(** What becomes of the code: an account without code at an address the sender knew
    stays without code; a new contract at an unused address arrives with its hash. *)
Definition code_kept (old : option Account) (x : Account) (v v' : option Account) : Prop :=
  (forall w w', is_Some old -> v = Some w -> isContract w = false -> v' = Some w' -> isContract w' = false) /\
  (forall w', old = None -> v = None -> isContract x = true -> m_codeCache x <> [] -> v' = Some w' ->
     m_codeHash w' = m_codeHash x).

(** What applying the entries does to the accounts [V], when all are accepted. *)
Record merged P V V' (entries : list (Z * Account)) : Prop := {
  mg_ok : accounts_ok V';
  mg_entry : Forall (fun e => old_nonce (P !! e.1) <= m_nonce e.2 /\
      balance_at V' e.1 = balance_at V e.1 + (m_balance e.2 - balance_at P e.1) /\
      nonce_at V' e.1 = nonce_at V e.1 + (m_nonce e.2 - nonce_at P e.1) /\
      code_kept (P !! e.1) e.2 (V !! e.1) (V' !! e.1)) entries;
  mg_other : forall a, a ∉ entries.*1 -> V' !! a = V !! a;
  mg_total : total V' = total V + delta_sum P entries
}.

Lemma apply_entries_merged P entries protos st rev temp st' :
  Forall2 (entry_for P) entries protos -> NoDup entries.*1 -> accounts_ok (view (as_main st)) -> accounts_ok P ->
  Forall (fun e => account_ok e.2 /\ is_address e.1 /\
    0 <= balance_at (view (as_main st)) e.1 + (m_balance e.2 - balance_at P e.1) < 2 ^ 128) entries ->
  apply_entries ACCOUNT_VERSION MAX_CODE_SIZE_IN_BYTES st protos rev temp = Ret (true, st') ->
  merged P (view (as_main st)) (view (as_main st')) entries.
Proof.
  intros HF. revert st. induction HF as [|[a x] [bs p] entries protos [Hbs Hp] HF IH]; intros st Hnd Hok HP Hr E.
  { injection E as <-. split; [done|constructor|done|cbn; lia]. }
  cbn [fst snd] in *. apply NoDup_cons in Hnd as [Hna Hnd]. apply Forall_cons in Hr as [(Hx & Ha & Hrange) Hr].
  cbn [fst snd] in *. cbn [apply_entries] in E. apply bind_Ret in E as ([ok st1] & E1 & E).
  apply apply_entry_view in E1 as (y & c' & Ey & Hv & _). cbn [fst snd] in *. subst bs.
  rewrite entry_address_bytes in * by done. destruct ok; cbn [negb] in E; [|done].
  set (V := view (as_main st)) in *. set (ori := original V a) in Ey.
  assert (account_ok ori /\ m_balance ori = balance_at V a /\ m_nonce ori = nonce_at V a) as (Hori & Hob & Hon).
  { unfold ori, original, balance_at, nonce_at. destruct (V !! a) as [z|] eqn:Ez; [by eauto|]. split; [split; cbn; lia|done]. }
  assert (0 <= balance_at P a < 2 ^ 128) as HPa.
  { unfold balance_at. destruct (P !! a) as [z|] eqn:Ez; [by destruct (HP _ _ Ez)|lia]. }
  destruct (Z.leb_spec (old_nonce (P !! a)) (m_nonce x)) as [Hnon|]; [|by apply no_base_refused in Ey].
  destruct Hp as [Hp Hsc].
  apply (ProtobufToAccountDelta_adds _ _ _ _ _ _ _ _ _ _ _ _ _ _ Hori Hp) in Ey as (Hyb & Hyn & Hyo & Hplain & Hcode);
    [|destruct Hx; lia|by rewrite Hob].
  assert (Forall (fun e => balance_at (view (as_main st1)) e.1 = balance_at V e.1 /\
                           nonce_at (view (as_main st1)) e.1 = nonce_at V e.1) entries) as Hsame.
  { apply Forall_forall. intros e He. assert (a <> e.1) as Hne.
    { intros ->. apply Hna. by apply list_elem_of_fmap_2. }
    rewrite Hv. unfold balance_at, nonce_at. by rewrite lookup_insert_ne. }
  apply IH in E as [Hok' Hent Hoth Htot]; [|done|rewrite Hv; by apply map_Forall_insert_2|done|].
  2: { apply Forall_forall. intros e He. rewrite Forall_forall in Hr, Hsame.
       destruct (Hr e He) as (H1 & H2 & H3), (Hsame e He) as [-> _]. done. }
  split; [done|constructor|..].
  - cbn [fst snd]. split; [done|]. rewrite Hon in Hyn. rewrite Hob in Hyb.
    unfold balance_at at 1, nonce_at at 1. rewrite Hoth by done. rewrite Hv, lookup_insert_eq.
    split; [done|]. split; [done|]. split.
    + intros w w' [o Ho] Hw Hcw [= <-]. unfold sends_code in Hsc. rewrite Ho in Hsc. apply Hplain; [done|].
      unfold ori, original. by rewrite Hw.
    + intros w' Ho Hw Hcx Hne [= <-]. unfold sends_code, sent_hash in *. rewrite Ho in Hsc, Hcode. rewrite Hcx in Hcode.
      apply (Hcode (m_codeCache x)); [by apply Hsc|done|]. by rewrite Hw.
  - apply Forall_forall. intros e He. rewrite Forall_forall in Hent, Hsame.
    destruct (Hent e He) as (H1 & -> & -> & Hk), (Hsame e He) as [-> ->]. split; [done|]. split; [done|].
    split; [done|]. rewrite Hv, lookup_insert_ne in Hk; [done|]. intros ->. apply Hna. by apply list_elem_of_fmap_2.
  - intros b Hb. cbn in Hb. rewrite not_elem_of_cons in Hb. destruct Hb as [Hab Hb].
    rewrite Hoth by done. by rewrite Hv, lookup_insert_ne.
  - rewrite Htot, Hv, total_insert, Hyb, Hob. unfold delta_sum. cbn [foldr fst snd]. lia.
Qed.

Lemma delta_sum_perm P l l' : l ≡ₚ l' -> delta_sum P l = delta_sum P l'.
Proof. unfold delta_sum. induction 1; cbn in *; lia. Qed.

Lemma total_union own P : total (own ∪ P) = total P + delta_sum P (ordered_entries own).
Proof.
  rewrite (delta_sum_perm _ _ _ (ordered_entries_perm own)).
  induction own as [|a x own Ha _ IH] using map_first_key_ind.
  { rewrite map_empty_union, map_to_list_empty. unfold delta_sum. cbn. lia. }
  rewrite <- insert_union_l, total_insert, IH.
  rewrite (delta_sum_perm _ _ _ (map_to_list_insert own a x Ha)). unfold delta_sum. cbn [foldr fst snd].
  assert (balance_at (own ∪ P) a = balance_at P a) as ->.
  { unfold balance_at. rewrite lookup_union, Ha. by destruct (P !! a). }
  lia.
Qed.

Lemma balance_union own P a : balance_at (own ∪ P) a = match own !! a with Some x => m_balance x | None => balance_at P a end.
Proof. unfold balance_at. rewrite lookup_union. destruct (own !! a), (P !! a); done. Qed.
Lemma nonce_union own P a : nonce_at (own ∪ P) a = match own !! a with Some x => m_nonce x | None => nonce_at P a end.
Proof. unfold nonce_at. rewrite lookup_union. destruct (own !! a), (P !! a); done. Qed.

(** The state of a store in which the transactions of an epoch have been executed. *)
Record epoch_ok st : Prop := {
  eo_main : accounts_ok (view (as_main st));
  eo_own : map_Forall (fun a x => is_address a /\ temp_account x) (as_own st)
}.

(** The accounts with the effects of the epoch. *)
Definition executed st : gmap Z Account := as_own st ∪ view (as_main st).

Lemma SerializeDelta_sound st ok st' :
  epoch_ok st -> SerializeDelta ACCOUNT_VERSION st = Ret (ok, st') ->
  exists protos, m_stateDeltaSerialized st' = store_serialize protos /\
    Forall2 (entry_for (view (as_main st))) (ordered_entries (as_own st)) protos /\
    as_own st' = as_own st /\ view (as_main st') = view (as_main st).
Proof.
  intros [Hm Ho] E. unfold SerializeDelta in E. apply bind_Ret in E as ([[ok1 delta] m] & E1 & E). injection E as _ <-.
  unfold SetAccountStoreDelta in E1. apply bind_Ret in E1 as ([protos m1] & E1 & E).
  pose proof (proto_write_append (store_serialize protos) []) as Hw. change (zlen []) with 0 in Hw.
  destruct (proto_write (store_serialize protos) [] 0) as [ok2 d]. cbn in Hw. injection E as _ <- <-.
  apply delta_entries_sound in E1 as [Hv HF]; [|done|].
  - exists protos. split; [done|]. split; [done|]. by split.
  - apply Forall_forall. intros [a x] He. apply elem_of_ordered in He. by destruct (Ho _ _ He).
Qed.

(** Applying the delta of one store to another. *)
Lemma delta_merged st1 st1' st2 st2' ok1 rev :
  epoch_ok st1 -> accounts_ok (view (as_main st2)) ->
  (forall a, 0 <= balance_at (view (as_main st2)) a +
     (balance_at (executed st1) a - balance_at (view (as_main st1)) a) < 2 ^ 128) ->
  SerializeDelta ACCOUNT_VERSION st1 = Ret (ok1, st1') ->
  DeserializeDelta ACCOUNT_VERSION MAX_CODE_SIZE_IN_BYTES st2 (m_stateDeltaSerialized st1') 0 rev = Ret (true, st2') ->
  merged (view (as_main st1)) (view (as_main st2)) (view (as_main st2')) (ordered_entries (as_own st1)).
Proof.
  intros Hep HV Hr E1 E2. destruct (SerializeDelta_sound _ _ _ Hep E1) as (protos & Hd & HF & _ & _).
  unfold DeserializeDelta, GetAccountStoreDelta in E2. rewrite Hd in E2. change (drop (Z.to_nat 0) (store_serialize protos)) with (store_serialize protos) in E2.
  rewrite store_parse_serialize in E2. eapply apply_entries_merged; [done|apply NoDup_ordered|done|apply Hep| |done].
  apply Forall_forall. intros [a x] He. apply elem_of_ordered in He. cbn [fst snd].
  destruct (eo_own _ Hep _ _ He) as [Ha [Hx _]]. split; [done|]. split; [done|].
  specialize (Hr a). unfold executed in Hr. by rewrite balance_union, He in Hr.
Qed.

(** C29: A delta moves the accounts of any node as it moved those of the shard.  When
    a node accepts the serialized delta of a shard, whatever other shards' deltas it
    has applied before, and no balance would leave its range by it, every balance and every nonce changes by exactly the amount
    the shard's transactions changed it, accounts the shard did not touch stay as
    they are, the sum of all balances changes by what the shard changed it, and a
    contract created at an unused address arrives with its code hash. *)
Theorem state_delta_merges st1 st1' st2 st2' ok1 rev :
  epoch_ok st1 -> accounts_ok (view (as_main st2)) ->
  (forall a, 0 <= balance_at (view (as_main st2)) a +
     (balance_at (executed st1) a - balance_at (view (as_main st1)) a) < 2 ^ 128) ->
  SerializeDelta ACCOUNT_VERSION st1 = Ret (ok1, st1') ->
  DeserializeDelta ACCOUNT_VERSION MAX_CODE_SIZE_IN_BYTES st2 (m_stateDeltaSerialized st1') 0 rev = Ret (true, st2') ->
  let P := view (as_main st1) in let V := view (as_main st2) in let V' := view (as_main st2') in
  accounts_ok V' /\
  (forall a, balance_at V' a = balance_at V a + (balance_at (executed st1) a - balance_at P a) /\
             nonce_at V' a = nonce_at V a + (nonce_at (executed st1) a - nonce_at P a)) /\
  (forall a, as_own st1 !! a = None -> V' !! a = V !! a) /\
  total V' = total V + (total (executed st1) - total P) /\
  (forall a x x', as_own st1 !! a = Some x -> P !! a = None -> V !! a = None -> isContract x = true ->
     m_codeCache x <> [] -> V' !! a = Some x' -> m_codeHash x' = m_codeHash x).
Proof.
  intros Hep HV Hr E1 E2 P V V'. destruct (delta_merged _ _ _ _ _ _ Hep HV Hr E1 E2) as [Hok Hent Hoth Htot].
  rewrite Forall_forall in Hent. fold P V V' in Hok, Hent, Hoth, Htot.
  assert (forall a, as_own st1 !! a = None -> V' !! a = V !! a) as Hframe.
  { intros a Ha. apply Hoth. intros ([b x] & -> & He)%list_elem_of_fmap. apply elem_of_ordered in He. cbn in Ha. congruence. }
  split; [done|]. split; [|split; [done|split]].
  - intros a. unfold executed. rewrite balance_union, nonce_union. fold P.
    destruct (as_own st1 !! a) as [x|] eqn:Ea.
    + destruct (Hent (a, x)) as (_ & Hb & Hn & _); [by apply elem_of_ordered|]. by split.
    + unfold balance_at at 1, nonce_at at 1. rewrite Hframe by done. unfold balance_at, nonce_at. lia.
  - rewrite Htot. unfold executed. rewrite total_union. fold P. lia.
  - intros a x x' Ha HP Hv. destruct (Hent (a, x)) as (_ & _ & _ & _ & Hk); [by apply elem_of_ordered|].
    by apply Hk.
Qed.

(** C37: A contract that is created at an address which already has an account loses
    its code.  The delta of an account that existed before carries no code, so on
    every node that applies it, the one that executed the creation included, the
    account stays without code: coins sent in advance to the predictable address of a
    contract make its creation void. *)
Theorem prefunded_contract_lost st1 st1' st2 st2' ok1 rev a x o v v' :
  epoch_ok st1 -> accounts_ok (view (as_main st2)) ->
  (forall a, 0 <= balance_at (view (as_main st2)) a +
     (balance_at (executed st1) a - balance_at (view (as_main st1)) a) < 2 ^ 128) ->
  SerializeDelta ACCOUNT_VERSION st1 = Ret (ok1, st1') ->
  DeserializeDelta ACCOUNT_VERSION MAX_CODE_SIZE_IN_BYTES st2 (m_stateDeltaSerialized st1') 0 rev = Ret (true, st2') ->
  as_own st1 !! a = Some x -> isContract x = true -> view (as_main st1) !! a = Some o ->
  view (as_main st2) !! a = Some v -> isContract v = false ->
  view (as_main st2') !! a = Some v' -> isContract v' = false.
Proof.
  intros Hep HV Hr E1 E2 Ha _ Ho Hv Hc Hv'. destruct (delta_merged _ _ _ _ _ _ Hep HV Hr E1 E2) as [_ Hent _ _].
  rewrite Forall_forall in Hent. destruct (Hent (a, x)) as (_ & _ & _ & Hk & _); [by apply elem_of_ordered|].
  by eapply Hk.
Qed.

(** ** Payments *)

(** An account that differs from the one before in balance and nonce only. *)
Definition payment P (a : Z) (x : Account) : Prop :=
  isContract (original P a) = false /\ m_nonce (original P a) <= m_nonce x /\
  x = acc_nonce (acc_balance (original P a) (m_balance x)) (m_nonce x).

Lemma delta_entries_plain c m entries :
  accounts_ok (view m) -> Forall (fun e => temp_account e.2 /\ payment (view m) e.1 e.2) entries ->
  exists protos m', delta_entries ACCOUNT_VERSION c m entries = Ret (protos, m') /\
    Forall (fun pe => pa_code pe.2 = None) protos.
Proof.
  intros Hok. revert m Hok. induction entries as [|[a x] entries IH]; intros m Hok HF; [by eexists _, _|].
  apply Forall_cons in HF as [[Hx (Hc & Hn & He)] HF]. cbn [fst snd] in *. cbn [delta_entries].
  pose proof (GetAccount_found m a) as Hf. pose proof (GetAccount_keeps m a) as Hk.
  destruct (GetAccount m a) as [old m1]; cbn [fst snd] in *. subst old.
  destruct (IH m1) as (protos & m' & -> & HF'); [by rewrite Hk|by rewrite Hk|].
  unfold AccountDeltaToProtobuf. fold (original (view m) a).
  assert (isContract x = false) as -> by (rewrite He; exact Hc). destruct (sm_sub _ _ _ _) as [[] d]; cbn [negb].
  all: eexists _, _; split; [reflexivity|]; by constructor.
Qed.

Lemma list_to_map_cons_union a x entries V : a ∉ entries.*1 ->
  (list_to_map entries : gmap Z Account) ∪ <[a := x]> V = list_to_map ((a, x) :: entries) ∪ V.
Proof.
  intros Ha. cbn. rewrite <- insert_union_l. symmetry. apply insert_union_r. by apply not_elem_of_list_to_map_1.
Qed.

Lemma apply_entries_plain P entries protos st rev temp :
  Forall2 (entry_for P) entries protos -> Forall (fun pe => pa_code pe.2 = None) protos -> NoDup entries.*1 ->
  accounts_ok P -> Forall (fun e => view (as_main st) !! e.1 = P !! e.1) entries ->
  Forall (fun e => is_address e.1 /\ temp_account e.2 /\ payment P e.1 e.2) entries ->
  exists st', apply_entries ACCOUNT_VERSION MAX_CODE_SIZE_IN_BYTES st protos rev temp = Ret (true, st') /\
    view (as_main st') = list_to_map entries ∪ view (as_main st).
Proof.
  intros HF. revert st. induction HF as [|[a x] [bs p] entries protos [Hbs Hp] HF IH]; intros st Hcode Hnd HP Hagree Hpay.
  { exists st. split; [done|]. symmetry. apply map_empty_union. }
  cbn [fst snd fmap list_fmap] in *. apply NoDup_cons in Hnd as [Hna Hnd]. apply Forall_cons in Hcode as [Hc Hcode].
  apply Forall_cons in Hagree as [Ha Hagree]. apply Forall_cons in Hpay as [(Haddr & [Hx _] & (Hplain & Hnon & Heq)) Hpay].
  cbn [fst snd] in *. subst bs. cbn [apply_entries].
  destruct (apply_entry_prepares st (address_bytes a, p) rev temp) as (m & Hm & ->). cbn [fst snd] in *.
  rewrite entry_address_bytes in * by done. unfold original in *. rewrite Ha in *. fold (original P a) in *.
  assert (account_ok (original P a) /\ m_balance (original P a) = balance_at P a /\ m_nonce (original P a) = nonce_at P a /\
    old_nonce (P !! a) = nonce_at P a) as (Ho & Hob & Hon & Hold).
  { unfold original, balance_at, nonce_at, old_nonce. destruct (P !! a) as [z|] eqn:Ez; [by eauto|].
    split; [split; cbn; lia|done]. }
  destruct (Z.leb_spec (old_nonce (P !! a)) (m_nonce x)); [|lia]. destruct Hp as [Hp _].
  erewrite (ProtobufToAccountDelta_plain _ _ _ _ _ _ _ _ _ _ _ _ Ho Hp); [|destruct Ho, Hx; lia..|done|done].
  cbn [negb mbind outcome_bind]. rewrite Hob, Hon.
  replace (balance_at P a + (m_balance x - balance_at P a)) with (m_balance x) by lia.
  replace (nonce_at P a + (m_nonce x - nonce_at P a)) with (m_nonce x) by lia. rewrite <- Heq.
  match goal with |- context [AddAccountDuringDeserialization ?s _ _ _ ?f _] => set (st1 := s); set (full := f) end.
  destruct (IH (AddAccountDuringDeserialization st1 a x (original P a) full rev)) as (st' & E & Hv); [done..| |done|].
  - rewrite AddAccountDuringDeserialization_view. change (as_main st1) with m. rewrite Hm, insert_insert_eq.
    apply Forall_forall. intros e He. rewrite Forall_forall in Hagree. rewrite lookup_insert_ne; [by apply Hagree|].
    intros ->. apply Hna. by apply list_elem_of_fmap_2.
  - exists st'. split; [exact E|]. rewrite Hv, AddAccountDuringDeserialization_view. change (as_main st1) with m.
    rewrite Hm, insert_insert_eq. by apply list_to_map_cons_union.
Qed.

(** C30: The payments of an epoch reach every node.  When the executed transactions
    changed balances and nonces of accounts without code only, serializing the delta
    succeeds, every node whose permanent accounts are those of the shard accepts it,
    and its permanent accounts then are exactly the executed ones. *)
Theorem payment_delta_delivered st1 st2 rev :
  epoch_ok st1 -> view (as_main st2) = view (as_main st1) ->
  map_Forall (payment (view (as_main st1))) (as_own st1) ->
  exists st1' st2', SerializeDelta ACCOUNT_VERSION st1 = Ret (true, st1') /\
    DeserializeDelta ACCOUNT_VERSION MAX_CODE_SIZE_IN_BYTES st2 (m_stateDeltaSerialized st1') 0 rev = Ret (true, st2') /\
    view (as_main st2') = executed st1.
Proof.
  intros Hep Hsame Hpay. pose proof Hep as [Hm Ho].
  assert (forall e, e ∈ ordered_entries (as_own st1) -> as_own st1 !! e.1 = Some e.2) as Hin
    by (intros [a x]; apply elem_of_ordered).
  destruct (delta_entries_plain (as_contracts st1) (as_main st1) (ordered_entries (as_own st1))) as (protos & m & E & Hcode);
    [done|apply Forall_forall; intros e He%Hin; split; [by apply (Ho _ _ He)|by apply Hpay]|].
  assert (exists st1', SerializeDelta ACCOUNT_VERSION st1 = Ret (true, st1') /\
    m_stateDeltaSerialized st1' = store_serialize protos) as (st1' & E1 & Hd).
  { unfold SerializeDelta, SetAccountStoreDelta. rewrite E. cbn [mbind outcome_bind].
    pose proof (proto_write_append (store_serialize protos) []) as Hw. change (zlen []) with 0 in Hw.
    unfold proto_write in *. cbn [snd mbind outcome_bind] in *. eexists. split; [reflexivity|exact Hw]. }
  pose proof (delta_entries_sound _ _ _ _ _ Hm ltac:(apply Forall_forall; intros e He%Hin; by apply (Ho _ _ He)) E) as [_ HF].
  destruct (apply_entries_plain (view (as_main st1)) _ protos st2 rev false HF Hcode) as (st2' & E2 & Hv);
    [apply NoDup_ordered|done|by rewrite Hsame; apply Forall_forall| |].
  { apply Forall_forall. intros e He%Hin. destruct (Ho _ _ He). split; [done|]. split; [done|]. by apply Hpay. }
  exists st1', st2'. split; [done|]. split.
  - unfold DeserializeDelta, GetAccountStoreDelta. rewrite Hd.
    change (drop (Z.to_nat 0) (store_serialize protos)) with (store_serialize protos). by rewrite store_parse_serialize.
  - rewrite Hv, Hsame. unfold executed. f_equal. rewrite <- (list_to_map_to_list (as_own st1)) at 2.
    symmetry. apply list_to_map_proper; [apply NoDup_fst_map_to_list|]. symmetry. apply ordered_entries_perm.
Qed.

(** ** Reverting *)

Lemma revert_changed_view m a x : view (revert_changed a x m) = <[a := x]> (view m).
Proof.
  unfold revert_changed. rewrite (UpdateStateTrie_view _ a x x) by apply lookup_insert_eq.
  symmetry. apply insert_union_l.
Qed.

Lemma revert_created_view m a x : view (revert_created a x m) = delete a (view m).
Proof.
  assert (main_accounts (RemoveAccount m a) = delete a (main_accounts m) /\ m_state (RemoveAccount m a) = m_state m) as [Hm Ht].
  { unfold RemoveAccount, IsAccountExist. cbn. unfold trie_GetAccount. destruct (main_accounts m !! a) as [y|] eqn:E; [done|].
    destruct (decode_account a _) as [y|]; cbn; [by rewrite delete_insert_eq|]. by rewrite delete_id. }
  unfold revert_created. cbn. rewrite Hm, Ht, trie_remove_spec. apply map_eq. intros b.
  rewrite lookup_union, map_lookup_imap. destruct (decide (a = b)) as [<-|Hab].
  - by rewrite !lookup_delete_eq.
  - by rewrite !lookup_delete_ne, lookup_union, map_lookup_imap by done.
Qed.

Lemma revert_all_changed m ch : view (map_fold revert_changed m ch) = ch ∪ view m.
Proof.
  apply (map_fold_weak_ind (fun r u => view r = u ∪ view m)); [by rewrite map_empty_union|].
  intros a x u r Ha IH. by rewrite revert_changed_view, IH, insert_union_l.
Qed.

Lemma revert_all_created m cr : view (map_fold revert_created m cr) = view m ∖ cr.
Proof.
  apply (map_fold_weak_ind (fun r u => view r = view m ∖ u)); [by rewrite map_difference_empty|].
  intros a x u r Ha IH. rewrite revert_created_view, IH. apply delete_difference.
Qed.

(** What the two undo maps say about the accounts [V0] before the commit; [next] are
    the addresses still to come. *)
Record undo_ok V0 (next : list Z) st : Prop := {
  un_changed : forall a x, m_addressToAccountRevChanged st !! a = Some x -> V0 !! a = Some x;
  un_created : forall a, is_Some (m_addressToAccountRevCreated st !! a) -> V0 !! a = None;
  un_same : forall a x, V0 !! a = Some x -> m_addressToAccountRevChanged st !! a = None ->
    view (as_main st) !! a = Some x;
  un_new : forall a x, V0 !! a = None -> m_addressToAccountRevCreated st !! a = None ->
    view (as_main st) !! a = Some x -> x = Account_new ACCOUNT_VERSION 0 0 /\ a ∉ next;
  un_next : forall a, a ∈ next -> m_addressToAccountRevChanged st !! a = None /\ m_addressToAccountRevCreated st !! a = None
}.

Lemma apply_entry_undo V0 st pe next temp ok st' :
  undo_ok V0 (entry_address pe.1 :: next) st -> entry_address pe.1 ∉ next ->
  apply_entry ACCOUNT_VERSION MAX_CODE_SIZE_IN_BYTES st pe true temp = Ret (ok, st') -> undo_ok V0 next st'.
Proof.
  intros [Hc Hn Hs Hw Hx] Hnin E. apply apply_entry_view in E as (y & c & _ & Hv & Hch & Hcr).
  set (a := entry_address pe.1) in *. set (V := view (as_main st)) in *.
  destruct (Hx a) as [Hca Hna]; [by left|].
  assert (V !! a = V0 !! a) as HVa.
  { destruct (V0 !! a) as [z|] eqn:Ez; [by apply Hs|]. destruct (V !! a) as [z|] eqn:Ez'; [|done].
    destruct (Hw _ _ Ez Hna Ez') as [_ Hz]. destruct Hz. by left. }
  assert (forall b z, z = a -> V0 !! b = None -> m_addressToAccountRevCreated st !! b = None -> b <> z ->
    forall x, view (as_main st') !! b = Some x -> x = Account_new ACCOUNT_VERSION 0 0 /\ b ∉ next) as Hnew.
  { intros b z -> Hb Hbc Hne x. rewrite Hv, lookup_insert_ne by done. intros Hbx.
    destruct (Hw b x Hb Hbc Hbx) as [? Hnn]. split; [done|]. set_solver. }
  rewrite HVa in Hch, Hcr. destruct ok; cbn [andb] in Hch, Hcr.
  - destruct (V0 !! a) as [o|] eqn:Eo.
    + rewrite bool_decide_eq_true_2 in Hch by done. rewrite bool_decide_eq_false_2 in Hcr by done.
      assert (original V a = o) as Hor by (unfold original; by rewrite HVa). rewrite Hor in *.
      split; rewrite ?Hch, ?Hcr.
      * intros b x [[<- <-]|[_ Hb]]%lookup_insert_Some; [done|by apply Hc].
      * exact Hn.
      * intros b x Hb [Hbc Hne]%lookup_insert_None. rewrite Hv, lookup_insert_ne by done. by apply Hs.
      * intros b x Hb Hbc. apply (Hnew b a); [done|done|done|congruence].
      * intros b Hb. rewrite lookup_insert_ne by set_solver. apply Hx. by right.
    + rewrite bool_decide_eq_false_2 in Hch by (by intros []). rewrite bool_decide_eq_true_2 in Hcr by done.
      split; rewrite ?Hch, ?Hcr.
      * exact Hc.
      * intros b Hb. destruct (decide (a = b)) as [<-|Hne]; [done|]. rewrite lookup_insert_ne in Hb by done. by apply Hn.
      * intros b x Hb Hbc. rewrite Hv, lookup_insert_ne by congruence. by apply Hs.
      * intros b x Hb [Hbc Hne]%lookup_insert_None. by apply (Hnew b a).
      * intros b Hb. rewrite lookup_insert_ne by set_solver. apply Hx. by right.
  - split; rewrite ?Hch, ?Hcr; [exact Hc|exact Hn| | |].
    + intros b x Hb Hbc. rewrite Hv. destruct (decide (a = b)) as [<-|Hne].
      * rewrite lookup_insert_eq. unfold original. by rewrite HVa, Hb.
      * rewrite lookup_insert_ne by done. by apply Hs.
    + intros b x Hb Hbc Hbx. destruct (decide (b = a)) as [->|Hne]; [|by apply (Hnew b a)].
      rewrite Hv, lookup_insert_eq in Hbx. unfold original in Hbx. rewrite HVa, Hb in Hbx. by injection Hbx as <-.
    + intros b Hb. apply Hx. by right.
Qed.

Lemma apply_entries_undo V0 entries st temp ok st' :
  undo_ok V0 (entry_address <$> entries.*1) st -> NoDup (entry_address <$> entries.*1) ->
  apply_entries ACCOUNT_VERSION MAX_CODE_SIZE_IN_BYTES st entries true temp = Ret (ok, st') ->
  exists next, undo_ok V0 next st'.
Proof.
  revert st. induction entries as [|pe entries IH]; intros st Hu Hnd E; [injection E as <- <-; by eexists|].
  cbn [fmap list_fmap] in *. apply NoDup_cons in Hnd as [Hnin Hnd]. cbn [apply_entries] in E.
  apply bind_Ret in E as ([ok1 st1] & E1 & E). eapply apply_entry_undo in E1; [|done|done].
  destruct ok1; cbn [negb] in E; [by eapply IH|]. injection E as <- <-. by eexists.
Qed.

(** C31: A revertible commit can be undone.  After [CommitTempRevertible], whether the
    delta was accepted as a whole or refused at some entry, [RevertCommitTemp]
    restores every account that existed before; an address that had no account has
    none again, except that an entry which was refused can leave an empty account
    behind. *)
Theorem commit_reverted st entries st' :
  m_stateDeltaSerialized st = store_serialize entries -> NoDup (entry_address <$> entries.*1) ->
  CommitTempRevertible ACCOUNT_VERSION MAX_CODE_SIZE_IN_BYTES st = Ret st' ->
  let V := view (as_main st) in let V' := view (as_main (RevertCommitTemp st')) in
  (forall a x, V !! a = Some x -> V' !! a = Some x) /\
  (forall a, V !! a = None -> V' !! a = None \/ V' !! a = Some (Account_new ACCOUNT_VERSION 0 0)).
Proof.
  intros Hd Hnd E V V'. unfold CommitTempRevertible in E. apply bind_Ret in E as ([ok st1] & E & E').
  injection E' as ->. unfold DeserializeDelta, GetAccountStoreDelta in E.
  change (m_stateDeltaSerialized (as_InitRevertibles st)) with (m_stateDeltaSerialized st) in E. rewrite Hd in E.
  change (drop (Z.to_nat 0) (store_serialize entries)) with (store_serialize entries) in E.
  rewrite store_parse_serialize in E.
  destruct (apply_entries_undo V entries (as_InitRevertibles st) false ok st') as [next [Hc Hn Hs Hw _]]; [|done|done|].
  { split; intros a; change (m_addressToAccountRevChanged (as_InitRevertibles st)) with (∅ : gmap Z Account);
      change (m_addressToAccountRevCreated (as_InitRevertibles st)) with (∅ : gmap Z Account);
      change (as_main (as_InitRevertibles st)) with (as_main st); fold V; rewrite ?lookup_empty.
    - done.
    - by intros [].
    - done.
    - intros x Hb _ Hbx. congruence.
    - done. }
  assert (V' = (m_addressToAccountRevChanged st' ∪ view (as_main st')) ∖ m_addressToAccountRevCreated st') as HV'.
  { unfold V'. change (as_main (RevertCommitTemp st')) with
      (map_fold revert_created (map_fold revert_changed (as_main st') (m_addressToAccountRevChanged st'))
         (m_addressToAccountRevCreated st')). by rewrite revert_all_created, revert_all_changed. }
  rewrite HV'. split.
  - intros a x Ha. apply lookup_difference_Some. split.
    + rewrite lookup_union. destruct (m_addressToAccountRevChanged st' !! a) as [y|] eqn:Ey.
      * apply Hc in Ey as Hy. assert (y = x) as -> by congruence. by destruct (view (as_main st') !! a).
      * rewrite (Hs a x Ha Ey). done.
    + apply eq_None_not_Some. intros Hcr%Hn. congruence.
  - intros a Ha. destruct ((_ ∖ _) !! a) as [x|] eqn:Ex; [right|by left].
    apply lookup_difference_Some in Ex as [Ex Hcr]. rewrite lookup_union in Ex.
    destruct (m_addressToAccountRevChanged st' !! a) as [y|] eqn:Ey; [apply Hc in Ey; congruence|].
    destruct (view (as_main st') !! a) as [z|] eqn:Ez; [|done]. injection Ex as <-.
    by destruct (Hw a z Ha Hcr Ez) as [-> _].
Qed.

End delta.
