(* ===== verification/DeltaExamples.v ===== *)
(** * Deltas executed: a codec of length-prefixed fields, a trie that is a map, and
    the witnesses of the theorems about deltas. *)

From stdpp Require Import base numbers gmap countable list sorting.
From S2P Require Import Prelude Serializable OpenSSL Schnorr LevelDB Json Receipt TxnPool AccountStore ContractStorage ContractAccount AccountStoreSC ContractProperties BlockChain BlockStorage AccountMessages StateDelta DeltaProperties.
Open Scope Z_scope.

Module AccountCodec.
Import StateCodec.

Definition num (z : Z) : bytes := [z].
Definition flag (b : bool) : bytes := [if b then 1 else 0].
Definition unflag (b : bytes) : bool := bool_decide (b = [1]).
Definition split (bs : bytes) : list bytes := parse_fields (length bs) bs.

Lemma split_fields l : split (fields l) = l.
Proof. apply parse_fields_spec, length_fields. Qed.

Definition enc_base (p : ProtoAccountBase) : bytes :=
  fields [field num (pab_version p); field id (pab_balance p); field num (pab_nonce p); field id (pab_codehash p);
          field id (pab_storageroot p)].
Definition dec_base (bs : bytes) : ProtoAccountBase :=
  match split bs with
  | [v; b; n; c; r] => mkProtoAccountBase (unfield (hd 0) v) (unfield id b) (unfield (hd 0) n) (unfield id c) (unfield id r)
  | _ => mkProtoAccountBase None None None None None
  end.

Definition enc_pair (kv : bytes * bytes) : bytes := fields [kv.1; kv.2].
Definition dec_pair (bs : bytes) : bytes * bytes := match split bs with [k; v] => (k, v) | _ => ([], []) end.

Definition enc_account (p : ProtoAccount) : bytes :=
  fields [field enc_base (pa_base p); field id (pa_code p); fields (enc_pair <$> pa_storage p); field flag (pa_numbersign p)].
Definition dec_account (bs : bytes) : ProtoAccount :=
  match split bs with
  | [b; c; s; n] => mkProtoAccount (unfield dec_base b) (unfield id c) (dec_pair <$> split s) (unfield unflag n)
  | _ => mkProtoAccount None None [] None
  end.

Definition enc_entry (e : bytes * ProtoAccount) : bytes := enc_pair (e.1, enc_account e.2).
Definition dec_entry (bs : bytes) : bytes * ProtoAccount := let kv := dec_pair bs in (kv.1, dec_account kv.2).

#[global] Instance codec : AccountProto := {|
  base_serialize := enc_base;
  base_parse := dec_base;
  store_serialize l := fields (enc_entry <$> l);
  store_parse bs := Some (dec_entry <$> split bs)
|}.

Lemma unfield_field {A} (enc : A -> bytes) dec o : (forall x, dec (enc x) = x) -> unfield dec (field enc o) = o.
Proof. intros Hd. destruct o; [|done]. cbn. by rewrite Hd. Qed.

Lemma dec_enc_base p : dec_base (enc_base p) = p.
Proof. unfold dec_base, enc_base. rewrite split_fields. destruct p. by rewrite !unfield_field. Qed.

Lemma dec_enc_pair kv : dec_pair (enc_pair kv) = kv.
Proof. unfold dec_pair, enc_pair. rewrite split_fields. by destruct kv. Qed.

Lemma dec_enc_list {A} (enc : A -> bytes) dec (l : list A) : (forall x, dec (enc x) = x) -> dec <$> (enc <$> l) = l.
Proof. intros Hd. induction l as [|x l IH]; [done|]. cbn in *. by rewrite Hd, IH. Qed.

Lemma dec_enc_account p : dec_account (enc_account p) = p.
Proof.
  unfold dec_account, enc_account. rewrite split_fields. destruct p as [b c s n]. cbn [pa_base pa_code pa_storage pa_numbersign].
  rewrite split_fields, (dec_enc_list enc_pair dec_pair s dec_enc_pair).
  rewrite !unfield_field; [done|by intros []|done|apply dec_enc_base].
Qed.

#[global] Instance codec_spec : AccountProtoSpec.
Proof.
  split; [apply dec_enc_base|done|]. intros l.
  change (Some (dec_entry <$> split (fields (enc_entry <$> l))) = Some l). rewrite split_fields, (dec_enc_list enc_entry dec_entry); [done|].
  intros [k p]. unfold dec_entry, enc_entry. rewrite dec_enc_pair. cbn [fst snd]. by rewrite dec_enc_account.
Qed.

End AccountCodec.

Module MapTrie.

#[global] Instance map_trie : Trie (gmap Z bytes) := {|
  trie_at t a := default [] (t !! a);
  trie_insert t a v := <[a := v]> t;
  trie_remove t a := delete a t;
  trie_root t := Z.of_nat (size t);
  trie_init _ := ∅;
  trie_commit := Some;
  trie_rollback := Some;
  trie_setRoot t _ := Some t
|}.

#[global] Instance map_trie_spec : TrieSpec (gmap Z bytes).
Proof. by refine {| trie_items t := t |}. Defined.

End MapTrie.

Module DeltaSample.
Import Cyclic StateCodec AccountCodec MapTrie ContractSample.

Abbreviation Store := (AccountStore (gmap Z bytes) MapDB.db (list bytes)).

Definition store (own main : gmap Z Account) : Store :=
  mkAccountStore (mkSC (mkAtomic ∅ (mkTemp own (mkMain main ∅ 0))) StorageSample.empty [] 0 0 0 0 0 0 0 false [] 0) [] ∅ ∅.

Lemma view_store own main : view (as_main (store own main)) = main.
Proof.
  change (main ∪ map_imap decode_account (∅ : gmap Z bytes) = main). rewrite map_imap_empty. apply map_union_empty.
Qed.

Lemma store_epoch own main :
  accounts_ok main -> map_Forall (fun a x => is_address a /\ temp_account 1 x) own -> epoch_ok 1 (store own main).
Proof. intros Hm Ho. split; [by rewrite view_store|exact Ho]. Qed.

(** Account 7 paid 100 to the new account 9. *)
Definition before : gmap Z Account := {[7 := mkAccount 1 1000 4 0 0 0 []]}.
Definition paid : gmap Z Account := <[7 := mkAccount 1 900 5 0 0 0 []]> {[9 := mkAccount 1 100 0 0 0 0 []]}.

(** Another shard has already paid 50 to account 9. *)
Definition elsewhere : gmap Z Account := <[7 := mkAccount 1 1000 4 0 0 0 []]> {[9 := mkAccount 1 50 0 0 0 0 []]}.

Ltac by_entry := repeat (apply map_Forall_insert_2; [|try apply map_Forall_singleton]).

Lemma before_ok : accounts_ok before.
Proof. apply map_Forall_singleton. by split. Qed.
Lemma elsewhere_ok : accounts_ok elsewhere.
Proof. by_entry; by split. Qed.
Lemma paid_ok : epoch_ok 1 (store paid before).
Proof. apply store_epoch; [apply before_ok|]. by_entry; repeat split; done. Qed.

Definition delta_of (st : Store) : bytes :=
  match SerializeDelta 1 st with Ret (_, st) => m_stateDeltaSerialized st | Fault _ => [] end.

Definition balances (o : outcome (bool * Store)) : option (bool * list Z) :=
  match o with
  | Ret (ok, st) => Some (ok, (fun a => balance_at (main_accounts (as_main st)) a) <$> [7; 9])
  | Fault _ => None
  end.

Example deltas_add_up :
  balances (DeserializeDelta 1 100 (store ∅ elsewhere) (delta_of (store paid before)) 0 false) = Some (true, [900; 150]).
Proof. vm_compute. reflexivity. Qed.

Lemma paid_in_range a :
  0 <= balance_at elsewhere a + (balance_at (executed (store paid before)) a - balance_at before a) < 2 ^ 128.
Proof.
  unfold executed. rewrite view_store. change (as_own (store paid before)) with paid. rewrite balance_union.
  unfold paid, before, elsewhere, balance_at.
  destruct (decide (7 = a)) as [<-|H7]; [rewrite !lookup_insert_eq, lookup_singleton_eq; cbn; lia|].
  rewrite !(lookup_insert_ne _ 7 a), (lookup_singleton_ne 7 a) by done.
  destruct (decide (9 = a)) as [<-|H9]; [rewrite !lookup_singleton_eq; cbn; lia|].
  rewrite !(lookup_singleton_ne 9 a) by done. lia.
Qed.

Lemma state_delta_merges_witness :
  exists st', DeserializeDelta 1 100 (store ∅ elsewhere) (delta_of (store paid before)) 0 false = Ret (true, st') /\
    balance_at (view (as_main st')) 7 = 900 /\ balance_at (view (as_main st')) 9 = 150 /\
    total (view (as_main st')) = 1050.
Proof.
  destruct (SerializeDelta 1 (store paid before)) as [[ok1 st1]|] eqn:E1; [|by vm_compute in E1].
  assert (delta_of (store paid before) = m_stateDeltaSerialized st1) as Hd by (unfold delta_of; by rewrite E1).
  rewrite Hd.
  destruct (DeserializeDelta 1 100 (store ∅ elsewhere) (m_stateDeltaSerialized st1) 0 false) as [[ok st']|] eqn:E.
  2: { exfalso. rewrite <- Hd in E. vm_compute in E. discriminate E. }
  assert (ok = true) as ->.
  { rewrite <- Hd in E. assert (balances (Ret (ok, st')) = Some (true, [900; 150])) as H
      by (rewrite <- E; vm_compute; reflexivity). by injection H. }
  exists st'. split; [done|].
  pose proof (state_delta_merges 1 100 (store paid before) st1 (store ∅ elsewhere) st' ok1 false paid_ok) as H.
  rewrite !view_store in H. specialize (H elsewhere_ok paid_in_range E1 E). destruct H as (_ & Hb & _ & Ht & _).
  destruct (Hb 7) as [-> _], (Hb 9) as [-> _]. rewrite Ht. unfold executed. rewrite view_store.
  split; [vm_compute; reflexivity|]. split; vm_compute; reflexivity.
Defined.

Lemma paid_payment : map_Forall (payment 1 before) paid.
Proof. by_entry; (split; [done|]; split; [done|reflexivity]). Qed.

Lemma payment_delta_delivered_witness :
  exists st1 st2, SerializeDelta 1 (store paid before) = Ret (true, st1) /\
    DeserializeDelta 1 100 (store ∅ before) (m_stateDeltaSerialized st1) 0 false = Ret (true, st2) /\
    view (as_main st2) = paid ∪ before.
Proof.
  destruct (payment_delta_delivered 1 100 (store paid before) (store ∅ before) false paid_ok) as (st1 & st2 & E1 & E2 & Hv);
    [by rewrite !view_store|by rewrite view_store; apply paid_payment|].
  exists st1, st2. split; [exact E1|]. split; [exact E2|]. rewrite Hv. unfold executed. by rewrite view_store.
Defined.

(** A contract at address 8, which had 100 coins already. *)
Definition funded : gmap Z Account := {[8 := mkAccount 1 100 0 0 0 0 []]}.
Definition created : gmap Z Account := {[8 := mkAccount 1 100 0 17 5 8 [1]]}.

Lemma funded_ok : accounts_ok funded.
Proof. apply map_Forall_singleton. by split. Qed.
Lemma created_ok : epoch_ok 1 (store created funded).
Proof. apply store_epoch; [apply funded_ok|]. apply map_Forall_singleton. by repeat split. Qed.

Lemma created_in_range a :
  0 <= balance_at funded a + (balance_at (executed (store created funded)) a - balance_at funded a) < 2 ^ 128.
Proof.
  unfold executed. rewrite view_store. change (as_own (store created funded)) with created. rewrite balance_union.
  unfold created, funded, balance_at. destruct (decide (8 = a)) as [<-|H8].
  - rewrite !lookup_singleton_eq. cbn. lia.
  - rewrite !(lookup_singleton_ne 8 a) by done. lia.
Qed.

Definition account8 (o : outcome (bool * Store)) : bool * option Account :=
  match o with
  | Ret (ok, st) => (ok, main_accounts (as_main st) !! 8)
  | Fault _ => (false, None)
  end.

Lemma prefunded_contract_lost_witness :
  exists st' v', DeserializeDelta 1 100 (store ∅ funded) (delta_of (store created funded)) 0 false = Ret (true, st') /\
    view (as_main st') !! 8 = Some v' /\ isContract v' = false.
Proof.
  destruct (SerializeDelta 1 (store created funded)) as [[ok1 st1]|] eqn:E1; [|by vm_compute in E1].
  assert (delta_of (store created funded) = m_stateDeltaSerialized st1) as Hd by (unfold delta_of; by rewrite E1).
  rewrite Hd.
  destruct (DeserializeDelta 1 100 (store ∅ funded) (m_stateDeltaSerialized st1) 0 false) as [[ok st']|] eqn:E.
  2: { exfalso. rewrite <- Hd in E. vm_compute in E. discriminate E. }
  assert (account8 (Ret (ok, st')) = (true, Some (mkAccount 1 100 0 0 0 0 []))) as H
    by (rewrite <- E, <- Hd; vm_compute; reflexivity).
  injection H as -> Hacc.
  exists st', (mkAccount 1 100 0 0 0 0 []). split; [done|].
  assert (view (as_main st') !! 8 = Some (mkAccount 1 100 0 0 0 0 [])) as Hv
    by (apply lookup_union_Some_l; exact Hacc).
  split; [exact Hv|].
  pose proof (prefunded_contract_lost 1 100 (store created funded) st1 (store ∅ funded) st' ok1 false 8
    (mkAccount 1 100 0 17 5 8 [1]) (mkAccount 1 100 0 0 0 0 []) (mkAccount 1 100 0 0 0 0 [])
    (mkAccount 1 100 0 0 0 0 []) created_ok) as H.
  rewrite !view_store in H. exact (H funded_ok created_in_range E1 E eq_refl eq_refl eq_refl eq_refl eq_refl Hv).
Defined.

(** The same store commits the delta of its payments and takes it back. *)
Definition committing : Store := as_set_delta (store paid before) (delta_of (store paid before)).

Lemma commit_reverted_witness :
  exists st', CommitTempRevertible 1 100 committing = Ret st' /\
    view (as_main (RevertCommitTemp st')) !! 7 = Some (mkAccount 1 1000 4 0 0 0 []).
Proof.
  destruct (CommitTempRevertible 1 100 committing) as [st'|] eqn:E; [|exfalso; by vm_compute in E].
  exists st'. split; [done|].
  assert (m_stateDeltaSerialized committing = store_serialize (dec_entry <$> split (delta_of (store paid before)))) as Hp
    by (vm_compute; reflexivity).
  assert (NoDup (entry_address <$> (dec_entry <$> split (delta_of (store paid before))).*1)) as Hnd.
  { apply (bool_decide_unpack _). vm_compute. exact I. }
  destruct (commit_reverted 1 100 committing _ st' Hp Hnd E) as [Hsome _].
  apply Hsome. unfold committing. change (as_main (as_set_delta ?s _)) with (as_main s). by rewrite view_store.
Defined.

End DeltaSample.
