(* ===== verification/TxnSelection.v ===== *)
(** * Selecting the transactions of a micro block: libNode/MicroBlockPreProcessing.cpp

    The leader of a shard and its backups each execute pending transactions from
    their pool, in the order of gas price and nonce, until the gas limit of the micro
    block or the time is used up.  What they need of the account store is the class
    [TxnExecutor]; [TxnExecution] provides it.  The flag that the timer thread sets is
    read once per round of the loop; the readings are an argument. *)

From stdpp Require Import base numbers gmap countable list sorting.
From S2P Require Import Prelude Json Receipt TxnPool AccountStore.
Open Scope Z_scope.

(** The account store and the validator, as the selection uses them. *)
Class TxnExecutor (S J PubKey : Type) := {
  exec_nonce : S -> Z -> Z;
  exec_check : S -> Transaction PubKey -> TransactionReceipt J -> outcome (bool * S * TransactionReceipt J);
  exec_increase : S -> Z -> Z -> S
}.

Inductive PoolTxnStatus := NOT_PRESENT | PRESENT_NONCE_HIGH | PRESENT_GAS_EXCEEDED | POOL_ERROR.

Section selection.
Context {PubKey : Type} `{Countable PubKey} {J : Type} `{ReceiptWriter J} `{SafeMath}.
Context {S : Type} `{TxnExecutor S J PubKey}.
Context (GetAddressFromPublicKey : PubKey -> Z) (MICROBLOCK_GAS_LIMIT : Z).
Local Abbreviation Tx := (Transaction PubKey).
Local Abbreviation Pool := (TxnPool PubKey).
Local Abbreviation Receipt := (TransactionReceipt J).

(** [t_addrNonceTxnMap] *)
Local Abbreviation Waiting := (gmap Z (gmap Z Tx)).

(** The members of [Node] that the selection works on. *)
Record NodeTxns := mkNodeTxns {
  m_createdTxns : Pool;
  t_createdTxns : Pool;
  m_unconfirmedTxns : gmap Z PoolTxnStatus;
  m_expectedTranOrdering : list Z;
  m_processedTransactions : gmap Z (gmap Z (Tx * Receipt));
  t_processedTransactions : gmap Z (Tx * Receipt);
  m_TxnOrder : list Z;
  m_gasUsedTotal : Z;    (** [uint64_t] *)
  m_txnFees : Z          (** [uint128_t] *)
}.

(** The variables of the loop: the account store, the members it changes, and its
    locals. *)
Record Selection := mkSelection {
  sel_store : S;
  sel_created : Pool;
  sel_waiting : Waiting;
  sel_exceeded : list Tx;
  sel_processed : gmap Z (Tx * Receipt);
  sel_order : list Z;
  sel_gas : Z;
  sel_fees : Z
}.

Definition sel_set_store sel s : Selection :=
  mkSelection s (sel_created sel) (sel_waiting sel) (sel_exceeded sel) (sel_processed sel) (sel_order sel)
    (sel_gas sel) (sel_fees sel).
Definition sel_set_txns sel created waiting exceeded : Selection :=
  mkSelection (sel_store sel) created waiting exceeded (sel_processed sel) (sel_order sel) (sel_gas sel) (sel_fees sel).
Definition sel_set_totals sel gas fees : Selection :=
  mkSelection (sel_store sel) (sel_created sel) (sel_waiting sel) (sel_exceeded sel) (sel_processed sel)
    (sel_order sel) gas fees.

Definition GetSenderAddr (t : Tx) : Z := GetAddressFromPublicKey (tx_senderPubKey t).

(** The first address, in order, whose waiting transaction with the least nonce is
    the next one of the sender; [begin()] of an empty map must not be dereferenced. *)
Fixpoint find_ready (s : S) (entries : list (Z * gmap Z Tx)) : outcome (option (Z * gmap Z Tx * Z * Tx)) :=
  match entries with
  | [] => Ret None
  | (address, txns) :: entries =>
      match map_begin Z.ltb txns with
      | None => Fault Undefined
      | Some (nonce, t) =>
          if nonce =? exec_nonce s address + 1 then Ret (Some (address, txns, nonce, t)) else find_ready s entries
      end
  end.

Definition findOneFromAddrNonceTxnMap (s : S) (waiting : Waiting) : outcome (option Tx * Waiting) :=
  found ← find_ready s (ordered_entries waiting);
  match found with
  | None => Ret (None, waiting)
  | Some (address, txns, nonce, t) =>
      let txns := delete nonce txns in
      Ret (Some t, if bool_decide (txns = ∅) then delete address waiting else <[address := txns]> waiting)
  end.

(** [appendOne] *)
Definition appendOne sel (t : Tx) (tr : Receipt) : Selection :=
  mkSelection (sel_store sel) (sel_created sel) (sel_waiting sel) (sel_exceeded sel)
    (match sel_processed sel !! m_tranID t with
     | Some _ => sel_processed sel
     | None => <[m_tranID t := (t, tr)]> (sel_processed sel)
     end)
    (sel_order sel ++ [m_tranID t]) (sel_gas sel) (sel_fees sel).

(** After a transaction has been executed: the totals, then the record.  The flag
    tells whether the loop goes on. *)
Definition record_executed sel (t : Tx) (tr : Receipt) : bool * Selection :=
  let '(ok, gas) := sm_add 64 (sel_gas sel) (m_cumGas tr) (sel_gas sel) in
  let sel := sel_set_totals sel gas (sel_fees sel) in
  if negb ok then (false, sel)
  else
    let '(ok, txnFee) := sm_mul 128 (m_cumGas tr) (tx_gasPrice t) 0 in
    if negb ok then (true, sel)
    else
      let '(ok, fees) := sm_add 128 (sel_fees sel) txnFee (sel_fees sel) in
      let sel := sel_set_totals sel (sel_gas sel) fees in
      if negb ok then (false, sel) else (true, appendOne sel t tr).

Definition execute_one sel (t : Tx) : outcome (bool * Selection) :=
  '(ok, s, tr) ← exec_check (sel_store sel) t TransactionReceipt_new;
  let sel := sel_set_store sel s in
  Ret (if ok : bool then record_executed sel t tr else (true, sel)).

(** A transaction whose nonce is not next yet: one per sender and nonce is kept, the
    better paying one. *)
Definition put_waiting (waiting : Waiting) (t : Tx) : Waiting :=
  let address := GetSenderAddr t in
  let txns := default ∅ (waiting !! address) in
  match txns !! tx_nonce t with
  | Some old => if tx_gasPrice t >? tx_gasPrice old then <[address := <[tx_nonce t := t]> txns]> waiting else waiting
  | None => <[address := <[tx_nonce t := t]> txns]> waiting
  end.

(** One round of the loop.  The sum of gas is of type [uint64_t]. *)
Definition select_step sel : outcome (bool * Selection) :=
  '(found, waiting) ← findOneFromAddrNonceTxnMap (sel_store sel) (sel_waiting sel);
  match found with
  | Some t =>
      let '(t, created) := findSameNonceButHigherGas (sel_created sel) t in
      let sel := sel_set_txns sel created waiting (sel_exceeded sel) in
      if u64 (sel_gas sel + tx_gasLimit t) >? MICROBLOCK_GAS_LIMIT then
        Ret (true, sel_set_txns sel created waiting (sel_exceeded sel ++ [t]))
      else execute_one sel t
  | None =>
      match findOne (sel_created sel) with
      | (Some t, created) =>
          let sel := sel_set_txns sel created (sel_waiting sel) (sel_exceeded sel) in
          let next := exec_nonce (sel_store sel) (GetSenderAddr t) + 1 in
          if tx_nonce t >? next then
            Ret (true, sel_set_txns sel created (put_waiting (sel_waiting sel) t) (sel_exceeded sel))
          else if tx_nonce t <? next then Ret (true, sel)
          else execute_one sel t
      | (None, _) => Ret (false, sel)
      end
  end.

(** The loop; [timeout i] is the flag in round [i]. *)
Fixpoint select_loop (fuel : nat) (timeout : nat -> bool) sel : outcome Selection :=
  if negb (sel_gas sel <? MICROBLOCK_GAS_LIMIT) then Ret sel
  else
    match fuel with
    | O => Fault StillDrawing
    | Datatypes.S fuel =>
        if timeout O then Ret sel
        else
          '(more, sel) ← select_step sel;
          if more : bool then select_loop fuel (fun i => timeout (Datatypes.S i)) sel else Ret sel
    end.

(** Back to the pool: the waiting transactions, in the order of addresses and nonces,
    and those that exceeded the gas limit.  [emplace] keeps an entry that is there. *)
Definition reinstate_one (status : PoolTxnStatus) (st : Pool * gmap Z PoolTxnStatus) (t : Tx)
  : Pool * gmap Z PoolTxnStatus :=
  let '(pool, unconfirmed) := st in
  ((pool_insert pool t).2,
   match unconfirmed !! m_tranID t with Some _ => unconfirmed | None => <[m_tranID t := status]> unconfirmed end).

Definition waiting_list (waiting : Waiting) : list Tx :=
  concat ((fun e => (ordered_entries e.2).*2) <$> ordered_entries waiting).

Definition ReinstateMemPool (pool : Pool) (unconfirmed : gmap Z PoolTxnStatus) (waiting : Waiting) (exceeded : list Tx)
  : Pool * gmap Z PoolTxnStatus :=
  foldl (reinstate_one PRESENT_GAS_EXCEEDED)
    (foldl (reinstate_one PRESENT_NONCE_HIGH) (pool, unconfirmed) (waiting_list waiting)) exceeded.

(** Test accounts get one coin each ([ENABLE_ACCOUNTS_POPULATING]). *)
Fixpoint populate_loop (addresses : list Z) (i numShards myshardId epochNum NUM_FINAL_BLOCK_PER_POW : Z) (s : S) : S :=
  match addresses with
  | [] => s
  | a :: addresses =>
      let mine := (i mod (numShards + 1) =? myshardId) &&
                  (i mod NUM_FINAL_BLOCK_PER_POW =? epochNum mod NUM_FINAL_BLOCK_PER_POW) in
      populate_loop addresses (i + 1) numShards myshardId epochNum NUM_FINAL_BLOCK_PER_POW
        (if mine then exec_increase s a 1 else s)
  end.

(** The configuration and the test accounts ([m_populatedAddresses]). *)
Record Populating := mkPopulating {
  ENABLE_ACCOUNTS_POPULATING : bool;
  m_populatedAddresses : list Z;
  pop_numShards : Z;
  pop_myshardId : Z;
  pop_epochNum : Z;
  NUM_FINAL_BLOCK_PER_POW : Z
}.

Definition UpdateBalanceForPreGeneratedAccounts (c : Populating) (s : S) : S :=
  populate_loop (m_populatedAddresses c) 0 (pop_numShards c) (pop_myshardId c) (pop_epochNum c)
    (NUM_FINAL_BLOCK_PER_POW c) s.

Definition populate (c : Populating) (s : S) : S :=
  if ENABLE_ACCOUNTS_POPULATING c then UpdateBalanceForPreGeneratedAccounts c s else s.

(** The start of both handlers: the pool is copied, the locals are empty. *)
Definition selection_start (c : Populating) (s : S) (n : NodeTxns) (order : list Z) : Selection :=
  mkSelection (populate c s) (m_createdTxns n) ∅ [] ∅ order 0 0.

Definition selection_end sel (n : NodeTxns) (expected order : list Z) : S * NodeTxns :=
  let '(pool, unconfirmed) :=
    ReinstateMemPool (sel_created sel) (m_unconfirmedTxns n) (sel_waiting sel) (sel_exceeded sel) in
  (sel_store sel,
   mkNodeTxns (m_createdTxns n) pool unconfirmed expected (m_processedTransactions n) (sel_processed sel) order
     (sel_gas sel) (sel_fees sel)).

Definition ProcessTransactionWhenShardLeader (fuel : nat) (timeout : nat -> bool) (c : Populating) (s : S)
    (n : NodeTxns) : outcome (S * NodeTxns) :=
  sel ← select_loop fuel timeout (selection_start c s n []);
  Ret (selection_end sel n (m_expectedTranOrdering n) (sel_order sel)).

Definition ProcessTransactionWhenShardBackup (fuel : nat) (timeout : nat -> bool) (c : Populating) (s : S)
    (n : NodeTxns) : outcome (S * NodeTxns) :=
  sel ← select_loop fuel timeout (selection_start c s n []);
  Ret (selection_end sel n (sel_order sel) (m_TxnOrder n)).

Definition UpdateProcessedTransactions (epochNum : Z) (n : NodeTxns) : NodeTxns :=
  mkNodeTxns (t_createdTxns n) pool_clear (m_unconfirmedTxns n) (m_expectedTranOrdering n)
    (<[epochNum := t_processedTransactions n]> (m_processedTransactions n)) ∅ (m_TxnOrder n)
    (m_gasUsedTotal n) (m_txnFees n).

(** [locked]: whether the lock was obtained in time. *)
Definition IsTxnInMemPool (n : NodeTxns) (txhash : Z) (locked : bool) : PoolTxnStatus :=
  if negb locked then POOL_ERROR else default NOT_PRESENT (m_unconfirmedTxns n !! txhash).

End selection.

Arguments NodeTxns PubKey {_ _} J.
Arguments Selection PubKey {_ _} J S.
Arguments mkSelection {_ _ _ _ _}.
Arguments mkNodeTxns {_ _ _ _}.
