(* ===== verification/SelectionProperties.v ===== *)
(** * What the selection of transactions guarantees

    An abstract selection executes, refuses or drops pending transactions one by one;
    the loop of the leader and the backups refines it.  The order of nonces, the
    totals and what becomes of every pending transaction are proved on the abstract
    selection. *)

From stdpp Require Import base numbers gmap countable list sorting.
From S2P Require Import Prelude Json Receipt TxnPool AccountStore TxnSelection.
Open Scope Z_scope.

(** ** Lists without duplicates *)

Lemma NoDup_fmap_inj {A B} (f : A -> B) l x y : NoDup (f <$> l) -> x ∈ l -> y ∈ l -> f x = f y -> x = y.
Proof.
  intros Hd (i & Hx)%list_elem_of_lookup (j & Hy)%list_elem_of_lookup Heq.
  assert (i = j) as -> by (eapply NoDup_lookup; [exact Hd|by rewrite list_lookup_fmap, Hx|by rewrite list_lookup_fmap, Hy, Heq]).
  congruence.
Qed.

Lemma size_list_to_map {A} (l : list (Z * A)) : NoDup l.*1 -> size (list_to_map l : gmap Z A) = length l.
Proof. intros Hd. by rewrite <- length_map_to_list, map_to_list_to_map. Qed.

(** ** Pools and waiting transactions as lists *)

Section lists.
Context {PubKey : Type} `{Countable PubKey} (GetAddressFromPublicKey : PubKey -> Z).
Local Abbreviation Tx := (Transaction PubKey).
Local Abbreviation GetSenderAddr := (GetSenderAddr GetAddressFromPublicKey).
Implicit Types (t : Tx) (p : TxnPool PubKey) (waiting : gmap Z (gmap Z Tx)).

Definition pending p : list Tx := (map_to_list (HashIndex p)).*2.

Lemma elem_of_pending p t : consistent p -> t ∈ pending p <-> HashIndex p !! m_tranID t = Some t.
Proof.
  intros Hc. unfold pending. rewrite list_elem_of_fmap. split.
  - intros ([h t'] & -> & Hh%elem_of_map_to_list). by destruct (con_hash _ Hc _ _ Hh) as [<- _].
  - intros Ht. exists (m_tranID t, t). split; [done|]. by apply elem_of_map_to_list.
Qed.

Lemma pending_ids p : consistent p -> NoDup (m_tranID <$> pending p).
Proof.
  intros Hc. replace (m_tranID <$> pending p) with ((map_to_list (HashIndex p)).*1); [apply NoDup_fst_map_to_list|].
  unfold pending. rewrite <- list_fmap_compose. apply list_fmap_ext. intros i [h t] Hl.
  apply list_elem_of_lookup_2, elem_of_map_to_list in Hl. by destruct (con_hash _ Hc _ _ Hl) as [<- _].
Qed.

Lemma pending_keys p : consistent p -> NoDup (nonce_key <$> pending p).
Proof.
  intros Hc. apply NoDup_fmap_2_strong; [|eapply NoDup_fmap_1; by apply pending_ids].
  intros t t' Ht Ht' Hk. apply elem_of_pending in Ht, Ht'; try done.
  apply (con_hash _ Hc) in Ht as [_ Ht], Ht' as [_ Ht']. congruence.
Qed.

Lemma delete_perm p t g n :
  HashIndex p !! m_tranID t = Some t ->
  pending p ≡ₚ t :: pending (mkPool (delete (m_tranID t) (HashIndex p)) g n).
Proof.
  intros Ht. unfold pending. cbn [HashIndex].
  change (t :: ?l) with (((m_tranID t, t).2) :: l). rewrite <- fmap_cons. apply fmap_Permutation.
  symmetry. by apply map_to_list_delete.
Qed.

Lemma pending_findOne p t p' :
  consistent p -> findOne p = (Some t, p') -> consistent p' /\ pending p ≡ₚ t :: pending p'.
Proof.
  intros Hc E. pose proof (findOne_cases p Hc) as Hf. rewrite E in Hf. destruct Hf as (Hid & _ & _ & Hc').
  split; [done|]. unfold findOne in E. destruct (map_begin _ _) as [[price bucket]|]; [|done].
  destruct (map_begin _ _) as [[id t']|]; [|done]. injection E as -> <-. by apply delete_perm.
Qed.

Lemma pending_insert p t :
  consistent p -> m_tranID t ∉ m_tranID <$> pending p -> nonce_key t ∉ nonce_key <$> pending p ->
  consistent (pool_insert p t).2 /\ pending (pool_insert p t).2 ≡ₚ t :: pending p.
Proof.
  intros Hc Hid Hkey. split; [by apply consistent_insert|].
  assert (HashIndex p !! m_tranID t = None) as Hi.
  { apply eq_None_not_Some. intros [t' Ht']. apply Hid. destruct (con_hash _ Hc _ _ Ht') as [Heq _].
    rewrite <- Heq in *. apply list_elem_of_fmap. exists t'. split; [done|]. by apply elem_of_pending. }
  rewrite insert_new; [|done|].
  - unfold pending. cbn [HashIndex snd]. by rewrite map_to_list_insert.
  - apply eq_None_not_Some. intros [t' Ht']. apply Hkey. destruct (con_nonce _ Hc _ _ Ht') as [-> Ht].
    apply list_elem_of_fmap. exists t'. split; [done|]. by apply elem_of_pending.
Qed.

(** A waiting map is filed by address and nonce, without empty entries. *)
Definition filed waiting : Prop :=
  map_Forall (fun a txns => txns <> ∅ /\ map_Forall (fun n t => GetSenderAddr t = a /\ tx_nonce t = n) txns) waiting.

Definition flat waiting : list Tx := concat ((fun e => (map_to_list e.2).*2) <$> map_to_list waiting).

Lemma flat_empty : flat ∅ = [].
Proof. unfold flat. by rewrite map_to_list_empty. Qed.

Lemma waiting_list_flat waiting : waiting_list waiting ≡ₚ flat waiting.
Proof.
  unfold waiting_list, flat.
  assert (forall l k : list (Z * gmap Z Tx), l ≡ₚ k ->
    concat ((fun e => (ordered_entries e.2).*2) <$> l) ≡ₚ concat ((fun e => (map_to_list e.2).*2) <$> k)) as Hp.
  { induction 1 as [|e l k _ IH|e1 e2 l|l k j _ IH1 _ IH2]; cbn.
    - done.
    - by rewrite IH, ordered_entries_perm.
    - rewrite !ordered_entries_perm, !app_assoc. apply Permutation_app; [apply Permutation_app_comm|].
      induction l as [|e l IH]; cbn; [done|]. by rewrite ordered_entries_perm, IH.
    - rewrite IH1. rewrite <- IH2. clear. induction k as [|e k IH]; cbn; [done|]. by rewrite ordered_entries_perm, IH. }
  apply Hp, ordered_entries_perm.
Qed.

Lemma flat_insert waiting a txns :
  waiting !! a = None -> flat (<[a := txns]> waiting) ≡ₚ (map_to_list txns).*2 ++ flat waiting.
Proof.
  intros Ha. unfold flat.
  assert (forall l k : list (Z * gmap Z Tx), l ≡ₚ k ->
    concat ((fun e => (map_to_list e.2).*2) <$> l) ≡ₚ concat ((fun e => (map_to_list e.2).*2) <$> k)) as Hp
    by (intros l k Hlk; by rewrite Hlk).
  rewrite (Hp _ _ (map_to_list_insert waiting a txns Ha)). done.
Qed.

Lemma flat_delete waiting a txns :
  waiting !! a = Some txns -> flat waiting ≡ₚ (map_to_list txns).*2 ++ flat (delete a waiting).
Proof.
  intros Ha. rewrite <- (insert_delete_id waiting a txns Ha) at 1. apply flat_insert, lookup_delete_eq.
Qed.

Lemma elem_of_flat waiting a txns n t : waiting !! a = Some txns -> txns !! n = Some t -> t ∈ flat waiting.
Proof.
  intros Ha Hn. rewrite (flat_delete _ _ _ Ha), elem_of_app. left. apply list_elem_of_fmap.
  exists (n, t). split; [done|]. by apply elem_of_map_to_list.
Qed.

Lemma put_waiting_new waiting t :
  filed waiting -> (forall t', t' ∈ flat waiting -> GetSenderAddr t' = GetSenderAddr t -> tx_nonce t' <> tx_nonce t) ->
  filed (put_waiting GetAddressFromPublicKey waiting t) /\
  flat (put_waiting GetAddressFromPublicKey waiting t) ≡ₚ t :: flat waiting.
Proof.
  intros Hf Hnew. unfold put_waiting. fold (GetSenderAddr t).
  set (a := GetSenderAddr t) in *. set (txns := default ∅ (waiting !! a)).
  assert (map_Forall (fun n t => GetSenderAddr t = a /\ tx_nonce t = n) txns) as Htx.
  { unfold txns. destruct (waiting !! a) as [x|] eqn:Ea; [by destruct (Hf _ _ Ea)|apply map_Forall_empty]. }
  assert (txns !! tx_nonce t = None) as Hn.
  { apply eq_None_not_Some. intros [t' Ht']. destruct (Htx _ _ Ht') as [Hs Hk]. apply (Hnew t'); [|done|done].
    unfold txns in Ht'. destruct (waiting !! a) as [x|] eqn:Ea; [by eapply elem_of_flat|].
    cbn [default] in Ht'. by rewrite lookup_empty in Ht'. }
  rewrite Hn. split.
  - apply map_Forall_insert_2; [|done]. split; [apply insert_non_empty|]. by apply map_Forall_insert_2.
  - unfold txns in *. destruct (waiting !! a) as [x|] eqn:Ea; cbn [default] in *.
    + rewrite <- insert_delete_eq, flat_insert by apply lookup_delete_eq. rewrite (flat_delete _ _ _ Ea).
      rewrite map_to_list_insert by done. done.
    + rewrite flat_insert by done. rewrite map_to_list_insert, map_to_list_empty by done. done.
Qed.

Section ready.
Context {J S : Type} `{TxnExecutor S J PubKey}.

Lemma find_ready_spec (s : S) (entries : list (Z * gmap Z Tx)) :
  Forall (fun e => e.2 <> ∅) entries ->
  match find_ready s entries with
  | Fault _ => False
  | Ret None => True
  | Ret (Some (a, txns, n, t)) => (a, txns) ∈ entries /\ txns !! n = Some t /\ n = exec_nonce s a + 1
  end.
Proof.
  induction 1 as [|[a txns] entries Hne _ IH]; [done|]. cbn [find_ready] in *. pose proof (map_begin_min txns) as Hm.
  destruct (map_begin Z.ltb txns) as [[n t]|]; [|done]. destruct Hm as [Ht _].
  destruct (Z.eqb_spec n (exec_nonce s a + 1)) as [->|].
  - split; [by left|]. by split.
  - destruct (find_ready s entries) as [[[[[a' txns'] n'] t']|]|]; [|done|done]. destruct IH as (? & ? & ?).
    split; [by right|]. by split.
Qed.

Lemma findOneFrom_spec (s : S) waiting :
  filed waiting ->
  match findOneFromAddrNonceTxnMap s waiting with
  | Fault _ => False
  | Ret (None, waiting') => waiting' = waiting
  | Ret (Some t, waiting') =>
      filed waiting' /\ flat waiting ≡ₚ t :: flat waiting' /\ tx_nonce t = exec_nonce s (GetSenderAddr t) + 1
  end.
Proof.
  intros Hf. unfold findOneFromAddrNonceTxnMap. pose proof (find_ready_spec s (ordered_entries waiting)) as Hr.
  destruct (find_ready s (ordered_entries waiting)) as [[[[[a txns] n] t]|]|]; cbn.
  - destruct Hr as (Hin & Ht & ->).
    { apply Forall_forall. intros [a' x'] He%elem_of_ordered. by destruct (Hf _ _ He). }
    apply elem_of_ordered in Hin. destruct (Hf _ _ Hin) as [Hne Hall]. destruct (Hall _ _ Ht) as [Hs Hn].
    rewrite (flat_delete _ _ _ Hin), <- (map_to_list_delete _ _ _ Ht). cbn. rewrite Hs. case_bool_decide as He.
    + split; [by apply map_Forall_delete|]. split; [|done]. by rewrite He, map_to_list_empty.
    + split; [apply map_Forall_insert_2; [split; [done|by apply map_Forall_delete]|done]|]. split; [|done].
      rewrite <- insert_delete_eq, flat_insert by apply lookup_delete_eq. done.
  - done.
  - apply Hr. apply Forall_forall. intros [a' x'] He%elem_of_ordered. by destruct (Hf _ _ He).
Qed.

End ready.

End lists.

(** ** What the selection relies on *)

(** The promise of the account store: a transaction that is applied raises the nonce
    of its sender and costs at most its gas limit, and no nonce ever falls, except at
    addresses of new contracts. *)
Class TxnExecutorSpec (S J PubKey : Type) `{TxnExecutor S J PubKey} (GetAddressFromPublicKey : PubKey -> Z) := {
  exec_ok : S -> Prop;
  contract_address : Z -> Prop;
  exec_check_ok s t r ok s' r' : exec_ok s -> tx_ok t -> exec_check s t r = Ret (ok, s', r') -> exec_ok s';
  exec_nonce_grows s t r ok s' r' a : exec_ok s -> tx_ok t -> exec_check s t r = Ret (ok, s', r') ->
    ~ contract_address a -> exec_nonce s a <= exec_nonce s' a;
  exec_sender s t r s' r' : exec_ok s -> tx_ok t -> exec_check s t r = Ret (true, s', r') ->
    ~ contract_address (GetSenderAddr GetAddressFromPublicKey t) ->
    exec_nonce s (GetSenderAddr GetAddressFromPublicKey t) < exec_nonce s' (GetSenderAddr GetAddressFromPublicKey t);
  exec_gas s t r s' r' : exec_ok s -> tx_ok t -> exec_check s t r = Ret (true, s', r') ->
    0 <= m_cumGas r' <= tx_gasLimit t;
  exec_increase_ok s a d : exec_ok s -> 0 <= d < 2 ^ 128 -> exec_ok (exec_increase s a d);
  exec_increase_nonce s a d b : exec_ok s -> 0 <= d < 2 ^ 128 -> exec_nonce (exec_increase s a d) b = exec_nonce s b
}.

(** ** The abstract selection *)

Section abstract.
Context {PubKey : Type} `{Countable PubKey} {J : Type} `{ReceiptWriter J}.
Context {S : Type} `{TxnExecutor S J PubKey}.
Context (GetAddressFromPublicKey : PubKey -> Z) (MICROBLOCK_GAS_LIMIT : Z).
Local Abbreviation Tx := (Transaction PubKey).
Local Abbreviation GetSenderAddr := (GetSenderAddr GetAddressFromPublicKey).

Record AbsSelection := mkAbs {
  abs_store : S;
  abs_pending : list Tx;
  abs_executed : list (Tx * TransactionReceipt J)
}.

Definition gas_used (executed : list (Tx * TransactionReceipt J)) : Z := sum_of (fun e => m_cumGas e.2) executed.
Definition fees_of (executed : list (Tx * TransactionReceipt J)) : Z :=
  sum_of (fun e => m_cumGas e.2 * tx_gasPrice e.1) executed.

(** One pending transaction is executed, refused by the validator, or dropped because
    its nonce has been used. *)
Inductive abs_step : AbsSelection -> AbsSelection -> Prop :=
  | abs_execute s pend ex t rest s' tr :
      pend ≡ₚ t :: rest -> tx_nonce t = exec_nonce s (GetSenderAddr t) + 1 -> gas_used ex < MICROBLOCK_GAS_LIMIT ->
      exec_check s t TransactionReceipt_new = Ret (true, s', tr) ->
      abs_step (mkAbs s pend ex) (mkAbs s' rest (ex ++ [(t, tr)]))
  | abs_refuse s pend ex t rest s' tr :
      pend ≡ₚ t :: rest -> tx_nonce t = exec_nonce s (GetSenderAddr t) + 1 ->
      exec_check s t TransactionReceipt_new = Ret (false, s', tr) ->
      abs_step (mkAbs s pend ex) (mkAbs s' rest ex)
  | abs_stale s pend ex t rest :
      pend ≡ₚ t :: rest -> tx_nonce t <= exec_nonce s (GetSenderAddr t) ->
      abs_step (mkAbs s pend ex) (mkAbs s rest ex).

Context `{!TxnExecutorSpec S J PubKey GetAddressFromPublicKey}.

(** What holds all along, from a store [s0] and pending transactions [txns]. *)
Record abs_inv (s0 : S) (txns : list Tx) (a : AbsSelection) : Prop := {
  ai_ok : exec_ok (abs_store a);
  ai_all : exists dropped, txns ≡ₚ abs_pending a ++ (abs_executed a).*1 ++ dropped;
  ai_gas : Forall (fun e => 0 <= m_cumGas e.2 <= tx_gasLimit e.1) (abs_executed a);
  ai_start : forall b, ~ contract_address b -> exec_nonce s0 b <= exec_nonce (abs_store a) b;
  ai_used : Forall (fun e => ~ contract_address (GetSenderAddr e.1) ->
    exec_nonce s0 (GetSenderAddr e.1) < tx_nonce e.1 <= exec_nonce (abs_store a) (GetSenderAddr e.1)) (abs_executed a);
  ai_order : forall i j e e', (i < j)%nat -> abs_executed a !! i = Some e -> abs_executed a !! j = Some e' ->
    GetSenderAddr e.1 = GetSenderAddr e'.1 -> ~ contract_address (GetSenderAddr e.1) -> tx_nonce e.1 < tx_nonce e'.1;
  ai_limit : abs_executed a = [] \/
    exists ex e, abs_executed a = ex ++ [e] /\ gas_used ex < MICROBLOCK_GAS_LIMIT
}.

Lemma abs_inv_start s0 txns : exec_ok s0 -> abs_inv s0 txns (mkAbs s0 txns []).
Proof.
  intros Hok. split; cbn; [done| |apply Forall_nil_2|done|apply Forall_nil_2|by intros i j e e' _ Hi|by left].
  exists []. by rewrite app_nil_r.
Qed.

Lemma abs_inv_step s0 txns a a' : Forall tx_ok txns -> abs_step a a' -> abs_inv s0 txns a -> abs_inv s0 txns a'.
Proof.
  intros Htx Hst Hinv. destruct Hinv as [Hok [dropped Hall] Hgas Hstart Hused Hord Hlim].
  assert (forall t rest, abs_pending a ≡ₚ t :: rest -> tx_ok t) as Ht.
  { intros t rest Hp. rewrite Forall_forall in Htx. apply Htx. rewrite Hall, Hp. set_solver. }
  destruct Hst as [s pend ex t rest s' tr Hp Hn Hg E|s pend ex t rest s' tr Hp Hn E|s pend ex t rest Hp Hn];
    cbn [abs_store abs_pending abs_executed] in *; specialize (Ht _ _ Hp).
  - assert (forall b, ~ contract_address b -> exec_nonce s b <= exec_nonce s' b) as Hgr
      by (intros b Hb; by eapply exec_nonce_grows).
    split; cbn [abs_store abs_pending abs_executed].
    + by eapply exec_check_ok.
    + exists dropped. rewrite Hall, Hp, fmap_app. cbn. solve_Permutation.
    + apply Forall_app. split; [done|]. apply Forall_singleton. by eapply exec_gas.
    + intros b Hb. etrans; [by apply Hstart|by apply Hgr].
    + apply Forall_app. split.
      * eapply Forall_impl; [exact Hused|]. intros e He Hc. specialize (He Hc). split; [lia|]. etrans; [apply He|by apply Hgr].
      * apply Forall_singleton. cbn. intros Hc. pose proof (Hstart _ Hc). pose proof (exec_sender _ _ _ _ _ Hok Ht E Hc). lia.
    + intros i j e e' Hij Hi Hj Hs Hc. apply lookup_snoc_Some in Hj as [[Hlt Hj]|[-> <-]].
      * rewrite lookup_app_l in Hi by lia. exact (Hord i j e e' Hij Hi Hj Hs Hc).
      * rewrite lookup_app_l in Hi by lia. cbn [fst] in *. rewrite Forall_lookup in Hused.
        pose proof (Hused _ _ Hi Hc) as Hu. rewrite Hs in Hu. lia.
    + right. eauto.
  - assert (forall b, ~ contract_address b -> exec_nonce s b <= exec_nonce s' b) as Hgr
      by (intros b Hb; by eapply exec_nonce_grows).
    split; cbn [abs_store abs_pending abs_executed]; [by eapply exec_check_ok| |done| | |done|done].
    + exists (t :: dropped). rewrite Hall, Hp. solve_Permutation.
    + intros b Hb. etrans; [by apply Hstart|by apply Hgr].
    + eapply Forall_impl; [exact Hused|]. intros e He Hc. specialize (He Hc). split; [lia|]. etrans; [apply He|by apply Hgr].
  - split; cbn [abs_store abs_pending abs_executed]; [done| |done..].
    exists (t :: dropped). rewrite Hall, Hp. solve_Permutation.
Qed.

Lemma abs_inv_steps s0 txns a a' : Forall tx_ok txns -> rtc abs_step a a' -> abs_inv s0 txns a -> abs_inv s0 txns a'.
Proof. intros Htx. induction 1 as [|a b c Hs _ IH]; [done|]. intros Ha. by eapply IH, abs_inv_step. Qed.

End abstract.

Arguments AbsSelection PubKey J S : clear implicits.
Arguments mkAbs {_ _ _}.

(** ** The loop refines the abstract selection *)

Section refinement.
Context {PubKey : Type} `{Countable PubKey} {J : Type} `{ReceiptWriter J} `{Hsm : SafeMathSpec}.
Context {S : Type} `{TxnExecutor S J PubKey}.
Context (GetAddressFromPublicKey : PubKey -> Z) (MICROBLOCK_GAS_LIMIT : Z).
Context {Hspec : TxnExecutorSpec S J PubKey GetAddressFromPublicKey}.
Local Abbreviation Tx := (Transaction PubKey).
Local Abbreviation GetSenderAddr := (GetSenderAddr GetAddressFromPublicKey).
Local Abbreviation abs_step := (abs_step GetAddressFromPublicKey MICROBLOCK_GAS_LIMIT).
Implicit Types (t : Tx) (p : TxnPool PubKey) (sel : Selection PubKey J S) (a : AbsSelection PubKey J S).
Implicit Types tr : TransactionReceipt J.

(** A pool to select from: the amounts fit their types, also added up, and different
    keys have different addresses. *)
Record pool_ok p : Prop := {
  po_consistent : consistent p;
  po_types : Forall tx_ok (pending p);
  po_senders : forall t t', t ∈ pending p -> t' ∈ pending p -> GetSenderAddr t = GetSenderAddr t' ->
    tx_senderPubKey t = tx_senderPubKey t';
  po_gas : sum_of tx_gasLimit (pending p) < 2 ^ 64;
  po_fees : sum_of (fun t => tx_gasLimit t * tx_gasPrice t) (pending p) < 2 ^ 128
}.

(** The sender and the nonce of a transaction. *)
Definition slot t : Z * Z := (GetSenderAddr t, tx_nonce t).

Lemma pool_slots p : pool_ok p -> NoDup (slot <$> pending p).
Proof.
  intros [Hc _ Hs _ _]. pose proof (pending_keys p Hc) as Hk.
  apply NoDup_fmap_2_strong; [|by eapply NoDup_fmap_1]. intros t t' Ht Ht' [= Ha Hn].
  apply (NoDup_fmap_inj _ _ _ _ Hk Ht Ht'). unfold nonce_key. f_equal; [by apply Hs|done].
Qed.

(** The state of the loop while the transactions [extra] are in hand. *)
Record selects (extra : list Tx) sel a : Prop := {
  r_store : abs_store a = sel_store sel;
  r_pending : abs_pending a ≡ₚ extra ++ pending (sel_created sel) ++ flat (sel_waiting sel) ++ sel_exceeded sel;
  r_pool : consistent (sel_created sel);
  r_filed : filed GetAddressFromPublicKey (sel_waiting sel);
  r_order : sel_order sel = (fun e => m_tranID e.1) <$> abs_executed a;
  r_processed : sel_processed sel = list_to_map ((fun e => (m_tranID e.1, e)) <$> abs_executed a);
  r_gas : sel_gas sel = gas_used (abs_executed a);
  r_fees : sel_fees sel = fees_of (abs_executed a)
}.

Section run.
Context (p0 : TxnPool PubKey) (s0 : S) (Hp0 : pool_ok p0).
Local Abbreviation inv := (abs_inv GetAddressFromPublicKey MICROBLOCK_GAS_LIMIT s0 (pending p0)).

(** The totals stay in range when one more transaction is executed. *)
Lemma totals_fit a t rest tr :
  inv a -> abs_pending a ≡ₚ t :: rest -> 0 <= m_cumGas tr <= tx_gasLimit t ->
  0 <= gas_used (abs_executed a) /\ gas_used (abs_executed a) + m_cumGas tr < 2 ^ 64 /\
  0 <= fees_of (abs_executed a) /\ fees_of (abs_executed a) + m_cumGas tr * tx_gasPrice t < 2 ^ 128 /\
  0 <= m_cumGas tr * tx_gasPrice t.
Proof.
  intros [_ [dropped Hall] Hgas _ _ _ _] Hp Htr. destruct Hp0 as [_ Hty _ H64 H128].
  assert (pending p0 ≡ₚ t :: (abs_executed a).*1 ++ rest ++ dropped) as Hall' by (rewrite Hall, Hp; solve_Permutation).
  rewrite Hall' in Hty, H64, H128. apply Forall_cons in Hty as [[_ Hpr _] Hty]. apply Forall_app in Hty as [Hex Hrest].
  rewrite sum_cons, !sum_app, sum_map in H64, H128.
  assert (Forall (fun t => 0 <= tx_gasLimit t /\ 0 <= tx_gasLimit t * tx_gasPrice t) (rest ++ dropped)) as Hr.
  { eapply Forall_impl; [exact Hrest|]. intros t' [_ Hp' Hl']. nia. }
  apply Forall_app in Hr as [Hr1 Hr2]. apply Forall_and in Hr1 as [Hr1 Hr1'], Hr2 as [Hr2 Hr2'].
  apply sum_nonneg in Hr1, Hr1', Hr2, Hr2'. rewrite Forall_fmap in Hex. pose proof (proj2 (Forall_and _ _) (conj Hgas Hex)) as Hboth.
  assert (0 <= gas_used (abs_executed a) <= sum_of (fun e => tx_gasLimit e.1) (abs_executed a)) as Hg.
  { split; [apply sum_nonneg|apply sum_le]; (eapply Forall_impl; [exact Hgas|]); intros e He; cbn in He; lia. }
  assert (0 <= fees_of (abs_executed a) <= sum_of (fun e => tx_gasLimit e.1 * tx_gasPrice e.1) (abs_executed a)) as Hf.
  { split; [apply sum_nonneg|apply sum_le]; (eapply Forall_impl; [exact Hboth|]); intros e [He [_ Hpe _]]; nia. }
  nia.
Qed.

(** Executing a transaction that is in hand. *)
Lemma record_executed_fits extra sel a t rest s' tr :
  inv a -> selects (t :: extra) sel a -> abs_pending a ≡ₚ t :: rest -> 0 <= m_cumGas tr <= tx_gasLimit t ->
  exists sel', record_executed (sel_set_store sel s') t tr = (true, sel') /\
    selects extra sel' (mkAbs s' (extra ++ pending (sel_created sel) ++ flat (sel_waiting sel) ++ sel_exceeded sel)
                          (abs_executed a ++ [(t, tr)])) /\
    sel_created sel' = sel_created sel /\ sel_waiting sel' = sel_waiting sel.
Proof.
  intros Hinv [Hst Hpe Hc Hf Ho Hpr Hg Hfe] Hp Htr.
  destruct (totals_fit a t rest tr Hinv Hp Htr) as (Hg0 & Hg64 & Hf0 & Hf128 & Hfee).
  assert (0 <= tx_gasPrice t < 2 ^ 128) as Hprice.
  { destruct Hp0 as [_ Hty _ _ _], Hinv as [_ [d Hall] _ _ _ _ _]. rewrite Hall, Hp in Hty.
    apply Forall_inv in Hty as [_ Hty _]. done. }
  unfold record_executed. cbn [sel_set_store sel_gas sel_fees].
  rewrite Hg, sm_add_spec by lia. destruct (Z.ltb_spec (gas_used (abs_executed a) + m_cumGas tr) (2 ^ 64)); [|lia].
  cbn [negb]. rewrite sm_mul_spec by lia. destruct (Z.ltb_spec (m_cumGas tr * tx_gasPrice t) (2 ^ 128)); [|lia].
  cbn [negb sel_set_totals sel_fees sel_gas]. rewrite Hfe, sm_add_spec by lia.
  destruct (Z.ltb_spec (fees_of (abs_executed a) + m_cumGas tr * tx_gasPrice t) (2 ^ 128)); [|lia]. cbn [negb].
  eexists. split; [done|]. split; [|done].
  split; cbn [abs_store abs_pending abs_executed appendOne sel_set_totals sel_set_store sel_store sel_created sel_waiting
    sel_exceeded sel_processed sel_order sel_gas sel_fees]; try done.
  - by rewrite Ho, fmap_app.
  - rewrite Hpr, fmap_app. cbn [fmap list_fmap].
    assert (m_tranID t ∉ ((fun e => (m_tranID e.1, e)) <$> abs_executed a).*1) as Hnew.
    { destruct Hinv as [_ [d Hall] _ _ _ _ _]. pose proof (pending_ids _ (po_consistent _ Hp0)) as Hnd.
      rewrite Hall, Hp in Hnd. cbn in Hnd. apply NoDup_cons in Hnd as [Hn _]. rewrite <- list_fmap_compose.
      intros Hin. apply Hn. rewrite fmap_app, elem_of_app. right. rewrite fmap_app, elem_of_app. left.
      by rewrite <- list_fmap_compose. }
    rewrite not_elem_of_list_to_map_1 by done. symmetry. by apply list_to_map_snoc.
  - unfold gas_used. rewrite sum_app. cbn. lia.
  - unfold fees_of. rewrite sum_app. cbn. lia.
Qed.

(** The rounds of the loop, seen from the abstract selection, and the measure that
    falls with every round. *)
Definition rounds_left sel : nat := 2 * length (pending (sel_created sel)) + length (flat (sel_waiting sel)).

Definition executor_fault (f : fault) : Prop :=
  exists s t, t ∈ pending p0 /\ exec_check s t TransactionReceipt_new = Fault f.

Definition round_ok sel a (r : outcome (bool * Selection PubKey J S)) : Prop :=
  match r with
  | Fault f => executor_fault f
  | Ret (more, sel') =>
      exists a', rtc abs_step a a' /\ selects [] sel' a' /\ (more = true -> (rounds_left sel' < rounds_left sel)%nat)
  end.

Lemma execute_one_sim sel0 sel a t rest :
  inv a -> selects [t] sel a -> abs_pending a ≡ₚ t :: rest -> tx_nonce t = exec_nonce (sel_store sel) (GetSenderAddr t) + 1 ->
  sel_gas sel < MICROBLOCK_GAS_LIMIT -> (rounds_left sel < rounds_left sel0)%nat ->
  round_ok sel0 a (execute_one sel t).
Proof.
  intros Hinv Hsel Hp Hn Hg Hm. unfold execute_one.
  assert (t ∈ pending p0) as Hin by (destruct Hinv as [_ [d Hall] _ _ _ _ _]; rewrite Hall, Hp; set_solver).
  assert (tx_ok t) as Ht by (by eapply (proj1 (Forall_forall _ _)); [apply Hp0|]).
  pose proof (ai_ok _ _ _ _ _ Hinv) as Hok. pose proof Hsel as [Hst Hpe Hc Hf Ho Hpr Hgas Hfe]. rewrite Hst in Hok.
  destruct (exec_check (sel_store sel) t TransactionReceipt_new) as [[[ok s'] tr]|f] eqn:E; cbn [mbind outcome_bind].
  2: { by exists (sel_store sel), t. }
  destruct a as [s pend ex]. cbn [abs_store abs_pending abs_executed] in *. subst s. destruct ok.
  - destruct (record_executed_fits [] sel (mkAbs (sel_store sel) pend ex) t rest s' tr) as (sel' & -> & Hsel' & Hc' & Hw');
      [done|done|done|by eapply exec_gas|].
    eexists. split; [|split; [exact Hsel'|intros _; unfold rounds_left in *; by rewrite Hc', Hw']].
    apply rtc_once. eapply abs_execute; [exact Hpe|done|cbn [abs_executed]; by rewrite <- Hgas|done].
  - exists (mkAbs s' ([] ++ pending (sel_created sel) ++ flat (sel_waiting sel) ++ sel_exceeded sel) ex).
    split; [apply rtc_once; by eapply abs_refuse|]. split; [|done]. by split.
Qed.

Lemma inv_NoDup {B} (f : Tx -> B) a : inv a -> NoDup (f <$> pending p0) -> NoDup (f <$> abs_pending a).
Proof. intros [_ [d Hall] _ _ _ _ _]. rewrite Hall, fmap_app, NoDup_app. tauto. Qed.

(** No better offer for the same sender and nonce can be in the pool. *)
Lemma findSame_none pool t :
  consistent pool -> nonce_key t ∉ nonce_key <$> pending pool -> findSameNonceButHigherGas pool t = (t, pool).
Proof.
  intros Hc Hn. unfold findSameNonceButHigherGas. destruct (NonceIndex pool !! nonce_key t) as [f|] eqn:E; [|done].
  exfalso. apply Hn. destruct (con_nonce _ Hc _ _ E) as [-> Hf]. apply list_elem_of_fmap. exists f.
  split; [done|]. by apply elem_of_pending.
Qed.

Lemma select_step_sim sel a :
  inv a -> selects [] sel a -> sel_gas sel < MICROBLOCK_GAS_LIMIT ->
  round_ok sel a (select_step GetAddressFromPublicKey MICROBLOCK_GAS_LIMIT sel).
Proof.
  intros Hinv Hsel Hg. pose proof Hsel as [Hst Hpe Hc Hf Ho Hpr Hgas Hfe]. unfold select_step.
  pose proof (findOneFrom_spec GetAddressFromPublicKey (sel_store sel) (sel_waiting sel) Hf) as Hw.
  destruct (findOneFromAddrNonceTxnMap (sel_store sel) (sel_waiting sel)) as [[[t|] waiting]|]; [| |done];
    cbn [mbind outcome_bind].
  - destruct Hw as (Hf' & Hfl & Hn).
    assert (abs_pending a ≡ₚ t :: pending (sel_created sel) ++ flat waiting ++ sel_exceeded sel) as Hp
      by (rewrite Hpe, Hfl; cbn; solve_Permutation).
    rewrite findSame_none; [|done|].
    2: { pose proof (inv_NoDup nonce_key a Hinv (pending_keys _ (po_consistent _ Hp0))) as Hnd. rewrite Hp in Hnd.
         rewrite fmap_cons, NoDup_cons, fmap_app in Hnd. intros Hin. apply Hnd, elem_of_app. by left. }
    set (sel1 := sel_set_txns sel (sel_created sel) waiting (sel_exceeded sel)).
    assert (rounds_left sel1 < rounds_left sel)%nat as Hm by (unfold rounds_left; cbn; rewrite Hfl; cbn; lia).
    destruct (_ >? _).
    + exists a. split; [apply rtc_refl|]. split; [|done]. split; try done. cbn. rewrite Hp. solve_Permutation.
    + eapply (execute_one_sim sel sel1); [done| |exact Hp|done..]. by split.
  - clear Hw. destruct (findOne (sel_created sel)) as [[t|] created] eqn:E.
    2: { exists a. split; [apply rtc_refl|]. by split. }
    apply pending_findOne in E as [Hc' Hcr]; [|done].
    assert (abs_pending a ≡ₚ t :: pending created ++ flat (sel_waiting sel) ++ sel_exceeded sel) as Hp
      by (rewrite Hpe, Hcr; cbn; solve_Permutation).
    set (sel1 := sel_set_txns sel created (sel_waiting sel) (sel_exceeded sel)).
    assert (rounds_left sel1 < rounds_left sel)%nat as Hm by (unfold rounds_left; cbn; rewrite Hcr; cbn; lia).
    change (sel_store sel1) with (sel_store sel). destruct (Z.gtb_spec (tx_nonce t) (exec_nonce (sel_store sel) (GetSenderAddr t) + 1)).
    + destruct (put_waiting_new GetAddressFromPublicKey (sel_waiting sel) t) as [Hf' Hfl]; [done| |].
      { intros t' Ht' Hs Hn'. pose proof (inv_NoDup slot a Hinv (pool_slots _ Hp0)) as Hnd.
        rewrite Hp, fmap_cons, NoDup_cons in Hnd. destruct Hnd as [Hnd _]. apply Hnd, list_elem_of_fmap. exists t'.
        split; [unfold slot; congruence|]. set_solver. }
      exists a. split; [apply rtc_refl|]. split.
      * split; try done. cbn. rewrite Hp, Hfl. solve_Permutation.
      * intros _. unfold rounds_left. cbn. rewrite Hcr, Hfl. cbn. lia.
    + destruct (Z.ltb_spec (tx_nonce t) (exec_nonce (sel_store sel) (GetSenderAddr t) + 1)).
      * exists (mkAbs (sel_store sel) (pending created ++ flat (sel_waiting sel) ++ sel_exceeded sel) (abs_executed a)).
        destruct a as [s pend ex]. cbn in Hst. subst s. split; [apply rtc_once; eapply abs_stale; [exact Hp|lia]|].
        split; [|done]. by split.
      * eapply (execute_one_sim sel sel1); [done| |exact Hp|cbn; lia|done..]. by split.
Qed.

Lemma select_loop_sim fuel timeout sel a :
  inv a -> selects [] sel a -> (rounds_left sel < fuel)%nat ->
  match select_loop GetAddressFromPublicKey MICROBLOCK_GAS_LIMIT fuel timeout sel with
  | Fault f => executor_fault f
  | Ret sel' => exists a', rtc abs_step a a' /\ selects [] sel' a'
  end.
Proof.
  revert timeout sel a. induction fuel as [|fuel IH]; intros timeout sel a Hinv Hsel Hm; [lia|]. cbn [select_loop].
  destruct (Z.ltb_spec (sel_gas sel) MICROBLOCK_GAS_LIMIT) as [Hg|]; cbn [negb]; [|by exists a].
  destruct (timeout O); [by exists a|]. pose proof (select_step_sim sel a Hinv Hsel Hg) as Hr.
  destruct (select_step _ _ sel) as [[more sel']|f]; [|done]. destruct Hr as (a' & Hst & Hsel' & Hm').
  cbn [mbind outcome_bind]. destruct more; [|by exists a'].
  specialize (IH (fun i => timeout (Datatypes.S i)) sel' a'). destruct (select_loop _ _ fuel _ sel') as [sel2|f].
  - destruct IH as (a2 & Hst2 & Hsel2); [eapply abs_inv_steps; [apply Hp0|done|done]|done|specialize (Hm' eq_refl); lia|].
    exists a2. split; [by etrans|done].
  - apply IH; [eapply abs_inv_steps; [apply Hp0|done|done]|done|specialize (Hm' eq_refl); lia].
Qed.

End run.

(** ** Back to the pool *)

Lemma reinstate_list status (l : list Tx) (pool : TxnPool PubKey) unconfirmed :
  consistent pool -> NoDup (m_tranID <$> pending pool ++ l) -> NoDup (nonce_key <$> pending pool ++ l) ->
  let r := foldl (reinstate_one status) (pool, unconfirmed) l in
  consistent r.1 /\ pending r.1 ≡ₚ pending pool ++ l.
Proof.
  revert pool unconfirmed. induction l as [|t l IH]; intros pool unc Hc Hid Hkey; cbn [foldl].
  { split; [done|]. by rewrite app_nil_r. }
  assert (pending pool ++ t :: l ≡ₚ t :: pending pool ++ l) as Hp by solve_Permutation.
  pose proof Hid as Hid'. pose proof Hkey as Hkey'. rewrite Hp, fmap_cons, NoDup_cons, fmap_app in Hid'.
  rewrite Hp, fmap_cons, NoDup_cons, fmap_app in Hkey'.
  destruct (pending_insert pool t) as [Hc' Hp']; [done|intros Hin; apply Hid', elem_of_app; by left|
    intros Hin; apply Hkey', elem_of_app; by left|]. cbn [reinstate_one].
  assert (pending (pool_insert pool t).2 ++ l ≡ₚ pending pool ++ t :: l) as Hpl by (rewrite Hp'; solve_Permutation).
  destruct (IH (pool_insert pool t).2 (match unc !! m_tranID t with Some _ => unc | None => <[m_tranID t := status]> unc end))
    as [Hc2 Hp2]; [done|by rewrite Hpl|by rewrite Hpl|]. split; [done|]. by rewrite Hp2.
Qed.

Lemma ReinstateMemPool_spec (pool : TxnPool PubKey) unconfirmed waiting exceeded :
  let all := pending pool ++ flat waiting ++ exceeded in
  consistent pool -> NoDup (m_tranID <$> all) -> NoDup (nonce_key <$> all) ->
  let r := ReinstateMemPool pool unconfirmed waiting exceeded in
  consistent r.1 /\ pending r.1 ≡ₚ all.
Proof.
  intros all Hc Hid Hkey r. unfold r, ReinstateMemPool.
  assert (all ≡ₚ (pending pool ++ waiting_list waiting) ++ exceeded) as Hall
    by (unfold all; rewrite (waiting_list_flat waiting); solve_Permutation).
  rewrite Hall in Hid, Hkey. pose proof Hid as Hid1. pose proof Hkey as Hkey1.
  rewrite fmap_app, NoDup_app in Hid1. rewrite fmap_app, NoDup_app in Hkey1. destruct Hid1 as [Hid1 _], Hkey1 as [Hkey1 _].
  pose proof (reinstate_list PRESENT_NONCE_HIGH (waiting_list waiting) pool unconfirmed Hc Hid1 Hkey1) as [Hc1 Hp1].
  destruct (foldl (reinstate_one PRESENT_NONCE_HIGH) (pool, unconfirmed) (waiting_list waiting)) as [pool1 unc1].
  cbn [fst] in Hc1, Hp1. rewrite <- Hp1 in Hid, Hkey.
  destruct (reinstate_list PRESENT_GAS_EXCEEDED exceeded pool1 unc1 Hc1 Hid Hkey) as [Hc2 Hp2].
  split; [done|]. rewrite Hp2, Hp1. by rewrite Hall.
Qed.

(** ** The handlers *)

(** One coin more for test accounts changes no nonce. *)
Lemma populate_loop_keeps addresses i numShards shard epoch per (s : S) :
  exec_ok s -> let s' := populate_loop addresses i numShards shard epoch per s in
  exec_ok s' /\ forall b, exec_nonce s' b = exec_nonce s b.
Proof.
  revert i s. induction addresses as [|x l IH]; intros i s Hok; [done|]. cbn [populate_loop].
  set (s1 := if andb _ _ then _ else s). assert (exec_ok s1 /\ forall b, exec_nonce s1 b = exec_nonce s b) as [Hs1 Hn].
  { unfold s1. destruct (_ && _); [|done]. split; [by apply exec_increase_ok|]. intros b. by apply exec_increase_nonce. }
  destruct (IH (i + 1) s1 Hs1) as [Hs2 Hn2]. split; [done|]. intros b. by rewrite Hn2.
Qed.

Lemma populate_keeps c (s : S) : exec_ok s -> exec_ok (populate c s) /\ forall b, exec_nonce (populate c s) b = exec_nonce s b.
Proof. intros Hok. unfold populate. destruct (ENABLE_ACCOUNTS_POPULATING c); [by apply populate_loop_keeps|done]. Qed.

(** What a handler leaves behind when the abstract selection ended with [rest]
    pending and [ex] executed. *)
Record selected (n' : NodeTxns PubKey J) (order : list Z) (rest : list Tx) (ex : list (Tx * TransactionReceipt J)) : Prop := {
  se_pool : consistent (t_createdTxns n');
  se_rest : rest ≡ₚ pending (t_createdTxns n');
  se_order : order = (fun e => m_tranID e.1) <$> ex;
  se_processed : t_processedTransactions n' = list_to_map ((fun e => (m_tranID e.1, e)) <$> ex);
  se_gas : m_gasUsedTotal n' = gas_used ex;
  se_fees : m_txnFees n' = fees_of ex
}.

Lemma selects_start c s n :
  pool_ok (m_createdTxns n) ->
  selects [] (selection_start c s n []) (mkAbs (populate c s) (pending (m_createdTxns n)) []).
Proof.
  intros Hp. split; cbn; first [done|apply Hp|apply map_Forall_empty|idtac].
  by rewrite flat_empty, !app_nil_r.
Qed.

Lemma selection_run fuel timeout c s n :
  pool_ok (m_createdTxns n) -> exec_ok s -> (2 * length (pending (m_createdTxns n)) < fuel)%nat ->
  match select_loop GetAddressFromPublicKey MICROBLOCK_GAS_LIMIT fuel timeout (selection_start c s n []) with
  | Fault f => executor_fault (m_createdTxns n) f
  | Ret sel =>
      exists rest ex, rtc abs_step (mkAbs (populate c s) (pending (m_createdTxns n)) []) (mkAbs (sel_store sel) rest ex) /\
        forall expected order, selected (selection_end sel n expected order).2 (sel_order sel) rest ex
  end.
Proof.
  intros Hp Hok Hfuel. destruct (populate_keeps c s Hok) as [Hok0 _].
  set (a0 := mkAbs (populate c s) (pending (m_createdTxns n)) ([] : list (Tx * TransactionReceipt J))).
  assert (abs_inv GetAddressFromPublicKey MICROBLOCK_GAS_LIMIT (populate c s) (pending (m_createdTxns n)) a0) as Hi
    by (by apply abs_inv_start).
  pose proof (select_loop_sim (m_createdTxns n) (populate c s) Hp fuel timeout (selection_start c s n []) a0 Hi
    (selects_start c s n Hp)) as Hr.
  destruct (select_loop _ _ _ _ _) as [sel|f].
  - destruct Hr as (a & Hst & Hsel).
    { unfold rounds_left. cbn. rewrite flat_empty. cbn. lia. }
    pose proof Hsel as [Hs Hpe Hc Hf Ho Hpr Hg Hfe]. destruct a as [s' rest ex]. cbn in Hs, Ho, Hpr, Hg, Hfe. subst s'.
    eapply abs_inv_steps in Hi; [|apply Hp|exact Hst]. exists rest, ex. split; [done|]. intros expected order.
    cbn [abs_pending app] in Hpe.
    pose proof (inv_NoDup _ _ m_tranID _ Hi (pending_ids _ (po_consistent _ Hp))) as Hid.
    pose proof (inv_NoDup _ _ nonce_key _ Hi (pending_keys _ (po_consistent _ Hp))) as Hk.
    cbn [abs_pending] in Hid, Hk. rewrite Hpe in Hid, Hk.
    pose proof (ReinstateMemPool_spec (sel_created sel) (m_unconfirmedTxns n) (sel_waiting sel) (sel_exceeded sel) Hc Hid Hk) as Hre.
    unfold selection_end. destruct (ReinstateMemPool _ _ _ _) as [pool unc]. destruct Hre as [Hc' Hp'].
    split; cbn [fst snd t_createdTxns t_processedTransactions m_gasUsedTotal m_txnFees] in *; try done.
    by rewrite Hpe, Hp'.
  - apply Hr. unfold rounds_left. cbn. rewrite flat_empty. cbn. lia.
Qed.

(** What the abstract selection guarantees of a handler that returned. *)
Lemma selection_inv fuel timeout c s n sel :
  pool_ok (m_createdTxns n) -> exec_ok s -> (2 * length (pending (m_createdTxns n)) < fuel)%nat ->
  select_loop GetAddressFromPublicKey MICROBLOCK_GAS_LIMIT fuel timeout (selection_start c s n []) = Ret sel ->
  exists rest ex,
    abs_inv GetAddressFromPublicKey MICROBLOCK_GAS_LIMIT (populate c s) (pending (m_createdTxns n)) (mkAbs (sel_store sel) rest ex) /\
    forall expected order, selected (selection_end sel n expected order).2 (sel_order sel) rest ex.
Proof.
  intros Hp Hok Hfuel E. pose proof (selection_run fuel timeout c s n Hp Hok Hfuel) as Hr. rewrite E in Hr.
  destruct Hr as (rest & ex & Hst & Hse). exists rest, ex. split; [|done].
  eapply abs_inv_steps; [apply Hp|exact Hst|]. apply abs_inv_start. by apply populate_keeps.
Qed.

(** C13: The selection of transactions refines the abstract selection.  With fuel for
    two rounds per pending transaction the loop of the leader ends, whatever the timer
    does, unless executing a transaction itself fails with an exception.  What it did
    is a sequence of steps each of which executes a pending transaction whose nonce
    is the next one of its sender while the gas limit is not used up, has one refused
    by the validator, or drops one whose nonce is already used.  All other pending
    transactions are in the pool afterwards; the order, the processed transactions and
    the totals of gas and fees are those of the executed transactions. *)
Theorem selection_refines fuel timeout c s n :
  pool_ok (m_createdTxns n) -> exec_ok s -> (2 * length (pending (m_createdTxns n)) < fuel)%nat ->
  match ProcessTransactionWhenShardLeader GetAddressFromPublicKey MICROBLOCK_GAS_LIMIT fuel timeout c s n with
  | Fault f => executor_fault (m_createdTxns n) f
  | Ret (s', n') =>
      exists rest ex, rtc abs_step (mkAbs (populate c s) (pending (m_createdTxns n)) []) (mkAbs s' rest ex) /\
        selected n' (m_TxnOrder n') rest ex
  end.
Proof.
  intros Hp Hok Hfuel. unfold ProcessTransactionWhenShardLeader. pose proof (selection_run fuel timeout c s n Hp Hok Hfuel) as Hr.
  destruct (select_loop _ _ _ _ _) as [sel|f]; cbn [mbind outcome_bind]; [|done].
  destruct Hr as (rest & ex & Hst & Hse). specialize (Hse (m_expectedTranOrdering n) (sel_order sel)).
  unfold selection_end in *. destruct (ReinstateMemPool _ _ _ _) as [pool unc]. eauto.
Qed.

(** No transaction is replayed.  If no sender's address is that of a contract, the
    executed transactions are distinct, were pending and are no longer in the pool;
    each has a nonce above the one its sender had at the beginning and at most the one
    it has at the end; and of two transactions of one sender the earlier one has the
    smaller nonce. *)
Theorem selection_nonce_order fuel timeout c s n s' n' :
  pool_ok (m_createdTxns n) -> exec_ok s -> (2 * length (pending (m_createdTxns n)) < fuel)%nat ->
  (forall t, t ∈ pending (m_createdTxns n) -> ~ contract_address (GetSenderAddr t)) ->
  ProcessTransactionWhenShardLeader GetAddressFromPublicKey MICROBLOCK_GAS_LIMIT fuel timeout c s n = Ret (s', n') ->
  exists txns : list Tx, m_TxnOrder n' = m_tranID <$> txns /\ NoDup (m_TxnOrder n') /\
    size (t_processedTransactions n') = length (m_TxnOrder n') /\
    (forall t, t ∈ txns -> t ∈ pending (m_createdTxns n) /\ t ∉ pending (t_createdTxns n') /\
       exec_nonce s (GetSenderAddr t) < tx_nonce t <= exec_nonce s' (GetSenderAddr t)) /\
    (forall i j t t', (i < j)%nat -> txns !! i = Some t -> txns !! j = Some t' -> GetSenderAddr t = GetSenderAddr t' ->
       tx_nonce t < tx_nonce t').
Proof.
  intros Hp Hok Hfuel Hsend E. unfold ProcessTransactionWhenShardLeader in E. apply bind_Ret in E as (sel & E & Hend).
  destruct (selection_inv fuel timeout c s n sel Hp Hok Hfuel E) as (rest & ex & Hinv & Hse).
  specialize (Hse (m_expectedTranOrdering n) (sel_order sel)). destruct (populate_keeps c s Hok) as [_ Hpop].
  assert (sel_store sel = s' /\ m_TxnOrder n' = sel_order sel /\ (selection_end sel n (m_expectedTranOrdering n) (sel_order sel)).2 = n')
    as (Hs & Ho & Hn). { unfold selection_end in *. destruct (ReinstateMemPool _ _ _ _). by injection Hend as <- <-. }
  rewrite Hn in Hse. destruct Hse as [_ Hrest Hord Hproc _ _]. destruct Hinv as [_ [dropped Hall] _ _ Hused Hsort _].
  cbn [abs_store abs_pending abs_executed] in *. subst s'. rewrite Ho, Hord. exists ex.*1.
  pose proof (pending_ids _ (po_consistent _ Hp)) as Hid. rewrite Hall, !fmap_app in Hid. apply NoDup_app in Hid as (_ & Hdis & Hid).
  apply NoDup_app in Hid as (Hid & _). rewrite <- list_fmap_compose in Hid.
  split; [by rewrite <- list_fmap_compose|]. split; [done|]. split.
  { rewrite Hproc, size_list_to_map, length_fmap, length_fmap; [done|]. by rewrite <- list_fmap_compose. }
  assert (forall t, t ∈ ex.*1 -> t ∈ pending (m_createdTxns n)) as Hin by (intros t Ht; rewrite Hall; set_solver).
  split.
  - intros t Ht. split; [by apply Hin|]. split.
    + rewrite <- Hrest. intros Hr. apply (Hdis (m_tranID t)); [apply list_elem_of_fmap; by exists t|].
      apply elem_of_app. left. apply list_elem_of_fmap. by exists t.
    + pose proof (Hsend t (Hin t Ht)) as Hc. apply list_elem_of_fmap in Ht as (e & -> & He). rewrite <- Hpop.
      rewrite Forall_forall in Hused. by apply Hused.
  - intros i j t t' Hij Hi Hj Hs. apply list_lookup_fmap_Some in Hi as (e & -> & Hi), Hj as (e' & -> & Hj).
    eapply (Hsort i j); [done|done|done|done|]. apply Hsend, Hin, list_elem_of_fmap. exists e. split; [done|].
    by eapply list_elem_of_lookup_2.
Qed.

(** The gas of a micro block.  The total that the leader reports is the sum of the
    gas of the executed transactions and stays below the limit plus the gas limit of
    one transaction; the last transaction is not checked against the limit when it
    comes from the pool, so the limit itself can be exceeded. *)
Theorem selection_gas_bound fuel timeout c s n s' n' most :
  pool_ok (m_createdTxns n) -> exec_ok s -> (2 * length (pending (m_createdTxns n)) < fuel)%nat ->
  0 < MICROBLOCK_GAS_LIMIT -> (forall t, t ∈ pending (m_createdTxns n) -> tx_gasLimit t <= most) -> 0 <= most ->
  ProcessTransactionWhenShardLeader GetAddressFromPublicKey MICROBLOCK_GAS_LIMIT fuel timeout c s n = Ret (s', n') ->
  m_gasUsedTotal n' = sum_of (fun e => m_cumGas e.2.2) (map_to_list (t_processedTransactions n')) /\
  0 <= m_gasUsedTotal n' < MICROBLOCK_GAS_LIMIT + most.
Proof.
  intros Hp Hok Hfuel Hlim Hmost Hm0 E. unfold ProcessTransactionWhenShardLeader in E. apply bind_Ret in E as (sel & E & Hend).
  destruct (selection_inv fuel timeout c s n sel Hp Hok Hfuel E) as (rest & ex & Hinv & Hse).
  specialize (Hse (m_expectedTranOrdering n) (sel_order sel)).
  assert ((selection_end sel n (m_expectedTranOrdering n) (sel_order sel)).2 = n') as Hn
    by (unfold selection_end in *; destruct (ReinstateMemPool _ _ _ _); by injection Hend as <- <-).
  rewrite Hn in Hse. destruct Hse as [_ _ _ Hproc Hgas _]. destruct Hinv as [_ [dropped Hall] Hg _ _ _ Hlast].
  cbn [abs_store abs_pending abs_executed] in *. rewrite Hgas, Hproc. split.
  - pose proof (pending_ids _ (po_consistent _ Hp)) as Hid. rewrite Hall, !fmap_app in Hid. apply NoDup_app in Hid as (_ & _ & Hid).
    apply NoDup_app in Hid as (Hid & _). rewrite map_to_list_to_map by (rewrite <- list_fmap_compose; rewrite <- list_fmap_compose in Hid; exact Hid).
    by rewrite sum_map.
  - split; [apply sum_nonneg; eapply Forall_impl; [exact Hg|]; intros e He; cbn in He; lia|].
    destruct Hlast as [->|(ex' & e & -> & Hlt)]; [cbn; lia|]. unfold gas_used in *. rewrite sum_app, sum_cons.
    change (sum_of _ []) with 0. apply Forall_app in Hg as [_ Hg]. apply Forall_inv in Hg.
    assert (e.1 ∈ pending (m_createdTxns n)) as Hin by (rewrite Hall, fmap_app; set_solver).
    specialize (Hmost _ Hin). lia.
Qed.
End refinement.
