(* ===== verification/ExecutionProperties.v ===== *)
(** * Every kind of transaction raises the nonce of its sender

    For payments, contract creations and contract calls, and for every behaviour of
    the interpreter: balances and nonces stay within their types, no nonce falls except
    at the address of a new contract, and a transaction that is applied raises the
    nonce of its sender and reports at most its gas limit. *)

From stdpp Require Import base numbers gmap list.
From S2P Require Import Prelude OpenSSL TxnPool LevelDB Json Receipt AccountStore ContractStorage ContractAccount AccountStoreSC ContractProperties.
Open Scope Z_scope.

(** ** Growing stores *)

Section growing.
Context `{Hsm : SafeMathSpec} {S : Type} `{Hstore : AccountMapSpec S} (ACCOUNT_VERSION : Z) (new : Z -> Prop).
Implicit Types s : S.

Definition good s : Prop := accounts_ok (view s) /\ accounts_ok (hidden s).

(** From [s] to [s'] types are kept and no nonce falls, except where [new]. *)
Record grown s s' : Prop := {
  gr_ok : accounts_ok (view s');
  gr_hidden : hidden s' = hidden s;
  gr_nonce : forall a, ~ new a -> nonce_at (view s) a <= nonce_at (view s') a;
  gr_some : forall a, ~ new a -> is_Some (view s !! a) -> is_Some (view s' !! a)
}.

Definition grows s s' : Prop := good s -> grown s s'.

Lemma grown_good s s' : good s -> grown s s' -> good s'.
Proof. intros [_ Hh] [Hv Hk _ _]. split; [done|]. by rewrite Hk. Qed.

#[global] Instance grows_preorder : PreOrder grows.
Proof.
  split.
  - intros s [Hv _]. by split.
  - intros s1 s2 s3 H12 H23 Hg. pose proof (H12 Hg) as G12. pose proof (H23 (grown_good _ _ Hg G12)) as [Hv2 Hh2 Hn2 Hs2].
    destruct G12 as [Hv1 Hh1 Hn1 Hs1]. split; [done|congruence| |auto]. intros a Ha. etrans; [by apply Hn1|by apply Hn2].
Qed.

(** Steps that keep every nonce. *)
Lemma grows_keeps s s' :
  hidden s' = hidden s ->
  (good s -> accounts_ok (view s') /\ (forall a, ~ new a -> nonce_at (view s') a = nonce_at (view s) a) /\
     forall a, ~ new a -> is_Some (view s !! a) -> is_Some (view s' !! a)) ->
  grows s s'.
Proof. intros Hh Hk Hg. destruct (Hk Hg) as (Hv & Hn & Hs). split; try done. intros a Ha. by rewrite Hn. Qed.

Lemma grows_get s a : grows s (GetAccount s a).2.
Proof. apply grows_keeps; [apply GetAccount_hidden|]. intros [Hv _]. by rewrite GetAccount_keeps. Qed.

Lemma grows_decrease s a d : 0 <= d < 2 ^ 128 -> grows s (DecreaseBalance s a d).2.
Proof.
  intros Hd. apply grows_keeps; [apply DecreaseBalance_hidden|]. intros [Hv _].
  pose proof (DecreaseBalance_effect s a d Hv Hd) as He. destruct (DecreaseBalance s a d) as [ok s']. cbn [snd].
  destruct He as [Hok ->]. destruct ok; [|done]. split; [|split].
  - destruct (Z.eqb_spec d 0) as [->|]; [done|]. symmetry in Hok. cbn [orb] in Hok. apply andb_true_iff in Hok as [_ Hok].
    apply debit_ok; [done|lia].
  - intros b _. apply nonce_debit.
  - intros b _. apply debit_some.
Qed.

Lemma grows_increase s a d : 0 <= d < 2 ^ 128 -> grows s (IncreaseBalance ACCOUNT_VERSION s a d).2.
Proof.
  intros Hd. apply grows_keeps; [apply IncreaseBalance_hidden|]. intros [Hv _].
  pose proof (IncreaseBalance_effect ACCOUNT_VERSION s a d Hv Hd) as He.
  destruct (IncreaseBalance ACCOUNT_VERSION s a d) as [ok s']. cbn [snd]. destruct He as [Hok ->].
  destruct ok; [|done]. symmetry in Hok. zbool. split; [by apply credit_ok; [|lia|]|]. split; intros b _; [apply nonce_credit|apply credit_some].
Qed.

Lemma grows_transfer s s' from to d ok :
  0 <= d < 2 ^ 128 -> TransferBalance ACCOUNT_VERSION s from to d = Ret (ok, s') -> grows s s'.
Proof.
  intros Hd E. apply grows_keeps; [by eapply TransferBalance_hidden|]. intros [Hv _].
  destruct (TransferBalance_conserves ACCOUNT_VERSION s from to d Hv Hd) as (ok1 & s1 & E1 & Hok & _ & Hn & Hs).
  rewrite E in E1. injection E1 as <- <-. auto.
Qed.

(** Raising a nonce; it succeeds only when it does. *)
Lemma IncreaseNonce_cases s a :
  good s -> let '(ok, s') := IncreaseNonce s a in
  grown s s' /\ (ok = true -> nonce_at (view s') a = nonce_at (view s) a + 1).
Proof.
  intros [Hv Hh]. pose proof (IncreaseNonce_hidden s a) as Hk.
  destruct (view s !! a) as [x|] eqn:Ex.
  - pose proof (IncreaseNonce_effect s a Hv ltac:(by rewrite Ex)) as Hi.
    assert (forall b, is_Some (view s !! b) -> is_Some (view (IncreaseNonce s a).2 !! b)) as Hs.
    { intros b Hb. unfold IncreaseNonce. pose proof (GetAccount_keeps s a) as Hkv.
      destruct (GetAccount s a) as [[y|] s1]; cbn [snd] in Hkv; [|cbn; by rewrite Hkv].
      destruct (Account_IncreaseNonce y) as [ok z]. cbn [snd]. rewrite store_set_view, Hkv. by apply insert_some. }
    destruct (IncreaseNonce s a) as [ok s']. cbn [snd] in *. destruct Hi as (_ & _ & Hn & _ & Ha). split.
    + split; [done|done| |auto]. intros b _. rewrite Hn. destruct (ok && _); lia.
    + intros ->. by rewrite Hn, bool_decide_eq_true_2.
  - unfold IncreaseNonce in *. pose proof (GetAccount_found s a) as Hf. pose proof (GetAccount_keeps s a) as Hkv.
    destruct (GetAccount s a) as [y s1]; cbn [fst snd] in Hf, Hkv. rewrite Ex in Hf. subst y. cbn [snd] in Hk.
    split; [|done]. split; rewrite ?Hkv; auto. lia.
Qed.

Lemma grows_nonce s a : grows s (IncreaseNonce s a).2.
Proof. intros Hg. pose proof (IncreaseNonce_cases s a Hg) as Hi. destruct (IncreaseNonce s a) as [ok s']. apply Hi. Qed.

(** Anything at the address of a new contract. *)
Lemma grows_at s s' a :
  new a -> hidden s' = hidden s -> (forall b, b <> a -> view s' !! b = view s !! b) ->
  (good s -> forall y, view s' !! a = Some y -> account_ok y) -> grows s s'.
Proof.
  intros Ha Hh Ho Hy. apply grows_keeps; [done|]. intros Hg. pose proof Hg as [Hv _]. split; [|split].
  - intros b y Hb. destruct (decide (b = a)) as [->|Hba]; [by apply Hy|]. rewrite Ho in Hb by done. by apply (Hv b).
  - intros b Hb. unfold nonce_at. rewrite Ho by (by intros ->). done.
  - intros b Hb. rewrite Ho by (by intros ->). done.
Qed.

Lemma grows_erase s a : new a -> grows s (store_erase s a).
Proof.
  intros Ha. apply (grows_at _ _ a); [done|apply store_erase_hidden| |].
  - intros b Hb. rewrite store_erase_view. by rewrite lookup_partial_alter_ne.
  - intros [_ Hh] y. rewrite store_erase_view, lookup_partial_alter_eq. apply Hh.
Qed.

Lemma grows_remove s a : new a -> grows s (RemoveAccount s a).
Proof.
  intros Ha. unfold RemoveAccount, IsAccountExist. pose proof (grows_get s a) as Hg.
  destruct (GetAccount s a) as [[y|] s1]; cbn [snd] in Hg; [|done]. etrans; [exact Hg|]. by apply grows_erase.
Qed.

Lemma grows_set s a y : new a -> account_ok y -> grows s (store_set s a y).
Proof.
  intros Ha Hy. apply (grows_at _ _ a); [done|apply store_set_hidden| |].
  - intros b Hb. by rewrite store_set_view, lookup_insert_ne.
  - intros _ z. rewrite store_set_view, lookup_insert_eq. by intros [= <-].
Qed.

Lemma grows_add s a : grows s (AddAccount s a (Account_new ACCOUNT_VERSION 0 0)).
Proof.
  apply grows_keeps; [apply AddAccount_hidden|]. intros [Hv _].
  destruct (view s !! a) as [y|] eqn:E.
  - assert (view (AddAccount s a (Account_new ACCOUNT_VERSION 0 0)) = view s) as ->; [|done].
    unfold AddAccount, IsAccountExist. pose proof (GetAccount_found s a) as Hf. pose proof (GetAccount_keeps s a) as Hk.
    destruct (GetAccount s a) as [z s1]; cbn [fst snd] in *. rewrite E in Hf. by subst z.
  - rewrite AddAccount_view by done. destruct (new_account_facts ACCOUNT_VERSION (view s) a E) as (H1 & _ & H3 & _).
    split; [by apply H1|]. split; [done|]. intros b _. apply insert_some.
Qed.

End growing.

(** ** Transactions *)

Section transactions.
Context `{Hssl : OpenSSL} `{Hproto : StateProto} {DB : Type} `{Hdb : leveldb DB} {J : Type} `{Hjson : Json J}.
Context `{Hcast : LexicalCast} `{Hlex : !LexicalCastSpec} `{Hwriter : ReceiptWriter J} `{Hmath : SafeMath}.
Context `{Hsm : !SafeMathSpec} {S : Type} `{Hmap : AccountMap S} `{Hstore : !AccountMapSpec S}.
Context {W : Type} `{Henv : Environment W}.
Context {PubKey : Type} (GetAddressFromPublicKey : PubKey -> Z).
Context (CONTRACT_STATE_VERSION ACCOUNT_VERSION : Z) (index_fuel : nat) (scilla : ScillaConfig) (gas : GasConfig).
Abbreviation SC := (AccountStoreSC S DB W).
Implicit Types (st : SC) (receipt : TransactionReceipt J) (s : S).
Local Abbreviation sender_of := (sender_of GetAddressFromPublicKey).

(** The addresses that contracts are created at. *)
Definition at_contract_address (a : Z) : Prop := exists from nonce, a = GetAddressForContract from nonce.
Local Abbreviation grown := (grown at_contract_address).
Local Abbreviation grows := (grows at_contract_address).

(** What a transaction of [from] has done when it ended with [ok]. *)
Record tx_effect (s s' : S) (from gasLimit : Z) (ok : bool) receipt : Prop := {
  te_grown : grown s s';
  te_nonce : ok = true -> ~ at_contract_address from -> nonce_at (view s) from < nonce_at (view s') from;
  te_gas : ok = true -> 0 <= m_cumGas receipt <= gasLimit
}.

Lemma effect_refused s s' from gasLimit receipt : grown s s' -> tx_effect s s' from gasLimit false receipt.
Proof. by split. Qed.

(** The nonce at the end of a transaction. *)
Lemma effect_nonce s s1 s2 from gasLimit ok receipt :
  good s -> grown s s1 -> IncreaseNonce s1 from = (ok, s2) -> (ok = true -> 0 <= m_cumGas receipt <= gasLimit) ->
  tx_effect s s2 from gasLimit ok receipt.
Proof.
  intros Hg Hgr E Hgas. pose proof (IncreaseNonce_cases at_contract_address s1 from (grown_good _ _ _ Hg Hgr)) as Hi.
  rewrite E in Hi. destruct Hi as [Hgr2 Hn]. split; [|intros -> Hf|done].
  - apply (transitivity (R := grows) (y := s1)); [by intros _|by intros _|done].
  - rewrite Hn by done. pose proof (gr_nonce _ _ _ Hgr from Hf). lia.
Qed.

(** Payments. *)
Lemma payment_effect s t receipt ok s' receipt' :
  0 <= NORMAL_TRAN_GAS gas < 2 ^ 32 -> good s -> tx_ok t ->
  UpdateAccounts ACCOUNT_VERSION (NORMAL_TRAN_GAS gas) GetAddressFromPublicKey s t receipt = Ret (ok, s', receipt') ->
  tx_effect s s' (sender_of t) (tx_gasLimit t) ok receipt'.
Proof.
  intros Hnorm Hg Ht E. pose proof Ht as [Ham Hpr Hl]. unfold UpdateAccounts in E. fold (sender_of t) in E.
  pose proof (grows_get at_contract_address s (sender_of t) Hg) as G1.
  destruct (GetAccount s (sender_of t)) as [[x|] s1]; cbn [snd] in G1; [|injection E as <- <- <-; by apply effect_refused].
  destruct (Z.ltb_spec (tx_gasLimit t) (NORMAL_TRAN_GAS gas)); [injection E as <- <- <-; by apply effect_refused|].
  rewrite sm_mul_spec in E by lia.
  destruct (Z.ltb_spec (tx_gasLimit t * tx_gasPrice t) (2 ^ 128)) as [Hdep|]; cbn [negb] in E;
    [|injection E as <- <- <-; by apply effect_refused].
  assert (0 <= tx_gasLimit t * tx_gasPrice t) as Hd0 by nia.
  destruct (m_balance x <? _); [injection E as <- <- <-; by apply effect_refused|].
  assert (grows s s1) as R1 by (by intros _).
  pose proof (grows_decrease at_contract_address s1 (sender_of t) (tx_gasLimit t * tx_gasPrice t) ltac:(lia)) as R2.
  destruct (DecreaseBalance s1 _ _) as [ok2 s2]. cbn [snd] in R2. pose proof (transitivity R1 R2) as R12.
  destruct ok2; cbn [negb] in E; [|injection E as <- <- <-; apply effect_refused; by apply R12].
  apply bind_Ret in E as ([ok3 s3] & E3 & E). apply (grows_transfer _ at_contract_address) in E3; [|lia].
  pose proof (transitivity R12 E3) as R13. destruct ok3; cbn [negb] in E.
  2: { pose proof (grows_increase ACCOUNT_VERSION at_contract_address s3 (sender_of t) (tx_gasLimit t * tx_gasPrice t) ltac:(lia)) as R4.
       destruct (IncreaseBalance _ s3 _ _) as [ok4 s4]. destruct ok4; cbn [negb] in E; [|done]. injection E as <- <- <-.
       apply effect_refused. by apply (transitivity R13 R4). }
  destruct (CalculateGasRefund _ _ _ _) as [ok4 refund] eqn:E4.
  destruct ok4; cbn [negb] in E; [|injection E as <- <- <-; apply effect_refused; by apply R13].
  assert (0 <= refund < 2 ^ 128) as Hrefund.
  { pose proof (CalculateGasRefund_effect _ Hnorm t 0 Ht ltac:(lia) Hdep) as Hr. unfold deposit, fee in Hr.
    rewrite E4 in Hr. injection Hr as ->. nia. }
  pose proof (grows_increase ACCOUNT_VERSION at_contract_address s3 (sender_of t) refund Hrefund) as R4.
  destruct (IncreaseBalance _ s3 _ _) as [ok5 s5]. cbn [snd] in R4. destruct ok5; cbn [negb] in E; [|done].
  pose proof (transitivity R13 R4) as R5. destruct (IncreaseNonce s5 (sender_of t)) as [ok6 s6] eqn:E6.
  destruct ok6; cbn [negb] in E; injection E as <- <- <-.
  - eapply effect_nonce; [done|by apply R5|exact E6|]. intros _. unfold transfer_receipt.
    destruct (update_success (SetCumGas (SetResult receipt true) (NORMAL_TRAN_GAS gas))) as [_ ->]. cbn. lia.
  - eapply effect_nonce; [done|by apply R5|exact E6|done].
Qed.

(** Calls. *)
Lemma commit_hidden (own : gmap Z Account) s : hidden (map_fold commit_entry s own) = hidden s.
Proof.
  apply (map_fold_weak_ind (fun r _ => hidden r = hidden s)); [done|]. intros a x m r _ IH. unfold commit_entry.
  pose proof (GetAccount_hidden r a) as Hk. destruct (GetAccount r a) as [[y|] r1]; cbn [snd] in Hk.
  - rewrite store_set_hidden. congruence.
  - rewrite AddAccount_hidden. congruence.
Qed.

Lemma settle_grows st st1 ret gasLimit penalty g g' st2 s :
  sc_accounts st = mkAtomic ∅ s -> chain_rel (sc_accounts st) (sc_accounts st1) ->
  settle_call st1 ret gasLimit penalty g = (g', st2) -> grows s (sc_store st2).
Proof.
  intros Hst Hc E [Hv Hh].
  assert (view (sc_accounts st) = view s) as Hvs by (rewrite Hst, view_atomic; apply map_empty_union).
  assert (sound (sc_accounts st)) as Hsound by (split; rewrite ?Hvs, ?Hst; done).
  destruct (Hc Hsound) as [[Hok Hokp] _ Hn Hsome _ _ _ Hnp Hsomep Hhid]. rewrite Hvs in Hn, Hsome.
  rewrite Hst in Hnp, Hsomep, Hhid. cbn [atomic_parent] in Hnp, Hsomep, Hhid.
  unfold settle_call in E. destruct ret; injection E as <- <-.
  - unfold CommitTransferAtomic, sc_store. cbn. split.
    + rewrite CommitTransferAtomic_view. exact Hok.
    + by rewrite commit_hidden.
    + intros a _. rewrite CommitTransferAtomic_view.
      change (atomic_own (sc_accounts st1) ∪ view (atomic_parent (sc_accounts st1))) with (view (sc_accounts st1)). by rewrite Hn.
    + intros a _. rewrite CommitTransferAtomic_view. apply Hsome.
  - by split; auto.
Qed.

Lemma settle_gas st1 ret gasLimit penalty g g' st2 :
  0 <= penalty <= gasLimit -> gasLimit < 2 ^ 64 -> 0 <= g <= gasLimit ->
  settle_call st1 ret gasLimit penalty g = (g', st2) -> 0 <= g' <= gasLimit.
Proof.
  intros Hp H64 Hg E. unfold settle_call in E. destruct ret; injection E as <- <-; [done|].
  rewrite (wrap_small 64 (gasLimit - penalty)) by (unfold in_range; lia). lia.
Qed.

Lemma end_call_effect s0 st st1 ret gasLimit penalty price g s from receipt ok st' receipt' :
  0 <= penalty <= gasLimit -> gasLimit < 2 ^ 64 -> 0 <= g <= gasLimit -> 0 <= price < 2 ^ 128 ->
  good s0 -> grown s0 s -> sc_accounts st = mkAtomic ∅ s -> chain_rel (sc_accounts st) (sc_accounts st1) ->
  end_call ACCOUNT_VERSION st1 ret gasLimit penalty g from price receipt = (ok, st', receipt') ->
  tx_effect s0 (sc_store st') from gasLimit ok receipt'.
Proof.
  intros Hp H64 Hg Hpr Hgood Hgr Hst Hc E. unfold end_call in E.
  destruct (settle_call st1 ret gasLimit penalty g) as [g2 st2] eqn:E2.
  pose proof (settle_gas _ _ _ _ _ _ _ Hp H64 Hg E2) as Hg2.
  assert (grows s0 (sc_store st2)) as R2 by (etrans; [intros _; exact Hgr|by eapply settle_grows]).
  rewrite sm_mul_spec in E by lia. destruct (Z.ltb_spec (g2 * price) (2 ^ 128)); cbn [negb] in E;
    [|injection E as <- <- <-; apply effect_refused; by apply R2].
  unfold finish_nonce, on_store in E.
  pose proof (grows_increase ACCOUNT_VERSION at_contract_address (sc_store st2) from (g2 * price) ltac:(nia)) as R3.
  destruct (IncreaseBalance _ (sc_store st2) from _) as [ok3 s3]. cbn [snd] in R3. pose proof (transitivity R2 R3) as R23.
  destruct (Z.ltb_spec gasLimit g2); [lia|]. change (sc_store (sc_set_store st2 s3)) with s3 in E.
  destruct (IncreaseNonce s3 from) as [ok4 s4] eqn:E4.
  rewrite (wrap_small 64 (gasLimit - g2)) in E by (unfold in_range; lia).
  assert (forall r, m_cumGas r = gasLimit - g2 -> tx_effect s0 s4 from gasLimit ok4 r) as Heff.
  { intros r Hr. eapply effect_nonce; [done|by apply R23|exact E4|]. intros _. lia. }
  destruct ok4; cbn [negb] in E.
  - destruct ret; cbn [negb] in E; injection E as <- <- <-; apply Heff;
      match goal with |- context [update ?r] => destruct (update_success r) as [_ ->] end; done.
  - injection E as <- <- <-. apply effect_refused. apply (te_grown _ _ _ _ _ _ (Heff (SetCumGas receipt (gasLimit - g2)) eq_refl)).
Qed.

Lemma call_effect_nonces st blockNum numShards t receipt ok st' receipt' :
  gas_ok gas -> good (sc_store st) -> tx_ok t -> tx_gasLimit t * tx_gasPrice t < 2 ^ 128 ->
  CallContract GetAddressFromPublicKey CONTRACT_STATE_VERSION ACCOUNT_VERSION index_fuel scilla gas st blockNum numShards
    (sender_of t) (tx_gasLimit t * tx_gasPrice t) t receipt true = Ret (ok, st', receipt') ->
  tx_effect (sc_store st) (sc_store st') (sender_of t) (tx_gasLimit t) ok receipt'.
Proof.
  intros Hgas Hg Ht Hdep E. pose proof Ht as [Ham Hpr Hl]. unfold CallContract in E. unfold on_store in E at 1.
  pose proof (grows_get at_contract_address (sc_store st) (sender_of t)) as R1.
  destruct (GetAccount (sc_store st) (sender_of t)) as [[x|] s1]; cbn [snd] in R1;
    [|injection E as <- <- <-; apply effect_refused; by apply R1].
  set (penalty := Z.max _ _) in E.
  destruct (Z.ltb_spec (tx_gasLimit t) penalty); [injection E as <- <- <-; apply effect_refused; by apply R1|].
  destruct (m_balance x <? _); [injection E as <- <- <-; apply effect_refused; by apply R1|].
  set (st2 := sc_set_depth _ 0) in E. unfold on_store in E at 1. change (sc_store st2) with s1 in E.
  pose proof (grows_get at_contract_address s1 (tx_toAddr t)) as R2. pose proof (transitivity R1 R2) as R12. clear R1 R2.
  destruct (GetAccount s1 (tx_toAddr t)) as [[y|] s2]; cbn [snd] in R12;
    [|injection E as <- <- <-; apply effect_refused; by apply R12].
  set (st3 := sc_set_blockNum (sc_set_store st2 s2) blockNum) in E.
  apply bind_Ret in E as ([status st4] & E4 & E). apply ExportCallContractFiles_tx_outside in E4 as [Ha4 Hc4 Hd4 _ _].
  assert (sc_store st4 = s2) as Hs4 by (unfold sc_store; by rewrite Ha4).
  destruct status; [|injection E as <- <- <-; rewrite Hs4; apply effect_refused; by apply R12|done].
  unfold on_store in E. change (sc_store (DiscardTransferAtomic st4)) with (sc_store st4) in E. rewrite Hs4 in E.
  assert (0 <= tx_gasLimit t * tx_gasPrice t) as Hd0 by nia.
  pose proof (grows_decrease at_contract_address s2 (sender_of t) (tx_gasLimit t * tx_gasPrice t) ltac:(lia)) as R5.
  destruct (DecreaseBalance s2 _ _) as [ok5 s5]. cbn [snd] in R5. pose proof (transitivity R12 R5) as R15.
  destruct ok5; cbn [negb] in E; [|injection E as <- <- <-; apply effect_refused; by apply R15].
  apply bind_Ret in E as ([[[ret g6] st6] r6] & E6 & E). injection E as E.
  set (st5 := sc_set_call _ _ _ _ _ _) in E6. assert (m_curDepth st5 = 0) as Hd5 by exact Hd4.
  apply run_call_result in E6 as (Hacc & Hg6 & _); [|done|done|lia|exact Hd5].
  assert (0 <= penalty) as Hpen by (unfold penalty; destruct Hgas; lia).
  eapply (end_call_effect (sc_store st) st5 st6 ret _ penalty (tx_gasPrice t) g6 s5);
    [lia|lia|exact Hg6|lia|done|by apply R15|done|done|exact E].
Qed.

(** Creations. *)
Lemma InitContract_account c a code data addr blockNum temp init a' c' :
  InitContract CONTRACT_STATE_VERSION index_fuel c a code data addr blockNum temp = Ret (init, a', c') ->
  m_balance a' = m_balance a /\ m_nonce a' = m_nonce a.
Proof.
  intros E. unfold InitContract in E. destruct (isContract a); [by injection E as <- <- <-|].
  apply bind_Ret in E as ([json|] & _ & E); [|by injection E as <- <- <-].
  apply bind_Ret in E as ([entries|] & _ & E); [|by injection E as <- <- <-].
  apply bind_Ret in E as ([[ok root] c1] & _ & E). destruct ok; cbn [negb] in E; [|by injection E as <- <- <-].
  destruct (SetCode (acc_storageRoot a root) code) as [ok2 a2] eqn:E2. unfold SetCode in E2.
  assert (m_balance a2 = m_balance a /\ m_nonce a2 = m_nonce a) as Ha2
    by (destruct (is_empty code); by injection E2 as <- <-).
  destruct ok2; cbn [negb] in E; injection E as <- <- <-; [|done]. unfold SetAddress. by destruct (m_address a2 =? 0).
Qed.

Lemma init_creation_grows st blockNum from toAddr d toAccount (t : Transaction PubKey) temp init st' :
  0 <= d < 2 ^ 128 -> at_contract_address toAddr -> account_ok toAccount ->
  init_creation CONTRACT_STATE_VERSION index_fuel scilla st blockNum from toAddr d toAccount t temp = Ret (init, st') ->
  grows (sc_store st) (sc_store st').
Proof.
  intros Hd Hto Hacc E. unfold init_creation in E.
  destruct (InitContract _ _ _ _ _ _ _ _ _) as [[[ok a'] c]|[]] eqn:EI; try done; try (by injection E as <- <-).
  assert (account_ok a') as Ha' by (apply InitContract_account in EI as [Hb Hn]; unfold account_ok; by rewrite Hb, Hn).
  set (st1 := sc_set_blockNum _ _) in E.
  assert (grows (sc_store st) (sc_store st1)) as R1 by (by apply grows_set).
  destruct ok; cbn [negb] in E; [|by injection E as <- <-].
  destruct (ExportCreateContractFiles _ _ st1 a') as [[status st2]|[]] eqn:EX; try done; try (by injection E as <- <-).
  apply ExportFiles_outside in EX as [HX _ _ _ _]. assert (sc_store st2 = sc_store st1) as Hs2 by (unfold sc_store; by rewrite HX).
  destruct status; [|injection E as <- <-; by rewrite Hs2..]. unfold on_store in E. rewrite Hs2 in E.
  pose proof (grows_decrease at_contract_address (sc_store st1) from d Hd) as R2.
  destruct (DecreaseBalance _ from d) as [ok s3]. injection E as <- <-. cbn [snd] in R2. by etrans.
Qed.

Lemma ParseCreateContract_gas st g out receipt ret g' receipt' :
  0 <= CONTRACT_CREATE_GAS gas -> 0 <= g ->
  ParseCreateContract scilla gas st g out receipt = Ret (ret, g', receipt') -> 0 <= g' <= g.
Proof.
  intros Hc Hg E. unfold ParseCreateContract in E. destruct (ParseOutput _ st out receipt) as [[json|] r]; [|injection E as <- <- <-; lia].
  unfold ParseCreateContractJsonOutput in E. apply bind_Ret in E as ([[ok g1] r1] & E1 & E).
  apply read_gas_bound in E1; [|done|done]. destruct ok; cbn [negb] in E; [|by injection E as <- <- <-].
  apply bind_Ret in E as ([ok2 r2] & _ & E). destruct ok2; cbn [negb] in E; [|by injection E as <- <- <-].
  apply bind_Ret in E as (? & _ & E). apply bind_Ret in E as (? & _ & E). apply bind_Ret in E as (? & _ & E).
  destruct (_ && _); by injection E as <- <- <-.
Qed.

Lemma run_creation_facts st gasLimit penalty receipt ret ret_checker g st' receipt' :
  0 <= CONTRACT_CREATE_GAS gas -> 0 <= penalty <= gasLimit -> gasLimit < 2 ^ 64 ->
  run_creation scilla gas st gasLimit penalty receipt = Ret (ret, ret_checker, g, st', receipt') ->
  sc_accounts st' = sc_accounts st /\ 0 <= g <= gasLimit.
Proof.
  intros Hc Hp H64 E. unfold run_creation in E.
  assert (u64 (gasLimit - penalty) = gasLimit - penalty) as Hu by (apply wrap_small; unfold in_range; lia).
  destruct (run_command st _ receipt) as [[[ok out] st1] r1] eqn:E1. apply run_command_outside in E1 as [Ha1 _ _ _ _].
  destruct (if ok then _ else _) as [ok1 r1'].
  destruct ok1; cbn [negb] in E; [|injection E as <- <- <- <- <-; split; [done|lia]].
  destruct (run_command st1 _ r1') as [[[ok2 out2] st2] r2] eqn:E2. apply run_command_outside in E2 as [Ha2 _ _ _ _].
  assert (sc_accounts st2 = sc_accounts st) as Ha by congruence.
  destruct ok2; cbn [negb] in E; [|injection E as <- <- <- <- <-; split; [done|lia]].
  destruct (ParseCreateContract _ _ st2 gasLimit out2 r2) as [[[ret3 g3] r3]|[]] eqn:E3; try done;
    try (injection E as <- <- <- <- <-; split; [done|lia]).
  apply ParseCreateContract_gas in E3; [|done|lia]. injection E as <- <- <- <- <-. split; [done|]. destruct ret3; lia.
Qed.

(** The end of a creation: the nonce, and the removal of the account when that fails. *)
Lemma finish_creation s0 toAddr from gasLimit receipt ok st' receipt' (remove : bool) st :
  good s0 -> at_contract_address toAddr ->
  (let '(ok, st) := finish_nonce st from in
   if negb ok then Ret (false, if remove then sc_set_store st (RemoveAccount (sc_store st) toAddr) else st, receipt)
   else Ret (true, st, receipt)) = Ret (ok, st', receipt') ->
  grows s0 (sc_store st) -> 0 <= m_cumGas receipt <= gasLimit ->
  tx_effect s0 (sc_store st') from gasLimit ok receipt'.
Proof.
  intros Hg Hto E R Hgas. unfold finish_nonce, on_store in E.
  destruct (IncreaseNonce (sc_store st) from) as [ok1 s1] eqn:E1.
  assert (tx_effect s0 s1 from gasLimit ok1 receipt) as He by (eapply effect_nonce; [done|by apply R|exact E1|by intros _]).
  destruct ok1; cbn [negb] in E; injection E as <- <- <-; [exact He|]. apply effect_refused. destruct remove; [|apply He].
  apply (transitivity (R := grows) (y := s1)); [intros _; apply He|by apply grows_remove|done].
Qed.

Lemma creation_effect st blockNum t receipt ok st' receipt' :
  gas_ok gas -> good (sc_store st) -> tx_ok t -> tx_gasLimit t * tx_gasPrice t < 2 ^ 128 ->
  CreateContract CONTRACT_STATE_VERSION ACCOUNT_VERSION index_fuel scilla gas st blockNum
    (sender_of t) (tx_gasLimit t * tx_gasPrice t) t receipt true = Ret (ok, st', receipt') ->
  tx_effect (sc_store st) (sc_store st') (sender_of t) (tx_gasLimit t) ok receipt'.
Proof.
  intros Hgas Hg Ht Hdep E. pose proof Ht as [Ham Hpr Hl]. assert (0 <= tx_gasLimit t * tx_gasPrice t) as Hd0 by nia.
  set (from := sender_of t) in *. set (s0 := sc_store st) in *. unfold CreateContract in E. unfold on_store in E at 1. fold s0 in E.
  pose proof (grows_get at_contract_address s0 from) as R1.
  destruct (GetAccount s0 from) as [[x|] s1]; cbn [snd] in R1; [|injection E as <- <- <-; apply effect_refused; by apply R1].
  set (penalty := Z.max _ _) in E.
  destruct (Z.ltb_spec (tx_gasLimit t) penalty); [injection E as <- <- <-; apply effect_refused; by apply R1|].
  destruct (m_balance x <? _); [injection E as <- <- <-; apply effect_refused; by apply R1|].
  assert (0 <= penalty) as Hpen by (unfold penalty; destruct Hgas; lia).
  set (toAddr := GetAddressForContract from (m_nonce x)) in *.
  assert (at_contract_address toAddr) as Hto by (by exists from, (m_nonce x)).
  change (sc_store (sc_set_store st s1)) with s1 in E.
  pose proof (transitivity R1 (grows_add ACCOUNT_VERSION at_contract_address s1 toAddr)) as R2.
  set (s2 := AddAccount s1 toAddr _) in *. unfold on_store in E at 1.
  change (sc_store (sc_set_store (sc_set_store st s1) s2)) with s2 in E. pose proof (transitivity R2 (grows_get at_contract_address s2 toAddr)) as R3.
  pose proof (GetAccount_found s2 toAddr) as Hf.
  destruct (GetAccount s2 toAddr) as [[y|] s3]; cbn [fst snd] in R3, Hf; [|injection E as <- <- <-; apply effect_refused; by apply R3].
  assert (account_ok y) as Hy by (eapply (gr_ok _ _ _ (R2 Hg)); by rewrite <- Hf).
  apply bind_Ret in E as ([init st4] & E4 & E). apply init_creation_grows in E4; [|lia|done|done].
  pose proof (transitivity R3 E4) as R4. destruct init; cbn [negb] in E.
  2: { injection E as <- <- <-. apply effect_refused. by apply (transitivity R4 (grows_remove at_contract_address _ toAddr Hto)). }
  apply bind_Ret in E as ([[[[ret ret_checker] g] st5] r5] & E5 & E).
  apply run_creation_facts in E5 as [Ha5 Hg5]; [|apply Hgas|lia|lia]. assert (sc_store st5 = sc_store st4) as Hs5 by (unfold sc_store; by rewrite Ha5).
  rewrite sm_mul_spec in E by lia. assert (0 <= g * tx_gasPrice t <= tx_gasLimit t * tx_gasPrice t) as Hrf by nia.
  destruct (Z.ltb_spec (g * tx_gasPrice t) (2 ^ 128)); [|lia]. cbn [negb] in E. unfold on_store in E at 1. rewrite Hs5 in E.
  pose proof (grows_increase ACCOUNT_VERSION at_contract_address (sc_store st4) from (g * tx_gasPrice t) ltac:(lia)) as R6.
  destruct (IncreaseBalance _ (sc_store st4) from _) as [ok6 s6]. cbn [snd] in R6. pose proof (transitivity R4 R6) as R46.
  destruct ok6; cbn [negb] in E; [|done]. change (sc_store (sc_set_store st5 s6)) with s6 in E.
  assert (u64 (tx_gasLimit t - g) = tx_gasLimit t - g) as Hu by (apply wrap_small; unfold in_range; lia). rewrite Hu in E.
  assert (forall r : TransactionReceipt J, 0 <= m_cumGas (failed_receipt r (tx_gasLimit t - g)) <= tx_gasLimit t) as Hfr.
  { intros r. unfold failed_receipt. destruct (update_success (SetCumGas r (tx_gasLimit t - g))) as [_ ->]. cbn. lia. }
  destruct (negb ret || negb ret_checker).
  { refine (finish_creation s0 toAddr _ _ _ _ _ _ true _ Hg Hto E _ (Hfr _)).
    etrans; [exact R46|by apply grows_erase]. }
  destruct (Z.ltb_spec (tx_gasLimit t) g); [lia|].
  apply bind_Ret in E as ([ok7 st7] & E7 & E).
  assert (grows s0 (sc_store st7)) as R7.
  { destruct (negb _); [|injection E7 as <- <-; exact R46]. apply bind_Ret in E7 as ([ok8 s8] & E8 & E7).
    injection E7 as <- <-. etrans; [exact R46|]. by eapply grows_transfer; [|exact E8]. }
  destruct ok7; cbn [negb] in E.
  2: exact (finish_creation s0 toAddr _ _ _ _ _ _ true _ Hg Hto E R7 (Hfr _)).
  unfold finish_nonce, on_store in E. destruct (IncreaseNonce (sc_store st7) from) as [ok9 s9] eqn:E9.
  assert (forall r, m_cumGas r = tx_gasLimit t - g -> tx_effect s0 s9 from (tx_gasLimit t) ok9 r) as Heff.
  { intros r Hr. eapply effect_nonce; [done|by apply R7|exact E9|]. intros _. lia. }
  destruct ok9; cbn [negb] in E; injection E as <- <- <-.
  - apply Heff. match goal with |- context [update ?r] => destruct (update_success r) as [_ ->] end. done.
  - apply effect_refused. apply (te_grown _ _ _ _ _ _ (Heff (SetCumGas r5 (tx_gasLimit t - g)) eq_refl)).
Qed.

(** All kinds of transactions. *)
Lemma UpdateAccounts_grows st blockNum numShards isDS t receipt ok st' receipt' :
  gas_ok gas -> good (sc_store st) -> tx_ok t ->
  SC_UpdateAccounts GetAddressFromPublicKey CONTRACT_STATE_VERSION ACCOUNT_VERSION index_fuel scilla gas
    st blockNum numShards isDS t receipt true = Ret (ok, st', receipt') ->
  tx_effect (sc_store st) (sc_store st') (sender_of t) (tx_gasLimit t) ok receipt'.
Proof.
  intros Hgas Hg Ht E. pose proof Ht as [Ham Hpr Hl]. unfold SC_UpdateAccounts in E.
  set (st0 := sc_set_world (sc_set_isDS st isDS) _) in E. change (sc_store st) with (sc_store st0) in Hg |- *.
  clearbody st0. clear st. rewrite sm_mul_spec in E by lia.
  assert (grown (sc_store st0) (sc_store st0)) as Hrefl by (by apply (reflexivity (R := grows))).
  destruct (Z.ltb_spec (tx_gasLimit t * tx_gasPrice t) (2 ^ 128)); cbn [negb] in E;
    [|injection E as <- <- <-; by apply effect_refused].
  fold (sender_of t) in E. destruct (GetTransactionType t).
  - unfold on_store in E. pose proof (grows_get at_contract_address (sc_store st0) (tx_toAddr t) Hg) as G1.
    destruct (GetAccount (sc_store st0) (tx_toAddr t)) as [y s1]; cbn [snd] in G1.
    destruct (match y with Some a => isContract a | None => false end); [injection E as <- <- <-; by apply effect_refused|].
    apply bind_Ret in E as ([[ok1 s2] r1] & E1 & E). injection E as <- <- <-.
    pose proof (grown_good _ _ _ Hg G1) as Hg1.
    apply payment_effect in E1 as [Hgr Hn Hc]; [|apply Hgas|done|done]. change (sc_store (sc_set_store st0 s1)) with s1 in Hgr, Hn.
    split; [|intros Hok Hf|done].
    + apply (transitivity (R := grows) (y := s1)); [by intros _|by intros _|done].
    + pose proof (gr_nonce _ _ _ G1 _ Hf). pose proof (Hn Hok Hf). cbn in *. lia.
  - by apply creation_effect in E.
  - by apply call_effect_nonces in E.
  - injection E as <- <- <-. by apply effect_refused.
Qed.

End transactions.
