(* ===== verification/TxnExecution.v ===== *)
(** * The checks of the validator and the execution of selected transactions:
      libValidator/Validator.cpp

    [CheckCreatedTransaction] checks a transaction against the permanent store and
    applies it to the temporary one; it is the executor that the selection of
    transactions works with.  [CheckCreatedTransactionFromLookup] is the check of a
    shard node when a lookup node sends it transactions. *)

From stdpp Require Import base numbers gmap countable list sorting.
From S2P Require Import Prelude OpenSSL Schnorr LevelDB Json Receipt TxnPool AccountStore ContractStorage ContractAccount AccountStoreSC ContractProperties AccountMessages StateDelta DeltaProperties ExecutionProperties TxnSelection SelectionProperties.
Open Scope Z_scope.

(** [DataConversion::UnpackA] *)
Definition UnpackA (x : Z) : Z := wrap 16 (Z.shiftr x 16).

(** What the validator reads of the mediator, the node and the configuration. *)
Record ValidatorContext := mkValidatorContext {
  vc_epochNum : Z;
  vc_numShards : Z;
  vc_shardId : Z;
  vc_isDS : bool;           (** [m_mode != IDLE] *)
  vc_minGasPrice : Z;       (** of the last directory block *)
  vc_chainId : Z;
  vc_maxCodeSize : Z
}.

Section validator.
Context `{Hssl : OpenSSL} `{Hproto : StateProto} {DB : Type} `{Hdb : leveldb DB} {J : Type} `{Hjson : Json J}.
Context `{Hcast : LexicalCast} `{Hwriter : ReceiptWriter J} `{Hmath : SafeMath} {T : Type} `{Htrie : Trie T}.
Context `{Hacc : AccountProto} {W : Type} `{Henv : Environment W}.
Context (CONTRACT_STATE_VERSION ACCOUNT_VERSION : Z) (index_fuel : nat) (scilla : ScillaConfig) (gas : GasConfig).

Section created.
Context {PubKey : Type} (GetAddressFromPublicKey : PubKey -> Z).
Local Abbreviation Store := (AccountStore T DB W).
Implicit Types st : Store.

(** The sender exists in the permanent store and has the amount there. *)
Definition CheckCreatedTransaction (LOOKUP_NODE_MODE : bool) (c : ValidatorContext) st (tx : Transaction PubKey)
    (receipt : TransactionReceipt J) : outcome (bool * Store * TransactionReceipt J) :=
  if LOOKUP_NODE_MODE then Ret (true, st, receipt)
  else if negb (UnpackA (tx_version tx) =? vc_chainId c) then Ret (false, st, receipt)
  else
    let fromAddr := GetAddressFromPublicKey (tx_senderPubKey tx) in
    if fromAddr =? 0 then Ret (false, st, receipt)
    else
      let '(found, m) := IsAccountExist (as_main st) fromAddr in
      let st := as_set_main st m in
      if negb found then Ret (false, st, receipt)
      else
        let '(balance, m) := GetBalance (as_main st) fromAddr in
        let st := as_set_main st m in
        if balance <? tx_amount tx then Ret (false, st, receipt)
        else
          UpdateAccountsTemp GetAddressFromPublicKey CONTRACT_STATE_VERSION ACCOUNT_VERSION index_fuel scilla gas st
            (vc_epochNum c) (vc_numShards c) (vc_isDS c) tx (SetEpochNum receipt (vc_epochNum c)).

(** [AccountStore::IncreaseBalanceTemp] *)
Definition IncreaseBalanceTemp st (address delta : Z) : bool * Store :=
  let '(ok, s) := IncreaseBalance ACCOUNT_VERSION (sc_store (as_temp st)) address delta in (ok, as_set_store st s).

(** A shard node as the executor of the selection. *)
Definition node_executor (c : ValidatorContext) : TxnExecutor Store J PubKey := {|
  exec_nonce := GetNonceTemp;
  exec_check := CheckCreatedTransaction false c;
  exec_increase st a d := (IncreaseBalanceTemp st a d).2
|}.

End created.

(** ** The check of transactions from lookup nodes *)

Context (SerializeCoreFields : Transaction PubKey -> bytes) (GetAddressFromPublicKey : PubKey -> Z).

Definition VerifyTransaction (tran : Transaction PubKey) : bool :=
  Verify (SerializeCoreFields tran) (mkSignature (tx_signature tran).1 (tx_signature tran).2) (tx_senderPubKey tran).

Definition CheckCreatedTransactionFromLookup (LOOKUP_NODE_MODE : bool) (c : ValidatorContext) (m : MainStore T)
    (tx : Transaction PubKey) : bool * MainStore T :=
  if LOOKUP_NODE_MODE then (true, m)
  else if negb (UnpackA (tx_version tx) =? vc_chainId c) then (false, m)
  else
    let fromAddr := GetAddressFromPublicKey (tx_senderPubKey tx) in
    if fromAddr =? 0 then (false, m)
    else
      let correct_shard_from := GetShardIndex fromAddr (vc_numShards c) in
      if negb (vc_isDS c) && negb (correct_shard_from =? vc_shardId c) then (false, m)
      else if negb (vc_isDS c) && match GetTransactionType tx with CONTRACT_CALL => true | _ => false end &&
              negb (GetShardIndex (tx_toAddr tx) (vc_numShards c) =? correct_shard_from) then (false, m)
      else if zlen (tx_code tx) >? vc_maxCodeSize c then (false, m)
      else if tx_gasPrice tx <? vc_minGasPrice c then (false, m)
      else if negb (VerifyTransaction tx) then (false, m)
      else
        let '(found, m) := IsAccountExist m fromAddr in
        if negb found then (false, m)
        else
          let '(balance, m) := GetBalance m fromAddr in
          (negb (balance <? tx_amount tx), m).

End validator.

(** ** The promise to the selection *)

Section promise.
Context `{Hssl : OpenSSL} `{Hproto : StateProto} {DB : Type} `{Hdb : leveldb DB} {J : Type} `{Hjson : Json J}.
Context `{Hcast : LexicalCast} `{Hlex : !LexicalCastSpec} `{Hwriter : ReceiptWriter J} `{Hmath : SafeMath} `{Hsm : !SafeMathSpec}.
Context {T : Type} `{Htrie : Trie T} `{Htspec : !TrieSpec T} `{Hacc : AccountProto} {W : Type} `{Henv : Environment W}.
Context (CONTRACT_STATE_VERSION ACCOUNT_VERSION : Z) (index_fuel : nat) (scilla : ScillaConfig) (gas : GasConfig).
Context {PubKey : Type} (GetAddressFromPublicKey : PubKey -> Z).
Local Abbreviation Store := (AccountStore T DB W).
Implicit Types st : Store.

Definition temp_of st : AccountStoreTemp (MainStore T) := sc_store (as_temp st).

Lemma GetNonceTemp_view st a : GetNonceTemp st a = nonce_at (view (temp_of st)) a.
Proof.
  unfold GetNonceTemp, GetNonce, nonce_at.
  change (view (temp_of st)) with (as_own st ∪ view (as_main st)). rewrite lookup_union.
  destruct (as_own st !! a) as [x|] eqn:E.
  - pose proof (GetAccount_found (temp_of st) a) as Hf. unfold temp_of in Hf.
    destruct (GetAccount (sc_store (as_temp st)) a) as [y s]. cbn [fst] in *. subst y.
    change (view (sc_store (as_temp st))) with (as_own st ∪ view (as_main st)). rewrite lookup_union, E.
    by destruct (view (as_main st) !! a).
  - pose proof (GetAccount_found (as_main st) a) as Hf. destruct (GetAccount (as_main st) a) as [y s]. cbn [fst] in *. subst y.
    by destruct (view (as_main st) !! a).
Qed.

(** Looking something up in the permanent store. *)
Lemma look_grown st m :
  view m = view (as_main st) -> good (temp_of st) -> grown at_contract_address (temp_of st) (temp_of (as_set_main st m)).
Proof.
  intros Hm [Hv Hh].
  assert (view (temp_of (as_set_main st m)) = view (temp_of st)) as Hview.
  { change (as_own st ∪ view m = as_own st ∪ view (as_main st)). by rewrite Hm. }
  split; rewrite ?Hview; try done.
Qed.

Lemma check_effect c st t receipt ok st' receipt' :
  gas_ok gas -> good (temp_of st) -> tx_ok t ->
  CheckCreatedTransaction CONTRACT_STATE_VERSION ACCOUNT_VERSION index_fuel scilla gas GetAddressFromPublicKey false c
    st t receipt = Ret (ok, st', receipt') ->
  tx_effect (temp_of st) (temp_of st') (GetSenderAddr GetAddressFromPublicKey t) (tx_gasLimit t) ok receipt'.
Proof.
  intros Hgas Hg Ht E. unfold CheckCreatedTransaction in E. set (from := GetAddressFromPublicKey (tx_senderPubKey t)) in E.
  assert (grown at_contract_address (temp_of st) (temp_of st)) as Hrefl by (by apply (reflexivity (R := grows at_contract_address))).
  destruct (negb _); [injection E as <- <- <-; by apply effect_refused|].
  destruct (from =? 0); [injection E as <- <- <-; by apply effect_refused|].
  unfold IsAccountExist in E. pose proof (GetAccount_keeps (as_main st) from) as Hk1.
  destruct (GetAccount (as_main st) from) as [x m1]; cbn [snd] in Hk1. pose proof (look_grown st m1 Hk1 Hg) as G1.
  set (st1 := as_set_main st m1) in *. destruct (negb _); [injection E as <- <- <-; by apply effect_refused|].
  unfold GetBalance in E. pose proof (GetAccount_keeps (as_main st1) from) as Hk2.
  destruct (GetAccount (as_main st1) from) as [y m2]; cbn [snd] in Hk2.
  pose proof (grown_good _ _ _ Hg G1) as Hg1. pose proof (look_grown st1 m2 Hk2 Hg1) as G2.
  set (st2 := as_set_main st1 m2) in *.
  assert (grown at_contract_address (temp_of st) (temp_of st2)) as G12.
  { apply (transitivity (R := grows at_contract_address) (y := temp_of st1)); [by intros _|by intros _|done]. }
  destruct (_ <? _); [injection E as <- <- <-; by apply effect_refused|].
  unfold UpdateAccountsTemp in E. apply bind_Ret in E as ([[ok3 sc] r3] & E3 & E). injection E as <- <- <-.
  apply UpdateAccounts_grows in E3 as [Hgr Hn Hc]; [|done|by eapply grown_good|done].
  change (sc_store (as_temp st2)) with (temp_of st2) in Hgr, Hn. change (sc_store sc) with (temp_of (as_set_temp st2 sc)) in Hgr, Hn.
  split; [|intros Hok Hf|done].
  - apply (transitivity (R := grows at_contract_address) (y := temp_of st2)); [by intros _|by intros _|done].
  - pose proof (gr_nonce _ _ _ G12 _ Hf) as Hle. specialize (Hn Hok Hf). unfold GetSenderAddr, ContractProperties.sender_of in *. lia.
Qed.

(** A shard node keeps the promise of the executor. *)
Lemma node_executor_spec c :
  gas_ok gas ->
  TxnExecutorSpec Store J PubKey (H := node_executor CONTRACT_STATE_VERSION ACCOUNT_VERSION index_fuel scilla gas
                                         GetAddressFromPublicKey c) GetAddressFromPublicKey.
Proof.
  intros Hgas.
  refine {| exec_ok (st : Store) := good (temp_of st); contract_address := at_contract_address |}; cbn [exec_nonce exec_check exec_increase node_executor].
  - intros st t r ok st' r' Hg Ht E. eapply grown_good; [exact Hg|]. by eapply te_grown, check_effect.
  - intros st t r ok st' r' a Hg Ht E Ha. rewrite !GetNonceTemp_view. apply check_effect in E; [|done..].
    by apply (gr_nonce _ _ _ (te_grown _ _ _ _ _ _ E)).
  - intros st t r st' r' Hg Ht E Ha. rewrite !GetNonceTemp_view. apply check_effect in E; [|done..].
    by apply (te_nonce _ _ _ _ _ _ E).
  - intros st t r st' r' Hg Ht E. apply check_effect in E; [|done..]. by apply (te_gas _ _ _ _ _ _ E).
  - intros st a d Hg Hd. unfold IncreaseBalanceTemp.
    pose proof (grows_increase ACCOUNT_VERSION at_contract_address (temp_of st) a d Hd Hg) as Hgr. unfold temp_of in Hgr at 2.
    destruct (IncreaseBalance _ (sc_store (as_temp st)) a d) as [ok s]. cbn [snd] in *.
    change (temp_of (as_set_store st s)) with s. by eapply grown_good.
  - intros st a d b Hg Hd. rewrite !GetNonceTemp_view. unfold IncreaseBalanceTemp.
    pose proof (IncreaseBalance_effect ACCOUNT_VERSION (temp_of st) a d (proj1 Hg) Hd) as He. unfold temp_of in He at 1.
    destruct (IncreaseBalance _ (sc_store (as_temp st)) a d) as [ok s]. cbn [snd] in *. destruct He as [_ Hv].
    change (temp_of (as_set_store st s)) with s. rewrite Hv. destruct ok; [apply nonce_credit|done].
Defined.

(** ** A node over time *)

(** One transaction is checked and, unless it is refused, applied. *)
Definition node_step (c : ValidatorContext) st st' : Prop :=
  exists (t : Transaction PubKey) receipt ok receipt', tx_ok t /\
    CheckCreatedTransaction CONTRACT_STATE_VERSION ACCOUNT_VERSION index_fuel scilla gas GetAddressFromPublicKey false c
      st t receipt = Ret (ok, st', receipt').

Lemma node_steps_grow c st st' :
  gas_ok gas -> rtc (node_step c) st st' -> grows at_contract_address (temp_of st) (temp_of st').
Proof.
  intros Hgas. induction 1 as [|st st1 st2 (t & r & ok & r' & Ht & E) _ IH]; [done|]. etrans; [|exact IH].
  intros Hg. by apply check_effect in E as [? _ _].
Qed.

(** C38: Balances and nonces stay within their types.  However many transactions of
    whatever kind a node executes, with whatever behaviour of the interpreter, every
    balance stays an unsigned number of 128 bits and every nonce one of 64 bits, in
    the temporary and in the permanent store; and the permanent store shows the same
    accounts as before. *)
Theorem transactions_keep_types c st st' :
  gas_ok gas -> accounts_ok (view (temp_of st)) -> accounts_ok (view (as_main st)) -> rtc (node_step c) st st' ->
  accounts_ok (view (temp_of st')) /\ accounts_ok (view (as_main st')) /\ view (as_main st') = view (as_main st).
Proof.
  intros Hgas Hv Hh Hst. pose proof (node_steps_grow c st st' Hgas Hst (conj Hv Hh)) as [Hok Hhid _ _].
  change (view (as_main st') = view (as_main st)) in Hhid. split; [done|]. by rewrite Hhid.
Qed.

(** C28: An applied transaction cannot be applied again.  Once a node has applied a
    transaction whose nonce was the next one of its sender, the nonce of the
    transaction is a used one in every later state of the epoch, whatever other
    transactions (payments, contract creations and calls) have been executed, unless
    the sender's address is that of a contract. *)
Theorem node_replay_protection c st t receipt st1 receipt1 st2 :
  gas_ok gas -> accounts_ok (view (temp_of st)) -> accounts_ok (view (as_main st)) -> tx_ok t ->
  ~ at_contract_address (GetSenderAddr GetAddressFromPublicKey t) ->
  tx_nonce t = GetNonceTemp st (GetSenderAddr GetAddressFromPublicKey t) + 1 ->
  CheckCreatedTransaction CONTRACT_STATE_VERSION ACCOUNT_VERSION index_fuel scilla gas GetAddressFromPublicKey false c
    st t receipt = Ret (true, st1, receipt1) ->
  rtc (node_step c) st1 st2 ->
  tx_nonce t <= GetNonceTemp st2 (GetSenderAddr GetAddressFromPublicKey t).
Proof.
  intros Hgas Hv Hh Ht Hf Hn E Hst. pose proof (conj Hv Hh : good (temp_of st)) as Hg.
  apply check_effect in E as [Hgr Hlt _]; [|done..]. specialize (Hlt eq_refl Hf).
  pose proof (node_steps_grow c st1 st2 Hgas Hst (grown_good _ _ _ Hg Hgr)) as Hgr2.
  pose proof (gr_nonce _ _ _ Hgr2 _ Hf). rewrite GetNonceTemp_view in *. lia.
Qed.

End promise.

(** ** Transactions from lookup nodes *)

Section lookup.
Context `{Hssl : OpenSSL} `{Hlaws : !OpenSSLSpec} {T : Type} `{Htrie : Trie T} `{Hacc : AccountProto}.
Context (SerializeCoreFields : Transaction PubKey -> bytes) (GetAddressFromPublicKey : PubKey -> Z).

(** One shard accepts a transaction.  If nodes of two shards, in a network of the
    same number of shards, accept a transaction from a lookup node, they belong to the
    same shard; the transaction is for this network and has a valid signature of its
    sender, and if it calls a contract, the contract belongs to that shard too. *)
Theorem one_shard_accepts c1 c2 (m1 m2 : MainStore T) tx :
  vc_isDS c1 = false -> vc_isDS c2 = false -> vc_numShards c1 = vc_numShards c2 ->
  (CheckCreatedTransactionFromLookup SerializeCoreFields GetAddressFromPublicKey false c1 m1 tx).1 = true ->
  (CheckCreatedTransactionFromLookup SerializeCoreFields GetAddressFromPublicKey false c2 m2 tx).1 = true ->
  vc_shardId c1 = vc_shardId c2 /\ Z.shiftr (tx_version tx) 16 mod 2 ^ 16 = vc_chainId c1 /\
  Verify (SerializeCoreFields tx) (mkSignature (tx_signature tx).1 (tx_signature tx).2) (tx_senderPubKey tx) = true /\
  (GetTransactionType tx = CONTRACT_CALL -> GetShardIndex (tx_toAddr tx) (vc_numShards c1) = vc_shardId c1).
Proof.
  assert (forall c (m : MainStore T), vc_isDS c = false ->
    (CheckCreatedTransactionFromLookup SerializeCoreFields GetAddressFromPublicKey false c m tx).1 = true ->
    GetShardIndex (GetAddressFromPublicKey (tx_senderPubKey tx)) (vc_numShards c) = vc_shardId c /\
    Z.shiftr (tx_version tx) 16 mod 2 ^ 16 = vc_chainId c /\
    Verify (SerializeCoreFields tx) (mkSignature (tx_signature tx).1 (tx_signature tx).2) (tx_senderPubKey tx) = true /\
    (GetTransactionType tx = CONTRACT_CALL -> GetShardIndex (tx_toAddr tx) (vc_numShards c) = vc_shardId c)) as Hone.
  { intros c m Hds E. unfold CheckCreatedTransactionFromLookup in E. rewrite Hds in E. cbn [negb andb] in E.
    destruct (Z.eqb_spec (UnpackA (tx_version tx)) (vc_chainId c)) as [Hid|]; [|done]. cbn [negb] in E.
    destruct (_ =? 0); [done|].
    destruct (Z.eqb_spec (GetShardIndex (GetAddressFromPublicKey (tx_senderPubKey tx)) (vc_numShards c)) (vc_shardId c)) as [Hs|];
      [|done]. cbn [negb] in E.
    destruct (_ && _) eqn:Hcall in E; [done|]. destruct (_ >? _) in E; [done|]. destruct (_ <? vc_minGasPrice c) in E; [done|].
    unfold VerifyTransaction in E. destruct (Verify _ _ _) in E |- *; [|done]. split; [done|]. split; [exact Hid|]. split; [done|].
    intros Ht. rewrite Ht in Hcall. cbn [andb] in Hcall. apply negb_false_iff, Z.eqb_eq in Hcall. congruence. }
  intros H1 H2 Hn E1 E2. destruct (Hone _ _ H1 E1) as (Hs1 & Hrest). destruct (Hone _ _ H2 E2) as (Hs2 & _). split; [congruence|done].
Qed.

End lookup.
