(* ===== verification/TxnOrder.v ===== *)
(** * The order of transactions in a micro block, and its hashes

    libData/AccountData/TxnOrderVerifier.h compares the order a leader proposes with
    the order a backup computed, with a tolerance in percent;
    [ONE_HUNDRED_PERCENT] is a [float], so the window is computed in binary32.
    libUtils/RootComputation.cpp and TransactionReceipt.h hash the transactions and
    the receipts of a block. *)

From stdpp Require Import base numbers gmap countable list.
From Stdlib Require Import SpecFloat.
From S2P Require Import Prelude OpenSSL Schnorr Json Receipt TxnPool ConsensusCommon Blocks.
Open Scope Z_scope.

(** ** Binary32 *)

(** An unsigned number as a [float]. *)
Definition to_float (n : Z) : spec_float :=
  match n with
  | Zpos p => binary_round 24 128 false p 0
  | _ => S754_zero false
  end.

Definition ONE_HUNDRED_PERCENT : spec_float := to_float 100.

(** The conversion from [float] to [double], which is exact. *)
Definition float_to_double (x : spec_float) : spec_float :=
  match x with
  | S754_finite s m e => binary_round 53 1024 s m e
  | _ => x
  end.

(** ** [VerifyTxnOrderWTolerance] *)

Section order.
Context (tolerance_in_percent : Z).

(** The window: [tolerance * size / 100 + matched], all in [float]. *)
Definition window (received : Z) (matched : Z) : spec_float :=
  SFadd 24 128 (SFdiv 24 128 (to_float (u64 (tolerance_in_percent * received))) ONE_HUNDRED_PERCENT) (to_float matched).

Definition in_window (received index matched : Z) : bool := SFltb (to_float index) (window received matched).

(** The first position of every hash; [insert] keeps an entry that is there. *)
Fixpoint index_hashes (l : list Z) (i : Z) (m : gmap Z Z) : gmap Z Z :=
  match l with
  | [] => m
  | th :: l => index_hashes l (u32 (i + 1)) (match m !! th with Some _ => m | None => <[th := i]> m end)
  end.

(** The loop over the expected transactions; [matched] holds the matched positions,
    the last one first. *)
Fixpoint match_loop (positions : gmap Z Z) (received : Z) (expected : list Z) (matched : list Z) : list Z :=
  match expected with
  | [] => matched
  | th :: expected =>
      let matched :=
        match positions !! th with
        | Some i =>
            if match matched with [] => true | back :: _ => i >? back end && in_window received i (zlen matched)
            then i :: matched else matched
        | None => matched
        end in
      match_loop positions received expected matched
  end.

Definition min_ordered_txn_num (expected : Z) : Z :=
  ceil_u32 (SFdiv 53 1024
    (float_to_double (SFmul 24 128 (SFsub 24 128 ONE_HUNDRED_PERCENT (to_float tolerance_in_percent)) (to_float expected)))
    (float_to_double ONE_HUNDRED_PERCENT)).

Definition VerifyTxnOrderWTolerance (expectedTxns receivedTxns : list Z) : bool :=
  match expectedTxns, receivedTxns with
  | [], [] => true
  | [], _ => false
  | _, _ =>
      let positions := index_hashes receivedTxns 0 ∅ in
      let matchedIndexes := match_loop positions (zlen receivedTxns) expectedTxns [] in
      zlen matchedIndexes >=? min_ordered_txn_num (zlen expectedTxns)
  end.

(** ** When the same order is accepted *)

(** Whether the tolerance leaves room for [n] transactions in the same order. *)
Definition tolerates (n : Z) : bool :=
  forallb (fun i => in_window n (Z.of_nat i) (Z.of_nat i)) (seq 0 (Z.to_nat n)) && (min_ordered_txn_num n <=? n).

Lemma index_hashes_lookup l i m th :
  0 <= i -> i + zlen l < 2 ^ 32 ->
  index_hashes l i m !! th =
    match m !! th with
    | Some k => Some k
    | None => (fun k => i + Z.of_nat k) <$> (fst <$> list_find (fun x => x = th) l)
    end.
Proof.
  revert i m. induction l as [|x l IH]; intros i m Hi Hlen; cbn [index_hashes list_find].
  { by destruct (m !! th). }
  assert (zlen (x :: l) = 1 + zlen l) as Hz by (unfold zlen; cbn; lia). pose proof (zlen_nonneg l).
  rewrite (wrap_small 32 (i + 1)) by (unfold in_range; lia). rewrite IH by lia.
  destruct (decide (x = th)) as [->|Hne].
  - destruct (m !! th) as [k|] eqn:E; [by rewrite E|]. rewrite lookup_insert_eq. cbn. f_equal. lia.
  - assert ((match m !! x with Some _ => m | None => <[x := i]> m end) !! th = m !! th) as ->.
    { destruct (m !! x); [done|]. by rewrite lookup_insert_ne. }
    destruct (m !! th); [done|]. destruct (list_find _ l) as [[k y]|]; cbn; [f_equal; lia|done].
Qed.

Lemma index_hashes_NoDup l k th :
  zlen l < 2 ^ 32 -> NoDup l -> l !! k = Some th -> index_hashes l 0 ∅ !! th = Some (Z.of_nat k).
Proof.
  intros Hlen Hnd Hk. rewrite index_hashes_lookup by lia. rewrite lookup_empty.
  assert (list_find (fun x => x = th) l = Some (k, th)) as ->; [|done].
  apply list_find_Some. split; [done|]. split; [done|]. intros j y Hj Hjk ->.
  pose proof (NoDup_lookup _ _ _ _ Hnd Hj Hk). lia.
Qed.

(** The loop over the rest of a list that has been matched from its beginning. *)
Lemma match_loop_same positions n l (k : nat) :
  (forall i th, l !! i = Some th -> positions !! th = Some (Z.of_nat (k + i))) ->
  (forall i, (i < k + length l)%nat -> in_window n (Z.of_nat i) (Z.of_nat i) = true) ->
  length (match_loop positions n l (Z.of_nat <$> reverse (seq 0 k))) = (k + length l)%nat.
Proof.
  revert k. induction l as [|th l IH]; intros k Hp Hw; cbn [match_loop].
  { rewrite length_fmap, length_reverse, length_seq. cbn. lia. }
  rewrite (Hp O th eq_refl). replace (k + 0)%nat with k by lia.
  assert (zlen (Z.of_nat <$> reverse (seq 0 k)) = Z.of_nat k) as ->
    by (unfold zlen; rewrite length_fmap, length_reverse, length_seq; done).
  assert (match Z.of_nat <$> reverse (seq 0 k) with [] => true | back :: _ => Z.of_nat k >? back end = true) as ->.
  { destruct k as [|k]; [done|]. rewrite seq_S, reverse_snoc. rewrite fmap_cons. apply Z.gtb_lt. lia. }
  rewrite Hw by (cbn; lia). cbn [andb].
  assert (Z.of_nat k :: (Z.of_nat <$> reverse (seq 0 k)) = Z.of_nat <$> reverse (seq 0 (S k))) as ->
    by (by rewrite seq_S, reverse_snoc).
  rewrite IH; [cbn; lia| |].
  - intros i th' Hi. rewrite (Hp (S i) th' Hi). f_equal. lia.
  - intros i Hi. apply Hw. cbn. lia.
Qed.

Lemma same_order_accepted l :
  zlen l < 2 ^ 32 -> NoDup l -> tolerates (zlen l) = true -> VerifyTxnOrderWTolerance l l = true.
Proof.
  intros Hlen Hnd Ht. apply andb_true_iff in Ht as [Hw Hm]. unfold VerifyTxnOrderWTolerance.
  destruct l as [|x l]; [done|]. set (l0 := x :: l) in *.
  assert (zlen (match_loop (index_hashes l0 0 ∅) (zlen l0) l0 []) = zlen l0) as ->.
  { unfold zlen at 1 3. f_equal. change [] with (Z.of_nat <$> reverse (seq 0 0)).
    rewrite match_loop_same; [done| |].
    - intros i th Hi. by apply index_hashes_NoDup.
    - intros i Hi. rewrite forallb_forall in Hw. apply Hw, in_seq. unfold zlen. lia. }
  zbool. lia.
Qed.

(** ** What an accepted order has in common with the expected one *)

Lemma index_hashes_sound l th i :
  zlen l < 2 ^ 32 -> index_hashes l 0 ∅ !! th = Some i -> 0 <= i /\ l !! Z.to_nat i = Some th.
Proof.
  intros Hlen E. rewrite index_hashes_lookup, lookup_empty in E by lia.
  destruct (list_find (fun x => x = th) l) as [[k y]|] eqn:Ef; [|done]. cbn in E. injection E as <-.
  apply list_find_Some in Ef as (Hk & -> & _). split; [lia|]. by rewrite Z.add_0_l, Nat2Z.id.
Qed.

(** The transactions [common] matched so far are a part of the received order up to
    the last matched position. *)
Definition matching (received : list Z) (matched common : list Z) : Prop :=
  length common = length matched /\
  match matched with
  | [] => True
  | back :: _ => 0 <= back /\ common `sublist_of` take (S (Z.to_nat back)) received
  end.

Lemma match_loop_common received positions n expected matched common :
  (forall th i, positions !! th = Some i -> 0 <= i /\ received !! Z.to_nat i = Some th) ->
  matching received matched common ->
  exists more, more `sublist_of` expected /\
    matching received (match_loop positions n expected matched) (common ++ more).
Proof.
  intros Hpos. revert matched common. induction expected as [|th l IH]; intros matched common Hm; cbn [match_loop].
  { exists []. by rewrite app_nil_r. }
  destruct (positions !! th) as [i|] eqn:Ei.
  2: { destruct (IH _ _ Hm) as (more & Hs & Hm'). exists more. split; [by apply sublist_cons|done]. }
  destruct (Hpos _ _ Ei) as [Hi Hth]. set (ok := _ && _). destruct ok eqn:Hok.
  2: { destruct (IH _ _ Hm) as (more & Hs & Hm'). exists more. split; [by apply sublist_cons|done]. }
  destruct (IH (i :: matched) (common ++ [th])) as (more & Hs & Hm').
  - destruct Hm as [Hl Hm]. split; [rewrite length_app; cbn; lia|]. split; [done|].
    rewrite (take_S_r _ _ _ Hth). apply sublist_app; [|done].
    destruct matched as [|back matched]; [destruct common; [apply sublist_nil_l|done]|]. destruct Hm as [Hb Hm].
    etrans; [exact Hm|]. apply andb_true_iff in Hok as [Hgt _]. rewrite Z.gtb_lt in Hgt.
    replace (S (Z.to_nat back)) with (S (Z.to_nat back) `min` Z.to_nat i)%nat by lia. rewrite <- take_take.
    apply sublist_take.
  - exists (th :: more). split; [by apply sublist_skip|]. by rewrite <- app_assoc in Hm'.
Qed.

(** An accepted order agrees with the expected one.  When a backup accepts the
    order of a leader, the two have a common subsequence (the same transactions in
    the same relative order) of at least the required number of transactions. *)
Theorem accepted_order_similar expectedTxns receivedTxns :
  expectedTxns <> [] -> zlen receivedTxns < 2 ^ 32 -> VerifyTxnOrderWTolerance expectedTxns receivedTxns = true ->
  exists common, common `sublist_of` expectedTxns /\ common `sublist_of` receivedTxns /\
    min_ordered_txn_num (zlen expectedTxns) <= zlen common.
Proof.
  intros Hne Hlen Hv. unfold VerifyTxnOrderWTolerance in Hv. destruct expectedTxns as [|x l]; [done|].
  set (l0 := x :: l) in *. set (matched := match_loop _ _ _ _) in Hv. apply Z.geb_le in Hv.
  destruct (match_loop_common receivedTxns (index_hashes receivedTxns 0 ∅) (zlen receivedTxns) l0 [] [])
    as (common & Hs & Hc & Hm); [intros th i; by apply index_hashes_sound|done|]. fold matched in Hc, Hm. cbn [app] in Hc, Hm.
  exists common. split; [done|]. split.
  - destruct matched as [|back m]; [destruct common; [apply sublist_nil_l|done]|]. destruct Hm as [_ Hm].
    etrans; [exact Hm|apply sublist_take].
  - unfold zlen in *. rewrite Hc. exact Hv.
Qed.

End order.

(** Any tolerance up to 20 percent leaves room for up to 40 transactions in order. *)
Lemma tolerates_small tolerance n : 1 <= tolerance <= 20 -> 0 <= n <= 40 -> tolerates tolerance n = true.
Proof.
  assert (forallb (fun t => forallb (fun n => tolerates (Z.of_nat t) (Z.of_nat n)) (seq 0 41)) (seq 1 20) = true) as Hall
    by (vm_compute; reflexivity).
  intros Ht Hn. rewrite forallb_forall in Hall. specialize (Hall (Z.to_nat tolerance)). rewrite forallb_forall in Hall.
  rewrite in_seq in Hall. specialize (Hall ltac:(lia) (Z.to_nat n)). rewrite in_seq in Hall. specialize (Hall ltac:(lia)).
  by rewrite !Z2Nat.id in Hall by lia.
Qed.

(** Without tolerance the window is empty: no position is matched. *)
Lemma binary_round_sign p :
  match binary_round 24 128 false p 0 with
  | S754_zero s | S754_infinity s | S754_finite s _ _ => s = false
  | S754_nan => True
  end.
Proof.
  unfold binary_round. destruct (shl_align _ _ _) as [mz ez]. unfold binary_round_aux.
  destruct (shr_fexp _ _ _ _ _) as [mrs e]. destruct (shr_fexp _ _ _ e _) as [mrs2 e2].
  destruct (shr_m mrs2); [done| |done]. by destruct (e2 <=? 128 - 24).
Qed.

Lemma zero_window received index : in_window 0 received index 0 = false.
Proof.
  unfold in_window, window. rewrite Z.mul_0_l.
  change (SFadd 24 128 (SFdiv 24 128 (to_float (u64 0)) ONE_HUNDRED_PERCENT) (to_float 0)) with (S754_zero false).
  destruct index as [|p|p]; [done| |done]. unfold to_float. pose proof (binary_round_sign p) as Hs.
  destruct (binary_round 24 128 false p 0) as [s|s| |s m e]; subst; done.
Qed.

Lemma zero_match positions received expected : match_loop 0 positions received expected [] = [].
Proof.
  induction expected as [|th l IH]; [done|]. cbn [match_loop]. destruct (positions !! th) as [i|]; [|done].
  change (zlen []) with 0. by rewrite zero_window.
Qed.

Lemma zero_min n : 1 <= n <= 500 -> 1 <= min_ordered_txn_num 0 n.
Proof.
  assert (forallb (fun n => 1 <=? min_ordered_txn_num 0 (Z.of_nat n)) (seq 1 500) = true) as Hall by (vm_compute; reflexivity).
  intros Hn. rewrite forallb_forall in Hall. specialize (Hall (Z.to_nat n)). rewrite in_seq in Hall. specialize (Hall ltac:(lia)).
  rewrite Z2Nat.id in Hall by lia. zbool. lia.
Qed.

(** With a tolerance of zero every order is rejected.  The window in which the
    first transaction has to be found is then empty, so no position is ever matched:
    a backup that has executed transactions (up to 500 of them) rejects every order
    that the leader can propose, also its own one. *)
Theorem zero_tolerance_rejects expectedTxns receivedTxns :
  expectedTxns <> [] -> zlen expectedTxns <= 500 -> VerifyTxnOrderWTolerance 0 expectedTxns receivedTxns = false.
Proof.
  intros Hne Hlen. unfold VerifyTxnOrderWTolerance. destruct expectedTxns as [|x l]; [done|].
  rewrite zero_match. pose proof (zlen_nonneg l). assert (zlen (x :: l) = 1 + zlen l) as Hz by (unfold zlen; cbn; lia).
  pose proof (zero_min (zlen (x :: l)) ltac:(lia)). change (zlen []) with 0. zbool. lia.
Qed.

(** ** Hashes of a block *)

Section hashes.
Context `{OpenSSL} {J PubKey : Type}.

(** [ComputeRoot] of a vector of hashes *)
Definition ComputeRoot (hashes : list bytes) : bytes :=
  match hashes with
  | [] => zero_hash
  | _ => SHA256 (foldl SHA2.Update SHA2.Reset hashes)
  end.

(** [TransactionWithReceipt::ComputeTransactionReceiptsHash] *)
Definition receipts_hash (txrs : list (Transaction PubKey * TransactionReceipt J)) : bytes :=
  match txrs with
  | [] => zero_hash
  | _ => SHA256 (foldl (fun sha2 tr => SHA2.Update sha2 (m_tranReceiptStr tr.2)) SHA2.Reset txrs)
  end.

Fixpoint receipts_of (txnOrder : list Z) (txrs : gmap Z (Transaction PubKey * TransactionReceipt J))
  : option (list (Transaction PubKey * TransactionReceipt J)) :=
  match txnOrder with
  | [] => Some []
  | th :: txnOrder =>
      match txrs !! th with
      | None => None
      | Some tr => match receipts_of txnOrder txrs with None => None | Some l => Some (tr :: l) end
      end
  end.

Definition ComputeTransactionReceiptsHash (txnOrder : list Z) (txrs : gmap Z (Transaction PubKey * TransactionReceipt J))
  : option bytes :=
  match receipts_of txnOrder txrs with
  | None => None
  | Some vec => Some (receipts_hash vec)
  end.

End hashes.
