(* ===== verification/MicroBlock.v ===== *)
(** * Micro blocks: libNode/MicroBlockPreProcessing.cpp

    The leader of a shard executes transactions and composes a micro block; every
    backup executes the transactions of its own pool, and checks the proposed block
    against what it computed.  Sleeping, timers and the consensus objects around are
    not part of the model; the announcement that the Messenger decodes is an argument
    of the validator. *)

From stdpp Require Import base numbers gmap countable list sorting.
From S2P Require Import Prelude OpenSSL Schnorr LevelDB Json Receipt TxnPool AccountStore ConsensusMessages ConsensusCommon BlockChain Blocks TxnOrder ContractStorage ContractAccount AccountStoreSC ContractProperties AccountMessages StateDelta TxnSelection TxnExecution.
Open Scope Z_scope.

(** The encoding of [ProtoCommittee], a list of keys. *)
Class CommitteeProto := committee_proto : list bytes -> bytes.

(** ** Time stamps: libUtils/TimestampVerifier.h *)

Section time.
Context `{SafeMath} (SYS_TIMESTAMP_VARIANCE_IN_SECONDS CONSENSUS_OBJECT_TIMEOUT : Z).

Definition is_timestamp_in_range (timestamp loBound hiBound : Z) : bool :=
  (timestamp >=? loBound) && (timestamp <=? hiBound).

(** The clock is read three times.  The products are of type [uint64_t] for the lower
    bound; the variance alone is multiplied as [unsigned int]. *)
Definition VerifyTimestamp (timestamp_in_microsec timeout_in_sec : Z) (clock : Z * Z * Z) : bool :=
  let '(t1, t2, t3) := clock in
  let loBound :=
    if t1 >=? u64 (u64 (SYS_TIMESTAMP_VARIANCE_IN_SECONDS + timeout_in_sec) * 1000000)
    then u64 (t2 - u32 (u32 (SYS_TIMESTAMP_VARIANCE_IN_SECONDS + CONSENSUS_OBJECT_TIMEOUT) * 1000000))
    else 0 in
  let '(ok, hiBound) := sm_add 64 t3 (u32 (SYS_TIMESTAMP_VARIANCE_IN_SECONDS * 1000000)) 0 in
  let hiBound := if ok : bool then hiBound else 2 ^ 64 - 1 in
  is_timestamp_in_range timestamp_in_microsec loBound hiBound.

End time.

(** [Mediator::CheckWhetherBlockIsLatest]; the sum is of type [uint64_t]. *)
Definition CheckWhetherBlockIsLatest (latestDSBlockNum currentEpochNum dsblockNum epochNum : Z) : bool :=
  if dsblockNum <? u64 (latestDSBlockNum + 1) then false
  else if dsblockNum >? u64 (latestDSBlockNum + 1) then false
  else if epochNum <? currentEpochNum then false
  else if epochNum >? currentEpochNum then false
  else true.

(** [Node::LEGITIMACYRESULT] *)
Definition SUCCESS : Z := 0.
Definition MISSEDTXN : Z := 1.
Definition WRONGORDER : Z := 2.
Definition SERIALIZATIONERROR : Z := 3.
Definition DESERIALIZATIONERROR : Z := 4.

Section microblock.
Context `{Hssl : OpenSSL} `{Hproto : StateProto} {DB : Type} `{Hdb : leveldb DB} {J : Type} `{Hjson : Json J}.
Context `{Hcast : LexicalCast} `{Hwriter : ReceiptWriter J} `{Hmath : SafeMath} {T : Type} `{Htrie : Trie T}.
Context `{Hacc : AccountProto} {W : Type} `{Henv : Environment W} `{Hheader : HeaderProto MicroBlockHeader}.
Context `{Hcommittee : CommitteeProto} `{Heq : !EqDecision PubKey} `{Hcount : !Countable PubKey}.
Context (CONTRACT_STATE_VERSION ACCOUNT_VERSION MAX_CODE_SIZE_IN_BYTES : Z) (index_fuel : nat) (scilla : ScillaConfig)
  (gas : GasConfig) (GetAddressFromPublicKey : PubKey -> Z).
Local Abbreviation Store := (AccountStore T DB W).

(** What a node reads of the mediator, the directory service and the configuration. *)
Record MicroContext := mkMicroContext {
  mc_lookup : bool;               (** [LOOKUP_NODE_MODE] *)
  mc_version : Z;                 (** [MICROBLOCK_VERSION] *)
  mc_gasLimit : Z;                (** [MICROBLOCK_GAS_LIMIT] *)
  mc_validator : ValidatorContext;
  mc_populating : Populating;
  mc_isVacuousEpoch : bool;
  mc_totalTxnFees : Z;
  mc_coinbase : Z;                (** [COINBASE_REWARD_PER_DS] *)
  mc_lastTxHeaderHash : bytes;    (** of the last final block: the hash of its header *)
  mc_lastTxBlockHash : bytes;     (** and its [GetBlockHash] *)
  mc_dsBlockNum : Z;              (** of the last directory block, and its difficulties *)
  mc_difficulty : Z;
  mc_dsDifficulty : Z;
  mc_targets : Z * Z * Z;         (** shard and directory difficulty, block number *)
  mc_shards : DequeOfShard;
  mc_DSCommittee : list (PubKey * Peer.Peer);
  mc_selfKey : PubKey;
  mc_stateDeltaFromShards : bytes;
  mc_tolerance : Z;               (** [TXN_MISORDER_TOLERANCE_IN_PERCENT] *)
  mc_variance : Z;                (** [SYS_TIMESTAMP_VARIANCE_IN_SECONDS] *)
  mc_timeout : Z;                 (** [CONSENSUS_OBJECT_TIMEOUT] *)
  mc_missingMsg : list Z -> option bytes  (** [Messenger::SetNodeMissingTxnsErrorMsg] *)
}.

Record MicroNode := mkMicroNode {
  mn_store : Store;
  mn_txns : NodeTxns PubKey J;
  m_microblock : option MicroBlock;
  mn_errorCode : option ConsensusErrorCode;
  m_txn_distribute_window_open : bool
}.

Definition mn_set_store n s : MicroNode :=
  mkMicroNode s (mn_txns n) (m_microblock n) (mn_errorCode n) (m_txn_distribute_window_open n).
Definition mn_set_txns n t : MicroNode :=
  mkMicroNode (mn_store n) t (m_microblock n) (mn_errorCode n) (m_txn_distribute_window_open n).
Definition mn_set_block n b : MicroNode :=
  mkMicroNode (mn_store n) (mn_txns n) b (mn_errorCode n) (m_txn_distribute_window_open n).
Definition mn_set_window n w : MicroNode :=
  mkMicroNode (mn_store n) (mn_txns n) (m_microblock n) (mn_errorCode n) w.
(** [m_consensusObject->SetConsensusErrorCode] *)
Definition mn_set_error n e : MicroNode :=
  mkMicroNode (mn_store n) (mn_txns n) (m_microblock n) (Some e) (m_txn_distribute_window_open n).

Implicit Types (c : MicroContext) (n : MicroNode).

Definition MicroBlockHeader_default : MicroBlockHeader :=
  mkMicroHeader BlockHeaderBase_default 0 0 0 0 (u64 (-1)) zero_hash zero_hash zero_hash 0 PubKey_default INIT_BLOCK_NUMBER.
Definition MicroBlock_default : MicroBlock := mkMicroBlock BlockBase_default MicroBlockHeader_default [].

Definition MicroBlock_new (now : Z) (header : MicroBlockHeader) (tranHashes : list bytes) (cosigs : CoSignatures) : MicroBlock :=
  mkMicroBlock (mkBlockBase (GetMyHash header) cosigs now) header tranHashes.

(** [Messenger::GetShardHash], [Messenger::GetDSCommitteeHash] *)
Definition keys_hash (keys : list PubKey) : bytes :=
  SHA256 (SHA2.Update SHA2.Reset
    (proto_write (committee_proto ((fun k => SerializableToProtobufByteArray (PubKey_Serialize k)) <$> keys)) [] 0).2).
Definition GetShardHash (shard : Shard) : bytes := keys_hash (shard_keys shard).
Definition GetDSCommitteeHash (committee : list (PubKey * Peer.Peer)) : bytes := keys_hash committee.*1.

(** The hash of the committee that signs the block; [m_shards.at(shardId)] throws. *)
Definition own_committee_hash c : outcome bytes :=
  if vc_isDS (mc_validator c) then Ret (GetDSCommitteeHash (mc_DSCommittee c))
  else shard ← at_ (mc_shards c) (vc_shardId (mc_validator c)); Ret (GetShardHash shard).

(** The fees, or in the last epoch before a new directory block the total reward. *)
Definition rewards_of c (txnFees : Z) : Z :=
  if mc_isVacuousEpoch c && vc_isDS (mc_validator c)
  then (sm_add 128 (mc_totalTxnFees c) (mc_coinbase c) 0).2
  else txnFees.

Definition hash_bytes (h : Z) : bytes := be_split 32 h.

Definition ComposeMicroBlock c (now : Z) n : outcome (bool * MicroNode) :=
  if mc_lookup c then Ret (true, n)
  else
    let txns := mn_txns n in
    let rewards := rewards_of c (m_txnFees txns) in
    let stateDeltaHash := hash_bytes (GetStateDeltaHash (mn_store n)) in
    committeeHash ← own_committee_hash c;
    let txRootHash := ComputeRoot (hash_bytes <$> m_TxnOrder txns) in
    let numTxs := u32 (Z.of_nat (size (t_processedTransactions txns))) in
    if negb (numTxs =? zlen (m_TxnOrder txns)) then Ret (false, n)
    else
      match ComputeTransactionReceiptsHash (m_TxnOrder txns) (t_processedTransactions txns) with
      | None => Ret (false, n)
      | Some txReceiptHash =>
          let header :=
            mkMicroHeader (mkHeaderBase (mc_version c) committeeHash (mc_lastTxHeaderHash c))
              (vc_shardId (mc_validator c)) (mc_gasLimit c) (m_gasUsedTotal txns) rewards
              (vc_epochNum (mc_validator c)) txRootHash stateDeltaHash txReceiptHash numTxs (mc_selfKey c)
              (mc_dsBlockNum c) in
          Ret (true, mn_set_block n (Some (MicroBlock_new now header (hash_bytes <$> m_TxnOrder txns) (CoSignatures_new 1))))
      end.

(** ** The two sides of the consensus on a micro block *)

(** Transactions are processed, except in the last epoch and before the targets are
    met. *)
Definition processes_txns c : bool :=
  let '(shardTarget, dsTarget, numTarget) := mc_targets c in
  negb (mc_isVacuousEpoch c) &&
  (((mc_difficulty c >=? shardTarget) && (mc_dsDifficulty c >=? dsTarget)) || (mc_dsBlockNum c >=? numTarget)).

Local Abbreviation executor c :=
  (node_executor CONTRACT_STATE_VERSION ACCOUNT_VERSION index_fuel scilla gas GetAddressFromPublicKey (mc_validator c)).

(** [RunConsensusOnMicroBlockWhenShardLeader], up to the consensus object. *)
Definition leader_composes c (fuel : nat) (timeout : nat -> bool) (now : Z) n : outcome (bool * MicroNode) :=
  if mc_lookup c then Ret (true, n)
  else
    let n := mn_set_window n false in
    '(ok, n) ← (if processes_txns c then
                  '(s, txns) ← @ProcessTransactionWhenShardLeader _ _ _ _ _ _ Store (executor c) GetAddressFromPublicKey
                                (mc_gasLimit c) fuel timeout (mc_populating c) (mn_store n) (mn_txns n);
                  let n := mn_set_txns n txns in
                  '(ok, s) ← SerializeDelta ACCOUNT_VERSION s;
                  Ret (ok, mn_set_store n s)
                else Ret (true, n));
    if negb (ok : bool) then Ret (false, n) else ComposeMicroBlock c now n.

(** [RunConsensusOnMicroBlockWhenShardBackup], up to the consensus object. *)
Definition backup_processes c (fuel : nat) (timeout : nat -> bool) n : outcome MicroNode :=
  if mc_lookup c then Ret n
  else if negb (vc_isDS (mc_validator c)) && processes_txns c then
    '(s, txns) ← @ProcessTransactionWhenShardBackup _ _ _ _ _ _ Store (executor c) GetAddressFromPublicKey
                  (mc_gasLimit c) fuel timeout (mc_populating c) (mn_store n) (mn_txns n);
    Ret (mn_set_store (mn_set_txns n txns) s)
  else Ret n.

(** [Node::CleanCreatedTransaction], on the members modelled here. *)
Definition CleanCreatedTransaction n : MicroNode :=
  mn_set_txns n (mkNodeTxns pool_clear pool_clear ∅ (m_expectedTranOrdering (mn_txns n)) ∅ ∅ [] 0 0).

(** ** The checks of a backup *)

(** The hashes that are not in the pool, and whether the order is accepted. *)
Definition VerifyTxnsOrdering c n (tranHashes : list Z) : bool * list Z :=
  let missing := filter (fun h => pool_exist (m_createdTxns (mn_txns n)) h = false) tranHashes in
  match missing with
  | _ :: _ => (true, missing)
  | [] => (VerifyTxnOrderWTolerance (mc_tolerance c) (m_expectedTranOrdering (mn_txns n)) tranHashes, [])
  end.

(** The result is an [unsigned char]; a failure of the Messenger is reported as
    [false]. *)
Definition CheckLegitimacyOfTxnHashes c n (block : MicroBlock) (errorMsg : bytes) : outcome (Z * bytes * MicroNode) :=
  if mc_lookup c then Ret (1, errorMsg, n)
  else if processes_txns c then
    let '(ok, missing) := VerifyTxnsOrdering c n (be_combine <$> mb_tranHashes block) in
    if negb ok then Ret (WRONGORDER, errorMsg, n)
    else
      match missing with
      | _ :: _ =>
          match mc_missingMsg c missing with
          | None => Ret (0, errorMsg, n)
          | Some errorMsg =>
              let s := InitTemp (mn_store n) in
              if vc_isDS (mc_validator c) then
                '(ok, s) ← DeserializeDeltaTemp ACCOUNT_VERSION MAX_CODE_SIZE_IN_BYTES s (mc_stateDeltaFromShards c) 0;
                if negb (ok : bool) then Ret (DESERIALIZATIONERROR, errorMsg, mn_set_store n s)
                else '(_, s) ← SerializeDelta ACCOUNT_VERSION s; Ret (MISSEDTXN, errorMsg, mn_set_store n s)
              else Ret (MISSEDTXN, errorMsg, mn_set_store n s)
          end
      | [] =>
          '(ok, s) ← SerializeDelta ACCOUNT_VERSION (mn_store n);
          Ret (if ok : bool then SUCCESS else SERIALIZATIONERROR, errorMsg, mn_set_store n s)
      end
  else Ret (SUCCESS, errorMsg, n).

Definition CheckMicroBlockVersion c n (block : MicroBlock) : bool * MicroNode :=
  if mc_lookup c then (true, n)
  else if hb_version (mbh_base (mb_header block)) =? mc_version c then (true, n)
  else (false, mn_set_error n INVALID_MICROBLOCK_VERSION).

Definition CheckMicroBlockshardId c n (block : MicroBlock) : outcome (bool * MicroNode) :=
  if mc_lookup c then Ret (true, n)
  else if negb (mbh_shardId (mb_header block) =? vc_shardId (mc_validator c)) then
    Ret (false, mn_set_error n INVALID_MICROBLOCK_SHARD_ID)
  else
    committeeHash ← own_committee_hash c;
    if bool_decide (committeeHash = hb_committeeHash (mbh_base (mb_header block))) then Ret (true, n)
    else Ret (false, mn_set_error n INVALID_COMMHASH).

Definition CheckMicroBlockTimestamp c (block : MicroBlock) (clock : Z * Z * Z) : bool :=
  if mc_lookup c then true
  else VerifyTimestamp (mc_variance c) (mc_timeout c) (bb_timestamp (mb_base block)) (mc_timeout c) clock.

Definition CheckMicroBlockHashes c n (block : MicroBlock) (errorMsg : bytes) : outcome (bool * bytes * MicroNode) :=
  if mc_lookup c then Ret (true, errorMsg, n)
  else if negb (u32 (zlen (mb_tranHashes block)) =? mbh_numTxs (mb_header block)) then
    Ret (false, errorMsg, mn_set_error n INVALID_BLOCK_HASH)
  else
    '(result, errorMsg, n) ← CheckLegitimacyOfTxnHashes c n block errorMsg;
    if result =? SUCCESS then
      if negb (m_gasUsedTotal (mn_txns n) =? mbh_gasUsed (mb_header block)) then
        Ret (false, errorMsg, mn_set_error n WRONG_GASUSED)
      else if negb (rewards_of c (m_txnFees (mn_txns n)) =? mbh_rewards (mb_header block)) then
        Ret (false, errorMsg, mn_set_error n WRONG_REWARDS)
      else Ret (true, errorMsg, n)
    else if result =? MISSEDTXN then Ret (false, errorMsg, mn_set_error n MISSING_TXN)
    else if result =? WRONGORDER then Ret (false, errorMsg, mn_set_error n WRONG_TXN_ORDER)
    else Ret (false, errorMsg, n).

Definition CheckMicroBlockTxnRootHash c n (block : MicroBlock) : bool * MicroNode :=
  if mc_lookup c then (true, n)
  else if bool_decide (ComputeRoot (mb_tranHashes block) = mbh_txRootHash (mb_header block)) then (true, n)
  else (false, mn_set_error n INVALID_MICROBLOCK_ROOT_HASH).

Definition CheckMicroBlockStateDeltaHash c n (block : MicroBlock) : bool * MicroNode :=
  if mc_lookup c then (true, n)
  else if bool_decide (hash_bytes (GetStateDeltaHash (mn_store n)) = mbh_stateDeltaHash (mb_header block)) then (true, n)
  else (false, mn_set_error n INVALID_MICROBLOCK_STATE_DELTA_HASH).

Definition CheckMicroBlockTranReceiptHash n (block : MicroBlock) : bool * MicroNode :=
  match ComputeTransactionReceiptsHash (be_combine <$> mb_tranHashes block) (t_processedTransactions (mn_txns n)) with
  | None => (false, n)
  | Some expected =>
      if bool_decide (expected = mbh_tranReceiptHash (mb_header block)) then (true, n)
      else (false, mn_set_error n INVALID_MICROBLOCK_TRAN_RECEIPT_HASH)
  end.

Definition CheckMicroBlockValidity c n (block : MicroBlock) (errorMsg : bytes) (clock : Z * Z * Z)
  : outcome (bool * bytes * MicroNode) :=
  if mc_lookup c then Ret (true, errorMsg, n)
  else
    let '(ok, n) := CheckMicroBlockVersion c n block in
    if negb ok then Ret (false, errorMsg, n)
    else
      '(ok, n) ← CheckMicroBlockshardId c n block;
      if negb (ok : bool) then Ret (false, errorMsg, n)
      else if negb (CheckMicroBlockTimestamp c block clock) then Ret (false, errorMsg, n)
      else
        '(ok, errorMsg, n) ← CheckMicroBlockHashes c n block errorMsg;
        if negb (ok : bool) then Ret (false, errorMsg, n)
        else
          let '(ok, n) := CheckMicroBlockTxnRootHash c n block in
          if negb ok then Ret (false, errorMsg, n)
          else
            let '(ok, n) := CheckMicroBlockStateDeltaHash c n block in
            if negb ok then Ret (false, errorMsg, n)
            else let '(ok, n) := CheckMicroBlockTranReceiptHash n block in Ret (ok, errorMsg, n).

(** [announced]: the block and the bytes to be co-signed that
    [GetNodeMicroBlockAnnouncement] reads from the message. *)
Definition MicroBlockValidator c n (announced : option (MicroBlock * bytes)) (errorMsg : bytes) (clock : Z * Z * Z)
  : outcome (bool * bytes * MicroNode) :=
  if mc_lookup c then Ret (true, errorMsg, n)
  else
    match announced with
    | None => Ret (false, errorMsg, mn_set_block n (Some MicroBlock_default))
    | Some (block, _) =>
        let n := mn_set_window (mn_set_block n (Some block)) false in
        if negb (CheckWhetherBlockIsLatest (mc_dsBlockNum c) (vc_epochNum (mc_validator c))
                   (u64 (mbh_dsBlockNum (mb_header block) + 1)) (mbh_epochNum (mb_header block)))
        then Ret (false, errorMsg, n)
        else if negb (bool_decide (GetMyHash (mb_header block) = bb_blockHash (mb_base block))) then Ret (false, errorMsg, n)
        else
          '(ok, errorMsg, n) ← CheckMicroBlockValidity c n block errorMsg clock;
          if negb (ok : bool) then Ret (false, errorMsg, mn_set_block n None) else Ret (true, errorMsg, n)
    end.

(** ** Transactions that a backup misses *)

(** The transactions that the leader sends; [m_processedTransactions[epochNum]]
    creates an entry that is not there. *)
Definition OnNodeMissingTxns c n (missing : list Z) (epochNum : Z) : list (Transaction PubKey) * MicroNode :=
  let txns := mn_txns n in
  let '(processed, txns) :=
    if epochNum =? vc_epochNum (mc_validator c) then (t_processedTransactions txns, txns)
    else
      let entry := default ∅ (m_processedTransactions txns !! epochNum) in
      (entry, mkNodeTxns (m_createdTxns txns) (t_createdTxns txns) (m_unconfirmedTxns txns) (m_expectedTranOrdering txns)
                (<[epochNum := entry]> (m_processedTransactions txns)) (t_processedTransactions txns) (m_TxnOrder txns)
                (m_gasUsedTotal txns) (m_txnFees txns)) in
  (omap (fun h => fst <$> processed !! h) missing, mn_set_txns n txns).

End microblock.
