(* ===== verification/MicroBlockProperties.v ===== *)
(** * Agreement on micro blocks

    A backup accepts the block of an honest leader that started from the same accounts
    and the same pool; and what a backup accepts is what it has computed itself. *)

From stdpp Require Import base numbers gmap countable list sorting.
From S2P Require Import Prelude OpenSSL Schnorr LevelDB Json Receipt TxnPool AccountStore ConsensusMessages ConsensusCommon BlockChain Blocks TxnOrder ContractStorage ContractAccount AccountStoreSC ContractProperties AccountMessages StateDelta DeltaProperties ExecutionProperties TxnSelection SelectionProperties TxnExecution MicroBlock.
Open Scope Z_scope.

(** ** Time stamps *)

Lemma timestamp_in_time `{Hsm : SafeMathSpec} variance timeout t1 t2 t3 now :
  0 <= variance -> 0 <= timeout -> (variance + timeout) * 1000000 < 2 ^ 32 ->
  0 <= t1 <= t2 -> t2 < 2 ^ 64 -> 0 <= t3 < 2 ^ 64 -> 0 <= now < 2 ^ 64 ->
  t2 - (variance + timeout) * 1000000 <= now <= t3 + variance * 1000000 ->
  VerifyTimestamp variance timeout now timeout (t1, t2, t3) = true.
Proof.
  intros Hv Ht Hvt H1 H2 H3 Hn Hr. unfold VerifyTimestamp.
  rewrite (wrap_small 32 (variance + timeout)), (wrap_small 32 ((variance + timeout) * 1000000)),
    (wrap_small 32 (variance * 1000000)), (wrap_small 64 (variance + timeout)),
    (wrap_small 64 ((variance + timeout) * 1000000)) by (unfold in_range; nia).
  rewrite sm_add_spec by nia. set (lo := if _ : bool then _ else 0).
  assert (lo <= now) as Hlo.
  { unfold lo. destruct (Z.geb_spec t1 ((variance + timeout) * 1000000)); [|lia]. rewrite wrap_small by (unfold in_range; lia). lia. }
  unfold is_timestamp_in_range. destruct (Z.ltb_spec (t3 + variance * 1000000) (2 ^ 64));
    (destruct (Z.geb_spec now lo); [|lia]); cbn [andb]; apply Z.leb_le; lia.
Qed.

Section agreement.
Context `{Hssl : OpenSSL} `{Hproto : StateProto} {DB : Type} `{Hdb : leveldb DB} {J : Type} `{Hjson : Json J}.
Context `{Hcast : LexicalCast} `{Hlex : !LexicalCastSpec} `{Hwriter : ReceiptWriter J} `{Hmath : SafeMath} `{Hsm : !SafeMathSpec}.
Context {T : Type} `{Htrie : Trie T} `{Htspec : !TrieSpec T} `{Hacc : AccountProto} {W : Type} `{Henv : Environment W}.
Context `{Hheader : HeaderProto MicroBlockHeader} `{Hcommittee : CommitteeProto}.
Context `{Heq : !EqDecision PubKey} `{Hcount : !Countable PubKey}.
Context (CONTRACT_STATE_VERSION ACCOUNT_VERSION MAX_CODE_SIZE_IN_BYTES : Z) (index_fuel : nat) (scilla : ScillaConfig)
  (gas : GasConfig) (GetAddressFromPublicKey : PubKey -> Z).
Local Abbreviation Node := (@MicroNode _ DB J T W _ _).
Implicit Types (c : MicroContext) (n : Node).

(** Two nodes of a shard that agree on what the epoch is about. *)
Record same_epoch c c' : Prop := {
  sx_lookup : mc_lookup c = false;
  sx_lookup' : mc_lookup c' = false;
  sx_version : mc_version c' = mc_version c;
  sx_gasLimit : mc_gasLimit c' = mc_gasLimit c;
  sx_validator : mc_validator c' = mc_validator c;
  sx_populating : mc_populating c' = mc_populating c;
  sx_vacuous : mc_isVacuousEpoch c' = mc_isVacuousEpoch c;
  sx_fees : mc_totalTxnFees c' = mc_totalTxnFees c;
  sx_coinbase : mc_coinbase c' = mc_coinbase c;
  sx_dsBlock : mc_dsBlockNum c' = mc_dsBlockNum c;
  sx_difficulty : mc_difficulty c' = mc_difficulty c;
  sx_dsDifficulty : mc_dsDifficulty c' = mc_dsDifficulty c;
  sx_targets : mc_targets c' = mc_targets c;
  sx_shards : mc_shards c' = mc_shards c;
  sx_committee : (mc_DSCommittee c').*1 = (mc_DSCommittee c).*1
}.

Lemma same_processes c c' : same_epoch c c' -> processes_txns c' = processes_txns c.
Proof.
  intros [_ _ _ _ _ _ Hv _ _ Hd Hf Hdf Ht _ _]. unfold processes_txns. by rewrite Hv, Hd, Hf, Hdf, Ht.
Qed.

Lemma same_committee_hash c c' : same_epoch c c' -> own_committee_hash c' = own_committee_hash c.
Proof. intros Hs. unfold own_committee_hash, GetDSCommitteeHash. by rewrite (sx_validator _ _ Hs), (sx_shards _ _ Hs), (sx_committee _ _ Hs). Qed.

Lemma same_rewards c c' fees : same_epoch c c' -> rewards_of c' fees = rewards_of c fees.
Proof.
  intros Hs. unfold rewards_of. by rewrite (sx_vacuous _ _ Hs), (sx_validator _ _ Hs), (sx_fees _ _ Hs), (sx_coinbase _ _ Hs).
Qed.

(** Hashes as bytes. *)
Lemma hash_bytes_inv h : 0 <= h < 2 ^ 256 -> be_combine (hash_bytes h) = h.
Proof. intros Hh. unfold hash_bytes. rewrite be_combine_split. by apply Z.mod_small. Qed.

Lemma hashes_inv l : Forall (fun h => 0 <= h < 2 ^ 256) l -> be_combine <$> (hash_bytes <$> l) = l.
Proof. induction 1 as [|h l Hh _ IH]; [done|]. cbn [fmap list_fmap] in *. by rewrite hash_bytes_inv, IH. Qed.

(** Blocks that pass all checks of a backup whose own results are the same. *)
Lemma order_in_pool c n order :
  (forall h, h ∈ order -> pool_exist (m_createdTxns (mn_txns n)) h = true) ->
  VerifyTxnsOrdering c n order = (VerifyTxnOrderWTolerance (mc_tolerance c) (m_expectedTranOrdering (mn_txns n)) order, []).
Proof.
  intros Hall. unfold VerifyTxnsOrdering.
  assert (filter (fun h => pool_exist (m_createdTxns (mn_txns n)) h = false) order = []) as ->; [|done].
  induction order as [|h l IH]; [done|]. rewrite filter_cons_False.
  - apply IH. intros h' Hh'. apply Hall. by right.
  - rewrite Hall by (by left). done.
Qed.

Local Abbreviation executor c :=
  (node_executor CONTRACT_STATE_VERSION ACCOUNT_VERSION index_fuel scilla gas GetAddressFromPublicKey (mc_validator c)).
Local Abbreviation leader_composes :=
  (leader_composes CONTRACT_STATE_VERSION ACCOUNT_VERSION index_fuel scilla gas GetAddressFromPublicKey).
Local Abbreviation backup_processes :=
  (backup_processes CONTRACT_STATE_VERSION ACCOUNT_VERSION index_fuel scilla gas GetAddressFromPublicKey).

(** The block that a leader composes from the results [order], [processed], [used] and
    [fees] and the state delta of [s]. *)
Record composed c (now : Z) (s : AccountStore T DB W) (order : list Z)
    (processed : gmap Z (Transaction PubKey * TransactionReceipt J)) (used fees : Z) (block : MicroBlock) : Prop := {
  co_hash : bb_blockHash (mb_base block) = GetMyHash (mb_header block);
  co_time : bb_timestamp (mb_base block) = now;
  co_version : hb_version (mbh_base (mb_header block)) = mc_version c;
  co_prevHash : hb_prevHash (mbh_base (mb_header block)) = mc_lastTxHeaderHash c;
  co_committee : own_committee_hash c = Ret (hb_committeeHash (mbh_base (mb_header block)));
  co_shard : mbh_shardId (mb_header block) = vc_shardId (mc_validator c);
  co_epoch : mbh_epochNum (mb_header block) = vc_epochNum (mc_validator c);
  co_ds : mbh_dsBlockNum (mb_header block) = mc_dsBlockNum c;
  co_hashes : mb_tranHashes block = hash_bytes <$> order;
  co_num : mbh_numTxs (mb_header block) = zlen order;
  co_num_small : zlen order < 2 ^ 32;
  co_gas : mbh_gasUsed (mb_header block) = used;
  co_rewards : mbh_rewards (mb_header block) = rewards_of c fees;
  co_root : mbh_txRootHash (mb_header block) = ComputeRoot (hash_bytes <$> order);
  co_delta : mbh_stateDeltaHash (mb_header block) = hash_bytes (GetStateDeltaHash s);
  co_receipts : ComputeTransactionReceiptsHash order processed = Some (mbh_tranReceiptHash (mb_header block))
}.

Lemma ComposeMicroBlock_spec c now n n' :
  mc_lookup c = false -> ComposeMicroBlock c now n = Ret (true, n') ->
  exists block, n' = mn_set_block n (Some block) /\
    composed c now (mn_store n) (m_TxnOrder (mn_txns n)) (t_processedTransactions (mn_txns n))
      (m_gasUsedTotal (mn_txns n)) (m_txnFees (mn_txns n)) block.
Proof.
  intros Hl E. unfold ComposeMicroBlock in E. rewrite Hl in E. apply bind_Ret in E as (ch & Hch & E).
  set (num := u32 _) in E. assert (0 <= num < 2 ^ 32) as Hnum by (unfold num; apply Z.mod_pos_bound; lia).
  destruct (Z.eqb_spec num (zlen (m_TxnOrder (mn_txns n)))) as [Hn|]; cbn [negb] in E; [|done].
  destruct (ComputeTransactionReceiptsHash _ _) as [rh|] eqn:Er; [|done]. injection E as <-.
  eexists. split; [done|]. split; cbn; try done; lia.
Qed.

(** The checks, for a block that was composed from the same results. *)
Lemma validity_accepted c c' now block n order processed used fees s errorMsg clock :
  same_epoch c c' -> processes_txns c = true -> composed c now s order processed used fees block ->
  SerializeDelta ACCOUNT_VERSION (mn_store n) = Ret (true, s) ->
  m_expectedTranOrdering (mn_txns n) = order -> t_processedTransactions (mn_txns n) = processed ->
  m_gasUsedTotal (mn_txns n) = used -> m_txnFees (mn_txns n) = fees ->
  (forall h, h ∈ order -> pool_exist (m_createdTxns (mn_txns n)) h = true /\ 0 <= h < 2 ^ 256) ->
  NoDup order -> tolerates (mc_tolerance c') (zlen order) = true ->
  VerifyTimestamp (mc_variance c') (mc_timeout c') now (mc_timeout c') clock = true ->
  CheckMicroBlockValidity ACCOUNT_VERSION MAX_CODE_SIZE_IN_BYTES c' n block errorMsg clock = Ret (true, errorMsg, mn_set_store n s).
Proof.
  intros Hs Hpt Hc Hdelta Hexp Hproc Hused Hfees Hin Hnd Htol Htime. destruct Hc.
  assert (be_combine <$> mb_tranHashes block = order) as Hdec
    by (rewrite co_hashes0; apply hashes_inv, Forall_forall; intros h Hh; by apply Hin).
  unfold CheckMicroBlockValidity. rewrite (sx_lookup' _ _ Hs).
  unfold CheckMicroBlockVersion. rewrite (sx_lookup' _ _ Hs), co_version0, (sx_version _ _ Hs), Z.eqb_refl. cbn [negb].
  unfold CheckMicroBlockshardId. rewrite (sx_lookup' _ _ Hs), (sx_validator _ _ Hs), co_shard0, Z.eqb_refl. cbn [negb].
  rewrite (same_committee_hash _ _ Hs), co_committee0. cbn [mbind outcome_bind]. rewrite bool_decide_eq_true_2 by done. cbn [mbind outcome_bind negb].
  unfold CheckMicroBlockTimestamp. rewrite (sx_lookup' _ _ Hs), co_time0, Htime. cbn [negb].
  unfold CheckMicroBlockHashes. rewrite (sx_lookup' _ _ Hs), co_hashes0, co_num0. unfold zlen at 1. rewrite length_fmap.
  fold (zlen order). pose proof (zlen_nonneg order). rewrite (wrap_small 32 (zlen order)) by (unfold in_range; lia).
  rewrite Z.eqb_refl. cbn [negb].
  unfold CheckLegitimacyOfTxnHashes. rewrite (sx_lookup' _ _ Hs), (same_processes _ _ Hs), Hpt, Hdec.
  rewrite order_in_pool by (intros h Hh; by apply Hin). rewrite Hexp.
  rewrite same_order_accepted by done. cbn [negb]. rewrite Hdelta.
  cbn [mbind outcome_bind]. change (SUCCESS =? SUCCESS) with true. set (n2 := mn_set_store n s). cbv iota.
  change (m_gasUsedTotal (mn_txns n2)) with (m_gasUsedTotal (mn_txns n)).
  change (m_txnFees (mn_txns n2)) with (m_txnFees (mn_txns n)).
  rewrite Hused, Hfees, co_gas0, co_rewards0, (same_rewards _ _ _ Hs), !Z.eqb_refl. cbn [negb mbind outcome_bind].
  unfold CheckMicroBlockTxnRootHash. rewrite (sx_lookup' _ _ Hs), co_hashes0, co_root0, bool_decide_eq_true_2 by done. cbn [negb].
  unfold CheckMicroBlockStateDeltaHash. rewrite (sx_lookup' _ _ Hs). change (mn_store n2) with s.
  rewrite co_delta0, bool_decide_eq_true_2 by done. cbn [negb].
  unfold CheckMicroBlockTranReceiptHash. rewrite Hdec. change (mn_txns n2) with (mn_txns n). rewrite Hproc, co_receipts0.
  by rewrite bool_decide_eq_true_2.
Qed.

Lemma composed_accepted c c' now block n order processed used fees s errorMsg msg clock :
  same_epoch c c' -> processes_txns c = true -> composed c now s order processed used fees block ->
  SerializeDelta ACCOUNT_VERSION (mn_store n) = Ret (true, s) ->
  m_expectedTranOrdering (mn_txns n) = order -> t_processedTransactions (mn_txns n) = processed ->
  m_gasUsedTotal (mn_txns n) = used -> m_txnFees (mn_txns n) = fees ->
  (forall h, h ∈ order -> pool_exist (m_createdTxns (mn_txns n)) h = true /\ 0 <= h < 2 ^ 256) ->
  NoDup order -> tolerates (mc_tolerance c') (zlen order) = true ->
  VerifyTimestamp (mc_variance c') (mc_timeout c') now (mc_timeout c') clock = true ->
  exists n', MicroBlockValidator ACCOUNT_VERSION MAX_CODE_SIZE_IN_BYTES c' n (Some (block, msg)) errorMsg clock
               = Ret (true, errorMsg, n') /\ m_microblock n' = Some block /\ mn_store n' = s.
Proof.
  intros Hs Hpt Hc Hdelta Hexp Hproc Hused Hfees Hin Hnd Htol Htime.
  unfold MicroBlockValidator. rewrite (sx_lookup' _ _ Hs), (co_ds _ _ _ _ _ _ _ _ Hc), (co_epoch _ _ _ _ _ _ _ _ Hc), (sx_dsBlock _ _ Hs), (sx_validator _ _ Hs).
  assert (CheckWhetherBlockIsLatest (mc_dsBlockNum c) (vc_epochNum (mc_validator c)) (u64 (mc_dsBlockNum c + 1))
    (vc_epochNum (mc_validator c)) = true) as -> by (unfold CheckWhetherBlockIsLatest; rewrite !Z.ltb_irrefl, !Z.gtb_ltb, !Z.ltb_irrefl; done).
  cbn [negb]. rewrite bool_decide_eq_true_2 by (symmetry; apply Hc). cbn [negb].
  rewrite (validity_accepted c c' now block _ order processed used fees s errorMsg clock) by done.
  cbn [mbind outcome_bind negb]. eexists. split; [done|]. by split.
Qed.

(** ** An honest leader and an honest backup *)

(** What the selection leaves behind: the executed transactions are different and
    were in the pool. *)
Lemma selected_in_pool c fuel timeout n sel :
  gas_ok gas -> good (temp_of (mn_store n)) -> pool_ok GetAddressFromPublicKey (m_createdTxns (mn_txns n)) ->
  (2 * length (pending (m_createdTxns (mn_txns n))) < fuel)%nat ->
  @select_loop _ _ _ _ _ _ _ (executor c) GetAddressFromPublicKey (mc_gasLimit c) fuel timeout
    (@selection_start _ _ _ _ _ (executor c) (mc_populating c) (mn_store n) (mn_txns n) []) = Ret sel ->
  NoDup (sel_order sel) /\ (length (sel_order sel) <= length (pending (m_createdTxns (mn_txns n))))%nat /\
  forall h, h ∈ sel_order sel -> exists t, h = m_tranID t /\ t ∈ pending (m_createdTxns (mn_txns n)) /\
    pool_exist (m_createdTxns (mn_txns n)) h = true.
Proof.
  intros Hgas Hg Hp Hfuel E. pose proof (po_consistent _ _ Hp) as Hc.
  destruct (@selection_inv _ _ _ _ _ _ _ _ (executor c) GetAddressFromPublicKey (mc_gasLimit c)
    (node_executor_spec _ _ _ _ _ _ _ Hgas) fuel timeout (mc_populating c) (mn_store n) (mn_txns n) sel Hp Hg Hfuel E)
    as (rest & ex & Hinv & Hse).
  destruct (Hse [] []) as [_ _ -> _ _ _]. destruct Hinv as [_ [dropped Hall] _ _ _ _ _]. cbn [abs_pending abs_executed] in Hall.
  pose proof (pending_ids _ Hc) as Hid. rewrite Hall, !fmap_app in Hid. apply NoDup_app in Hid as (_ & _ & Hid).
  apply NoDup_app in Hid as (Hid & _). rewrite <- list_fmap_compose in Hid. split; [exact Hid|]. split.
  - rewrite Hall, !length_app, !length_fmap. lia.
  - intros h (e & -> & He)%list_elem_of_fmap. exists e.1. split; [done|].
    assert (e.1 ∈ pending (m_createdTxns (mn_txns n))) as Hin by (rewrite Hall; set_solver). split; [done|].
    apply elem_of_pending in Hin; [|done]. unfold pool_exist. by rewrite Hin.
Qed.


(** ** What a backup accepts *)

Lemma latest_inv dsBlock epoch d e :
  CheckWhetherBlockIsLatest dsBlock epoch d e = true -> d = u64 (dsBlock + 1) /\ e = epoch.
Proof.
  unfold CheckWhetherBlockIsLatest. rewrite !Z.gtb_ltb. intros E.
  destruct (Z.ltb_spec d (u64 (dsBlock + 1))); [done|]. destruct (Z.ltb_spec (u64 (dsBlock + 1)) d); [done|].
  destruct (Z.ltb_spec e epoch); [done|]. destruct (Z.ltb_spec epoch e); [done|]. lia.
Qed.

Lemma shardId_inv c n block n' :
  mc_lookup c = false -> CheckMicroBlockshardId c n block = Ret (true, n') ->
  n' = n /\ mbh_shardId (mb_header block) = vc_shardId (mc_validator c) /\
  own_committee_hash c = Ret (hb_committeeHash (mbh_base (mb_header block))).
Proof.
  intros Hl E. unfold CheckMicroBlockshardId in E. rewrite Hl in E.
  destruct (Z.eqb_spec (mbh_shardId (mb_header block)) (vc_shardId (mc_validator c))); [|done]. cbn [negb] in E.
  apply bind_Ret in E as (h & -> & E). case_bool_decide as Hh; [|done]. injection E as <-. by subst h.
Qed.

(** The check of the hashes, for a backup that has every transaction. *)
Lemma hashes_check_inv c n block errorMsg errorMsg' n' :
  mc_lookup c = false -> processes_txns c = true ->
  (forall h, h ∈ be_combine <$> mb_tranHashes block -> pool_exist (m_createdTxns (mn_txns n)) h = true) ->
  CheckMicroBlockHashes ACCOUNT_VERSION MAX_CODE_SIZE_IN_BYTES c n block errorMsg = Ret (true, errorMsg', n') ->
  exists s, n' = mn_set_store n s /\ SerializeDelta ACCOUNT_VERSION (mn_store n) = Ret (true, s) /\
    VerifyTxnOrderWTolerance (mc_tolerance c) (m_expectedTranOrdering (mn_txns n)) (be_combine <$> mb_tranHashes block) = true /\
    mbh_numTxs (mb_header block) = u32 (zlen (mb_tranHashes block)) /\
    mbh_gasUsed (mb_header block) = m_gasUsedTotal (mn_txns n) /\
    mbh_rewards (mb_header block) = rewards_of c (m_txnFees (mn_txns n)).
Proof.
  intros Hl Hpt Hall E. unfold CheckMicroBlockHashes in E. rewrite Hl in E.
  destruct (Z.eqb_spec (u32 (zlen (mb_tranHashes block))) (mbh_numTxs (mb_header block))) as [Hnum|]; [|done]. cbn [negb] in E.
  apply bind_Ret in E as ([[result em] n1] & Elg & E). unfold CheckLegitimacyOfTxnHashes in Elg.
  rewrite Hl, Hpt, order_in_pool in Elg by done. destruct (VerifyTxnOrderWTolerance _ _ _) eqn:Hord; cbn [negb] in Elg.
  2: { by injection Elg as <- <- <-. }
  apply bind_Ret in Elg as ([ok s] & Hs & Elg). injection Elg as <- <- <-. destruct ok; [|done].
  change (SUCCESS =? SUCCESS) with true in E. cbv iota in E. cbn [mn_set_store mn_txns] in E.
  destruct (Z.eqb_spec (m_gasUsedTotal (mn_txns n)) (mbh_gasUsed (mb_header block))) as [Hg|]; [|done]. cbn [negb] in E.
  destruct (Z.eqb_spec (rewards_of c (m_txnFees (mn_txns n))) (mbh_rewards (mb_header block))) as [Hr|]; [|done].
  injection E as <- <-. exists s. by repeat (split; [done|]).
Qed.

(** C15: A backup accepts only what it computed itself.  When, in an epoch in which
    transactions are processed (none are in a vacuous epoch), the checks of a shard
    backup accept a block and the backup had every transaction of the block, the
    block carries the version, the shard, the epoch and the number of the directory
    block that the backup expects, the hash of the shard's members, the gas and the
    fees that the backup counted, the state delta that it computed and the receipts
    that it produced; and the order of the block's transactions is within the
    tolerance. *)
Theorem accepted_microblock_matches c n block msg errorMsg clock errorMsg' n' :
  mc_lookup c = false -> vc_isDS (mc_validator c) = false -> processes_txns c = true ->
  (forall h, h ∈ be_combine <$> mb_tranHashes block -> pool_exist (m_createdTxns (mn_txns n)) h = true) ->
  MicroBlockValidator ACCOUNT_VERSION MAX_CODE_SIZE_IN_BYTES c n (Some (block, msg)) errorMsg clock = Ret (true, errorMsg', n') ->
  exists s, SerializeDelta ACCOUNT_VERSION (mn_store n) = Ret (true, s) /\
    hb_version (mbh_base (mb_header block)) = mc_version c /\
    own_committee_hash c = Ret (hb_committeeHash (mbh_base (mb_header block))) /\
    mbh_shardId (mb_header block) = vc_shardId (mc_validator c) /\
    mbh_epochNum (mb_header block) = vc_epochNum (mc_validator c) /\
    u64 (mbh_dsBlockNum (mb_header block) + 1) = u64 (mc_dsBlockNum c + 1) /\
    mbh_numTxs (mb_header block) = u32 (zlen (mb_tranHashes block)) /\
    mbh_gasUsed (mb_header block) = m_gasUsedTotal (mn_txns n) /\
    mbh_rewards (mb_header block) = m_txnFees (mn_txns n) /\
    mbh_txRootHash (mb_header block) = ComputeRoot (mb_tranHashes block) /\
    mbh_stateDeltaHash (mb_header block) = hash_bytes (GetStateDeltaHash s) /\
    ComputeTransactionReceiptsHash (be_combine <$> mb_tranHashes block) (t_processedTransactions (mn_txns n))
      = Some (mbh_tranReceiptHash (mb_header block)) /\
    VerifyTxnOrderWTolerance (mc_tolerance c) (m_expectedTranOrdering (mn_txns n)) (be_combine <$> mb_tranHashes block) = true /\
    bb_blockHash (mb_base block) = GetMyHash (mb_header block).
Proof.
  intros Hl Hds Hpt Hall E. unfold MicroBlockValidator in E. rewrite Hl in E.
  set (n1 := mn_set_window _ false) in E. destruct (CheckWhetherBlockIsLatest _ _ _ _) eqn:Hlat in E; [|done]. cbn [negb] in E.
  apply latest_inv in Hlat as [Hd He]. case_bool_decide as Hh; [|done]. cbn [negb] in E.
  apply bind_Ret in E as ([[ok em] n2] & E & Eok). destruct ok; [|done]. clear Eok.
  unfold CheckMicroBlockValidity in E. rewrite Hl in E.
  unfold CheckMicroBlockVersion in E. rewrite Hl in E.
  destruct (Z.eqb_spec (hb_version (mbh_base (mb_header block))) (mc_version c)) as [Hver|]; [|done]. cbn [negb] in E.
  apply bind_Ret in E as ([ok n3] & Esh & E). destruct ok; [|done]. cbn [negb] in E.
  apply shardId_inv in Esh as (-> & Hsh & Hch); [|done].
  destruct (CheckMicroBlockTimestamp _ _ _); [|done]. cbn [negb] in E.
  apply bind_Ret in E as ([[ok em3] n4] & Eha & E). destruct ok; [|done]. cbn [negb] in E.
  apply hashes_check_inv in Eha as (s & -> & Hdelta & Hord & Hnum & Hgas & Hrew); [|done..].
  unfold CheckMicroBlockTxnRootHash in E. rewrite Hl in E. case_bool_decide as Hroot; [|done]. cbn [negb] in E.
  unfold CheckMicroBlockStateDeltaHash in E. rewrite Hl in E. case_bool_decide as Hsd; [|done]. cbn [negb] in E.
  unfold CheckMicroBlockTranReceiptHash in E. cbn [mn_set_store mn_txns mn_store] in E, Hsd.
  change (mn_txns n1) with (mn_txns n) in *. destruct (ComputeTransactionReceiptsHash _ _) as [rh|]; [|done].
  case_bool_decide as Hrh; [|done]. unfold rewards_of in Hrew. rewrite Hds, andb_false_r in Hrew.
  exists s. subst rh. by repeat (split; [done|]).
Qed.

End agreement.
