(* ===== verification/MicroBlockExamples.v ===== *)
(** * Micro blocks executed: an epoch of one shard, and the witnesses of the theorems
    about selecting, executing and checking transactions. *)

From stdpp Require Import base numbers gmap countable list sorting.
From S2P Require Import Prelude OpenSSL Schnorr Peer LevelDB Json Receipt TxnPool AccountStore ConsensusMessages ConsensusCommon BlockChain Blocks TxnOrder ContractStorage ContractAccount AccountStoreSC ContractProperties AccountMessages StateDelta DeltaProperties DeltaExamples ExecutionProperties TxnSelection SelectionProperties TxnExecution MicroBlock MicroBlockProperties.
Open Scope Z_scope.

Module MicroSample.
Import Cyclic StateCodec JsonTree AccountCodec MapTrie ContractSample DeltaSample.

#[local] Instance key_eq_dec : EqDecision (PubKey (H := Cyclic.openssl)).
Proof. intros [P] [Q]. destruct (decide (val P = val Q)) as [E|E]; [left; f_equal; by apply residue_eq|right; congruence]. Defined.

#[local] Program Instance key_countable : Countable (PubKey (H := Cyclic.openssl)) :=
  inj_countable' (fun k => val (m_P k)) (fun z => mkPubKey (mk z)) _.
Next Obligation. intros [P]. cbn. by rewrite mk_val. Qed.

#[local] Instance mb_proto : HeaderProto MicroBlockHeader := fun h => Some [6; mbh_epochNum h].
#[local] Instance committee_fields : CommitteeProto := fields.

Definition key (d : Z) : PubKey := mkPubKey (mk d).
Definition address (k : PubKey) : Z := val (m_P k) + 2 ^ 24.
Definition a7 : Z := address (key 7).

(** Contracts are at the small addresses that the hash of the example can produce. *)
Lemma digest_address bs : address_of_digest (digest bs) < 2 ^ 24.
Proof.
  unfold address_of_digest, digest. set (x := foldl _ 17 bs). set (d := be_split 32 x). set (k := (length d - 20)%nat).
  assert (0 <= x < 1000003) as Hx.
  { unfold x. destruct bs as [|b bs] using rev_ind; [cbn; lia|]. rewrite foldl_app. apply Z.mod_pos_bound. lia. }
  pose proof (be_combine_split 32 x) as Hd. fold d in Hd. rewrite Z.mod_small in Hd by (split; [lia|]; etrans; [apply Hx|done]).
  pose proof (be_split_ok 32 x) as Hok. fold d in Hok. rewrite <- (take_drop k d) in Hd, Hok. apply Forall_app in Hok as [Ht Hdr].
  rewrite be_combine_app in Hd. apply be_combine_bound in Ht, Hdr. pose proof (Z.pow_nonneg 256 (zlen (drop k d)) ltac:(lia)). nia.
Qed.

Lemma a7_large : 2 ^ 24 <= a7.
Proof. vm_compute. discriminate. Qed.

Lemma a7_no_contract : ~ at_contract_address a7.
Proof.
  intros (from & nonce & E). pose proof a7_large as Hl. rewrite E in Hl. apply (Z.lt_irrefl (2 ^ 24)).
  eapply Z.le_lt_trans; [exact Hl|apply digest_address].
Qed.

(** Payments of 100 by the owner of key 7, on chain 1. *)
Definition tx (id nonce price : Z) : Transaction PubKey := mkTransaction id 65536 nonce 9 (key 7) 100 price 1 [] [] (0, 0).
Definition pool3 : TxnPool PubKey :=
  (pool_insert (pool_insert (pool_insert pool_clear (tx 31 3 9)).2 (tx 32 6 8)).2 (tx 33 5 2)).2.

Definition accounts : gmap Z Account := {[a7 := mkAccount 1 1000 4 0 0 0 []]}.
Definition start : Store := store ∅ accounts.
Definition txns : NodeTxns PubKey json := mkNodeTxns pool3 pool_clear ∅ [] ∅ ∅ [] 0 0.
Definition validator : ValidatorContext := mkValidatorContext 9 1 0 false 1 1 100.
Definition no_populating : Populating := mkPopulating false [] 1 0 9 5.
#[local] Instance executor : TxnExecutor Store json PubKey := node_executor 1 1 2 scilla gas address validator.

Definition run := ProcessTransactionWhenShardLeader address 100 7 (fun _ => false) no_populating start txns.
Definition summary (o : outcome (Store * NodeTxns PubKey json)) :=
  match o with
  | Ret (s, n) => Some (m_TxnOrder n, m_gasUsedTotal n, m_txnFees n, m_tranID <$> pending (t_createdTxns n), GetNonceTemp s a7)
  | Fault _ => None
  end.

(** The transaction with nonce 5 and the one with nonce 6 are executed, in that order;
    the one with nonce 3 is dropped. *)
Example run_result : summary run = Some ([33; 32], 2, 10, [], 6).
Proof. vm_compute. reflexivity. Qed.

Lemma pool3_pending : pending pool3 ≡ₚ [tx 33 5 2; tx 32 6 8; tx 31 3 9].
Proof.
  unfold pool3. set (p0 := pool_clear : TxnPool PubKey). assert (consistent p0 /\ pending p0 ≡ₚ []) as [Hc0 Hp0] by (split; [apply consistent_clear|done]).
  assert (forall (p : TxnPool PubKey) (l : list (Transaction PubKey)) t, consistent p -> pending p ≡ₚ l -> m_tranID t ∉ m_tranID <$> l -> tx_nonce t ∉ tx_nonce <$> l ->
    consistent (pool_insert p t).2 /\ pending (pool_insert p t).2 ≡ₚ t :: l) as Hins.
  { intros p l t Hc Hp Hid Hn. destruct (pending_insert p t Hc) as [Hc' Hp'].
    - by rewrite Hp.
    - rewrite Hp. intros (t' & Hk & Ht')%list_elem_of_fmap. apply Hn, list_elem_of_fmap. exists t'. split; [|done].
      unfold nonce_key in Hk. congruence.
    - split; [done|]. by rewrite Hp', Hp. }
  destruct (Hins p0 [] (tx 31 3 9) Hc0 Hp0) as [Hc1 Hp1]; [apply not_elem_of_nil..|].
  destruct (Hins _ _ (tx 32 6 8) Hc1 Hp1) as [Hc2 Hp2]; [cbn; set_solver..|].
  apply (Hins _ _ (tx 33 5 2) Hc2 Hp2); cbn; set_solver.
Qed.

Ltac cases Ht := rewrite pool3_pending in Ht; repeat (apply elem_of_cons in Ht as [->|Ht]); [..|by apply not_elem_of_nil in Ht].

Lemma pool3_ok : pool_ok address pool3.
Proof.
  split.
  - repeat apply consistent_insert. apply consistent_clear.
  - rewrite pool3_pending. repeat (apply Forall_cons_2; [by split|]). apply Forall_nil_2.
  - intros t t' Ht Ht' _. cases Ht; cases Ht'; done.
  - rewrite pool3_pending. vm_compute. reflexivity.
  - rewrite pool3_pending. vm_compute. reflexivity.
Qed.

Lemma accounts_sound : accounts_ok accounts.
Proof. apply map_Forall_singleton. by split. Qed.

Lemma start_main : accounts_ok (view (as_main start)).
Proof. unfold start. rewrite view_store. apply accounts_sound. Qed.

Lemma start_temp : accounts_ok (view (temp_of start)).
Proof.
  change (view (temp_of start)) with (∅ ∪ view (as_main start)). rewrite map_empty_union. apply start_main.
Qed.

#[local] Instance executor_spec : TxnExecutorSpec Store json PubKey address := node_executor_spec 1 1 2 scilla gas address validator sample_gas_ok.

Lemma start_ok : exec_ok start.
Proof. split; [apply start_temp|apply start_main]. Qed.

Lemma enough_fuel : (2 * length (pending (m_createdTxns txns)) < 7)%nat.
Proof. change (m_createdTxns txns) with pool3. rewrite pool3_pending. cbn. lia. Qed.

Lemma selection_refines_witness :
  exists s' n' rest ex, run = Ret (s', n') /\ m_TxnOrder n' = [33; 32] /\
    rtc (abs_step address 100) (mkAbs start (pending pool3) []) (mkAbs s' rest ex) /\ selected n' [33; 32] rest ex.
Proof.
  pose proof (selection_refines address 100 7 (fun _ => false) no_populating start txns pool3_ok start_ok enough_fuel) as H.
  fold run in H. pose proof run_result as Hr. destruct run as [[s' n']|f]; [|done].
  destruct H as (rest & ex & Hst & Hse). injection Hr as Ho _. exists s', n', rest, ex. rewrite <- Ho. by repeat (split; [done|]).
Defined.

Lemma senders_no_contract t : t ∈ pending (m_createdTxns txns) -> ~ at_contract_address (GetSenderAddr address t).
Proof. intros Ht. change (m_createdTxns txns) with pool3 in Ht. cases Ht; apply a7_no_contract. Qed.

Lemma selection_nonce_order_witness :
  exists s' n', run = Ret (s', n') /\ m_TxnOrder n' = [33; 32] /\
    exists l : list (Transaction PubKey), [33; 32] = m_tranID <$> l /\ forall t, t ∈ l -> t ∉ pending (t_createdTxns n').
Proof.
  destruct run as [[s' n']|f] eqn:E; pose proof run_result as Hr; rewrite E in Hr; [|done]. injection Hr as Ho _.
  exists s', n'. split; [done|]. split; [done|].
  destruct (selection_nonce_order address 100 7 (fun _ => false) no_populating start txns s' n' pool3_ok start_ok enough_fuel
    senders_no_contract E) as (l & Hl & _ & _ & Hin & _).
  exists l. split; [by rewrite <- Ho|]. intros t Ht. by apply Hin.
Defined.

Lemma gas_limits t : t ∈ pending (m_createdTxns txns) -> tx_gasLimit t <= 1.
Proof. intros Ht. change (m_createdTxns txns) with pool3 in Ht. cases Ht; cbn; lia. Qed.

Lemma selection_gas_bound_witness :
  exists s' n', run = Ret (s', n') /\ m_gasUsedTotal n' = 2 /\
    m_gasUsedTotal n' = sum_of (fun e => m_cumGas e.2.2) (map_to_list (t_processedTransactions n')) /\ m_gasUsedTotal n' < 100 + 1.
Proof.
  destruct run as [[s' n']|f] eqn:E; pose proof run_result as Hr; rewrite E in Hr; [|done]. injection Hr as _ Hg _ _ _.
  exists s', n'. split; [done|]. split; [done|].
  destruct (selection_gas_bound address 100 7 (fun _ => false) no_populating start txns s' n' 1 pool3_ok start_ok enough_fuel)
    as [Hs Hb]; [done| |done|done|].
  - apply gas_limits.
  - split; [exact Hs|apply Hb].
Defined.

(** ** One node *)

Definition check (st : Store) (t : Transaction PubKey) :=
  CheckCreatedTransaction 1 1 2 scilla gas address false validator st t TransactionReceipt_new.

Definition checked (o : outcome (bool * Store * TransactionReceipt json)) : option (bool * Z * Z) :=
  match o with
  | Ret (ok, st, r) => Some (ok, GetNonceTemp st a7, m_cumGas r)
  | Fault _ => None
  end.

Lemma first_check : exists st1 r1, check start (tx 33 5 2) = Ret (true, st1, r1).
Proof.
  assert (checked (check start (tx 33 5 2)) = Some (true, 5, 1)) as H by (vm_compute; reflexivity).
  destruct (check start (tx 33 5 2)) as [[[ok st1] r1]|]; [|done]. injection H as -> _. eauto.
Qed.

Lemma tx_sound id nonce : tx_ok (tx id nonce 2).
Proof. by split. Qed.

Lemma check_step st t ok st' r : tx_ok t -> check st t = Ret (ok, st', r) -> node_step 1 1 2 scilla gas address validator st st'.
Proof. intros Ht E. exists t, TransactionReceipt_new, ok, r. split; [exact Ht|exact E]. Qed.

(** The transaction is tried again, and refused. *)
Lemma node_replay_protection_witness :
  exists st1 r1 st2 r2 ok, check start (tx 33 5 2) = Ret (true, st1, r1) /\ check st1 (tx 34 6 2) = Ret (ok, st2, r2) /\
    5 <= GetNonceTemp st2 a7.
Proof.
  destruct first_check as (st1 & r1 & E1). destruct (check st1 (tx 34 6 2)) as [[[ok st2] r2]|] eqn:E2.
  - exists st1, r1, st2, r2, ok. split; [done|]. split; [done|].
    apply (node_replay_protection 1 1 2 scilla gas address validator start (tx 33 5 2) TransactionReceipt_new st1 r1 st2);
      [apply sample_gas_ok|apply start_temp|apply start_main|apply tx_sound|apply a7_no_contract|vm_compute; reflexivity|exact E1|].
    apply rtc_once. by eapply check_step; [apply tx_sound|].
  - exfalso. assert (match check start (tx 33 5 2) with Ret (_, st, _) => checked (check st (tx 34 6 2)) | _ => None end
      = Some (true, 6, 1)) as H by (vm_compute; reflexivity). rewrite E1, E2 in H. done.
Defined.

Lemma transactions_keep_types_witness :
  exists st1 r1, check start (tx 33 5 2) = Ret (true, st1, r1) /\ accounts_ok (view (temp_of st1)) /\
    view (as_main st1) = view (as_main start).
Proof.
  destruct first_check as (st1 & r1 & E1). exists st1, r1. split; [done|].
  destruct (transactions_keep_types 1 1 2 scilla gas address validator start st1) as (H1 & _ & H2);
    [apply sample_gas_ok|apply start_temp|apply start_main| |by split].
  apply rtc_once. by eapply check_step; [apply tx_sound|].
Defined.

(** ** Transactions from a lookup node *)

Definition core (t : Transaction PubKey) : bytes := [m_tranID t].
Definition signed : Transaction PubKey := mkTransaction 35 65536 5 9 (key 7) 100 2 1 [] [] (168, 847).

Lemma one_shard_accepts_witness :
  (CheckCreatedTransactionFromLookup core address false validator (as_main start) signed).1 = true /\
  vc_shardId validator = GetShardIndex a7 1 /\ Z.shiftr (tx_version signed) 16 mod 2 ^ 16 = 1.
Proof.
  assert ((CheckCreatedTransactionFromLookup core address false validator (as_main start) signed).1 = true) as E
    by (vm_compute; reflexivity).
  split; [exact E|]. split; [vm_compute; reflexivity|].
  destruct (one_shard_accepts core address validator validator (as_main start) (as_main start) signed eq_refl eq_refl eq_refl E E)
    as (_ & Hc & _). exact Hc.
Defined.

(** ** The order of transactions *)

(** Half of the transactions may be misplaced. *)
Lemma accepted_order_similar_witness :
  exists common, common `sublist_of` [33; 32; 36] /\ common `sublist_of` [33; 36; 32] /\ 2 <= zlen common.
Proof.
  destruct (accepted_order_similar 50 [33; 32; 36] [33; 36; 32]) as (common & H1 & H2 & H3);
    [done|done|vm_compute; reflexivity|].
  exists common. split; [exact H1|]. split; [exact H2|]. exact H3.
Defined.

Lemma zero_tolerance_rejects_witness : VerifyTxnOrderWTolerance 0 [33; 32] [33; 32] = false.
Proof. apply zero_tolerance_rejects; [done|]. vm_compute. discriminate. Defined.

(** ** The leader and a backup *)

Definition context (self : PubKey) : MicroContext :=
  mkMicroContext false 1 100 validator no_populating false 0 0 zero_hash zero_hash 3 5 5 (4, 4, 9)
    [[(key 7, Peer_default, 0); (key 8, Peer_default, 0)]] [] self [] 5 2 10 (fun _ => None).

Local Abbreviation Node := (@MicroNode _ MapDB.db json (gmap Z bytes) (list bytes) _ _).
Definition fresh : Node := mkMicroNode start txns None None true.

Definition led := leader_composes 1 1 2 scilla gas address (context (key 7)) 7 (fun _ => false) 20000000 fresh.

Lemma led_ok : exists nL', led = Ret (true, nL').
Proof.
  assert (match led with Ret (ok, _) => ok | Fault _ => false end = true) as H by (vm_compute; reflexivity).
  destruct led as [[ok nL']|]; [|done]. subst ok. eauto.
Qed.

Lemma same_sample : same_epoch (context (key 7)) (context (key 8)).
Proof. split; reflexivity. Qed.

Lemma ids_small t : t ∈ pending pool3 -> 0 <= m_tranID t < 2 ^ 256.
Proof. intros Ht. cases Ht; by split. Qed.

Lemma tolerance_small k : 0 <= k <= zlen (pending pool3) -> tolerates (mc_tolerance (context (key 8))) k = true.
Proof.
  intros Hk. apply tolerates_small; [cbn; lia|]. unfold zlen in Hk. rewrite pool3_pending in Hk. cbn in Hk. lia.
Qed.


Definition agreed : option (Node * MicroBlock) :=
  match led, backup_processes 1 1 2 scilla gas address (context (key 8)) 7 (fun _ => false) fresh with
  | Ret (_, nL'), Ret nB1 => block ← m_microblock nL'; Some (nB1, block)
  | _, _ => None
  end.

Lemma agreed_ok : exists nB1 block n', agreed = Some (nB1, block) /\
  (forall h, h ∈ be_combine <$> mb_tranHashes block -> pool_exist (m_createdTxns (mn_txns nB1)) h = true) /\
  MicroBlockValidator 1 100 (context (key 8)) nB1 (Some (block, [])) [] (20000010, 20000010, 20000011) = Ret (true, [], n').
Proof.
  assert (match agreed with
          | None => false
          | Some (nB1, block) =>
              forallb (fun h => pool_exist (m_createdTxns (mn_txns nB1)) h) (be_combine <$> mb_tranHashes block) &&
              match MicroBlockValidator 1 100 (context (key 8)) nB1 (Some (block, [])) [] (20000010, 20000010, 20000011) with
              | Ret (true, [], _) => true
              | _ => false
              end
          end = true) as H by (vm_compute; reflexivity).
  destruct agreed as [[nB1 block]|]; [|done]. apply andb_true_iff in H as [Hf H].
  destruct (MicroBlockValidator _ _ _ _ _ _ _) as [[[[] [|b em]] n']|] eqn:E; try done.
  exists nB1, block, n'. split; [done|]. split; [|exact E]. intros h Hh. rewrite forallb_forall in Hf. apply Hf. by apply list_elem_of_In.
Qed.

Lemma accepted_microblock_matches_witness :
  exists nB1 block, agreed = Some (nB1, block) /\ mbh_gasUsed (mb_header block) = m_gasUsedTotal (mn_txns nB1) /\
    mbh_rewards (mb_header block) = m_txnFees (mn_txns nB1).
Proof.
  destruct agreed_ok as (nB1 & block & n' & Ha & Hin & E).
  destruct (accepted_microblock_matches 1 100 (context (key 8)) nB1 block [] [] (20000010, 20000010, 20000011) [] n' eq_refl eq_refl
    eq_refl Hin E) as (s & _ & _ & _ & _ & _ & _ & _ & Hg & Hr & _).
  exists nB1, block. by repeat (split; [done|]).
Defined.

End MicroSample.
