(* ===== verification/Coinbase.v ===== *)
(** * Rewards of an epoch: libDirectoryService/Coinbase.cpp

    The directory committee notes who co-signed the blocks of an epoch and, before the
    next directory block, pays the coinbase reward and the fees: a base reward to every
    node, a reward per co-signature, a share to the lookup nodes, and what is left to
    the winner of a draw. *)

From stdpp Require Import base numbers gmap countable list sorting.
From S2P Require Import Prelude OpenSSL Schnorr LevelDB Json Receipt TxnPool AccountStore BlockChain Blocks Committee BlockStorage ContractStorage ContractAccount AccountStoreSC AccountMessages StateDelta TxnExecution.
Open Scope Z_scope.

(** [namespace CoinbaseReward] *)
Definition FINALBLOCK_REWARD : Z := -1.
Definition LOOKUP_REWARD : Z := -2.

Definition MAX_REPUTATION : Z := 4096.

Section coinbase.
Context `{Hssl : OpenSSL} {DB : Type} `{Hdb : leveldb DB} `{Hmath : SafeMath} {T : Type} `{Htrie : Trie T}.
Context `{Hacc : AccountProto} {W : Type} (ACCOUNT_VERSION : Z).
Context {PubKey : Type} `{Countable PubKey} (GetAddressFromPublicKey : PubKey -> Z).
Local Abbreviation Store := (AccountStore T DB W).

(** Epoch, shard and the keys to be rewarded. *)
Local Abbreviation Rewardees := (gmap Z (gmap Z (list PubKey))).

Record CoinbaseState := mkCoinbaseState {
  m_coinbaseRewardees : Rewardees;
  m_mapNodeReputation : gmap PubKey Z     (** [uint16_t] *)
}.

(** ** Who signed *)

Definition add_rewardee (r : Rewardees) (epochNum shard_id : Z) (pk : PubKey) : Rewardees :=
  let shards := default ∅ (r !! epochNum) in
  <[epochNum := <[shard_id := default [] (shards !! shard_id) ++ [pk]]> shards]> r.

Definition raise_reputation (m : gmap PubKey Z) (pk : PubKey) : gmap PubKey Z :=
  let v := default 0 (m !! pk) in <[pk := if v <? MAX_REPUTATION then u16 (v + 1) else v]> m.

Definition note_signer (epochNum shard_id : Z) (signed : bool) (pk : PubKey) (s : CoinbaseState) : CoinbaseState :=
  if signed
  then mkCoinbaseState (add_rewardee (m_coinbaseRewardees s) epochNum shard_id pk) (raise_reputation (m_mapNodeReputation s) pk)
  else s.

Fixpoint note_signers (b1 b2 : list bool) (epochNum shard_id : Z) (shard : list PubKey) (i : Z) (s : CoinbaseState)
  : outcome CoinbaseState :=
  match shard with
  | [] => Ret s
  | pk :: shard =>
      signed1 ← at_ b1 i;
      let s := note_signer epochNum shard_id signed1 pk s in
      signed2 ← at_ b2 i;
      let s := note_signer epochNum shard_id signed2 pk s in
      note_signers b1 b2 epochNum shard_id shard (u32 (i + 1)) s
  end.

(** Whether the co-signatures of a shard are noted already. *)
Definition has_rewardees (r : Rewardees) (epochNum shard_id : Z) : bool :=
  match r !! epochNum with
  | Some shards => bool_decide (is_Some (shards !! shard_id))
  | None => false
  end.

Definition SaveCoinbaseCore (LOOKUP_NODE_MODE : bool) (b1 b2 : list bool) (shard : list PubKey) (shard_id epochNum : Z)
    (s : CoinbaseState) : outcome (bool * CoinbaseState) :=
  if LOOKUP_NODE_MODE then Ret (true, s)
  else if has_rewardees (m_coinbaseRewardees s) epochNum shard_id then Ret (false, s)
  else if negb (zlen shard =? zlen b1) then Ret (false, s)
  else if negb (zlen shard =? zlen b2) then Ret (false, s)
  else s ← note_signers b1 b2 epochNum shard_id shard 0 s; Ret (true, s).

(** [DSCommittee] and [shards]: the keys of the members. *)
Definition SaveCoinbase (LOOKUP_NODE_MODE : bool) (DSCommittee : list PubKey) (shards : list (list PubKey)) (b1 b2 : list bool)
    (shard_id epochNum : Z) (s : CoinbaseState) : outcome (bool * CoinbaseState) :=
  if LOOKUP_NODE_MODE then Ret (true, s)
  else if shard_id =? zlen shards then Ret (true, s)
  else if shard_id =? FINALBLOCK_REWARD then SaveCoinbaseCore LOOKUP_NODE_MODE b1 b2 DSCommittee shard_id epochNum s
  else shard ← at_ shards shard_id; SaveCoinbaseCore LOOKUP_NODE_MODE b1 b2 shard shard_id epochNum s.

(** ** The amounts *)

(** The configuration, the guards and the members of the network. *)
Record RewardContext := mkRewardContext {
  COINBASE_REWARD_PER_DS : Z;
  BASE_REWARD_IN_PERCENT : Z;
  LOOKUP_REWARD_IN_PERCENT : Z;
  rc_guard_mode : bool;                       (** [GUARD_MODE] *)
  IsNodeInDSGuardList : PubKey -> bool;
  IsNodeInShardGuardList : PubKey -> bool;
  rc_DSCommittee : list PubKey;
  rc_shards : list (list PubKey);
  rc_lookups : list PubKey;                   (** [GetLookupNodesStatic] *)
  rc_epochNum : Z;
  rc_totalTxnFees : Z;                        (** [m_totalTxnFees] *)
  rc_lastBlockHash : bytes
}.
Implicit Types c : RewardContext.

Record Rewards := mkRewards {
  node_count : Z;
  sig_count : Z;
  lookup_count : Z;
  total_reward : Z;
  base_reward : Z;
  base_reward_each : Z;
  lookupReward : Z;
  reward_each_lookup : Z;
  nodeReward : Z;
  reward_each : Z
}.

(** The keys with the shard they are noted under, in the order of the two maps. *)
Definition rewardee_lists (r : Rewardees) : list (Z * list PubKey) :=
  concat ((fun e => ordered_entries e.2) <$> ordered_entries r).

(** The two counters have types [uint128_t] and [uint32_t]. *)
Definition count_rewardees (r : Rewardees) : Z * Z :=
  foldl (fun '(sig_count, lookup_count) (e : Z * list PubKey) =>
           if e.1 =? LOOKUP_REWARD then (sig_count, u32 (lookup_count + zlen e.2)) else (u128 (sig_count + zlen e.2), lookup_count))
    (0, 0) (rewardee_lists r).

Definition count_nodes c : Z := foldl (fun n shard => u128 (n + zlen shard)) (zlen (rc_DSCommittee c)) (rc_shards c).

(** [None]: one of the early returns. *)
Definition compute_rewards c (r : Rewardees) : option Rewards :=
  let '(sigs, lookups) := count_rewardees r in
  let '(ok, total) := sm_add 128 (COINBASE_REWARD_PER_DS c) (rc_totalTxnFees c) 0 in
  if negb ok then None
  else
    let '(ok, base) := sm_mul 128 total (BASE_REWARD_IN_PERCENT c) 0 in
    if negb ok then None
    else
      let base := base / 100 in
      let nodes := count_nodes c in
      let '(ok, base_each) := sm_div 128 base nodes 0 in
      if negb ok then None
      else
        let '(ok, lookup) := sm_mul 128 total (LOOKUP_REWARD_IN_PERCENT c) 0 in
        if negb ok then None
        else
          let lookup := lookup / 100 in
          let node := u128 (total - lookup - base) in
          let '(ok, each) := sm_div 128 node sigs 0 in
          if negb ok then None
          else
            let '(ok, each_lookup) := sm_div 128 lookup lookups 0 in
            if negb ok then None
            else Some (mkRewards nodes sigs lookups total base base_each lookup each_lookup node each).

(** ** The payments *)

(** The coinbase account is the zero address. *)
Definition coinbaseAddress : Z := 0.

Record Paying := mkPaying {
  py_store : Store;
  nonGuard : list Z;
  pubKeyAndIsGuard : gmap PubKey bool;
  suc_counter : Z;
  suc_lookup_counter : Z
}.

(** One node gets the base reward, unless it is a guard. *)
Definition pay_base c (inGuardList : PubKey -> bool) (each : Z) (p : Paying) (pk : PubKey) : outcome Paying :=
  let guard := rc_guard_mode c && inGuardList pk in
  let isGuard := if rc_guard_mode c then <[pk := guard]> (pubKeyAndIsGuard p) else pubKeyAndIsGuard p in
  if guard then Ret (mkPaying (py_store p) (nonGuard p) isGuard (suc_counter p) (suc_lookup_counter p))
  else
    let addr := GetAddressFromPublicKey pk in
    '(_, st) ← UpdateCoinbaseTemp ACCOUNT_VERSION (py_store p) addr coinbaseAddress each;
    Ret (mkPaying st (nonGuard p ++ [addr]) isGuard (suc_counter p) (suc_lookup_counter p)).

Definition pay_lookup (each : Z) (p : Paying) (pk : PubKey) : outcome Paying :=
  let addr := GetAddressFromPublicKey pk in
  '(ok, st) ← UpdateCoinbaseTemp ACCOUNT_VERSION (py_store p) addr coinbaseAddress each;
  Ret (if ok : bool
       then mkPaying st (nonGuard p ++ [addr]) (pubKeyAndIsGuard p) (suc_counter p) (u128 (suc_lookup_counter p + 1))
       else mkPaying st (nonGuard p) (pubKeyAndIsGuard p) (suc_counter p) (suc_lookup_counter p)).

(** One co-signature; [pubKeyAndIsGuard[pk]] creates an entry that is not there. *)
Definition pay_signer c (each : Z) (p : Paying) (pk : PubKey) : outcome Paying :=
  let isGuard := if rc_guard_mode c then <[pk := default false (pubKeyAndIsGuard p !! pk)]> (pubKeyAndIsGuard p)
                 else pubKeyAndIsGuard p in
  if rc_guard_mode c && default false (pubKeyAndIsGuard p !! pk)
  then Ret (mkPaying (py_store p) (nonGuard p) isGuard (u128 (suc_counter p + 1)) (suc_lookup_counter p))
  else
    '(ok, st) ← UpdateCoinbaseTemp ACCOUNT_VERSION (py_store p) (GetAddressFromPublicKey pk) coinbaseAddress each;
    Ret (mkPaying st (nonGuard p) isGuard (if ok : bool then u128 (suc_counter p + 1) else suc_counter p) (suc_lookup_counter p)).

Fixpoint pay_all (pay : Paying -> PubKey -> outcome Paying) (p : Paying) (keys : list PubKey) : outcome Paying :=
  match keys with
  | [] => Ret p
  | pk :: keys => p ← pay p pk; pay_all pay p keys
  end.

Fixpoint pay_lists c (w : Rewards) (p : Paying) (lists : list (Z * list PubKey)) : outcome Paying :=
  match lists with
  | [] => Ret p
  | (shardId, rewardees) :: lists =>
      p ← pay_all (if shardId =? LOOKUP_REWARD then pay_lookup (reward_each_lookup w) else pay_signer c (reward_each w)) p rewardees;
      pay_lists c w p lists
  end.

(** What remains for the draw, in [uint128_t]. *)
Definition balance_left (w : Rewards) (p : Paying) : Z :=
  u128 (total_reward w - u128 (suc_counter p * reward_each w) - u128 (suc_lookup_counter p * reward_each_lookup w)
        - u128 (node_count w * base_reward_each w)).

(** The diagnostic entry of an epoch: the amounts, the remainder, a key that is not
    used and the winner. *)
Record DiagnosticDataCoinbase := mkDiagnostic {
  dc_rewards : Rewards;
  dc_balance_left : Z;
  dc_luckyDrawWinnerKey : PubKey;
  dc_luckyDrawWinnerAddr : Z
}.

(** The lookup nodes are noted, the amounts computed and paid.  The result is the
    diagnostic entry that is stored, if any. *)
Definition pay_coinbase c (dummyKey : PubKey) (s : CoinbaseState) (st : Store)
  : outcome (CoinbaseState * Store * option DiagnosticDataCoinbase) :=
  let s := foldl (fun s pk => mkCoinbaseState (add_rewardee (m_coinbaseRewardees s) (rc_epochNum c) LOOKUP_REWARD pk)
                                (m_mapNodeReputation s)) s (rc_lookups c) in
  match compute_rewards c (m_coinbaseRewardees s) with
  | None => Ret (s, st, None)
  | Some w =>
      let '(_, st) := IncreaseBalanceTemp ACCOUNT_VERSION st coinbaseAddress (rc_totalTxnFees c) in
      p ← pay_all (pay_base c (IsNodeInDSGuardList c) (base_reward_each w)) (mkPaying st [] ∅ 0 0) (rc_DSCommittee c);
      p ← pay_all (pay_base c (IsNodeInShardGuardList c) (base_reward_each w)) p (concat (rc_shards c));
      p ← pay_lists c w p (rewardee_lists (m_coinbaseRewardees s));
      let left := balance_left w p in
      lastBlockHash ← charArrTo16Bits (rc_lastBlockHash c);
      match nonGuard p with
      | [] => Ret (s, py_store p, Some (mkDiagnostic w left dummyKey 0))
      | _ =>
          luckyAddr ← at_ (nonGuard p) (u16 (lastBlockHash mod zlen (nonGuard p)));
          '(_, st) ← UpdateCoinbaseTemp ACCOUNT_VERSION (py_store p) luckyAddr coinbaseAddress left;
          Ret (s, st, Some (mkDiagnostic w left dummyKey luckyAddr))
      end
  end.

(** ** The diagnostic data *)

Context (MAX_ENTRIES_FOR_DIAGNOSTIC_DATA : Z) (SetDiagnosticDataCoinbase : DiagnosticDataCoinbase -> option bytes).

Definition StoreCoinbaseInDiagnosticDB (b : BlockStorage DB) (dsBlockNum : Z) (entry : DiagnosticDataCoinbase)
  : outcome (BlockStorage DB) :=
  '(canPutNewEntry, b) ←
    (if (MAX_ENTRIES_FOR_DIAGNOSTIC_DATA >? 0) && (m_diagnosticDBCoinbaseCounter b >=? MAX_ENTRIES_FOR_DIAGNOSTIC_DATA) &&
        (dsBlockNum >=? MAX_ENTRIES_FOR_DIAGNOSTIC_DATA)
     then DeleteDiagnosticDataCoinbase b (dsBlockNum - MAX_ENTRIES_FOR_DIAGNOSTIC_DATA)
     else Ret (true, b));
  if canPutNewEntry : bool
  then '(_, b) ← PutDiagnosticDataCoinbase b dsBlockNum (SetDiagnosticDataCoinbase entry); Ret b
  else Ret b.

Definition InitCoinbase (LOOKUP_NODE_MODE : bool) c (dummyKey : PubKey) (dsBlockNum : Z) (s : CoinbaseState) (st : Store)
    (b : BlockStorage DB) : outcome (CoinbaseState * Store * BlockStorage DB) :=
  if LOOKUP_NODE_MODE then Ret (s, st, b)
  else
    '(s, st, entry) ← pay_coinbase c dummyKey s st;
    b ← (match entry with Some entry => StoreCoinbaseInDiagnosticDB b dsBlockNum entry | None => Ret b end);
    Ret (s, st, b).

End coinbase.
