(* ===== verification/CoinbaseProperties.v ===== *)
(** * What the rewards of an epoch amount to

    The payments as a list, computed from the members, the guards and the
    co-signatures; the handler makes exactly these payments, out of the coinbase
    account. *)

From stdpp Require Import base numbers gmap countable list sorting.
From S2P Require Import Prelude OpenSSL Schnorr LevelDB Json Receipt TxnPool AccountStore BlockChain Blocks Committee BlockStorage ContractStorage ContractAccount AccountStoreSC ContractProperties AccountMessages StateDelta DeltaProperties DeltaExamples TxnExecution Coinbase.
Open Scope Z_scope.

(** ** Accounts before and after payments from the zero address *)

Definition received (a : Z) (l : list (Z * Z)) : Z := sum_of (fun p => if decide (p.1 = a) then p.2 else 0) l.
Definition spent (l : list (Z * Z)) : Z := sum_of snd l.

Record paid (m m' : gmap Z Account) (l : list (Z * Z)) : Prop := {
  pd_ok : accounts_ok m';
  pd_some : is_Some (m' !! 0);
  pd_total : total m' = total m;
  pd_coin : balance_at m' 0 = balance_at m 0 - spent l;
  pd_other : forall a, a <> 0 -> balance_at m' a = balance_at m a + received a l
}.

Lemma paid_nil m : accounts_ok m -> is_Some (m !! 0) -> paid m m [].
Proof. intros Hok Hs. split; try done; [unfold spent; cbn; lia|]. intros a _. unfold received. cbn. lia. Qed.

Lemma paid_app m1 m2 m3 l k : paid m1 m2 l -> paid m2 m3 k -> paid m1 m3 (l ++ k).
Proof.
  intros [_ _ Ht1 Hc1 Ho1] [Hok Hs Ht2 Hc2 Ho2]. split; [done|done|congruence| |].
  - unfold spent in *. rewrite sum_app. lia.
  - intros a Ha. rewrite Ho2, Ho1 by done. unfold received. rewrite sum_app. lia.
Qed.

Section coinbase.
Context `{Hssl : OpenSSL} {DB : Type} `{Hdb : leveldb DB} `{Hmath : SafeMath} `{Hsm : !SafeMathSpec}.
Context {T : Type} `{Htrie : Trie T} `{Htspec : !TrieSpec T} `{Hacc : AccountProto} {W : Type} (ACCOUNT_VERSION : Z).
Context {PubKey : Type} `{Countable PubKey} (GetAddressFromPublicKey : PubKey -> Z).
Context (Haddr : forall pk, GetAddressFromPublicKey pk <> 0).
Local Abbreviation Store := (AccountStore T DB W).
Local Abbreviation addr := GetAddressFromPublicKey.
Implicit Types (st : Store) (p : @Paying DB T W PubKey _ _) (c : @RewardContext PubKey).

(** The coinbase account exists and has the amount; no balance can overflow. *)
Record funded (m : gmap Z Account) (need : Z) : Prop := {
  fu_ok : accounts_ok m;
  fu_some : is_Some (m !! 0);
  fu_total : total m < 2 ^ 128;
  fu_need : need <= balance_at m 0
}.

Lemma funded_paid m m' l need : funded m (spent l + need) -> paid m m' l -> funded m' need.
Proof. intros [_ _ Ht Hn] [Hok Hs Ht' Hc _]. split; [done|done|lia|lia]. Qed.

Lemma funded_le m need need' : funded m need -> need' <= need -> funded m need'.
Proof. intros [Hok Hs Ht Hn] Hle. split; [done..|lia]. Qed.

(** One payment. *)
Lemma reward_paid st a amount :
  a <> 0 -> 0 <= amount -> funded (view (temp_of st)) amount ->
  exists st', UpdateCoinbaseTemp ACCOUNT_VERSION st a coinbaseAddress amount = Ret (true, st') /\
    paid (view (temp_of st)) (view (temp_of st')) [(a, amount)].
Proof.
  intros Ha Hamt [Hok Hs Ht Hn]. unfold UpdateCoinbaseTemp. fold (temp_of st).
  pose proof (GetAccount_found (temp_of st) a) as Hf. pose proof (GetAccount_keeps (temp_of st) a) as Hk.
  destruct (GetAccount (temp_of st) a) as [x s1]. cbn [fst snd] in Hf, Hk.
  set (s2 := match x with Some _ => s1 | None => _ end).
  assert (accounts_ok (view s2) /\ is_Some (view s2 !! 0) /\ total (view s2) = total (view (temp_of st)) /\
    forall b, balance_at (view s2) b = balance_at (view (temp_of st)) b) as (Hok2 & Hs2 & Ht2 & Hb2).
  { unfold s2. destruct x as [x|]; [by rewrite Hk|]. unfold AddAccount, IsAccountExist.
    pose proof (GetAccount_found s1 a) as Hf1. pose proof (GetAccount_keeps s1 a) as Hk1. rewrite Hk, <- Hf in Hf1.
    destruct (GetAccount s1 a) as [y s3]. cbn [fst snd] in Hf1, Hk1. subst y. cbn [negb].
    rewrite store_insert_view by (rewrite Hk1, Hk; done). rewrite Hk1, Hk. split; [|split; [|split]].
    - apply map_Forall_insert_2; [|done]. split; cbn; lia.
    - by apply insert_some.
    - rewrite total_fresh by done. cbn. lia.
    - intros b. unfold balance_at. destruct (decide (a = b)) as [<-|]; [by rewrite lookup_insert_eq, <- Hf|by rewrite lookup_insert_ne]. }
  pose proof (balance_le_total _ 0 Hok) as Hle0.
  destruct (TransferBalance_effect ACCOUNT_VERSION s2 0 a amount Hok2 ltac:(lia) Hs2) as (ok & s' & E & Hr & Hv).
  assert (balance_at (debit (view s2) 0 amount) a + amount < 2 ^ 128) as Hfit.
  { pose proof (debit_ok (view s2) 0 amount Hok2 ltac:(rewrite Hb2; lia)) as Hokd.
    pose proof (balance_le_total _ a Hokd) as Hla. rewrite total_debit in Hla by done. lia. }
  assert (ok = true) as -> by (rewrite Hr, Hb2; apply andb_true_iff; split; [apply Z.leb_le; lia|by apply Z.ltb_lt]).
  unfold coinbaseAddress. rewrite E. cbn [mbind outcome_bind]. eexists. split; [done|].
  change (temp_of (as_set_store st s')) with s'. rewrite Hv. split.
  - apply credit_ok; [apply debit_ok; [done|rewrite Hb2; lia]|done|done].
  - by apply credit_some, debit_some.
  - rewrite total_credit, total_debit by done. lia.
  - rewrite balance_credit, balance_debit, decide_True, decide_False, Hb2 by done. unfold spent. cbn. lia.
  - intros b Hb. rewrite balance_credit, balance_debit, Hb2 by done. unfold received. cbn. rewrite decide_False by done. lia.
Qed.

(** ** The payments as a list *)

Definition base_payment c (inGuardList : PubKey -> bool) (each : Z) (pk : PubKey) : list (Z * Z) :=
  if rc_guard_mode c && inGuardList pk then [] else [(addr pk, each)].

(** The guard marks after the base rewards: of the committee, then of the shards. *)
Definition mark_guard c (inGuardList : PubKey -> bool) (marks : gmap PubKey bool) (pk : PubKey) : gmap PubKey bool :=
  if rc_guard_mode c then <[pk := inGuardList pk]> marks else marks.
Definition guard_marks c : gmap PubKey bool :=
  foldl (mark_guard c (IsNodeInShardGuardList c)) (foldl (mark_guard c (IsNodeInDSGuardList c)) ∅ (rc_DSCommittee c))
    (concat (rc_shards c)).

Definition signer_payment c (each : Z) (pk : PubKey) : list (Z * Z) :=
  if rc_guard_mode c && default false (guard_marks c !! pk) then [] else [(addr pk, each)].

Definition list_payments c (w : Rewards) (e : Z * list PubKey) : list (Z * Z) :=
  concat ((if e.1 =? LOOKUP_REWARD then (fun pk => [(addr pk, reward_each_lookup w)]) else signer_payment c (reward_each w)) <$> e.2).

Definition base_payments c (w : Rewards) : list (Z * Z) :=
  concat (base_payment c (IsNodeInDSGuardList c) (base_reward_each w) <$> rc_DSCommittee c) ++
  concat (base_payment c (IsNodeInShardGuardList c) (base_reward_each w) <$> concat (rc_shards c)).
Definition cosig_payments c (w : Rewards) r : list (Z * Z) := concat (list_payments c w <$> rewardee_lists r).

(** Everyone who got a base reward, and the lookup nodes, take part in the draw. *)
Definition lookup_keys (lists : list (Z * list PubKey)) : list PubKey :=
  concat ((fun e => if e.1 =? LOOKUP_REWARD then e.2 else []) <$> lists).
Definition candidates c (w : Rewards) r : list Z := (base_payments c w).*1 ++ (addr <$> lookup_keys (rewardee_lists r)).

Definition remainder (w : Rewards) : Z :=
  total_reward w - sig_count w * reward_each w - lookup_count w * reward_each_lookup w - node_count w * base_reward_each w.

(** ** The loops *)

Definition book p : list Z * gmap PubKey bool * Z * Z :=
  (nonGuard p, pubKeyAndIsGuard p, suc_counter p, suc_lookup_counter p).
Local Abbreviation accounts p := (view (temp_of (py_store p))).

(** A loop makes the payments [l] of its keys and keeps its books with [bk]. *)
Definition makes_payments (run : @Paying DB T W PubKey _ _ -> outcome (@Paying DB T W PubKey _ _)) (l : list (Z * Z))
    (bk : list Z * gmap PubKey bool * Z * Z -> list Z * gmap PubKey bool * Z * Z)
    (inv : list Z * gmap PubKey bool * Z * Z -> Prop) : Prop :=
  forall p, inv (book p) -> funded (accounts p) (spent l) ->
    exists p', run p = Ret p' /\ paid (accounts p) (accounts p') l /\ book p' = bk (book p) /\ inv (book p').

Lemma makes_nothing inv : makes_payments Ret [] (fun b => b) inv.
Proof. intros p Hi Hf. exists p. split; [done|]. split; [apply paid_nil; apply Hf|by split]. Qed.

Lemma makes_both run1 run2 l1 l2 bk1 bk2 inv :
  Forall (fun x => 0 <= x.2) l2 ->
  makes_payments run1 l1 bk1 inv -> makes_payments run2 l2 bk2 inv ->
  makes_payments (fun p => p ← run1 p; run2 p) (l1 ++ l2) (fun b => bk2 (bk1 b)) inv.
Proof.
  intros Hpos H1 H2 p Hi Hf. apply sum_nonneg in Hpos. unfold spent in Hf. rewrite sum_app in Hf.
  destruct (H1 p Hi) as (p1 & E1 & Hp1 & Hb1 & Hi1); [eapply funded_le; [exact Hf|unfold spent; lia]|].
  destruct (H2 p1 Hi1) as (p2 & E2 & Hp2 & Hb2 & Hi2); [eapply funded_paid; [exact Hf|done]|].
  exists p2. rewrite E1. split; [done|]. split; [by eapply paid_app|]. split; [by rewrite Hb2, Hb1|done].
Qed.

Lemma pay_all_makes pay (l : PubKey -> list (Z * Z)) bk inv keys :
  (forall pk, Forall (fun x => 0 <= x.2) (l pk)) -> (forall pk, makes_payments (fun p => pay p pk) (l pk) (fun b => bk b pk) inv) ->
  makes_payments (fun p => pay_all pay p keys) (concat (l <$> keys)) (fun b => foldl bk b keys) inv.
Proof.
  intros Hpos Hone. induction keys as [|pk keys IH]; [apply makes_nothing|]. cbn [fmap list_fmap concat foldl].
  apply (makes_both (fun p => pay p pk) (fun p => pay_all pay p keys) _ _ (fun b => bk b pk) (fun b => foldl bk b keys)); [|done|done].
  apply Forall_concat, Forall_fmap, Forall_true. intros pk'. apply Hpos.
Qed.

(** The books of the three kinds of payments. *)
Definition book_base c (inG : PubKey -> bool) (b : list Z * gmap PubKey bool * Z * Z) (pk : PubKey) :=
  let '(ng, marks, n, nl) := b in
  (ng ++ if rc_guard_mode c && inG pk then [] else [addr pk], mark_guard c inG marks pk, n, nl).
Definition book_lookup (b : list Z * gmap PubKey bool * Z * Z) (pk : PubKey) :=
  let '(ng, marks, n, nl) := b in (ng ++ [addr pk], marks, n, u128 (nl + 1)).
Definition book_signer c (b : list Z * gmap PubKey bool * Z * Z) (pk : PubKey) :=
  let '(ng, marks, n, nl) := b in
  (ng, if rc_guard_mode c then <[pk := default false (marks !! pk)]> marks else marks, u128 (n + 1), nl).

Lemma base_makes c inG each pk :
  0 <= each ->
  makes_payments (fun p => pay_base ACCOUNT_VERSION addr c inG each p pk) (base_payment c inG each pk)
    (fun b => book_base c inG b pk) (fun _ => True).
Proof.
  intros He p _ Hf. unfold pay_base, base_payment, book, book_base, mark_guard in *.
  destruct (rc_guard_mode c) eqn:Hm, (inG pk) eqn:Hg; cbn [andb] in *.
  1: { eexists. split; [done|]. split; [apply paid_nil; apply Hf|]. cbn. by rewrite app_nil_r. }
  all: destruct (reward_paid (py_store p) (addr pk) each (Haddr pk) He) as (st1 & -> & Hp);
    [eapply funded_le; [exact Hf|unfold spent; cbn; lia]|]; cbn [mbind outcome_bind]; eexists; split; [done|]; by split.
Qed.

Lemma lookup_makes each pk inv :
  (forall b, inv b -> inv (book_lookup b pk)) -> 0 <= each ->
  makes_payments (fun p => pay_lookup ACCOUNT_VERSION addr each p pk) [(addr pk, each)] (fun b => book_lookup b pk) inv.
Proof.
  intros Hk He p Hi Hf. unfold pay_lookup.
  destruct (reward_paid (py_store p) (addr pk) each (Haddr pk) He) as (st1 & -> & Hp);
    [eapply funded_le; [exact Hf|unfold spent; cbn; lia]|]. cbn [mbind outcome_bind]. eexists. split; [done|]. split; [done|].
  split; [done|]. by apply (Hk (book p)).
Qed.

(** The marks that matter do not change any more. *)
Definition marked c (b : list Z * gmap PubKey bool * Z * Z) : Prop :=
  let '(_, marks, _, _) := b in forall pk, default false (marks !! pk) = default false (guard_marks c !! pk).

Lemma signer_makes c each pk :
  0 <= each ->
  makes_payments (fun p => pay_signer ACCOUNT_VERSION addr c each p pk) (signer_payment c each pk) (fun b => book_signer c b pk) (marked c).
Proof.
  intros He p Hi Hf. unfold pay_signer, signer_payment in *. rewrite (Hi pk).
  assert (marked c (book_signer c (book p) pk)) as Hi'.
  { unfold marked, book_signer, book in *. destruct (rc_guard_mode c); [|done]. intros pk'.
    destruct (decide (pk = pk')) as [<-|]; [rewrite lookup_insert_eq; cbn; apply Hi|by rewrite lookup_insert_ne; [apply Hi|]]. }
  destruct (rc_guard_mode c && default false (guard_marks c !! pk)) eqn:Hg.
  - eexists. split; [done|]. split; [apply paid_nil; apply Hf|]. unfold book at 1 3. cbn [nonGuard pubKeyAndIsGuard suc_counter suc_lookup_counter].
    unfold book_signer, book in *. rewrite (Hi pk) in *. done.
  - destruct (reward_paid (py_store p) (addr pk) each (Haddr pk) He) as (st1 & -> & Hp);
      [eapply funded_le; [exact Hf|unfold spent; cbn; lia]|]. cbn [mbind outcome_bind]. eexists. split; [done|]. split; [done|].
    unfold book_signer, book in *. cbn. rewrite (Hi pk) in *. done.
Qed.

Definition book_list c (b : list Z * gmap PubKey bool * Z * Z) (e : Z * list PubKey) :=
  foldl (if e.1 =? LOOKUP_REWARD then book_lookup else book_signer c) b e.2.

Lemma pay_lists_makes c w lists :
  0 <= reward_each w -> 0 <= reward_each_lookup w ->
  makes_payments (fun p => pay_lists ACCOUNT_VERSION addr c w p lists) (concat (list_payments c w <$> lists))
    (fun b => foldl (book_list c) b lists) (marked c).
Proof.
  intros He Hl. induction lists as [|[shard keys] lists IH]; [apply makes_nothing|]. cbn [fmap list_fmap concat foldl].
  assert (forall e, Forall (fun x => 0 <= x.2) (list_payments c w e)) as Hpos.
  { intros e. unfold list_payments. apply Forall_concat, Forall_fmap, Forall_true. intros pk. cbn. unfold signer_payment.
    destruct (_ =? _); [by repeat constructor|]. destruct (_ && _); by repeat constructor. }
  apply (makes_both (fun p => pay_all _ p keys) (fun p => pay_lists ACCOUNT_VERSION addr c w p lists) _ _
    (fun b => book_list c b (shard, keys)) (fun b => foldl (book_list c) b lists)); [| |done].
  { apply Forall_concat, Forall_fmap, Forall_true. done. }
  unfold list_payments, book_list. cbn [fst snd]. destruct (shard =? LOOKUP_REWARD).
  - apply (pay_all_makes _ (fun pk => [(addr pk, reward_each_lookup w)])); intros pk; [by repeat constructor|].
    apply lookup_makes; [|done]. by intros [[[ng marks] n] nl].
  - apply pay_all_makes; intros pk; [|by apply signer_makes]. unfold signer_payment. destruct (_ && _); by repeat constructor.
Qed.

(** ** The books at the end *)

Definition signer_keys (lists : list (Z * list PubKey)) : list PubKey :=
  concat ((fun e => if e.1 =? LOOKUP_REWARD then [] else e.2) <$> lists).

Lemma book_base_fold c inG each keys ng marks n nl :
  foldl (book_base c inG) (ng, marks, n, nl) keys =
  (ng ++ (concat (base_payment c inG each <$> keys)).*1, foldl (mark_guard c inG) marks keys, n, nl).
Proof.
  revert ng marks. induction keys as [|pk keys IH]; intros ng marks; cbn [foldl fmap list_fmap concat]; [by rewrite app_nil_r|].
  unfold book_base at 2. rewrite IH, fmap_app, app_assoc. unfold base_payment at 2. by destruct (_ && _).
Qed.

Lemma book_lists_fold c lists ng marks n nl :
  0 <= n -> 0 <= nl -> n + zlen (signer_keys lists) < 2 ^ 128 -> nl + zlen (lookup_keys lists) < 2 ^ 128 ->
  exists marks', foldl (book_list c) (ng, marks, n, nl) lists =
    (ng ++ (addr <$> lookup_keys lists), marks', n + zlen (signer_keys lists), nl + zlen (lookup_keys lists)).
Proof.
  assert (forall keys ng marks n nl, 0 <= nl -> nl + zlen keys < 2 ^ 128 ->
    foldl book_lookup (ng, marks, n, nl) keys = (ng ++ (addr <$> keys), marks, n, nl + zlen keys)) as Hlook.
  { induction keys as [|pk keys IH]; intros ng0 marks0 n0 nl0 H0 H1; cbn [foldl fmap list_fmap]; [unfold zlen; cbn; by rewrite app_nil_r, Z.add_0_r|].
    unfold zlen in *. cbn [length book_lookup] in *. rewrite IH; rewrite wrap_small by (unfold in_range; lia); [|lia|lia]. rewrite <- app_assoc.
    cbn [app]. f_equal. lia. }
  assert (forall keys ng marks n nl, 0 <= n -> n + zlen keys < 2 ^ 128 ->
    exists marks', foldl (book_signer c) (ng, marks, n, nl) keys = (ng, marks', n + zlen keys, nl)) as Hsign.
  { induction keys as [|pk keys IH]; intros ng0 marks0 n0 nl0 H0 H1; cbn [foldl]; [exists marks0; unfold zlen; cbn; by rewrite Z.add_0_r|].
    unfold zlen in *. cbn [length] in *. cbn [book_signer]. rewrite wrap_small by (unfold in_range; lia).
    edestruct (IH ng0) as (marks1 & E); [| |exists marks1; rewrite E]; [lia|lia|]. do 2 f_equal. lia. }
  revert ng marks n nl. induction lists as [|[shard keys] lists IH]; intros ng marks n nl Hn Hnl Hs Hl; cbn [foldl].
  { exists marks. unfold zlen. cbn. by rewrite app_nil_r, !Z.add_0_r. }
  unfold signer_keys, lookup_keys in *. cbn [fmap list_fmap concat fst snd] in *. rewrite !zlen_app in *. unfold book_list at 2. cbn [fst snd].
  pose proof (zlen_nonneg keys). destruct (shard =? LOOKUP_REWARD); change (zlen (@nil PubKey)) with 0 in *.
  - rewrite Hlook by (try lia; unfold zlen in *; lia).
    edestruct (IH (ng ++ (addr <$> keys)) marks n (nl + zlen keys)) as (marks' & ->); [lia..|]. exists marks'.
    rewrite fmap_app, app_assoc. repeat first [lia|f_equal].
  - edestruct (Hsign keys ng marks n nl) as (marks1 & ->); [lia|unfold zlen in *; lia|].
    edestruct (IH ng marks1 (n + zlen keys) nl) as (marks' & ->); [lia..|]. exists marks'. cbn [app]. repeat first [lia|f_equal].
Qed.

(** ** The amounts *)

Record reward_ok c r : Prop := {
  ro_coinbase : 0 <= COINBASE_REWARD_PER_DS c < 2 ^ 128;
  ro_fees : 0 <= rc_totalTxnFees c < 2 ^ 128;
  ro_base : 0 <= BASE_REWARD_IN_PERCENT c;
  ro_lookup : 0 <= LOOKUP_REWARD_IN_PERCENT c;
  ro_percent : BASE_REWARD_IN_PERCENT c + LOOKUP_REWARD_IN_PERCENT c <= 100;
  ro_nodes : zlen (rc_DSCommittee c) + zlen (concat (rc_shards c)) < 2 ^ 32;
  ro_signers : zlen (signer_keys (rewardee_lists r)) + zlen (lookup_keys (rewardee_lists r)) < 2 ^ 32;
  ro_hash : zlen (rc_lastBlockHash c) = 32
}.

Lemma count_lists (lists : list (Z * list PubKey)) a b :
  0 <= a -> 0 <= b -> a + zlen (signer_keys lists) < 2 ^ 32 -> b + zlen (lookup_keys lists) < 2 ^ 32 ->
  foldl (fun '(sig_count, lookup_count) (e : Z * list PubKey) =>
           if e.1 =? LOOKUP_REWARD then (sig_count, u32 (lookup_count + zlen e.2)) else (u128 (sig_count + zlen e.2), lookup_count))
    (a, b) lists = (a + zlen (signer_keys lists), b + zlen (lookup_keys lists)).
Proof.
  revert a b. induction lists as [|[shard keys] lists IH]; intros a b Ha Hb Hs Hl; [unfold zlen; cbn; by rewrite !Z.add_0_r|].
  unfold signer_keys, lookup_keys in *. cbn [foldl fmap list_fmap concat fst snd] in *. rewrite !zlen_app in *.
  pose proof (zlen_nonneg keys). pose proof (zlen_nonneg (concat ((fun e => if e.1 =? LOOKUP_REWARD then [] else e.2) <$> lists))).
  pose proof (zlen_nonneg (concat ((fun e => if e.1 =? LOOKUP_REWARD then e.2 else []) <$> lists))).
  destruct (shard =? LOOKUP_REWARD); change (zlen (@nil PubKey)) with 0 in *; rewrite wrap_small by (unfold in_range; lia);
    rewrite IH by lia; f_equal; lia.
Qed.

Lemma count_nodes_sum c :
  zlen (rc_DSCommittee c) + zlen (concat (rc_shards c)) < 2 ^ 32 ->
  count_nodes c = zlen (rc_DSCommittee c) + zlen (concat (rc_shards c)).
Proof.
  unfold count_nodes. pose proof (zlen_nonneg (rc_DSCommittee c)) as H0. revert H0. generalize (zlen (rc_DSCommittee c)) as n.
  induction (rc_shards c) as [|shard shards IH]; intros n Hn Hlt; cbn [foldl concat] in *; [unfold zlen; cbn; lia|].
  rewrite zlen_app in *. pose proof (zlen_nonneg shard). pose proof (zlen_nonneg (concat shards)).
  rewrite wrap_small by (unfold in_range; lia). rewrite IH by lia. lia.
Qed.

(** Shares of one hundred percent. *)
Lemma shares_fit t b l : 0 <= t -> 0 <= b -> 0 <= l -> b + l <= 100 -> t * b / 100 + t * l / 100 <= t.
Proof.
  intros Ht Hb Hl Hs. pose proof (Z.mul_div_le (t * b) 100 ltac:(lia)). pose proof (Z.mul_div_le (t * l) 100 ltac:(lia)). nia.
Qed.

(** The amounts of an epoch: the reward and the fees, a share of them for all nodes, a
    share for the lookup nodes, and the rest for the co-signatures. *)
Definition epoch_total c : Z := COINBASE_REWARD_PER_DS c + rc_totalTxnFees c.
Definition epoch_nodes c : Z := zlen (rc_DSCommittee c) + zlen (concat (rc_shards c)).
Definition epoch_sigs r : Z := zlen (signer_keys (rewardee_lists r)).
Definition epoch_lookups r : Z := zlen (lookup_keys (rewardee_lists r)).
Definition epoch_rewards c r : Rewards :=
  let base := epoch_total c * BASE_REWARD_IN_PERCENT c / 100 in
  let lookup := epoch_total c * LOOKUP_REWARD_IN_PERCENT c / 100 in
  let node := epoch_total c - lookup - base in
  mkRewards (epoch_nodes c) (epoch_sigs r) (epoch_lookups r) (epoch_total c) base (base / epoch_nodes c) lookup (lookup / epoch_lookups r)
    node (node / epoch_sigs r).

(** When they can be computed: nothing overflows, and there is a node, a co-signature and a
    lookup node. *)
Definition payable c r : bool :=
  (epoch_total c <? 2 ^ 128) && (epoch_total c * BASE_REWARD_IN_PERCENT c <? 2 ^ 128) && (epoch_total c * LOOKUP_REWARD_IN_PERCENT c <? 2 ^ 128) &&
  (0 <? epoch_nodes c) && (0 <? epoch_sigs r) && (0 <? epoch_lookups r).

Record amounts_ok c r (w : Rewards) : Prop := {
  am_total : total_reward w = COINBASE_REWARD_PER_DS c + rc_totalTxnFees c;
  am_range : total_reward w < 2 ^ 128;
  am_nodes : node_count w = zlen (rc_DSCommittee c) + zlen (concat (rc_shards c));
  am_sigs : sig_count w = zlen (signer_keys (rewardee_lists r));
  am_lookups : lookup_count w = zlen (lookup_keys (rewardee_lists r));
  am_base : 0 <= base_reward_each w;
  am_each : 0 <= reward_each w;
  am_each_lookup : 0 <= reward_each_lookup w;
  am_left : 0 <= remainder w
}.

Lemma pos_eqb n : 0 <= n -> (0 <? n) = negb (n =? 0).
Proof. intros Hn. destruct (Z.ltb_spec 0 n), (Z.eqb_spec n 0); done || lia. Qed.

Lemma compute_rewards_eq c r : reward_ok c r -> compute_rewards c r = if payable c r then Some (epoch_rewards c r) else None.
Proof.
  intros [Hc Hf Hb Hl Hp Hn Hs _]. unfold compute_rewards, payable, epoch_rewards, epoch_total, epoch_nodes, epoch_sigs, epoch_lookups.
  pose proof (zlen_nonneg (signer_keys (rewardee_lists r))) as Hs0. pose proof (zlen_nonneg (lookup_keys (rewardee_lists r))) as Hl0.
  pose proof (zlen_nonneg (rc_DSCommittee c)). pose proof (zlen_nonneg (concat (rc_shards c))).
  unfold count_rewardees. rewrite count_lists, count_nodes_sum by lia. rewrite !Z.add_0_l.
  set (nodes := zlen (rc_DSCommittee c) + zlen (concat (rc_shards c))) in *.
  set (sigs := zlen (signer_keys (rewardee_lists r))) in *. set (looks := zlen (lookup_keys (rewardee_lists r))) in *.
  rewrite sm_add_spec by lia. destruct (Z.ltb_spec (COINBASE_REWARD_PER_DS c + rc_totalTxnFees c) (2 ^ 128)) as [Ht|]; [|done].
  cbn [negb andb]. set (t := COINBASE_REWARD_PER_DS c + rc_totalTxnFees c) in *.
  rewrite !sm_mul_spec by lia. destruct (Z.ltb_spec (t * BASE_REWARD_IN_PERCENT c) (2 ^ 128)); [|done]. cbn [negb andb].
  destruct (Z.ltb_spec (t * LOOKUP_REWARD_IN_PERCENT c) (2 ^ 128)); cbn [negb andb]; [|by destruct (sm_div _ _ _ _) as [[] ?]].
  pose proof (shares_fit t _ _ ltac:(lia) Hb Hl Hp) as Hfit.
  set (base := t * BASE_REWARD_IN_PERCENT c / 100) in *. set (look := t * LOOKUP_REWARD_IN_PERCENT c / 100) in *.
  assert (0 <= base) by (apply Z.div_pos; lia). assert (0 <= look) by (apply Z.div_pos; lia).
  rewrite (wrap_small 128 (t - look - base)) by (unfold in_range; lia). rewrite !sm_div_spec by lia. rewrite !pos_eqb by lia.
  by destruct (nodes =? 0), (sigs =? 0), (looks =? 0).
Qed.

Lemma payable_ok c r : reward_ok c r -> payable c r = true -> amounts_ok c r (epoch_rewards c r).
Proof.
  intros [Hc Hf Hb Hl Hp Hn Hs _] Hpay. unfold payable in Hpay. rewrite !andb_true_iff, !Z.ltb_lt in Hpay.
  destruct Hpay as (((((Ht & _) & _) & Hnodes) & Hsigs) & Hlooks).
  pose proof (shares_fit (epoch_total c) _ _ ltac:(unfold epoch_total; lia) Hb Hl Hp) as Hfit.
  assert (0 <= epoch_total c * BASE_REWARD_IN_PERCENT c / 100) by (apply Z.div_pos; [unfold epoch_total; nia|lia]).
  assert (0 <= epoch_total c * LOOKUP_REWARD_IN_PERCENT c / 100) by (apply Z.div_pos; [unfold epoch_total; nia|lia]).
  unfold epoch_rewards. set (base := epoch_total c * BASE_REWARD_IN_PERCENT c / 100) in *. set (look := epoch_total c * LOOKUP_REWARD_IN_PERCENT c / 100) in *.
  pose proof (Z.mul_div_le base (epoch_nodes c) Hnodes). pose proof (Z.mul_div_le look (epoch_lookups r) Hlooks).
  pose proof (Z.mul_div_le (epoch_total c - look - base) (epoch_sigs r) Hsigs).
  split; cbn [total_reward node_count sig_count lookup_count base_reward_each reward_each reward_each_lookup]; try done;
    try (apply Z.div_pos; lia).
  unfold remainder. cbn [total_reward node_count sig_count lookup_count base_reward_each reward_each reward_each_lookup]. lia.
Qed.

(** What the payments add up to: at most so much per key, and exactly so much where
    there are no guards. *)
Lemma spent_app l k : spent (l ++ k) = spent l + spent k.
Proof. apply sum_app. Qed.

Lemma spent_concat (l : PubKey -> list (Z * Z)) each keys (exact : Prop) :
  (forall pk, spent (l pk) <= each /\ (exact -> spent (l pk) = each)) ->
  spent (concat (l <$> keys)) <= zlen keys * each /\ (exact -> spent (concat (l <$> keys)) = zlen keys * each).
Proof.
  intros Hone. induction keys as [|pk keys [IH IHe]]; [unfold spent, zlen; cbn; lia|]. cbn [fmap list_fmap concat].
  rewrite spent_app. destruct (Hone pk) as [H1 H1e]. unfold zlen in *. cbn [length]. split; [lia|].
  intros Hx. specialize (H1e Hx). specialize (IHe Hx). lia.
Qed.

Lemma spent_one a each : spent [(a, each)] = each.
Proof. unfold spent. cbn. lia. Qed.

Lemma base_spent c inG each pk :
  0 <= each -> spent (base_payment c inG each pk) <= each /\ (rc_guard_mode c = false -> spent (base_payment c inG each pk) = each).
Proof.
  intros He. unfold base_payment. destruct (rc_guard_mode c && inG pk) eqn:E; [|rewrite spent_one; lia].
  split; [done|]. intros Hg. by rewrite Hg in E.
Qed.

Lemma signer_spent c each pk :
  0 <= each -> spent (signer_payment c each pk) <= each /\ (rc_guard_mode c = false -> spent (signer_payment c each pk) = each).
Proof.
  intros He. unfold signer_payment. destruct (rc_guard_mode c && _) eqn:E; [|rewrite spent_one; lia].
  split; [done|]. intros Hg. by rewrite Hg in E.
Qed.

Lemma lists_spent c w lists :
  0 <= reward_each w ->
  let most := zlen (signer_keys lists) * reward_each w + zlen (lookup_keys lists) * reward_each_lookup w in
  spent (concat (list_payments c w <$> lists)) <= most /\
  (rc_guard_mode c = false -> spent (concat (list_payments c w <$> lists)) = most).
Proof.
  intros He. induction lists as [|[shard keys] lists [IH IHe]]; [done|]. unfold signer_keys, lookup_keys in *.
  cbn [fmap list_fmap concat fst snd] in *. rewrite spent_app, !zlen_app. unfold list_payments at 1 3. cbn [fst snd].
  destruct (shard =? LOOKUP_REWARD); change (zlen (@nil PubKey)) with 0.
  - destruct (spent_concat (fun pk => [(addr pk, reward_each_lookup w)]) (reward_each_lookup w) keys (rc_guard_mode c = false)) as [H1 H2];
      [intros pk; by rewrite spent_one|]. split; [lia|]. intros Hg. specialize (H2 Hg). specialize (IHe Hg). lia.
  - destruct (spent_concat (signer_payment c (reward_each w)) (reward_each w) keys (rc_guard_mode c = false)) as [H1 H2];
      [intros pk; by apply signer_spent|]. split; [lia|]. intros Hg. specialize (H2 Hg). specialize (IHe Hg). lia.
Qed.

Lemma payments_spent c r w :
  amounts_ok c r w ->
  spent (base_payments c w ++ cosig_payments c w r) + remainder w <= total_reward w /\
  (rc_guard_mode c = false -> spent (base_payments c w ++ cosig_payments c w r) + remainder w = total_reward w).
Proof.
  intros [_ _ Hn Hs Hl Hb He _ _]. unfold base_payments, cosig_payments, remainder. rewrite !spent_app, Hn, Hs, Hl.
  destruct (spent_concat (base_payment c (IsNodeInDSGuardList c) (base_reward_each w)) (base_reward_each w) (rc_DSCommittee c)
    (rc_guard_mode c = false)) as [H1 H1e]; [intros pk; by apply base_spent|].
  destruct (spent_concat (base_payment c (IsNodeInShardGuardList c) (base_reward_each w)) (base_reward_each w) (concat (rc_shards c))
    (rc_guard_mode c = false)) as [H2 H2e]; [intros pk; by apply base_spent|].
  destruct (lists_spent c w (rewardee_lists r) He) as [H3 H3e]. split; [lia|].
  intros Hg. specialize (H1e Hg). specialize (H2e Hg). specialize (H3e Hg). lia.
Qed.

(** ** All payments *)

Lemma base_nonneg_one c inG each pk : 0 <= each -> Forall (fun x => 0 <= x.2) (base_payment c inG each pk).
Proof. intros He. unfold base_payment. destruct (_ && _); by repeat constructor. Qed.

Lemma base_nonneg c inG each keys : 0 <= each -> Forall (fun x => 0 <= x.2) (concat (base_payment c inG each <$> keys)).
Proof.
  intros He. apply Forall_concat, Forall_fmap, Forall_true. intros pk. by apply base_nonneg_one.
Qed.

Lemma charArr_ok h : zlen h = 32 -> exists v, charArrTo16Bits h = Ret v /\ 0 <= v < 2 ^ 16.
Proof.
  intros Hl. unfold charArrTo16Bits. rewrite Hl. change (32 =? 0) with false. cbv iota. change (u32 (32 - 1)) with 31.
  change (u32 (31 - 1)) with 30. unfold zlen in Hl.
  destruct (lookup_lt_is_Some_2 h 30 ltac:(lia)) as [x Hx]. destruct (lookup_lt_is_Some_2 h 31 ltac:(lia)) as [y Hy].
  unfold at_, vec_at. change (0 <=? 30) with true. change (0 <=? 31) with true. cbv iota.
  change (Z.to_nat 30) with 30%nat. change (Z.to_nat 31) with 31%nat. rewrite Hx, Hy. cbn [mbind outcome_bind].
  eexists. split; [done|]. unfold wrap. apply Z.mod_pos_bound. lia.
Qed.

(** The lookup nodes are added to the rewardees of the epoch. *)
Definition with_lookups c (s : @CoinbaseState PubKey _ _) : @CoinbaseState PubKey _ _ :=
  foldl (fun s pk => mkCoinbaseState (add_rewardee (m_coinbaseRewardees s) (rc_epochNum c) LOOKUP_REWARD pk)
                       (m_mapNodeReputation s)) s (rc_lookups c).

(** The three loops, one after the other. *)
Lemma loops_pay c r w st :
  amounts_ok c r w -> zlen (signer_keys (rewardee_lists r)) + zlen (lookup_keys (rewardee_lists r)) < 2 ^ 32 ->
  funded (view (temp_of st)) (spent (base_payments c w ++ cosig_payments c w r)) ->
  exists p1 p2 p3,
    pay_all (pay_base ACCOUNT_VERSION addr c (IsNodeInDSGuardList c) (base_reward_each w)) (mkPaying st [] ∅ 0 0) (rc_DSCommittee c) = Ret p1 /\
    pay_all (pay_base ACCOUNT_VERSION addr c (IsNodeInShardGuardList c) (base_reward_each w)) p1 (concat (rc_shards c)) = Ret p2 /\
    pay_lists ACCOUNT_VERSION addr c w p2 (rewardee_lists r) = Ret p3 /\
    paid (view (temp_of st)) (accounts p3) (base_payments c w ++ cosig_payments c w r) /\
    nonGuard p3 = candidates c w r /\ suc_counter p3 = sig_count w /\ suc_lookup_counter p3 = lookup_count w.
Proof.
  intros [_ _ _ Hs Hl Hb He Hel _] Hfew Hf. set (l1 := concat (base_payment c (IsNodeInDSGuardList c) (base_reward_each w) <$> rc_DSCommittee c)).
  set (l2 := concat (base_payment c (IsNodeInShardGuardList c) (base_reward_each w) <$> concat (rc_shards c))).
  set (l3 := cosig_payments c w r). unfold base_payments in Hf. fold l1 l2 l3 in Hf.
  assert (0 <= spent l2) as Hl2 by (by apply sum_nonneg, base_nonneg).
  assert (0 <= spent l3) as Hl3.
  { apply sum_nonneg. unfold l3, cosig_payments. apply Forall_concat, Forall_fmap, Forall_true. intros e. cbn. unfold list_payments.
    apply Forall_concat, Forall_fmap, Forall_true. intros pk. cbn. unfold signer_payment.
    destruct (_ =? _); [by repeat constructor|]. destruct (_ && _); by repeat constructor. }
  rewrite !spent_app in Hf.
  destruct (pay_all_makes _ _ _ (fun _ => True) (rc_DSCommittee c)
    (fun pk => base_nonneg_one c (IsNodeInDSGuardList c) (base_reward_each w) pk Hb)
    (fun pk => base_makes c (IsNodeInDSGuardList c) (base_reward_each w) pk Hb) (mkPaying st [] ∅ 0 0) I) as (p1 & E1 & P1 & B1 & _).
  { eapply funded_le; [exact Hf|]. fold l1. lia. }
  fold l1 in P1. cbn [py_store] in P1.
  assert (funded (accounts p1) (spent l2 + spent l3)) as F1 by (eapply funded_paid; [|exact P1]; eapply funded_le; [exact Hf|lia]).
  destruct (pay_all_makes _ _ _ (fun _ => True) (concat (rc_shards c))
    (fun pk => base_nonneg_one c (IsNodeInShardGuardList c) (base_reward_each w) pk Hb)
    (fun pk => base_makes c (IsNodeInShardGuardList c) (base_reward_each w) pk Hb) p1 I) as (p2 & E2 & P2 & B2 & _).
  { eapply funded_le; [exact F1|]. fold l2. lia. }
  fold l2 in P2. rewrite B1 in B2. unfold book at 2 in B2. cbn [nonGuard pubKeyAndIsGuard suc_counter suc_lookup_counter] in B2.
  rewrite (book_base_fold c _ (base_reward_each w)), (book_base_fold c _ (base_reward_each w)) in B2. fold l1 l2 (guard_marks c) in B2. cbn [app] in B2.
  assert (funded (accounts p2) (spent l3)) as F2 by (eapply funded_paid; [exact F1|exact P2]).
  destruct (pay_lists_makes c w (rewardee_lists r) He Hel p2) as (p3 & E3 & P3 & B3 & _); [by rewrite B2|exact F2|].
  rewrite B2 in B3. destruct (book_lists_fold c (rewardee_lists r) (l1.*1 ++ l2.*1) (guard_marks c) 0 0) as (marks' & Hbook);
    [lia|lia|pose proof (zlen_nonneg (lookup_keys (rewardee_lists r))); lia|pose proof (zlen_nonneg (signer_keys (rewardee_lists r))); lia|].
  rewrite Hbook in B3. injection B3 as Hng _ Hsc Hlc. exists p1, p2, p3. split; [exact E1|]. split; [exact E2|]. split; [exact E3|].
  split; [eapply paid_app; [eapply paid_app; [exact P1|exact P2]|exact P3]|]. rewrite Hng, Hsc, Hlc, Hs, Hl. split; [|lia].
  unfold candidates, base_payments. fold l1 l2. by rewrite fmap_app.
Qed.

Lemma candidates_nonzero c w r a : a ∈ candidates c w r -> a <> 0.
Proof.
  assert (forall inG each keys, Forall (fun x : Z * Z => x.1 <> 0) (concat (base_payment c inG each <$> keys))) as Hb.
  { intros inG each keys. apply Forall_concat, Forall_fmap, Forall_true. intros pk. cbn. unfold base_payment.
    destruct (_ && _); [apply Forall_nil_2|]. apply Forall_singleton, Haddr. }
  unfold candidates. intros [Ha|Ha]%elem_of_app.
  - apply list_elem_of_fmap in Ha as (x & -> & Hx). unfold base_payments in Hx.
    apply elem_of_app in Hx as [Hx|Hx]; [pose proof (Hb (IsNodeInDSGuardList c) (base_reward_each w) (rc_DSCommittee c)) as Hall|
      pose proof (Hb (IsNodeInShardGuardList c) (base_reward_each w) (concat (rc_shards c))) as Hall];
      rewrite Forall_forall in Hall; by apply Hall.
  - apply list_elem_of_fmap in Ha as (pk & -> & _). apply Haddr.
Qed.

(** The remainder does not wrap around. *)
Lemma balance_left_remainder c r w p :
  amounts_ok c r w -> suc_counter p = sig_count w -> suc_lookup_counter p = lookup_count w -> balance_left w p = remainder w.
Proof.
  intros [_ Ht Hn Hs Hl Hb He Hel Hleft] E1 E2. unfold balance_left, remainder in *. rewrite E1, E2.
  assert (0 <= sig_count w /\ 0 <= lookup_count w /\ 0 <= node_count w) as (? & ? & ?).
  { rewrite Hn, Hs, Hl. pose proof (zlen_nonneg (signer_keys (rewardee_lists r))). pose proof (zlen_nonneg (lookup_keys (rewardee_lists r))).
    pose proof (zlen_nonneg (rc_DSCommittee c)). pose proof (zlen_nonneg (concat (rc_shards c))). lia. }
  assert (0 <= sig_count w * reward_each w) by nia. assert (0 <= lookup_count w * reward_each_lookup w) by nia.
  assert (0 <= node_count w * base_reward_each w) by nia.
  rewrite (wrap_small 128 (sig_count w * reward_each w)), (wrap_small 128 (lookup_count w * reward_each_lookup w)),
    (wrap_small 128 (node_count w * base_reward_each w)), wrap_small by (unfold in_range; lia). done.
Qed.


End coinbase.

(** ** The co-signatures of a block *)

Section signers.
Context {PubKey : Type} `{Countable PubKey}.
Implicit Types (s : @CoinbaseState PubKey _ _) (r : gmap Z (gmap Z (list PubKey))).

Definition rewardees_of r (epochNum shard_id : Z) : list PubKey := default [] (r !! epochNum ≫= (fun shards => shards !! shard_id)).

(** A member is listed once for each of the two rounds that it signed. *)
Fixpoint signed_keys (keys : list PubKey) (b1 b2 : list bool) : list PubKey :=
  match keys, b1, b2 with
  | pk :: keys, x :: b1, y :: b2 => (if x then [pk] else []) ++ (if y then [pk] else []) ++ signed_keys keys b1 b2
  | _, _, _ => []
  end.

Definition reputation_ok (m : gmap PubKey Z) : Prop := map_Forall (fun _ v => 0 <= v <= MAX_REPUTATION) m.

(** From [s] to [s'] the keys [l] are noted under an epoch and a shard. *)
Record noted (epochNum shard_id : Z) s (l : list PubKey) s' : Prop := {
  no_here : rewardees_of (m_coinbaseRewardees s') epochNum shard_id = rewardees_of (m_coinbaseRewardees s) epochNum shard_id ++ l;
  no_other : forall e i, (e, i) <> (epochNum, shard_id) ->
    rewardees_of (m_coinbaseRewardees s') e i = rewardees_of (m_coinbaseRewardees s) e i;
  no_reputation : reputation_ok (m_mapNodeReputation s) -> reputation_ok (m_mapNodeReputation s')
}.

Lemma noted_nil e i s : noted e i s [] s.
Proof. split; [by rewrite app_nil_r|done|done]. Qed.

Lemma noted_app e i s1 s2 s3 l k : noted e i s1 l s2 -> noted e i s2 k s3 -> noted e i s1 (l ++ k) s3.
Proof.
  intros [H1 O1 R1] [H2 O2 R2]. split; [by rewrite H2, H1, app_assoc| |auto]. intros e' i' Hne. by rewrite O2, O1.
Qed.

Lemma note_signer_noted e i signed pk s : noted e i s (if signed : bool then [pk] else []) (note_signer e i signed pk s).
Proof.
  destruct signed; [|apply noted_nil]. split; cbn [note_signer m_coinbaseRewardees m_mapNodeReputation].
  - unfold rewardees_of, add_rewardee. rewrite lookup_insert_eq. cbn. rewrite lookup_insert_eq. cbn.
    destruct (m_coinbaseRewardees s !! e) as [shards|]; cbn; [done|]. by rewrite lookup_empty.
  - intros e' i' Hne. unfold rewardees_of, add_rewardee. destruct (decide (e = e')) as [<-|]; [|by rewrite lookup_insert_ne].
    rewrite lookup_insert_eq. cbn. rewrite lookup_insert_ne by congruence. destruct (m_coinbaseRewardees s !! e) as [shards|]; [done|].
    cbn. by rewrite lookup_empty.
  - intros Hr. unfold raise_reputation. apply map_Forall_insert_2; [|done]. set (v := default 0 (m_mapNodeReputation s !! pk)).
    assert (0 <= v <= MAX_REPUTATION) as Hv.
    { unfold v. destruct (m_mapNodeReputation s !! pk) as [x|] eqn:E; [by apply (Hr pk)|]. unfold MAX_REPUTATION. cbn. lia. }
    destruct (Z.ltb_spec v MAX_REPUTATION); [|done]. unfold MAX_REPUTATION in *. rewrite wrap_small by (unfold in_range; lia). lia.
Qed.

Lemma at_app_here {A} (l : list A) x k : at_ (l ++ x :: k) (zlen l) = Ret x.
Proof.
  unfold at_, vec_at. pose proof (zlen_nonneg l). destruct (Z.leb_spec 0 (zlen l)); [|lia]. unfold zlen. rewrite Nat2Z.id.
  by rewrite list_lookup_middle.
Qed.

Lemma note_signers_noted e i keys : forall done1 done2 b1 b2 s,
  length done1 = length done2 -> length b1 = length keys -> length b2 = length keys -> zlen done1 + zlen keys < 2 ^ 32 ->
  exists s', note_signers (done1 ++ b1) (done2 ++ b2) e i keys (zlen done1) s = Ret s' /\ noted e i s (signed_keys keys b1 b2) s'.
Proof.
  induction keys as [|pk keys IH]; intros done1 done2 b1 b2 s Hd H1 H2 Hlt; cbn [note_signers].
  { exists s. split; [done|]. cbn. apply noted_nil. }
  destruct b1 as [|x b1]; [done|]. destruct b2 as [|y b2]; [done|]. rewrite at_app_here. cbn [mbind outcome_bind].
  assert (zlen done1 = zlen done2) as Hz by (unfold zlen; lia). rewrite Hz, at_app_here, <- Hz. cbn [mbind outcome_bind signed_keys].
  set (s1 := note_signer e i x pk s). set (s2 := note_signer e i y pk s1).
  assert (u32 (zlen done1 + 1) = zlen (done1 ++ [x])) as ->.
  { unfold zlen in *. cbn [length] in Hlt. rewrite length_app. cbn [length]. rewrite wrap_small by (unfold in_range; lia). lia. }
  replace (done1 ++ x :: b1) with ((done1 ++ [x]) ++ b1) by (by rewrite <- app_assoc).
  replace (done2 ++ y :: b2) with ((done2 ++ [y]) ++ b2) by (by rewrite <- app_assoc).
  destruct (IH (done1 ++ [x]) (done2 ++ [y]) b1 b2 s2) as (s' & E & Hn); [rewrite !length_app; cbn; lia|by injection H1|by injection H2| |].
  { unfold zlen in *. rewrite length_app. cbn [length] in *. lia. }
  exists s'. split; [exact E|]. eapply noted_app; [apply note_signer_noted|]. eapply noted_app; [apply note_signer_noted|exact Hn].
Qed.

(** Who co-signed a block is noted.  When the co-signatures of a shard for an epoch
    are not noted yet and the bit maps fit the members, each member is listed once per
    round it signed, in order; what is noted for other shards and epochs stays;
    reputations stay between 0 and the maximum; and once someone is listed, a second
    set of co-signatures for the same block is refused. *)
Theorem cosigners_noted b1 b2 keys shard_id epochNum s :
  has_rewardees (m_coinbaseRewardees s) epochNum shard_id = false ->
  length b1 = length keys -> length b2 = length keys -> zlen keys < 2 ^ 32 ->
  exists s', SaveCoinbaseCore false b1 b2 keys shard_id epochNum s = Ret (true, s') /\
    rewardees_of (m_coinbaseRewardees s') epochNum shard_id = signed_keys keys b1 b2 /\
    (forall e i, (e, i) <> (epochNum, shard_id) ->
       rewardees_of (m_coinbaseRewardees s') e i = rewardees_of (m_coinbaseRewardees s) e i) /\
    (reputation_ok (m_mapNodeReputation s) -> reputation_ok (m_mapNodeReputation s')) /\
    (signed_keys keys b1 b2 <> [] -> forall b1' b2' keys',
       SaveCoinbaseCore false b1' b2' keys' shard_id epochNum s' = Ret (false, s')).
Proof.
  intros Hnew H1 H2 Hlt. destruct (note_signers_noted epochNum shard_id keys [] [] b1 b2 s) as (s' & E & [Hh Ho Hr]); [done..|].
  cbn [app] in E. change (zlen (@nil bool)) with 0 in E. exists s'. unfold SaveCoinbaseCore at 1. rewrite Hnew.
  assert (zlen keys = zlen b1) as -> by (unfold zlen; lia). assert (zlen b1 = zlen b2) as -> by (unfold zlen; lia).
  rewrite Z.eqb_refl. cbn [negb]. rewrite E. split; [done|].
  assert (rewardees_of (m_coinbaseRewardees s) epochNum shard_id = []) as Hold.
  { unfold has_rewardees, rewardees_of in *. destruct (m_coinbaseRewardees s !! epochNum) as [shards|]; [|done]. cbn.
    apply bool_decide_eq_false, eq_None_not_Some in Hnew. by rewrite Hnew. }
  rewrite Hold in Hh. cbn [app] in Hh. split; [done|]. split; [done|]. split; [done|]. intros Hne b1' b2' keys'.
  unfold SaveCoinbaseCore. assert (has_rewardees (m_coinbaseRewardees s') epochNum shard_id = true) as ->; [|done].
  unfold has_rewardees, rewardees_of in *. destruct (m_coinbaseRewardees s' !! epochNum) as [shards|]; [|by cbn in Hh; congruence].
  cbn in Hh. apply bool_decide_eq_true. destruct (shards !! shard_id); [done|]. cbn in Hh. congruence.
Qed.

End signers.

(** ** An epoch of rewards *)

Module CoinbaseSample.
Import Cyclic AccountCodec MapTrie DeltaSample.

Definition address (k : Z) : Z := Z.abs k + 100.
Lemma address_nonzero k : address k <> 0.
Proof. unfold address. lia. Qed.

(** Member 2 of the committee is a guard. *)
Definition context : @RewardContext Z :=
  mkRewardContext 1000 20 10 true (fun k => k =? 2) (fun _ => false) [1; 2] [[3; 4]] [5] 7 100 (replicate 32 9).

Definition before : @CoinbaseState Z _ _ := mkCoinbaseState ∅ ∅.
Definition noted_final := SaveCoinbaseCore false [true; true] [false; true] [1; 2] FINALBLOCK_REWARD 7 before.
Definition noted_shard := SaveCoinbaseCore false [true; true] [false; true] [3; 4] 0 7.
Definition after : @CoinbaseState Z _ _ :=
  match noted_final with
  | Ret (_, s) => match noted_shard s with Ret (_, s) => s | Fault _ => s end
  | Fault _ => before
  end.

Definition rich : gmap Z Account := {[0 := mkAccount 1 5000 0 0 0 0 []]}.
Definition rewards : Rewards := mkRewards 4 6 1 1100 220 55 110 110 770 128.

Lemma sample_rewards : compute_rewards context (m_coinbaseRewardees (with_lookups context after)) = Some rewards.
Proof. vm_compute. reflexivity. Qed.

Lemma sample_ok : reward_ok context (m_coinbaseRewardees (with_lookups context after)).
Proof. split; try (vm_compute; done); split; vm_compute; done. Qed.

Definition paid_balances (o : outcome (@CoinbaseState Z _ _ * Store * option (@DiagnosticDataCoinbase Z))) : option (list Z) :=
  match o with
  | Ret (_, st, _) => Some ((fun a => balance_at (view (temp_of st)) a) <$> [0; 101; 102; 103; 104; 105])
  | Fault _ => None
  end.

(** The guard gets nothing; the coinbase account pays the rest. *)
Example sample_paid :
  paid_balances (pay_coinbase 1 address context 0 after (store ∅ rich)) = Some [4311; 183; 0; 185; 311; 110].
Proof. vm_compute. reflexivity. Qed.


Lemma cosigners_noted_witness :
  exists s', SaveCoinbaseCore false [true; true] [false; true] [1; 2] FINALBLOCK_REWARD 7 before = Ret (true, s') /\
    rewardees_of (m_coinbaseRewardees s') 7 FINALBLOCK_REWARD = [1; 2; 2].
Proof.
  destruct (cosigners_noted [true; true] [false; true] [1; 2] FINALBLOCK_REWARD 7 before) as (s' & E & Hl & _); [done..|].
  exists s'. split; [exact E|exact Hl].
Defined.

End CoinbaseSample.
