(* ===== verification/Reputation.v ===== *)
(** * Reputation and blacklist: libNetwork/ReputationManager.cpp, Blacklist.cpp

    Peers are punished for refused connections and invalid messages and awarded after
    every epoch; a peer whose score falls to the threshold is put on the blacklist, and
    its score is lowered further so that it takes a while to come back. *)

From stdpp Require Import base numbers gmap countable list.
From S2P Require Import Prelude Json Receipt TxnPool AccountStore.
Open Scope Z_scope.

(** ** [Blacklist] *)

Record Blacklist := mkBlacklist {
  m_blacklistIP : gmap Z bool;
  m_excludedIP : gset Z;
  m_enabled : bool
}.

Definition Blacklist_new : Blacklist := mkBlacklist ∅ ∅ true.

Definition Exist (b : Blacklist) (ip : Z) : bool :=
  m_enabled b && bool_decide (is_Some (m_blacklistIP b !! ip)) && negb (bool_decide (ip ∈ m_excludedIP b)).

(** [emplace] keeps an entry that is there. *)
Definition bl_Add (b : Blacklist) (ip : Z) : Blacklist :=
  if negb (m_enabled b) then b
  else if bool_decide (ip ∈ m_excludedIP b) then b
  else mkBlacklist (match m_blacklistIP b !! ip with Some _ => m_blacklistIP b | None => <[ip := true]> (m_blacklistIP b) end)
         (m_excludedIP b) (m_enabled b).

Definition bl_Remove (b : Blacklist) (ip : Z) : Blacklist :=
  if negb (m_enabled b) then b else mkBlacklist (delete ip (m_blacklistIP b)) (m_excludedIP b) (m_enabled b).

Definition bl_Clear (b : Blacklist) : Blacklist := mkBlacklist ∅ (m_excludedIP b) (m_enabled b).

(** The first entries in the order of the hash table, which is an argument: a list of
    the addresses. *)
Definition bl_Pop (order : gmap Z bool -> list Z) (b : Blacklist) (num_to_pop : nat) : Blacklist :=
  if negb (m_enabled b) then b
  else mkBlacklist (foldl (fun m ip => delete ip m) (m_blacklistIP b) (take num_to_pop (order (m_blacklistIP b))))
         (m_excludedIP b) (m_enabled b).

Definition SizeOfBlacklist (b : Blacklist) : Z := u32 (Z.of_nat (size (m_blacklistIP b))).

Definition bl_Enable (b : Blacklist) (enable : bool) : Blacklist :=
  let b := if negb enable then bl_Clear b else b in mkBlacklist (m_blacklistIP b) (m_excludedIP b) enable.

Definition Exclude (b : Blacklist) (ip : Z) : bool * Blacklist :=
  if negb (m_enabled b) then (false, b)
  else (negb (bool_decide (ip ∈ m_excludedIP b)), mkBlacklist (m_blacklistIP b) ({[ip]} ∪ m_excludedIP b) (m_enabled b)).

Definition RemoveExclude (b : Blacklist) (ip : Z) : bool * Blacklist :=
  if negb (m_enabled b) then (false, b)
  else (bool_decide (ip ∈ m_excludedIP b), mkBlacklist (m_blacklistIP b) (m_excludedIP b ∖ {[ip]}) (m_enabled b)).

(** ** [ReputationManager] *)

(** [ScoreType] *)
Definition UPPERREPTHRESHOLD : Z := 500.
Definition REPTHRESHOLD : Z := -500.
Definition GOOD : Z := 0.
Definition BAN_MULTIPLIER : Z := 24.
Definition AWARD_FOR_GOOD_NODES : Z := 50.

(** The scores, and the blacklist that the manager works on. *)
Record ReputationManager := mkReputation {
  m_Reputations : gmap Z Z;
  rm_blacklist : Blacklist
}.

Section manager.
Context `{SafeMathInt}.
Implicit Types r : ReputationManager.

Definition rm_set_scores r m : ReputationManager := mkReputation m (rm_blacklist r).
Definition rm_set_blacklist r b : ReputationManager := mkReputation (m_Reputations r) b.

Definition AddNodeIfNotKnown r (ip : Z) : ReputationManager :=
  match m_Reputations r !! ip with
  | Some _ => r
  | None => rm_set_scores r (<[ip := GOOD]> (m_Reputations r))
  end.

Definition GetReputation r (ip : Z) : Z * ReputationManager :=
  let r := AddNodeIfNotKnown r ip in (default 0 (m_Reputations r !! ip), r).

Definition IsNodeBanned r (ip : Z) : bool * ReputationManager :=
  let '(score, r) := GetReputation r ip in (score <=? REPTHRESHOLD, r).

Definition rm_Clear r : ReputationManager := rm_set_scores r ∅.

Definition SetReputation r (ip score : Z) : ReputationManager :=
  let r := AddNodeIfNotKnown r ip in
  rm_set_scores r (<[ip := if score >? UPPERREPTHRESHOLD then UPPERREPTHRESHOLD else score]> (m_Reputations r)).

(** An overflow is logged only; the score is then the old one. *)
Definition UpdateReputation r (ip delta : Z) : ReputationManager :=
  let '(NewRep, r) := GetReputation r ip in
  let '(_, NewRep) := smi_add 32 NewRep delta NewRep in
  let '(lowered, r) :=
    if NewRep <=? REPTHRESHOLD then
      let '(banned, r) := IsNodeBanned r ip in
      (if negb banned then (smi_sub 32 NewRep (BAN_MULTIPLIER * AWARD_FOR_GOOD_NODES) NewRep).2 else NewRep, r)
    else (NewRep, r) in
  SetReputation r ip lowered.

Definition PunishNode r (ip penalty : Z) : ReputationManager :=
  let r := UpdateReputation r ip penalty in
  if negb (Exist (rm_blacklist r) ip) then
    let '(banned, r) := IsNodeBanned r ip in
    if banned : bool then rm_set_blacklist r (bl_Add (rm_blacklist r) ip) else r
  else r.

Definition AwardNode r (ip : Z) : ReputationManager :=
  let r := UpdateReputation r ip AWARD_FOR_GOOD_NODES in
  if Exist (rm_blacklist r) ip then
    let '(banned, r) := IsNodeBanned r ip in
    if negb banned then rm_set_blacklist r (bl_Remove (rm_blacklist r) ip) else r
  else r.

(** In some order, as the hash table of the source has it. *)
Definition GetAllKnownIP r : list Z := (map_to_list (m_Reputations r)).*1.

Definition AwardAllNodes r : ReputationManager := foldl AwardNode r (GetAllKnownIP r).

End manager.

(** ** The blacklist follows the scores *)

Section properties.
Context `{Hmath : SafeMathInt} `{Hspec : !SafeMathIntSpec}.
Implicit Types (r : ReputationManager) (ip : Z).

Definition score r ip : Z := default GOOD (m_Reputations r !! ip).

(** The score after an update by [delta]. *)
Definition after_update (s delta : Z) : Z :=
  let new := if fits_int 32 (s + delta) then s + delta else s in
  let lowered :=
    if (new <=? REPTHRESHOLD) && negb (s <=? REPTHRESHOLD) && fits_int 32 (new - BAN_MULTIPLIER * AWARD_FOR_GOOD_NODES)
    then new - BAN_MULTIPLIER * AWARD_FOR_GOOD_NODES else new in
  Z.min lowered UPPERREPTHRESHOLD.

Definition scores_ok r : Prop := map_Forall (fun _ s => - 2 ^ 31 <= s <= UPPERREPTHRESHOLD) (m_Reputations r).

Lemma score_range r ip : scores_ok r -> - 2 ^ 31 <= score r ip <= UPPERREPTHRESHOLD.
Proof.
  intros Hok. unfold score. destruct (m_Reputations r !! ip) as [s|] eqn:E; [by apply (Hok ip)|]. unfold GOOD, UPPERREPTHRESHOLD. cbn. lia.
Qed.

Lemma GetReputation_spec r ip :
  let '(s, r') := GetReputation r ip in
  s = score r ip /\ (forall i, score r' i = score r i) /\ rm_blacklist r' = rm_blacklist r /\ is_Some (m_Reputations r' !! ip) /\
  (scores_ok r -> scores_ok r').
Proof.
  unfold GetReputation, AddNodeIfNotKnown, score. destruct (m_Reputations r !! ip) as [s|] eqn:E.
  - rewrite E. done.
  - cbn [rm_set_scores m_Reputations]. rewrite lookup_insert_eq. split; [done|]. split; [|split; [done|]].
    + intros i. destruct (decide (ip = i)) as [<-|]; [by rewrite lookup_insert_eq, E|by rewrite lookup_insert_ne].
    + split; [done|]. intros Hok. apply map_Forall_insert_2; [unfold GOOD, UPPERREPTHRESHOLD; lia|done].
Qed.

Lemma SetReputation_spec r ip v :
  let r' := SetReputation r ip v in
  score r' ip = Z.min v UPPERREPTHRESHOLD /\ (forall i, i <> ip -> score r' i = score r i) /\ rm_blacklist r' = rm_blacklist r /\
  (scores_ok r -> - 2 ^ 31 <= v -> scores_ok r').
Proof.
  cbn zeta. unfold SetReputation. pose proof (GetReputation_spec r ip) as Hg. unfold GetReputation in Hg.
  destruct Hg as (_ & Hs & Hb & _ & Hok). unfold score in *. cbn [rm_set_scores m_Reputations rm_blacklist].
  rewrite lookup_insert_eq. cbn [default]. rewrite Z.gtb_ltb.
  assert ((if UPPERREPTHRESHOLD <? v then UPPERREPTHRESHOLD else v) = Z.min v UPPERREPTHRESHOLD) as ->
    by (destruct (Z.ltb_spec UPPERREPTHRESHOLD v); lia).
  split; [done|]. split; [intros i Hi; by rewrite lookup_insert_ne, Hs|]. split; [done|]. intros Hr Hv.
  apply map_Forall_insert_2; [unfold UPPERREPTHRESHOLD in *; lia|by apply Hok].
Qed.

Lemma fits32 a : fits_int 32 a = true <-> - 2 ^ 31 <= a < 2 ^ 31.
Proof. unfold fits_int. rewrite andb_true_iff, Z.leb_le, Z.ltb_lt. done. Qed.

Lemma UpdateReputation_spec r ip delta :
  scores_ok r -> fits_int 32 delta = true ->
  let r' := UpdateReputation r ip delta in
  score r' ip = after_update (score r ip) delta /\ (forall i, i <> ip -> score r' i = score r i) /\
  rm_blacklist r' = rm_blacklist r /\ scores_ok r'.
Proof.
  intros Hok Hd. cbn zeta. unfold UpdateReputation, after_update. pose proof (score_range r ip Hok) as Hr.
  pose proof (GetReputation_spec r ip) as Hg. destruct (GetReputation r ip) as [s r1]. destruct Hg as (-> & Hs1 & Hb1 & _ & Hok1).
  rewrite smi_add_spec by (try done; apply fits32; unfold UPPERREPTHRESHOLD in Hr; lia).
  set (new := if fits_int 32 (score r ip + delta) then score r ip + delta else score r ip).
  assert ((if fits_int 32 (score r ip + delta) then (true, score r ip + delta) else (false, score r ip)) =
          (fits_int 32 (score r ip + delta), new)) as ->
    by (unfold new; by destruct (fits_int 32 (score r ip + delta))).
  assert (- 2 ^ 31 <= new < 2 ^ 31) as Hn.
  { unfold new. destruct (fits_int 32 (score r ip + delta)) eqn:Ef; [by apply fits32|unfold UPPERREPTHRESHOLD in Hr; lia]. }
  set (pair := if new <=? REPTHRESHOLD then _ else _). set (low := if _ && _ && _ then _ else new).
  assert (pair.1 = low /\ (forall i, score pair.2 i = score r i) /\ rm_blacklist pair.2 = rm_blacklist r /\ scores_ok pair.2)
    as (Hlow & Hs2 & Hb2 & Hok2).
  { unfold pair, low. destruct (new <=? REPTHRESHOLD); cbn [andb]; [|split; [done|]; split; [done|]; split; [done|]; by apply Hok1].
    unfold IsNodeBanned. pose proof (GetReputation_spec r1 ip) as Hg. destruct (GetReputation r1 ip) as [s2 r2].
    destruct Hg as (-> & Hs2 & Hb2 & _ & Hok2). rewrite Hs1. destruct (score r ip <=? REPTHRESHOLD); cbn [negb andb fst snd].
    - split; [done|]. split; [intros i; by rewrite Hs2|]. split; [congruence|]. by apply Hok2, Hok1.
    - rewrite smi_sub_spec by (by apply fits32). split; [by destruct (fits_int 32 (new - BAN_MULTIPLIER * AWARD_FOR_GOOD_NODES))|]. split; [intros i; by rewrite Hs2|].
      split; [congruence|]. by apply Hok2, Hok1. }
  destruct pair as [v r2]. cbn [fst snd] in *. subst v. pose proof (SetReputation_spec r2 ip low) as (H1 & H2 & H3 & H4).
  split; [done|]. split; [intros i Hi; by rewrite H2, Hs2|]. split; [congruence|]. apply H4; [done|].
  unfold low. destruct (_ && _) eqn:Ef; [|lia]. apply andb_true_iff in Ef as [_ Ef]. by apply fits32 in Ef as [? _].
Qed.

(** The blacklist is in use, and a peer that is not excluded is on it exactly if its
    score is at most the threshold. *)
Record tracked r : Prop := {
  tr_enabled : m_enabled (rm_blacklist r) = true;
  tr_scores : scores_ok r;
  tr_listed : forall ip, ip ∉ m_excludedIP (rm_blacklist r) -> Exist (rm_blacklist r) ip = (score r ip <=? REPTHRESHOLD)
}.

Lemma Exist_Add b ip i : m_enabled b = true -> ip ∉ m_excludedIP b -> Exist (bl_Add b ip) i = Exist b i || bool_decide (i = ip) .
Proof.
  intros He Hx. unfold Exist, bl_Add. rewrite He. cbn [negb]. rewrite bool_decide_eq_false_2 by done. cbn [m_enabled m_blacklistIP m_excludedIP andb].
  destruct (decide (i = ip)) as [->|Hne].
  - rewrite (bool_decide_eq_true_2 (ip = ip)), orb_true_r, (bool_decide_eq_false_2 (ip ∈ _)) by done. cbn [negb]. rewrite andb_true_r.
    apply bool_decide_eq_true. destruct (m_blacklistIP b !! ip) eqn:E; [by rewrite E|by rewrite lookup_insert_eq].
  - rewrite (bool_decide_eq_false_2 (i = ip)), orb_false_r by done. f_equal. apply bool_decide_ext.
    destruct (m_blacklistIP b !! ip); [done|by rewrite lookup_insert_ne].
Qed.

Lemma Exist_Remove b ip i : m_enabled b = true -> Exist (bl_Remove b ip) i = Exist b i && negb (bool_decide (i = ip)).
Proof.
  intros He. unfold Exist, bl_Remove. rewrite He. cbn [negb m_enabled m_blacklistIP m_excludedIP andb].
  destruct (decide (i = ip)) as [->|Hne].
  - rewrite (bool_decide_eq_true_2 (ip = ip)), lookup_delete_eq by done. cbn [negb]. rewrite andb_false_r. by rewrite bool_decide_eq_false_2 by (by intros []).
  - rewrite (bool_decide_eq_false_2 (i = ip)), andb_true_r, lookup_delete_ne by done. done.
Qed.

Lemma IsNodeBanned_spec r ip :
  let '(banned, r') := IsNodeBanned r ip in
  banned = (score r ip <=? REPTHRESHOLD) /\ (forall i, score r' i = score r i) /\ rm_blacklist r' = rm_blacklist r /\
  (scores_ok r -> scores_ok r').
Proof.
  unfold IsNodeBanned. pose proof (GetReputation_spec r ip) as Hg. destruct (GetReputation r ip) as [s r']. by destruct Hg as (-> & ? & ? & _ & ?).
Qed.

(** What a punishment or an award does to the score and to the list. *)
Lemma PunishNode_spec r ip penalty :
  scores_ok r -> fits_int 32 penalty = true ->
  let r' := PunishNode r ip penalty in
  score r' ip = after_update (score r ip) penalty /\ (forall i, i <> ip -> score r' i = score r i) /\ scores_ok r' /\
  rm_blacklist r' = if negb (Exist (rm_blacklist r) ip) && (after_update (score r ip) penalty <=? REPTHRESHOLD)
                    then bl_Add (rm_blacklist r) ip else rm_blacklist r.
Proof.
  intros Hok Hp. cbn zeta. unfold PunishNode. destruct (UpdateReputation_spec r ip penalty Hok Hp) as (H1 & H2 & H3 & H4).
  set (r1 := UpdateReputation r ip penalty) in *. rewrite H3. destruct (Exist (rm_blacklist r) ip); cbn [negb andb]; [done|].
  pose proof (IsNodeBanned_spec r1 ip) as Hb. destruct (IsNodeBanned r1 ip) as [banned r2]. destruct Hb as (-> & Hs & Hb & Hok2).
  rewrite <- H1. destruct (score r1 ip <=? REPTHRESHOLD); cbn [rm_set_blacklist rm_blacklist].
  - split; [exact (Hs ip)|]. split; [intros i Hi; rewrite <- H2 by done; exact (Hs i)|]. split; [by apply Hok2|]. by rewrite Hb, H3.
  - split; [by rewrite Hs|]. split; [intros i Hi; by rewrite Hs, H2|]. split; [by apply Hok2|]. by rewrite Hb, H3.
Qed.

Lemma AwardNode_spec r ip :
  scores_ok r ->
  let r' := AwardNode r ip in
  score r' ip = after_update (score r ip) AWARD_FOR_GOOD_NODES /\ (forall i, i <> ip -> score r' i = score r i) /\ scores_ok r' /\
  rm_blacklist r' = if Exist (rm_blacklist r) ip && negb (after_update (score r ip) AWARD_FOR_GOOD_NODES <=? REPTHRESHOLD)
                    then bl_Remove (rm_blacklist r) ip else rm_blacklist r.
Proof.
  intros Hok. cbn zeta. unfold AwardNode. destruct (UpdateReputation_spec r ip AWARD_FOR_GOOD_NODES Hok eq_refl) as (H1 & H2 & H3 & H4).
  set (r1 := UpdateReputation r ip AWARD_FOR_GOOD_NODES) in *. rewrite H3. destruct (Exist (rm_blacklist r) ip); cbn [negb andb]; [|done].
  pose proof (IsNodeBanned_spec r1 ip) as Hb. destruct (IsNodeBanned r1 ip) as [banned r2]. destruct Hb as (-> & Hs & Hb & Hok2).
  rewrite <- H1. destruct (score r1 ip <=? REPTHRESHOLD); cbn [negb rm_set_blacklist rm_blacklist].
  - split; [by rewrite Hs|]. split; [intros i Hi; by rewrite Hs, H2|]. split; [by apply Hok2|]. by rewrite Hb, H3.
  - split; [exact (Hs ip)|]. split; [intros i Hi; rewrite <- H2 by done; exact (Hs i)|]. split; [by apply Hok2|]. by rewrite Hb, H3.
Qed.

(** How a score moves across the threshold. *)
Lemma after_award s : - 2 ^ 31 <= s <= UPPERREPTHRESHOLD -> after_update s AWARD_FOR_GOOD_NODES = Z.min (s + AWARD_FOR_GOOD_NODES) UPPERREPTHRESHOLD.
Proof.
  intros Hs. unfold after_update, UPPERREPTHRESHOLD, AWARD_FOR_GOOD_NODES, REPTHRESHOLD in *.
  rewrite (proj2 (fits32 (s + 50))) by lia. destruct (Z.leb_spec (s + 50) (-500)); cbn [andb]; [|done].
  destruct (Z.leb_spec s (-500)); [done|lia].
Qed.

Lemma after_penalty s penalty : penalty <= 0 -> s <= UPPERREPTHRESHOLD -> after_update s penalty <= s.
Proof.
  intros Hp Hs. unfold after_update, BAN_MULTIPLIER, AWARD_FOR_GOOD_NODES.
  assert ((if fits_int 32 (s + penalty) then s + penalty else s) <= s) as Hn by (destruct (fits_int 32 (s + penalty)); lia).
  destruct (_ && _ && _); lia.
Qed.

Inductive reputation_step : ReputationManager -> ReputationManager -> Prop :=
  | step_punish r ip penalty : fits_int 32 penalty = true -> penalty <= 0 -> reputation_step r (PunishNode r ip penalty)
  | step_award r ip : reputation_step r (AwardNode r ip)
  | step_award_all r : reputation_step r (AwardAllNodes r)
  | step_known r ip : reputation_step r (AddNodeIfNotKnown r ip).

Lemma tracked_punish r ip penalty : fits_int 32 penalty = true -> penalty <= 0 -> tracked r -> tracked (PunishNode r ip penalty).
Proof.
  intros Hf Hp [He Hok Hl]. destruct (PunishNode_spec r ip penalty Hok Hf) as (H1 & H2 & H3 & H4).
  pose proof (score_range r ip Hok) as Hr. pose proof (after_penalty (score r ip) penalty Hp ltac:(lia)) as Hle.
  set (r' := PunishNode r ip penalty) in *.
  assert (m_excludedIP (rm_blacklist r') = m_excludedIP (rm_blacklist r) /\ m_enabled (rm_blacklist r') = true) as [Hx He'].
  { rewrite H4. destruct (_ && _); [|done]. unfold bl_Add. rewrite He. by destruct (bool_decide _). }
  split; [done|done|]. intros i Hi. rewrite Hx in Hi. specialize (Hl i Hi) as Hli. destruct (decide (i = ip)) as [->|Hne].
  - rewrite H4, H1. rewrite Hli in *. destruct (Z.leb_spec (score r ip) REPTHRESHOLD) as [Hs|Hs]; cbn [negb andb].
    + rewrite Hli. symmetry. apply Z.leb_le. lia.
    + destruct (Z.leb_spec (after_update (score r ip) penalty) REPTHRESHOLD); [|done].
      rewrite Exist_Add by done. by rewrite bool_decide_eq_true_2, orb_true_r.
  - rewrite H2, <- Hli, H4 by done. destruct (_ && _) eqn:Hb; [|done].
    destruct (decide (ip ∈ m_excludedIP (rm_blacklist r))) as [Hix|Hix].
    + unfold bl_Add. by rewrite He, bool_decide_eq_true_2.
    + rewrite Exist_Add by done. by rewrite bool_decide_eq_false_2, orb_false_r.
Qed.

Lemma tracked_award r ip : tracked r -> tracked (AwardNode r ip).
Proof.
  intros [He Hok Hl]. destruct (AwardNode_spec r ip Hok) as (H1 & H2 & H3 & H4). pose proof (score_range r ip Hok) as Hr.
  rewrite (after_award _ Hr) in H1, H4. set (r' := AwardNode r ip) in *.
  assert (m_excludedIP (rm_blacklist r') = m_excludedIP (rm_blacklist r) /\ m_enabled (rm_blacklist r') = true) as [Hx He'].
  { rewrite H4. destruct (_ && _); [|done]. unfold bl_Remove. by rewrite He. }
  split; [done|done|]. intros i Hi. rewrite Hx in Hi. specialize (Hl i Hi) as Hli. destruct (decide (i = ip)) as [->|Hne].
  - rewrite H4, H1. rewrite Hli. unfold AWARD_FOR_GOOD_NODES, UPPERREPTHRESHOLD, REPTHRESHOLD in *.
    destruct (Z.leb_spec (score r ip) (-500)) as [Hs|Hs]; cbn [andb].
    + destruct (Z.leb_spec (Z.min (score r ip + 50) 500) (-500)); cbn [negb]; [done|].
      rewrite Exist_Remove by done. by rewrite bool_decide_eq_true_2, andb_false_r.
    + rewrite Hli. destruct (Z.leb_spec (Z.min (score r ip + 50) 500) (-500)); [lia|done].
  - rewrite H2, <- Hli, H4 by done. destruct (_ && _); [|done]. rewrite Exist_Remove by done.
    by rewrite bool_decide_eq_false_2, andb_true_r.
Qed.

(** The blacklist follows the reputation.  From a state in which the blacklist is
    enabled and consistent, whatever penalties and awards follow in whatever order, a
    peer that is not excluded is on the blacklist exactly if its score is at most the
    threshold, and every score stays between the least 32-bit number and the upper
    threshold. *)
Theorem blacklist_follows_reputation r r' :
  tracked r -> rtc reputation_step r r' ->
  (forall ip, ip ∉ m_excludedIP (rm_blacklist r') -> Exist (rm_blacklist r') ip = (score r' ip <=? REPTHRESHOLD)) /\
  (forall ip, - 2 ^ 31 <= score r' ip <= UPPERREPTHRESHOLD).
Proof.
  intros Ht Hst. assert (tracked r') as [_ Hok Hl].
  { induction Hst as [|r r1 r2 Hs _ IH]; [done|]. apply IH. destruct Hs as [r ip penalty Hf Hp|r ip|r|r ip].
    - by apply tracked_punish.
    - by apply tracked_award.
    - unfold AwardAllNodes. generalize (GetAllKnownIP r). clear IH. intros l. revert r Ht.
      induction l as [|ip l IH]; intros r Ht; [done|]. apply IH. by apply tracked_award.
    - pose proof (GetReputation_spec r ip) as Hg. unfold GetReputation in Hg. destruct Hg as (_ & Hs & Hb & _ & Hok).
      destruct Ht as [He Hok0 Hl]. split; [by rewrite Hb|by apply Hok|]. intros i Hi. rewrite Hb in *. rewrite Hs. by apply Hl. }
  split; [done|]. intros ip. by apply score_range.
Qed.

(** A ban lasts.  A peer whose penalty takes it across the threshold is put on the
    blacklist, and it stays there during the next [BAN_MULTIPLIER] awards. *)
Theorem ban_lasts r ip penalty (n : nat) :
  tracked r -> ip ∉ m_excludedIP (rm_blacklist r) -> fits_int 32 penalty = true -> - 2 ^ 30 <= penalty -> 
  REPTHRESHOLD < score r ip -> score r ip + penalty <= REPTHRESHOLD -> Z.of_nat n <= BAN_MULTIPLIER ->
  Exist (rm_blacklist (Nat.iter n (fun r => AwardNode r ip) (PunishNode r ip penalty))) ip = true.
Proof.
  intros Ht Hx Hf Hp Hs Hb Hn. destruct Ht as [He Hok Hl]. pose proof (score_range r ip Hok) as Hr.
  destruct (PunishNode_spec r ip penalty Hok Hf) as (H1 & _).
  assert (tracked (PunishNode r ip penalty)) as Ht1 by (apply tracked_punish; [done|unfold REPTHRESHOLD in *; lia|by split]).
  assert (m_excludedIP (rm_blacklist (PunishNode r ip penalty)) = m_excludedIP (rm_blacklist r)) as Hx1.
  { destruct (PunishNode_spec r ip penalty Hok Hf) as (_ & _ & _ & ->). destruct (_ && _); [|done]. unfold bl_Add.
    rewrite He. by destruct (bool_decide _). }
  set (r1 := PunishNode r ip penalty) in *.
  assert (score r1 ip <= REPTHRESHOLD - BAN_MULTIPLIER * AWARD_FOR_GOOD_NODES) as Hlow.
  { rewrite H1. unfold after_update, REPTHRESHOLD, UPPERREPTHRESHOLD, BAN_MULTIPLIER, AWARD_FOR_GOOD_NODES in *.
    rewrite (proj2 (fits32 (score r ip + penalty))) by lia. destruct (Z.leb_spec (score r ip + penalty) (-500)); [|lia].
    destruct (Z.leb_spec (score r ip) (-500)); [lia|]. cbn [negb andb]. rewrite (proj2 (fits32 _)) by lia. lia. }
  assert (forall n r1, tracked r1 -> m_excludedIP (rm_blacklist r1) = m_excludedIP (rm_blacklist r) ->
    score r1 ip + Z.of_nat n * AWARD_FOR_GOOD_NODES <= REPTHRESHOLD ->
    Exist (rm_blacklist (Nat.iter n (fun r => AwardNode r ip) r1)) ip = true) as Hloop; [|apply Hloop; [done|done|]].
  2: { unfold BAN_MULTIPLIER, AWARD_FOR_GOOD_NODES in *. lia. }
  clear - Hx Hspec. induction n as [|n IH]; intros r1 Ht Hx1 Hle.
  { cbn. rewrite (tr_listed _ Ht) by (by rewrite Hx1). apply Z.leb_le. lia. }
  rewrite Nat.iter_succ_r. pose proof (score_range r1 ip (tr_scores _ Ht)) as Hr.
  destruct (AwardNode_spec r1 ip (tr_scores _ Ht)) as (H1 & _ & _ & H4). rewrite (after_award _ Hr) in H1.
  apply IH; [by apply tracked_award| |].
  - rewrite H4. destruct (_ && _); [|done]. unfold bl_Remove. by destruct (negb _).
  - rewrite H1. unfold AWARD_FOR_GOOD_NODES, UPPERREPTHRESHOLD, REPTHRESHOLD in *. lia.
Qed.

End properties.

Module ReputationSample.

(** Two peers, one close to the threshold. *)
Definition start : ReputationManager := mkReputation (<[9 := -480]> {[8 := 0]}) Blacklist_new.

Lemma start_tracked : tracked start.
Proof.
  split; [done|apply map_Forall_insert_2; [vm_compute; split; discriminate|apply map_Forall_singleton; vm_compute; split; discriminate]|].
  intros ip _. unfold Exist, start, score. cbn [rm_blacklist m_blacklistIP m_excludedIP m_enabled Blacklist_new m_Reputations andb].
  rewrite lookup_empty, bool_decide_eq_false_2 by (by intros []). symmetry. apply Z.leb_gt.
  destruct (decide (9 = ip)) as [<-|]; [by rewrite lookup_insert_eq|]. rewrite lookup_insert_ne by done.
  destruct (decide (8 = ip)) as [<-|]; [by rewrite lookup_singleton_eq|by rewrite lookup_singleton_ne].
Qed.

Lemma blacklist_follows_reputation_witness :
  Exist (rm_blacklist (AwardAllNodes (PunishNode start 9 (-50)))) 9 = true /\
  Exist (rm_blacklist (AwardAllNodes (PunishNode start 9 (-50)))) 9 =
    (score (AwardAllNodes (PunishNode start 9 (-50))) 9 <=? REPTHRESHOLD).
Proof.
  split; [vm_compute; reflexivity|].
  destruct (blacklist_follows_reputation start (AwardAllNodes (PunishNode start 9 (-50))) start_tracked) as [H _].
  - eapply rtc_l; [by apply (step_punish start 9 (-50))|]. apply rtc_once. constructor.
  - apply H. vm_compute. discriminate.
Defined.

Lemma ban_lasts_witness :
  Exist (rm_blacklist (Nat.iter 24 (fun r => AwardNode r 9) (PunishNode start 9 (-50)))) 9 = true.
Proof.
  apply ban_lasts; [apply start_tracked|by intros Hin%elem_of_empty|done|done|done|done|done].
Defined.

End ReputationSample.
