(* ===== verification/Sharding.v ===== *)
(** * Sizes, difficulties and prices that the directory committee computes

    libUtils/ShardSizeCalculator.cpp divides the nodes into shards,
    DirectoryService.cpp adjusts the difficulty of the proof of work, and
    libDirectoryService/GasPricer.cpp the price of gas.  The chains are given by what
    they answer for a block number. *)

From stdpp Require Import base numbers gmap countable list sorting.
From S2P Require Import Prelude Json Receipt TxnPool AccountStore.
Open Scope Z_scope.

(** ** [ShardSizeCalculator] *)

Definition shard_range : list Z :=
  [0; 651; 1368; 2133; 2868; 3675; 4464; 5229; 6024; 6858; 7710; 8580; 9468; 10335; 11130; 11925; 12720; 13515; 14364;
   15390; 16200; 17010; 17820; 18768; 19584; 20400; 4294967295].
Definition shard_result : list Z :=
  [0; 651; 651; 684; 711; 717; 735; 744; 747; 753; 762; 771; 780; 789; 795; 795; 795; 795; 795; 798; 810; 810; 810; 810;
   816; 816; 819].

(** [std::upper_bound]: the index of the first element above [n]. *)
Fixpoint upper_bound (l : list Z) (n : Z) : nat :=
  match l with
  | [] => O
  | x :: l => if n <? x then O else S (upper_bound l n)
  end.

Definition CalculateShardSize (numberOfNodes : Z) : outcome Z :=
  if numberOfNodes >=? 21294 then Ret 819
  else match shard_result !! upper_bound shard_range numberOfNodes with Some n => Ret n | None => Fault Undefined end.

(** The nodes that are left are added to the shards, the first one first. *)
Fixpoint distribute (shard_threshold_hi : Z) (shardCounts : list Z) (numUnshardedNodes : Z) : list Z :=
  match shardCounts with
  | [] => []
  | shardCount :: shardCounts =>
      let nodesToAdd := Z.min (u32 (shard_threshold_hi - shardCount)) numUnshardedNodes in
      let left := u32 (numUnshardedNodes - nodesToAdd) in
      u32 (shardCount + nodesToAdd) :: if left =? 0 then shardCounts else distribute shard_threshold_hi shardCounts left
  end.

(** [shardCounts] is empty at the beginning, as at every call. *)
Definition GenerateShardCounts (shardSize shardSizeToleranceLo shardSizeToleranceHi numNodesForSharding : Z) : outcome (list Z) :=
  let shard_threshold_lo := u32 (shardSize - shardSizeToleranceLo) in
  let shard_threshold_hi := u32 (shardSize + shardSizeToleranceHi) in
  if numNodesForSharding <? shard_threshold_lo then Ret []
  else if shardSize =? 0 then Fault Undefined
  else
    let numOfCompleteShards := numNodesForSharding / shardSize in
    let shardCounts := if numOfCompleteShards =? 0 then [0] else replicate (Z.to_nat numOfCompleteShards) shardSize in
    let numUnshardedNodes := u32 (numNodesForSharding - u32 (numOfCompleteShards * shardSize)) in
    if numUnshardedNodes =? numNodesForSharding then at_set shardCounts 0 numUnshardedNodes
    else if (numUnshardedNodes <? shard_threshold_lo) && (shard_threshold_hi >? 0)
    then Ret (distribute shard_threshold_hi shardCounts numUnshardedNodes)
    else Ret (shardCounts ++ [numUnshardedNodes]).

Definition GetTrimmedShardCount (shardSize shardSizeToleranceLo shardSizeToleranceHi numNodesForSharding : Z) : outcome Z :=
  shardCounts ← GenerateShardCounts shardSize shardSizeToleranceLo shardSizeToleranceHi numNodesForSharding;
  match shardCounts with
  | [] => Ret numNodesForSharding
  | _ => Ret (foldl (fun trimmedCount shardCount => u32 (trimmedCount + shardCount)) 0 shardCounts)
  end.

(** ** [CalculateNewDifficultyCore] *)

(** Conversion to a signed type. *)
Definition to_int (w a : Z) : Z := let v := wrap w a in if v <? 2 ^ (w - 1) then v else v - 2 ^ w.

Section difficulty.
Context `{SafeMathInt} (POW_BOUNDARY_N_DIVIDED POW_BOUNDARY_N_DIVIDED_START : Z).

Definition CalculateNewDifficultyCore (currentDifficulty minDifficulty powSubmissions expectedNodes powChangeoAdj : Z) : Z :=
  let '(minDifficulty, MAX_ADJUST_STEP) :=
    if currentDifficulty >=? POW_BOUNDARY_N_DIVIDED_START
    then (u8 (POW_BOUNDARY_N_DIVIDED_START - 2), to_int 8 POW_BOUNDARY_N_DIVIDED)
    else (minDifficulty, 2) in
  let adjustment :=
    if (expectedNodes >? 0) && negb (expectedNodes =? powSubmissions) then
      let '(ok, submissionsDiff) := smi_sub 64 powSubmissions expectedNodes 0 in
      let submissionsDiff := if ok : bool then submissionsDiff else 0 in
      let '(ok, adjustment) := smi_div 64 submissionsDiff powChangeoAdj 0 in
      if ok : bool then adjustment else 0
    else 0 in
  let adjustment :=
    if adjustment >? MAX_ADJUST_STEP then MAX_ADJUST_STEP
    else if adjustment <? - MAX_ADJUST_STEP then - MAX_ADJUST_STEP else adjustment in
  let newDifficulty := to_int 16 (to_int 16 adjustment + currentDifficulty) in
  let newDifficulty := Z.min newDifficulty 255 in
  Z.max (u8 newDifficulty) minDifficulty.

End difficulty.

(** ** [GasPricer] *)

Record GasContext := mkGasContext {
  GAS_CONGESTION_PERCENT : Z;
  UNFILLED_PERCENT_LOW : Z;
  UNFILLED_PERCENT_HIGH : Z;
  GAS_PRICE_MIN_VALUE : Z;
  PRECISION_MIN_VALUE : Z;
  GAS_PRICE_DROP_RATIO : Z;
  GAS_PRICE_RAISE_RATIO_LOWER : Z;
  GAS_PRICE_RAISE_RATIO_UPPER : Z;
  GAS_PRICE_TOLERANCE : Z;
  MEAN_GAS_PRICE_DS_NUM : Z;
  gc_txGas : Z -> Z * Z;           (** gas used and gas limit of a final block *)
  gc_dsPrice : Z -> Z;             (** gas price of a directory block *)
  gc_loBlockNum : Z;               (** epoch of the last directory block *)
  gc_hiBlockNum : Z;               (** number of the last final block *)
  gc_curDSBlockNum : Z;            (** number of the last directory block *)
  gc_proposals : list Z            (** prices in [m_allDSPoWs] *)
}.

Section gas.
Context `{SafeMath}.
Implicit Types c : GasContext.

Definition last_price c : Z := gc_dsPrice c (gc_curDSBlockNum c).
Definition price_floor c : Z := Z.max (PRECISION_MIN_VALUE c) (GAS_PRICE_MIN_VALUE c).

(** The loop counts down to the low block and stops at block 0. *)
Definition GetHistoricalMeanGasPrice c : Z :=
  let lowDSBlockNum := if gc_curDSBlockNum c >? MEAN_GAS_PRICE_DS_NUM c then gc_curDSBlockNum c - MEAN_GAS_PRICE_DS_NUM c else 0 in
  let '(totalBlockNum, totalGasPrice) :=
    foldl (fun '(totalBlockNum, totalGasPrice) i =>
             let '(ok, totalGasPrice) := sm_add 128 totalGasPrice (gc_dsPrice c i) totalGasPrice in
             if ok : bool then (u64 (totalBlockNum + 1), totalGasPrice) else (totalBlockNum, totalGasPrice))
      (0, 0) (reverse (seqZ (Z.max 1 lowDSBlockNum) (gc_curDSBlockNum c - Z.max 1 lowDSBlockNum + 1))) in
  let '(ok, ret) := sm_div 128 totalGasPrice totalBlockNum 0 in
  if ok : bool then ret else last_price c.

(** [value * numerator / PRECISION_MIN_VALUE], or the other value when it overflows. *)
Definition scaled_price c (value numerator other : Z) : bool * Z :=
  let '(ok, r) := sm_mul 128 value numerator 0 in
  let '(ok, r) := if ok : bool then sm_div 128 r (PRECISION_MIN_VALUE c) r else (false, r) in
  (ok, if ok : bool then r else other).

(** The median of a sorted list that is not empty. *)
Definition median (l : list Z) : Z :=
  let n := length l in
  let hi := nth (n / 2) l 0 in
  if Nat.even n then u128 (nth (n / 2 - 1) l 0 + hi) / 2 else hi.

Definition GetIncreasedGasPrice c : outcome Z :=
  let mean_val := GetHistoricalMeanGasPrice c in
  let '(smflag, upperbound) := scaled_price c mean_val (u128 (PRECISION_MIN_VALUE c + GAS_PRICE_RAISE_RATIO_UPPER c)) mean_val in
  lowerbound ←
    (if negb smflag then Ret upperbound
     else if PRECISION_MIN_VALUE c =? 0 then Fault Thrown
     else
       let ratio := if GAS_PRICE_RAISE_RATIO_LOWER c <=? GAS_PRICE_RAISE_RATIO_UPPER c
                    then GAS_PRICE_RAISE_RATIO_LOWER c else GAS_PRICE_RAISE_RATIO_UPPER c / 2 in
       Ret (u128 (u128 (PRECISION_MIN_VALUE c + ratio) / PRECISION_MIN_VALUE c * mean_val)));
  let gasProposals := merge_sort Z.le (filter (fun p => p <= upperbound) (gc_proposals c)) in
  match gasProposals with
  | [] => Ret (GetHistoricalMeanGasPrice c)
  | _ => Ret (Z.max (Z.max lowerbound (Z.min (median gasProposals) upperbound)) (price_floor c))
  end.

Definition GetDecreasedGasPrice c : Z :=
  let mean_val := GetHistoricalMeanGasPrice c in
  let '(_, decreased_val) := scaled_price c mean_val (u128 (PRECISION_MIN_VALUE c - GAS_PRICE_DROP_RATIO c)) mean_val in
  Z.max (price_floor c) decreased_val.

(** The loop over the final blocks of the epoch has an end when the last block number
    is not the greatest one. *)
Definition GetNewGasPrice c : outcome Z :=
  if (gc_hiBlockNum c =? 2 ^ 64 - 1) then Fault StillDrawing
  else
    let blocks := seqZ (gc_loBlockNum c) (gc_hiBlockNum c - gc_loBlockNum c + 1) in
    let full i := let '(used, limit) := gc_txGas c i in used >=? u128 (limit * GAS_CONGESTION_PERCENT c) / 100 in
    let totalBlockNum := u64 (zlen blocks) in
    let fullBlockNum := u64 (zlen (filter (fun i => full i = true) blocks)) in
    if fullBlockNum <? u64 (totalBlockNum * UNFILLED_PERCENT_LOW c) / 100 then Ret (GetDecreasedGasPrice c)
    else if fullBlockNum >? u64 (totalBlockNum * UNFILLED_PERCENT_HIGH c) / 100 then GetIncreasedGasPrice c
    else Ret (Z.max (last_price c) (price_floor c)).

Definition VerifyGasPrice c (gasPrice : Z) : outcome bool :=
  myGasPrice ← GetNewGasPrice c;
  let '(_, allowedUpper) := scaled_price c myGasPrice (u128 (PRECISION_MIN_VALUE c + GAS_PRICE_TOLERANCE c)) gasPrice in
  let '(_, allowedLower) := scaled_price c myGasPrice (u128 (PRECISION_MIN_VALUE c - GAS_PRICE_TOLERANCE c)) gasPrice in
  Ret ((gasPrice <=? allowedUpper) && (gasPrice >=? allowedLower)).

End gas.
