(* ===== verification/ShardingProperties.v ===== *)
(** * Theorems about shard sizes, difficulties and the gas price *)

From stdpp Require Import base numbers gmap countable list sorting.
From S2P Require Import Prelude Json Receipt TxnPool AccountStore Sharding.
Open Scope Z_scope.

(** ** Shard sizes *)

Definition sumZ : list Z -> Z := sum_of id.

Lemma sumZ_cons x l : sumZ (x :: l) = x + sumZ l.
Proof. done. Qed.

Lemma sumZ_replicate n x : sumZ (replicate n x) = Z.of_nat n * x.
Proof.
  induction n as [|n IH]; [done|]. cbn [replicate]. rewrite sumZ_cons, IH. lia.
Qed.

(** Distribution keeps the bounds, adds at most what is left, and leaves nodes over
    only when all shards are full. *)
Lemma distribute_spec hi lo counts n :
  0 <= lo -> hi < 2 ^ 32 -> 0 <= n < 2 ^ 32 -> Forall (fun k => lo <= k <= hi) counts ->
  let counts' := distribute hi counts n in
  length counts' = length counts /\ Forall (fun k => lo <= k <= hi) counts' /\
  sumZ counts <= sumZ counts' <= sumZ counts + n /\
  (sumZ counts' < sumZ counts + n -> Forall (fun k => k = hi) counts').
Proof.
  intros Hlo Hhi Hn Hc. revert n Hn. induction Hc as [|k counts Hk Hc IH]; intros n Hn; cbn [distribute].
  { repeat split; cbn; try lia; constructor. }
  rewrite (wrap_small 32 (hi - k)) by (unfold in_range; lia).
  rewrite (wrap_small 32 (n - _)) by (unfold in_range; lia).
  rewrite (wrap_small 32 (k + _)) by (unfold in_range; lia).
  destruct (Z.eqb_spec (n - Z.min (hi - k) n) 0) as [E|E].
  - rewrite !sumZ_cons. split_and!; try done; try lia. constructor; [lia|done].
  - destruct (IH (n - Z.min (hi - k) n)) as (Hl & Hb & Hs & Hf); [lia|].
    rewrite !sumZ_cons. cbn [length]. split_and!; try lia; [constructor; [lia|done]|].
    intros Hlt. constructor; [lia|]. apply Hf. lia.
Qed.

Section counts.
Context (shardSize lo hi : Z).
Context (Hlo : 0 <= lo < shardSize) (Hhi : 0 <= hi) (Hmax : shardSize + hi < 2 ^ 32).

(** What the counts promise for [n] nodes. *)
Record counts_ok (n : Z) (counts : list Z) : Prop := {
  co_none : counts = [] <-> n < shardSize - lo;
  co_bounds : Forall (fun k => shardSize - lo <= k <= shardSize + hi) counts;
  co_sum : sumZ counts <= n;
  co_dropped : counts <> [] -> sumZ counts < n -> Forall (fun k => k = shardSize + hi) counts;
  co_rest : n - sumZ counts < shardSize - lo
}.

Lemma GenerateShardCounts_ok n :
  0 <= n < 2 ^ 32 -> exists counts, GenerateShardCounts shardSize lo hi n = Ret counts /\ counts_ok n counts.
Proof.
  intros Hn. unfold GenerateShardCounts.
  rewrite (wrap_small 32 (shardSize - lo)), (wrap_small 32 (shardSize + hi)) by (unfold in_range; lia).
  destruct (Z.ltb_spec n (shardSize - lo)) as [Hlt|Hge].
  { exists []. split; [done|]. split; cbn; try done; lia. }
  destruct (Z.eqb_spec shardSize 0); [lia|].
  pose proof (Z.div_mod n shardSize) as Hdm. pose proof (Z.mod_pos_bound n shardSize) as Hmb.
  pose proof (Z.div_pos n shardSize) as Hdp.
  assert (n - n / shardSize * shardSize = n mod shardSize) as Hr by lia.
  rewrite (wrap_small 32 (n / shardSize * shardSize)) by (unfold in_range; nia).
  rewrite Hr, (wrap_small 32 (n mod shardSize)) by (unfold in_range; nia).
  destruct (Z.eqb_spec (n / shardSize) 0) as [E0|E0].
  - destruct (Z.eqb_spec (n mod shardSize) n); [|lia]. exists [n mod shardSize]. split; [done|].
    split; unfold sumZ; cbn; try (split; [done|lia]); try lia.
    constructor; [lia|constructor].
  - destruct (Z.eqb_spec (n mod shardSize) n) as [En|En]; [nia|].
    assert (0 < n / shardSize) as Hpos by lia.
    assert (Forall (fun k => shardSize - lo <= k <= shardSize + hi) (replicate (Z.to_nat (n / shardSize)) shardSize)) as Hfull.
    { apply Forall_replicate. lia. }
    assert (sumZ (replicate (Z.to_nat (n / shardSize)) shardSize) = n / shardSize * shardSize) as Hsum.
    { rewrite sumZ_replicate. lia. }
    destruct (Z.ltb_spec (n mod shardSize) (shardSize - lo)) as [Hs|Hs]; cbn [andb].
    + destruct (Z.gtb_spec (shardSize + hi) 0); [|lia]. eexists. split; [done|].
      destruct (distribute_spec (shardSize + hi) (shardSize - lo) _ (n mod shardSize) ltac:(lia) ltac:(lia) ltac:(lia) Hfull)
        as (Hl & Hb & Hss & Hf). rewrite length_replicate in Hl.
      split; [split; intros Hx; [rewrite Hx in Hl; cbn in Hl; lia|lia]|done|lia| |lia].
      intros _ Hlt. apply Hf. lia.
    + exists (replicate (Z.to_nat (n / shardSize)) shardSize ++ [n mod shardSize]). split; [done|].
      assert (sumZ (replicate (Z.to_nat (n / shardSize)) shardSize ++ [n mod shardSize]) = n) as Hsn.
      { unfold sumZ in *. rewrite sum_app, Hsum. cbn. lia. }
      split; rewrite ?Hsn; try lia.
      * split; [intros Hx; by apply app_nil in Hx as [_ Hx]|lia].
      * apply Forall_app. split; [done|]. constructor; [lia|constructor].
Qed.

Lemma trimmed_fold counts acc :
  Forall (fun k => 0 <= k) counts -> 0 <= acc -> acc + sumZ counts < 2 ^ 32 ->
  foldl (fun trimmedCount shardCount => u32 (trimmedCount + shardCount)) acc counts = acc + sumZ counts.
Proof.
  intros Hc. revert acc. induction Hc as [|k counts Hk Hc IH]; intros acc Ha Hs; [cbn; lia|].
  rewrite sumZ_cons in Hs. pose proof (sum_nonneg id counts Hc) as Hn. fold sumZ in Hn.
  cbn [foldl]. rewrite (wrap_small 32 (acc + k)) by (unfold in_range; lia). rewrite IH by lia.
  rewrite sumZ_cons. lia.
Qed.

(** C40: [GenerateShardCounts] always returns when the lower tolerance is below the
    shard size and the sizes fit in 32 bits.  It gives no shard exactly when the nodes
    do not fill one; otherwise every shard has between [shardSize - lo] and
    [shardSize + hi] nodes, at most the given nodes are used, nodes are left over only
    when every shard is full, and then fewer than a shard's minimum; and
    [GetTrimmedShardCount] is the number of nodes used (all nodes when there is no shard). *)
Theorem shard_counts_fit n :
  0 <= n < 2 ^ 32 ->
  exists counts, GenerateShardCounts shardSize lo hi n = Ret counts /\ counts_ok n counts /\
    GetTrimmedShardCount shardSize lo hi n = Ret (if n <? shardSize - lo then n else sumZ counts).
Proof.
  intros Hn. destruct (GenerateShardCounts_ok n Hn) as (counts & Hg & Hok). exists counts.
  split; [done|]. split; [done|]. unfold GetTrimmedShardCount. rewrite Hg. cbn.
  destruct Hok as [Hnone Hb Hs _ _]. destruct (Z.ltb_spec n (shardSize - lo)) as [Hlt|Hge].
  - by rewrite (proj2 Hnone Hlt).
  - destruct counts as [|k counts]; [by specialize (proj1 Hnone eq_refl); lia|]. f_equal.
    rewrite trimmed_fold; [lia| |lia|lia]. eapply Forall_impl; [done|]. cbn. lia.
Qed.

End counts.

(** ** Difficulty *)

Section difficulty.
Context `{Hsmi : SafeMathIntSpec} (POW_BOUNDARY_N_DIVIDED POW_BOUNDARY_N_DIVIDED_START : Z).
Abbreviation newDifficulty := (CalculateNewDifficultyCore POW_BOUNDARY_N_DIVIDED POW_BOUNDARY_N_DIVIDED_START).

Definition clamp (step a : Z) : Z := Z.max (- step) (Z.min step a).

(** Floor and greatest step: beyond the boundary the steps are finer fractions. *)
Definition diff_floor (cur mindiff : Z) : Z :=
  if cur >=? POW_BOUNDARY_N_DIVIDED_START then POW_BOUNDARY_N_DIVIDED_START - 2 else mindiff.
Definition diff_step (cur : Z) : Z :=
  if cur >=? POW_BOUNDARY_N_DIVIDED_START then POW_BOUNDARY_N_DIVIDED else 2.

(** The reference: one step per [adj] submissions beyond the expected number. *)
Definition diff_reference (cur mindiff submissions expected adj : Z) : Z :=
  let change := if (expected >? 0) && negb (adj =? 0) then Z.quot (submissions - expected) adj else 0 in
  Z.max (diff_floor cur mindiff) (Z.min 255 (cur + clamp (diff_step cur) change)).

Context (Hdiv : 0 <= POW_BOUNDARY_N_DIVIDED < 128) (Hstart : 2 <= POW_BOUNDARY_N_DIVIDED_START < 256).

Lemma to_int_small w a : 1 <= w -> - 2 ^ (w - 1) <= a < 2 ^ (w - 1) -> to_int w a = a.
Proof.
  intros Hw Ha. unfold to_int, wrap. assert (2 ^ w = 2 * 2 ^ (w - 1)) as E.
  { rewrite <- Z.pow_succ_r by lia. f_equal. lia. }
  rewrite E. destruct (Z.lt_ge_cases a 0).
  - replace (a mod _) with (a + 2 * 2 ^ (w - 1)).
    + destruct (Z.ltb_spec (a + 2 * 2 ^ (w - 1)) (2 ^ (w - 1))); lia.
    + symmetry. rewrite <- (Z.mod_add a 1) by lia. rewrite Z.mul_1_l. apply Z.mod_small. lia.
  - rewrite Z.mod_small by lia. destruct (Z.ltb_spec a (2 ^ (w - 1))); lia.
Qed.

Lemma quot_fits a b : - 2 ^ 63 < a < 2 ^ 63 -> 0 < b -> fits_int 64 (Z.quot a b) = true.
Proof.
  intros Ha Hb. unfold fits_int. assert (Z.abs (Z.quot a b) <= Z.abs a).
  { rewrite <- Z.quot_abs, Z.quot_div_nonneg by lia. apply Z.div_le_upper_bound; nia. }
  apply andb_true_iff. split; [apply Z.leb_le|apply Z.ltb_lt]; lia.
Qed.

Lemma clamp_ifs step a : 0 <= step ->
  (if a >? step then step else if a <? - step then - step else a) = clamp step a.
Proof. intros. unfold clamp. destruct (Z.gtb_spec a step), (Z.ltb_spec a (- step)); lia. Qed.

(** The new difficulty of the proof of work is the reference: one step for every
    [adj] submissions above or below the expected number, at most [diff_step] at a
    time, never above 255 and never below the floor, as long as the step down does not
    go below zero. *)
Theorem difficulty_adjusts cur mindiff submissions expected adj :
  0 <= cur < 256 -> 0 <= mindiff < 256 -> 0 <= submissions < 2 ^ 63 -> 0 <= expected < 2 ^ 63 -> 0 <= adj < 2 ^ 32 ->
  diff_step cur <= cur ->
  newDifficulty cur mindiff submissions expected adj = diff_reference cur mindiff submissions expected adj.
Proof.
  intros Hc Hm Hs He Ha Hstep. unfold CalculateNewDifficultyCore, diff_reference, diff_floor, diff_step in *.
  rewrite (wrap_small 8 (_ - 2)), (to_int_small 8 POW_BOUNDARY_N_DIVIDED) by (unfold in_range; lia).
  assert (fits_int 64 submissions = true /\ fits_int 64 expected = true /\ fits_int 64 adj = true
          /\ fits_int 64 (submissions - expected) = true /\ fits_int 64 0 = true) as (F1 & F2 & F3 & F4 & F5).
  { unfold fits_int. repeat split; apply andb_true_iff; split; try apply Z.leb_le; try apply Z.ltb_lt; lia. }
  set (change := if (expected >? 0) && negb (expected =? submissions) then _ else 0).
  assert (change = if (expected >? 0) && negb (adj =? 0) then Z.quot (submissions - expected) adj else 0) as ->.
  { subst change. destruct (Z.gtb_spec expected 0); [|done]. cbn [andb].
    destruct (Z.eqb_spec expected submissions) as [->|]; cbn [negb].
    - rewrite Z.sub_diag. destruct (Z.eqb_spec adj 0); [done|]. by rewrite Z.quot_0_l by lia.
    - rewrite smi_sub_spec, F4 by done. cbn. rewrite smi_div_spec by done.
      destruct (Z.eqb_spec adj 0); [done|]. cbn. rewrite quot_fits by lia. done. }
  set (ch := if (expected >? 0) && negb (adj =? 0) then Z.quot _ adj else 0).
  destruct (cur >=? POW_BOUNDARY_N_DIVIDED_START); rewrite clamp_ifs by lia;
    set (s := clamp _ ch) in *; assert (- 128 < s < 128) as Hs' by (unfold s, clamp; lia);
    rewrite (to_int_small 16 s), (to_int_small 16 (s + cur)) by lia;
    assert (0 <= s + cur) by (unfold s, clamp; lia);
    rewrite (wrap_small 8 (Z.min _ _)) by (unfold in_range; lia); lia.
Qed.

End difficulty.

(** A difficulty below the step does not stop at zero: the conversion to [uint8_t]
    makes it the greatest one. *)
Lemma low_difficulty_wraps :
  CalculateNewDifficultyCore 8 32 1 1 0 100 10 = 255.
Proof. vm_compute. reflexivity. Qed.

(** ** Gas price *)

Section gas.
Context `{Hsm : SafeMathSpec} (c : GasContext).

(** The recorded prices and the constants are within their types. *)
Record gas_ok : Prop := {
  go_prices : forall i, price_floor c <= gc_dsPrice c i < 2 ^ 128;
  go_precision : 0 < PRECISION_MIN_VALUE c < 2 ^ 128;
  go_floor : 0 <= price_floor c < 2 ^ 128;
  go_cur : 0 <= gc_curDSBlockNum c < 2 ^ 64;
  go_mean : 0 <= MEAN_GAS_PRICE_DS_NUM c
}.
Context (Hok : gas_ok).

Definition mean_step '(totalBlockNum, totalGasPrice) i : Z * Z :=
  let '(ok, totalGasPrice) := sm_add 128 totalGasPrice (gc_dsPrice c i) totalGasPrice in
  if ok : bool then (u64 (totalBlockNum + 1), totalGasPrice) else (totalBlockNum, totalGasPrice).

Lemma mean_fold l count total :
  0 <= count -> count + zlen l < 2 ^ 64 -> count * price_floor c <= total < 2 ^ 128 ->
  let '(count', total') := foldl mean_step (count, total) l in
  0 <= count' < 2 ^ 64 /\ count' * price_floor c <= total' < 2 ^ 128.
Proof.
  destruct Hok as [Hp _ Hf _ _]. revert count total.
  induction l as [|i l IH]; intros count total H0 Hl Ht; cbn [foldl].
  { rewrite Z.add_0_r in Hl. change (zlen []) with 0 in Hl. split; lia. }
  assert (zlen (i :: l) = zlen l + 1) as E by (unfold zlen; cbn; lia). rewrite E in Hl.
  pose proof (zlen_nonneg l). unfold mean_step at 2. rewrite sm_add_spec by (specialize (Hp i); nia).
  destruct (Z.ltb_spec (total + gc_dsPrice c i) (2 ^ 128)); cbv iota.
  - rewrite wrap_small by (unfold in_range; lia). apply IH; specialize (Hp i); nia.
  - apply IH; lia.
Qed.

Lemma mean_range : price_floor c <= GetHistoricalMeanGasPrice c < 2 ^ 128.
Proof.
  pose proof Hok as [Hp _ Hf Hc Hm]. unfold GetHistoricalMeanGasPrice.
  set (low := if gc_curDSBlockNum c >? MEAN_GAS_PRICE_DS_NUM c then _ else 0).
  set (l := reverse _). fold mean_step.
  assert (zlen l < 2 ^ 64) as Hl.
  { subst l. unfold zlen. rewrite length_reverse, length_seqZ. lia. }
  pose proof (mean_fold l 0 0 ltac:(lia) ltac:(lia) ltac:(lia)) as Hfold.
  change (foldl _ (0, 0) l) with (foldl mean_step (0, 0) l).
  destruct (foldl mean_step (0, 0) l) as [count total]. destruct Hfold as [Hcnt Ht].
  assert (0 <= count * price_floor c) by nia.
  rewrite sm_div_spec by lia. destruct (Z.eqb_spec count 0); [apply Hp|].
  split; [apply Z.div_le_lower_bound; lia|]. apply Z.div_lt_upper_bound; nia.
Qed.

Lemma scaled_price_range value numerator other :
  0 <= value < 2 ^ 128 -> 0 <= numerator < 2 ^ 128 -> 0 <= other < 2 ^ 128 ->
  scaled_price c value numerator other =
    if value * numerator <? 2 ^ 128 then (true, value * numerator / PRECISION_MIN_VALUE c) else (false, other).
Proof.
  destruct Hok as [_ HP _ _ _]. intros Hv Hn Ho. unfold scaled_price. rewrite sm_mul_spec by done.
  destruct (Z.ltb_spec (value * numerator) (2 ^ 128)); [|done].
  rewrite sm_div_spec by nia. destruct (Z.eqb_spec (PRECISION_MIN_VALUE c) 0); [lia|done].
Qed.

Lemma scaled_price_lt value numerator other :
  0 <= value < 2 ^ 128 -> 0 <= numerator < 2 ^ 128 -> 0 <= other < 2 ^ 128 ->
  0 <= (scaled_price c value numerator other).2 < 2 ^ 128.
Proof.
  intros Hv Hn Ho. pose proof Hok as [_ HP _ _ _]. rewrite scaled_price_range by done.
  destruct (Z.ltb_spec (value * numerator) (2 ^ 128)); cbn; [|done].
  split; [apply Z.div_pos; nia|apply Z.div_lt_upper_bound; nia].
Qed.

Lemma GetIncreasedGasPrice_range : exists p, GetIncreasedGasPrice c = Ret p /\ price_floor c <= p < 2 ^ 128.
Proof.
  pose proof mean_range as Hm. pose proof Hok as [_ HP Hf _ _].
  assert (0 <= GetHistoricalMeanGasPrice c < 2 ^ 128) as Hm0 by lia. unfold GetIncreasedGasPrice.
  pose proof (scaled_price_lt (GetHistoricalMeanGasPrice c) (u128 (PRECISION_MIN_VALUE c + GAS_PRICE_RAISE_RATIO_UPPER c))
    (GetHistoricalMeanGasPrice c) Hm0 (wrap_range 128 _ ltac:(lia)) Hm0) as Hu.
  destruct (scaled_price c _ _ _) as [flag upper]. cbn in Hu. cbv zeta.
  match goal with |- context [(if negb flag then Ret upper else ?x) ≫= _] => set (lowerbound := x) end.
  assert (exists lower, (if negb flag then Ret upper else lowerbound) = Ret lower /\ 0 <= lower < 2 ^ 128) as (lower & -> & Hl).
  { destruct flag; cbn [negb]; [|by exists upper]. subst lowerbound.
    destruct (Z.eqb_spec (PRECISION_MIN_VALUE c) 0); [lia|]. eexists. split; [done|]. apply wrap_range. lia. }
  cbn [mbind outcome_bind]. destruct (merge_sort _ _) as [|q l]; (eexists; split; [done|]); [lia|].
  generalize (median (q :: l)). intros. lia.
Qed.

Lemma GetDecreasedGasPrice_range : price_floor c <= GetDecreasedGasPrice c < 2 ^ 128.
Proof.
  pose proof mean_range as Hm. pose proof Hok as [_ HP Hf _ _].
  assert (0 <= GetHistoricalMeanGasPrice c < 2 ^ 128) as Hm0 by lia. unfold GetDecreasedGasPrice.
  pose proof (scaled_price_lt (GetHistoricalMeanGasPrice c) (u128 (PRECISION_MIN_VALUE c - GAS_PRICE_DROP_RATIO c))
    (GetHistoricalMeanGasPrice c) Hm0 (wrap_range 128 _ ltac:(lia)) Hm0) as Hu.
  destruct (scaled_price c _ _ _) as [flag v]. cbn in *. lia.
Qed.

Lemma GetNewGasPrice_range :
  gc_hiBlockNum c <> 2 ^ 64 - 1 -> exists p, GetNewGasPrice c = Ret p /\ price_floor c <= p < 2 ^ 128.
Proof.
  intros Hhi. unfold GetNewGasPrice. destruct (Z.eqb_spec (gc_hiBlockNum c) (2 ^ 64 - 1)); [done|]. cbv zeta.
  pose proof GetDecreasedGasPrice_range as Hd. pose proof GetIncreasedGasPrice_range as Hi.
  pose proof (go_floor Hok). pose proof (go_prices Hok (gc_curDSBlockNum c)). unfold last_price.
  repeat (case_match; [eauto|]). eexists. split; [done|]. lia.
Qed.

Lemma VerifyGasPrice_iff p q :
  GetNewGasPrice c = Ret p -> 0 <= p < 2 ^ 128 -> 0 <= q < 2 ^ 128 -> 0 <= GAS_PRICE_TOLERANCE c <= PRECISION_MIN_VALUE c ->
  PRECISION_MIN_VALUE c + GAS_PRICE_TOLERANCE c < 2 ^ 128 ->
  let upper := p * (PRECISION_MIN_VALUE c + GAS_PRICE_TOLERANCE c) in
  let lower := p * (PRECISION_MIN_VALUE c - GAS_PRICE_TOLERANCE c) in
  VerifyGasPrice c q = Ret true <->
    (upper < 2 ^ 128 -> q <= upper / PRECISION_MIN_VALUE c) /\ (lower < 2 ^ 128 -> lower / PRECISION_MIN_VALUE c <= q).
Proof.
  intros Hp Hr Hq Ht HPt upper lower. pose proof (go_precision Hok) as HP. unfold VerifyGasPrice. rewrite Hp. cbn.
  rewrite (wrap_small 128 (_ + _)), (wrap_small 128 (_ - _)) by (unfold in_range; lia).
  rewrite !scaled_price_range by lia. fold upper lower.
  destruct (Z.ltb_spec upper (2 ^ 128)), (Z.ltb_spec lower (2 ^ 128)); cbv iota;
    (split; [intros [= Hb]; zbool; lia | intros [Hu Hl]; f_equal; apply andb_true_iff; rewrite Z.geb_le, Z.leb_le; lia]).
Qed.

Lemma own_price_accepted p :
  GetNewGasPrice c = Ret p -> 0 <= p < 2 ^ 128 -> 0 <= GAS_PRICE_TOLERANCE c <= PRECISION_MIN_VALUE c ->
  PRECISION_MIN_VALUE c + GAS_PRICE_TOLERANCE c < 2 ^ 128 -> VerifyGasPrice c p = Ret true.
Proof.
  intros Hp Hr Ht HPt. apply (VerifyGasPrice_iff p p); try done. pose proof (go_precision Hok).
  split; intros _; [apply Z.div_le_lower_bound|apply Z.div_le_upper_bound]; nia.
Qed.

(** The directory committee agrees on a gas price.  When the recorded prices are
    at least the floor, the price a leader computes exists and is again at least the
    floor and within 128 bits; a backup that computes the same price accepts exactly
    the prices within the tolerance of it (a bound whose computation overflows is not
    checked), the leader's own price among them. *)
Theorem gas_price_agreed :
  gc_hiBlockNum c <> 2 ^ 64 - 1 -> 0 <= GAS_PRICE_TOLERANCE c <= PRECISION_MIN_VALUE c ->
  PRECISION_MIN_VALUE c + GAS_PRICE_TOLERANCE c < 2 ^ 128 ->
  exists p, GetNewGasPrice c = Ret p /\ price_floor c <= p < 2 ^ 128 /\ VerifyGasPrice c p = Ret true /\
  forall q, 0 <= q < 2 ^ 128 ->
    let upper := p * (PRECISION_MIN_VALUE c + GAS_PRICE_TOLERANCE c) in
    let lower := p * (PRECISION_MIN_VALUE c - GAS_PRICE_TOLERANCE c) in
    VerifyGasPrice c q = Ret true <->
      (upper < 2 ^ 128 -> q <= upper / PRECISION_MIN_VALUE c) /\ (lower < 2 ^ 128 -> lower / PRECISION_MIN_VALUE c <= q).
Proof.
  intros Hhi Ht HPt. destruct (GetNewGasPrice_range Hhi) as (p & Hp & Hr). exists p.
  assert (0 <= p < 2 ^ 128) by (pose proof (go_floor Hok); lia).
  split; [done|]. split; [done|]. split; [by apply own_price_accepted|]. intros q Hq. by apply VerifyGasPrice_iff.
Qed.

End gas.

(** ** Witnesses *)

Module ShardingSample.

(** Ten shards of 600 would leave 15 nodes: they join the first shard. *)
Lemma shard_counts_fit_witness :
  GenerateShardCounts 600 100 50 6015 = Ret (615 :: replicate 9 600) /\
  exists counts, GenerateShardCounts 600 100 50 6015 = Ret counts /\ counts_ok 600 100 50 6015 counts /\
    GetTrimmedShardCount 600 100 50 6015 = Ret (if 6015 <? 600 - 100 then 6015 else sumZ counts).
Proof. split; [vm_compute; reflexivity|]. apply (shard_counts_fit 600 100 50); lia. Defined.

(** 150 submissions for 100 expected ones, 10 for a step: the difficulty rises by 2. *)
Lemma difficulty_adjusts_witness :
  CalculateNewDifficultyCore 8 32 5 3 150 100 10 = diff_reference 8 32 5 3 150 100 10 /\ diff_reference 8 32 5 3 150 100 10 = 7.
Proof. split; [apply (difficulty_adjusts 8 32); first [lia | vm_compute; intuition discriminate]|reflexivity]. Defined.

(** Two directory blocks, three final blocks of which all are full. *)
Definition sample : GasContext := {|
  GAS_CONGESTION_PERCENT := 80; UNFILLED_PERCENT_LOW := 70; UNFILLED_PERCENT_HIGH := 80;
  GAS_PRICE_MIN_VALUE := 100; PRECISION_MIN_VALUE := 100; GAS_PRICE_DROP_RATIO := 5;
  GAS_PRICE_RAISE_RATIO_LOWER := 5; GAS_PRICE_RAISE_RATIO_UPPER := 20; GAS_PRICE_TOLERANCE := 10;
  MEAN_GAS_PRICE_DS_NUM := 20;
  gc_txGas := fun _ => (90, 100); gc_dsPrice := fun i => if i =? 2 then 1100 else 900;
  gc_loBlockNum := 10; gc_hiBlockNum := 12; gc_curDSBlockNum := 2; gc_proposals := [1150; 1000; 1120; 5000]
|}.

Lemma gas_sample_ok : gas_ok sample.
Proof.
  split; [|cbn; lia|unfold price_floor; cbn; lia|cbn; lia|cbn; lia].
  intros i. unfold price_floor. cbn. destruct (i =? 2); lia.
Qed.

Lemma gas_price_agreed_witness :
  GetNewGasPrice sample = Ret 1120 /\
  exists p, GetNewGasPrice sample = Ret p /\ price_floor sample <= p < 2 ^ 128 /\ VerifyGasPrice sample p = Ret true /\
  forall q, 0 <= q < 2 ^ 128 ->
    let upper := p * (PRECISION_MIN_VALUE sample + GAS_PRICE_TOLERANCE sample) in
    let lower := p * (PRECISION_MIN_VALUE sample - GAS_PRICE_TOLERANCE sample) in
    VerifyGasPrice sample q = Ret true <->
      (upper < 2 ^ 128 -> q <= upper / PRECISION_MIN_VALUE sample) /\ (lower < 2 ^ 128 -> lower / PRECISION_MIN_VALUE sample <= q).
Proof.
  split; [vm_compute; reflexivity|].
  apply (gas_price_agreed sample gas_sample_ok); cbn; lia.
Defined.

End ShardingSample.
