(* ===== verification/PoW.v ===== *)
(** * Proof of work: libPOW/pow.cpp

    Difficulty levels and the boundaries they stand for, mining on the light dataset
    and verification.  A 256-bit hash is the number of its bytes; strings are lists of
    character codes.  The ethash functions of the bundled library are the class
    [Ethash].  Mining on graphics cards, through a proxy or a work server is not
    modelled. *)

From stdpp Require Import base numbers list.
From S2P Require Import Prelude Serializable OpenSSL Schnorr.
Open Scope Z_scope.

(** ** Hexadecimal strings *)

Definition hex_digit (n : Z) : Z := if n <? 10 then 48 + n else 87 + n.

Definition hex_digit_upper (n : Z) : Z := if n <? 10 then 48 + n else 55 + n.

(** Two digits per byte. *)
Definition hex_string (digit : Z -> Z) (b : bytes) : list Z := concat ((fun x => [digit (x / 16); digit (x mod 16)]) <$> b).
Definition BytesToHexString : bytes -> list Z := hex_string hex_digit.
(** [DataConversion::Uint8VecToHexStr], [charArrToHexStr] *)
Definition Uint8VecToHexStr : bytes -> list Z := hex_string hex_digit_upper.

Definition FromHex (c : Z) : Z :=
  if (48 <=? c) && (c <=? 57) then c - 48
  else if (97 <=? c) && (c <=? 102) then c - 97 + 10
  else if (65 <=? c) && (c <=? 70) then c - 65 + 10
  else -1.

Fixpoint hex_pairs (s : list Z) : bytes :=
  match s with
  | h :: l :: s => u8 (FromHex h * 16 + FromHex l) :: hex_pairs s
  | _ => []
  end.

(** [FromHex] never throws, so the handlers of the source are never run. *)
Definition HexStringToBytes (s : list Z) : bytes :=
  let s' := match s with 48 :: 120 :: s' => s' | _ => s end in
  if zlen s mod 2 =? 0 then hex_pairs s'
  else match s' with [] => [] | c :: s' => u8 (FromHex c) :: hex_pairs s' end.

(** Other sizes leave the hash uninitialized, and the caller reads it. *)
Definition StringToBlockhash (s : list Z) : outcome Z :=
  let b := HexStringToBytes s in
  if negb (zlen b =? 32) then Fault Undefined else Ret (be_combine b).

Definition BlockhashToHexString (h : Z) : list Z := BytesToHexString (be_split 32 h).

(** [std::hex << value] prints no leading zeros. *)
Fixpoint strip_zeros (s : list Z) : list Z :=
  match s with
  | c :: (_ :: _) as s' => if c =? 48 then strip_zeros s' else s
  | _ => s
  end.

(** [DataConversion::IntegerToHexString<uint256_t, 32>] *)
Definition IntegerToHexString (value : Z) : list Z :=
  let strResult := strip_zeros (BytesToHexString (be_split 32 value)) in
  if zlen strResult <? 64 then replicate (64 - length strResult) 48 ++ strResult else strResult.

(** ** Difficulty and boundary *)

(** [DataConversion::clz] *)
Definition clz_lookup : list Z := [4; 3; 2; 2; 1; 1; 1; 1; 0; 0; 0; 0; 0; 0; 0; 0].
Definition clz (x : Z) : Z :=
  let upper := Z.land (Z.shiftr x 4) 15 in
  let lower := Z.land x 15 in
  if negb (upper =? 0) then nth (Z.to_nat upper) clz_lookup 0 else 4 + nth (Z.to_nat lower) clz_lookup 0.

Fixpoint count_zeros (b : bytes) : Z :=
  match b with
  | [] => 0
  | x :: b => if negb (x =? 0) then clz x else 8 + count_zeros b
  end.

Definition CountLeadingZeros (boundary : Z) : Z := count_zeros (be_split 32 boundary).

Definition masks : list Z := [255; 127; 63; 31; 15; 7; 3; 1].

Definition DifficultyLevelInInt (difficulty : Z) : outcome Z :=
  let firstNbytesToSet := Z.to_nat (difficulty / 8) in
  let b := replicate firstNbytesToSet 0 ++ replicate (32 - firstNbytesToSet) 255 in
  let b := <[firstNbytesToSet := nth (Z.to_nat (difficulty mod 8)) masks 0]> b in
  StringToBlockhash (BytesToHexString b).

Abbreviation u256 := (wrap 256).

Section boundary.
Context (POW_BOUNDARY_N_DIVIDED POW_BOUNDARY_N_DIVIDED_START : Z).   (** [unsigned int] *)

Definition DifficultyLevelInIntDevided (difficulty : Z) : outcome Z :=
  if difficulty <? POW_BOUNDARY_N_DIVIDED_START then DifficultyLevelInInt difficulty
  else if POW_BOUNDARY_N_DIVIDED =? 0 then Fault Undefined
  else
    let n_level := u8 ((difficulty - POW_BOUNDARY_N_DIVIDED_START) / POW_BOUNDARY_N_DIVIDED) in
    let m_sub_level := u8 ((difficulty - POW_BOUNDARY_N_DIVIDED_START) mod POW_BOUNDARY_N_DIVIDED) in
    let difficulty_level := u8 (POW_BOUNDARY_N_DIVIDED_START + n_level) in
    cur_boundary ← DifficultyLevelInInt difficulty_level;
    let step := Z.shiftr cur_boundary 1 / POW_BOUNDARY_N_DIVIDED in
    let new_boundary := u256 (cur_boundary - u256 (step * m_sub_level)) in
    StringToBlockhash (IntegerToHexString new_boundary).

(** A division by zero of the number library throws; the assertion ends the process. *)
Definition DevidedBoundaryToDifficulty (boundary : Z) : outcome Z :=
  let difficulty_level := u8 (CountLeadingZeros boundary) in
  if difficulty_level <? POW_BOUNDARY_N_DIVIDED_START then Ret difficulty_level
  else
    i_cur_level ← DifficultyLevelInInt difficulty_level;
    if POW_BOUNDARY_N_DIVIDED =? 0 then Fault Thrown
    else
      let step := Z.shiftr i_cur_level 1 / POW_BOUNDARY_N_DIVIDED in
      let n_level := difficulty_level - POW_BOUNDARY_N_DIVIDED_START in
      if step =? 0 then Fault Thrown
      else
        let m_sub_level := u256 (i_cur_level - boundary) / step in
        if negb (m_sub_level <? POW_BOUNDARY_N_DIVIDED) then Fault Terminate
        else Ret (u8 (POW_BOUNDARY_N_DIVIDED_START + n_level * POW_BOUNDARY_N_DIVIDED + m_sub_level)).

End boundary.

(** ** Mining and verification *)

(** The ethash library: the epoch of a block number, the final hash and mix hash that
    the dataset of an epoch gives for a header and a nonce, and verification. *)
Class Ethash := {
  get_epoch_number : Z -> Z;
  ethash_hash : Z -> Z -> Z -> Z * Z;
  ethash_verify : Z -> Z -> Z -> Z -> Z -> bool     (** epoch, header, mix hash, nonce, boundary *)
}.

Class EthashSpec `{Ethash} : Prop := {
  ethash_range e h n : in_range 256 (ethash_hash e h n).1 /\ in_range 256 (ethash_hash e h n).2;
  ethash_verify_spec e h mix n b :
    ethash_verify e h mix n b = true <-> mix = (ethash_hash e h n).2 /\ (ethash_hash e h n).1 <= b
}.

(** The members of [POW] that verification and mining on the processor use.  An epoch
    context is the number of its epoch. *)
Record POW := mkPOW {
  m_currentBlockNum : Z;
  m_epochContextLight : Z;
  m_epochContextFull : option Z
}.

Record mining_result := mkMiningResult { mr_result : list Z; mr_mix_hash : list Z; mr_nonce : Z; mr_success : bool }.
Definition mining_failure : mining_result := mkMiningResult [] [] 0 false.

Section pow.
Context `{Hssl : OpenSSL} `{Heth : Ethash} (POW_BOUNDARY_N_DIVIDED POW_BOUNDARY_N_DIVIDED_START : Z).
Abbreviation boundary_of := (DifficultyLevelInIntDevided POW_BOUNDARY_N_DIVIDED POW_BOUNDARY_N_DIVIDED_START).
Implicit Types p : POW.

Definition POW_new : POW := mkPOW 0 (get_epoch_number 0) None.

(** Without the other kinds of miners. *)
Definition EthashConfigureClient p (block_number : Z) (fullDataset : bool) : POW :=
  let changed := negb (get_epoch_number block_number =? get_epoch_number (m_currentBlockNum p)) in
  let light := if changed then get_epoch_number block_number else m_epochContextLight p in
  let full :=
    if fullDataset && (bool_decide (m_epochContextFull p = None) || changed)
    then Some (get_epoch_number block_number) else m_epochContextFull p in
  mkPOW block_number light full.

(** One entry per turn of the loop: [m_shouldMine], which another thread may clear, and
    the seconds that have passed. *)
Fixpoint mine_loop (epoch headerHash boundary nonce timeWindow : Z) (turns : list (bool * Z)) : outcome mining_result :=
  match turns with
  | [] => Fault StillDrawing
  | (m_shouldMine, timePassedInSeconds) :: turns =>
      if negb m_shouldMine then Ret mining_failure
      else
        let '(final_hash, mix_hash) := ethash_hash epoch headerHash nonce in
        if final_hash <=? boundary
        then Ret (mkMiningResult (BlockhashToHexString final_hash) (BlockhashToHexString mix_hash) nonce true)
        else if timePassedInSeconds >? timeWindow then Ret mining_failure
        else mine_loop epoch headerHash boundary (u64 (nonce + 1)) timeWindow turns
  end.

Definition MineLight p (headerHash boundary startNonce timeWindow : Z) (turns : list (bool * Z)) : outcome mining_result :=
  mine_loop (m_epochContextLight p) headerHash boundary startNonce timeWindow turns.

Definition MineFull p (headerHash boundary startNonce timeWindow : Z) (turns : list (bool * Z)) : outcome mining_result :=
  match m_epochContextFull p with
  | None => Fault NullPointer
  | Some epoch => mine_loop epoch headerHash boundary startNonce timeWindow turns
  end.

Definition PoWMine p (blockNum difficulty headerHash : Z) (fullDataset : bool) (startNonce timeWindow : Z)
    (turns : list (bool * Z)) : outcome (mining_result * POW) :=
  let p := EthashConfigureClient p blockNum fullDataset in
  boundary ← boundary_of difficulty;
  result ← (if fullDataset then MineFull p headerHash boundary startNonce timeWindow turns
            else MineLight p headerHash boundary startNonce timeWindow turns);
  Ret (result, p).

Definition PoWVerify p (blockNum difficulty headerHash winning_nonce : Z) (winning_result winning_mixhash : list Z)
  : outcome (bool * POW) :=
  let p := EthashConfigureClient p blockNum false in
  boundary ← boundary_of difficulty;
  winnning_result ← StringToBlockhash winning_result;
  winningMixhash ← StringToBlockhash winning_mixhash;
  if negb (winnning_result <=? boundary) then Ret (false, p)
  else Ret (ethash_verify (m_epochContextLight p) headerHash winningMixhash winning_nonce boundary, p).

Definition CheckSolnAgainstsTargetedDifficulty (result : list Z) (difficulty : Z) : outcome bool :=
  boundary ← boundary_of difficulty;
  hashResult ← StringToBlockhash result;
  Ret (hashResult <=? boundary).

(** ** What is hashed *)

(** [SetNumber] at the end of the vector. *)
Definition append_number (vec : bytes) (value len : Z) : outcome bytes :=
  match Serializable.SetNumber vec (zlen vec) value len with Some vec => Ret vec | None => Fault Undefined end.

(** [rand1] and [rand2] are arrays of 32 bytes. *)
Definition ConcatAndhash (rand1 rand2 : bytes) (ipAddr : Z) (pubKey : PubKey) (lookupId gasPrice : Z) : outcome bytes :=
  let vec := rand1 ++ rand2 in
  ipAddrVec ← append_number [] ipAddr 16;
  let vec := vec ++ ipAddrVec in
  let vec := (PubKey_Serialize pubKey vec (zlen vec)).2 in
  vec ← append_number vec lookupId 4;
  vec ← append_number vec gasPrice 16;
  Ret (SHA256 (SHA2.Update SHA2.Reset vec)).

Definition GenHeaderHash (rand1 rand2 : bytes) (ipAddr : Z) (pubKey : PubKey) (lookupId gasPrice : Z) : outcome Z :=
  sha2_result ← ConcatAndhash rand1 rand2 ipAddr pubKey lookupId gasPrice;
  StringToBlockhash (Uint8VecToHexStr sha2_result).

End pow.
