(* ===== verification/PoWProperties.v ===== *)
(** * Theorems about the proof of work

    Boundaries are read back as the difficulty they were made from and get smaller
    with it; what is mined is accepted, and what is accepted has the work done. *)

From stdpp Require Import base numbers list.
From S2P Require Import Prelude Serializable OpenSSL Schnorr PoW.
Open Scope Z_scope.

(** ** Hexadecimal strings *)

Class HexDigit (digit : Z -> Z) : Prop := {
  digit_value n : 0 <= n < 16 -> FromHex (digit n) = n;
  digit_not_x n : 0 <= n < 16 -> digit n <> 120
}.

Ltac sixteen :=
  let n := fresh "n" in let H := fresh "H" in
  intros n H; assert (n ∈ seqZ 0 16) as Hn by (apply elem_of_seqZ; lia); vm_compute in Hn;
  repeat (apply elem_of_cons in Hn as [->|Hn]; [vm_compute; done|]); by apply elem_of_nil in Hn.

#[global] Instance hex_digit_ok : HexDigit hex_digit.
Proof. split; sixteen. Qed.
#[global] Instance hex_digit_upper_ok : HexDigit hex_digit_upper.
Proof. split; sixteen. Qed.

Section hex.
Context (digit : Z -> Z) `{HexDigit digit}.

Lemma zlen_hex_string b : zlen (hex_string digit b) = 2 * zlen b.
Proof.
  unfold zlen. induction b as [|x b IH]; [done|]. cbn. unfold hex_string in IH. lia.
Qed.

Lemma hex_pairs_string b : bytes_ok b -> hex_pairs (hex_string digit b) = b.
Proof.
  induction 1 as [|x b Hx Hb IH]; [done|]. cbn. unfold is_byte in Hx. unfold hex_string in IH. rewrite IH. f_equal.
  rewrite !digit_value by zlia. rewrite wrap_small by (unfold in_range; zlia). zlia.
Qed.

Lemma HexStringToBytes_string b : bytes_ok b -> HexStringToBytes (hex_string digit b) = b.
Proof.
  intros Hb. unfold HexStringToBytes. rewrite zlen_hex_string, Z.mul_comm, Z.mod_mul by lia. cbn [Z.eqb].
  destruct Hb as [|x b Hx Hb]; [done|].
  set (s := hex_string digit (x :: b)) in *.
  assert (match s with 48 :: 120 :: s' => s' | _ => s end = s) as ->.
  { subst s. cbn in *. assert (digit (x mod 16) <> 120) by (apply digit_not_x; zlia). repeat case_match; congruence. }
  apply hex_pairs_string. by constructor.
Qed.

Lemma StringToBlockhash_string b : bytes_ok b -> zlen b = 32 -> StringToBlockhash (hex_string digit b) = Ret (be_combine b).
Proof. intros Hb Hl. unfold StringToBlockhash. rewrite HexStringToBytes_string by done. by rewrite Hl. Qed.

End hex.

Lemma in_range_256 v : in_range 256 v -> v mod 256 ^ Z.of_nat 32 = v.
Proof. intros Hv. apply Z.mod_small. change (256 ^ Z.of_nat 32) with (2 ^ 256). done. Qed.

(** A hash that is printed and read is the same. *)
Lemma blockhash_roundtrip h : in_range 256 h -> StringToBlockhash (BlockhashToHexString h) = Ret h.
Proof.
  intros Hh. unfold BlockhashToHexString, BytesToHexString.
  rewrite (StringToBlockhash_string hex_digit) by (apply be_split_ok || apply zlen_be_split).
  by rewrite be_combine_split, in_range_256.
Qed.

Lemma strip_zeros_pad s n :
  (length s <= n)%nat -> s <> [] -> replicate (n - length (strip_zeros s)) 48 ++ strip_zeros s = replicate (n - length s) 48 ++ s.
Proof.
  intros Hl _. induction s as [|c s IH]; [done|]. destruct s as [|d s]; [done|].
  cbn [strip_zeros]. destruct (Z.eqb_spec c 48) as [->|]; [|done].
  cbn [strip_zeros] in IH. rewrite IH by (cbn in *; lia). cbn [length] in *.
  replace (n - S (length s))%nat with (S (n - S (S (length s)))) by lia. rewrite replicate_S_end, <- app_assoc. done.
Qed.

Lemma IntegerToHexString_eq v : IntegerToHexString v = BytesToHexString (be_split 32 v).
Proof.
  unfold IntegerToHexString. set (s := BytesToHexString (be_split 32 v)).
  assert (zlen s = 64) as Hs. { unfold s, BytesToHexString. rewrite zlen_hex_string, zlen_be_split. done. }
  unfold zlen in *. assert (s <> []) as Hne by (intros E; rewrite E in Hs; cbn in Hs; lia).
  pose proof (strip_zeros_pad s 64 ltac:(lia) Hne) as Hp.
  replace (64 - length s)%nat with 0%nat in Hp by lia. cbn [replicate app] in Hp.
  destruct (Z.ltb_spec (Z.of_nat (length (strip_zeros s))) 64) as [Hlt|Hge]; [done|].
  by replace (64 - length (strip_zeros s))%nat with 0%nat in Hp by lia.
Qed.

Lemma read_integer v : in_range 256 v -> StringToBlockhash (IntegerToHexString v) = Ret v.
Proof. intros Hv. rewrite IntegerToHexString_eq. by apply blockhash_roundtrip. Qed.

(** ** Boundaries *)

(** A level is a number of leading zero bits. *)
Lemma DifficultyLevelInInt_eq d : 0 <= d < 256 -> DifficultyLevelInInt d = Ret (2 ^ (256 - d) - 1).
Proof.
  intros Hd.
  assert (forallb (fun d => match DifficultyLevelInInt d with Ret v => v =? 2 ^ (256 - d) - 1 | _ => false end) (seqZ 0 256) = true)
    as Hall by (vm_compute; reflexivity).
  rewrite forallb_forall in Hall. specialize (Hall d (proj1 (list_elem_of_In _ _) (proj2 (elem_of_seqZ 0 256 d) ltac:(lia)))).
  destruct (DifficultyLevelInInt d) as [v|]; [|done]. f_equal. by apply Z.eqb_eq.
Qed.

Lemma clz_eq x : 0 < x < 256 -> clz x = 7 - Z.log2 x.
Proof.
  intros Hx.
  assert (forallb (fun x => clz x =? 7 - Z.log2 x) (seqZ 1 255) = true) as Hall by (vm_compute; reflexivity).
  rewrite forallb_forall in Hall.
  apply Z.eqb_eq, Hall, list_elem_of_In, elem_of_seqZ. lia.
Qed.

Lemma count_zeros_eq b : bytes_ok b -> 0 < be_combine b -> count_zeros b = 8 * zlen b - 1 - Z.log2 (be_combine b).
Proof.
  induction 1 as [|x b Hx Hb IH]; intros Hpos; [cbn in Hpos; lia|].
  change (x :: b) with ([x] ++ b) in *. rewrite be_combine_app, zlen_app in *.
  change (be_combine [x]) with x in *. change (zlen [x]) with 1. cbn [app count_zeros]. unfold is_byte in Hx.
  destruct (Z.eqb_spec x 0) as [->|Hne]; cbn [negb].
  - rewrite Z.mul_0_l, Z.add_0_l in *. rewrite IH by done. lia.
  - rewrite clz_eq by lia. pose proof (be_combine_bound b Hb) as Hr. pose proof (zlen_nonneg b) as Hz.
    change 256 with (2 ^ 8) in *. rewrite <- Z.pow_mul_r in * by lia.
    assert (Z.log2 (x * 2 ^ (8 * zlen b) + be_combine b) = 8 * zlen b + Z.log2 x) as ->; [|lia].
    pose proof (Z.log2_spec x ltac:(lia)) as [Hlo Hhi]. pose proof (Z.log2_nonneg x).
    apply Z.log2_unique; [lia|]. rewrite Z.pow_succ_r in * by lia. rewrite Z.pow_add_r by lia. split; nia.
Qed.

Lemma CountLeadingZeros_eq v : in_range 256 v -> 0 < v -> CountLeadingZeros v = 255 - Z.log2 v.
Proof.
  intros Hv Hpos. unfold CountLeadingZeros. pose proof (be_combine_split 32 v) as Hc. rewrite in_range_256 in Hc by done.
  rewrite count_zeros_eq, Hc, zlen_be_split; [lia|apply be_split_ok|lia].
Qed.

Section boundaries.
Context (N START : Z) (HN : 0 < N < 256) (HS : 0 <= START < 256).
Abbreviation boundary_of := (DifficultyLevelInIntDevided N START).

(** The number of leading zero bits of a difficulty's boundary; beyond [START] a bit is
    divided into [N] steps. *)
Definition level (d : Z) : Z := if d <? START then d else START + (d - START) / N.
Definition sub_level (d : Z) : Z := if d <? START then 0 else (d - START) mod N.
Definition step_of (l : Z) : Z := (2 ^ (255 - l) - 1) / N.
Definition boundary (d : Z) : Z := 2 ^ (256 - level d) - 1 - step_of (level d) * sub_level d.

(** A difficulty whose steps are not empty. *)
Definition usable (d : Z) : Prop := 0 <= d < 256 /\ level d < 256 /\ (START <= d -> N < 2 ^ (255 - level d)).

Lemma pow_split l : l < 256 -> 2 ^ (256 - l) = 2 * 2 ^ (255 - l).
Proof. intros Hl. rewrite <- Z.pow_succ_r by lia. f_equal. lia. Qed.

Lemma level_nonneg d : 0 <= d -> 0 <= level d.
Proof. intros Hd. unfold level. destruct (Z.ltb_spec d START); [lia|]. pose proof (Z.div_pos (d - START) N). lia. Qed.

Lemma boundary_bounds d : usable d -> 2 ^ (255 - level d) <= boundary d < 2 ^ (256 - level d).
Proof.
  intros (Hd & Hl & Hu). unfold boundary, sub_level. rewrite pow_split by done.
  assert (1 <= 2 ^ (255 - level d)) as Hp by (apply (Z.pow_le_mono_r 2 0); lia).
  destruct (Z.ltb_spec d START); [lia|]. specialize (Hu ltac:(lia)).
  pose proof (Z.mod_pos_bound (d - START) N). pose proof (Z.mul_div_le (2 ^ (255 - level d) - 1) N) as Hle. fold (step_of (level d)) in Hle.
  assert (0 <= step_of (level d)) by (apply Z.div_pos; lia). nia.
Qed.

Lemma boundary_range d : usable d -> in_range 256 (boundary d).
Proof.
  intros Hu. pose proof (boundary_bounds d Hu) as Hb. destruct Hu as (Hd & Hl & _). pose proof (level_nonneg d ltac:(lia)).
  assert (2 ^ (256 - level d) <= 2 ^ 256) by (apply Z.pow_le_mono_r; lia).
  assert (0 <= 2 ^ (255 - level d)) by (apply Z.pow_nonneg; lia). unfold in_range. lia.
Qed.

Lemma boundary_of_eq d : usable d -> boundary_of d = Ret (boundary d).
Proof.
  intros Hu. pose proof (boundary_range d Hu) as Hr. pose proof (boundary_bounds d Hu) as Hb.
  destruct Hu as (Hd & Hl & Hs). unfold DifficultyLevelInIntDevided, boundary, sub_level, level in *.
  destruct (Z.ltb_spec d START).
  { rewrite DifficultyLevelInInt_eq by lia. f_equal. lia. }
  destruct (Z.eqb_spec N 0); [lia|].
  pose proof (Z.div_pos (d - START) N ltac:(lia) ltac:(lia)). pose proof (Z.mod_pos_bound (d - START) N ltac:(lia)).
  rewrite (wrap_small 8 (_ / _)), (wrap_small 8 (_ mod _)), (wrap_small 8 (START + _)) by (unfold in_range; zlia).
  rewrite DifficultyLevelInInt_eq by lia. cbn [mbind outcome_bind].
  set (l := START + (d - START) / N) in *. rewrite Z.shiftr_div_pow2 by lia. change (2 ^ 1) with 2.
  replace ((2 ^ (256 - l) - 1) / 2) with (2 ^ (255 - l) - 1) by (rewrite pow_split by done; zlia).
  fold (step_of l). specialize (Hs ltac:(lia)).
  assert (0 <= step_of l) by (apply Z.div_pos; lia).
  assert (2 ^ (255 - l) <= 2 ^ 256 /\ 2 ^ (256 - l) <= 2 ^ 256) as [? ?] by (split; apply Z.pow_le_mono_r; lia).
  assert (1 <= 2 ^ (255 - l)) by (apply (Z.pow_le_mono_r 2 0); lia).
  rewrite (wrap_small 256 (step_of l * _)) by (unfold in_range; nia).
  rewrite (wrap_small 256 _) by (unfold in_range in *; lia). by apply read_integer.
Qed.

Lemma step_positive d : usable d -> START <= d -> 0 < step_of (level d).
Proof. intros (_ & _ & Hu) Hd. specialize (Hu Hd). unfold step_of. apply Z.div_str_pos. lia. Qed.

Lemma boundary_to_difficulty d : usable d -> DevidedBoundaryToDifficulty N START (boundary d) = Ret d.
Proof.
  intros Hu. pose proof (boundary_range d Hu) as Hr. pose proof (boundary_bounds d Hu) as Hb.
  pose proof (step_positive d Hu) as Hst. pose proof Hu as (Hd & Hl & Hs). pose proof (level_nonneg d ltac:(lia)) as Hl0.
  assert (0 < 2 ^ (255 - level d)) by (apply Z.pow_pos_nonneg; lia).
  unfold DevidedBoundaryToDifficulty. rewrite CountLeadingZeros_eq by (done || lia).
  rewrite (Z.log2_unique (boundary d) (255 - level d)) by
    (rewrite ?Z.pow_succ_r, <- ?pow_split by lia; lia).
  replace (255 - (255 - level d)) with (level d) by lia. rewrite wrap_small by (unfold in_range; lia).
  destruct (Z.ltb_spec (level d) START) as [Hlt|Hge].
  { f_equal. unfold level in *. pose proof (Z.div_pos (d - START) N). destruct (Z.ltb_spec d START); lia. }
  assert (START <= d) as HSd by (unfold level in Hge; destruct (Z.ltb_spec d START); lia).
  assert (level d = START + (d - START) / N) as El by (unfold level; destruct (Z.ltb_spec d START); [lia|done]).
  unfold boundary, sub_level in *. destruct (Z.ltb_spec d START); [lia|]. specialize (Hst HSd).
  pose proof (Z.mod_pos_bound (d - START) N ltac:(lia)). pose proof (Z.div_mod (d - START) N ltac:(lia)).
  rewrite DifficultyLevelInInt_eq by lia. cbn [mbind outcome_bind].
  destruct (Z.eqb_spec N 0); [lia|]. rewrite Z.shiftr_div_pow2 by lia. change (2 ^ 1) with 2.
  replace ((2 ^ (256 - level d) - 1) / 2) with (2 ^ (255 - level d) - 1) by (rewrite pow_split by done; zlia).
  fold (step_of (level d)). destruct (Z.eqb_spec (step_of (level d)) 0); [lia|].
  assert (2 ^ (256 - level d) <= 2 ^ 256) by (apply Z.pow_le_mono_r; lia).
  assert (0 <= step_of (level d) * ((d - START) mod N)) by (apply Z.mul_nonneg_nonneg; lia).
  set (ms := step_of (level d) * ((d - START) mod N)) in *.
  replace (2 ^ (256 - level d) - 1 - (2 ^ (256 - level d) - 1 - ms)) with ms by lia.
  rewrite (wrap_small 256) by (unfold in_range in *; lia). unfold ms. rewrite (Z.mul_comm (step_of _)).
  rewrite Z.div_mul by done. destruct (Z.ltb_spec ((d - START) mod N) N); [|lia]. cbn [negb]. f_equal.
  rewrite wrap_small by (unfold in_range; lia). lia.
Qed.

Lemma level_mono d d' : 0 <= d -> d <= d' -> level d <= level d'.
Proof.
  intros Hd Hle. unfold level. pose proof (Z.div_le_mono (d - START) (d' - START) N).
  pose proof (Z.div_pos (d' - START) N). destruct (Z.ltb_spec d START), (Z.ltb_spec d' START); lia.
Qed.

Lemma boundary_decreases d d' : usable d -> usable d' -> d < d' -> boundary d' < boundary d.
Proof.
  intros Hu Hu' Hlt. pose proof (boundary_bounds d Hu) as Hb. pose proof (boundary_bounds d' Hu') as Hb'.
  pose proof (level_mono d d' ltac:(destruct Hu; lia) ltac:(lia)) as Hm.
  destruct (Z.eq_dec (level d) (level d')) as [E|E].
  - unfold boundary in *. rewrite <- E. pose proof Hu' as ((? & _) & _). assert (START <= d) as HSd.
    { destruct (Z.le_gt_cases START d); [done|]. unfold level in E. pose proof (Z.div_pos (d' - START) N).
      destruct (Z.ltb_spec d START), (Z.ltb_spec d' START); lia. }
    pose proof (step_positive d Hu HSd). assert (sub_level d < sub_level d'); [|nia].
    unfold sub_level, level in *. destruct (Z.ltb_spec d START), (Z.ltb_spec d' START); try lia.
    pose proof (Z.div_mod (d - START) N). pose proof (Z.div_mod (d' - START) N). nia.
  - assert (2 ^ (256 - level d') <= 2 ^ (255 - level d)) by (apply Z.pow_le_mono_r; lia). lia.
Qed.

(** A difficulty survives the way through its boundary: [DifficultyLevelInIntDevided]
    returns a 256-bit number that [DevidedBoundaryToDifficulty] reads back as the same
    difficulty (also between the bits, in steps of an [N]th), and a greater difficulty has a
    smaller boundary. *)
Theorem boundary_roundtrip d :
  usable d ->
  exists b, boundary_of d = Ret b /\ in_range 256 b /\ DevidedBoundaryToDifficulty N START b = Ret d /\
    forall d' b', usable d' -> boundary_of d' = Ret b' -> d < d' -> b' < b.
Proof.
  intros Hu. exists (boundary d). split; [by apply boundary_of_eq|]. split; [by apply boundary_range|].
  split; [by apply boundary_to_difficulty|].
  intros d' b' Hu' Hb'. rewrite boundary_of_eq in Hb' by done. injection Hb' as <-. by apply boundary_decreases.
Qed.

End boundaries.

(** ** Mining and verification *)

Section mining.
Context `{Hssl : OpenSSL} `{Heth : EthashSpec} (N START : Z) (HN : 0 < N < 256) (HS : 0 <= START < 256).
Implicit Types p : POW.

(** The light dataset is that of the current block's epoch. *)
Definition light_ok p : Prop := m_epochContextLight p = get_epoch_number (m_currentBlockNum p).

Lemma configure_light p block full :
  light_ok p -> light_ok (EthashConfigureClient p block full) /\
  m_epochContextLight (EthashConfigureClient p block full) = get_epoch_number block.
Proof.
  unfold light_ok, EthashConfigureClient. cbn. intros ->.
  destruct (Z.eqb_spec (get_epoch_number block) (get_epoch_number (m_currentBlockNum p))) as [->|]; done.
Qed.

Lemma PoWVerify_eq p block d header nonce rs ms r mix :
  light_ok p -> usable N START d -> StringToBlockhash rs = Ret r -> StringToBlockhash ms = Ret mix ->
  PoWVerify N START p block d header nonce rs ms =
    Ret ((r <=? boundary N START d) && ethash_verify (get_epoch_number block) header mix nonce (boundary N START d),
         EthashConfigureClient p block false).
Proof.
  intros Hp Hd Hr Hm. unfold PoWVerify. rewrite boundary_of_eq by done. cbn [mbind outcome_bind]. rewrite Hr, Hm.
  cbn [mbind outcome_bind]. destruct (configure_light p block false Hp) as [_ ->].
  destruct (r <=? boundary N START d); done.
Qed.

(** A turn at which the loop ends whatever the hash is. *)
Definition last_turn (timeWindow : Z) (t : bool * Z) : Prop := t.1 = false \/ timeWindow < t.2.

Lemma mine_loop_spec epoch header b tw turns nonce :
  Exists (last_turn tw) turns ->
  exists r, mine_loop epoch header b nonce tw turns = Ret r /\
    (mr_success r = true -> (ethash_hash epoch header (mr_nonce r)).1 <= b /\
       mr_result r = BlockhashToHexString (ethash_hash epoch header (mr_nonce r)).1 /\
       mr_mix_hash r = BlockhashToHexString (ethash_hash epoch header (mr_nonce r)).2).
Proof.
  intros Ht. revert nonce. induction turns as [|[should passed] turns IH]; intros nonce; [by inversion Ht|].
  cbn [mine_loop]. destruct should; cbn [negb]; [|by exists mining_failure].
  destruct (ethash_hash epoch header nonce) as [final mix] eqn:E.
  destruct (Z.leb_spec final b).
  { eexists. split; [done|]. cbn. by rewrite E. }
  destruct (Z.gtb_spec passed tw) as [Hgt|Hle]; [by exists mining_failure|].
  apply IH. inversion Ht as [? ? [Hf|Hf]|]; subst; cbn in *; [done|lia|done].
Qed.

(** C39: Mining on the light dataset ends when the time is over or it is stopped, and a
    solution that it found is accepted by [PoWVerify] of every node for the same block,
    difficulty and header. *)
Theorem mined_solution_accepted p block d header nonce tw turns :
  light_ok p -> usable N START d -> Exists (last_turn tw) turns ->
  exists r p', PoWMine N START p block d header false nonce tw turns = Ret (r, p') /\ light_ok p' /\
    (mr_success r = true -> forall q, light_ok q ->
       exists q', PoWVerify N START q block d header (mr_nonce r) (mr_result r) (mr_mix_hash r) = Ret (true, q') /\ light_ok q').
Proof.
  intros Hp Hd Ht. unfold PoWMine. rewrite boundary_of_eq by done. cbn [mbind outcome_bind]. unfold MineLight.
  destruct (configure_light p block false Hp) as [Hp' ->].
  destruct (mine_loop_spec (get_epoch_number block) header (boundary N START d) tw turns nonce Ht) as (r & -> & Hr).
  cbn [mbind outcome_bind]. exists r, (EthashConfigureClient p block false). split; [done|]. split; [done|].
  intros Hs q Hq. destruct (Hr Hs) as (Hle & E1 & E2). exists (EthashConfigureClient q block false).
  destruct (ethash_range (get_epoch_number block) header (mr_nonce r)) as [R1 R2].
  rewrite (PoWVerify_eq q block d header (mr_nonce r) _ _ (ethash_hash (get_epoch_number block) header (mr_nonce r)).1
             (ethash_hash (get_epoch_number block) header (mr_nonce r)).2);
    [|done|done|rewrite E1; by apply blockhash_roundtrip|rewrite E2; by apply blockhash_roundtrip].
  split; [|by apply configure_light]. do 2 f_equal. apply andb_true_iff. split; [by apply Z.leb_le|].
  by apply ethash_verify_spec.
Qed.

(** C25: For hashes that can be read, [PoWVerify] accepts exactly when the work was done: the ethash value of
    the header and nonce is within the boundary and has the claimed mix hash, and the
    claimed result is within the boundary too (it is not compared with that value). *)
Theorem accepted_pow_has_work p block d header nonce rs ms r mix :
  light_ok p -> usable N START d -> StringToBlockhash rs = Ret r -> StringToBlockhash ms = Ret mix ->
  exists ok p', PoWVerify N START p block d header nonce rs ms = Ret (ok, p') /\ light_ok p' /\
    (ok = true <-> mix = (ethash_hash (get_epoch_number block) header nonce).2 /\
       (ethash_hash (get_epoch_number block) header nonce).1 <= boundary N START d /\ r <= boundary N START d).
Proof.
  intros Hp Hd Hr Hm. rewrite (PoWVerify_eq p block d header nonce rs ms r mix) by done.
  eexists _, _. split; [done|]. split; [by apply configure_light|].
  rewrite andb_true_iff, Z.leb_le, ethash_verify_spec. tauto.
Qed.

End mining.

(** ** Runs *)

Module PoWSample.

(** A toy hash: an epoch has ten blocks. *)
#[export] Instance toy : Ethash := {|
  get_epoch_number b := b / 10;
  ethash_hash e h n := (2 ^ 250 / (1 + u8 (e + h + n)), u8 (e + 3 * h + 5 * n));
  ethash_verify e h mix n b := (mix =? u8 (e + 3 * h + 5 * n)) && (2 ^ 250 / (1 + u8 (e + h + n)) <=? b)
|}.
#[export] Instance toy_spec : EthashSpec.
Proof.
  split.
  - intros e h n. unfold ethash_hash, toy. cbn [fst snd]. pose proof (wrap_range 8 (e + h + n) ltac:(lia)) as H1.
    pose proof (wrap_range 8 (e + 3 * h + 5 * n) ltac:(lia)) as H2. unfold in_range in *.
    set (v := wrap 8 (e + h + n)) in *. change (2 ^ 8) with 256 in *.
    split; [|lia]. split; [apply Z.div_pos; lia|]. apply Z.div_lt_upper_bound; [lia|].
    assert (2 ^ 250 < 2 ^ 256) by (vm_compute; done). nia.
  - intros e h mix n b. cbn. rewrite andb_true_iff, Z.eqb_eq, Z.leb_le. done.
Qed.

Definition node : POW := POW_new.
Definition turns : list (bool * Z) := (fun t => (true, t)) <$> seqZ 0 30.

Lemma usable_10 : usable 8 32 10.
Proof. unfold usable, level. cbn. lia. Qed.

Lemma boundary_roundtrip_witness :
  exists b, DifficultyLevelInIntDevided 8 32 35 = Ret b /\ in_range 256 b /\ DevidedBoundaryToDifficulty 8 32 b = Ret 35 /\
    forall d' b', usable 8 32 d' -> DifficultyLevelInIntDevided 8 32 d' = Ret b' -> 35 < d' -> b' < b.
Proof.
  apply (boundary_roundtrip 8 32); [lia|lia|]. split; [lia|]. split; [vm_compute; done|]. intros _. vm_compute. done.
Defined.

(** The node mines at difficulty 10 until the hash has ten zero bits. *)
Lemma mined_solution_accepted_witness :
  match PoWMine 8 32 node 25 10 4 false 0 60 (turns ++ [(false, 0)]) with Ret (r, _) => mr_success r = true /\ mr_nonce r = 10 | _ => False end /\
  exists r p', PoWMine 8 32 node 25 10 4 false 0 60 (turns ++ [(false, 0)]) = Ret (r, p') /\ light_ok p' /\
    (mr_success r = true -> forall q, light_ok q ->
       exists q', PoWVerify 8 32 q 25 10 4 (mr_nonce r) (mr_result r) (mr_mix_hash r) = Ret (true, q') /\ light_ok q').
Proof.
  split; [vm_compute; done|]. apply (mined_solution_accepted 8 32); [lia|lia|done|apply usable_10|].
  apply Exists_app. right. constructor. by left.
Defined.

(** A claim of zero is accepted with the nonce and the mix hash of any solution. *)
Lemma accepted_pow_has_work_witness :
  (PoWVerify 8 32 node 25 10 4 10 (BlockhashToHexString 0) (BlockhashToHexString 64) = Ret (true, mkPOW 25 2 None)) /\
  exists ok p', PoWVerify 8 32 node 25 10 4 10 (BlockhashToHexString 0) (BlockhashToHexString 64) = Ret (ok, p') /\ light_ok p' /\
    (ok = true <-> 64 = (ethash_hash (get_epoch_number 25) 4 10).2 /\
       (ethash_hash (get_epoch_number 25) 4 10).1 <= boundary 8 32 10 /\ 0 <= boundary 8 32 10).
Proof.
  split; [vm_compute; reflexivity|].
  apply (accepted_pow_has_work 8 32); [lia|lia|done|apply usable_10|by apply blockhash_roundtrip|by apply blockhash_roundtrip].
Defined.

(** After a verification in a new epoch the full dataset of the old epoch is kept. *)
Lemma stale_full_dataset :
  let p := EthashConfigureClient node 5 true in
  let p := EthashConfigureClient p 25 false in
  m_epochContextFull (EthashConfigureClient p 26 true) = Some 0 /\ get_epoch_number 26 = 2.
Proof. vm_compute. done. Qed.

(** A string of 64 characters that begins with 0x gives 31 bytes, and the hash is not set. *)
Lemma prefixed_string_undefined : StringToBlockhash (48 :: 120 :: replicate 62 48) = Fault Undefined.
Proof. vm_compute. reflexivity. Qed.

End PoWSample.
