(* ===== verification/PoWSubmission.v ===== *)
(** * Submissions of proofs of work: libDirectoryService/PoWProcessing.cpp

    During [POW_SUBMISSION] the directory committee collects solutions, the best one
    per node; those that meet the directory difficulty stand for election.  A public key
    is kept as the number of its bytes, by which [PubKey::operator<] orders the maps;
    [pubkey_of] is the key itself.  The state of the directory service may be changed by
    other threads: what the successive [CheckState] calls see is an argument.  The
    messages are arguments in decoded form. *)

From stdpp Require Import base numbers gmap countable list.
From S2P Require Import Prelude Serializable Peer OpenSSL Schnorr PoW TxnPool BlockChain Blocks Committee.
Open Scope Z_scope.

Inductive DirStates :=
  | POW_SUBMISSION | DSBLOCK_CONSENSUS_PREP | DSBLOCK_CONSENSUS | MICROBLOCK_SUBMISSION | FINALBLOCK_CONSENSUS_PREP
  | FINALBLOCK_CONSENSUS | VIEWCHANGE_CONSENSUS_PREP | VIEWCHANGE_CONSENSUS | ERROR.
Inductive Action :=
  | PROCESS_POWSUBMISSION | VERIFYPOW | PROCESS_DSBLOCKCONSENSUS | PROCESS_MICROBLOCKSUBMISSION
  | PROCESS_FINALBLOCKCONSENSUS | PROCESS_VIEWCHANGECONSENSUS.

#[global] Instance DirStates_eq_dec : EqDecision DirStates.
Proof. solve_decision. Defined.
#[global] Instance Action_eq_dec : EqDecision Action.
Proof. solve_decision. Defined.
#[global] Instance Mode_eq_dec : EqDecision Mode.
Proof. solve_decision. Defined.

Definition ACTIONS_FOR_STATE : list (DirStates * Action) :=
  [(POW_SUBMISSION, PROCESS_POWSUBMISSION); (POW_SUBMISSION, VERIFYPOW); (DSBLOCK_CONSENSUS, PROCESS_DSBLOCKCONSENSUS);
   (MICROBLOCK_SUBMISSION, PROCESS_MICROBLOCKSUBMISSION); (FINALBLOCK_CONSENSUS, PROCESS_FINALBLOCKCONSENSUS);
   (VIEWCHANGE_CONSENSUS, PROCESS_VIEWCHANGECONSENSUS)].

Definition CheckState (LOOKUP_NODE_MODE : bool) (m_mode : Mode) (m_state : DirStates) (action : Action) : bool :=
  if LOOKUP_NODE_MODE then true
  else if bool_decide (m_mode = IDLE) then false
  else bool_decide ((m_state, action) ∈ ACTIONS_FOR_STATE).

(** A result and a mix hash are the numbers of their 32 bytes. *)
Record PoWSolution := mkPoWSolution {
  ps_nonce : Z;
  ps_result : Z;
  ps_mixhash : Z;
  ps_lookupId : Z;
  ps_gasPrice : Z
}.
#[global] Instance PoWSolution_eq_dec : EqDecision PoWSolution.
Proof. solve_decision. Defined.
Definition PoWSolution_default : PoWSolution := mkPoWSolution 0 0 0 (u32 (-1)) 0.

(** The hashes are the strings as received. *)
Record DSPowSolution := mkDSPow {
  dp_blockNumber : Z;
  dp_difficultyLevel : Z;
  dp_submitterPeer : Peer;
  dp_submitterKey : Z;
  dp_nonce : Z;
  dp_resultingHash : list Z;
  dp_mixHash : list Z;
  dp_lookupId : Z;
  dp_gasPrice : Z
}.

Abbreviation MapOfPubKeyPoW := (gmap Z PoWSolution).
Abbreviation DSShard := (list (Z * Peer * Z)).
Definition members (shard : DSShard) : list Z := (fun n : Z * Peer * Z => n.1.1) <$> shard.
Definition all_members (shards : list DSShard) : list Z := concat (members <$> shards).

(** The members of [DirectoryService] for solutions and the sharding. *)
Record DSNode := mkDSNode {
  m_allPoWConns : gmap Z Peer;
  m_AllPoWCounter : gmap Z Z;               (** [uint8_t] *)
  m_allPoWs : MapOfPubKeyPoW;
  m_allDSPoWs : MapOfPubKeyPoW;
  m_powSolutions : list DSPowSolution;
  m_nodeReputation : gmap Z Z;              (** [uint16_t] *)
  m_shards : list DSShard;
  m_publicKeyToshardIdMap : gmap Z Z;
  dn_pow : POW
}.

Definition set_conns d x := mkDSNode x (m_AllPoWCounter d) (m_allPoWs d) (m_allDSPoWs d) (m_powSolutions d) (m_nodeReputation d) (m_shards d) (m_publicKeyToshardIdMap d) (dn_pow d).
Definition set_counter d x := mkDSNode (m_allPoWConns d) x (m_allPoWs d) (m_allDSPoWs d) (m_powSolutions d) (m_nodeReputation d) (m_shards d) (m_publicKeyToshardIdMap d) (dn_pow d).
Definition set_pows d x := mkDSNode (m_allPoWConns d) (m_AllPoWCounter d) x (m_allDSPoWs d) (m_powSolutions d) (m_nodeReputation d) (m_shards d) (m_publicKeyToshardIdMap d) (dn_pow d).
Definition set_dspows d x := mkDSNode (m_allPoWConns d) (m_AllPoWCounter d) (m_allPoWs d) x (m_powSolutions d) (m_nodeReputation d) (m_shards d) (m_publicKeyToshardIdMap d) (dn_pow d).
Definition set_solutions d x := mkDSNode (m_allPoWConns d) (m_AllPoWCounter d) (m_allPoWs d) (m_allDSPoWs d) x (m_nodeReputation d) (m_shards d) (m_publicKeyToshardIdMap d) (dn_pow d).
Definition set_reputation d x := mkDSNode (m_allPoWConns d) (m_AllPoWCounter d) (m_allPoWs d) (m_allDSPoWs d) (m_powSolutions d) x (m_shards d) (m_publicKeyToshardIdMap d) (dn_pow d).
Definition set_shards d x ids := mkDSNode (m_allPoWConns d) (m_AllPoWCounter d) (m_allPoWs d) (m_allDSPoWs d) (m_powSolutions d) (m_nodeReputation d) x ids (dn_pow d).
Definition set_pow d x := mkDSNode (m_allPoWConns d) (m_AllPoWCounter d) (m_allPoWs d) (m_allDSPoWs d) (m_powSolutions d) (m_nodeReputation d) (m_shards d) (m_publicKeyToshardIdMap d) x.

(** [map::emplace]: an entry that is there is kept. *)
Definition emplace {A} (m : gmap Z A) (k : Z) (x : A) : gmap Z A :=
  match m !! k with Some _ => m | None => <[k := x]> m end.

(** What is read of the mediator, the guards and the configuration. *)
Record PoWContext := mkPoWContext {
  pc_lookup : bool;                 (** [LOOKUP_NODE_MODE] *)
  pc_mode : Mode;
  pc_myID : Z;                      (** [m_consensusMyID] *)
  pc_POW_PACKET_SENDERS : Z;
  pc_POW_SUBMISSION_LIMIT : Z;
  pc_DS_POW_DIFFICULTY : Z;
  pc_POW_DIFFICULTY : Z;
  pc_lastDSBlockNum : Z;            (** number and difficulties of the last directory block *)
  pc_lastDSDifficulty : Z;
  pc_lastDifficulty : Z;
  pc_dsBlockRand : bytes;
  pc_txBlockRand : bytes;
  pc_DSCommittee : list (Z * Peer);
  pc_GUARD_MODE : bool;
  pc_isShardGuard : Z -> bool;      (** [IsNodeInShardGuardList] *)
  pc_EXCLUDE_PRIV_IP : bool;
  pc_IPExclusionRange : list (Z * Z)
}.

(** [ntohl] on a machine with the least significant byte first. *)
Definition ntohl (a : Z) : Z := be_combine (rev (be_split 4 a)).

(** [Guard::IsValidIP] *)
Definition IsValidIP (c : PoWContext) (ip_addr : Z) : bool :=
  let ip_addr_c := ntohl (u32 ip_addr) in
  if (ip_addr <=? 0) || (ip_addr >=? 2 ^ 32 - 1) then false
  else if negb (pc_EXCLUDE_PRIV_IP c) then true
  else negb (existsb (fun '(lo, hi) => (lo <=? ip_addr_c) && (hi >=? ip_addr_c)) (pc_IPExclusionRange c)).

(** [DataConversion::HexStrToStdArray]: zeros when the string is not hexadecimal. *)
Definition HexStrToStdArray (s : list Z) : Z :=
  if forallb (fun c => negb (FromHex c =? -1)) s && (zlen s mod 2 =? 0)
  then let v := hex_pairs s in be_combine (take 32 v ++ replicate (32 - length v) 0)
  else 0.

Section submission.
Context `{Hssl : OpenSSL} `{Heth : Ethash} (POW_BOUNDARY_N_DIVIDED POW_BOUNDARY_N_DIVIDED_START : Z) (pubkey_of : Z -> PubKey).
Abbreviation pow_verify := (PoWVerify POW_BOUNDARY_N_DIVIDED POW_BOUNDARY_N_DIVIDED_START).
Implicit Types (c : PoWContext) (d : DSNode) (sol : DSPowSolution).

(** ** Checks *)

Definition CheckWhetherDSBlockIsFresh c (dsblock_num : Z) : bool :=
  if pc_lookup c then true
  else if dsblock_num <? u64 (pc_lastDSBlockNum c + 1) then false
  else if dsblock_num >? u64 (pc_lastDSBlockNum c + 1) then false
  else true.

Definition CheckSolnFromNonDSCommittee c (submitterPubKey : Z) (submitterPeer : Peer) : bool :=
  negb (existsb (fun dsMember => (dsMember.1 =? submitterPubKey) || Peer_eqb dsMember.2 submitterPeer) (pc_DSCommittee c)).

Definition CheckIfDSNode c (submitterPubKey : Z) : bool :=
  existsb (fun dsMember => dsMember.1 =? submitterPubKey) (pc_DSCommittee c).

Definition CheckPoWSubmissionExceedsLimitsForNode c d (key : Z) : bool :=
  match m_AllPoWCounter d !! key with
  | None => false
  | Some n => negb (n <? pc_POW_SUBMISSION_LIMIT c)
  end.

Definition UpdatePoWSubmissionCounterforNode d (key : Z) : DSNode :=
  set_counter d (match m_AllPoWCounter d !! key with
                 | None => <[key := 1]> (m_AllPoWCounter d)
                 | Some n => <[key := u8 (n + 1)]> (m_AllPoWCounter d)
                 end).

Definition ResetPoWSubmissionCounter d : DSNode := set_counter d ∅.
Definition AddDSPoWs d (Pubk : Z) (DSPOWSoln : PoWSolution) : DSNode := set_dspows d (<[Pubk := DSPOWSoln]> (m_allDSPoWs d)).
Definition GetAllDSPoWs d : MapOfPubKeyPoW := m_allDSPoWs d.
Definition ClearDSPoWSolns d : DSNode := set_dspows d ∅.
Definition GetDSPoWSoln d (Pubk : Z) : Z := match m_allDSPoWs d !! Pubk with Some s => ps_result s | None => 0 end.
Definition IsNodeSubmittedDSPoWSoln d (Pubk : Z) : bool := bool_decide (is_Some (m_allDSPoWs d !! Pubk)).
Definition GetNumberOfDSPoWSolns d : Z := u32 (Z.of_nat (size (m_allDSPoWs d))).

(** ** [VerifyPoWSubmission] *)

(** The difficulties of directory and shard solutions for a block. *)
Definition expectedDSDiff c (blockNumber : Z) : Z :=
  if blockNumber >? 1 then pc_lastDSDifficulty c else pc_DS_POW_DIFFICULTY c.
Definition expectedDiff c (blockNumber : Z) : Z :=
  if blockNumber >? 1 then pc_lastDifficulty c else pc_POW_DIFFICULTY c.

(** [POW_DIFFICULTY / POW_DIFFICULTY] *)
Definition expectedShardGuardDiff c : outcome Z :=
  if pc_POW_DIFFICULTY c =? 0 then Fault Undefined else Ret (pc_POW_DIFFICULTY c / pc_POW_DIFFICULTY c).

Definition difficultyCorrect c sol (shardGuardDiff : Z) : bool :=
  let level := dp_difficultyLevel sol in
  let normal := (level =? expectedDSDiff c (dp_blockNumber sol)) || (level =? expectedDiff c (dp_blockNumber sol)) in
  if negb (pc_GUARD_MODE c) then normal
  else if pc_isShardGuard c (dp_submitterKey sol) then level =? shardGuardDiff
  else normal.

(** What is done with a verified solution. *)
Definition store_solution c d sol : DSNode :=
  let key := dp_submitterKey sol in
  let soln := mkPoWSolution (dp_nonce sol) (HexStrToStdArray (dp_resultingHash sol)) (HexStrToStdArray (dp_mixHash sol))
                (dp_lookupId sol) (dp_gasPrice sol) in
  let d := set_conns d (emplace (m_allPoWConns d) key (dp_submitterPeer sol)) in
  let rest d :=
    let d := if dp_difficultyLevel sol >=? expectedDSDiff c (dp_blockNumber sol) then AddDSPoWs d key soln else d in
    UpdatePoWSubmissionCounterforNode d key in
  match m_allPoWs d !! key with
  | None => rest (set_pows d (<[key := soln]> (m_allPoWs d)))
  | Some old =>
      if ps_result old >? ps_result soln then rest (set_pows d (<[key := soln]> (m_allPoWs d)))
      else if ps_result old =? ps_result soln then d
      else rest d
  end.

(** The three states are what the [CheckState] calls see, in order. *)
Definition VerifyPoWSubmission c d sol (states : DirStates * DirStates * DirStates) : outcome (bool * DSNode) :=
  let '(state1, state2, state3) := states in
  let check := CheckState (pc_lookup c) (pc_mode c) in
  if pc_lookup c then Ret (true, d)
  else if negb (check state1 PROCESS_POWSUBMISSION) then Ret (false, d)
  else if negb (CheckWhetherDSBlockIsFresh c (dp_blockNumber sol)) then Ret (false, d)
  else if negb (CheckSolnFromNonDSCommittee c (dp_submitterKey sol) (dp_submitterPeer sol)) then Ret (false, d)
  else if negb (check state2 VERIFYPOW) then Ret (true, d)
  else if negb (IsValidIP c (m_ipAddress (dp_submitterPeer sol))) then Ret (false, d)
  else if CheckPoWSubmissionExceedsLimitsForNode c d (dp_submitterKey sol) then Ret (false, d)
  else
    shardGuardDiff ← expectedShardGuardDiff c;
    if negb (difficultyCorrect c sol shardGuardDiff) then Ret (false, d)
    else
      headerHash ← GenHeaderHash (pc_dsBlockRand c) (pc_txBlockRand c) (m_ipAddress (dp_submitterPeer sol))
                     (pubkey_of (dp_submitterKey sol)) (dp_lookupId sol) (dp_gasPrice sol);
      '(result, pow) ← pow_verify (dn_pow d) (dp_blockNumber sol) (dp_difficultyLevel sol) headerHash (dp_nonce sol)
                         (dp_resultingHash sol) (dp_mixHash sol);
      let d := set_pow d pow in
      if (result : bool) && check state3 VERIFYPOW then Ret (true, store_solution c d sol)
      else Ret (result, d).

(** ** The handlers *)

(** One solution of a packet each, with the state at the beginning of the turn and what
    [VerifyPoWSubmission] sees. *)
Fixpoint process_packet c d (sols : list (DSPowSolution * DirStates * (DirStates * DirStates * DirStates))) : outcome DSNode :=
  match sols with
  | [] => Ret d
  | (sol, m_state, states) :: sols =>
      if bool_decide (m_state = DSBLOCK_CONSENSUS_PREP) || bool_decide (m_state = DSBLOCK_CONSENSUS) then Ret d
      else '(_, d) ← VerifyPoWSubmission c d sol states; process_packet c d sols
  end.

(** [None]: [Messenger::GetDSPowPacketSubmission] failed. *)
Definition ProcessPoWPacketSubmission c d
    (message : option (list (DSPowSolution * DirStates * (DirStates * DirStates * DirStates)) * Z)) : outcome (bool * DSNode) :=
  if pc_lookup c then Ret (true, d)
  else match message with
       | None => Ret (false, d)
       | Some (tmp, senderPubKey) =>
           if negb (CheckIfDSNode c senderPubKey) then Ret (false, d)
           else d ← process_packet c d tmp; Ret (true, d)
       end.

Definition submittedNumber (sols : list DSPowSolution) (key : Z) : Z :=
  zlen (filter (fun s => dp_submitterKey s = key) sols).

Definition ProcessPoWSubmission c d (message : option DSPowSolution) (from : Peer) (states : DirStates * DirStates * DirStates)
  : outcome (bool * DSNode) :=
  if pc_lookup c then Ret (true, d)
  else if (pc_myID c >=? pc_POW_PACKET_SENDERS c) && negb (bool_decide (pc_mode c = PRIMARY_DS)) then Ret (true, d)
  else match message with
       | None => Ret (false, d)
       | Some sol =>
           if negb (m_ipAddress from =? m_ipAddress (dp_submitterPeer sol)) then Ret (false, d)
           else if negb (zlen (dp_resultingHash sol) =? 64) then Ret (false, d)
           else if negb (zlen (dp_mixHash sol) =? 64) then Ret (false, d)
           else if submittedNumber (m_powSolutions d) (dp_submitterKey sol) >=? pc_POW_SUBMISSION_LIMIT c then Ret (false, d)
           else
             '(verified, d) ← VerifyPoWSubmission c d sol states;
             if (verified : bool) then
               if submittedNumber (m_powSolutions d) (dp_submitterKey sol) >=? pc_POW_SUBMISSION_LIMIT c then Ret (false, d)
               else Ret (true, set_solutions d (m_powSolutions d ++ [sol]))
             else Ret (true, d)
       end.

(** ** Priorities *)

(** The logarithm of a number below [2 ^ 16], rounded down by the conversion. *)
Definition CalculateNodePriority (reputation : Z) : Z := if 0 =? reputation then 0 else u8 (Z.log2 reputation).

Definition ClearReputationOfNodeWithoutPoW d : DSNode :=
  set_reputation d (map_imap (fun k v => Some (match m_allPoWs d !! k with None => 0 | Some _ => v end)) (m_nodeReputation d)).

Definition ClearReputationOfNodeFailToJoin (shards : list DSShard) (mapNodeReputation : gmap Z Z) : gmap Z Z :=
  let allShardNodePubKey : gset Z := list_to_set (all_members shards) in
  map_imap (fun k v => Some (if bool_decide (k ∈ allShardNodePubKey) then v else 0)) mapNodeReputation.

(** [std::sort] by decreasing priority: the order of equal ones is not specified, so the
    sorting function is an argument.  [m_mapNodeReputation[pubKey]] adds an entry. *)
Definition FindTopPriorityNodes (sort : list (Z * Z) -> list (Z * Z)) (MAX_SHARD_NODE_NUM : Z) c d
  : outcome (gset Z * Z * DSNode) :=
  let keys := (ordered_entries (m_allPoWs d)).*1 in
  let vecNodePriority := (fun k => (k, CalculateNodePriority (default 0 (m_nodeReputation d !! k)))) <$> keys in
  let d := set_reputation d (foldl (fun m k => emplace m k 0) (m_nodeReputation d) keys) in
  let top := take (Z.to_nat MAX_SHARD_NODE_NUM) (sort vecNodePriority) in
  let lowestPriority := match last top with Some (_, p) => p | None => 0 end in
  match last (pc_DSCommittee c) with
  | None => Fault Undefined
  | Some member => Ret ({[member.1]} ∪ list_to_set top.*1, lowestPriority, d)
  end.

End submission.
