(* ===== verification/SubmissionProperties.v ===== *)
(** * What the tables of solutions hold

    Whatever messages arrive during the submission phase, the tables of
    [PoWSubmission.v] hold only solutions with the work done for the current epoch. *)

From stdpp Require Import base numbers gmap countable list relations.
From S2P Require Import Prelude Serializable Peer OpenSSL Schnorr PoW PoWProperties TxnPool BlockChain Blocks Committee PoWSubmission.
Open Scope Z_scope.

Section submissions.
Context `{Hssl : OpenSSL} `{Heth : EthashSpec} (N START : Z) (HN : 0 < N < 256) (HS : 0 <= START < 256).
Context (pubkey_of : Z -> PubKey) (c : PoWContext).
Implicit Types (d : DSNode) (sol : DSPowSolution).

(** The block that is being prepared. *)
Definition next_block : Z := u64 (pc_lastDSBlockNum c + 1).

(** The solution has an ethash value within the boundary of a difficulty, for the
    node's key, its gas price and the random numbers of the epoch. *)
Definition has_work (k : Z) (s : PoWSolution) (level : Z) : Prop :=
  exists ip h, IsValidIP c ip = true /\
    GenHeaderHash (pc_dsBlockRand c) (pc_txBlockRand c) ip (pubkey_of k) (ps_lookupId s) (ps_gasPrice s) = Ret h /\
    (ethash_hash (get_epoch_number next_block) h (ps_nonce s)).1 <= boundary N START level.

(** A difficulty at which a node may submit. *)
Definition admissible (k level : Z) : Prop :=
  level = expectedDSDiff c next_block \/ level = expectedDiff c next_block \/
  pc_GUARD_MODE c = true /\ pc_isShardGuard c k = true /\ level = 1.

Record pow_table d : Prop := {
  pt_light : light_ok (dn_pow d);
  pt_pows k s : m_allPoWs d !! k = Some s ->
    k ∉ (pc_DSCommittee c).*1 /\ is_Some (m_allPoWConns d !! k) /\ exists level, admissible k level /\ has_work k s level;
  pt_ds k s : m_allDSPoWs d !! k = Some s ->
    (exists best, m_allPoWs d !! k = Some best /\ ps_result best <= ps_result s) /\
    exists level, expectedDSDiff c next_block <= level /\ has_work k s level;
  pt_counter k n : m_AllPoWCounter d !! k = Some n -> 1 <= n <= pc_POW_SUBMISSION_LIMIT c;
  pt_solutions k : submittedNumber (m_powSolutions d) k <= pc_POW_SUBMISSION_LIMIT c
}.

Context (Hlookup : pc_lookup c = false) (Hlimit : 1 <= pc_POW_SUBMISSION_LIMIT c < 256).
Context (Husable : forall k level, admissible k level -> usable N START level).

Lemma PoWVerify_inv p block level h nonce rs ms ok p' :
  PoWVerify N START p block level h nonce rs ms = Ret (ok, p') -> light_ok p -> usable N START level ->
  light_ok p' /\ (ok = true -> (ethash_hash (get_epoch_number block) h nonce).1 <= boundary N START level).
Proof.
  intros Hv Hp Hu. assert (exists r mix, StringToBlockhash rs = Ret r /\ StringToBlockhash ms = Ret mix) as (r & mix & Hr & Hm).
  { unfold PoWVerify in Hv. cbv zeta in Hv. unbind Hv. eauto. }
  rewrite (PoWVerify_eq N START HN HS p block level h nonce rs ms r mix) in Hv by done. injection Hv as <- <-.
  split; [by apply configure_light|]. rewrite andb_true_iff, ethash_verify_spec. naive_solver.
Qed.

Lemma fresh_block b : CheckWhetherDSBlockIsFresh c b = true -> b = next_block.
Proof.
  unfold CheckWhetherDSBlockIsFresh, next_block. rewrite Hlookup.
  destruct (Z.ltb_spec b (u64 (pc_lastDSBlockNum c + 1))); [done|].
  destruct (Z.gtb_spec b (u64 (pc_lastDSBlockNum c + 1))); [done|]. intros _. lia.
Qed.

Lemma not_member k peer : CheckSolnFromNonDSCommittee c k peer = true -> k ∉ (pc_DSCommittee c).*1.
Proof.
  unfold CheckSolnFromNonDSCommittee. intros Hn ([a b] & -> & Hin)%list_elem_of_fmap.
  apply negb_true_iff, not_true_iff_false in Hn. apply Hn, existsb_exists. exists (a, b).
  split; [by apply list_elem_of_In|]. cbn. by rewrite Z.eqb_refl.
Qed.

Lemma correct_admissible sol g :
  dp_blockNumber sol = next_block -> expectedShardGuardDiff c = Ret g -> difficultyCorrect c sol g = true ->
  admissible (dp_submitterKey sol) (dp_difficultyLevel sol).
Proof.
  unfold expectedShardGuardDiff, difficultyCorrect, admissible. intros ->. destruct (Z.eqb_spec (pc_POW_DIFFICULTY c) 0); [done|].
  rewrite Z.div_same by done. intros [= <-].
  destruct (pc_GUARD_MODE c); cbn [negb]; [destruct (pc_isShardGuard c (dp_submitterKey sol)) eqn:E|];
    rewrite ?orb_true_iff, ?Z.eqb_eq; intuition.
Qed.

(** The table after a solution was stored. *)
Lemma store_solution_table d sol s :
  s = mkPoWSolution (dp_nonce sol) (HexStrToStdArray (dp_resultingHash sol)) (HexStrToStdArray (dp_mixHash sol))
        (dp_lookupId sol) (dp_gasPrice sol) ->
  pow_table d -> dp_blockNumber sol = next_block -> dp_submitterKey sol ∉ (pc_DSCommittee c).*1 ->
  admissible (dp_submitterKey sol) (dp_difficultyLevel sol) -> has_work (dp_submitterKey sol) s (dp_difficultyLevel sol) ->
  CheckPoWSubmissionExceedsLimitsForNode c d (dp_submitterKey sol) = false ->
  pow_table (store_solution c d sol).
Proof.
  intros Hs [Hlight Hpows Hds Hcnt Hsol] Hblk Hk Hadm Hwork Hlim. unfold store_solution. rewrite <- Hs.
  set (k := dp_submitterKey sol) in *. rewrite Hblk.
  assert (forall k', is_Some (m_allPoWConns d !! k') -> is_Some (emplace (m_allPoWConns d) k (dp_submitterPeer sol) !! k')) as Hkeep.
  { intros k' Hk'. unfold emplace. destruct (m_allPoWConns d !! k) eqn:E; [done|]. destruct (decide (k = k')) as [<-|].
    - by rewrite lookup_insert_eq.
    - by rewrite lookup_insert_ne. }
  assert (is_Some (emplace (m_allPoWConns d) k (dp_submitterPeer sol) !! k)) as Hin.
  { unfold emplace. destruct (m_allPoWConns d !! k) eqn:E; [by rewrite E|]. by rewrite lookup_insert_eq. }
  assert (forall k' n, m_AllPoWCounter (UpdatePoWSubmissionCounterforNode d k) !! k' = Some n -> 1 <= n <= pc_POW_SUBMISSION_LIMIT c) as Hcnt'.
  { intros k' n. unfold UpdatePoWSubmissionCounterforNode, CheckPoWSubmissionExceedsLimitsForNode in *. cbn.
    destruct (m_AllPoWCounter d !! k) as [m|] eqn:E.
    - apply negb_false_iff, Z.ltb_lt in Hlim. specialize (Hcnt _ _ E) as Hm. rewrite lookup_insert_Some.
      rewrite wrap_small by (unfold in_range; lia). intros [[_ <-]|[_ Hx]]; [lia|eauto].
    - rewrite lookup_insert_Some. intros [[_ <-]|[_ Hx]]; [lia|eauto]. }
  assert (forall pows, m_allPoWs d ⊆ pows \/ pows = <[k := s]> (m_allPoWs d) /\ (forall o, m_allPoWs d !! k = Some o -> ps_result s < ps_result o) ->
     (forall k' s', pows !! k' = Some s' -> m_allPoWs d !! k' = Some s' \/ k' = k /\ s' = s) ->
     (exists best, pows !! k = Some best /\ ps_result best <= ps_result s) ->
     pow_table (UpdatePoWSubmissionCounterforNode
       (let d' := set_pows (set_conns d (emplace (m_allPoWConns d) k (dp_submitterPeer sol))) pows in
        if dp_difficultyLevel sol >=? expectedDSDiff c next_block then AddDSPoWs d' k s else d') k)) as Hmain.
  { intros pows Hrel Hfrom Hbest.
    assert (forall k' s', m_allDSPoWs d !! k' = Some s' -> exists best, pows !! k' = Some best /\ ps_result best <= ps_result s') as Hold.
    { intros k' s' Hd'. destruct (Hds _ _ Hd') as ((b & Hb & Hle) & _).
      destruct Hrel as [Hsub|[-> Hlt]]; [exists b; split; [by eapply lookup_weaken|done]|].
      destruct (decide (k = k')) as [<-|]; [exists s; rewrite lookup_insert_eq; split; [done|]; specialize (Hlt _ Hb); lia|].
      exists b. by rewrite lookup_insert_ne. }
    assert (forall k' s', pows !! k' = Some s' -> k' ∉ (pc_DSCommittee c).*1 /\
              is_Some (emplace (m_allPoWConns d) k (dp_submitterPeer sol) !! k') /\ exists level, admissible k' level /\ has_work k' s' level) as Hall.
    { intros k' s' [Hx|[-> ->]]%Hfrom; [|by eauto]. destruct (Hpows _ _ Hx) as (? & ? & ?). eauto. }
    rewrite Z.geb_leb. destruct (Z.leb_spec (expectedDSDiff c next_block) (dp_difficultyLevel sol)); cbv zeta.
    - split; try done. cbn. intros k' s' [[<- <-]|[_ Hx]]%lookup_insert_Some; [by eauto|]. destruct (Hds _ _ Hx). eauto.
    - split; try done. cbn. intros k' s' Hx. destruct (Hds _ _ Hx). eauto. }
  cbn [m_allPoWs set_conns]. destruct (m_allPoWs d !! k) as [old|] eqn:E.
  - destruct (Z.gtb_spec (ps_result old) (ps_result s)).
    + apply Hmain; [right|..].
      * split; [done|]. intros o Ho. congruence || (injection Ho as <-; done).
      * intros k' s' [[<- <-]|[_ Hx]]%lookup_insert_Some; auto.
      * exists s. by rewrite lookup_insert_eq.
    + destruct (Z.eqb_spec (ps_result old) (ps_result s)).
      * split; try done. cbn. intros k' s' Hx. destruct (Hpows _ _ Hx) as (? & ? & ?). eauto.
      * apply (Hmain (m_allPoWs d)); [by left|by left|]. exists old. split; [done|lia].
  - apply Hmain; [right|..].
    + split; [done|]. intros o Ho. congruence.
    + intros k' s' [[<- <-]|[_ Hx]]%lookup_insert_Some; auto.
    + exists s. by rewrite lookup_insert_eq.
Qed.

Lemma set_pow_table d p : light_ok p -> pow_table d -> pow_table (set_pow d p).
Proof. intros Hp []. by split. Qed.

Lemma store_solution_sols d sol : m_powSolutions (store_solution c d sol) = m_powSolutions d.
Proof. unfold store_solution. by repeat case_match. Qed.

Lemma VerifyPoWSubmission_table d sol states ok d' :
  VerifyPoWSubmission N START pubkey_of c d sol states = Ret (ok, d') -> pow_table d ->
  pow_table d' /\ m_powSolutions d' = m_powSolutions d.
Proof.
  intros Hv Ht. unfold VerifyPoWSubmission in Hv. destruct states as [[s1 s2] s3]. rewrite Hlookup in Hv.
  repeat match type of Hv with
  | (if ?b then Ret _ else _) = _ => let E := fresh "G" in destruct b eqn:E; [by simplify_eq|]
  end.
  apply negb_false_iff in G0, G1, G3. apply fresh_block in G0. apply not_member in G1.
  apply bind_Ret in Hv as (g & Hg & Hv).
  destruct (difficultyCorrect c sol g) eqn:Hd; cbn [negb] in Hv; [|by simplify_eq].
  apply bind_Ret in Hv as (h & Hh & Hv). apply bind_Ret in Hv as ([result pow] & Hpow & Hv).
  pose proof (correct_admissible sol g G0 Hg Hd) as Hadm.
  destruct (PoWVerify_inv _ _ _ _ _ _ _ _ _ Hpow (pt_light _ Ht) (Husable _ _ Hadm)) as [Hp Hwork].
  pose proof (set_pow_table d pow Hp Ht) as Ht'.
  destruct (result && _) eqn:Hr; injection Hv as <- <-; [|done].
  apply andb_true_iff in Hr as [-> _]. specialize (Hwork eq_refl). rewrite store_solution_sols. split; [|done].
  eapply store_solution_table; [done|done|done|done|done| |by apply G4].
  exists (m_ipAddress (dp_submitterPeer sol)), h. split; [done|]. split; [done|]. cbn. by rewrite G0 in Hwork.
Qed.

Lemma process_packet_table sols d d' :
  process_packet N START pubkey_of c d sols = Ret d' -> pow_table d -> pow_table d'.
Proof.
  revert d. induction sols as [|[[sol m_state] states] sols IH]; intros d Hp Ht; cbn [process_packet] in Hp; [by simplify_eq|].
  destruct (_ || _); [by simplify_eq|]. apply bind_Ret in Hp as ([ok d1] & Hv & Hp).
  eapply IH; [done|]. by eapply VerifyPoWSubmission_table.
Qed.

Lemma ProcessPoWSubmission_table d message from states ok d' :
  ProcessPoWSubmission N START pubkey_of c d message from states = Ret (ok, d') -> pow_table d -> pow_table d'.
Proof.
  intros Hv Ht. unfold ProcessPoWSubmission in Hv. rewrite Hlookup in Hv.
  destruct (_ && _); [by simplify_eq|]. destruct message as [sol|]; [|by simplify_eq].
  repeat match type of Hv with
  | (if ?b then Ret _ else _) = _ => let E := fresh "G" in destruct b eqn:E; [by simplify_eq|]
  end.
  apply bind_Ret in Hv as ([verified d1] & Hs & Hv). apply VerifyPoWSubmission_table in Hs as [Ht1 Esol]; [|done].
  destruct verified; [|by simplify_eq]. case_test_in Hv; [by simplify_eq|]. injection Hv as <- <-.
  rewrite Z.geb_leb in E. apply Z.leb_gt in E. destruct Ht1. split; try done. cbn. intros k. unfold submittedNumber in *. rewrite filter_app, zlen_app.
  destruct (decide (dp_submitterKey sol = k)) as [<-|].
  - rewrite (filter_cons_True _ sol []) by done. change (zlen (sol :: filter _ [])) with 1. lia.
  - rewrite (filter_cons_False _ sol []) by done. change (zlen (filter _ [])) with 0. specialize (pt_solutions0 k). lia.
Qed.

(** A message of the submission phase is handled. *)
Inductive submission_step : DSNode -> DSNode -> Prop :=
  | step_single d message from states ok d' :
      ProcessPoWSubmission N START pubkey_of c d message from states = Ret (ok, d') -> submission_step d d'
  | step_packet d message ok d' :
      ProcessPoWPacketSubmission N START pubkey_of c d message = Ret (ok, d') -> submission_step d d'.

Lemma submission_step_table d d' : submission_step d d' -> pow_table d -> pow_table d'.
Proof.
  intros [d0 msg from states ok d1 Hv|d0 msg ok d1 Hv] Ht; [by eapply ProcessPoWSubmission_table|].
  unfold ProcessPoWPacketSubmission in Hv. rewrite Hlookup in Hv. destruct msg as [[tmp sender]|]; [|by simplify_eq].
  destruct (negb _); [by simplify_eq|]. apply bind_Ret in Hv as (d2 & Hp & Hv). injection Hv as <- <-.
  by eapply process_packet_table.
Qed.

(** C24: Whatever single submissions and packets are handled after the tables were
    cleared, every solution of [m_allPoWs] is of a node outside the committee with a
    known address and has its work done at an admissible difficulty; every
    solution that stands for election has work at the directory difficulty and is no
    better than the node's entry of [m_allPoWs]; and no node is counted or kept
    beyond [POW_SUBMISSION_LIMIT]. *)
Theorem submissions_have_work d0 d :
  light_ok (dn_pow d0) -> m_allPoWs d0 = ∅ -> m_allDSPoWs d0 = ∅ -> m_AllPoWCounter d0 = ∅ -> m_powSolutions d0 = [] ->
  rtc submission_step d0 d -> pow_table d.
Proof.
  intros Hl H1 H2 H3 H4 Hr. assert (pow_table d0) as H0.
  { split; [done|by rewrite H1|by rewrite H2|by rewrite H3|]. intros k. rewrite H4. change (submittedNumber [] k) with 0. lia. }
  clear H1 H2 H3 H4 Hl. induction Hr; [done|]. by apply IHHr, (submission_step_table x).
Qed.

End submissions.

(** ** A run *)

Module SubmissionSample.
Import Cyclic PoWSample.

Definition key_of (k : Z) : PubKey := PubKey_from_priv (mkPrivKey k).
Definition peer (k : Z) : Peer := Peer_new (1000 + k) 30000.

Definition ctx : PoWContext := {|
  pc_lookup := false; pc_mode := PRIMARY_DS; pc_myID := 0; pc_POW_PACKET_SENDERS := 1; pc_POW_SUBMISSION_LIMIT := 2;
  pc_DS_POW_DIFFICULTY := 5; pc_POW_DIFFICULTY := 3; pc_lastDSBlockNum := 24; pc_lastDSDifficulty := 12; pc_lastDifficulty := 10;
  pc_dsBlockRand := replicate 32 1; pc_txBlockRand := replicate 32 2; pc_DSCommittee := [(1, peer 1); (2, Peer_default)];
  pc_GUARD_MODE := false; pc_isShardGuard := fun _ => false; pc_EXCLUDE_PRIV_IP := false; pc_IPExclusionRange := []
|}.

Definition empty_node : DSNode := mkDSNode ∅ ∅ ∅ ∅ [] ∅ [] ∅ POW_new.

(** A solution of node 7 at the directory difficulty. *)
Definition solution : DSPowSolution :=
  mkDSPow 25 12 (peer 7) 7 147 (BlockhashToHexString (2 ^ 242)) (BlockhashToHexString 31) 0 50.
Definition submitting : DirStates * DirStates * DirStates := (POW_SUBMISSION, POW_SUBMISSION, POW_SUBMISSION).
Definition handled : outcome (bool * DSNode) :=
  ProcessPoWSubmission 8 32 key_of ctx empty_node (Some solution) (peer 7) submitting.
Definition node1 : DSNode := match handled with Ret (_, d) => d | _ => empty_node end.

Lemma usable_sample k level : admissible ctx k level -> usable 8 32 level.
Proof.
  intros [->|[->|(Hg & _)]]; [| |done]; vm_compute; intuition discriminate.
Qed.

Lemma submissions_have_work_witness :
  handled = Ret (true, node1) /\ m_allDSPoWs node1 !! 7 = Some (mkPoWSolution 147 (2 ^ 242) 31 0 50) /\
  pow_table 8 32 key_of ctx node1.
Proof.
  assert (handled = Ret (true, node1)) as Hh by (vm_compute; reflexivity). split; [done|].
  split; [vm_compute; reflexivity|].
  assert (1 <= pc_POW_SUBMISSION_LIMIT ctx < 256) as Hlimit by (cbn; lia).
  refine (submissions_have_work 8 32 _ _ key_of ctx eq_refl Hlimit usable_sample empty_node node1 eq_refl eq_refl eq_refl eq_refl eq_refl _);
    [lia|lia|].
  exact (rtc_once _ _ (step_single 8 32 key_of ctx _ _ _ _ _ _ Hh)).
Defined.

(** A later solution that is worse replaces the one that stands for election, but not
    the one in [m_allPoWs]. *)
Definition worse : DSPowSolution :=
  mkDSPow 25 12 (peer 7) 7 147 (BlockhashToHexString (2 ^ 243)) (BlockhashToHexString 31) 0 50.
Lemma worse_solution_stands :
  match ProcessPoWSubmission 8 32 key_of ctx node1 (Some worse) (peer 7) submitting with
  | Ret (true, d) => ps_result <$> m_allPoWs d !! 7 = Some (2 ^ 242) /\ ps_result <$> m_allDSPoWs d !! 7 = Some (2 ^ 243)
  | _ => False
  end.
Proof. vm_compute. done. Qed.

(** Characters that are not hexadecimal count as the result zero. *)
Lemma bad_digits_give_zero : HexStrToStdArray (replicate 64 103) = 0.
Proof. vm_compute. reflexivity. Qed.

End SubmissionSample.
