(* ===== verification/DSBlockProposal.v ===== *)
(** * Proposing a directory block: libDirectoryService/DSBlockPreProcessing.cpp

    The leader of the directory committee elects new members by their proofs of work,
    moves the oldest members to the shards, divides the nodes into shards and proposes
    the block; every backup checks the proposal against its own tables.  Keys are
    numbers as in [PoWSubmission.v].  The hashes of the Messenger, the storage of the
    sharding structure and the consensus object are outside; an announcement is given in
    decoded form. *)

From stdpp Require Import base numbers gmap countable list sorting.
From Stdlib Require Import SpecFloat.
From S2P Require Import Prelude Serializable Peer OpenSSL Schnorr PoW TxnPool AccountStore ConsensusCommon BlockChain Blocks Committee TxnOrder MicroBlock PoWSubmission Sharding.
Open Scope Z_scope.

(** What the proposal reads of the configuration and the chains. *)
Record ProposalContext := mkProposalContext {
  pr_pow : PoWContext;
  pr_gas : GasContext;                  (** the prices of solutions are those of the node *)
  pr_POW_BOUNDARY_N_DIVIDED : Z;
  pr_POW_BOUNDARY_N_DIVIDED_START : Z;
  pr_NUM_DS_ELECTION : Z;
  pr_EXPECTED_SHARD_NODE_NUM : Z;
  pr_POW_CHANGE_TO_ADJ_DIFF : Z;
  pr_POW_CHANGE_TO_ADJ_DS_DIFF : Z;
  pr_MAX_SHARD_NODE_NUM : Z;
  pr_COMM_SIZE : Z;
  pr_SHARD_SIZE_TOLERANCE_LO : Z;
  pr_SHARD_SIZE_TOLERANCE_HI : Z;
  pr_DIFFICULTY_DIFF_TOL : Z;
  pr_MISORDER_TOLERANCE_IN_PERCENT : Z;
  pr_DIFF_IP_TOLERANCE_IN_PERCENT : Z;
  pr_PRIORITY_TOLERANCE_IN_PERCENT : Z;
  pr_SHARD_GUARD_TOL : spec_float;      (** [double] *)
  pr_DSBLOCK_VERSION : Z;
  pr_variance : Z;                      (** [SYS_TIMESTAMP_VARIANCE_IN_SECONDS] *)
  pr_timeout : Z;                       (** [CONSENSUS_OBJECT_TIMEOUT] *)
  pr_currentEpochNum : Z;
  pr_dsBlockCount : Z;                  (** blocks in the directory chain *)
  pr_lastLinkHash : bytes;              (** hash in the latest block link *)
  pr_lastTxBlockHash : bytes;
  pr_selfKey : Z;
  pr_selfPeer : Peer;
  pr_swInfo : list Z
}.

(** [DSBlockHeader] and [DSBlock] with keys as numbers. *)
Record DSHeader := mkDSHeaderZ {
  dh_dsDifficulty : Z;
  dh_difficulty : Z;
  dh_leader : Z;
  dh_blockNum : Z;
  dh_epochNum : Z;
  dh_gasPrice : Z;
  dh_swInfo : list Z;
  dh_winners : gmap Z Peer;             (** [m_PoWDSWinners] *)
  dh_shardingHash : bytes;
  dh_version : Z;
  dh_committeeHash : bytes;
  dh_prevHash : bytes
}.

Record PendingBlock := mkPending { pb_header : DSHeader; pb_hash : bytes; pb_timestamp : Z }.

Record DSAnnouncement := mkDSAnnouncement {
  an_block : PendingBlock;
  an_shards : list DSShard;
  an_allPoWs : MapOfPubKeyPoW;
  an_winnerPoWs : MapOfPubKeyPoW
}.

(** [SHA2::Finalize] after [Update] on an object that was finalized for other messages
    and not reset since. *)
Class Sha2Again := sha2_again : list bytes -> bytes -> bytes.
Class Sha2AgainSpec `{OpenSSL} `{Sha2Again} : Prop := sha2_again_fresh b : sha2_again [] b = SHA256 b.

(** The hashes of the Messenger and of a header. *)
Class ProposalHashes := {
  sharding_hash : list DSShard -> option bytes;
  committee_hash : list (Z * Peer) -> option bytes;
  dsheader_hash : DSHeader -> bytes
}.

Section proposal.
Context `{Hssl : OpenSSL} `{Heth : Ethash} `{Hagain : Sha2Again} `{Hhash : ProposalHashes}.
Context `{Hmath : SafeMath} `{Hmathint : SafeMathInt} (pubkey_of : Z -> PubKey) (sort_priority : list (Z * Z) -> list (Z * Z)).
Implicit Types (c : ProposalContext) (d : DSNode).

(** A solution with its key: [std::pair<array<unsigned char, 32>, PubKey>]. *)
Local Abbreviation Solns := (list (Z * Z)).

(** ** Sizes and difficulties *)

(** [Mediator::GetShardSize(false)] *)
Definition GetShardSize c d : outcome Z :=
  if pr_COMM_SIZE c >? 0 then Ret (pr_COMM_SIZE c) else CalculateShardSize (u32 (Z.of_nat (size (m_allPoWs d)))).

Definition new_difficulty c : Z -> Z -> Z -> Z -> Z -> Z :=
  CalculateNewDifficultyCore (pr_POW_BOUNDARY_N_DIVIDED c) (pr_POW_BOUNDARY_N_DIVIDED_START c).

Definition CalculateNewDifficulty c d (currentDifficulty : Z) : Z :=
  new_difficulty c currentDifficulty (pc_POW_DIFFICULTY (pr_pow c)) (Z.of_nat (size (m_allPoWs d)))
    (pr_EXPECTED_SHARD_NODE_NUM c) (pr_POW_CHANGE_TO_ADJ_DIFF c).

Definition CalculateNewDSDifficulty c d (dsDifficulty : Z) : Z :=
  new_difficulty c dsDifficulty (pc_DS_POW_DIFFICULTY (pr_pow c)) (GetNumberOfDSPoWSolns d)
    (pr_NUM_DS_ELECTION c) (pr_POW_CHANGE_TO_ADJ_DS_DIFF c).

(** The gas prices of the solutions, in the order of the keys. *)
Definition gas_of c d : GasContext :=
  let g := pr_gas c in
  mkGasContext (GAS_CONGESTION_PERCENT g) (UNFILLED_PERCENT_LOW g) (UNFILLED_PERCENT_HIGH g) (GAS_PRICE_MIN_VALUE g)
    (PRECISION_MIN_VALUE g) (GAS_PRICE_DROP_RATIO g) (GAS_PRICE_RAISE_RATIO_LOWER g) (GAS_PRICE_RAISE_RATIO_UPPER g)
    (GAS_PRICE_TOLERANCE g) (MEAN_GAS_PRICE_DS_NUM g) (gc_txGas g) (gc_dsPrice g) (gc_loBlockNum g) (gc_hiBlockNum g)
    (gc_curDSBlockNum g) ((fun e => ps_gasPrice e.2) <$> ordered_entries (m_allDSPoWs d)).

(** ** Ordering the solutions *)

(** The key with a result; the last one in the order of keys when two have the same. *)
Definition PoWOrderSorter (mapOfPoWs : MapOfPubKeyPoW) : gmap Z Z :=
  foldl (fun m '(key, soln) => <[ps_result soln := key]> m) ∅ (ordered_entries mapOfPoWs).

(** The guards come first; [count] is the number of solutions taken. *)
Fixpoint take_guards (is_guard : Z -> bool) (trimmedGuardCount limit : Z) (entries : Solns) (filtered shadow : gmap Z Z) (count : Z)
  : gmap Z Z * gmap Z Z * Z :=
  match entries with
  | [] => (filtered, shadow, count)
  | (result, key) :: entries =>
      if negb (count <? limit) then (filtered, shadow, count)
      else if is_guard key then
        if count =? trimmedGuardCount then (filtered, shadow, count)
        else take_guards is_guard trimmedGuardCount limit entries (emplace filtered result key) (delete result shadow) (u32 (count + 1))
      else take_guards is_guard trimmedGuardCount limit entries filtered shadow count
  end.

Fixpoint take_others (limit : Z) (entries : Solns) (filtered : gmap Z Z) (count : Z) : gmap Z Z :=
  match entries with
  | [] => filtered
  | (result, key) :: entries =>
      if negb (count <? limit) then filtered
      else take_others limit entries (emplace filtered result key) (u32 (count + 1))
  end.

Definition SortPoWSoln c d (mapOfPoWs : MapOfPubKeyPoW) (trimBeyondCommSize : bool) : outcome Solns :=
  let sorter := PoWOrderSorter mapOfPoWs in
  if trimBeyondCommSize then
    let numNodesTotal := u32 (Z.of_nat (size sorter)) in
    shardSize ← GetShardSize c d;
    numNodesAfterTrim ← GetTrimmedShardCount shardSize (pr_SHARD_SIZE_TOLERANCE_LO c) (pr_SHARD_SIZE_TOLERANCE_HI c) numNodesTotal;
    if negb (pc_GUARD_MODE (pr_pow c)) then Ret (take (Z.to_nat numNodesAfterTrim) (ordered_entries sorter))
    else
      let trimmedGuardCount := ceil_u32 (SFmul 53 1024 (to_double numNodesAfterTrim) (pr_SHARD_GUARD_TOL c)) in
      let trimmedNonGuardCount := u32 (numNodesAfterTrim - trimmedGuardCount) in
      let trimmedGuardCount :=
        if u32 (trimmedGuardCount + trimmedNonGuardCount) <? numNodesAfterTrim
        then u32 (trimmedGuardCount + (numNodesAfterTrim - trimmedGuardCount - trimmedNonGuardCount)) else trimmedGuardCount in
      let '(filtered, shadow, count) :=
        take_guards (pc_isShardGuard (pr_pow c)) trimmedGuardCount numNodesAfterTrim (ordered_entries sorter) ∅ sorter 0 in
      Ret (ordered_entries (take_others numNodesAfterTrim (ordered_entries shadow) filtered count))
  else Ret (ordered_entries sorter).

(** ** The parameters of the block *)

(** The loop over the elected nodes; [operator[]] adds a default address or solution. *)
Fixpoint elect (winners : Solns) d (powDSWinners : gmap Z Peer) (dsWinnerPoWs : MapOfPubKeyPoW) (sortedPoWSolns : Solns)
  : DSNode * gmap Z Peer * MapOfPubKeyPoW * Solns :=
  match winners with
  | [] => (d, powDSWinners, dsWinnerPoWs, sortedPoWSolns)
  | submitter :: winners =>
      let key := submitter.2 in
      let d := set_conns d (emplace (m_allPoWConns d) key Peer_default) in
      let d := set_dspows d (emplace (m_allDSPoWs d) key PoWSolution_default) in
      elect winners d (<[key := default Peer_default (m_allPoWConns d !! key)]> powDSWinners)
        (<[key := default PoWSolution_default (m_allDSPoWs d !! key)]> dsWinnerPoWs)
        (filter (fun s => s <> submitter) sortedPoWSolns)
  end.

Record DSBlockParameters := mkParameters {
  bp_sorted : Solns;
  bp_winners : gmap Z Peer;
  bp_winnerPoWs : MapOfPubKeyPoW;
  bp_dsDifficulty : Z;
  bp_difficulty : Z;
  bp_blockNum : Z;
  bp_prevHash : bytes;
  bp_elected : Z
}.

(** [prevHash] is zero at the beginning. *)
Definition ComputeDSBlockParameters c d (sortedDSPoWSolns sortedPoWSolns : Solns) : DSBlockParameters * DSNode :=
  if pc_lookup (pr_pow c) then (mkParameters sortedPoWSolns ∅ ∅ 0 0 0 zero_hash 0, d) else
  let numOfElectedDSMembers := u32 (Z.min (zlen sortedDSPoWSolns) (pr_NUM_DS_ELECTION c)) in
  let '(d, winners, winnerPoWs, sortedPoWSolns) :=
    elect (take (Z.to_nat numOfElectedDSMembers) sortedDSPoWSolns) d ∅ ∅ sortedPoWSolns in
  let '(blockNum, prevHash) :=
    if pr_dsBlockCount c >? 0 then (u64 (pc_lastDSBlockNum (pr_pow c) + 1), pr_lastLinkHash c) else (0, zero_hash) in
  let '(dsDifficulty, difficulty) :=
    if blockNum >? 1
    then (CalculateNewDSDifficulty c d (pc_lastDSDifficulty (pr_pow c)), CalculateNewDifficulty c d (pc_lastDifficulty (pr_pow c)))
    else (pc_DS_POW_DIFFICULTY (pr_pow c), pc_POW_DIFFICULTY (pr_pow c)) in
  (mkParameters sortedPoWSolns winners winnerPoWs dsDifficulty difficulty blockNum prevHash numOfElectedDSMembers, d).

(** ** The nodes of the shards *)

(** The hash by which nodes are ordered: of the last final block and the solution. *)
Definition lastBlockHash c : bytes := if pr_currentEpochNum c >? 1 then pr_lastTxBlockHash c else replicate 32 0.
Definition sort_hash c (powHash : Z) : Z := be_combine (SHA256 (lastBlockHash c ++ be_split 32 powHash)).

(** The loop over the members of the committee, the oldest first; [pending] are the
    messages of the hash object since its last reset. *)
Fixpoint inject (oldest : list (Z * Peer)) c d (sortedPoWSolns : Solns) (pending : list bytes) : Solns * DSNode :=
  match oldest with
  | [] => (sortedPoWSolns, d)
  | (nodePubKey, peer) :: oldest =>
      let serializedPubK := (PubKey_Serialize (pubkey_of nodePubKey) [] 0).2 in
      let PubKeyHash := be_combine (sha2_again pending serializedPubK) in
      if existsb (fun soln => soln.2 =? nodePubKey) sortedPoWSolns
      then inject oldest c d sortedPoWSolns (pending ++ [serializedPubK])
      else
        let conns :=
          if Peer_eqb peer Peer_default then emplace (m_allPoWConns d) (pr_selfKey c) (pr_selfPeer c)
          else emplace (m_allPoWConns d) nodePubKey peer in
        inject oldest c (set_conns d conns) (sortedPoWSolns ++ [(PubKeyHash, nodePubKey)]) []
  end.

Definition InjectPoWForDSNode c d (sortedPoWSolns : Solns) (numOfProposedDSMembers : Z) : Solns * DSNode :=
  let committee := pc_DSCommittee (pr_pow c) in
  if numOfProposedDSMembers >? zlen committee then (sortedPoWSolns, d)
  else inject (take (Z.to_nat numOfProposedDSMembers) (rev committee)) c d sortedPoWSolns [].

(** A node is put into the shard; [m_mapNodeReputation[key]] adds an entry. *)
Definition place_node (key shard_index : Z) (shardCounts : list Z) d (shards : list DSShard) (ids : gmap Z Z)
  : outcome (list Z * DSNode * list DSShard * gmap Z Z) :=
  shard ← at_ shards shard_index;
  peer ← (match m_allPoWConns d !! key with Some peer => Ret peer | None => Fault OutOfRange end);
  let d := set_reputation d (emplace (m_nodeReputation d) key 0) in
  shards ← at_set shards shard_index (shard ++ [(key, peer, default 0 (m_nodeReputation d !! key))]);
  count ← at_ shardCounts shard_index;
  shardCounts ← at_set shardCounts shard_index (u32 (count - 1));
  Ret (shardCounts, d, shards, emplace ids key shard_index).

(** The loop over the ordered nodes: the first shard is filled first. *)
Fixpoint fill_shards (entries : Solns) (shardCounts : list Z) (shard_index : Z) d (shards : list DSShard) (ids : gmap Z Z)
  : outcome DSNode :=
  match entries with
  | [] => Ret (set_shards d shards ids)
  | (_, key) :: entries =>
      count ← at_ shardCounts shard_index;
      let shard_index := if count =? 0 then u32 (shard_index + 1) else shard_index in
      if (count =? 0) && (shard_index =? zlen shardCounts) then Ret (set_shards d shards ids)
      else
        '(shardCounts, d, shards, ids) ← place_node key shard_index shardCounts d shards ids;
        fill_shards entries shardCounts shard_index d shards ids
  end.

Definition ComputeSharding c d (sortedPoWSolns : Solns) : outcome DSNode :=
  if pc_lookup (pr_pow c) then Ret d else
  let d := set_shards d [] ∅ in
  let numNodesForSharding :=
    if zlen sortedPoWSolns >? pr_MAX_SHARD_NODE_NUM c then pr_MAX_SHARD_NODE_NUM c else u32 (zlen sortedPoWSolns) in
  shardSize ← GetShardSize c d;
  shardCounts ← GenerateShardCounts shardSize (pr_SHARD_SIZE_TOLERANCE_LO c) (pr_SHARD_SIZE_TOLERANCE_HI c) numNodesForSharding;
  match shardCounts with
  | [] => Ret d
  | _ =>
      let sortedPoWs := foldl (fun m '(powHash, key) => emplace m (sort_hash c powHash) key) ∅ sortedPoWSolns in
      fill_shards (ordered_entries sortedPoWs) shardCounts 0 d (replicate (length shardCounts) []) ∅
  end.

(** ** The leader *)

(** The solutions of the nodes with the highest priorities, when there are too many. *)
Definition top_solutions c d : outcome (MapOfPubKeyPoW * MapOfPubKeyPoW * DSNode) :=
  if Z.of_nat (size (m_allPoWs d)) >? pr_MAX_SHARD_NODE_NUM c then
    '(top, _, d) ← FindTopPriorityNodes sort_priority (pr_MAX_SHARD_NODE_NUM c) (pr_pow c) d;
    let joins (k : Z) : Prop := k ∈ top in
    Ret (filter (fun e => joins e.1) (m_allPoWs d), filter (fun e => joins e.1 \/ m_allPoWs d !! e.1 = None) (m_allDSPoWs d), d)
  else Ret (m_allPoWs d, m_allDSPoWs d, d).

(** [stored]: what [PutShardStructure] returned; [now]: the time of the new block.  The
    shard number of the node and the consensus object are not part of the model. *)
Definition RunConsensusOnDSBlockWhenDSPrimary c d (stored : bool) (now : Z) : outcome (option DSAnnouncement * DSNode) :=
  if pc_lookup (pr_pow c) then Ret (None, d) else
  '(allPoWs, allDSPoWs, d) ← top_solutions c d;
  sortedDSPoWSolns ← SortPoWSoln c d allDSPoWs false;
  sortedPoWSolns ← SortPoWSoln c d allPoWs true;
  let '(p, d) := ComputeDSBlockParameters c d sortedDSPoWSolns sortedPoWSolns in
  let '(sortedPoWSolns, d) := InjectPoWForDSNode c d (bp_sorted p) (bp_elected p) in
  let d := ClearReputationOfNodeWithoutPoW d in
  d ← ComputeSharding c d sortedPoWSolns;
  let d := set_conns d (foldl (fun m s => emplace m s.2 Peer_default) (m_allPoWConns d) sortedDSPoWSolns) in
  match sharding_hash (m_shards d) with
  | None => Ret (None, d)
  | Some shardingHash =>
      if negb stored then Ret (None, d)
      else match committee_hash (pc_DSCommittee (pr_pow c)) with
           | None => Ret (None, d)
           | Some committeeHash =>
               gasPrice ← GetNewGasPrice (gas_of c d);
               let header := mkDSHeaderZ (bp_dsDifficulty p) (bp_difficulty p) (pr_selfKey c) (bp_blockNum p) (pr_currentEpochNum c)
                 gasPrice (pr_swInfo c) (bp_winners p) shardingHash (pr_DSBLOCK_VERSION c) committeeHash (bp_prevHash p) in
               Ret (Some (mkDSAnnouncement (mkPending header (dsheader_hash header) now) (m_shards d) (m_allPoWs d) (bp_winnerPoWs p)), d)
           end
  end.

(** ** The checks of a backup *)

Definition verify_pow c : POW -> Z -> Z -> Z -> Z -> list Z -> list Z -> outcome (bool * POW) :=
  PoWVerify (pr_POW_BOUNDARY_N_DIVIDED c) (pr_POW_BOUNDARY_N_DIVIDED_START c).

(** [PoWVerify] of a stored solution. *)
Definition verify_solution c d (blockNum difficulty headerHash : Z) (s : PoWSolution) : outcome (bool * DSNode) :=
  '(result, pow) ← verify_pow c (dn_pow d) blockNum difficulty headerHash (ps_nonce s)
                     (Uint8VecToHexStr (be_split 32 (ps_result s))) (Uint8VecToHexStr (be_split 32 (ps_mixhash s)));
  Ret (result, set_pow d pow).

Definition header_of c (peer : Peer) (key : Z) (s : PoWSolution) : outcome Z :=
  GenHeaderHash (pc_dsBlockRand (pr_pow c)) (pc_txBlockRand (pr_pow c)) (m_ipAddress peer) (pubkey_of key) (ps_lookupId s) (ps_gasPrice s).

Fixpoint verify_winners c d (blockNum : Z) (winners : list (Z * Peer)) (fromLeader : MapOfPubKeyPoW) : outcome (bool * DSNode) :=
  match winners with
  | [] => Ret (true, d)
  | (key, winnerPeer) :: winners =>
      let peer := default winnerPeer (m_allPoWConns d !! key) in
      if negb (Peer_eqb peer winnerPeer) then Ret (false, d)
      else
        let d := set_conns d (emplace (m_allPoWConns d) key winnerPeer) in
        match m_allDSPoWs d !! key with
        | Some _ => verify_winners c d blockNum winners fromLeader
        | None =>
            match fromLeader !! key with
            | None => Ret (false, d)
            | Some dsPowSoln =>
                headerHash ← header_of c peer key dsPowSoln;
                '(result, d) ← verify_solution c d blockNum (pc_lastDSDifficulty (pr_pow c)) headerHash dsPowSoln;
                if negb result then Ret (false, d)
                else
                  let d := set_pows d (<[key := dsPowSoln]> (m_allPoWs d)) in
                  verify_winners c (AddDSPoWs d key dsPowSoln) blockNum winners fromLeader
            end
        end
  end.

Definition VerifyPoWWinner c d (pending : DSHeader) (dsWinnerPoWsFromLeader : MapOfPubKeyPoW) : outcome (bool * DSNode) :=
  verify_winners c d (dh_blockNum pending) (ordered_entries (dh_winners pending)) dsWinnerPoWsFromLeader.

Definition VerifyDifficulty c d (pending : DSHeader) : bool :=
  let localDSDifficulty := CalculateNewDSDifficulty c d (pc_lastDSDifficulty (pr_pow c)) in
  let localDifficulty := CalculateNewDifficulty c d (pc_lastDifficulty (pr_pow c)) in
  let distance a b := Z.max a b - Z.min a b in
  if distance (dh_dsDifficulty pending) localDSDifficulty >? pr_DIFFICULTY_DIFF_TOL c then false
  else if distance (dh_difficulty pending) localDifficulty >? pr_DIFFICULTY_DIFF_TOL c then false
  else true.

Definition VerifyPoWFromLeader c d (blockNum : Z) (peer : Peer) (pubKey : Z) (powSoln : PoWSolution) : outcome (bool * DSNode) :=
  headerHash ← header_of c peer pubKey powSoln;
  difficulty ← (if pc_GUARD_MODE (pr_pow c) && pc_isShardGuard (pr_pow c) pubKey then expectedShardGuardDiff (pr_pow c)
                else Ret (pc_lastDifficulty (pr_pow c)));
  '(result, d) ← verify_solution c d blockNum difficulty headerHash powSoln;
  if negb result then Ret (false, d)
  else
    let d := set_pows d (<[pubKey := powSoln]> (m_allPoWs d)) in
    let d := set_conns d (emplace (m_allPoWConns d) pubKey peer) in
    '(result, d) ← verify_solution c d blockNum (pc_lastDSDifficulty (pr_pow c)) headerHash powSoln;
    Ret (true, if result : bool then AddDSPoWs d pubKey powSoln else d).

(** The solution of a member of a shard: of the ordered list, of the node's own table,
    or of the announcement when it is verified. *)
Definition find_result c d (blockNum : Z) (sortedPoWSolns : Solns) (allPoWsFromLeader : MapOfPubKeyPoW) (node : Z * Peer * Z)
  : outcome (option Z * DSNode) :=
  let '(toFind, peer, _) := node in
  match filter (fun s => s.2 = toFind) sortedPoWSolns with
  | (result, _) :: _ => Ret (Some result, d)
  | [] =>
      match m_allPoWs d !! toFind with
      | Some s => Ret (Some (ps_result s), d)
      | None =>
          match allPoWsFromLeader !! toFind with
          | None => Ret (None, d)
          | Some powSoln =>
              '(ok, d) ← VerifyPoWFromLeader c d blockNum peer toFind powSoln;
              Ret (if ok : bool then Some (ps_result powSoln) else None, d)
          end
      end
  end.

(** The order of the nodes that were seen: [vec] is the last hash, [preVec] the one before. *)
Record OrderState := mkOrderState { os_keyset : gset Z; os_vec : Z; os_preVec : Z; os_misorderNodes : Z }.

(** [None]: the loops were left with [ret = false]. *)
Fixpoint order_nodes c d (blockNum : Z) (sortedPoWSolns : Solns) (fromLeader : MapOfPubKeyPoW) (nodes : DSShard) (s : OrderState)
  : outcome (option OrderState * DSNode) :=
  match nodes with
  | [] => Ret (Some s, d)
  | node :: nodes =>
      '(result, d) ← find_result c d blockNum sortedPoWSolns fromLeader node;
      match result with
      | None => Ret (None, d)
      | Some result =>
          let key := node.1.1 in
          if bool_decide (key ∈ os_keyset s) then Ret (None, d)
          else
            let keyset := {[key]} ∪ os_keyset s in
            let sortHash := sort_hash c result in
            let s :=
              if sortHash <? os_vec s
              then mkOrderState keyset (os_preVec s) (os_preVec s) (u32 (os_misorderNodes s + 1))
              else mkOrderState keyset sortHash (os_vec s) (os_misorderNodes s) in
            order_nodes c d blockNum sortedPoWSolns fromLeader nodes s
      end
  end.

(** [std::ceil(size * MISORDER_TOLERANCE)] in binary32 *)
Definition max_misorder c (size : Z) : Z :=
  ceil_u32 (SFmul 24 128 (to_float size) (SFdiv 24 128 (to_float (pr_MISORDER_TOLERANCE_IN_PERCENT c)) ONE_HUNDRED_PERCENT)).

Definition VerifyPoWOrdering c d (pending : DSHeader) (shards : list DSShard) (allPoWsFromLeader priorityNodePoWs : MapOfPubKeyPoW)
  : outcome (bool * DSNode) :=
  let MAX_MISORDER_NODE := max_misorder c (Z.of_nat (size priorityNodePoWs)) in
  sortedPoWSolns ← SortPoWSoln c d priorityNodePoWs true;
  let '(sortedPoWSolns, d) := InjectPoWForDSNode c d sortedPoWSolns (Z.of_nat (size (dh_winners pending))) in
  '(s, d) ← order_nodes c d (dh_blockNum pending) sortedPoWSolns allPoWsFromLeader (concat shards) (mkOrderState ∅ 0 0 0);
  match s with
  | None => Ret (false, d)
  | Some s => Ret (negb (os_misorderNodes s >? MAX_MISORDER_NODE), d)
  end.

(** The loop of [VerifyNodePriority]; [m_mapNodeReputation[toFind]] adds an entry. *)
Fixpoint count_outside (top : gset Z) (lowestPriority : Z) (nodes : list Z) (m : gmap Z Z) (n : Z) : gmap Z Z * Z :=
  match nodes with
  | [] => (m, n)
  | toFind :: nodes =>
      if bool_decide (toFind ∈ top) then count_outside top lowestPriority nodes m n
      else
        let m := emplace m toFind 0 in
        let priority := CalculateNodePriority (default 0 (m !! toFind)) in
        count_outside top lowestPriority nodes m (if priority <? lowestPriority then u32 (n + 1) else n)
  end.

(** [std::ceil(MAX_SHARD_NODE_NUM * PRIORITY_TOLERANCE_IN_PERCENT / ONE_HUNDRED_PERCENT)] *)
Definition max_outside c : Z :=
  ceil_u32 (SFdiv 24 128 (to_float (u32 (pr_MAX_SHARD_NODE_NUM c * pr_PRIORITY_TOLERANCE_IN_PERCENT c))) ONE_HUNDRED_PERCENT).

Definition VerifyNodePriority c d (shards : list DSShard) : outcome (bool * MapOfPubKeyPoW * DSNode) :=
  if Z.of_nat (size (m_allPoWs d)) <=? pr_MAX_SHARD_NODE_NUM c then Ret (true, m_allPoWs d, d)
  else
    '(top, lowestPriority, d) ← FindTopPriorityNodes sort_priority (pr_MAX_SHARD_NODE_NUM c) (pr_pow c) d;
    let top := list_to_set (pc_DSCommittee (pr_pow c)).*1 ∪ top in
    let '(m, outside) := count_outside top lowestPriority (all_members shards) (m_nodeReputation d) 0 in
    let d := set_reputation d m in
    if outside >? max_outside c then Ret (false, ∅, d)
    else Ret (true, filter (fun e => e.1 ∈ top) (m_allPoWs d), d).

(** ** The sharding structure of an announcement *)

Record Processed := mkProcessed { sp_ids : gmap Z Z; sp_reputation : gmap Z Z; sp_conns : gmap Z Peer; sp_diffIp : Z }.

Fixpoint process_nodes (maxDiffIp : Z) (nodes : DSShard) (i : Z) (s : Processed) : bool * Processed :=
  match nodes with
  | [] => (true, s)
  | (pubKey, peer, rep) :: nodes =>
      let reputation := <[pubKey := rep]> (sp_reputation s) in
      let go conns diffIp := process_nodes maxDiffIp nodes i (mkProcessed (emplace (sp_ids s) pubKey i) reputation conns diffIp) in
      match sp_conns s !! pubKey with
      | None => go (<[pubKey := peer]> (sp_conns s)) (sp_diffIp s)
      | Some stored =>
          if Peer_eqb stored peer then go (sp_conns s) (sp_diffIp s)
          else
            let diffIp := u64 (sp_diffIp s + 1) in
            if diffIp >? maxDiffIp then (false, mkProcessed (sp_ids s) reputation (sp_conns s) diffIp)
            else go (<[pubKey := peer]> (sp_conns s)) diffIp
      end
  end.

Fixpoint process_shards (maxDiffIp : Z) (shards : list DSShard) (i : Z) (s : Processed) : bool * Processed :=
  match shards with
  | [] => (true, s)
  | shard :: shards =>
      let '(ok, s) := process_nodes maxDiffIp shard i s in
      if ok then process_shards maxDiffIp shards (u32 (i + 1)) s else (false, s)
  end.

(** [std::ceil(totalShardNodes * DIFF_IP_TOLERANCE_IN_PERCENT / ONE_HUNDRED_PERCENT)] *)
Definition max_diff_ip c (totalShardNodes : Z) : Z :=
  ceil_u32 (SFdiv 24 128 (to_float (u64 (totalShardNodes * pr_DIFF_IP_TOLERANCE_IN_PERCENT c))) ONE_HUNDRED_PERCENT).

(** The result, the shard numbers and reputations, and the addresses. *)
Definition ProcessShardingStructure c d (shards : list DSShard) : bool * gmap Z Z * gmap Z Z * DSNode :=
  if pc_lookup (pr_pow c) then (true, ∅, ∅, d)
  else
    let '(ok, s) := process_shards (max_diff_ip c (zlen (all_members shards))) shards 0 (mkProcessed ∅ ∅ (m_allPoWConns d) 0) in
    (ok, sp_ids s, sp_reputation s, set_conns d (sp_conns s)).

(** A backup with the members that the validator fills; [None] is a default block. *)
Record Backup := mkBackup {
  bk_node : DSNode;
  m_pendingDSBlock : option PendingBlock;
  m_tempShards : list DSShard;
  m_tempPublicKeyToshardIdMap : gmap Z Z;
  m_tempMapNodeReputation : gmap Z Z
}.

Definition bk_set_node (b : Backup) d : Backup :=
  mkBackup d (m_pendingDSBlock b) (m_tempShards b) (m_tempPublicKeyToshardIdMap b) (m_tempMapNodeReputation b).

(** [None]: [Messenger::GetDSDSBlockAnnouncement] failed; [clock]: the times that
    [VerifyTimestamp] reads. *)
Definition DSBlockValidator c (b : Backup) (message : option DSAnnouncement) (clock : Z * Z * Z) : outcome (bool * Backup) :=
  if pc_lookup (pr_pow c) then Ret (true, b)
  else match message with
  | None => Ret (false, mkBackup (bk_node b) None [] (m_tempPublicKeyToshardIdMap b) (m_tempMapNodeReputation b))
  | Some a =>
      let pending := pb_header (an_block a) in
      let b := mkBackup (bk_node b) (Some (an_block a)) (an_shards a) (m_tempPublicKeyToshardIdMap b) (m_tempMapNodeReputation b) in
      if negb (dh_version pending =? pr_DSBLOCK_VERSION c) then Ret (false, b)
      else if negb (CheckWhetherBlockIsLatest (pc_lastDSBlockNum (pr_pow c)) (pr_currentEpochNum c) (dh_blockNum pending) (dh_epochNum pending))
      then Ret (false, b)
      else if negb (bool_decide (dsheader_hash pending = pb_hash (an_block a))) then Ret (false, b)
      else if negb (VerifyTimestamp (pr_variance c) (pr_timeout c) (pb_timestamp (an_block a)) (pr_timeout c) clock) then Ret (false, b)
      else if negb (bool_decide (sharding_hash (an_shards a) = Some (dh_shardingHash pending))) then Ret (false, b)
      else if negb (bool_decide (committee_hash (pc_DSCommittee (pr_pow c)) = Some (dh_committeeHash pending))) then Ret (false, b)
      else if negb (bool_decide (pr_lastLinkHash c = dh_prevHash pending)) then Ret (false, b)
      else
        '(ok, d) ← VerifyPoWWinner c (bk_node b) pending (an_winnerPoWs a);
        if negb ok then Ret (false, bk_set_node b d)
        else
          let '(ok, ids, reputation, d) := ProcessShardingStructure c d (an_shards a) in
          let b := mkBackup d (m_pendingDSBlock b) (m_tempShards b) ids reputation in
          if negb ok then Ret (false, b)
          else
            let d := ClearReputationOfNodeWithoutPoW d in
            '(ok, priorityNodePoWs, d) ← VerifyNodePriority c d (an_shards a);
            if negb ok then Ret (false, bk_set_node b d)
            else
              '(ok, d) ← VerifyPoWOrdering c d pending (an_shards a) (an_allPoWs a) priorityNodePoWs;
              if negb ok then Ret (false, bk_set_node b d)
              else if (dh_blockNum pending >? 1) && negb (VerifyDifficulty c d pending) then Ret (false, bk_set_node b d)
              else
                ok ← VerifyGasPrice (gas_of c d) (dh_gasPrice pending);
                Ret (ok, bk_set_node b d)
  end.

End proposal.
