(* ===== verification/ProposalProperties.v ===== *)
(** * Theorems about directory block proposals

    The shards a leader computes are the solutions in the order of their sort hashes,
    cut at the shard counts. *)

From stdpp Require Import base numbers gmap countable list sorting.
From Stdlib Require Import SpecFloat.
From S2P Require Import Prelude Serializable Peer OpenSSL Schnorr PoW PoWProperties TxnPool AccountStore ConsensusCommon BlockChain Blocks Committee TxnOrder MicroBlock PoWSubmission Sharding ShardingProperties DSBlockProposal.
Open Scope Z_scope.

(** ** Cutting a list *)

Fixpoint chop {A} (counts : list Z) (l : list A) : list (list A) :=
  match counts with
  | [] => []
  | n :: counts => take (Z.to_nat n) l :: chop counts (drop (Z.to_nat n) l)
  end.

Lemma chop_nil {A} counts : chop counts ([] : list A) = replicate (length counts) [].
Proof. induction counts as [|n counts IH]; [done|]. cbn. by rewrite take_nil, drop_nil, IH. Qed.

Lemma chop_concat {A} counts (l : list A) :
  Forall (fun n => 0 <= n) counts -> concat (chop counts l) = take (Z.to_nat (sumZ counts)) l.
Proof.
  intros Hc. revert l. induction Hc as [|n counts Hn Hc IH]; intros l; [done|]. cbn [chop concat]. rewrite IH, sumZ_cons.
  pose proof (sum_nonneg id counts Hc) as Hs. fold sumZ in Hs.
  rewrite Z2Nat.inj_add by done. by rewrite take_take_drop.
Qed.

Lemma chop_lengths {A} counts (l : list A) :
  Forall (fun n => 0 <= n) counts -> sumZ counts <= zlen l -> zlen <$> chop counts l = counts.
Proof.
  intros Hc. revert l. induction Hc as [|n counts Hn Hc IH]; intros l Hl; [done|]. rewrite sumZ_cons in Hl.
  pose proof (sum_nonneg id counts Hc) as Hs. fold sumZ in Hs. unfold zlen in Hl. cbn [chop fmap list_fmap]. f_equal.
  - unfold zlen. rewrite length_take. lia.
  - apply IH. unfold zlen. rewrite length_drop. lia.
Qed.

(** ** Emplacing *)

Lemma emplace_default {A} (m : gmap Z A) k k' x : default x (emplace m k x !! k') = default x (m !! k').
Proof.
  unfold emplace. destruct (m !! k) eqn:E; [done|]. destruct (decide (k = k')) as [<-|].
  - by rewrite lookup_insert_eq, E.
  - by rewrite lookup_insert_ne.
Qed.

Lemma emplace_present {A} (m : gmap Z A) k x : is_Some (m !! k) -> emplace m k x = m.
Proof. intros [y Hy]. unfold emplace. by rewrite Hy. Qed.

Lemma emplace_lookup {A} (m : gmap Z A) k x k' y :
  emplace m k x !! k' = Some y <-> m !! k' = Some y \/ k' = k /\ m !! k = None /\ y = x.
Proof.
  unfold emplace. destruct (m !! k) eqn:E; [naive_solver|]. rewrite lookup_insert_Some.
  split; [naive_solver|]. intros [Hy|(-> & _ & ->)]; [|by left]. destruct (decide (k = k')) as [<-|]; [congruence|by right].
Qed.

Section proposal.
Context `{Hssl : OpenSSL} `{Heth : Ethash} `{Hagain : Sha2Again} `{Hhash : ProposalHashes}.
Context `{Hsm : SafeMathSpec} `{Hsmi : SafeMathIntSpec} (pubkey_of : Z -> PubKey) (sort_priority : list (Z * Z) -> list (Z * Z)).
Implicit Types (c : ProposalContext) (d : DSNode).

(** The same tables of solutions and addresses. *)
Record same_tables d d' : Prop := {
  st_pows : m_allPoWs d' = m_allPoWs d;
  st_ds : m_allDSPoWs d' = m_allDSPoWs d;
  st_conns : m_allPoWConns d' = m_allPoWConns d
}.
#[local] Instance same_tables_refl : Reflexive same_tables.
Proof. by split. Qed.
#[local] Instance same_tables_trans : Transitive same_tables.
Proof. intros x y z [] []. split; congruence. Qed.

(** A node of a shard as the leader lists it. *)
Definition node_of d (k : Z) : Z * Peer * Z :=
  (k, default Peer_default (m_allPoWConns d !! k), default 0 (m_nodeReputation d !! k)).

(** ** Filling the shards *)

Lemma at_middle {A} (l l' : list A) x i : i = zlen l -> at_ (l ++ x :: l') i = Ret x.
Proof.
  intros ->. apply at_lookup; [apply zlen_nonneg|]. unfold zlen. rewrite Nat2Z.id. by rewrite lookup_app_r, Nat.sub_diag by lia.
Qed.

Lemma at_set_middle {A} (l l' : list A) x y i : i = zlen l -> at_set (l ++ x :: l') i y = Ret (l ++ y :: l').
Proof.
  intros ->. rewrite at_set_some by (unfold zlen; rewrite length_app; cbn; lia).
  unfold zlen. rewrite Nat2Z.id. by rewrite insert_app_r_alt, Nat.sub_diag by lia.
Qed.

Lemma place_node_eq k pre r post d done cur after ids :
  length done = length pre -> 1 <= r < 2 ^ 32 -> is_Some (m_allPoWConns d !! k) ->
  place_node k (zlen pre) (pre ++ r :: post) d (done ++ cur :: after) ids =
    Ret (pre ++ (r - 1) :: post, set_reputation d (emplace (m_nodeReputation d) k 0),
         done ++ (cur ++ [node_of d k]) :: after, emplace ids k (zlen pre)).
Proof.
  intros Hl Hr [peer Hp]. unfold place_node. assert (zlen pre = zlen done) as Hz by (unfold zlen; lia).
  rewrite (at_middle done) by done. cbn [mbind outcome_bind]. rewrite Hp. cbn [mbind outcome_bind].
  rewrite (at_set_middle done) by done. cbn [mbind outcome_bind].
  rewrite at_middle by done. cbn [mbind outcome_bind]. rewrite at_set_middle by done. cbn [mbind outcome_bind].
  rewrite wrap_small by (unfold in_range; lia). unfold node_of. cbn [m_nodeReputation set_reputation].
  by rewrite emplace_default, Hp.
Qed.

Lemma node_of_emplaced d k (l : list Z) : node_of (set_reputation d (emplace (m_nodeReputation d) k 0)) <$> l = node_of d <$> l.
Proof. apply list_fmap_ext. intros ? ? _. unfold node_of. cbn. by rewrite emplace_default. Qed.

Lemma fill_shards_spec entries : forall pre r rest d done cur ids,
  Forall (fun n => 1 <= n < 2 ^ 32) rest -> 0 <= r < 2 ^ 32 -> zlen pre + 1 + zlen rest < 2 ^ 32 -> length done = length pre ->
  Forall (fun e : Z * Z => is_Some (m_allPoWConns d !! e.2)) entries ->
  exists d', fill_shards entries (pre ++ r :: rest) (zlen pre) d (done ++ cur :: replicate (length rest) []) ids = Ret d' /\
    m_shards d' = done ++ (cur ++ take (Z.to_nat r) (node_of d <$> entries.*2)) :: chop rest (drop (Z.to_nat r) (node_of d <$> entries.*2)) /\
    same_tables d d'.
Proof.
  induction entries as [|[h k] entries IH]; intros pre r rest d done cur ids Hrest Hr Hlen Hdone Hconn.
  { eexists. split; [done|]. cbn. rewrite take_nil, drop_nil, app_nil_r, chop_nil. by split. }
  apply Forall_cons in Hconn as [Hpeer Hconn]. cbn [fst snd] in Hpeer.
  pose proof (zlen_nonneg pre) as Hzp. pose proof (zlen_nonneg rest) as Hzr. cbn [fill_shards].
  rewrite at_middle by done. cbn [mbind outcome_bind]. set (d1 := set_reputation d (emplace (m_nodeReputation d) k 0)).
  assert (same_tables d d1) as Hst1 by done.
  destruct (Z.eqb_spec r 0) as [->|Hr0]; cbn [andb].
  - rewrite wrap_small by (unfold in_range; lia). destruct rest as [|r2 rest].
    { rewrite zlen_app. change (zlen [0]) with 1. rewrite Z.eqb_refl. eexists. split; [done|]. cbn. rewrite app_nil_r. by split. }
    apply Forall_cons in Hrest as [Hr2 Hrest]. change (0 :: r2 :: rest) with ([0] ++ r2 :: rest).
    change (cur :: replicate (length (r2 :: rest)) []) with ([cur] ++ [] :: replicate (length rest) []). rewrite !app_assoc.
    assert (zlen pre + 1 = zlen (pre ++ [0])) as Ep by (rewrite zlen_app; done). rewrite Ep.
    assert (zlen (r2 :: rest) = 1 + zlen rest) as Ez by (unfold zlen; cbn; lia). pose proof (zlen_nonneg rest).
    destruct (Z.eqb_spec (zlen (pre ++ [0])) (zlen ((pre ++ [0]) ++ r2 :: rest))) as [E|_]; [rewrite (zlen_app (pre ++ [0])) in E; lia|].
    rewrite place_node_eq by (rewrite ?length_app; cbn; done || lia). cbn [mbind outcome_bind]. fold d1.
    destruct (IH (pre ++ [0]) (r2 - 1) rest d1 (done ++ [cur]) ([] ++ [node_of d k]) (emplace ids k (zlen (pre ++ [0]))))
      as (d' & Hf & Hs & Ht); [done|lia|rewrite <- Ep; lia|rewrite !length_app; cbn; lia|done|].
    exists d'. split; [done|]. split; [|by transitivity d1]. rewrite Hs. unfold d1. rewrite node_of_emplaced, <- app_assoc. cbn [app fmap list_fmap].
    change (Z.to_nat 0) with 0%nat. cbn [take drop chop app snd]. rewrite app_nil_r.
    by replace (Z.to_nat r2) with (S (Z.to_nat (r2 - 1))) by lia.
  - rewrite place_node_eq by (done || lia). cbn [mbind outcome_bind]. fold d1.
    destruct (IH pre (r - 1) rest d1 done (cur ++ [node_of d k]) (emplace ids k (zlen pre))) as (d' & Hf & Hs & Ht); [done|lia|lia|done|done|].
    exists d'. split; [done|]. split; [|by transitivity d1]. rewrite Hs. unfold d1. rewrite node_of_emplaced, <- app_assoc. cbn [app].
    by replace (Z.to_nat r) with (S (Z.to_nat (r - 1))) by lia.
Qed.

(** ** [ComputeSharding] *)

(** The shard numbers say who is in which shard. *)
Definition ids_ok (shards : list DSShard) (ids : gmap Z Z) : Prop :=
  forall k i, ids !! k = Some i <-> 0 <= i /\ exists shard, shards !! Z.to_nat i = Some shard /\ k ∈ members shard.

Lemma place_node_ids k i counts d shards ids counts' d' shards' ids' :
  place_node k i counts d shards ids = Ret (counts', d', shards', ids') -> ids_ok shards ids -> ids !! k = None ->
  ids_ok shards' ids' /\ ids' = <[k := i]> ids.
Proof.
  unfold place_node. intros Hp Hok Hk. unbind Hp. injection Hp as <- <- <- <-.
  apply at_Ret in E as [Hi Hsh]. apply at_set_Ret in E1 as [_ ->]. unfold emplace. rewrite Hk. split; [|done].
  intros k' j. rewrite lookup_insert_Some. split.
  - intros [[<- <-]|[Hne Hj]].
    + split; [lia|]. eexists. split; [apply list_lookup_insert_eq; by eapply lookup_lt_Some|].
      unfold members. rewrite fmap_app. apply elem_of_app. right. by left.
    + apply Hok in Hj as (Hz0 & sh & Hs & Hin). split; [done|]. destruct (decide (Z.to_nat j = Z.to_nat i)) as [Ej|Ej].
      * rewrite Ej in *. rewrite Hsh in Hs. injection Hs as <-. eexists. split; [apply list_lookup_insert_eq; by eapply lookup_lt_Some|].
        unfold members. rewrite fmap_app. apply elem_of_app. by left.
      * exists sh. by rewrite list_lookup_insert_ne.
  - intros (Hz0 & sh & Hs & Hin). destruct (decide (Z.to_nat j = Z.to_nat i)) as [Ej|Ej].
    + rewrite Ej, list_lookup_insert_eq in Hs by (by eapply lookup_lt_Some). injection Hs as <-.
      assert (j = i) as -> by lia. unfold members in Hin. rewrite fmap_app in Hin. apply elem_of_app in Hin as [Hin|Hin].
      * right. assert (ids !! k' = Some i) as Hki by (apply Hok; eauto). split; [congruence|done].
      * cbn in Hin. apply list_elem_of_singleton in Hin as ->. by left.
    + rewrite list_lookup_insert_ne in Hs by done. right. assert (ids !! k' = Some j) as Hkj by (apply Hok; eauto). split; [congruence|done].
Qed.

Lemma fill_shards_ids entries : forall counts i d shards ids d',
  fill_shards entries counts i d shards ids = Ret d' -> ids_ok shards ids -> NoDup entries.*2 ->
  (forall k, k ∈ entries.*2 -> ids !! k = None) -> ids_ok (m_shards d') (m_publicKeyToshardIdMap d').
Proof.
  induction entries as [|[h k] entries IH]; intros counts i d shards ids d' Hf Hok Hnd Hnew; cbn [fill_shards] in Hf; [by simplify_eq|].
  apply bind_Ret in Hf as (count & _ & Hf). cbv zeta in Hf. destruct (_ && _); [by simplify_eq|].
  apply bind_Ret in Hf as ([[[counts' d1] shards'] ids'] & Hp & Hf). cbn [fmap list_fmap snd] in *.
  apply NoDup_cons in Hnd as [Hk Hnd].
  apply place_node_ids in Hp as [Hok' ->]; [|done|by apply Hnew; left]. eapply IH; [done..|].
  intros k' Hk'. rewrite lookup_insert_ne by (intros ->; done). apply Hnew. by right.
Qed.

Lemma ordered_sorted {A} (m : gmap Z A) : StronglySorted entry_le (ordered_entries m).
Proof.
  apply StronglySorted_merge_sort.
  - intros x y z. unfold entry_le. lia.
  - intros x y. unfold entry_le. lia.
Qed.

(** The nodes by their sort hashes. *)
Definition by_sort_hash c (solns : list (Z * Z)) : gmap Z Z :=
  foldl (fun m '(powHash, key) => emplace m (sort_hash c powHash) key) ∅ solns.

Lemma by_sort_hash_from c solns h k :
  by_sort_hash c solns !! h = Some k -> exists r, (r, k) ∈ solns /\ h = sort_hash c r.
Proof.
  unfold by_sort_hash. revert h k. induction solns as [|[r key] solns IH] using rev_ind; intros h k; [done|].
  rewrite foldl_app. cbn. rewrite emplace_lookup. intros [Hm|(-> & _ & ->)].
  - destruct (IH _ _ Hm) as (r' & Hin & ->). exists r'. split; [|done]. apply elem_of_app. by left.
  - exists r. split; [|done]. apply elem_of_app. right. by left.
Qed.

Lemma by_sort_hash_all c solns r k :
  NoDup ((sort_hash c) <$> solns.*1) -> (r, k) ∈ solns -> by_sort_hash c solns !! sort_hash c r = Some k.
Proof.
  unfold by_sort_hash. induction solns as [|[r' key] solns IH] using rev_ind; intros Hnd Hin; [by apply elem_of_nil in Hin|].
  rewrite !fmap_app in Hnd. apply NoDup_app in Hnd as (Hnd & Hdis & _). rewrite foldl_app. cbn. rewrite emplace_lookup.
  apply elem_of_app in Hin as [Hin|Hin]; [left; by apply IH|]. apply list_elem_of_singleton in Hin as Eq.
  injection Eq as <- <-. right. split; [done|]. split; [|done].
  destruct (foldl _ ∅ solns !! sort_hash c r) as [k'|] eqn:E; [|done].
  destruct (by_sort_hash_from c solns _ _ E) as (r'' & Hin' & Heq). exfalso.
  eapply (Hdis (sort_hash c r)); [|by left]. clear Hin. rename Hin' into Hin. rewrite Heq. apply list_elem_of_fmap_2. by apply (list_elem_of_fmap_2 fst) in Hin.
Qed.

Lemma NoDup_snd_unique (l : list (Z * Z)) a a' b : NoDup l.*2 -> (a, b) ∈ l -> (a', b) ∈ l -> a = a'.
Proof.
  intros Hnd Ha Ha'. apply list_elem_of_lookup in Ha as [i Hi]. apply list_elem_of_lookup in Ha' as [j Hj].
  assert (i = j) as ->; [|congruence].
  eapply (NoDup_lookup l.*2 i j b); [done|by rewrite list_lookup_fmap, Hi|by rewrite list_lookup_fmap, Hj].
Qed.

Lemma by_sort_hash_keys c solns :
  NoDup solns.*2 -> NoDup (ordered_entries (by_sort_hash c solns)).*2.
Proof.
  intros Hnd. apply NoDup_fmap_2_strong; [|apply NoDup_fmap_1 with (f := fst), NoDup_ordered].
  intros [h k] [h' k'] Hin Hin' [= ->]. apply elem_of_ordered in Hin, Hin'.
  destruct (by_sort_hash_from c solns _ _ Hin) as (r & Hr & ->).
  destruct (by_sort_hash_from c solns _ _ Hin') as (r' & Hr' & ->).
  by rewrite (NoDup_snd_unique solns r r' k').
Qed.

Lemma members_nodes d (l : list Z) : members (node_of d <$> l) = l.
Proof. unfold members. rewrite <- list_fmap_compose. rewrite <- (list_fmap_id l) at 2. by apply list_fmap_ext. Qed.

Lemma all_members_concat (shards : list DSShard) : all_members shards = members (concat shards).
Proof.
  unfold all_members, members. induction shards as [|sh shards IH]; [done|]. cbn. by rewrite IH, fmap_app.
Qed.

(** The nodes that are shared out, capped. *)
Definition sharding_size c (solns : list (Z * Z)) : Z := Z.min (zlen solns) (pr_MAX_SHARD_NODE_NUM c).

(** What the leader's configuration has to satisfy. *)
Record sharding_config c d (shardSize : Z) : Prop := {
  sc_lookup : pc_lookup (pr_pow c) = false;
  sc_max : 0 <= pr_MAX_SHARD_NODE_NUM c < 2 ^ 32;
  sc_size : GetShardSize c d = Ret shardSize;
  sc_lo : 0 <= pr_SHARD_SIZE_TOLERANCE_LO c < shardSize;
  sc_hi : 0 <= pr_SHARD_SIZE_TOLERANCE_HI c;
  sc_fits : shardSize + pr_SHARD_SIZE_TOLERANCE_HI c < 2 ^ 32
}.

Lemma counts_in_range c d shardSize n counts :
  sharding_config c d shardSize ->
  counts_ok shardSize (pr_SHARD_SIZE_TOLERANCE_LO c) (pr_SHARD_SIZE_TOLERANCE_HI c) n counts ->
  0 <= n < 2 ^ 32 -> Forall (fun k => 1 <= k < 2 ^ 32) counts /\ zlen counts < 2 ^ 32.
Proof.
  intros [_ _ _ Hlo Hhi Hfit] [_ Hb Hs _ _] Hn. assert (Forall (fun k => 1 <= k < 2 ^ 32) counts) as Hc.
  { eapply Forall_impl; [done|]. cbn. lia. }
  split; [done|]. assert (zlen counts <= sumZ counts); [|lia]. clear Hs Hb.
  induction Hc as [|k counts Hk Hc IH]; [done|]. rewrite sumZ_cons. unfold zlen in *. cbn [length]. lia.
Qed.

Lemma ComputeSharding_spec c d solns shardSize :
  sharding_config c d shardSize -> zlen solns < 2 ^ 32 -> Forall (fun s => is_Some (m_allPoWConns d !! s.2)) solns -> NoDup solns.*2 ->
  let ordered := (ordered_entries (by_sort_hash c solns)).*2 in
  exists d' counts, ComputeSharding c d solns = Ret d' /\
    GenerateShardCounts shardSize (pr_SHARD_SIZE_TOLERANCE_LO c) (pr_SHARD_SIZE_TOLERANCE_HI c) (sharding_size c solns) = Ret counts /\
    counts_ok shardSize (pr_SHARD_SIZE_TOLERANCE_LO c) (pr_SHARD_SIZE_TOLERANCE_HI c) (sharding_size c solns) counts /\
    m_shards d' = chop counts (node_of d <$> ordered) /\ ids_ok (m_shards d') (m_publicKeyToshardIdMap d') /\ same_tables d d'.
Proof.
  intros Hc Hlen Hconn Hnd ordered. pose proof (zlen_nonneg solns) as Hz. pose proof (sc_max _ _ _ Hc) as Hmax.
  assert (0 <= sharding_size c solns < 2 ^ 32) as Hn by (unfold sharding_size; lia).
  destruct (GenerateShardCounts_ok shardSize _ _ (sc_lo _ _ _ Hc) (sc_hi _ _ _ Hc) (sc_fits _ _ _ Hc) _ Hn) as (counts & Hg & Hok).
  destruct (counts_in_range _ _ _ _ _ Hc Hok Hn) as [Hpos Hcl].
  unfold ComputeSharding. rewrite (sc_lookup _ _ _ Hc).
  change (GetShardSize c (set_shards d [] ∅)) with (GetShardSize c d). rewrite (sc_size _ _ _ Hc). cbn [mbind outcome_bind].
  assert ((if zlen solns >? pr_MAX_SHARD_NODE_NUM c then pr_MAX_SHARD_NODE_NUM c else u32 (zlen solns)) = sharding_size c solns) as ->.
  { unfold sharding_size. destruct (Z.gtb_spec (zlen solns) (pr_MAX_SHARD_NODE_NUM c)); [lia|].
    rewrite wrap_small by (unfold in_range; lia). lia. }
  rewrite Hg. cbn [mbind outcome_bind]. fold (by_sort_hash c solns).
  assert (ids_ok [] ∅) as Hids0.
  { intros k i. rewrite lookup_empty. split; [done|]. by intros (_ & sh & Hs & _). }
  destruct counts as [|r rest]; [exists (set_shards d [] ∅), []; by split_and!|].
  apply Forall_cons in Hpos as [Hr Hrest].
  destruct (fill_shards_spec (ordered_entries (by_sort_hash c solns)) [] r rest (set_shards d [] ∅) [] [] ∅)
    as (d' & Hf & Hs & Ht); [done|lia|unfold zlen in *; cbn in *; lia|done| |].
  { apply Forall_forall. intros [h k] Hin. apply elem_of_ordered, by_sort_hash_from in Hin as (x & Hx & _).
    rewrite Forall_forall in Hconn. by apply (Hconn _ Hx). }
  exists d', (r :: rest). split; [done|]. split; [done|]. split; [done|]. split; [done|]. split; [|by destruct Ht].
  eapply fill_shards_ids; [done| |by apply by_sort_hash_keys|done].
  intros k i. rewrite lookup_empty. split; [done|]. intros (_ & sh & Hsh & Hin). exfalso.
  change ([] :: replicate (length rest) []) with (replicate (S (length rest)) ([] : DSShard)) in Hsh.
  apply lookup_replicate in Hsh as [-> _]. by apply elem_of_nil in Hin.
Qed.

(** C23: [ComputeSharding] returns the nodes in the order of the hashes of the last final
    block and their solutions, cut into shards of the computed sizes, each node with its
    address and reputation; [m_publicKeyToshardIdMap] says of every node in which shard it is, no node
    is in two places, and when no two hashes are equal every shard is full. *)
Theorem sharding_by_sort_hash c d solns shardSize :
  sharding_config c d shardSize -> zlen solns < 2 ^ 32 -> Forall (fun s => is_Some (m_allPoWConns d !! s.2)) solns -> NoDup solns.*2 ->
  let entries := ordered_entries (by_sort_hash c solns) in
  exists d' counts, ComputeSharding c d solns = Ret d' /\
    counts_ok shardSize (pr_SHARD_SIZE_TOLERANCE_LO c) (pr_SHARD_SIZE_TOLERANCE_HI c) (sharding_size c solns) counts /\
    StronglySorted entry_le entries /\ (forall h k, (h, k) ∈ entries -> exists r, (r, k) ∈ solns /\ h = sort_hash c r) /\
    m_shards d' = chop counts (node_of d <$> entries.*2) /\ NoDup (all_members (m_shards d')) /\
    ids_ok (m_shards d') (m_publicKeyToshardIdMap d') /\
    (NoDup (sort_hash c <$> solns.*1) -> entries.*2 ≡ₚ solns.*2 /\ zlen <$> m_shards d' = counts).
Proof.
  intros Hc Hlen Hconn Hnd entries. destruct (ComputeSharding_spec c d solns shardSize Hc Hlen Hconn Hnd) as (d' & counts & Hcs & Hg & Hok & Hs & Hids & _).
  fold entries in Hs. exists d', counts. pose proof (zlen_nonneg solns). pose proof (sc_max _ _ _ Hc) as Hmax.
  assert (0 <= sharding_size c solns < 2 ^ 32) as Hn by (unfold sharding_size; lia).
  destruct (counts_in_range _ _ _ _ _ Hc Hok Hn) as [Hpos _].
  assert (Forall (fun k => 0 <= k) counts) as Hpos' by (eapply Forall_impl; [done|]; cbn; lia).
  assert (NoDup entries.*2) as Hkeys by (by apply by_sort_hash_keys).
  split; [done|]. split; [done|]. split; [apply ordered_sorted|].
  split; [intros h k Hin; by apply by_sort_hash_from, elem_of_ordered|]. split; [done|]. split.
  { rewrite Hs, all_members_concat, chop_concat by done. unfold members. rewrite fmap_take. fold (members (node_of d <$> entries.*2)).
    rewrite members_nodes. eapply sublist_NoDup; [done|apply sublist_take]. }
  split; [done|]. intros Hinj. assert (entries.*2 ≡ₚ solns.*2) as Hperm.
  { apply NoDup_Permutation; [done|done|]. intros k. split.
    - intros ([h k'] & -> & Hin)%list_elem_of_fmap. apply elem_of_ordered, by_sort_hash_from in Hin as (r & Hr & _).
      by apply (list_elem_of_fmap_2 snd) in Hr.
    - intros ([r k'] & -> & Hin)%list_elem_of_fmap. apply (by_sort_hash_all c) in Hin; [|done].
      apply (list_elem_of_fmap_2 snd _ (sort_hash c r, k')). by apply elem_of_ordered. }
  split; [done|]. rewrite Hs. apply chop_lengths; [done|]. etrans; [apply (co_sum _ _ _ _ _ Hok)|].
  unfold zlen. rewrite length_fmap, Hperm, length_fmap. unfold sharding_size, zlen. lia.
Qed.

End proposal.
