(* ===== verification/ProposalAcceptance.v ===== *)
(** * A leader's directory block is accepted

    The steps of [RunConsensusOnDSBlockWhenDSPrimary] and of [DSBlockValidator] compared:
    a backup that has collected the same solutions accepts what an honest leader
    proposes. *)

From stdpp Require Import base numbers gmap countable list sorting.
From Stdlib Require Import SpecFloat.
From S2P Require Import Prelude Serializable Peer OpenSSL Schnorr PoW PoWProperties TxnPool AccountStore ConsensusCommon BlockChain Blocks Committee TxnOrder MicroBlock PoWSubmission Sharding ShardingProperties DSBlockProposal ProposalProperties.
Open Scope Z_scope.

(** ** Ordered solutions *)

Definition from_map (m : MapOfPubKeyPoW) (e : Z * Z) : Prop := exists s, m !! e.2 = Some s /\ ps_result s = e.1.

Lemma sorter_from m r k : PoWOrderSorter m !! r = Some k -> from_map m (r, k).
Proof.
  assert (forall l acc, (forall e, e ∈ l -> m !! e.1 = Some e.2) -> (forall r k, acc !! r = Some k -> from_map m (r, k)) ->
    forall r k, foldl (fun (m : gmap Z Z) '(key, soln) => <[ps_result soln := key]> m) acc l !! r = Some k -> from_map m (r, k)) as Hl.
  { induction l as [|[k' s] l IH]; intros acc Hin Hacc r' k''; [by apply Hacc|]. cbn [foldl]. apply IH.
    - intros e He. apply Hin. by right.
    - intros r0 k0 [[<- <-]|[_ Hx]]%lookup_insert_Some; [|by apply Hacc]. exists s. split; [|done].
      apply (Hin (k', s)). by left. }
  apply Hl; [|done]. intros [a s] He. by apply elem_of_ordered in He.
Qed.

(** A node has one solution, so it is listed once. *)
Lemma from_map_NoDup m (l : list (Z * Z)) : NoDup l.*1 -> Forall (from_map m) l -> NoDup l.*2.
Proof.
  intros Hnd Hl. rewrite Forall_forall in Hl. apply NoDup_fmap_2_strong; [|by eapply NoDup_fmap_1].
  intros [r k] [r' k'] H1 H2 [= ->]. destruct (Hl _ H1) as (s & Hs & Er), (Hl _ H2) as (s' & Hs' & Er'). cbn in *. congruence.
Qed.

Lemma take_guards_sub g t limit (M : gmap Z Z) entries : forall filtered shadow count filtered' shadow' count',
  take_guards g t limit entries filtered shadow count = (filtered', shadow', count') ->
  (forall e, e ∈ entries -> M !! e.1 = Some e.2) -> filtered ⊆ M -> shadow ⊆ M -> filtered' ⊆ M /\ shadow' ⊆ M.
Proof.
  induction entries as [|[r k] entries IH]; intros filtered shadow count filtered' shadow' count' Ht Hin Hf Hs;
    cbn [take_guards] in Ht; [by simplify_eq|].
  destruct (negb _); [by simplify_eq|]. destruct (g k); [destruct (count =? t); [by simplify_eq|]|].
  - eapply IH; [done|intros e He; apply Hin; by right| |].
    + apply map_subseteq_spec. intros r' k' Hr'. apply emplace_lookup in Hr' as [Hr'|(-> & _ & ->)];
        [by eapply lookup_weaken|]. apply (Hin (r, k)). by left.
    + etrans; [apply delete_subseteq|done].
  - eapply IH; [done|intros e He; apply Hin; by right|done|done].
Qed.

Lemma take_others_sub limit (M : gmap Z Z) entries : forall filtered count,
  (forall e, e ∈ entries -> M !! e.1 = Some e.2) -> filtered ⊆ M -> take_others limit entries filtered count ⊆ M.
Proof.
  induction entries as [|[r k] entries IH]; intros filtered count Hin Hf; cbn [take_others]; [done|].
  destruct (negb _); [done|]. apply IH; [intros e He; apply Hin; by right|].
  apply map_subseteq_spec. intros r' k' Hr'. apply emplace_lookup in Hr' as [Hr'|(-> & _ & ->)]; [by eapply lookup_weaken|].
  apply (Hin (r, k)). by left.
Qed.

Section acceptance.
Context `{Hssl : OpenSSL} `{Heth : Ethash} `{Hagain : Sha2Again} `{Hhash : ProposalHashes}.
Context `{Hsm : SafeMathSpec} `{Hsmi : SafeMathIntSpec} (pubkey_of : Z -> PubKey) (sort_priority : list (Z * Z) -> list (Z * Z)).
Implicit Types (c : ProposalContext) (d b : DSNode).

Lemma SortPoWSoln_from c d m trim S : SortPoWSoln c d m trim = Ret S -> Forall (from_map m) S /\ NoDup S.*2.
Proof.
  intros HS. assert (exists M : gmap Z Z, M ⊆ PoWOrderSorter m /\ S `sublist_of` ordered_entries M) as (M & HM & Hsub).
  { unfold SortPoWSoln in HS. destruct trim; [|injection HS as <-; by exists (PoWOrderSorter m)].
    apply bind_Ret in HS as (size & _ & HS). apply bind_Ret in HS as (n & _ & HS).
    destruct (negb _); [injection HS as <-; exists (PoWOrderSorter m); split; [done|apply sublist_take]|].
    destruct (take_guards _ _ _ _ _ _ _) as [[filtered shadow] count] eqn:Et. injection HS as <-.
    assert (forall (M : gmap Z Z) e, e ∈ ordered_entries M -> M !! e.1 = Some e.2) as Hin by (intros M [a x]; apply elem_of_ordered).
    destruct (take_guards_sub _ _ _ (PoWOrderSorter m) _ _ _ _ _ _ _ Et (Hin _) (map_empty_subseteq _) (reflexivity _)) as [Hf Hs].
    eexists. split; [|done]. apply take_others_sub; [|done]. intros e He. eapply lookup_weaken; [by apply Hin|done]. }
  assert (Forall (from_map m) S) as Hfrom.
  { apply Forall_forall. intros [r k] He. eapply sublist_subseteq in He; [|done]. apply elem_of_ordered in He.
    apply sorter_from. by eapply lookup_weaken. }
  split; [done|]. apply from_map_NoDup with m; [|done]. eapply sublist_NoDup; [apply (NoDup_ordered M)|]. by apply (fmap_sublist fst).
Qed.

(** ** Election *)

Lemma set_conns_same d : set_conns d (m_allPoWConns d) = d.
Proof. by destruct d. Qed.
Lemma set_dspows_same d : set_dspows d (m_allDSPoWs d) = d.
Proof. by destruct d. Qed.

Lemma elect_spec winners : forall d W P sorted d' W' P' sorted',
  elect winners d W P sorted = (d', W', P', sorted') ->
  Forall (fun e => is_Some (m_allPoWConns d !! e.2) /\ is_Some (m_allDSPoWs d !! e.2)) winners -> NoDup winners.*2 ->
  (forall k, k ∈ winners.*2 -> W !! k = None) ->
  d' = d /\ sorted' `sublist_of` sorted /\ size W' = (size W + length winners)%nat /\
  (forall k p, W' !! k = Some p -> W !! k = Some p \/ k ∈ winners.*2 /\ m_allPoWConns d !! k = Some p).
Proof.
  induction winners as [|[r k] winners IH]; intros d W P sorted d' W' P' sorted' He Hin Hnd Hnew; cbn [elect] in He.
  { simplify_eq. split_and!; [done|done|cbn; lia|by left]. }
  apply Forall_cons in Hin as [[Hc Hds] Hin]. cbn [fst snd] in *. apply NoDup_cons in Hnd as [Hk Hnd].
  rewrite (emplace_present (m_allPoWConns d)) in He by done. rewrite set_conns_same in He.
  rewrite (emplace_present (m_allDSPoWs d)) in He by done. rewrite set_dspows_same in He.
  destruct Hc as [p0 Hp0]. rewrite Hp0 in He. cbn [default] in He.
  destruct (IH _ _ _ _ _ _ _ _ He Hin Hnd) as (-> & Hsub & Hsz & Hall).
  { intros k' Hk'. rewrite lookup_insert_ne by (intros ->; done). apply Hnew. by right. }
  split; [done|]. split; [etrans; [done|]; apply sublist_filter|]. split.
  - rewrite Hsz, map_size_insert_None by (apply Hnew; by left). cbn. lia.
  - intros k' p Hp. destruct (Hall _ _ Hp) as [Hi|[Hi Hcp]]; [|right; split; [by right|done]].
    apply lookup_insert_Some in Hi as [[<- <-]|[_ Hi]]; [right; split; [by left|done]|by left].
Qed.

(** ** Injection *)

(** What stands for the solution of an old member. *)
Definition member_hash (k : Z) : Z := be_combine (sha2_again [] (PubKey_Serialize (pubkey_of k) [] 0).2).
Definition injected (oldest : list (Z * Peer)) : list (Z * Z) := (fun k => (member_hash k, k)) <$> oldest.*1.

Lemma inject_spec oldest : forall c d S,
  NoDup oldest.*1 -> (forall k, k ∈ oldest.*1 -> k ∉ S.*2) ->
  let '(S', d') := inject pubkey_of oldest c d S [] in
  S' = S ++ injected oldest /\ m_allPoWs d' = m_allPoWs d /\ m_allDSPoWs d' = m_allDSPoWs d /\ m_nodeReputation d' = m_nodeReputation d /\
  m_allPoWConns d ⊆ m_allPoWConns d' /\
  (forall e, e ∈ oldest -> (Peer_eqb e.2 Peer_default = true -> e.1 = pr_selfKey c) -> is_Some (m_allPoWConns d' !! e.1)).
Proof.
  induction oldest as [|[k peer] oldest IH]; intros c d S Hnd Hnew; cbn [inject].
  { unfold injected. cbn. rewrite app_nil_r. split_and!; try done. intros e He. by apply elem_of_nil in He. }
  cbn in Hnd. apply NoDup_cons in Hnd as [Hk Hnd].
  destruct (existsb (fun soln => soln.2 =? k) S) eqn:Ex.
  { exfalso. apply existsb_exists in Ex as ([r k'] & Hin & Heq). apply Z.eqb_eq in Heq. cbn in Heq. subst k'.
    apply (Hnew k); [by left|]. apply list_elem_of_In, (list_elem_of_fmap_2 snd) in Hin. done. }
  set (conns := if Peer_eqb peer Peer_default then _ else _).
  specialize (IH c (set_conns d conns) (S ++ [(be_combine (sha2_again [] (PubKey_Serialize (pubkey_of k) [] 0).2), k)]) Hnd).
  destruct (inject pubkey_of oldest c _ _ []) as [S' d']. destruct IH as (-> & Hp & Hd & Hr & Hc & Hm).
  { intros k' Hk' Hin. rewrite fmap_app in Hin. apply elem_of_app in Hin as [Hin|Hin]; [by eapply Hnew; [right|]|].
    apply list_elem_of_singleton in Hin. cbn in Hin. subst. done. }
  assert (m_allPoWConns d ⊆ conns) as Hsub.
  { unfold conns. destruct (Peer_eqb _ _); apply map_subseteq_spec; intros; apply emplace_lookup; by left. }
  split; [by rewrite <- app_assoc|]. split_and!; try done; [by etrans|].
  intros e [->|He]%elem_of_cons Hself; [|by apply Hm]. cbn [fst snd] in *.
  assert (is_Some (conns !! k)) as [x Hx]; [|by exists x; eapply lookup_weaken].
  assert (forall p, is_Some (emplace (m_allPoWConns d) k p !! k)) as Hemp.
  { intros p. unfold emplace. destruct (m_allPoWConns d !! k) eqn:E; [by rewrite E|by rewrite lookup_insert_eq]. }
  unfold conns. destruct (Peer_eqb peer Peer_default); [rewrite <- (Hself eq_refl)|]; apply Hemp.
Qed.

(** The members that go to the shards when [n] new ones are elected. *)
Definition outgoing c (n : Z) : list (Z * Peer) :=
  if n >? zlen (pc_DSCommittee (pr_pow c)) then [] else take (Z.to_nat n) (rev (pc_DSCommittee (pr_pow c))).

Lemma outgoing_sub c n e : e ∈ outgoing c n -> e ∈ pc_DSCommittee (pr_pow c).
Proof.
  unfold outgoing. destruct (_ >? _); [by intros ?%elem_of_nil|].
  intros He. eapply sublist_subseteq in He; [|apply sublist_take]. by rewrite <- Permutation_rev in He.
Qed.

Lemma InjectPoWForDSNode_spec c d S n :
  NoDup (pc_DSCommittee (pr_pow c)).*1 -> (forall k, k ∈ (pc_DSCommittee (pr_pow c)).*1 -> k ∉ S.*2) ->
  let '(S', d') := InjectPoWForDSNode pubkey_of c d S n in
  S' = S ++ injected (outgoing c n) /\ m_allPoWs d' = m_allPoWs d /\ m_allDSPoWs d' = m_allDSPoWs d /\
  m_nodeReputation d' = m_nodeReputation d /\ m_allPoWConns d ⊆ m_allPoWConns d' /\
  (forall e, e ∈ outgoing c n -> (Peer_eqb e.2 Peer_default = true -> e.1 = pr_selfKey c) -> is_Some (m_allPoWConns d' !! e.1)).
Proof.
  intros Hnd Hnew. unfold InjectPoWForDSNode. assert (NoDup (outgoing c n).*1) as Hndo.
  { unfold outgoing. destruct (_ >? _); [constructor|]. eapply sublist_NoDup; [|apply (fmap_sublist fst), sublist_take].
    by rewrite <- Permutation_rev. }
  assert (forall k, k ∈ (outgoing c n).*1 -> k ∉ S.*2) as Hnewo.
  { intros k ([a p] & -> & He)%list_elem_of_fmap. apply Hnew. apply outgoing_sub in He. by apply (list_elem_of_fmap_2 fst) in He. }
  pose proof (inject_spec (outgoing c n) c d S Hndo Hnewo) as Hi. unfold outgoing in *. destruct (_ >? _); [|done].
  cbn [inject] in Hi. done.
Qed.

(** ** The checks of a backup *)

(** No address that is known differs from the reference. *)
Definition agrees (conns ref : gmap Z Peer) : Prop := forall k p q, conns !! k = Some p -> ref !! k = Some q -> p = q.

Lemma agrees_insert conns ref k p : agrees conns ref -> ref !! k = Some p -> agrees (<[k := p]> conns) ref.
Proof. intros Ha Hk k' p' q [[<- <-]|[_ Hp]]%lookup_insert_Some Hq; [congruence|by eapply Ha]. Qed.

Lemma agrees_emplace conns ref k p : agrees conns ref -> ref !! k = Some p -> agrees (emplace conns k p) ref.
Proof. intros Ha Hk. unfold emplace. destruct (conns !! k); [done|by apply agrees_insert]. Qed.

(** The tables without the addresses. *)
Definition same_solutions d d' : Prop :=
  m_allPoWs d' = m_allPoWs d /\ m_allDSPoWs d' = m_allDSPoWs d.

Lemma verify_winners_known ref ws : forall c b blk from,
  Forall (fun e : Z * Peer => ref !! e.1 = Some e.2 /\ is_Some (m_allDSPoWs b !! e.1)) ws -> agrees (m_allPoWConns b) ref ->
  exists b', verify_winners pubkey_of c b blk ws from = Ret (true, b') /\ same_solutions b b' /\ agrees (m_allPoWConns b') ref.
Proof.
  induction ws as [|[k p] ws IH]; intros c b blk from Hws Ha; cbn [verify_winners]; [by exists b|].
  apply Forall_cons in Hws as [[Hp Hds] Hws]. cbn [fst snd] in *.
  assert (Peer_eqb (default p (m_allPoWConns b !! k)) p = true) as ->.
  { destruct (m_allPoWConns b !! k) as [q|] eqn:E; cbn; [rewrite (Ha _ _ _ E Hp)|]; apply Peer_eqb_refl. }
  cbn [negb]. destruct Hds as [s Hs]. cbn [m_allDSPoWs set_conns]. rewrite Hs.
  destruct (IH c (set_conns b (emplace (m_allPoWConns b) k p)) blk from) as (b' & Hv & Hsol & Ha'); [done|by apply agrees_emplace|].
  by exists b'.
Qed.

Lemma process_nodes_agree ref maxd i nodes : forall s,
  Forall (fun n : Z * Peer * Z => ref !! n.1.1 = Some n.1.2) nodes -> agrees (sp_conns s) ref ->
  let '(ok, s') := process_nodes maxd nodes i s in ok = true /\ agrees (sp_conns s') ref.
Proof.
  induction nodes as [|[[k p] rep] nodes IH]; intros s Hn Ha; cbn [process_nodes]; [done|].
  apply Forall_cons in Hn as [Hp Hn]. cbn [fst snd] in *. destruct (sp_conns s !! k) as [q|] eqn:E.
  - rewrite (Ha _ _ _ E Hp), Peer_eqb_refl. by apply IH.
  - apply IH; [done|]. by apply agrees_insert.
Qed.

Lemma process_shards_agree ref maxd shards : forall i s,
  Forall (fun n : Z * Peer * Z => ref !! n.1.1 = Some n.1.2) (concat shards) -> agrees (sp_conns s) ref ->
  let '(ok, s') := process_shards maxd shards i s in ok = true /\ agrees (sp_conns s') ref.
Proof.
  induction shards as [|sh shards IH]; intros i s Hn Ha; cbn [process_shards]; [done|].
  cbn in Hn. apply Forall_app in Hn as [Hsh Hn]. pose proof (process_nodes_agree ref maxd i sh s Hsh Ha) as Hp.
  destruct (process_nodes maxd sh i s) as [ok s1]. destruct Hp as [-> Ha1]. by apply IH.
Qed.

Lemma process_agree ref c d shards :
  pc_lookup (pr_pow c) = false ->
  Forall (fun n : Z * Peer * Z => ref !! n.1.1 = Some n.1.2) (concat shards) -> agrees (m_allPoWConns d) ref ->
  exists ids rep conns, ProcessShardingStructure c d shards = (true, ids, rep, set_conns d conns).
Proof.
  intros Hl Hn Ha. unfold ProcessShardingStructure. rewrite Hl.
  pose proof (process_shards_agree ref (max_diff_ip c (zlen (all_members shards))) shards 0 (mkProcessed ∅ ∅ (m_allPoWConns d) 0) Hn Ha) as Hp.
  destruct (process_shards _ _ _ _) as [ok s]. destruct Hp as [-> _]. eauto.
Qed.

(** Nodes in the order of their hashes are never found out of order. *)
Lemma order_nodes_sorted c b blk L from nodes : forall hs s,
  Forall2 (fun (n : Z * Peer * Z) h => exists r, (r, n.1.1) ∈ L /\ h = sort_hash c r) nodes hs -> NoDup L.*2 ->
  NoDup (members nodes) -> (forall k, k ∈ members nodes -> k ∉ os_keyset s) ->
  StronglySorted Z.le hs -> Forall (fun h => os_vec s <= h) hs ->
  exists s', order_nodes pubkey_of c b blk L from nodes s = Ret (Some s', b) /\ os_misorderNodes s' = os_misorderNodes s.
Proof.
  induction nodes as [|n nodes IH]; intros hs s Hf HL Hnd Hnew Hsort Hvec; cbn [order_nodes]; [by exists s|].
  inversion Hf as [|? h ? hs' (r & Hr & ->) Hf']; subst. cbn in Hnd. apply NoDup_cons in Hnd as [Hk Hnd].
  assert (find_result pubkey_of c b blk L from n = Ret (Some r, b)) as ->.
  { destruct n as [[k p] rep]. cbn [fst snd] in *. unfold find_result.
    destruct (filter (fun s0 : Z * Z => s0.2 = k) L) as [|[r' k'] l] eqn:E.
    - exfalso. assert ((r, k) ∈ filter (fun s0 : Z * Z => s0.2 = k) L) as Hin by (by apply list_elem_of_filter).
      rewrite E in Hin. by apply elem_of_nil in Hin.
    - assert ((r', k') ∈ filter (fun s0 : Z * Z => s0.2 = k) L) as Hin by (rewrite E; by left).
      apply list_elem_of_filter in Hin as [Heq Hin]. cbn in Heq. subst k'. by rewrite (NoDup_snd_unique L r' r k). }
  cbn [mbind outcome_bind]. rewrite bool_decide_eq_false_2 by (apply Hnew; by left).
  apply Forall_cons in Hvec as [Hle Hvec]. destruct (Z.ltb_spec (sort_hash c r) (os_vec s)); [lia|].
  inversion Hsort as [|? ? Hsort' Hall]; subst.
  destruct (IH hs' (mkOrderState ({[n.1.1]} ∪ os_keyset s) (sort_hash c r) (os_vec s) (os_misorderNodes s))) as (s' & Hs' & Hm); try done.
  - intros k Hk'. cbn. intros [Heq|Hin]%elem_of_union; [apply elem_of_singleton in Heq; by subst|]. eapply Hnew; [by right|done].
  - by exists s'.
Qed.

(** ** An honest leader *)

(** What the tables and the configuration of a leader satisfy when it proposes. *)
Record proposing c d (shardSize : Z) : Prop := {
  pg_config : sharding_config c d shardSize;
  pg_few : Z.of_nat (size (m_allPoWs d)) <= pr_MAX_SHARD_NODE_NUM c;
  pg_small : Z.of_nat (size (m_allPoWs d)) + zlen (pc_DSCommittee (pr_pow c)) < 2 ^ 32;
  pg_conns k : is_Some (m_allPoWs d !! k) -> is_Some (m_allPoWConns d !! k);
  pg_ds k : is_Some (m_allDSPoWs d !! k) -> is_Some (m_allPoWs d !! k);
  pg_outside k : k ∈ (pc_DSCommittee (pr_pow c)).*1 -> m_allPoWs d !! k = None;
  pg_committee : NoDup (pc_DSCommittee (pr_pow c)).*1;
  pg_self e : e ∈ pc_DSCommittee (pr_pow c) -> Peer_eqb e.2 Peer_default = true -> e.1 = pr_selfKey c;
  pg_blocks : 0 < pr_dsBlockCount c;
  pg_election : 0 <= pr_NUM_DS_ELECTION c < 2 ^ 32;
  pg_gas : gas_ok (gas_of c d);
  pg_chain : gc_hiBlockNum (pr_gas c) <> 2 ^ 64 - 1
}.

Lemma SortPoWSoln_returns c d m shardSize : sharding_config c d shardSize -> exists S, SortPoWSoln c d m true = Ret S.
Proof.
  intros Hc. unfold SortPoWSoln. rewrite (sc_size _ _ _ Hc). cbn [mbind outcome_bind].
  pose proof (wrap_range 32 (Z.of_nat (size (PoWOrderSorter m))) ltac:(lia)) as Hn.
  destruct (GenerateShardCounts_ok shardSize _ _ (sc_lo _ _ _ Hc) (sc_hi _ _ _ Hc) (sc_fits _ _ _ Hc) _ Hn) as (counts & Hg & _).
  unfold GetTrimmedShardCount. rewrite Hg. cbn [mbind outcome_bind].
  destruct counts; cbn [mbind outcome_bind]; (destruct (negb _); [eauto|]);
    destruct (take_guards _ _ _ _ _ _ _) as [[? ?] ?]; eauto.
Qed.

Lemma from_map_keys m (S : list (Z * Z)) k : Forall (from_map m) S -> k ∈ S.*2 -> is_Some (m !! k).
Proof.
  intros HS ([r k'] & -> & Hin)%list_elem_of_fmap. rewrite Forall_forall in HS. destruct (HS _ Hin) as (x & Hx & _). cbn in *. eauto.
Qed.

Lemma emplace_all_present {A} (l : list (Z * Z)) (m : gmap Z A) x :
  (forall k, k ∈ l.*2 -> is_Some (m !! k)) -> foldl (fun m s => emplace m s.2 x) m l = m.
Proof.
  induction l as [|[r k] l IH]; intros Hl; [done|]. cbn [foldl]. rewrite emplace_present by (apply Hl; by left).
  apply IH. intros k' Hk'. apply Hl. by right.
Qed.

Lemma from_map_length m (S : list (Z * Z)) : Forall (from_map m) S -> NoDup S.*2 -> (length S <= size m)%nat.
Proof.
  intros HS Hnd. rewrite <- (length_fmap snd S), <- (size_dom (D := gset Z) m), <- (size_list_to_set (C := gset Z) S.*2) by done.
  apply subseteq_size. intros k Hk. apply elem_of_dom. eapply from_map_keys; [done|]. by apply elem_of_list_to_set in Hk.
Qed.

(** The list that the leader shares out. *)
Lemma final_list_ok c d S sorted n shardSize :
  proposing c d shardSize -> Forall (from_map (m_allPoWs d)) S -> NoDup S.*2 -> sorted `sublist_of` S ->
  NoDup (sorted ++ injected (outgoing c n)).*2 /\ NoDup (S ++ injected (outgoing c n)).*2 /\
  zlen (sorted ++ injected (outgoing c n)) < 2 ^ 32 /\ sorted ++ injected (outgoing c n) ⊆ S ++ injected (outgoing c n) /\
  (forall k, k ∈ (pc_DSCommittee (pr_pow c)).*1 -> k ∉ S.*2).
Proof.
  intros Hp HS Hnd Hsub. assert ((injected (outgoing c n)).*2 = (outgoing c n).*1) as Ei.
  { unfold injected. rewrite <- list_fmap_compose. rewrite <- (list_fmap_id (outgoing c n).*1) at 2. by apply list_fmap_ext. }
  assert (NoDup (outgoing c n).*1) as Hndo.
  { unfold outgoing. destruct (_ >? _); [constructor|]. eapply sublist_NoDup; [|apply (fmap_sublist fst), sublist_take].
    rewrite <- Permutation_rev. apply (pg_committee _ _ _ Hp). }
  assert (forall k, k ∈ (pc_DSCommittee (pr_pow c)).*1 -> k ∉ S.*2) as Hdis.
  { intros k Hk Hin. apply (from_map_keys _ _ _ HS) in Hin as [x Hx]. by rewrite (pg_outside _ _ _ Hp k Hk) in Hx. }
  assert (forall k, k ∈ S.*2 -> k ∉ (outgoing c n).*1) as Hdis'.
  { intros k Hk ([a q] & -> & He)%list_elem_of_fmap. apply outgoing_sub in He. by apply (Hdis a); [apply (list_elem_of_fmap_2 fst) in He|]. }
  assert (forall l, l `sublist_of` S -> NoDup (l ++ injected (outgoing c n)).*2) as Hall.
  { intros l Hl. rewrite fmap_app, Ei. apply NoDup_app. split; [eapply sublist_NoDup; [exact Hnd|by apply (fmap_sublist snd)]|].
    split; [|done]. intros k Hk. apply Hdis'. eapply sublist_subseteq; [by apply (fmap_sublist snd)|done]. }
  split_and!; [by apply Hall|by apply Hall| | |done].
  - rewrite zlen_app. assert (zlen (injected (outgoing c n)) <= zlen (pc_DSCommittee (pr_pow c))) as H1.
    { unfold zlen, injected, outgoing. rewrite !length_fmap. destruct (_ >? _); cbn; [lia|]. rewrite length_take, length_rev. lia. }
    assert (zlen sorted <= Z.of_nat (size (m_allPoWs d))) as H2.
    { unfold zlen. pose proof (sublist_length _ _ Hsub). pose proof (from_map_length _ _ HS Hnd). lia. }
    pose proof (pg_small _ _ _ Hp). lia.
  - intros e [He|He]%elem_of_app; apply elem_of_app; [left; by eapply sublist_subseteq|by right].
Qed.

(** What an announcement says, as a backup checks it; [ref] are the leader's addresses,
    [n] the number of elected nodes and [hs] the hashes of the nodes in order. *)
Record announced c d (a : DSAnnouncement) (ref : gmap Z Peer) (S : list (Z * Z)) (n : Z) (hs : list Z) (now : Z) : Prop := {
  ad_hash : pb_hash (an_block a) = dsheader_hash (pb_header (an_block a));
  ad_time : pb_timestamp (an_block a) = now;
  ad_version : dh_version (pb_header (an_block a)) = pr_DSBLOCK_VERSION c;
  ad_blockNum : dh_blockNum (pb_header (an_block a)) = u64 (pc_lastDSBlockNum (pr_pow c) + 1);
  ad_epoch : dh_epochNum (pb_header (an_block a)) = pr_currentEpochNum c;
  ad_sharding : sharding_hash (an_shards a) = Some (dh_shardingHash (pb_header (an_block a)));
  ad_committee : committee_hash (pc_DSCommittee (pr_pow c)) = Some (dh_committeeHash (pb_header (an_block a)));
  ad_prev : dh_prevHash (pb_header (an_block a)) = pr_lastLinkHash c;
  ad_gas : GetNewGasPrice (gas_of c d) = Ret (dh_gasPrice (pb_header (an_block a)));
  ad_difficulties : dh_blockNum (pb_header (an_block a)) > 1 ->
    dh_dsDifficulty (pb_header (an_block a)) = CalculateNewDSDifficulty c d (pc_lastDSDifficulty (pr_pow c)) /\
    dh_difficulty (pb_header (an_block a)) = CalculateNewDifficulty c d (pc_lastDifficulty (pr_pow c));
  ad_elected : Z.of_nat (size (dh_winners (pb_header (an_block a)))) = n;
  ad_winners : Forall (fun e : Z * Peer => ref !! e.1 = Some e.2 /\ is_Some (m_allDSPoWs d !! e.1)) (ordered_entries (dh_winners (pb_header (an_block a))));
  ad_sorted : SortPoWSoln c d (m_allPoWs d) true = Ret S;
  ad_nodes : Forall2 (fun (x : Z * Peer * Z) h => exists r, (r, x.1.1) ∈ S ++ injected (outgoing c n) /\ h = sort_hash c r) (concat (an_shards a)) hs;
  ad_order : StronglySorted Z.le hs;
  ad_positive : Forall (fun h => 0 <= h) hs;
  ad_unique : NoDup (members (concat (an_shards a)));
  ad_addresses : Forall (fun x : Z * Peer * Z => ref !! x.1.1 = Some x.1.2) (concat (an_shards a))
}.

Context (Hdigest : forall x, bytes_ok (SHA256 x)).

Lemma sort_hash_nonneg c r : 0 <= sort_hash c r.
Proof. unfold sort_hash. by apply be_combine_bound. Qed.

(** The nodes of the shards with their hashes, a prefix of the ordered entries. *)
Lemma sharded_nodes c d L counts :
  Forall (fun k => 0 <= k) counts ->
  let entries := ordered_entries (by_sort_hash c L) in
  let m := Z.to_nat (sumZ counts) in
  concat (chop counts (node_of d <$> entries.*2)) = node_of d <$> (take m entries).*2 /\
  Forall2 (fun (x : Z * Peer * Z) h => exists r, (r, x.1.1) ∈ L /\ h = sort_hash c r) (node_of d <$> (take m entries).*2) (take m entries).*1 /\
  StronglySorted Z.le (take m entries).*1 /\ Forall (fun h => 0 <= h) (take m entries).*1.
Proof.
  intros Hc entries m. split; [rewrite chop_concat by done; by rewrite !fmap_take|].
  assert (forall e, e ∈ take m entries -> exists r, (r, e.2) ∈ L /\ e.1 = sort_hash c r) as Hin.
  { intros [h k] He. eapply sublist_subseteq in He; [|apply sublist_take]. by apply elem_of_ordered, by_sort_hash_from in He. }
  assert (StronglySorted entry_le (take m entries)) as Hs.
  { pose proof (ordered_sorted (by_sort_hash c L)) as Hs. fold entries in Hs. rewrite <- (take_drop m entries) in Hs.
    clear Hin. revert Hs. generalize (drop m entries). induction (take m entries) as [|e l IH]; intros k Hs; [constructor|].
    inversion Hs as [|? ? Hs' Hall]; subst. constructor; [by eapply IH|]. by apply Forall_app in Hall as [Hall _]. }
  split; [|split].
  - clear Hs. induction (take m entries) as [|e l IH]; cbn; [constructor|]. constructor; [apply Hin; by left|].
    apply IH. intros e' He'. apply Hin. by right.
  - induction Hs as [|e l Hs IH Hall]; cbn; [constructor|]. constructor.
    + apply IH. intros e' He'. apply Hin. by right.
    + apply Forall_fmap. eapply Forall_impl; [done|]. done.
  - apply Forall_fmap, Forall_forall. intros e He. destruct (Hin _ He) as (r & _ & Er). cbn. rewrite Er. apply sort_hash_nonneg.
Qed.

(** The election leaves the tables as they are. *)
Lemma election_step c d shardSize S :
  proposing c d shardSize ->
  let SDS := ordered_entries (PoWOrderSorter (m_allDSPoWs d)) in
  exists p, ComputeDSBlockParameters c d SDS S = (p, d) /\ bp_sorted p `sublist_of` S /\
    bp_elected p = Z.of_nat (size (bp_winners p)) /\ bp_prevHash p = pr_lastLinkHash c /\
    bp_blockNum p = u64 (pc_lastDSBlockNum (pr_pow c) + 1) /\
    (bp_blockNum p > 1 -> bp_dsDifficulty p = CalculateNewDSDifficulty c d (pc_lastDSDifficulty (pr_pow c)) /\
       bp_difficulty p = CalculateNewDifficulty c d (pc_lastDifficulty (pr_pow c))) /\
    (forall k q, bp_winners p !! k = Some q -> m_allPoWConns d !! k = Some q /\ is_Some (m_allDSPoWs d !! k)) /\
    (forall k, k ∈ SDS.*2 -> is_Some (m_allPoWConns d !! k)).
Proof.
  intros Hp SDS. destruct (SortPoWSoln_from c d (m_allDSPoWs d) false SDS eq_refl) as [HDS HDSnd].
  unfold ComputeDSBlockParameters. rewrite (sc_lookup _ _ _ (pg_config _ _ _ Hp)).
  set (n := u32 (Z.min (zlen SDS) (pr_NUM_DS_ELECTION c))). pose proof (pg_election _ _ _ Hp) as Hne. pose proof (zlen_nonneg SDS).
  assert (n = Z.min (zlen SDS) (pr_NUM_DS_ELECTION c)) as En by (unfold n; rewrite wrap_small; [done|unfold in_range; lia]).
  assert (forall k, k ∈ SDS.*2 -> is_Some (m_allPoWConns d !! k) /\ is_Some (m_allDSPoWs d !! k)) as HSDS.
  { intros k Hk. pose proof (from_map_keys _ _ _ HDS Hk). split; [|done]. by apply (pg_conns _ _ _ Hp), (pg_ds _ _ _ Hp). }
  destruct (elect (take (Z.to_nat n) SDS) d ∅ ∅ S) as [[[d0 W] P] sorted] eqn:Eel.
  apply elect_spec in Eel as (-> & Hsub & HW & HWin); [| |eapply sublist_NoDup; [exact HDSnd|apply (fmap_sublist snd), sublist_take]|done].
  2:{ apply Forall_forall. intros e He. apply HSDS. eapply (list_elem_of_fmap_2 snd), sublist_subseteq; [apply sublist_take|done]. }
  rewrite length_take, map_size_empty in HW. assert (n = Z.of_nat (size W)) as HWn by (unfold zlen in *; lia).
  pose proof (pg_blocks _ _ _ Hp) as Hbl. destruct (Z.gtb_spec (pr_dsBlockCount c) 0); [|lia].
  destruct (if u64 (pc_lastDSBlockNum (pr_pow c) + 1) >? 1 then _ else _) as [dsDiff diff] eqn:Ediff.
  eexists. split; [done|]. cbn. split_and!; try done.
  - intros Hgt. destruct (Z.gtb_spec (u64 (pc_lastDSBlockNum (pr_pow c) + 1)) 1) in Ediff; [|lia]. by injection Ediff as <- <-.
  - intros k q He. destruct (HWin _ _ He) as [Hx|[Hk Hx]]; [done|]. split; [done|]. apply HSDS.
    eapply sublist_subseteq; [apply (fmap_sublist snd), sublist_take|done].
  - intros k Hk. by apply HSDS.
Qed.

(** The shares of the nodes after the injection. *)
Lemma sharding_step c d shardSize S sorted n :
  proposing c d shardSize -> SortPoWSoln c d (m_allPoWs d) true = Ret S -> sorted `sublist_of` S ->
  let '(L, d1) := InjectPoWForDSNode pubkey_of c d sorted n in
  exists d3 hs, ComputeSharding c (ClearReputationOfNodeWithoutPoW d1) L = Ret d3 /\
    m_allDSPoWs d3 = m_allDSPoWs d /\ m_allPoWConns d ⊆ m_allPoWConns d3 /\
    Forall2 (fun (x : Z * Peer * Z) h => exists r, (r, x.1.1) ∈ S ++ injected (outgoing c n) /\ h = sort_hash c r) (concat (m_shards d3)) hs /\
    StronglySorted Z.le hs /\ Forall (fun h => 0 <= h) hs /\ NoDup (members (concat (m_shards d3))) /\
    Forall (fun x : Z * Peer * Z => m_allPoWConns d3 !! x.1.1 = Some x.1.2) (concat (m_shards d3)).
Proof.
  intros Hp HS Hsub. pose proof (pg_config _ _ _ Hp) as Hcfg. destruct (SortPoWSoln_from _ _ _ _ _ HS) as [HSf HSnd].
  destruct (final_list_ok c d S sorted n shardSize Hp HSf HSnd Hsub) as (HLnd & HSInd & HLlen & HLsub & Hdis).
  pose proof (InjectPoWForDSNode_spec c d sorted n (pg_committee _ _ _ Hp)) as Hinj.
  destruct (InjectPoWForDSNode pubkey_of c d sorted n) as [L d1]. destruct Hinj as (-> & Hd1p & Hd1d & Hd1r & Hd1c & Hd1m).
  { intros k Hk Hin. apply (Hdis k Hk). eapply sublist_subseteq; [by apply (fmap_sublist snd)|done]. }
  set (L := sorted ++ injected (outgoing c n)) in *. set (d2 := ClearReputationOfNodeWithoutPoW d1).
  assert (sharding_config c d2 shardSize) as Hcfg2.
  { destruct Hcfg. split; try done. unfold GetShardSize in *. unfold d2. cbn. by rewrite Hd1p. }
  assert (Forall (fun s => is_Some (m_allPoWConns d2 !! s.2)) L) as HLc.
  { apply Forall_forall. intros [r k] [He|He]%elem_of_app; cbn.
    - destruct (pg_conns _ _ _ Hp k) as [x Hx]; [|exists x; by eapply lookup_weaken].
      eapply from_map_keys; [exact HSf|]. eapply (list_elem_of_fmap_2 snd _ (r, k)), sublist_subseteq; done.
    - apply list_elem_of_fmap in He as (k' & [= -> ->] & He). apply list_elem_of_fmap in He as ([k'' q] & -> & He).
      apply (Hd1m (k'', q) He). intros Hq. apply (pg_self _ _ _ Hp (k'', q)); [by apply outgoing_sub in He|done]. }
  destruct (ComputeSharding_spec c d2 L shardSize Hcfg2 HLlen HLc HLnd) as (d3 & counts & Hcs & Hg & Hok & Hs3 & _ & Hst).
  assert (0 <= sharding_size c L < 2 ^ 32) as Hn.
  { pose proof (sc_max _ _ _ Hcfg). pose proof (zlen_nonneg L). unfold sharding_size. lia. }
  destruct (counts_in_range _ _ _ _ _ Hcfg2 Hok Hn) as [Hpos _].
  assert (Forall (fun k => 0 <= k) counts) as Hpos' by (eapply Forall_impl; [done|]; cbn; lia).
  destruct (sharded_nodes c d2 L counts Hpos') as (Hcat & Hf2 & Hsort & Hnn).
  exists d3, (take (Z.to_nat (sumZ counts)) (ordered_entries (by_sort_hash c L))).*1. rewrite Hs3, Hcat, (st_conns _ _ Hst), (st_ds _ _ Hst).
  split_and!; try done.
  - eapply Forall2_impl; [exact Hf2|]. cbn. intros x h (r & Hr & ->). exists r. split; [by apply HLsub|done].
  - rewrite members_nodes. eapply sublist_NoDup; [apply by_sort_hash_keys; exact HLnd|apply (fmap_sublist snd), sublist_take].
  - apply Forall_fmap, Forall_forall. intros k Hk. cbn. change (m_allPoWConns d2) with (m_allPoWConns d1) in *.
    assert (is_Some (m_allPoWConns d1 !! k)) as [x ->]; [|done].
    apply list_elem_of_fmap in Hk as ([h k'] & -> & Hk). eapply sublist_subseteq in Hk; [|apply sublist_take].
    apply elem_of_ordered, by_sort_hash_from in Hk as (r & Hr & _). rewrite Forall_forall in HLc. by apply (HLc _ Hr).
Qed.

Lemma leader_proposes c d shardSize now :
  proposing c d shardSize -> (forall shards, is_Some (sharding_hash shards)) -> is_Some (committee_hash (pc_DSCommittee (pr_pow c))) ->
  exists a d' S n hs, RunConsensusOnDSBlockWhenDSPrimary pubkey_of sort_priority c d true now = Ret (Some a, d') /\
    announced c d a (m_allPoWConns d') S n hs now.
Proof.
  intros Hp Hsh [ch Hch]. pose proof (pg_config _ _ _ Hp) as Hcfg. unfold RunConsensusOnDSBlockWhenDSPrimary, top_solutions.
  rewrite (sc_lookup _ _ _ Hcfg). destruct (Z.gtb_spec (Z.of_nat (size (m_allPoWs d))) (pr_MAX_SHARD_NODE_NUM c)) as [Hgt|_];
    [pose proof (pg_few _ _ _ Hp); lia|]. cbn [mbind outcome_bind].
  change (SortPoWSoln c d (m_allDSPoWs d) false) with (Ret (ordered_entries (PoWOrderSorter (m_allDSPoWs d)))). cbn [mbind outcome_bind].
  destruct (SortPoWSoln_returns c d (m_allPoWs d) _ Hcfg) as [S HS]. rewrite HS. cbn [mbind outcome_bind].
  destruct (election_step c d shardSize S Hp) as (p & -> & Hsub & Hel & Hprev & Hnum & Hdiff & Hwin & Hall).
  pose proof (sharding_step c d shardSize S (bp_sorted p) (bp_elected p) Hp HS Hsub) as Hstep.
  destruct (InjectPoWForDSNode pubkey_of c d (bp_sorted p) (bp_elected p)) as [L d1].
  destruct Hstep as (d3 & hs & -> & Hd3 & Hc3 & Hf2 & Hsort & Hnn & Hnd & Haddr). cbn [mbind outcome_bind].
  rewrite emplace_all_present.
  2:{ intros k Hk. destruct (Hall k Hk) as [x Hx]. exists x. by eapply lookup_weaken. }
  rewrite set_conns_same. destruct (Hsh (m_shards d3)) as [sh Esh]. rewrite Esh, Hch. cbn [negb].
  assert (gas_of c d3 = gas_of c d) as -> by (unfold gas_of; by rewrite Hd3).
  destruct (GetNewGasPrice_range (gas_of c d) (pg_gas _ _ _ Hp) (pg_chain _ _ _ Hp)) as (gp & Hgp & _). rewrite Hgp. cbn [mbind outcome_bind].
  eexists _, d3, S, (bp_elected p), hs. split; [done|]. split; try done.
  apply Forall_forall. intros [k q] He. apply elem_of_ordered, Hwin in He as [Hk Hds]. split; [by eapply lookup_weaken|done].
Qed.

(** ** A backup of the same committee *)

(** The same configuration and chains, with the backup's own listing of the committee
    (its own address is the empty one there). *)
Definition pow_seen_by (x : PoWContext) (committee : list (Z * Peer)) : PoWContext :=
  mkPoWContext (pc_lookup x) (pc_mode x) (pc_myID x) (pc_POW_PACKET_SENDERS x) (pc_POW_SUBMISSION_LIMIT x) (pc_DS_POW_DIFFICULTY x)
    (pc_POW_DIFFICULTY x) (pc_lastDSBlockNum x) (pc_lastDSDifficulty x) (pc_lastDifficulty x) (pc_dsBlockRand x) (pc_txBlockRand x)
    committee (pc_GUARD_MODE x) (pc_isShardGuard x) (pc_EXCLUDE_PRIV_IP x) (pc_IPExclusionRange x).

Definition seen_by c (committee : list (Z * Peer)) (selfKey : Z) (selfPeer : Peer) : ProposalContext :=
  mkProposalContext (pow_seen_by (pr_pow c) committee) (pr_gas c) (pr_POW_BOUNDARY_N_DIVIDED c) (pr_POW_BOUNDARY_N_DIVIDED_START c)
    (pr_NUM_DS_ELECTION c) (pr_EXPECTED_SHARD_NODE_NUM c) (pr_POW_CHANGE_TO_ADJ_DIFF c) (pr_POW_CHANGE_TO_ADJ_DS_DIFF c)
    (pr_MAX_SHARD_NODE_NUM c) (pr_COMM_SIZE c) (pr_SHARD_SIZE_TOLERANCE_LO c) (pr_SHARD_SIZE_TOLERANCE_HI c) (pr_DIFFICULTY_DIFF_TOL c)
    (pr_MISORDER_TOLERANCE_IN_PERCENT c) (pr_DIFF_IP_TOLERANCE_IN_PERCENT c) (pr_PRIORITY_TOLERANCE_IN_PERCENT c) (pr_SHARD_GUARD_TOL c)
    (pr_DSBLOCK_VERSION c) (pr_variance c) (pr_timeout c) (pr_currentEpochNum c) (pr_dsBlockCount c) (pr_lastLinkHash c)
    (pr_lastTxBlockHash c) selfKey selfPeer (pr_swInfo c).

Lemma outgoing_keys c committee k q n :
  committee.*1 = (pc_DSCommittee (pr_pow c)).*1 -> (outgoing (seen_by c committee k q) n).*1 = (outgoing c n).*1.
Proof.
  intros He. unfold outgoing. cbn [seen_by pr_pow pow_seen_by pc_DSCommittee].
  assert (zlen committee = zlen (pc_DSCommittee (pr_pow c))) as -> by (unfold zlen; by rewrite <- (length_fmap fst), He, length_fmap).
  destruct (_ >? _); [done|]. rewrite !fmap_take. f_equal. change (fmap fst) with (map (fst (A := Z) (B := Peer))) in *. by rewrite !map_rev, He.
Qed.

Lemma max_misorder_nonneg c n : 0 <= max_misorder c n.
Proof. unfold max_misorder, ceil_u32. repeat case_match; try lia; apply wrap_range; lia. Qed.

(** The order check passes and changes only the addresses. *)
Lemma ordering_accepted c committee k q d b a ref S n hs now shardSize from :
  proposing c d shardSize -> announced c d a ref S n hs now -> same_solutions d b -> committee.*1 = (pc_DSCommittee (pr_pow c)).*1 ->
  exists b', VerifyPoWOrdering pubkey_of (seen_by c committee k q) b (pb_header (an_block a)) (an_shards a) from (m_allPoWs b) = Ret (true, b') /\
    same_solutions b b'.
Proof.
  intros Hp Ha [Hpows Hds] Hkeys. set (c' := seen_by c committee k q). unfold VerifyPoWOrdering.
  assert (SortPoWSoln c' b (m_allPoWs b) true = Ret S) as ->.
  { rewrite Hpows, <- (ad_sorted _ _ _ _ _ _ _ _ Ha). unfold SortPoWSoln, GetShardSize, c'. cbn. by rewrite Hpows. }
  cbn [mbind outcome_bind]. destruct (SortPoWSoln_from _ _ _ _ _ (ad_sorted _ _ _ _ _ _ _ _ Ha)) as [HSf HSnd].
  destruct (final_list_ok c d S S n shardSize Hp HSf HSnd (reflexivity _)) as (_ & HSInd & _ & _ & Hdis).
  rewrite (ad_elected _ _ _ _ _ _ _ _ Ha).
  pose proof (InjectPoWForDSNode_spec c' b S n) as Hinj. cbn [c' seen_by pr_pow pow_seen_by pc_DSCommittee] in Hinj. rewrite Hkeys in Hinj.
  fold c' in Hinj. specialize (Hinj (pg_committee _ _ _ Hp) Hdis).
  destruct (InjectPoWForDSNode pubkey_of c' b S n) as [L b1]. destruct Hinj as (-> & Hb1p & Hb1d & _ & _ & _).
  assert (injected (outgoing c' n) = injected (outgoing c n)) as -> by (unfold injected, c'; by rewrite outgoing_keys).
  destruct (order_nodes_sorted c' b1 (dh_blockNum (pb_header (an_block a))) (S ++ injected (outgoing c n)) from (concat (an_shards a)) hs (mkOrderState ∅ 0 0 0))
    as (s' & -> & Hm); [exact (ad_nodes _ _ _ _ _ _ _ _ Ha)|done|exact (ad_unique _ _ _ _ _ _ _ _ Ha)|set_solver|
       exact (ad_order _ _ _ _ _ _ _ _ Ha)|exact (ad_positive _ _ _ _ _ _ _ _ Ha)|].
  cbn [mbind outcome_bind]. exists b1. rewrite Hm. cbn [os_misorderNodes].
  pose proof (max_misorder_nonneg c' (Z.of_nat (size (m_allPoWs b)))).
  destruct (Z.gtb_spec 0 (max_misorder c' (Z.of_nat (size (m_allPoWs b))))); [lia|]. by split.
Qed.

Lemma same_difficulties c committee k q d b :
  same_solutions d b -> forall x,
  CalculateNewDSDifficulty (seen_by c committee k q) b x = CalculateNewDSDifficulty c d x /\
  CalculateNewDifficulty (seen_by c committee k q) b x = CalculateNewDifficulty c d x.
Proof.
  intros [Hp Hd] x. unfold CalculateNewDSDifficulty, CalculateNewDifficulty, GetNumberOfDSPoWSolns. by rewrite Hp, Hd.
Qed.

Lemma difficulties_accepted c committee k q d b a ref S n hs now :
  announced c d a ref S n hs now -> same_solutions d b -> 0 <= pr_DIFFICULTY_DIFF_TOL c ->
  (dh_blockNum (pb_header (an_block a)) >? 1) && negb (VerifyDifficulty (seen_by c committee k q) b (pb_header (an_block a))) = false.
Proof.
  intros Ha Hsol Hdt. destruct (Z.gtb_spec (dh_blockNum (pb_header (an_block a))) 1) as [Hgt1|]; [|done].
  destruct (ad_difficulties _ _ _ _ _ _ _ _ Ha ltac:(lia)) as [Hd1 Hd2]. unfold VerifyDifficulty.
  destruct (same_difficulties c committee k q d b Hsol (pc_lastDSDifficulty (pr_pow c))) as [E1 _].
  destruct (same_difficulties c committee k q d b Hsol (pc_lastDifficulty (pr_pow c))) as [_ E2].
  change (pc_lastDSDifficulty (pr_pow (seen_by c committee k q))) with (pc_lastDSDifficulty (pr_pow c)).
  change (pc_lastDifficulty (pr_pow (seen_by c committee k q))) with (pc_lastDifficulty (pr_pow c)).
  change (pr_DIFFICULTY_DIFF_TOL (seen_by c committee k q)) with (pr_DIFFICULTY_DIFF_TOL c).
  rewrite E1, E2, Hd1, Hd2, !Z.max_id, !Z.min_id, !Z.sub_diag.
  destruct (Z.gtb_spec 0 (pr_DIFFICULTY_DIFF_TOL c)); [lia|done].
Qed.

(** What a backup has to share with the leader. *)
Record same_view c committee d b ref : Prop := {
  sv_solutions : same_solutions d b;
  sv_committee : committee.*1 = (pc_DSCommittee (pr_pow c)).*1;
  sv_hash : committee_hash committee = committee_hash (pc_DSCommittee (pr_pow c));
  sv_addresses : agrees (m_allPoWConns b) ref
}.

(** C21: When the solutions are not more than the network takes, an honest leader
    proposes a directory block, and every backup that has collected the same solutions,
    lists the same committee and knows no other addresses than the leader accepts it when it
    arrives in time: election, injection of old members, shards, order, difficulties
    and gas price all pass. *)
Theorem honest_dsblock_accepted c d shardSize now :
  proposing c d shardSize -> (forall shards, is_Some (sharding_hash shards)) -> is_Some (committee_hash (pc_DSCommittee (pr_pow c))) ->
  0 <= pr_DIFFICULTY_DIFF_TOL c -> 0 <= GAS_PRICE_TOLERANCE (pr_gas c) <= PRECISION_MIN_VALUE (pr_gas c) ->
  PRECISION_MIN_VALUE (pr_gas c) + GAS_PRICE_TOLERANCE (pr_gas c) < 2 ^ 128 ->
  exists a d', RunConsensusOnDSBlockWhenDSPrimary pubkey_of sort_priority c d true now = Ret (Some a, d') /\
    forall bk committee k q clock, same_view c committee d (bk_node bk) (m_allPoWConns d') ->
      VerifyTimestamp (pr_variance c) (pr_timeout c) now (pr_timeout c) clock = true ->
      exists bk', DSBlockValidator pubkey_of sort_priority (seen_by c committee k q) bk (Some a) clock = Ret (true, bk') /\
        m_pendingDSBlock bk' = Some (an_block a) /\ m_tempShards bk' = an_shards a.
Proof.
  intros Hp Hsh Hch Hdt Hgt Hgp. destruct (leader_proposes c d shardSize now Hp Hsh Hch) as (a & d' & S & n & hs & Hrun & Ha).
  exists a, d'. split; [done|]. intros bk committee k q clock [Hsol Hkeys Hhc Hag] Htime. set (c' := seen_by c committee k q).
  pose proof Ha as [Hh Ht Hv Hb He Hs Hc Hpr Hg Hd Hel Hw _ _ _ _ _ Hadr]. unfold DSBlockValidator.
  assert (pc_lookup (pr_pow c') = false) as Hl' by (apply (sc_lookup _ _ _ (pg_config _ _ _ Hp))). rewrite Hl'.
  cbn [c' seen_by pr_pow pow_seen_by pr_DSBLOCK_VERSION pc_lastDSBlockNum pr_currentEpochNum pr_variance pr_timeout pc_DSCommittee pr_lastLinkHash bk_node].
  fold (pow_seen_by (pr_pow c) committee). fold (seen_by c committee k q). fold c'.
  rewrite Hv, Z.eqb_refl, Ht, Htime, Hhc, Hb, He, Hpr, Hh. cbn [negb]. unfold CheckWhetherBlockIsLatest.
  rewrite Z.ltb_irrefl, Z.gtb_ltb, Z.ltb_irrefl, Z.ltb_irrefl, Z.gtb_ltb, Z.ltb_irrefl. cbn [negb].
  rewrite !bool_decide_eq_true_2 by done. cbn [negb].
  destruct Hsol as [Hsp Hsd]. unfold VerifyPoWWinner.
  destruct (verify_winners_known (m_allPoWConns d') (ordered_entries (dh_winners (pb_header (an_block a)))) c' (bk_node bk)
              (dh_blockNum (pb_header (an_block a))) (an_winnerPoWs a)) as (b1 & -> & [Hs1p Hs1d] & Ha1); [by rewrite Hsd|done|].
  cbn [mbind outcome_bind negb].
  destruct (process_agree (m_allPoWConns d') c' b1 (an_shards a) Hl' Hadr Ha1) as (ids & rep & conns & ->). cbn [negb].
  set (b2 := ClearReputationOfNodeWithoutPoW (set_conns b1 conns)).
  assert (same_solutions d b2) as Hsol2 by (split; cbn; congruence).
  unfold VerifyNodePriority. destruct (Z.leb_spec (Z.of_nat (size (m_allPoWs b2))) (pr_MAX_SHARD_NODE_NUM c')) as [_|Hgt'].
  2:{ destruct Hsol2 as [Hx _]. rewrite Hx in Hgt'. pose proof (pg_few _ _ _ Hp). cbn in Hgt'. lia. }
  cbn [mbind outcome_bind negb].
  destruct (ordering_accepted c committee k q d b2 a (m_allPoWConns d') S n hs now shardSize (an_allPoWs a) Hp Ha Hsol2 Hkeys) as (b3 & Hord & Hsol3).
  fold c' in Hord. rewrite Hord. cbn [mbind outcome_bind negb].
  assert (same_solutions d b3) as Hsol4 by (destruct Hsol2, Hsol3; split; congruence).
  rewrite <- Hb. subst c'. rewrite (difficulties_accepted _ committee k q _ _ _ _ _ _ _ _ Ha Hsol4 Hdt). set (c' := seen_by c committee k q).
  assert (gas_of c' b3 = gas_of c d) as -> by (unfold gas_of; destruct Hsol4 as [_ E]; by rewrite E).
  pose proof (pg_gas _ _ _ Hp) as Hgok. destruct (GetNewGasPrice_range (gas_of c d) Hgok (pg_chain _ _ _ Hp)) as (gp & Hgp' & Hr).
  rewrite Hg in Hgp'. injection Hgp' as Hgp'. rewrite (own_price_accepted (gas_of c d) Hgok _ Hg) by
    (cbn; first [done | rewrite Hgp'; pose proof (go_floor _ Hgok); lia]).
  cbn [mbind outcome_bind]. eexists. split; [done|]. done.
Qed.

End acceptance.
