(* ===== verification/ProposalSoundness.v ===== *)
(** * What an accepted directory block guarantees

    The converse of [ProposalAcceptance.v]: whatever leader sent the announcement, a block
    that [DSBlockValidator] accepts continues the chain of the backup, lists no node
    twice, and every node in it has a solution that the backup collected or verified, or
    is a member that leaves the committee. *)

From stdpp Require Import base numbers gmap countable list sorting.
From Stdlib Require Import SpecFloat.
From S2P Require Import Prelude Serializable Peer OpenSSL Schnorr PoW PoWProperties TxnPool AccountStore ConsensusCommon BlockChain Blocks Committee TxnOrder MicroBlock PoWSubmission Sharding ShardingProperties DSBlockProposal ProposalProperties ProposalAcceptance.
Open Scope Z_scope.

Section soundness.
Context `{Hssl : OpenSSL} `{Heth : Ethash} `{Hagain : Sha2Again} `{Hhash : ProposalHashes}.
Context `{Hmath : SafeMath} `{Hmathint : SafeMathInt} (pubkey_of : Z -> PubKey) (sort_priority : list (Z * Z) -> list (Z * Z)).
Implicit Types (c : ProposalContext) (d : DSNode).

(** ** Solutions learned from an announcement *)

(** The solution of [k] passed [PoWVerify] at [difficulty], for some address. *)
Definition checked_at c (blk difficulty k : Z) (s : PoWSolution) : Prop :=
  exists peer headerHash p p', header_of pubkey_of c peer k s = Ret headerHash /\
    verify_pow c p blk difficulty headerHash (ps_nonce s) (Uint8VecToHexStr (be_split 32 (ps_result s)))
      (Uint8VecToHexStr (be_split 32 (ps_mixhash s))) = Ret (true, p').

Definition checked_ds c (blk k : Z) (s : PoWSolution) : Prop := checked_at c blk (pc_lastDSDifficulty (pr_pow c)) k s.

Definition checked c (blk k : Z) (s : PoWSolution) : Prop :=
  checked_ds c blk k s \/ checked_at c blk (pc_lastDifficulty (pr_pow c)) k s \/
  (pc_GUARD_MODE (pr_pow c) = true /\ pc_isShardGuard (pr_pow c) k = true /\
   exists difficulty, expectedShardGuardDiff (pr_pow c) = Ret difficulty /\ checked_at c blk difficulty k s).

(** From [d] to [d'] only checked solutions were added. *)
Record learned c (blk : Z) d d' : Prop := {
  ln_keeps k : is_Some (m_allPoWs d !! k) -> is_Some (m_allPoWs d' !! k);
  ln_keeps_ds k : is_Some (m_allDSPoWs d !! k) -> is_Some (m_allDSPoWs d' !! k);
  ln_new k s : m_allPoWs d' !! k = Some s -> m_allPoWs d !! k = Some s \/ checked c blk k s;
  ln_new_ds k s : m_allDSPoWs d' !! k = Some s -> m_allDSPoWs d !! k = Some s \/ checked_ds c blk k s
}.

#[local] Instance learned_preorder c blk : PreOrder (learned c blk).
Proof.
  split; [by split; auto|]. intros d1 d2 d3 [K1 D1 N1 M1] [K2 D2 N2 M2]. split; [by auto|by auto| |].
  - intros k s [H|H]%N2; [by apply N1|by right].
  - intros k s [H|H]%M2; [by apply M1|by right].
Qed.

Lemma learned_same c blk d d' : same_solutions d d' -> learned c blk d d'.
Proof. intros [Hp Hd]. split; rewrite ?Hp, ?Hd; auto. Qed.

Lemma learned_pow c blk d k s : checked c blk k s -> learned c blk d (set_pows d (<[k := s]> (m_allPoWs d))).
Proof.
  intros Hc. split; cbn; auto.
  - intros k'. rewrite lookup_insert_is_Some'. auto.
  - intros k' s' [[<- <-]|[_ H]]%lookup_insert_Some; auto.
Qed.

Lemma learned_ds c blk d k s : checked_ds c blk k s -> learned c blk d (AddDSPoWs d k s).
Proof.
  intros Hc. split; cbn; auto.
  - intros k'. rewrite lookup_insert_is_Some'. auto.
  - intros k' s' [[<- <-]|[_ H]]%lookup_insert_Some; auto.
Qed.

Lemma verify_solution_inv c d blk difficulty h s ok d' :
  verify_solution c d blk difficulty h s = Ret (ok, d') ->
  same_solutions d d' /\ (ok = true -> forall peer k, header_of pubkey_of c peer k s = Ret h -> checked_at c blk difficulty k s).
Proof.
  unfold verify_solution. intros E. apply bind_Ret in E as ([ok' p'] & Hv & E). injection E as <- <-.
  split; [done|]. intros -> peer k Hk. by exists peer, h, (dn_pow d), p'.
Qed.

Lemma verify_winners_sound c blk ws : forall d from d',
  verify_winners pubkey_of c d blk ws from = Ret (true, d') ->
  learned c blk d d' /\ Forall (fun w : Z * Peer => is_Some (m_allDSPoWs d' !! w.1)) ws.
Proof.
  induction ws as [|[k p] ws IH]; intros d from d'; cbn [verify_winners]; [by intros [= <-]|].
  destruct (negb _); [done|]. set (d0 := set_conns d _). change (m_allDSPoWs d0) with (m_allDSPoWs d).
  assert (learned c blk d d0) as H0 by (by apply learned_same).
  destruct (m_allDSPoWs d !! k) as [s|] eqn:Es.
  - intros [Hl Hw]%IH. split; [by etrans|]. apply Forall_cons. split; [|done]. apply (ln_keeps_ds _ _ _ _ Hl). cbn. by rewrite Es.
  - destruct (from !! k) as [s|]; [|done]. intros E. apply bind_Ret in E as (h & Hh & E). apply bind_Ret in E as ([ok d1] & Hv & E).
    apply verify_solution_inv in Hv as [Hs1 Hok]. destruct ok; [|done]. cbn [negb] in E. specialize (Hok eq_refl _ _ Hh).
    apply IH in E as [Hl Hw]. split.
    + rewrite H0, (learned_same c blk _ _ Hs1), (learned_pow c blk d1 k s) by (by left). by rewrite (learned_ds c blk _ k s).
    + apply Forall_cons. split; [|done]. apply (ln_keeps_ds _ _ _ _ Hl). cbn. rewrite lookup_insert_eq. eauto.
Qed.

Lemma from_leader_sound c d blk peer k s ok d' :
  VerifyPoWFromLeader pubkey_of c d blk peer k s = Ret (ok, d') ->
  learned c blk d d' /\ (ok = true -> is_Some (m_allPoWs d' !! k)).
Proof.
  unfold VerifyPoWFromLeader. intros E. apply bind_Ret in E as (h & Hh & E). apply bind_Ret in E as (df & Hdf & E).
  apply bind_Ret in E as ([ok1 d1] & Hv & E). apply verify_solution_inv in Hv as [Hs1 Hok].
  destruct ok1; cbn [negb] in E; [|injection E as <- <-; split; [by apply learned_same|done]].
  specialize (Hok eq_refl _ _ Hh). apply bind_Ret in E as ([ok2 d2] & Hv2 & E). injection E as <- <-.
  apply verify_solution_inv in Hv2 as [Hs2 Hok2].
  assert (checked c blk k s) as Hc.
  { destruct (pc_GUARD_MODE (pr_pow c)) eqn:G; cbn [andb] in Hdf; [destruct (pc_isShardGuard (pr_pow c) k) eqn:Sg|].
    - right. right. eauto.
    - injection Hdf as <-. right. by left.
    - injection Hdf as <-. right. by left. }
  assert (learned c blk d d2) as Hl.
  { rewrite (learned_same c blk _ _ Hs1), (learned_pow c blk d1 k s Hc). apply learned_same. by destruct Hs2. }
  assert (is_Some (m_allPoWs d2 !! k)) as Hk by (destruct Hs2 as [-> _]; cbn; rewrite lookup_insert_eq; eauto).
  destruct ok2; [|done]. split; [|done]. rewrite Hl. apply learned_ds, (Hok2 eq_refl _ _ Hh).
Qed.

Lemma find_result_sound c d blk S from n r d' :
  find_result pubkey_of c d blk S from n = Ret (r, d') ->
  learned c blk d d' /\ (is_Some r -> n.1.1 ∈ S.*2 \/ is_Some (m_allPoWs d' !! n.1.1)).
Proof.
  destruct n as [[k p] rep]. unfold find_result. cbn [fst].
  destruct (filter (fun s0 : Z * Z => s0.2 = k) S) as [|[r' k'] l] eqn:E.
  - destruct (m_allPoWs d !! k) as [s|] eqn:Es; [intros [= <- <-]; split; [done|]; eauto|].
    destruct (from !! k) as [s|]; [|intros [= <- <-]; split; [done|]; by intros []].
    intros H. apply bind_Ret in H as ([ok d1] & Hv & H). injection H as <- <-. apply from_leader_sound in Hv as [Hl Hok].
    split; [done|]. destruct ok; [auto|]. by intros [].
  - intros [= <- <-]. split; [done|]. left. assert ((r', k') ∈ filter (fun s0 : Z * Z => s0.2 = k) S) as Hin by (rewrite E; by left).
    apply list_elem_of_filter in Hin as [Heq Hin]. cbn in Heq. subst k'. by apply (list_elem_of_fmap_2 snd) in Hin.
Qed.

Lemma order_nodes_sound c blk S from nodes : forall d s s' d',
  order_nodes pubkey_of c d blk S from nodes s = Ret (Some s', d') ->
  learned c blk d d' /\ NoDup (members nodes) /\ (forall k, k ∈ members nodes -> k ∉ os_keyset s) /\
  Forall (fun k => k ∈ S.*2 \/ is_Some (m_allPoWs d' !! k)) (members nodes).
Proof.
  induction nodes as [|n nodes IH]; intros d s s' d'; cbn [order_nodes].
  - intros [= <- <-]. split; [done|]. split; [constructor|]. split; [|constructor]. intros k H. by apply elem_of_nil in H.
  - intros E. apply bind_Ret in E as ([r d1] & Hf & E). apply find_result_sound in Hf as [Hl Hr]. destruct r as [r|]; [|done].
    destruct (bool_decide_reflect (n.1.1 ∈ os_keyset s)) as [|Hn]; [done|].
    apply IH in E as (Hl2 & Hnd & Hnew & Hall).
    assert (forall k, k ∈ members nodes -> k ∉ {[n.1.1]} ∪ os_keyset s) as Hnew'.
    { intros k Hk. specialize (Hnew k Hk). by destruct (_ <? _) in Hnew. }
    split; [by etrans|]. change (members (n :: nodes)) with (n.1.1 :: members nodes). split.
    { constructor; [|done]. intros H. apply Hnew' in H. set_solver. }
    split; [intros k [->|H]%elem_of_cons; [done|]; apply Hnew' in H; set_solver|].
    constructor; [|done]. destruct (Hr ltac:(eauto)) as [H|H]; [by left|right; by apply (ln_keeps _ _ _ _ Hl2)].
Qed.

(** ** Nodes that are in the ordered list *)

Lemma inject_sound oldest : forall c d S pending,
  let '(L, d') := inject pubkey_of oldest c d S pending in
  same_solutions d d' /\ forall k, k ∈ L.*2 -> k ∈ S.*2 \/ k ∈ oldest.*1.
Proof.
  induction oldest as [|[k p] oldest IH]; intros c d S pending; cbn [inject]; [split; [done|auto]|].
  destruct (existsb _ _).
  - specialize (IH c d S (pending ++ [(PubKey_Serialize (pubkey_of k) [] 0).2])). destruct (inject _ _ _ _ _ _) as [L d'].
    destruct IH as [Hs HL]. split; [done|]. intros k' [H|H]%HL; [auto|]. right. by right.
  - set (conns := if Peer_eqb _ _ then _ else _). set (e := (be_combine _, k)).
    specialize (IH c (set_conns d conns) (S ++ [e]) []). destruct (inject _ _ _ _ _ _) as [L d'].
    destruct IH as [Hs HL]. split; [done|]. intros k' [H|H]%HL; [|right; by right].
    rewrite fmap_app in H. apply elem_of_app in H as [H|H]; [auto|]. apply list_elem_of_singleton in H. right. cbn. subst. by left.
Qed.

Lemma InjectPoWForDSNode_sound c d S n :
  let '(L, d') := InjectPoWForDSNode pubkey_of c d S n in
  same_solutions d d' /\ forall k, k ∈ L.*2 -> k ∈ S.*2 \/ k ∈ (outgoing c n).*1.
Proof.
  unfold InjectPoWForDSNode, outgoing. destruct (_ >? _); [split; [done|auto]|]. apply inject_sound.
Qed.

Lemma node_priority_sound c d shards pows d' :
  VerifyNodePriority sort_priority c d shards = Ret (true, pows, d') -> same_solutions d d' /\ pows ⊆ m_allPoWs d'.
Proof.
  unfold VerifyNodePriority. destruct (_ <=? _); [by intros [= <- <-]|]. intros E.
  apply bind_Ret in E as ([[top low] d1] & Hf & E). unfold FindTopPriorityNodes in Hf.
  destruct (last _) as [member|]; [|done]. injection Hf as <- <- <-.
  destruct (count_outside _ _ _ _ _) as [m out]. destruct (out >? _); [done|]. injection E as <- <-. split; [done|].
  apply map_filter_subseteq.
Qed.

Lemma ordering_sound c d h shards from pows d' :
  VerifyPoWOrdering pubkey_of c d h shards from pows = Ret (true, d') -> pows ⊆ m_allPoWs d ->
  learned c (dh_blockNum h) d d' /\ NoDup (all_members shards) /\
  Forall (fun k => is_Some (m_allPoWs d' !! k) \/ k ∈ (outgoing c (Z.of_nat (size (dh_winners h)))).*1) (all_members shards).
Proof.
  unfold VerifyPoWOrdering. intros E Hsub. apply bind_Ret in E as (S & HS & E). apply SortPoWSoln_from in HS as [HS _].
  set (n := Z.of_nat (size (dh_winners h))) in *. pose proof (InjectPoWForDSNode_sound c d S n) as Hi.
  destruct (InjectPoWForDSNode pubkey_of c d S n) as [L d1]. destruct Hi as [Hs1 HL].
  apply bind_Ret in E as ([s d2] & Ho & E). destruct s as [s|]; [|done]. injection E as _ <-.
  apply order_nodes_sound in Ho as (Hl & Hnd & _ & Hall).
  assert (learned c (dh_blockNum h) d d2) as Hl' by (by rewrite (learned_same c _ d d1 Hs1)).
  rewrite all_members_concat. split; [done|]. split; [done|]. eapply Forall_impl; [exact Hall|]. cbn. intros k [[H|H]%HL|H]; [|by right|by left].
  left. apply (ln_keeps _ _ _ _ Hl'). apply (from_map_keys pows S k HS) in H as [x Hx]. exists x. by eapply lookup_weaken.
Qed.

Lemma structure_same c d shards ok ids rep d' :
  ProcessShardingStructure c d shards = (ok, ids, rep, d') -> same_solutions d d'.
Proof.
  unfold ProcessShardingStructure. destruct (pc_lookup _); [by intros [= <- <- <- <-]|].
  destruct (process_shards _ _ _ _) as [ok' s]. by intros [= <- <- <- <-].
Qed.

(** What an accepted block says of the chain the backup has. *)
Record continues c (a : DSAnnouncement) : Prop := {
  cn_version : dh_version (pb_header (an_block a)) = pr_DSBLOCK_VERSION c;
  cn_latest : CheckWhetherBlockIsLatest (pc_lastDSBlockNum (pr_pow c)) (pr_currentEpochNum c)
                (dh_blockNum (pb_header (an_block a))) (dh_epochNum (pb_header (an_block a))) = true;
  cn_hash : pb_hash (an_block a) = dsheader_hash (pb_header (an_block a));
  cn_sharding : sharding_hash (an_shards a) = Some (dh_shardingHash (pb_header (an_block a)));
  cn_committee : committee_hash (pc_DSCommittee (pr_pow c)) = Some (dh_committeeHash (pb_header (an_block a)));
  cn_prev : dh_prevHash (pb_header (an_block a)) = pr_lastLinkHash c
}.

(** C22: Whoever leads, a directory block that [DSBlockValidator] accepts continues the
    chain of the backup (version, number, epoch, committee and the hashes), names no
    node of its shards twice (but a winner may be in a shard as well:
    [winner_also_sharded] of [ProposalExamples.v]), and each node of its shards has a solution in the backup's table or is one of
    the members that leave the committee for the winners; every winner stands for election in the
    backup's table; and every solution the backup did not have before has
    passed [PoWVerify], for a winner at the directory difficulty. *)
Theorem accepted_dsblock_sound c bk a clock bk' :
  pc_lookup (pr_pow c) = false ->
  DSBlockValidator pubkey_of sort_priority c bk (Some a) clock = Ret (true, bk') ->
  let h := pb_header (an_block a) in
  let shards := an_shards a in
  m_pendingDSBlock bk' = Some (an_block a) /\ m_tempShards bk' = shards /\ continues c a /\ NoDup (all_members shards) /\
  Forall (fun k => is_Some (m_allPoWs (bk_node bk') !! k) \/ k ∈ (outgoing c (Z.of_nat (size (dh_winners h)))).*1) (all_members shards) /\
  Forall (fun w : Z * Peer => is_Some (m_allDSPoWs (bk_node bk') !! w.1)) (ordered_entries (dh_winners h)) /\
  learned c (dh_blockNum h) (bk_node bk) (bk_node bk').
Proof.
  intros Hl. unfold DSBlockValidator. rewrite Hl.
  destruct (Z.eqb_spec (dh_version (pb_header (an_block a))) (pr_DSBLOCK_VERSION c)) as [Hv|]; [cbn [negb]|done].
  destruct (CheckWhetherBlockIsLatest _ _ _ _) eqn:Hlat; [cbn [negb]|done].
  destruct (bool_decide_reflect (dsheader_hash (pb_header (an_block a)) = pb_hash (an_block a))) as [Hh|]; [cbn [negb]|done].
  destruct (VerifyTimestamp _ _ _ _ _); [cbn [negb]|done].
  destruct (bool_decide_reflect (sharding_hash (an_shards a) = Some (dh_shardingHash (pb_header (an_block a))))) as [Hsh|]; [cbn [negb]|done].
  destruct (bool_decide_reflect (committee_hash (pc_DSCommittee (pr_pow c)) = Some (dh_committeeHash (pb_header (an_block a))))) as [Hco|]; [cbn [negb]|done].
  destruct (bool_decide_reflect (pr_lastLinkHash c = dh_prevHash (pb_header (an_block a)))) as [Hp|]; [cbn [negb]|done].
  intros E. apply bind_Ret in E as ([ok d1] & Hw & E). destruct ok; [cbn [negb] in E|done]. apply verify_winners_sound in Hw as [L1 Hwin].
  destruct (ProcessShardingStructure c d1 (an_shards a)) as [[[ok ids] rep] d2] eqn:Hs. apply structure_same in Hs.
  destruct ok; [cbn [negb] in E|done]. apply bind_Ret in E as ([[ok pows] d3] & Hn & E). destruct ok; [cbn [negb] in E|done].
  apply node_priority_sound in Hn as [Hs3 Hsub]. apply bind_Ret in E as ([ok d4] & Ho & E). destruct ok; [cbn [negb] in E|done].
  apply ordering_sound in Ho as (L4 & Hnd & Hall); [|done]. destruct (_ && _); [done|]. apply bind_Ret in E as (ok & _ & E).
  injection E as _ <-. assert (same_solutions d1 d3) as Hs13 by (destruct Hs, Hs3; split; cbn in *; congruence).
  pose proof (learned_same c (dh_blockNum (pb_header (an_block a))) _ _ Hs13) as L3.
  assert (learned c (dh_blockNum (pb_header (an_block a))) d1 d4) as L14 by (by etrans).
  split; [done|]. split; [done|]. split; [by split|]. split; [done|]. split; [done|]. split; [|by etrans].
  eapply Forall_impl; [exact Hwin|]. cbn. intros w. apply (ln_keeps_ds _ _ _ _ L14).
Qed.

End soundness.
