(* ===== verification/ProposalExamples.v ===== *)
(** * A directory block of a small network

    Nodes 7, 8 and 9 have submitted solutions, node 7 one that stands for election; the
    committee is nodes 1 and 2, of which node 2 leads.  The leader elects node 7, moves
    its own node to the shard, and node 1 accepts the block.  The last example shows a
    winner that is also put into a shard. *)

From stdpp Require Import base numbers gmap countable list sorting.
From Stdlib Require Import SpecFloat.
From S2P Require Import Prelude Serializable Peer OpenSSL Schnorr PoW PoWProperties TxnPool AccountStore ConsensusCommon BlockChain Blocks Committee TxnOrder MicroBlock PoWSubmission SubmissionProperties Sharding ShardingProperties DSBlockProposal ProposalProperties ProposalAcceptance ProposalSoundness.
Open Scope Z_scope.

Module ProposalSample.
Import Cyclic PoWSample SubmissionSample.

#[export] Instance again : Sha2Again := fun _ b => SHA256 b.
#[export] Instance again_fresh : Sha2AgainSpec.
Proof. done. Qed.
#[export] Instance hashes : ProposalHashes := {|
  sharding_hash shards := Some (all_members shards);
  committee_hash committee := Some committee.*1;
  dsheader_hash h := [dh_blockNum h; dh_gasPrice h]
|}.

Definition pctx : ProposalContext := {|
  pr_pow := ctx; pr_gas := ShardingSample.sample;
  pr_POW_BOUNDARY_N_DIVIDED := 8; pr_POW_BOUNDARY_N_DIVIDED_START := 32;
  pr_NUM_DS_ELECTION := 1; pr_EXPECTED_SHARD_NODE_NUM := 4; pr_POW_CHANGE_TO_ADJ_DIFF := 2; pr_POW_CHANGE_TO_ADJ_DS_DIFF := 2;
  pr_MAX_SHARD_NODE_NUM := 10; pr_COMM_SIZE := 2; pr_SHARD_SIZE_TOLERANCE_LO := 0; pr_SHARD_SIZE_TOLERANCE_HI := 1;
  pr_DIFFICULTY_DIFF_TOL := 1; pr_MISORDER_TOLERANCE_IN_PERCENT := 2; pr_DIFF_IP_TOLERANCE_IN_PERCENT := 2;
  pr_PRIORITY_TOLERANCE_IN_PERCENT := 5; pr_SHARD_GUARD_TOL := to_double 1; pr_DSBLOCK_VERSION := 1;
  pr_variance := 300; pr_timeout := 100; pr_currentEpochNum := 60; pr_dsBlockCount := 25;
  pr_lastLinkHash := [7]; pr_lastTxBlockHash := replicate 32 9; pr_selfKey := 2; pr_selfPeer := peer 2; pr_swInfo := []
|}.

Definition sol (result gas : Z) : PoWSolution := mkPoWSolution 147 result 31 0 gas.
Definition conns : gmap Z Peer := <[7 := peer 7]> (<[8 := peer 8]> (<[9 := peer 9]> ∅)).
Definition pows : MapOfPubKeyPoW := <[7 := sol (2 ^ 242) 50]> (<[8 := sol 3000 60]> (<[9 := sol 2000 70]> ∅)).
Definition leader : DSNode := mkDSNode conns ∅ pows (<[7 := sol (2 ^ 242) 50]> ∅) [] (<[8 := 20]> ∅) [] ∅ POW_new.

Lemma config_ok : sharding_config pctx leader 2.
Proof. split; cbn; try done; lia. Qed.

Lemma sharding_by_sort_hash_witness :
  let solns := [(2 ^ 242, 7); (2000, 9); (3000, 8)] in
  let entries := ordered_entries (by_sort_hash pctx solns) in
  match ComputeSharding pctx leader solns with Ret d => members <$> m_shards d = [[7; 9; 8]] | _ => False end /\
  exists d' counts, ComputeSharding pctx leader solns = Ret d' /\
    counts_ok 2 0 1 (sharding_size pctx solns) counts /\
    StronglySorted entry_le entries /\ (forall h k, (h, k) ∈ entries -> exists r, (r, k) ∈ solns /\ h = sort_hash pctx r) /\
    m_shards d' = chop counts (node_of leader <$> entries.*2) /\ NoDup (all_members (m_shards d')) /\
    ids_ok (m_shards d') (m_publicKeyToshardIdMap d') /\
    (NoDup (sort_hash pctx <$> solns.*1) -> entries.*2 ≡ₚ solns.*2 /\ zlen <$> m_shards d' = counts).
Proof.
  split; [vm_compute; reflexivity|].
  apply (sharding_by_sort_hash pctx leader [(2 ^ 242, 7); (2000, 9); (3000, 8)] 2 config_ok);
    [by vm_compute|apply (bool_decide_unpack _); vm_compute; done|apply (bool_decide_unpack _); vm_compute; done].
Defined.

Lemma leader_proposing : proposing pctx leader 2.
Proof.
  assert (dom pows ⊆ dom conns) as H1 by (apply (bool_decide_unpack _); vm_compute; done).
  assert (dom (m_allDSPoWs leader) ⊆ dom pows) as H2 by (apply (bool_decide_unpack _); vm_compute; done).
  split.
  - apply config_ok.
  - by vm_compute.
  - by vm_compute.
  - intros k Hk. apply elem_of_dom, H1. by apply elem_of_dom.
  - intros k Hk. apply elem_of_dom, H2. by apply elem_of_dom.
  - intros k Hk. cbn in Hk. by repeat (apply elem_of_cons in Hk as [->|Hk]; [vm_compute; done|]); apply elem_of_nil in Hk.
  - apply (bool_decide_unpack _). vm_compute. done.
  - intros e He. cbn in He. by repeat (apply elem_of_cons in He as [->|He]; [vm_compute; done|]); apply elem_of_nil in He.
  - done.
  - done.
  - destruct ShardingSample.gas_sample_ok as [G1 G2 G3 G4 G5]. by split.
  - done.
Qed.

(** Node 1 lists itself with the empty address; it has not heard the address of node 9. *)
Definition committee1 : list (Z * Peer) := [(1, Peer_default); (2, peer 2)].
Definition node1 : DSNode := mkDSNode (<[7 := peer 7]> (<[8 := peer 8]> ∅)) ∅ pows (<[7 := sol (2 ^ 242) 50]> ∅) [] ∅ [] ∅ POW_new.
Definition backup : Backup := mkBackup node1 None [] ∅ ∅.

Definition proposal : outcome (option DSAnnouncement * DSNode) :=
  RunConsensusOnDSBlockWhenDSPrimary key_of id pctx leader true 5000000000.
Definition clock : Z * Z * Z := (5000000100, 5000000100, 5000000100).

Lemma proposal_elects :
  match proposal with
  | Ret (Some a, d) => (ordered_entries (dh_winners (pb_header (an_block a)))).*1 = [7] /\ members <$> an_shards a = [[9; 8; 2]] /\ dh_gasPrice (pb_header (an_block a)) = 1000
  | _ => False
  end.
Proof. vm_compute. done. Qed.

(** Node 1 shares the view of the leader. *)
Lemma subset_agrees (m ref : gmap Z Peer) : m ⊆ ref -> agrees m ref.
Proof. intros Hm k p q Hp Hq. eapply lookup_weaken in Hp; [|done]. congruence. Qed.

Lemma backup_view :
  match proposal with Ret (_, d') => same_view pctx committee1 leader (bk_node backup) (m_allPoWConns d') | _ => False end.
Proof.
  assert (match proposal with Ret (_, d') => bool_decide (m_allPoWConns node1 ⊆ m_allPoWConns d') | _ => false end = true) as H
    by (vm_compute; reflexivity).
  destruct proposal as [[a d']|]; [|done]. split; [done|done|done|]. apply bool_decide_eq_true_1 in H. by apply subset_agrees.
Qed.

Lemma honest_dsblock_accepted_witness :
  exists a d', proposal = Ret (Some a, d') /\
    forall bk committee k q clk, same_view pctx committee leader (bk_node bk) (m_allPoWConns d') ->
      VerifyTimestamp 300 100 5000000000 100 clk = true ->
      exists bk', DSBlockValidator key_of id (seen_by pctx committee k q) bk (Some a) clk = Ret (true, bk') /\
        m_pendingDSBlock bk' = Some (an_block a) /\ m_tempShards bk' = an_shards a.
Proof.
  refine (honest_dsblock_accepted key_of id _ pctx leader 2 5000000000 leader_proposing _ _ _ _ _).
  - apply sha256_ok.
  - intros shards. by eexists.
  - by eexists.
  - done.
  - done.
  - done.
Defined.

(** Node 1 has not received the solution of node 7: it checks the one that the leader sent. *)
Definition late : Backup :=
  mkBackup (mkDSNode (<[8 := peer 8]> (<[9 := peer 9]> ∅)) ∅ (delete 7 pows) ∅ [] ∅ [] ∅ POW_new) None [] ∅ ∅.
Definition announcement : option DSAnnouncement := match proposal with Ret (a, _) => a | _ => None end.
Definition validated : outcome (bool * Backup) :=
  DSBlockValidator key_of id (seen_by pctx committee1 1 (peer 1)) late announcement clock.

Lemma late_accepts :
  match validated with Ret (ok, b) => (ok, ps_result <$> m_allDSPoWs (bk_node b) !! 7) = (true, Some (2 ^ 242)) | _ => False end.
Proof. vm_compute. done. Qed.

Lemma accepted_dsblock_sound_witness :
  exists a bk', announcement = Some a /\ validated = Ret (true, bk') /\
  let c := seen_by pctx committee1 1 (peer 1) in
  let h := pb_header (an_block a) in
  let shards := an_shards a in
  m_pendingDSBlock bk' = Some (an_block a) /\ m_tempShards bk' = shards /\ continues c a /\ NoDup (all_members shards) /\
  Forall (fun k => is_Some (m_allPoWs (bk_node bk') !! k) \/ k ∈ (outgoing c (Z.of_nat (size (dh_winners h)))).*1) (all_members shards) /\
  Forall (fun w : Z * Peer => is_Some (m_allDSPoWs (bk_node bk') !! w.1)) (ordered_entries (dh_winners h)) /\
  learned key_of c (dh_blockNum h) (bk_node late) (bk_node bk').
Proof.
  pose proof late_accepts as H. unfold validated in *. destruct announcement as [a|]; [|by cbn in H].
  destruct (DSBlockValidator _ _ _ _ _ _) as [[ok bk']|] eqn:E; [|done]. injection H as -> _. exists a, bk'. split; [done|]. split; [done|].
  apply (accepted_dsblock_sound key_of id (seen_by pctx committee1 1 (peer 1)) late a clock bk' eq_refl E).
Defined.

(** When a node's entry for the election is not its entry of [m_allPoWs], the pair that
    is erased for the winner is not in the list, and the winner is put into a shard too;
    a backup with the same entries accepts the block. *)
Definition worse_entry : DSNode := mkDSNode conns ∅ pows (<[7 := sol (2 ^ 243) 50]> ∅) [] ∅ [] ∅ POW_new.

Definition worse_backup : Backup :=
  mkBackup (mkDSNode (<[7 := peer 7]> (<[8 := peer 8]> ∅)) ∅ pows (<[7 := sol (2 ^ 243) 50]> ∅) [] ∅ [] ∅ POW_new) None [] ∅ ∅.

Lemma winner_also_sharded :
  match RunConsensusOnDSBlockWhenDSPrimary key_of id pctx worse_entry true 5000000000 with
  | Ret (Some a, _) => (ordered_entries (dh_winners (pb_header (an_block a)))).*1 = [7] /\ bool_decide (7 ∈ all_members (an_shards a)) = true /\
      match DSBlockValidator key_of id (seen_by pctx committee1 1 (peer 1)) worse_backup (Some a) clock with
      | Ret (ok, _) => ok = true
      | Fault _ => False
      end
  | _ => False
  end.
Proof. vm_compute. done. Qed.

End ProposalSample.
