(* ===== verification/MicroBlockSubmission.v ===== *)
(** * Micro blocks that the directory committee receives:
    libDirectoryService/MicroBlockProcessing.cpp

    Shards submit their co-signed micro blocks with the state deltas; the directory
    nodes collect them, and fetch those that they miss from the leader.  The messages are
    given in decoded form; the start of the consensus on the final block (a detached
    thread) is not part of the model. *)

From stdpp Require Import base numbers gmap countable list sorting.
From S2P Require Import Prelude Serializable Peer OpenSSL Schnorr LevelDB Json Receipt TxnPool AccountStore ConsensusMessages ConsensusCommon BlockChain Blocks Committee BlockStorage TxnOrder ContractStorage ContractAccount AccountStoreSC ContractProperties AccountMessages StateDelta TxnSelection TxnExecution MicroBlock Coinbase PoW PoWSubmission Sharding.
Open Scope Z_scope.

(** The protobuf form of a micro block. *)
Class MicroBlockProto `{OpenSSL} := microblock_bytes : MicroBlock -> bytes.

(** ** The set of micro blocks *)

Fixpoint bytes_lt (a b : bytes) : bool :=
  match a, b with
  | _, [] => false
  | [], _ => true
  | x :: a, y :: b => (x <? y) || (negb (y <? x) && bytes_lt a b)
  end.

(** [std::vector<TxnHash>::operator<] *)
Fixpoint hashes_lt (a b : list bytes) : bool :=
  match a, b with
  | _, [] => false
  | [], _ => true
  | x :: a, y :: b => bytes_lt x y || (negb (bytes_lt y x) && hashes_lt a b)
  end.

Section sets.
Context `{Hssl : OpenSSL}.

Definition MicroBlockHeader_lt (h h' : MicroBlockHeader) : bool :=
  (hb_version (mbh_base h) =? hb_version (mbh_base h')) && bool_decide (hb_prevHash (mbh_base h) = hb_prevHash (mbh_base h')) &&
  (mbh_epochNum h =? mbh_epochNum h') && (mbh_dsBlockNum h =? mbh_dsBlockNum h') && (mbh_shardId h <? mbh_shardId h').

(** [std::tie] compares the headers first, then the transactions. *)
Definition MicroBlock_lt (a b : MicroBlock) : bool :=
  MicroBlockHeader_lt (mb_header a) (mb_header b) ||
  (negb (MicroBlockHeader_lt (mb_header b) (mb_header a)) && hashes_lt (mb_tranHashes a) (mb_tranHashes b)).

Definition mb_equiv (a b : MicroBlock) : bool := negb (MicroBlock_lt a b) && negb (MicroBlock_lt b a).

(** What [std::set] requires of the order of its elements. *)
Definition strict_weak (l : list MicroBlock) : bool :=
  forallb (fun a => forallb (fun b => forallb (fun c =>
    implb (MicroBlock_lt a b && MicroBlock_lt b c) (MicroBlock_lt a c) && implb (mb_equiv a b && mb_equiv b c) (mb_equiv a c)) l) l) l.

Fixpoint insert_sorted (x : MicroBlock) (l : list MicroBlock) : list MicroBlock :=
  match l with
  | [] => [x]
  | y :: l' => if MicroBlock_lt x y then x :: l else y :: insert_sorted x l'
  end.

(** [std::set<MicroBlock>::emplace]; undefined when the elements are not ordered. *)
Definition set_emplace (x : MicroBlock) (l : list MicroBlock) : outcome (list MicroBlock) :=
  if negb (strict_weak (x :: l)) then Fault Undefined
  else if existsb (mb_equiv x) l then Ret l
  else Ret (insert_sorted x l).

Definition shard_of (b : MicroBlock) : Z := mbh_shardId (mb_header b).
Definition hash_of (b : MicroBlock) : bytes := bb_blockHash (mb_base b).

End sets.

Section submission.
Context `{Hssl : OpenSSL} `{Hproto : StateProto} {DB : Type} `{Hdb : leveldb DB} {J : Type} `{Hjson : Json J}.
Context `{Hcast : LexicalCast} `{Hwriter : ReceiptWriter J} `{Hmath : SafeMath} {T : Type} `{Htrie : Trie T}.
Context `{Hacc : AccountProto} {W : Type} `{Hheader : HeaderProto MicroBlockHeader} `{Hmb : !MicroBlockProto}.
Context `{Hcommittee : CommitteeProto} `{Heq : !EqDecision PubKey} `{Hcount : !Countable PubKey}.
Context (ACCOUNT_VERSION MAX_CODE_SIZE_IN_BYTES : Z).

(** What a directory node reads of the mediator and the configuration. *)
Record FinalContext := mkFinalContext {
  fc_micro : MicroContext;
  fc_mode : Mode;
  fc_publicKeyToshardIdMap : gmap PubKey Z;
  fc_MICROBLOCK_TIMEOUT : Z;
  fc_NUM_VACUOUS_EPOCHS : Z;
  fc_NUM_FINAL_BLOCK_PER_POW : Z;
  fc_TXBLOCK_VERSION : Z;
  fc_txBlockCount : Z;             (** blocks in the chain of final blocks *)
  fc_lastTxBlockNum : Z;
  fc_dsBlockCount : Z;
  fc_missingMsg : list bytes -> option bytes  (** [Messenger::SetDSMissingMicroBlocksErrorMsg] *)
}.

(** The members of the directory service that final blocks are made of. *)
Record FinalNode := mkFinalNode {
  fn_node : @MicroNode _ DB J T W _ _;
  fn_coinbase : @CoinbaseState PubKey _ _;
  fn_storage : BlockStorage DB;
  m_microBlocks : gmap Z (list MicroBlock);
  m_missingMicroBlocks : gmap Z (list bytes);
  m_microBlockStateDeltas : gmap Z (gmap bytes bytes);
  m_stateDeltaFromShards : bytes;
  m_MBSubmissionBuffer : gmap Z (list (MicroBlock * bytes));
  m_stopRecvNewMBSubmission : bool;
  m_finalBlock : option TxBlock
}.
Implicit Types (c : FinalContext) (d : FinalNode).

Definition fn_set_node d x : FinalNode :=
  mkFinalNode x (fn_coinbase d) (fn_storage d) (m_microBlocks d) (m_missingMicroBlocks d) (m_microBlockStateDeltas d)
    (m_stateDeltaFromShards d) (m_MBSubmissionBuffer d) (m_stopRecvNewMBSubmission d) (m_finalBlock d).
Definition fn_set_store d s : FinalNode := fn_set_node d (mn_set_store (fn_node d) s).
Definition fn_set_coinbase d x : FinalNode :=
  mkFinalNode (fn_node d) x (fn_storage d) (m_microBlocks d) (m_missingMicroBlocks d) (m_microBlockStateDeltas d)
    (m_stateDeltaFromShards d) (m_MBSubmissionBuffer d) (m_stopRecvNewMBSubmission d) (m_finalBlock d).
Definition fn_set_storage d x : FinalNode :=
  mkFinalNode (fn_node d) (fn_coinbase d) x (m_microBlocks d) (m_missingMicroBlocks d) (m_microBlockStateDeltas d)
    (m_stateDeltaFromShards d) (m_MBSubmissionBuffer d) (m_stopRecvNewMBSubmission d) (m_finalBlock d).
Definition fn_set_blocks d x : FinalNode :=
  mkFinalNode (fn_node d) (fn_coinbase d) (fn_storage d) x (m_missingMicroBlocks d) (m_microBlockStateDeltas d)
    (m_stateDeltaFromShards d) (m_MBSubmissionBuffer d) (m_stopRecvNewMBSubmission d) (m_finalBlock d).
Definition fn_set_missing d x : FinalNode :=
  mkFinalNode (fn_node d) (fn_coinbase d) (fn_storage d) (m_microBlocks d) x (m_microBlockStateDeltas d)
    (m_stateDeltaFromShards d) (m_MBSubmissionBuffer d) (m_stopRecvNewMBSubmission d) (m_finalBlock d).
Definition fn_set_deltas d x y : FinalNode :=
  mkFinalNode (fn_node d) (fn_coinbase d) (fn_storage d) (m_microBlocks d) (m_missingMicroBlocks d) x
    y (m_MBSubmissionBuffer d) (m_stopRecvNewMBSubmission d) (m_finalBlock d).
Definition fn_set_buffer d x : FinalNode :=
  mkFinalNode (fn_node d) (fn_coinbase d) (fn_storage d) (m_microBlocks d) (m_missingMicroBlocks d) (m_microBlockStateDeltas d)
    (m_stateDeltaFromShards d) x (m_stopRecvNewMBSubmission d) (m_finalBlock d).
Definition fn_set_stop d x : FinalNode :=
  mkFinalNode (fn_node d) (fn_coinbase d) (fn_storage d) (m_microBlocks d) (m_missingMicroBlocks d) (m_microBlockStateDeltas d)
    (m_stateDeltaFromShards d) (m_MBSubmissionBuffer d) x (m_finalBlock d).
Definition fn_set_final d x : FinalNode :=
  mkFinalNode (fn_node d) (fn_coinbase d) (fn_storage d) (m_microBlocks d) (m_missingMicroBlocks d) (m_microBlockStateDeltas d)
    (m_stateDeltaFromShards d) (m_MBSubmissionBuffer d) (m_stopRecvNewMBSubmission d) x.

Definition fc_epoch c : Z := vc_epochNum (mc_validator (fc_micro c)).
Definition fc_lookup c : bool := mc_lookup (fc_micro c).
Definition fc_shards c : DequeOfShard := mc_shards (fc_micro c).
Definition fc_committee c : list (PubKey * Peer) := mc_DSCommittee (fc_micro c).
Definition blocks_at d (epoch : Z) : list MicroBlock := default [] (m_microBlocks d !! epoch).

(** [Mediator::GetIsVacuousEpoch(epochNum)]; the constant is not zero. *)
Definition GetIsVacuousEpoch c (epochNum : Z) : bool :=
  u64 (epochNum + fc_NUM_VACUOUS_EPOCHS c) mod fc_NUM_FINAL_BLOCK_PER_POW c =? 0.

Definition CheckIfShardNode c (submitterPubKey : PubKey) : bool :=
  existsb (fun shard => existsb (fun k => bool_decide (k = submitterPubKey)) (shard_keys shard)) (fc_shards c).

Definition CheckIfDSMember c (pubKey : PubKey) : bool := existsb (fun ds : PubKey * Peer => bool_decide (ds.1 = pubKey)) (fc_committee c).

(** ** A micro block of a shard *)

Definition ProcessStateDelta c d (stateDelta microBlockStateDeltaHash microBlockHash : bytes) : outcome (bool * FinalNode) :=
  if fc_lookup c then Ret (true, d)
  else if bool_decide (microBlockStateDeltaHash = zero_hash) then Ret (true, d)
  else
    match stateDelta with
    | [] => Ret (false, d)
    | _ =>
        if negb (bool_decide (SHA256 (SHA2.Update SHA2.Reset stateDelta) = microBlockStateDeltaHash)) then Ret (false, d)
        else
          '(ok, s) ← DeserializeDeltaTemp ACCOUNT_VERSION MAX_CODE_SIZE_IN_BYTES (mn_store (fn_node d)) stateDelta 0;
          if negb (ok : bool) then Ret (false, fn_set_store d s)
          else
            '(ok, s) ← SerializeDelta ACCOUNT_VERSION s;
            let d := fn_set_store d s in
            if negb (ok : bool) then Ret (false, d)
            else
              let deltas := default ∅ (m_microBlockStateDeltas d !! fc_epoch c) in
              let deltas := match deltas !! microBlockHash with Some _ => deltas | None => <[microBlockHash := stateDelta]> deltas end in
              Ret (true, fn_set_deltas d (<[fc_epoch c := deltas]> (m_microBlockStateDeltas d)) (m_stateDeltaSerialized s))
    end.

(** The co-signers of a shard's block are noted; the shard number is an [int32_t] there. *)
Definition save_cosigners c d (microBlock : MicroBlock) : outcome (bool * FinalNode) :=
  let cosigs := bb_cosigs (mb_base microBlock) in
  '(ok, s) ← SaveCoinbase (fc_lookup c) (fc_committee c).*1 (shard_keys <$> fc_shards c) (cs_B1 cosigs) (cs_B2 cosigs)
               (to_int 32 (shard_of microBlock)) (fc_epoch c) (fn_coinbase d);
  Ret (ok, fn_set_coinbase d s).

Definition store_block d (microBlock : MicroBlock) : outcome (bool * FinalNode) :=
  '(ok, b) ← PutMicroBlock (fn_storage d) (hash_of microBlock) (microblock_bytes microBlock); Ret (ok, fn_set_storage d b).

Definition add_block d (epoch : Z) (microBlock : MicroBlock) : outcome FinalNode :=
  l ← set_emplace microBlock (blocks_at d epoch); Ret (fn_set_blocks d (<[epoch := l]> (m_microBlocks d))).

(** The checks before the block is stored; [m_shards.at(shardId)] throws. *)
Definition check_submission c (microBlock : MicroBlock) (clock : Z * Z * Z) : outcome bool :=
  let h := mb_header microBlock in
  let m := fc_micro c in
  if negb (bool_decide (GetMyHash h = hash_of microBlock)) then Ret false
  else if negb (hb_version (mbh_base h) =? mc_version m) then Ret false
  else if negb (CheckWhetherBlockIsLatest (mc_dsBlockNum m) (fc_epoch c) (u64 (mbh_dsBlockNum h + 1)) (mbh_epochNum h)) then Ret false
  else if negb (VerifyTimestamp (mc_variance m) (mc_timeout m) (bb_timestamp (mb_base microBlock))
                  (u32 (mc_timeout m + fc_MICROBLOCK_TIMEOUT c)) clock) then Ret false
  else
    match fc_publicKeyToshardIdMap c !! mbh_minerPubKey h with
    | None => Ret false
    | Some minerShard =>
        if negb (minerShard =? mbh_shardId h) then Ret false
        else
          shard ← at_ (fc_shards c) (mbh_shardId h);
          if negb (bool_decide (GetShardHash shard = hb_committeeHash (mbh_base h))) then Ret false
          else VerifyMicroBlockCoSignature (fc_lookup c) (fc_shards c) (fc_committee c) microBlock (mbh_shardId h)
    end.

Definition ProcessMicroblockSubmissionFromShardCore c d (microBlock : MicroBlock) (stateDelta : bytes) (clock : Z * Z * Z)
  : outcome (bool * FinalNode) :=
  if fc_lookup c then Ret (true, d)
  else
    ok ← check_submission c microBlock clock;
    if negb (ok : bool) then Ret (false, d)
    else if m_stopRecvNewMBSubmission d then Ret (false, d)
    else
      let d := fn_set_blocks d (<[fc_epoch c := blocks_at d (fc_epoch c)]> (m_microBlocks d)) in
      if existsb (fun b => shard_of b =? shard_of microBlock) (blocks_at d (fc_epoch c)) then Ret (false, d)
      else
        '(ok, d) ← (if shard_of microBlock =? zlen (fc_shards c) then Ret (true, d) else save_cosigners c d microBlock);
        if negb (ok : bool) then Ret (false, d)
        else
          '(ok, d) ← store_block d microBlock;
          if negb (ok : bool) then Ret (false, d)
          else
            '(ok, d) ← (if mc_isVacuousEpoch (fc_micro c) then Ret (true, d)
                        else ProcessStateDelta c d stateDelta (mbh_stateDeltaHash (mb_header microBlock)) (hash_of microBlock));
            if negb (ok : bool) then Ret (false, d)
            else
              d ← add_block d (fc_epoch c) microBlock;
              Ret (true, if zlen (blocks_at d (fc_epoch c)) =? zlen (fc_shards c) then fn_set_stop d true else d).

(** ** Submissions that came too early *)

Definition buffer_submission d (epoch : Z) (microBlock : MicroBlock) (stateDelta : bytes) : FinalNode :=
  fn_set_buffer d (<[epoch := default [] (m_MBSubmissionBuffer d !! epoch) ++ [(microBlock, stateDelta)]]> (m_MBSubmissionBuffer d)).

Fixpoint process_buffered c d (entries : list (MicroBlock * bytes)) (clock : Z * Z * Z) : outcome FinalNode :=
  match entries with
  | [] => Ret d
  | (microBlock, stateDelta) :: entries =>
      '(_, d) ← ProcessMicroblockSubmissionFromShardCore c d microBlock stateDelta clock; process_buffered c d entries clock
  end.

(** [epochs]: the epochs of the buffer, in the order of the hash table. *)
Fixpoint CommitMBSubmissionMsgBuffer c d (epochs : list Z) (clock : Z * Z * Z) : outcome FinalNode :=
  match epochs with
  | [] => Ret d
  | epoch :: epochs =>
      if epoch <? fc_epoch c then CommitMBSubmissionMsgBuffer c (fn_set_buffer d (delete epoch (m_MBSubmissionBuffer d))) epochs clock
      else if epoch =? fc_epoch c then
        d ← process_buffered c d (default [] (m_MBSubmissionBuffer d !! epoch)) clock;
        Ret (fn_set_buffer d (delete epoch (m_MBSubmissionBuffer d)))
      else CommitMBSubmissionMsgBuffer c d epochs clock
  end.

(** [state]: what [CheckState] sees. *)
Definition ProcessMicroblockSubmissionFromShard c d (epochNumber : Z) (microBlocks : list MicroBlock) (stateDeltas : list bytes)
    (state : DirStates) (clock : Z * Z * Z) : outcome (bool * FinalNode) :=
  match microBlocks, stateDeltas with
  | microBlock :: _, stateDelta :: _ =>
      if fc_epoch c <? epochNumber then Ret (true, buffer_submission d epochNumber microBlock stateDelta)
      else if fc_epoch c =? epochNumber then
        if CheckState (fc_lookup c) (fc_mode c) state PROCESS_MICROBLOCKSUBMISSION
        then ProcessMicroblockSubmissionFromShardCore c d microBlock stateDelta clock
        else Ret (true, buffer_submission d epochNumber microBlock stateDelta)
      else Ret (false, d)
  | _, _ => Ret (false, d)
  end.

(** ** Micro blocks that were missing *)

(** The blocks that are named in the final block and not in the node's set. *)
Definition missing_blocks c d (infos : list MicroBlockInfo) : list bytes :=
  mbi_microBlockHash <$>
    filter (fun i => mbi_shardId i <> zlen (fc_shards c) /\ mbi_microBlockHash i ∉ (hash_of <$> blocks_at d (fc_epoch c))) infos.

(** The final block pointer may be null, which is a fault. *)
Definition CheckMicroBlocks c d (errorMsg : bytes) (fromShards generateErrorMsg : bool) : outcome (bool * bytes * FinalNode) :=
  if fc_lookup c then Ret (true, errorMsg, d)
  else
    match m_finalBlock d with
    | None => Fault NullPointer
    | Some block =>
        let missing := missing_blocks c d (txb_mbInfos block) in
        let d := fn_set_missing d (<[fc_epoch c := missing]> (m_missingMicroBlocks d)) in
        match missing with
        | [] => Ret (true, errorMsg, d)
        | _ =>
            if fromShards then Ret (false, errorMsg, d)
            else
              let set_error d := fn_set_node d (mn_set_error (fn_node d) FINALBLOCK_MISSING_MICROBLOCKS) in
              if generateErrorMsg then
                match fc_missingMsg c missing with
                | None => Ret (false, errorMsg, d)
                | Some errorMsg => Ret (false, errorMsg, set_error d)
                end
              else Ret (false, errorMsg, set_error d)
        end
    end.

(** The miner is a member of the shard, or of the directory committee. *)
Definition miner_known c (h : MicroBlockHeader) : bool :=
  if mbh_shardId h =? zlen (fc_shards c) then CheckIfDSMember c (mbh_minerPubKey h)
  else bool_decide (fc_publicKeyToshardIdMap c !! mbh_minerPubKey h = Some (mbh_shardId h)).

Fixpoint process_missing c d (epochNumber : Z) (microBlocks : list MicroBlock) (stateDeltas : list bytes) : outcome (bool * FinalNode) :=
  match microBlocks, stateDeltas with
  | b :: microBlocks, stateDelta :: stateDeltas =>
      let h := mb_header b in
      let next d := process_missing c d epochNumber microBlocks stateDeltas in
      if negb (CheckWhetherBlockIsLatest (mc_dsBlockNum (fc_micro c)) (fc_epoch c) (u64 (mbh_dsBlockNum h + 1)) (mbh_epochNum h))
      then Ret (false, d)
      else if negb (miner_known c h) then next d
      else
        cosigned ← (if mbh_shardId h =? vc_shardId (mc_validator (fc_micro c)) then Ret true
                    else VerifyMicroBlockCoSignature (fc_lookup c) (fc_shards c) (fc_committee c) b (mbh_shardId h));
        if negb (cosigned : bool) then next d
        else if negb (bool_decide (hash_of b ∈ default [] (m_missingMicroBlocks d !! epochNumber))) then next d
        else if bool_decide (hash_of b ∈ hash_of <$> blocks_at d epochNumber) then next d
        else
          '(ok, d) ← (if mbh_shardId h =? zlen (fc_shards c) then Ret (true, d) else save_cosigners c d b);
          if negb (ok : bool) then next d
          else
            '(ok, d) ← (if GetIsVacuousEpoch c epochNumber then Ret (true, d)
                        else ProcessStateDelta c d stateDelta (mbh_stateDeltaHash h) (hash_of b));
            if negb (ok : bool) then next d
            else
              '(ok, d) ← store_block d b;
              if negb (ok : bool) then Ret (false, d)
              else d ← add_block d epochNumber b; next d
  | _, _ => Ret (true, d)
  end.

Definition ProcessMissingMicroblockSubmission c d (epochNumber : Z) (microBlocks : list MicroBlock) (stateDeltas : list bytes)
  : outcome (bool * FinalNode) :=
  let d := fn_set_blocks d (<[epochNumber := blocks_at d epochNumber]> (m_microBlocks d)) in
  if negb (zlen microBlocks =? zlen stateDeltas) then Ret (false, d)
  else
    '(ok, d) ← process_missing c d epochNumber microBlocks stateDeltas;
    if negb (ok : bool) then Ret (false, d)
    else '(ok, _, d) ← CheckMicroBlocks c d [] false false; Ret (ok, d).

(** [SUBMITMICROBLOCKTYPE] *)
Definition SHARDMICROBLOCK : Z := 0.
Definition MISSINGMICROBLOCK : Z := 1.

(** [None]: [Messenger::GetDSMicroBlockSubmission] failed. *)
Definition ProcessMicroblockSubmission c d (message : option (Z * Z * list MicroBlock * list bytes * PubKey)) (state : DirStates)
    (clock : Z * Z * Z) : outcome (bool * FinalNode) :=
  if fc_lookup c then Ret (true, d)
  else
    match message with
    | None => Ret (false, d)
    | Some (submitMBType, epochNumber, microBlocks, stateDeltas, senderPubKey) =>
        if submitMBType =? SHARDMICROBLOCK then
          if negb (CheckIfShardNode c senderPubKey) then Ret (false, d)
          else ProcessMicroblockSubmissionFromShard c d epochNumber microBlocks stateDeltas state clock
        else if submitMBType =? MISSINGMICROBLOCK then
          if negb (CheckIfDSMember c senderPubKey) then Ret (false, d)
          else ProcessMissingMicroblockSubmission c d epochNumber microBlocks stateDeltas
        else Ret (false, d)
    end.

End submission.
