(* ===== verification/FinalBlock.v ===== *)
(** * Final blocks: libDirectoryService/FinalBlockPreProcessing.cpp

    The leader of the directory committee executes the committee's own transactions,
    composes its micro block and, from all micro blocks of the epoch, the final block; a
    backup executes the same transactions and checks what is proposed against its own
    micro blocks and accounts.  The consensus objects, timers and views are outside; an
    announcement is given in decoded form. *)

From stdpp Require Import base numbers gmap countable list sorting.
From S2P Require Import Prelude Serializable Peer OpenSSL Schnorr LevelDB Json Receipt TxnPool AccountStore ConsensusMessages ConsensusCommon BlockChain Blocks Committee BlockStorage TxnOrder ContractStorage ContractAccount AccountStoreSC ContractProperties AccountMessages StateDelta TxnSelection TxnExecution MicroBlock Coinbase PoW PoWSubmission Sharding MicroBlockSubmission.
Open Scope Z_scope.

(** The encoding of [ProtoMbInfo]. *)
Class MbInfoProto := mbinfo_proto : MicroBlockInfo -> bytes.

#[global] Instance MicroBlockInfo_eq_dec : EqDecision MicroBlockInfo.
Proof. solve_decision. Defined.
#[global] Instance ConsensusErrorCode_eq_dec : EqDecision ConsensusErrorCode.
Proof. solve_decision. Defined.

Section final.
Context `{Hssl : OpenSSL} `{Hproto : StateProto} {DB : Type} `{Hdb : leveldb DB} {J : Type} `{Hjson : Json J}.
Context `{Hcast : LexicalCast} `{Hwriter : ReceiptWriter J} `{Hmath : SafeMath} {T : Type} `{Htrie : Trie T}.
Context `{Hacc : AccountProto} {W : Type} `{Henv : Environment W} `{Hheader : HeaderProto MicroBlockHeader} `{Hmb : !MicroBlockProto}.
Context `{Htx : HeaderProto TxBlockHeader} `{Hinfo : MbInfoProto}.
Context `{Hcommittee : CommitteeProto} `{Heq : !EqDecision PubKey} `{Hcount : !Countable PubKey}.
Context (CONTRACT_STATE_VERSION ACCOUNT_VERSION MAX_CODE_SIZE_IN_BYTES : Z) (index_fuel : nat) (scilla : ScillaConfig)
  (gas : GasConfig) (GetAddressFromPublicKey : PubKey -> Z).
Local Abbreviation Store := (AccountStore T DB W).
Local Abbreviation Node := (@FinalNode _ DB J T W _ _).
Implicit Types (c : FinalContext) (d : Node).

(** What the node's own checks read: the deltas of the shards are those received. *)
Definition micro_of c d : MicroContext :=
  let m := fc_micro c in
  mkMicroContext (mc_lookup m) (mc_version m) (mc_gasLimit m) (mc_validator m) (mc_populating m) (mc_isVacuousEpoch m)
    (mc_totalTxnFees m) (mc_coinbase m) (mc_lastTxHeaderHash m) (mc_lastTxBlockHash m) (mc_dsBlockNum m) (mc_difficulty m) (mc_dsDifficulty m)
    (mc_targets m) (mc_shards m) (mc_DSCommittee m) (mc_selfKey m) (m_stateDeltaFromShards d) (mc_tolerance m)
    (mc_variance m) (mc_timeout m) (mc_missingMsg m).

Definition fn_store d : Store := mn_store (fn_node d).
Definition fn_set_error d e : Node := fn_set_node d (mn_set_error (fn_node d) e).
Definition fn_set_microblock d b : Node := fn_set_node d (mn_set_block (fn_node d) b).

(** [AccountStore::GetStateRootHash] *)
Definition GetStateRootHash (s : Store) : bytes := hash_bytes (trie_root (m_state (as_main s))).

(** [Messenger::GetMbInfoHash]; without blocks the hash stays zero. *)
Definition GetMbInfoHash (mbInfos : list MicroBlockInfo) : bytes :=
  match concat (mbinfo_proto <$> mbInfos) with
  | [] => zero_hash
  | tmp => SHA256 (SHA2.Update SHA2.Reset tmp)
  end.

(** ** The totals of the micro blocks *)

Record Totals := mkTotals { allGasLimit : Z; allGasUsed : Z; allRewards : Z; numTxs : Z }.

(** A block whose sums overflow is left out of the three amounts. *)
Definition add_totals (t : Totals) (b : MicroBlock) : Totals :=
  let h := mb_header b in
  let num := u32 (numTxs t + mbh_numTxs h) in
  let '(ok1, gasLimit) := sm_add 64 (allGasLimit t) (mbh_gasLimit h) (allGasLimit t) in
  let '(ok2, gasUsed) := sm_add 64 (allGasUsed t) (mbh_gasUsed h) (allGasUsed t) in
  let '(ok3, rewards) := sm_add 128 (allRewards t) (mbh_rewards h) (allRewards t) in
  if ok1 && ok2 && ok3 then mkTotals gasLimit gasUsed rewards num
  else mkTotals (allGasLimit t) (allGasUsed t) (allRewards t) num.

Definition totals_of (blocks : list MicroBlock) : Totals := foldl add_totals (mkTotals 0 0 0 0) blocks.

Definition info_of (b : MicroBlock) : MicroBlockInfo := mkMBInfo (hash_of b) (mbh_txRootHash (mb_header b)) (shard_of b).

Definition ExtractDataFromMicroblocks c d : list MicroBlockInfo * Totals :=
  if fc_lookup c then ([], mkTotals 0 0 0 0)
  else (info_of <$> blocks_at d (fc_epoch c), totals_of (blocks_at d (fc_epoch c))).

(** ** The leader *)

Definition ComposeFinalBlock c d (now : Z) : bool * Node :=
  if fc_lookup c then (true, d)
  else
    let stateDeltaHash := hash_bytes (GetStateDeltaHash (fn_store d)) in
    let '(mbInfos, t) := ExtractDataFromMicroblocks c d in
    let d := fn_set_blocks d (<[fc_epoch c := blocks_at d (fc_epoch c)]> (m_microBlocks d)) in
    let mbInfoHash := GetMbInfoHash mbInfos in
    let '(blockNum, prevHash) :=
      if fc_txBlockCount c >? 0 then (u64 (fc_lastTxBlockNum c + 1), mc_lastTxBlockHash (fc_micro c)) else (0, zero_hash) in
    if fc_dsBlockCount c <=? 0 then (false, d)
    else
      let header :=
        mkTxHeader (mkHeaderBase (fc_TXBLOCK_VERSION c) (GetDSCommitteeHash (fc_committee c)) prevHash)
          (allGasLimit t) (allGasUsed t) (allRewards t) blockNum (GetStateRootHash (fn_store d)) stateDeltaHash mbInfoHash
          (numTxs t) (mc_selfKey (fc_micro c)) (mc_dsBlockNum (fc_micro c)) in
      (true, fn_set_final d (Some (TxBlock_new now header mbInfos (CoSignatures_new (zlen (fc_committee c)))))).

Local Abbreviation executor c :=
  (node_executor CONTRACT_STATE_VERSION ACCOUNT_VERSION index_fuel scilla gas GetAddressFromPublicKey (mc_validator (fc_micro c))).

(** Up to the consensus object; [now1] and [now2] are the times of the two blocks. *)
Definition RunConsensusOnFinalBlockWhenDSPrimary c d (fuel : nat) (timeout : nat -> bool) (now1 now2 : Z) : outcome (bool * Node) :=
  if fc_lookup c then Ret (true, d)
  else
    '(ok, d) ← (if processes_txns (fc_micro c) then
                  '(s, txns) ← @ProcessTransactionWhenShardLeader _ _ _ _ _ _ Store (executor c) GetAddressFromPublicKey
                                (mc_gasLimit (fc_micro c)) fuel timeout (mc_populating (fc_micro c)) (fn_store d) (mn_txns (fn_node d));
                  '(ok, s) ← SerializeDelta ACCOUNT_VERSION s;
                  Ret (ok, fn_set_store (fn_set_node d (mn_set_txns (fn_node d) txns)) s)
                else Ret (true, d));
    if negb (ok : bool) then Ret (false, d)
    else
      s ← CommitTempRevertible ACCOUNT_VERSION MAX_CODE_SIZE_IN_BYTES (fn_store d);
      let d := fn_set_store d s in
      '(ok, n) ← ComposeMicroBlock (micro_of c d) now1 (fn_node d);
      let d := fn_set_node d n in
      d ← (if ok : bool then
             match m_microblock n with
             | None => Fault NullPointer
             | Some b => add_block d (fc_epoch c) b
             end
           else Ret (fn_set_microblock d None));
      Ret (ComposeFinalBlock c d now2).

(** [RunConsensusOnFinalBlockWhenDSBackup], up to the consensus object. *)
Definition RunConsensusOnFinalBlockWhenDSBackup c d (fuel : nat) (timeout : nat -> bool) : outcome (bool * Node) :=
  if fc_lookup c then Ret (true, d)
  else if processes_txns (fc_micro c) then
    '(s, txns) ← @ProcessTransactionWhenShardBackup _ _ _ _ _ _ Store (executor c) GetAddressFromPublicKey
                  (mc_gasLimit (fc_micro c)) fuel timeout (mc_populating (fc_micro c)) (fn_store d) (mn_txns (fn_node d));
    Ret (true, fn_set_store (fn_set_node d (mn_set_txns (fn_node d) txns)) s)
  else Ret (true, d).

(** ** The checks of a backup *)

Definition CheckBlockHash c (b : TxBlock) : bool :=
  if fc_lookup c then true
  else if negb (bool_decide (GetMyHash (txb_header b) = bb_blockHash (txb_base b))) then false
  else bool_decide (GetDSCommitteeHash (fc_committee c) = hb_committeeHash (txh_base (txb_header b))).

Definition CheckFinalBlockVersion c d (b : TxBlock) : bool * Node :=
  if fc_lookup c then (true, d)
  else if negb (hb_version (txh_base (txb_header b)) =? fc_TXBLOCK_VERSION c) then (false, fn_set_error d INVALID_FINALBLOCK_VERSION)
  else (true, d).

Definition CheckFinalBlockNumber c (b : TxBlock) : bool :=
  if fc_lookup c then true
  else CheckWhetherBlockIsLatest (mc_dsBlockNum (fc_micro c)) (fc_epoch c) (u64 (txh_dsBlockNum (txb_header b) + 1)) (txh_blockNum (txb_header b)).

Definition CheckPreviousFinalBlockHash c d (b : TxBlock) : bool * Node :=
  if fc_lookup c then (true, d)
  else if negb (bool_decide (hb_prevHash (txh_base (txb_header b)) = mc_lastTxBlockHash (fc_micro c)))
  then (false, fn_set_error d INVALID_PREV_FINALBLOCK_HASH)
  else (true, d).

Definition CheckFinalBlockTimestamp c (b : TxBlock) (clock : Z * Z * Z) : bool :=
  if fc_lookup c then true
  else VerifyTimestamp (mc_variance (fc_micro c)) (mc_timeout (fc_micro c)) (bb_timestamp (txb_base b)) (mc_timeout (fc_micro c)) clock.

Definition CheckLegitimacyOfMicroBlocks c d (b : TxBlock) : bool * Node :=
  if fc_lookup c then (true, d)
  else
    let blocks := blocks_at d (fc_epoch c) in
    let t := totals_of blocks in
    let h := txb_header b in
    if (allGasLimit t =? txh_gasLimit h) && (allGasUsed t =? txh_gasUsed h) && (allRewards t =? txh_rewards h) &&
       (numTxs t =? txh_numTxs h) && (u32 (zlen blocks) =? zlen (txb_mbInfos b))
    then (true, d) else (false, fn_set_error d FINALBLOCK_MBS_LEGITIMACY_ERROR).

(** The loop over what the final block says of each micro block; [Some] is an error
    code that is set, or not. *)
Fixpoint check_infos (blocks : list MicroBlock) (infos : list MicroBlockInfo) : option (option ConsensusErrorCode) :=
  match infos with
  | [] => None
  | i :: infos =>
      match filter (fun b => hash_of b = mbi_microBlockHash i) blocks with
      | [] => check_infos blocks infos
      | b :: _ =>
          if negb (bool_decide (mbi_txnRootHash i = mbh_txRootHash (mb_header b))) then Some (Some FINALBLOCK_MICROBLOCK_TXNROOT_ERROR)
          else if negb (mbi_shardId i =? shard_of b) then Some None
          else check_infos blocks infos
      end
  end.

Definition CheckMicroBlockInfo c d (b : TxBlock) : bool * Node :=
  if fc_lookup c then (true, d)
  else
    match check_infos (blocks_at d (fc_epoch c)) (txb_mbInfos b) with
    | Some (Some e) => (false, fn_set_error d e)
    | Some None => (false, d)
    | None => (bool_decide (GetMbInfoHash (txb_mbInfos b) = txh_mbInfoHash (txb_header b)), d)
    end.

Definition CheckStateRoot c d (b : TxBlock) : bool * Node :=
  if fc_lookup c then (true, d)
  else if negb (bool_decide (GetStateRootHash (fn_store d) = txh_stateRootHash (txb_header b)))
  then (false, fn_set_error d INVALID_FINALBLOCK_STATE_ROOT)
  else (true, d).

Definition CheckStateDeltaHash c d (b : TxBlock) : bool * Node :=
  if fc_lookup c then (true, d)
  else if negb (bool_decide (hash_bytes (GetStateDeltaHash (fn_store d)) = txh_stateDeltaHash (txb_header b)))
  then (false, fn_set_error d INVALID_FINALBLOCK_STATE_DELTA_HASH)
  else (true, d).

Definition CheckFinalBlockValidity c d (b : TxBlock) (errorMsg : bytes) (clock : Z * Z * Z) : outcome (bool * bytes * Node) :=
  if fc_lookup c then Ret (true, errorMsg, d)
  else if negb (CheckBlockHash c b) then Ret (false, errorMsg, d)
  else
    let '(ok, d) := CheckFinalBlockVersion c d b in
    if negb ok then Ret (false, errorMsg, d)
    else if negb (CheckFinalBlockNumber c b) then Ret (false, errorMsg, d)
    else
      let '(ok, d) := CheckPreviousFinalBlockHash c d b in
      if negb ok then Ret (false, errorMsg, d)
      else if negb (CheckFinalBlockTimestamp c b clock) then Ret (false, errorMsg, d)
      else
        '(ok, errorMsg, d) ← CheckMicroBlocks c d errorMsg false true;
        if negb (ok : bool) then Ret (false, errorMsg, d)
        else
          let '(ok, d) := CheckLegitimacyOfMicroBlocks c d b in
          if negb ok then Ret (false, errorMsg, d)
          else
            let '(ok, d) := CheckMicroBlockInfo c d b in
            if negb ok then Ret (false, errorMsg, d)
            else
              let '(ok, d) := CheckStateRoot c d b in
              if negb ok then Ret (false, errorMsg, d)
              else let '(ok, d) := CheckStateDeltaHash c d b in Ret (ok, errorMsg, d).

(** [DirectoryService::CheckMicroBlockValidity], of the micro block of the committee. *)
Definition CheckDSMicroBlock c d (b : TxBlock) (microBlock : MicroBlock) (errorMsg : bytes) (clock : Z * Z * Z)
  : outcome (bool * bytes * Node) :=
  if fc_lookup c then Ret (true, errorMsg, d)
  else
    '(ok, errorMsg, d) ←
      (if negb (bool_decide (info_of microBlock ∈ txb_mbInfos b)) then Ret (false, errorMsg, d)
       else
         '(ok, errorMsg, n) ← CheckMicroBlockValidity ACCOUNT_VERSION MAX_CODE_SIZE_IN_BYTES (micro_of c d) (fn_node d) microBlock errorMsg clock;
         Ret (ok, errorMsg, fn_set_node d n));
    if negb (ok : bool) then Ret (false, errorMsg, fn_set_microblock d None)
    else d ← add_block d (fc_epoch c) microBlock; Ret (true, errorMsg, d).

(** [FINALCONSENSUSERRORTYPE] *)
Definition CHECKMICROBLOCK : Z := 0.
Definition DSMBMISSINGTXN : Z := 1.
Definition CHECKFINALBLOCK : Z := 2.
Definition DSFBMISSINGMB : Z := 3.

(** [announced]: the final block and the committee's micro block, if there is one, that
    [GetDSFinalBlockAnnouncement] reads; the two clocks are read in turn. *)
Definition FinalBlockValidator c d (announced : option (TxBlock * option MicroBlock)) (errorMsg : bytes) (clock1 clock2 : Z * Z * Z)
  : outcome (bool * bytes * Node) :=
  if fc_lookup c then Ret (true, errorMsg, d)
  else
    match announced with
    | None => Ret (false, errorMsg, fn_set_microblock (fn_set_final d (Some TxBlock_default)) None)
    | Some (b, microBlock) =>
        let d := fn_set_microblock (fn_set_final d (Some b)) microBlock in
        '(have_all, _, d) ← CheckMicroBlocks c d [] true false;
        '(ok, errorMsg, d) ←
          (if have_all : bool then
             match microBlock with
             | None => Ret (true, errorMsg, d)
             | Some mb =>
                 '(ok, errorMsg, d) ← CheckDSMicroBlock c d b mb errorMsg clock1;
                 if negb (ok : bool) then
                   if bool_decide (mn_errorCode (fn_node d) = Some MISSING_TXN) then Ret (false, DSMBMISSINGTXN :: errorMsg, d)
                   else Ret (false, CHECKMICROBLOCK :: errorMsg, fn_set_error d INVALID_DS_MICROBLOCK)
                 else
                   '(_, s) ← SerializeDelta ACCOUNT_VERSION (fn_store d);
                   s ← CommitTempRevertible ACCOUNT_VERSION MAX_CODE_SIZE_IN_BYTES s;
                   Ret (true, errorMsg, fn_set_store d s)
             end
           else
             let d := fn_set_microblock d None in
             '(_, s) ← DeserializeDeltaTemp ACCOUNT_VERSION MAX_CODE_SIZE_IN_BYTES (InitTemp (fn_store d)) (m_stateDeltaFromShards d) 0;
             '(_, s) ← SerializeDelta ACCOUNT_VERSION s;
             Ret (true, errorMsg, fn_set_store d s));
        if negb (ok : bool) then Ret (false, errorMsg, d)
        else
          '(ok, errorMsg, d) ← CheckFinalBlockValidity c d b errorMsg clock2;
          if negb (ok : bool) then
            Ret (false, (if bool_decide (mn_errorCode (fn_node d) = Some FINALBLOCK_MISSING_MICROBLOCKS) then DSFBMISSINGMB else CHECKFINALBLOCK) :: errorMsg, d)
          else Ret (true, errorMsg, d)
    end.

(** ** When the consensus fails *)

(** The blocks that the leader sends to a backup that misses them, with their deltas.
    The block is looked at before it is known to be found: the end of the set is
    dereferenced. *)
Fixpoint OnNodeMissingMicroBlocks c d (missing : list bytes) (epochNum : Z) : outcome (list (MicroBlock * bytes)) :=
  match missing with
  | [] => Ret []
  | hash :: missing =>
      match filter (fun b => hash_of b = hash) (blocks_at d epochNum) with
      | [] => Fault Undefined
      | b :: _ =>
          rest ← OnNodeMissingMicroBlocks c d missing epochNum;
          if shard_of b =? zlen (fc_shards c) then Ret rest
          else Ret ((b, default [] (default ∅ (m_microBlockStateDeltas d !! epochNum) !! hash_of b)) :: rest)
      end
  end.

(** The first block of the committee itself is taken out of the set. *)
Fixpoint remove_ds (n : Z) (blocks : list MicroBlock) : list MicroBlock :=
  match blocks with
  | [] => []
  | b :: blocks => if shard_of b =? n then blocks else b :: remove_ds n blocks
  end.

Definition RemoveDSMicroBlock c d : outcome Node :=
  let blocks := remove_ds (zlen (fc_shards c)) (blocks_at d (fc_epoch c)) in
  let d := fn_set_microblock (fn_set_blocks d (<[fc_epoch c := blocks]> (m_microBlocks d))) None in
  '(_, s) ← DeserializeDeltaTemp ACCOUNT_VERSION MAX_CODE_SIZE_IN_BYTES (InitTemp (RevertCommitTemp (fn_store d))) (m_stateDeltaFromShards d) 0;
  '(_, s) ← SerializeDelta ACCOUNT_VERSION s;
  Ret (fn_set_store d s).

End final.
