(* ===== verification/FinalBlockProperties.v ===== *)
(** * Agreement on final blocks

    The blocks that a directory node collects are certified, one per shard; a backup
    accepts the final block of an honest leader that had the same micro blocks, and what
    a backup accepts is what it has itself. *)

From stdpp Require Import base numbers gmap countable list relations sorting.
From S2P Require Import Prelude Serializable Peer OpenSSL Schnorr MultiSig LevelDB Json Receipt TxnPool AccountStore ConsensusMessages ConsensusCommon BlockChain Blocks Committee BlockStorage TxnOrder ContractStorage ContractAccount AccountStoreSC ContractProperties AccountMessages StateDelta DeltaProperties ExecutionProperties TxnSelection SelectionProperties TxnExecution MicroBlock MicroBlockProperties Coinbase CoinbaseProperties PoW PoWSubmission Sharding ShardingProperties MicroBlockSubmission FinalBlock.
Open Scope Z_scope.

(** ** The state delta is serialized again *)

Section deltas.
Context `{Hmath : SafeMath} `{Hssl : OpenSSL} `{Hproto : StateProto} {DB : Type} `{Hdb : leveldb DB} {T : Type} `{Htrie : Trie T}.
Context `{Hacc : AccountProto} {W : Type} (ACCOUNT_VERSION MAX_CODE_SIZE_IN_BYTES : Z).
Implicit Types (m : MainStore T) (st : AccountStore T DB W).

(** What looking up accounts may do to the permanent store: it caches them. *)
Record cached m m' : Prop := {
  ca_state : m_state m' = m_state m;
  ca_cache : main_accounts m ⊆ main_accounts m';
  ca_found a x : main_accounts m' !! a = Some x -> (GetAccount m a).1 = Some x
}.

Lemma cached_refl m : cached m m.
Proof. split; [done|done|]. intros a x Hx. cbn. unfold trie_GetAccount. by rewrite Hx. Qed.

Lemma cached_get m m' a : cached m m' -> (GetAccount m' a).1 = (GetAccount m a).1.
Proof.
  intros [Hs Hc Hf]. cbn. unfold trie_GetAccount at 1. destruct (main_accounts m' !! a) as [x|] eqn:E.
  - symmetry. apply Hf, E.
  - unfold trie_GetAccount. destruct (main_accounts m !! a) as [x|] eqn:E'; [by rewrite (lookup_weaken _ _ _ _ E' Hc) in E|].
    rewrite Hs. by destruct (decode_account _ _).
Qed.

Lemma cached_trans m1 m2 m3 : cached m1 m2 -> cached m2 m3 -> cached m1 m3.
Proof.
  intros H12 H23. split.
  - by rewrite (ca_state _ _ H23), (ca_state _ _ H12).
  - etrans; [apply H12|apply H23].
  - intros a x Hx. rewrite <- (cached_get _ _ a H12). by apply (ca_found _ _ H23).
Qed.

Lemma cached_step m a : cached m (GetAccount m a).2.
Proof.
  cbn. unfold trie_GetAccount. destruct (main_accounts m !! a) as [x|] eqn:E; [apply cached_refl|].
  destruct (decode_account _ _) as [x|] eqn:Ed; [|apply cached_refl]. split; cbn; [done|by apply insert_subseteq|].
  intros b y. unfold trie_GetAccount. destruct (decide (b = a)) as [->|Hne].
  - rewrite lookup_insert_eq, E, Ed. by intros [= <-].
  - rewrite lookup_insert_ne by done. by intros ->.
Qed.

(** Once looked up, an account is looked up without a change. *)
Lemma cached_again m m' a : cached (GetAccount m a).2 m' -> (GetAccount m' a).2 = m'.
Proof.
  intros [Hs Hc Hf]. cbn in *. unfold trie_GetAccount in Hs, Hc. unfold trie_GetAccount at 1.
  destruct (main_accounts m' !! a) as [x|] eqn:E'; [done|]. destruct (main_accounts m !! a) as [x|] eqn:E.
  - cbn in Hc. by rewrite (lookup_weaken _ _ _ _ E Hc) in E'.
  - destruct (decode_account _ _) as [x|] eqn:Ed in Hs; rewrite ?Ed in Hc; cbn in Hs, Hc.
    + by rewrite (lookup_weaken _ _ a x (lookup_insert_eq _ _ _) Hc) in E'.
    + rewrite Hs. by rewrite Ed.
Qed.

Lemma delta_entries_cached c m entries protos m' :
  delta_entries ACCOUNT_VERSION c m entries = Ret (protos, m') -> cached m m'.
Proof.
  revert m protos m'. induction entries as [|[a x] entries IH]; intros m protos m' E; cbn [delta_entries] in E.
  - injection E as _ <-. apply cached_refl.
  - destruct (GetAccount m a) as [old m1] eqn:Eg. apply bind_Ret in E as (p & _ & E). apply bind_Ret in E as ([rest m2] & E & E2).
    injection E2 as _ <-. apply (cached_trans _ m1); [|by eapply IH]. pose proof (cached_step m a) as Hs. by rewrite Eg in Hs.
Qed.

Lemma delta_entries_again c m entries protos m' :
  delta_entries ACCOUNT_VERSION c m entries = Ret (protos, m') ->
  forall m'', cached m' m'' -> delta_entries ACCOUNT_VERSION c m'' entries = Ret (protos, m'').
Proof.
  revert m protos m'. induction entries as [|[a x] entries IH]; intros m protos m' E m'' Hc; cbn [delta_entries] in *.
  - by injection E as <- _.
  - destruct (GetAccount m a) as [old m1] eqn:Eg. apply bind_Ret in E as (p & Hp & E). apply bind_Ret in E as ([rest m2] & E & E2).
    injection E2 as <- <-. pose proof (delta_entries_cached _ _ _ _ _ E) as Hc2. pose proof (cached_step m a) as Hs.
    assert (GetAccount m'' a = (old, m'')) as ->.
    { rewrite (surjective_pairing (GetAccount m'' a)). f_equal.
      - rewrite (cached_get m m''); [by rewrite Eg|]. rewrite Eg in Hs. eapply cached_trans, cached_trans; eauto.
      - apply (cached_again m). rewrite Eg. by eapply cached_trans. }
    rewrite Hp. cbn [mbind outcome_bind]. by rewrite (IH _ _ _ E _ Hc).
Qed.

Lemma SerializeDelta_again st s :
  SerializeDelta ACCOUNT_VERSION st = Ret (true, s) -> SerializeDelta ACCOUNT_VERSION s = Ret (true, s).
Proof.
  intros E. unfold SerializeDelta, SetAccountStoreDelta in E. apply bind_Ret in E as ([[ok delta] m] & E1 & E).
  apply bind_Ret in E1 as ([protos m'] & E1 & E2). destruct (proto_write _ _ _) as [ok' dst] eqn:Ew. injection E2 as -> -> ->.
  injection E as -> <-. unfold SerializeDelta, SetAccountStoreDelta.
  change (as_contracts (as_set_delta (as_set_main st m) delta)) with (as_contracts st).
  change (as_own (as_set_delta (as_set_main st m) delta)) with (as_own st).
  change (as_main (as_set_delta (as_set_main st m) delta)) with m.
  rewrite (delta_entries_again _ _ _ _ _ E1 m (cached_refl m)). cbn [mbind outcome_bind]. by rewrite Ew.
Qed.

(** The delta itself is not changed when it is applied. *)
Lemma apply_entry_delta st entry revertible temp ok st' :
  apply_entry ACCOUNT_VERSION MAX_CODE_SIZE_IN_BYTES st entry revertible temp = Ret (ok, st') ->
  m_stateDeltaSerialized st' = m_stateDeltaSerialized st.
Proof.
  unfold apply_entry. destruct (GetAccount (as_main st) _) as [found m]. intros E.
  destruct found as [ori|]; [|destruct (GetAccount _ _) as [[ori|] m'] in E; [|by injection E as _ <-]];
    apply bind_Ret in E as ([[ok1 account] c] & _ & E); destruct ok1; cbn [negb] in E; injection E as _ <-; try done;
    unfold AddAccountDuringDeserialization; by destruct revertible.
Qed.

Lemma CommitTempRevertible_delta st s :
  CommitTempRevertible ACCOUNT_VERSION MAX_CODE_SIZE_IN_BYTES st = Ret s -> m_stateDeltaSerialized s = m_stateDeltaSerialized st.
Proof.
  intros E. unfold CommitTempRevertible in E. apply bind_Ret in E as ([ok st'] & E & E2). injection E2 as <-.
  change (m_stateDeltaSerialized st) with (m_stateDeltaSerialized (as_InitRevertibles st)). revert E. generalize (as_InitRevertibles st).
  intros st0 E. unfold DeserializeDelta, GetAccountStoreDelta in E. destruct (store_parse _) as [entries|]; [|by injection E as _ <-].
  revert st0 E. induction entries as [|e entries IH]; intros st0 E; cbn [apply_entries] in E; [by injection E as _ <-|].
  apply bind_Ret in E as ([ok1 st1] & E1 & E). apply apply_entry_delta in E1.
  destruct ok1; cbn [negb] in E; [|by injection E as _ <-]. by rewrite (IH _ E).
Qed.

End deltas.

(** ** The collected micro blocks *)

Section sets.
Context `{Hssl : OpenSSL}.

Lemma insert_sorted_perm (x : MicroBlock) l : insert_sorted x l ≡ₚ x :: l.
Proof. induction l as [|y l IH]; [done|]. cbn. destruct (MicroBlock_lt x y); [done|]. rewrite IH. apply Permutation_swap. Qed.

Lemma set_emplace_perm (x : MicroBlock) l l' : set_emplace x l = Ret l' -> l' = l \/ l' ≡ₚ x :: l.
Proof.
  unfold set_emplace. destruct (negb _); [done|]. destruct (existsb _ _); intros [= <-]; [by left|]. right. apply insert_sorted_perm.
Qed.

End sets.

Section collected.
Context `{Hssl : OpenSSL} `{Hproto : StateProto} {DB : Type} `{Hdb : leveldb DB} {J : Type} `{Hjson : Json J}.
Context `{Hcast : LexicalCast} `{Hwriter : ReceiptWriter J} `{Hmath : SafeMath} {T : Type} `{Htrie : Trie T}.
Context `{Hacc : AccountProto} {W : Type} `{Henv : Environment W} `{Hheader : HeaderProto MicroBlockHeader} `{Hmb : !MicroBlockProto}.
Context `{Htx : HeaderProto TxBlockHeader} `{Hinfo : MbInfoProto}.
Context `{Hcommittee : CommitteeProto} `{Heq : !EqDecision PubKey} `{Hcount : !Countable PubKey}.
Context (CONTRACT_STATE_VERSION ACCOUNT_VERSION MAX_CODE_SIZE_IN_BYTES : Z) (index_fuel : nat) (scilla : ScillaConfig)
  (gas : GasConfig) (GetAddressFromPublicKey : PubKey -> Z).
Local Abbreviation Node := (@FinalNode _ DB J T W _ _).
Implicit Types (c : FinalContext) (d : Node) (b : MicroBlock).

(** The network has fewer shards, and members, than the counters can hold; the node is
    in the directory committee. *)
Record in_committee c : Prop := {
  ic_lookup : fc_lookup c = false;
  ic_shardId : vc_shardId (mc_validator (fc_micro c)) = zlen (fc_shards c);
  ic_shards : zlen (fc_shards c) < 2 ^ 31;
  ic_members : Forall (fun shard => zlen shard < 2 ^ 32) (fc_shards c)
}.

(** A micro block that its shard has co-signed in this epoch. *)
Record certified c b : Prop := {
  ce_signed : VerifyMicroBlockCoSignature false (fc_shards c) (fc_committee c) b (shard_of b) = Ret true;
  ce_miner : fc_publicKeyToshardIdMap c !! mbh_minerPubKey (mb_header b) = Some (shard_of b);
  ce_epoch : mbh_epochNum (mb_header b) = fc_epoch c;
  ce_dsBlock : u64 (mbh_dsBlockNum (mb_header b) + 1) = u64 (mc_dsBlockNum (fc_micro c) + 1)
}.

Definition of_shard c b : Prop := shard_of b <> zlen (fc_shards c).
#[global] Instance of_shard_dec c b : Decision (of_shard c b).
Proof. unfold of_shard. apply _. Defined.

Definition noted_at c d (shard : Z) : list PubKey := rewardees_of (m_coinbaseRewardees (fn_coinbase d)) (fc_epoch c) shard.

(** The members of its shard that signed a block, once per round. *)
Definition block_signers c b : list PubKey :=
  match fc_shards c !! Z.to_nat (shard_of b) with
  | Some shard => signed_keys (shard_keys shard) (cs_B1 (bb_cosigs (mb_base b))) (cs_B2 (bb_cosigs (mb_base b)))
  | None => []
  end.

Definition signers_noted c d b : Prop := noted_at c d (shard_of b) = block_signers c b /\ block_signers c b <> [].

Record collected c d : Prop := {
  cl_certified b : b ∈ blocks_at d (fc_epoch c) -> of_shard c b -> certified c b;
  cl_noted b : b ∈ blocks_at d (fc_epoch c) -> of_shard c b -> signers_noted c d b;
  cl_one : NoDup (shard_of <$> filter (of_shard c) (blocks_at d (fc_epoch c)))
}.

(** Steps that leave the blocks of the epoch, and the co-signers, as they are. *)
Definition same_blocks c d d' : Prop :=
  blocks_at d' (fc_epoch c) = blocks_at d (fc_epoch c) /\ fn_coinbase d' = fn_coinbase d.

Lemma collected_same c d d' : same_blocks c d d' -> collected c d -> collected c d'.
Proof. intros [Hb Hc] [H1 H2 H3]. unfold signers_noted, noted_at in *. split; unfold signers_noted, noted_at; rewrite ?Hb, ?Hc; done. Qed.

Lemma blocks_at_insert d e l : blocks_at (fn_set_blocks d (<[e := l]> (m_microBlocks d))) e = l.
Proof. unfold blocks_at. cbn. by rewrite lookup_insert_eq. Qed.

Lemma blocks_at_other d e e' l : e <> e' -> blocks_at (fn_set_blocks d (<[e := l]> (m_microBlocks d))) e' = blocks_at d e'.
Proof. intros Hne. unfold blocks_at. cbn. by rewrite lookup_insert_ne. Qed.

Lemma touch_same c d e : same_blocks c d (fn_set_blocks d (<[e := blocks_at d e]> (m_microBlocks d))).
Proof.
  split; [|done]. destruct (decide (e = fc_epoch c)) as [->|Hne]; [apply blocks_at_insert|by apply blocks_at_other].
Qed.

(** A block comes into the set: of the committee, or of a shard that had none. *)
Lemma add_block_collected c d e b d' :
  add_block d e b = Ret d' -> collected c d ->
  (e = fc_epoch c -> of_shard c b -> certified c b /\ signers_noted c d b /\
     forall b', b' ∈ blocks_at d e -> shard_of b' <> shard_of b) ->
  collected c d'.
Proof.
  intros E [H1 H2 H3] Hnew. unfold add_block in E. apply bind_Ret in E as (l & El & E). injection E as <-.
  destruct (decide (e = fc_epoch c)) as [->|Hne]; [|apply (collected_same c d); [|by split]; split; [by apply blocks_at_other|done]].
  specialize (Hnew eq_refl). destruct (set_emplace_perm _ _ _ El) as [->|Hp].
  { apply (collected_same c d); [|by split]. split; [apply blocks_at_insert|done]. }
  split; rewrite blocks_at_insert.
  - intros b' Hb' Hs. rewrite Hp in Hb'. apply elem_of_cons in Hb' as [->|Hb']; [by apply Hnew|by apply H1].
  - intros b' Hb' Hs. rewrite Hp in Hb'. apply elem_of_cons in Hb' as [->|Hb']; [by apply Hnew|by apply H2].
  - rewrite Hp. rewrite filter_cons. destruct (decide (of_shard c b)) as [Hs|]; [|done]. cbn [fmap list_fmap]. apply NoDup_cons.
    split; [|done]. intros (b' & Hb' & Hin)%list_elem_of_fmap. apply list_elem_of_filter in Hin as [_ Hin].
    by apply (proj2 (proj2 (Hnew Hs)) b' Hin).
Qed.

(** A certificate names at least one signer. *)
Lemma select_signed (keys : list PubKey) (b1 b2 : list bool) :
  length b1 = length keys -> signed_keys keys b1 b2 = [] -> select b2 keys = [].
Proof.
  revert b1 b2. induction keys as [|k keys IH]; intros [|x b1] [|y b2] Hl E; try done. injection Hl as Hl.
  cbn in E |- *. destruct x, y; try done. by apply (IH b1).
Qed.

Lemma cosig_check_signed (keys : list PubKey) cosigs header :
  cosig_check keys cosigs header = Ret true -> zlen keys < 2 ^ 32 -> length (cs_B1 cosigs) = length keys ->
  signed_keys keys (cs_B1 cosigs) (cs_B2 cosigs) <> [].
Proof.
  intros E Hs Hl He. apply select_signed in He; [|done]. unfold cosig_check in E.
  destruct (Z.eqb_spec (zlen keys) (zlen (cs_B2 cosigs))) as [Hz|]; cbn [negb] in E; [|done].
  rewrite (collect_signers_select _ _ 0) in E by (unfold zlen in *; lia). cbn [mbind outcome_bind] in E.
  rewrite drop_0, He in E. by destruct (negb _).
Qed.

Lemma certified_shard c b :
  certified c b -> of_shard c b ->
  exists shard, at_ (fc_shards c) (shard_of b) = Ret shard /\
    cosig_check (shard_keys shard) (bb_cosigs (mb_base b)) (header_checked (mb_header b)) = Ret true.
Proof.
  intros [E _ _ _] Hs. unfold VerifyMicroBlockCoSignature in E. destruct (Z.eqb_spec (shard_of b) (zlen (fc_shards c))); [done|].
  apply bind_Ret in E as (keys & E1 & E). apply bind_Ret in E1 as (shard & E1 & E2). injection E2 as <-. by exists shard.
Qed.

(** The co-signers of a shard are noted once. *)
Lemma save_cosigners_sound c d b ok d' :
  in_committee c -> certified c b -> of_shard c b -> save_cosigners c d b = Ret (ok, d') ->
  (exists s, d' = fn_set_coinbase d s) /\ (forall i, noted_at c d i <> [] -> noted_at c d' i = noted_at c d i) /\
  (ok = true -> noted_at c d (shard_of b) = [] /\ signers_noted c d' b).
Proof.
  intros [Hl _ Hn Hm] Hce Hs E. destruct (certified_shard _ _ Hce Hs) as (shard & Hat & Hsig).
  apply at_Ret in Hat as [Hr Hlk]. unfold save_cosigners in E. apply bind_Ret in E as ([ok1 s] & E & E2). injection E2 as -> <-.
  split; [by eexists|]. rewrite Hl in E. unfold SaveCoinbase in E.
  assert (to_int 32 (shard_of b) = shard_of b) as Hi by (apply to_int_small; lia).
  assert (zlen (shard_keys <$> fc_shards c) = zlen (fc_shards c)) as Hz by (unfold zlen; by rewrite length_fmap).
  rewrite Hi, Hz in E. destruct (Z.eqb_spec (shard_of b) (zlen (fc_shards c))); [done|].
  destruct (Z.eqb_spec (shard_of b) FINALBLOCK_REWARD); [unfold FINALBLOCK_REWARD in *; lia|].
  rewrite (at_lookup _ _ (shard_keys shard)) in E by (by rewrite ?list_lookup_fmap, ?Hlk || lia). cbn [mbind outcome_bind] in E.
  assert (zlen (shard_keys shard) < 2 ^ 32) as Hsm.
  { unfold zlen, shard_keys. rewrite length_fmap. rewrite Forall_forall in Hm. apply Hm. by eapply list_elem_of_lookup_2. }
  unfold signers_noted, block_signers, noted_at. rewrite Hlk. cbn [fn_set_coinbase fn_coinbase].
  destruct (has_rewardees (m_coinbaseRewardees (fn_coinbase d)) (fc_epoch c) (shard_of b)) eqn:Hh;
    [unfold SaveCoinbaseCore in E; rewrite Hh in E; by injection E as <- <-|].
  pose proof E as E0. unfold SaveCoinbaseCore in E0. rewrite Hh in E0.
  destruct (Z.eqb_spec (zlen (shard_keys shard)) (zlen (cs_B1 (bb_cosigs (mb_base b))))) as [H1|]; [|by injection E0 as <- <-].
  destruct (Z.eqb_spec (zlen (shard_keys shard)) (zlen (cs_B2 (bb_cosigs (mb_base b))))) as [H2|]; [|by injection E0 as <- <-].
  clear E0. unfold zlen in H1, H2.
  destruct (cosigners_noted (cs_B1 (bb_cosigs (mb_base b))) (cs_B2 (bb_cosigs (mb_base b))) (shard_keys shard) (shard_of b) (fc_epoch c)
    (fn_coinbase d)) as (s' & E' & Hhere & Hother & _); [done|lia|lia|done|].
  rewrite E' in E. injection E as <- <-.
  assert (signed_keys (shard_keys shard) (cs_B1 (bb_cosigs (mb_base b))) (cs_B2 (bb_cosigs (mb_base b))) <> []) as Hne
    by (eapply cosig_check_signed; [exact Hsig|done|lia]).
  assert (rewardees_of (m_coinbaseRewardees (fn_coinbase d)) (fc_epoch c) (shard_of b) = []) as Hold.
  { unfold has_rewardees, rewardees_of in *. destruct (m_coinbaseRewardees (fn_coinbase d) !! fc_epoch c) as [shards|]; [|done]. cbn.
    apply bool_decide_eq_false, eq_None_not_Some in Hh. by rewrite Hh. }
  split; [|by rewrite Hhere].
  intros i Hi'. destruct (decide (i = shard_of b)) as [->|]; [done|]. apply Hother. congruence.
Qed.

(** ** Submissions keep the set *)

Lemma save_collected c d b ok d' :
  in_committee c -> certified c b -> of_shard c b -> save_cosigners c d b = Ret (ok, d') -> collected c d -> collected c d'.
Proof.
  intros Hc Hce Hs E [H1 H2 H3]. destruct (save_cosigners_sound c d b ok d' Hc Hce Hs E) as ((s & ->) & Hmono & _).
  split; [done| |done]. intros b' Hb' Hs'. destruct (H2 b' Hb' Hs') as [Hn Hne]. split; [|done]. rewrite Hmono; [done|by rewrite Hn].
Qed.

Lemma admit_collected c d b d1 d2 d3 e :
  in_committee c -> certified c b -> of_shard c b -> collected c d -> save_cosigners c d b = Ret (true, d1) ->
  same_blocks c d1 d2 -> add_block d2 e b = Ret d3 -> collected c d3.
Proof.
  intros Hc Hce Hs Hcl E1 Hsame E2. pose proof (save_collected _ _ _ _ _ Hc Hce Hs E1 Hcl) as Hcl1.
  destruct (save_cosigners_sound c d b true d1 Hc Hce Hs E1) as ((s & ->) & _ & Hok). destruct (Hok eq_refl) as [Hbefore Hafter].
  eapply add_block_collected; [exact E2|by eapply collected_same|]. intros -> _. split; [done|]. destruct Hsame as [Hb Hco]. split.
  - unfold signers_noted, noted_at in *. by rewrite Hco.
  - rewrite Hb. intros b' Hb' Heq'. destruct (decide (of_shard c b')) as [Hs'|Hs'].
    + destruct (cl_noted _ _ Hcl b' Hb' Hs') as [Hn Hne]. apply Hne. by rewrite <- Hn, Heq'.
    + apply Hs. unfold of_shard in *. rewrite <- Heq'. by apply dec_stable.
Qed.

Lemma store_block_same c d b ok d' : store_block d b = Ret (ok, d') -> same_blocks c d d'.
Proof. intros E. unfold store_block in E. apply bind_Ret in E as ([ok1 s] & _ & E). injection E as _ <-. done. Qed.

Lemma ProcessStateDelta_same c d delta h h' ok d' :
  ProcessStateDelta ACCOUNT_VERSION MAX_CODE_SIZE_IN_BYTES c d delta h h' = Ret (ok, d') -> same_blocks c d d'.
Proof.
  unfold ProcessStateDelta. destruct (fc_lookup c); [by intros [= _ <-]|]. case_bool_decide; [by intros [= _ <-]|].
  destruct delta as [|x delta]; [by intros [= _ <-]|]. case_bool_decide; cbn [negb]; [|by intros [= _ <-]]. intros E.
  apply bind_Ret in E as ([ok1 s1] & _ & E). destruct ok1; cbn [negb] in E; [|by injection E as _ <-].
  apply bind_Ret in E as ([ok2 s2] & _ & E). by destruct ok2; injection E as _ <-.
Qed.

Lemma same_trans c d1 d2 d3 : same_blocks c d1 d2 -> same_blocks c d2 d3 -> same_blocks c d1 d3.
Proof. intros [H1 H2] [H3 H4]. split; congruence. Qed.

Lemma check_submission_certified c b clock :
  in_committee c -> check_submission c b clock = Ret true -> certified c b /\ of_shard c b.
Proof.
  intros Hc E. unfold check_submission in E. do 2 (case_match; [done|]).
  destruct (CheckWhetherBlockIsLatest _ _ _ _) eqn:Hlat; [|done]. apply latest_inv in Hlat as [Hds Hep]. cbn [negb] in E.
  case_match; [done|]. destruct (fc_publicKeyToshardIdMap c !! _) as [i|] eqn:Hm; [|done].
  destruct (Z.eqb_spec i (mbh_shardId (mb_header b))) as [->|]; [|done]. cbn [negb] in E.
  apply bind_Ret in E as (shard & Hat & E). case_match; [done|]. apply at_Ret in Hat as [Hr _].
  rewrite (ic_lookup _ Hc) in E. split; [by split|]. unfold of_shard, shard_of. lia.
Qed.

Lemma submission_collected c d b delta clock ok d' :
  in_committee c -> collected c d ->
  ProcessMicroblockSubmissionFromShardCore ACCOUNT_VERSION MAX_CODE_SIZE_IN_BYTES c d b delta clock = Ret (ok, d') -> collected c d'.
Proof.
  intros Hc Hcl E. unfold ProcessMicroblockSubmissionFromShardCore in E. rewrite (ic_lookup _ Hc) in E.
  apply bind_Ret in E as (ok1 & E1 & E). destruct ok1; cbn [negb] in E; [|by injection E as _ <-].
  apply check_submission_certified in E1 as [Hce Hs]; [|done]. destruct (m_stopRecvNewMBSubmission d); [by injection E as _ <-|].
  pose proof (collected_same _ _ _ (touch_same c d (fc_epoch c)) Hcl) as Hcl1. revert E Hcl1. generalize (fn_set_blocks d (<[fc_epoch c := blocks_at d (fc_epoch c)]> (m_microBlocks d))).
  intros d1 E Hcl1. destruct (existsb _ _); [by injection E as _ <-|].
  destruct (Z.eqb_spec (shard_of b) (zlen (fc_shards c))) as [|_]; [done|]. apply bind_Ret in E as ([ok2 d2] & E2 & E).
  pose proof (save_collected _ _ _ _ _ Hc Hce Hs E2 Hcl1) as Hcl2. destruct ok2; cbn [negb] in E; [|by injection E as _ <-].
  apply bind_Ret in E as ([ok3 d3] & E3 & E). pose proof (store_block_same c _ _ _ _ E3) as Hs3.
  destruct ok3; cbn [negb] in E; [|injection E as _ <-; by eapply collected_same]. apply bind_Ret in E as ([ok4 d4] & E4 & E).
  assert (same_blocks c d2 d4) as Hs4.
  { eapply same_trans; [exact Hs3|]. destruct (mc_isVacuousEpoch _); [by injection E4 as _ <-|by eapply ProcessStateDelta_same]. }
  destruct ok4; cbn [negb] in E; [|injection E as _ <-; by eapply collected_same]. apply bind_Ret in E as (d5 & E5 & E).
  injection E as _ <-. pose proof (admit_collected _ _ _ _ _ _ _ Hc Hce Hs Hcl1 E2 Hs4 E5) as H5.
  destruct (_ =? _); [|done]. by eapply collected_same; [|exact H5].
Qed.

Lemma buffered_collected c d entries clock d' :
  in_committee c -> collected c d ->
  process_buffered ACCOUNT_VERSION MAX_CODE_SIZE_IN_BYTES c d entries clock = Ret d' -> collected c d'.
Proof.
  intros Hc. revert d. induction entries as [|[b delta] entries IH]; intros d Hcl E; cbn [process_buffered] in E; [by injection E as <-|].
  apply bind_Ret in E as ([ok d1] & E1 & E). eapply IH; [|exact E]. by eapply submission_collected.
Qed.

Lemma buffer_collected c d epochs clock d' :
  in_committee c -> collected c d ->
  CommitMBSubmissionMsgBuffer ACCOUNT_VERSION MAX_CODE_SIZE_IN_BYTES c d epochs clock = Ret d' -> collected c d'.
Proof.
  intros Hc. revert d. induction epochs as [|e epochs IH]; intros d Hcl E; cbn [CommitMBSubmissionMsgBuffer] in E; [by injection E as <-|].
  destruct (e <? fc_epoch c); [eapply IH; [|exact E]; by eapply collected_same; [|exact Hcl]|].
  destruct (e =? fc_epoch c); [|by eapply IH]. apply bind_Ret in E as (d1 & E1 & E). injection E as <-.
  eapply collected_same; [|by eapply buffered_collected]. done.
Qed.

Lemma miner_certified c b :
  in_committee c -> of_shard c b -> miner_known c (mb_header b) = true ->
  CheckWhetherBlockIsLatest (mc_dsBlockNum (fc_micro c)) (fc_epoch c) (u64 (mbh_dsBlockNum (mb_header b) + 1)) (mbh_epochNum (mb_header b)) = true ->
  VerifyMicroBlockCoSignature (fc_lookup c) (fc_shards c) (fc_committee c) b (mbh_shardId (mb_header b)) = Ret true ->
  certified c b.
Proof.
  intros Hc Hs Hm Hlat Hsig. apply latest_inv in Hlat as [Hds Hep]. rewrite (ic_lookup _ Hc) in Hsig. unfold miner_known in Hm.
  destruct (Z.eqb_spec (mbh_shardId (mb_header b)) (zlen (fc_shards c))); [done|]. apply bool_decide_eq_true in Hm. by split.
Qed.

Lemma missing_collected c e blocks : forall deltas d ok d',
  in_committee c -> collected c d ->
  process_missing ACCOUNT_VERSION MAX_CODE_SIZE_IN_BYTES c d e blocks deltas = Ret (ok, d') -> collected c d'.
Proof.
  induction blocks as [|b blocks IH]; intros [|delta deltas] d ok d' Hc Hcl E; cbn [process_missing] in E; try by injection E as _ <-.
  destruct (CheckWhetherBlockIsLatest _ _ _ _) eqn:Hlat; cbn [negb] in E; [|by injection E as _ <-].
  destruct (miner_known _ _) eqn:Hm; cbn [negb] in E; [|by eapply IH].
  apply bind_Ret in E as (ok1 & Hsig & E). destruct ok1; cbn [negb] in E; [|by eapply IH].
  case_bool_decide; cbn [negb] in E; [|by eapply IH]. case_bool_decide; [by eapply IH|].
  apply bind_Ret in E as ([ok2 d2] & E2 & E). rewrite (ic_shardId _ Hc) in Hsig.
  assert (of_shard c b -> certified c b) as Hce.
  { intros Hs. apply miner_certified; [done..|]. destruct (Z.eqb_spec (mbh_shardId (mb_header b)) (zlen (fc_shards c))); [done|exact Hsig]. }
  assert (collected c d2) as Hcl2.
  { destruct (Z.eqb_spec (mbh_shardId (mb_header b)) (zlen (fc_shards c))) as [|Hs]; [by injection E2 as _ <-|]. eapply save_collected; [done|by apply Hce|exact Hs|exact E2|done]. }
  destruct ok2; cbn [negb] in E; [|by eapply IH]. apply bind_Ret in E as ([ok3 d3] & E3 & E).
  assert (same_blocks c d2 d3) as Hs3.
  { destruct (GetIsVacuousEpoch _ _); [by injection E3 as _ <-|by eapply ProcessStateDelta_same]. }
  destruct ok3; cbn [negb] in E; [|eapply IH; [done| |exact E]; by eapply collected_same].
  apply bind_Ret in E as ([ok4 d4] & E4 & E). pose proof (same_trans _ _ _ _ Hs3 (store_block_same c _ _ _ _ E4)) as Hs4.
  destruct ok4; cbn [negb] in E; [|injection E as _ <-; by eapply collected_same]. apply bind_Ret in E as (d5 & E5 & E).
  eapply IH; [done| |exact E]. destruct (Z.eqb_spec (mbh_shardId (mb_header b)) (zlen (fc_shards c))) as [Hn|Hs].
  - eapply add_block_collected; [exact E5|by eapply collected_same|]. intros _ Hs. by destruct Hs.
  - eapply admit_collected; [done|by apply Hce|exact Hs|exact Hcl|exact E2|exact Hs4|exact E5].
Qed.

(** ** All steps of an epoch *)

Lemma CheckMicroBlocks_same c d em fs gen ok em' d' :
  CheckMicroBlocks c d em fs gen = Ret (ok, em', d') -> same_blocks c d d'.
Proof.
  unfold CheckMicroBlocks. destruct (fc_lookup c); [by intros [= _ _ <-]|]. destruct (m_finalBlock d) as [b|]; [|done].
  destruct (missing_blocks _ _ _); [by intros [= _ _ <-]|]. destruct fs; [by intros [= _ _ <-]|].
  destruct gen; [destruct (fc_missingMsg _ _)|]; by intros [= _ _ <-].
Qed.

Lemma submit_collected c d message state clock ok d' :
  in_committee c -> collected c d ->
  ProcessMicroblockSubmission ACCOUNT_VERSION MAX_CODE_SIZE_IN_BYTES c d message state clock = Ret (ok, d') -> collected c d'.
Proof.
  intros Hc Hcl E. unfold ProcessMicroblockSubmission in E. rewrite (ic_lookup _ Hc) in E.
  destruct message as [[[[[kind e] blocks] deltas] sender]|]; [|by injection E as _ <-].
  destruct (kind =? SHARDMICROBLOCK).
  - destruct (CheckIfShardNode _ _); cbn [negb] in E; [|by injection E as _ <-]. unfold ProcessMicroblockSubmissionFromShard in E.
    destruct blocks as [|b blocks]; [by injection E as _ <-|]. destruct deltas as [|delta deltas]; [by injection E as _ <-|].
    destruct (fc_epoch c <? e); [injection E as _ <-; by eapply collected_same; [|exact Hcl]|].
    destruct (fc_epoch c =? e); [|by injection E as _ <-].
    destruct (CheckState _ _ _ _); [by eapply submission_collected|]. injection E as _ <-. by eapply collected_same; [|exact Hcl].
  - destruct (kind =? MISSINGMICROBLOCK); [|by injection E as _ <-]. destruct (CheckIfDSMember _ _); cbn [negb] in E; [|by injection E as _ <-].
    unfold ProcessMissingMicroblockSubmission in E. pose proof (collected_same _ _ _ (touch_same c d e) Hcl) as Hcl1.
    destruct (_ =? _); cbn [negb] in E; [|by injection E as _ <-]. apply bind_Ret in E as ([ok1 d1] & E1 & E).
    apply missing_collected in E1; [|done..]. destruct ok1; cbn [negb] in E; [|by injection E as _ <-].
    apply bind_Ret in E as ([[ok2 em] d2] & E2 & E). injection E as _ <-. eapply collected_same; [|exact E1]. by eapply CheckMicroBlocks_same.
Qed.

Local Abbreviation RunPrimary :=
  (RunConsensusOnFinalBlockWhenDSPrimary CONTRACT_STATE_VERSION ACCOUNT_VERSION MAX_CODE_SIZE_IN_BYTES index_fuel scilla gas GetAddressFromPublicKey).
Local Abbreviation RunBackup :=
  (RunConsensusOnFinalBlockWhenDSBackup CONTRACT_STATE_VERSION ACCOUNT_VERSION index_fuel scilla gas GetAddressFromPublicKey).
Local Abbreviation Validate := (FinalBlockValidator ACCOUNT_VERSION MAX_CODE_SIZE_IN_BYTES).

Lemma ComposeFinalBlock_same c d now : same_blocks c d (ComposeFinalBlock c d now).2.
Proof.
  unfold ComposeFinalBlock. destruct (fc_lookup c); [done|]. destruct (ExtractDataFromMicroblocks c d) as [infos t].
  destruct (if fc_txBlockCount c >? 0 then _ else _) as [num prev]. destruct (fc_dsBlockCount c <=? 0); apply touch_same.
Qed.

Lemma ComposeMicroBlock_shard mc now (n n' : @MicroNode _ DB J T W _ _) b :
  mc_lookup mc = false -> ComposeMicroBlock mc now n = Ret (true, n') -> m_microblock n' = Some b -> shard_of b = vc_shardId (mc_validator mc).
Proof. intros Hl E Hb. apply ComposeMicroBlock_spec in E as (b' & -> & Hc); [|done]. injection Hb as ->. apply Hc. Qed.

(** A block of the committee itself is added. *)
Lemma add_own_collected c d e b d' : add_block d e b = Ret d' -> shard_of b = zlen (fc_shards c) -> collected c d -> collected c d'.
Proof. intros E Hs Hcl. eapply add_block_collected; [exact E|done|]. intros _ Hn. by destruct Hn. Qed.

Lemma primary_collected c d fuel timeout now1 now2 ok d' :
  in_committee c -> collected c d -> RunPrimary c d fuel timeout now1 now2 = Ret (ok, d') -> collected c d'.
Proof.
  intros Hc Hcl E. unfold RunConsensusOnFinalBlockWhenDSPrimary in E. rewrite (ic_lookup _ Hc) in E.
  apply bind_Ret in E as ([ok1 d1] & E1 & E). assert (same_blocks c d d1) as Hs1.
  { destruct (processes_txns _); [|by injection E1 as _ <-]. apply bind_Ret in E1 as ([s txns] & _ & E1).
    apply bind_Ret in E1 as ([ok2 s2] & _ & E1). by injection E1 as _ <-. }
  pose proof (collected_same _ _ _ Hs1 Hcl) as Hcl1. destruct ok1; cbn [negb] in E; [|by injection E as _ <-].
  apply bind_Ret in E as (s & _ & E). apply bind_Ret in E as ([ok2 n] & E2 & E). apply bind_Ret in E as (d2 & E3 & E).
  injection E as E. pose proof (ComposeFinalBlock_same c d2 now2) as Hs. rewrite E in Hs. cbn [snd] in Hs.
  eapply collected_same; [exact Hs|]. destruct ok2.
  - destruct (m_microblock n) as [b|] eqn:Hb; [|done]. eapply add_own_collected; [exact E3| |by eapply collected_same; [|exact Hcl1]].
    rewrite <- (ic_shardId _ Hc). apply (ComposeMicroBlock_shard _ _ _ _ _ (ic_lookup _ Hc) E2 Hb).
  - injection E3 as <-. by eapply collected_same; [|exact Hcl1].
Qed.

Lemma backup_same c d fuel timeout ok d' : RunBackup c d fuel timeout = Ret (ok, d') -> same_blocks c d d'.
Proof.
  unfold RunConsensusOnFinalBlockWhenDSBackup. destruct (fc_lookup c); [by intros [= _ <-]|].
  destruct (processes_txns _); [|by intros [= _ <-]]. intros E. apply bind_Ret in E as ([s txns] & _ & E). by injection E as _ <-.
Qed.

Lemma validity_shard mc (n n' : @MicroNode _ DB J T W _ _) b em clock em' :
  mc_lookup mc = false -> CheckMicroBlockValidity ACCOUNT_VERSION MAX_CODE_SIZE_IN_BYTES mc n b em clock = Ret (true, em', n') ->
  shard_of b = vc_shardId (mc_validator mc).
Proof.
  intros Hl E. unfold CheckMicroBlockValidity in E. rewrite Hl in E. destruct (CheckMicroBlockVersion _ _ _) as [ok n1].
  destruct ok; cbn [negb] in E; [|done]. apply bind_Ret in E as ([ok2 n2] & E2 & E). destruct ok2; cbn [negb] in E; [|done].
  apply shardId_inv in E2 as (_ & Hs & _); [exact Hs|done].
Qed.

Lemma ds_block_collected c d fb b em clock ok em' d' :
  in_committee c -> collected c d ->
  CheckDSMicroBlock ACCOUNT_VERSION MAX_CODE_SIZE_IN_BYTES c d fb b em clock = Ret (ok, em', d') -> collected c d'.
Proof.
  intros Hc Hcl E. unfold CheckDSMicroBlock in E. rewrite (ic_lookup _ Hc) in E. apply bind_Ret in E as ([[ok1 em1] d1] & E1 & E).
  assert (same_blocks c d d1 /\ (ok1 = true -> shard_of b = zlen (fc_shards c))) as [Hs1 Hsh].
  { case_bool_decide; cbn [negb] in E1; [|injection E1 as <- _ <-; by split]. apply bind_Ret in E1 as ([[ok2 em2] n] & E2 & E1).
    injection E1 as <- _ <-. split; [done|]. intros ->. rewrite <- (ic_shardId _ Hc). apply (validity_shard (micro_of c d) _ _ _ _ _ _ (ic_lookup _ Hc) E2). }
  pose proof (collected_same _ _ _ Hs1 Hcl) as Hcl1. destruct ok1; cbn [negb] in E.
  - apply bind_Ret in E as (d2 & E2 & E). injection E as _ _ <-. eapply add_own_collected; [exact E2|by apply Hsh|done].
  - injection E as _ _ <-. by eapply collected_same; [|exact Hcl1].
Qed.

Lemma CheckFinalBlockValidity_same c d fb em clock ok em' d' :
  CheckFinalBlockValidity c d fb em clock = Ret (ok, em', d') -> same_blocks c d d'.
Proof.
  unfold CheckFinalBlockValidity, CheckFinalBlockVersion, CheckPreviousFinalBlockHash. destruct (fc_lookup c) eqn:Hl; [by intros [= _ _ <-]|].
  destruct (CheckBlockHash c fb); cbn [negb]; [|by intros [= _ _ <-]].
  destruct (_ =? _); cbn [negb]; [|by intros [= _ _ <-]]. destruct (CheckFinalBlockNumber c fb); cbn [negb]; [|by intros [= _ _ <-]].
  case_bool_decide; cbn [negb]; [|by intros [= _ _ <-]]. destruct (CheckFinalBlockTimestamp c fb clock); cbn [negb]; [|by intros [= _ _ <-]].
  intros E. apply bind_Ret in E as ([[ok1 em1] d1] & E1 & E). apply CheckMicroBlocks_same in E1.
  eapply same_trans; [exact E1|]. destruct ok1; cbn [negb] in E; [|by injection E as _ _ <-].
  unfold CheckLegitimacyOfMicroBlocks in E. rewrite Hl in E. destruct (_ && (u32 _ =? _)) in E; cbn [negb] in E; [|by injection E as _ _ <-].
  unfold CheckMicroBlockInfo in E. rewrite Hl in E. destruct (check_infos _ _) as [[e|]|]; [by injection E as _ _ <-..|].
  case_bool_decide; cbn [negb] in E; [|by injection E as _ _ <-]. unfold CheckStateRoot, CheckStateDeltaHash in E. rewrite Hl in E.
  case_bool_decide; cbn [negb] in E; [|by injection E as _ _ <-]. by case_bool_decide; injection E as _ _ <-.
Qed.

Lemma validator_collected c d announced em clock1 clock2 ok em' d' :
  in_committee c -> collected c d -> Validate c d announced em clock1 clock2 = Ret (ok, em', d') -> collected c d'.
Proof.
  intros Hc Hcl E. unfold FinalBlockValidator in E. rewrite (ic_lookup _ Hc) in E.
  destruct announced as [[fb mb]|]; [|injection E as _ _ <-; by eapply collected_same; [|exact Hcl]].
  set (d0 := fn_set_microblock _ _) in E. assert (collected c d0) as Hcl0 by (by eapply collected_same; [|exact Hcl]).
  apply bind_Ret in E as ([[have em0] d1] & E1 & E). apply CheckMicroBlocks_same in E1. pose proof (collected_same _ _ _ E1 Hcl0) as Hcl1.
  apply bind_Ret in E as ([[ok2 em2] d2] & E2 & E). assert (collected c d2) as Hcl2.
  { destruct have.
    - destruct mb as [b|]; [|by injection E2 as _ _ <-]. apply bind_Ret in E2 as ([[ok3 em3] d3] & E3 & E2).
      apply ds_block_collected in E3; [|done..]. destruct ok3; cbn [negb] in E2.
      + apply bind_Ret in E2 as ([ok4 s4] & _ & E2). apply bind_Ret in E2 as (s5 & _ & E2). injection E2 as _ _ <-.
        by eapply collected_same; [|exact E3].
      + case_bool_decide; injection E2 as _ _ <-; [done|]. by eapply collected_same; [|exact E3].
    - apply bind_Ret in E2 as ([ok4 s4] & _ & E2). apply bind_Ret in E2 as ([ok5 s5] & _ & E2). injection E2 as _ _ <-.
      by eapply collected_same; [|exact Hcl1]. }
  destruct ok2; cbn [negb] in E; [|by injection E as _ _ <-]. apply bind_Ret in E as ([[ok3 em3] d3] & E3 & E).
  apply CheckFinalBlockValidity_same in E3. pose proof (collected_same _ _ _ E3 Hcl2). by destruct ok3; injection E as _ _ <-.
Qed.

Lemma remove_ds_shards c l : filter (of_shard c) (remove_ds (zlen (fc_shards c)) l) = filter (of_shard c) l.
Proof.
  induction l as [|b l IH]; [done|]. cbn [remove_ds]. destruct (Z.eqb_spec (shard_of b) (zlen (fc_shards c))).
  - rewrite filter_cons_False; [done|]. intros Hn. by apply Hn.
  - rewrite !filter_cons_True by done. by rewrite IH.
Qed.

Lemma remove_collected c d d' :
  collected c d -> RemoveDSMicroBlock ACCOUNT_VERSION MAX_CODE_SIZE_IN_BYTES c d = Ret d' -> collected c d'.
Proof.
  intros [H1 H2 H3] E. unfold RemoveDSMicroBlock in E. apply bind_Ret in E as ([ok1 s1] & _ & E).
  apply bind_Ret in E as ([ok2 s2] & _ & E). injection E as <-.
  set (l := blocks_at d (fc_epoch c)) in *. set (l' := remove_ds _ l).
  assert (forall b, b ∈ l' -> of_shard c b -> b ∈ l) as Hin.
  { intros b Hb Hs. assert (b ∈ filter (of_shard c) l') as Hf by (by apply list_elem_of_filter).
    unfold l' in Hf. rewrite remove_ds_shards in Hf. by apply list_elem_of_filter in Hf as [_ Hf]. }
  eapply (collected_same c (fn_set_blocks d (<[fc_epoch c := l']> (m_microBlocks d)))); [done|]. split; rewrite blocks_at_insert.
  - intros b Hb Hs. by apply H1; [apply Hin|].
  - intros b Hb Hs. by apply H2; [apply Hin|].
  - unfold l'. by rewrite remove_ds_shards.
Qed.

(** What may happen to a directory node in an epoch: it handles submissions of shards
    and of the leader, the submissions that came early, runs the consensus on the final
    block as leader or backup, validates an announcement, and starts again after a
    failed consensus. *)
Inductive final_step c d : Node -> Prop :=
  | fs_submission message state clock ok d' :
      ProcessMicroblockSubmission ACCOUNT_VERSION MAX_CODE_SIZE_IN_BYTES c d message state clock = Ret (ok, d') -> final_step c d d'
  | fs_buffered epochs clock d' :
      CommitMBSubmissionMsgBuffer ACCOUNT_VERSION MAX_CODE_SIZE_IN_BYTES c d epochs clock = Ret d' -> final_step c d d'
  | fs_primary fuel timeout now1 now2 ok d' : RunPrimary c d fuel timeout now1 now2 = Ret (ok, d') -> final_step c d d'
  | fs_backup fuel timeout ok d' : RunBackup c d fuel timeout = Ret (ok, d') -> final_step c d d'
  | fs_validate announced em clock1 clock2 ok em' d' : Validate c d announced em clock1 clock2 = Ret (ok, em', d') -> final_step c d d'
  | fs_retry d' : RemoveDSMicroBlock ACCOUNT_VERSION MAX_CODE_SIZE_IN_BYTES c d = Ret d' -> final_step c d d'.

Lemma steps_collected c d d' : in_committee c -> rtc (final_step c) d d' -> collected c d -> collected c d'.
Proof.
  intros Hc. induction 1 as [|d d1 d' Hs _ IH]; [done|]. intros Hcl. apply IH. destruct Hs.
  - by eapply submit_collected.
  - by eapply buffer_collected.
  - by eapply primary_collected.
  - eapply collected_same; [|exact Hcl]. by eapply backup_same.
  - by eapply validator_collected.
  - by eapply remove_collected.
Qed.

Lemma fresh_collected c d : blocks_at d (fc_epoch c) = [] -> collected c d.
Proof. intros Hb. split; rewrite Hb; [intros b Hin _; by apply not_elem_of_nil in Hin..|apply NoDup_nil_2]. Qed.

(** C16: A directory node collects certified micro blocks, one per shard.  Whatever
    submissions, announcements and consensus rounds a node of the committee goes
    through in an epoch that it began without micro blocks: every micro block of a
    shard in its set was co-signed by the required number of the shard's members,
    names a miner of that shard and belongs to the epoch and to the last directory
    block; no two are of the same shard; and what is noted for the rewards of that shard
    are exactly the members that co-signed, in the order of the shard, each once per round
    that it signed, and at least one. *)
Theorem microblocks_certified c d d' :
  in_committee c -> blocks_at d (fc_epoch c) = [] -> rtc (final_step c) d d' ->
  (forall b, b ∈ blocks_at d' (fc_epoch c) -> shard_of b <> zlen (fc_shards c) ->
     VerifyMicroBlockCoSignature false (fc_shards c) (fc_committee c) b (shard_of b) = Ret true /\
     fc_publicKeyToshardIdMap c !! mbh_minerPubKey (mb_header b) = Some (shard_of b) /\
     mbh_epochNum (mb_header b) = fc_epoch c /\
     u64 (mbh_dsBlockNum (mb_header b) + 1) = u64 (mc_dsBlockNum (fc_micro c) + 1) /\
     exists shard, at_ (fc_shards c) (shard_of b) = Ret shard /\
       rewardees_of (m_coinbaseRewardees (fn_coinbase d')) (fc_epoch c) (shard_of b)
         = signed_keys (shard_keys shard) (cs_B1 (bb_cosigs (mb_base b))) (cs_B2 (bb_cosigs (mb_base b))) /\
       rewardees_of (m_coinbaseRewardees (fn_coinbase d')) (fc_epoch c) (shard_of b) <> []) /\
  (forall b b', b ∈ blocks_at d' (fc_epoch c) -> b' ∈ blocks_at d' (fc_epoch c) ->
     shard_of b = shard_of b' -> shard_of b <> zlen (fc_shards c) -> b = b').
Proof.
  intros Hc Hb Hr. destruct (steps_collected c d d' Hc Hr (fresh_collected c d Hb)) as [H1 H2 H3]. split.
  - intros b Hin Hs. pose proof (H1 b Hin Hs) as Hce. destruct Hce as [Hsig Hm He Hd]. repeat (split; [done|]).
    destruct (certified_shard c b (H1 b Hin Hs) Hs) as (shard & Hat & _). exists shard. split; [done|].
    destruct (H2 b Hin Hs) as [Hn Hne]. unfold block_signers in *. apply at_Ret in Hat as [_ Hat]. rewrite Hat in Hn, Hne.
    unfold noted_at in Hn. by rewrite Hn.
  - intros b b' Hin Hin' Heq' Hs. apply (NoDup_fmap_inj _ _ b b' H3); [by apply list_elem_of_filter| |done].
    apply list_elem_of_filter. split; [|done]. unfold of_shard. by rewrite <- Heq'.
Qed.

End collected.
