(* ===== verification/FinalBlockAgreement.v ===== *)
(** * The leader and the backups of the directory committee

    What the checks of a final block decide; that an honest leader's block passes them;
    and what a block that passed them says. *)

From stdpp Require Import base numbers gmap countable list relations sorting.
From S2P Require Import Prelude Serializable Peer OpenSSL Schnorr MultiSig LevelDB Json Receipt TxnPool AccountStore ConsensusMessages ConsensusCommon BlockChain Blocks Committee BlockStorage TxnOrder ContractStorage ContractAccount AccountStoreSC ContractProperties AccountMessages StateDelta DeltaProperties ExecutionProperties TxnSelection SelectionProperties TxnExecution MicroBlock MicroBlockProperties Coinbase CoinbaseProperties PoW PoWSubmission Sharding ShardingProperties MicroBlockSubmission FinalBlock FinalBlockProperties.
Open Scope Z_scope.

Section final_agreement.
Context `{Hssl : OpenSSL} `{Hproto : StateProto} {DB : Type} `{Hdb : leveldb DB} {J : Type} `{Hjson : Json J}.
Context `{Hcast : LexicalCast} `{Hlex : !LexicalCastSpec} `{Hwriter : ReceiptWriter J} `{Hmath : SafeMath} `{Hsm : !SafeMathSpec}.
Context {T : Type} `{Htrie : Trie T} `{Htspec : !TrieSpec T} `{Hacc : AccountProto} {W : Type} `{Henv : Environment W}.
Context `{Hheader : HeaderProto MicroBlockHeader} `{Hmb : !MicroBlockProto} `{Htx : HeaderProto TxBlockHeader} `{Hinfo : MbInfoProto}.
Context `{Hcommittee : CommitteeProto} `{Heq : !EqDecision PubKey} `{Hcount : !Countable PubKey}.
Context (CONTRACT_STATE_VERSION ACCOUNT_VERSION MAX_CODE_SIZE_IN_BYTES : Z) (index_fuel : nat) (scilla : ScillaConfig)
  (gas : GasConfig) (GetAddressFromPublicKey : PubKey -> Z).
Local Abbreviation Node := (@FinalNode _ DB J T W _ _).
Implicit Types (c : FinalContext) (d : Node) (b : TxBlock).

(** ** What the checks decide *)

(** What a final block says of the micro blocks of the node. *)
Definition known_info c d (i : MicroBlockInfo) : Prop :=
  exists mb, mb ∈ blocks_at d (fc_epoch c) /\ info_of mb = i.

(** A final block that agrees with the chain, the micro blocks and the accounts of the
    node. *)
Record final_matches c d b : Prop := {
  fm_hash : GetMyHash (txb_header b) = bb_blockHash (txb_base b);
  fm_committee : hb_committeeHash (txh_base (txb_header b)) = GetDSCommitteeHash (fc_committee c);
  fm_version : hb_version (txh_base (txb_header b)) = fc_TXBLOCK_VERSION c;
  fm_dsBlock : u64 (txh_dsBlockNum (txb_header b) + 1) = u64 (mc_dsBlockNum (fc_micro c) + 1);
  fm_number : txh_blockNum (txb_header b) = fc_epoch c;
  fm_prevHash : hb_prevHash (txh_base (txb_header b)) = mc_lastTxBlockHash (fc_micro c);
  fm_shards i : i ∈ txb_mbInfos b -> mbi_shardId i <> zlen (fc_shards c) -> known_info c d i;
  fm_committee_info i mb : i ∈ txb_mbInfos b -> mb ∈ blocks_at d (fc_epoch c) -> hash_of mb = mbi_microBlockHash i -> known_info c d i;
  fm_totals : totals_of (blocks_at d (fc_epoch c)) =
    mkTotals (txh_gasLimit (txb_header b)) (txh_gasUsed (txb_header b)) (txh_rewards (txb_header b)) (txh_numTxs (txb_header b));
  fm_count : zlen (txb_mbInfos b) = u32 (zlen (blocks_at d (fc_epoch c)));
  fm_infoHash : txh_mbInfoHash (txb_header b) = GetMbInfoHash (txb_mbInfos b);
  fm_root : txh_stateRootHash (txb_header b) = GetStateRootHash (fn_store d);
  fm_delta : txh_stateDeltaHash (txb_header b) = hash_bytes (GetStateDeltaHash (fn_store d))
}.

Lemma missing_none c d infos :
  missing_blocks c d infos = [] <->
  forall i, i ∈ infos -> mbi_shardId i <> zlen (fc_shards c) -> mbi_microBlockHash i ∈ hash_of <$> blocks_at d (fc_epoch c).
Proof.
  unfold missing_blocks. split.
  - intros E%fmap_nil_inv i Hi Hs. destruct (decide (mbi_microBlockHash i ∈ hash_of <$> blocks_at d (fc_epoch c))) as [|Hn]; [done|].
    exfalso. apply (not_elem_of_nil i). rewrite <- E. by apply list_elem_of_filter.
  - intros Hall. replace (filter _ infos) with (@nil MicroBlockInfo); [done|]. symmetry.
    induction infos as [|i infos IH]; [done|]. rewrite filter_cons_False.
    + apply IH. intros i' Hi'. apply Hall. by right.
    + intros [Hs Hn]. apply Hn, Hall; [by left|done].
Qed.

Lemma check_infos_inv blocks infos :
  check_infos blocks infos = None -> forall i mb, i ∈ infos -> mb ∈ blocks -> hash_of mb = mbi_microBlockHash i ->
  exists mb', mb' ∈ blocks /\ info_of mb' = i.
Proof.
  induction infos as [|j infos IH]; intros E i mb Hi Hmb' Hh; [by apply not_elem_of_nil in Hi|]. cbn [check_infos] in E.
  destruct (filter (fun x => hash_of x = mbi_microBlockHash j) blocks) as [|mb0 l] eqn:Ef.
  - apply elem_of_cons in Hi as [->|Hi]; [|by eapply IH]. exfalso. apply (not_elem_of_nil mb). rewrite <- Ef. by apply list_elem_of_filter.
  - assert (mb0 ∈ filter (fun x => hash_of x = mbi_microBlockHash j) blocks) as H0 by (rewrite Ef; by left).
    apply list_elem_of_filter in H0 as [Hh0 H0]. case_bool_decide as Hr; cbn [negb] in E; [|done].
    destruct (Z.eqb_spec (mbi_shardId j) (shard_of mb0)) as [Hs|]; cbn [negb] in E; [|done].
    apply elem_of_cons in Hi as [->|Hi]; [|by apply (IH E i mb)]. exists mb0. split; [done|]. unfold info_of. destruct j. cbn in *. congruence.
Qed.

Lemma check_infos_own blocks infos :
  NoDup (hash_of <$> blocks) -> (forall i, i ∈ infos -> exists mb, mb ∈ blocks /\ info_of mb = i) -> check_infos blocks infos = None.
Proof.
  intros Hnd. induction infos as [|i infos IH]; intros Hall; [done|]. cbn [check_infos].
  assert (check_infos blocks infos = None) as Hrest by (apply IH; intros j Hj; apply Hall; by right).
  destruct (filter _ blocks) as [|mb0 l] eqn:Ef; [done|].
  assert (mb0 ∈ filter (fun x => hash_of x = mbi_microBlockHash i) blocks) as H0 by (rewrite Ef; by left).
  apply list_elem_of_filter in H0 as [Hh0 H0]. destruct (Hall i) as (mb & Hin & <-); [by left|].
  assert (mb0 = mb) as -> by (by apply (NoDup_fmap_inj _ _ _ _ Hnd H0 Hin)).
  cbn. rewrite bool_decide_eq_true_2, Z.eqb_refl by done. done.
Qed.

(** After the check nothing is missing. *)
Definition nothing_missing c d : Node := fn_set_missing d (<[fc_epoch c := []]> (m_missingMicroBlocks d)).

Lemma CheckMicroBlocks_true c d b em fs gen em' d' :
  fc_lookup c = false -> m_finalBlock d = Some b ->
  CheckMicroBlocks c d em fs gen = Ret (true, em', d') <->
  missing_blocks c d (txb_mbInfos b) = [] /\ em' = em /\ d' = nothing_missing c d.
Proof.
  intros Hl Hb. unfold CheckMicroBlocks. rewrite Hl, Hb. destruct (missing_blocks c d (txb_mbInfos b)) as [|h l] eqn:Hmis.
  - split; [by intros [= <- <-]|by intros (_ & -> & ->)].
  - split; [|by intros (? & _)]. destruct fs; [done|]. by destruct gen; [destruct (fc_missingMsg _ _)|].
Qed.

Lemma latest_self ds epoch ds' epoch' :
  CheckWhetherBlockIsLatest ds epoch ds' epoch' = true <-> ds' = u64 (ds + 1) /\ epoch' = epoch.
Proof.
  split; [apply latest_inv|]. intros [-> ->]. unfold CheckWhetherBlockIsLatest. by rewrite !Z.gtb_ltb, !Z.ltb_irrefl.
Qed.

Lemma CheckBlockHash_iff c b :
  fc_lookup c = false -> CheckBlockHash c b = true <->
  GetMyHash (txb_header b) = bb_blockHash (txb_base b) /\ GetDSCommitteeHash (fc_committee c) = hb_committeeHash (txh_base (txb_header b)).
Proof.
  intros Hl. unfold CheckBlockHash. rewrite Hl. case_bool_decide; cbn [negb]; [|naive_solver]. rewrite bool_decide_eq_true. naive_solver.
Qed.

Lemma CheckLegitimacy_iff c d b :
  fc_lookup c = false -> (CheckLegitimacyOfMicroBlocks c d b).1 = true <->
  totals_of (blocks_at d (fc_epoch c)) =
    mkTotals (txh_gasLimit (txb_header b)) (txh_gasUsed (txb_header b)) (txh_rewards (txb_header b)) (txh_numTxs (txb_header b)) /\
  u32 (zlen (blocks_at d (fc_epoch c))) = zlen (txb_mbInfos b).
Proof.
  intros Hl. unfold CheckLegitimacyOfMicroBlocks. rewrite Hl. destruct (totals_of _) as [gl gu r n]. cbn [allGasLimit allGasUsed allRewards numTxs].
  match goal with |- context [if ?x then _ else _] => transitivity (x = true); [by destruct x|] end.
  rewrite !andb_true_iff, !Z.eqb_eq. naive_solver.
Qed.

Lemma CheckLegitimacy_same c d b : (CheckLegitimacyOfMicroBlocks c d b).1 = true -> (CheckLegitimacyOfMicroBlocks c d b).2 = d.
Proof. unfold CheckLegitimacyOfMicroBlocks. destruct (fc_lookup c); [done|]. by destruct (_ && (u32 _ =? _)). Qed.

Lemma final_validity_sound c d b em clock em' d' :
  fc_lookup c = false -> m_finalBlock d = Some b -> CheckFinalBlockValidity c d b em clock = Ret (true, em', d') ->
  final_matches c d b /\ em' = em /\ d' = nothing_missing c d.
Proof.
  intros Hl Hb. unfold CheckFinalBlockValidity. rewrite Hl. destruct (CheckBlockHash c b) eqn:Hh; cbn [negb]; [|done].
  apply CheckBlockHash_iff in Hh as [Hh Hch]; [|done]. unfold CheckFinalBlockVersion. rewrite Hl.
  destruct (Z.eqb_spec (hb_version (txh_base (txb_header b))) (fc_TXBLOCK_VERSION c)) as [Hv|]; cbn [negb]; [|done].
  unfold CheckFinalBlockNumber. rewrite Hl. destruct (CheckWhetherBlockIsLatest _ _ _ _) eqn:Hlat; cbn [negb]; [|done].
  apply latest_inv in Hlat as [Hds Hn]. unfold CheckPreviousFinalBlockHash. rewrite Hl. case_bool_decide as Hp; cbn [negb]; [|done].
  destruct (CheckFinalBlockTimestamp c b clock); cbn [negb]; [|done]. intros E. apply bind_Ret in E as ([[ok1 em1] d1] & E1 & E).
  destruct ok1; cbn [negb] in E; [|done]. apply (CheckMicroBlocks_true c d b) in E1 as (Hm & -> & ->); [|done..].
  rewrite missing_none in Hm.
  destruct (CheckLegitimacyOfMicroBlocks c (nothing_missing c d) b) as [ok2 d2] eqn:E2.
  pose proof (CheckLegitimacy_iff c (nothing_missing c d) b Hl) as Hleg. pose proof (CheckLegitimacy_same c (nothing_missing c d) b) as Hd2.
  rewrite E2 in Hleg, Hd2. cbn [fst snd] in Hleg, Hd2. destruct ok2; cbn [negb] in E; [|done]. rewrite (Hd2 eq_refl) in E. clear Hd2 E2.
  destruct (proj1 Hleg eq_refl) as [Ht Hc]. unfold CheckMicroBlockInfo in E. rewrite Hl in E.
  destruct (check_infos _ _) as [[e|]|] eqn:Hci in E; [done..|]. case_bool_decide as Hih; cbn [negb] in E; [|done].
  unfold CheckStateRoot in E. rewrite Hl in E. case_bool_decide as Hroot; cbn [negb] in E; [|done].
  unfold CheckStateDeltaHash in E. rewrite Hl in E. case_bool_decide as Hdh; cbn [negb] in E; [|done]. injection E as <- <-.
  split; [|done]. split; try done.
  - intros i Hi Hs. apply Hm in Hi as Hi'; [|done]. apply list_elem_of_fmap in Hi' as (mb & Hh' & Hin). by eapply (check_infos_inv _ _ Hci i mb).
  - intros i mb Hi Hin Hh'. by eapply (check_infos_inv _ _ Hci i mb).
Qed.

Lemma final_validity_complete c d b em clock :
  fc_lookup c = false -> m_finalBlock d = Some b -> final_matches c d b -> NoDup (hash_of <$> blocks_at d (fc_epoch c)) ->
  (forall i, i ∈ txb_mbInfos b -> known_info c d i) ->
  VerifyTimestamp (mc_variance (fc_micro c)) (mc_timeout (fc_micro c)) (bb_timestamp (txb_base b)) (mc_timeout (fc_micro c)) clock = true ->
  CheckFinalBlockValidity c d b em clock = Ret (true, em, nothing_missing c d).
Proof.
  intros Hl Hb Hm Hnd Hknown Htime. unfold CheckFinalBlockValidity. rewrite Hl.
  rewrite (proj2 (CheckBlockHash_iff c b Hl)) by (split; [apply Hm|symmetry; apply Hm]). cbn [negb].
  unfold CheckFinalBlockVersion. rewrite Hl, (fm_version _ _ _ Hm), Z.eqb_refl. cbn [negb]. unfold CheckFinalBlockNumber. rewrite Hl.
  rewrite (proj2 (latest_self _ _ _ _)) by (split; apply Hm). cbn [negb]. unfold CheckPreviousFinalBlockHash. rewrite Hl.
  rewrite bool_decide_eq_true_2 by apply Hm. cbn [negb]. unfold CheckFinalBlockTimestamp. rewrite Hl, Htime. cbn [negb].
  rewrite (proj2 (CheckMicroBlocks_true c d b em false true em (nothing_missing c d) Hl Hb)).
  2: { split; [|done]. apply missing_none. intros i Hi _. destruct (Hknown i Hi) as (mb & Hin & <-). by apply (list_elem_of_fmap_2 hash_of). }
  cbn [mbind outcome_bind negb]. set (d1 := nothing_missing c d).
  assert ((CheckLegitimacyOfMicroBlocks c d1 b).1 = true) as Hleg by (apply CheckLegitimacy_iff; [done|]; split; [apply Hm|symmetry; apply Hm]).
  pose proof (CheckLegitimacy_same c d1 b Hleg) as Hd1. destruct (CheckLegitimacyOfMicroBlocks c d1 b) as [ok d1']. cbn in Hleg, Hd1.
  subst ok d1'. cbn [negb]. unfold CheckMicroBlockInfo. rewrite Hl. change (blocks_at d1 (fc_epoch c)) with (blocks_at d (fc_epoch c)).
  rewrite check_infos_own by done. rewrite bool_decide_eq_true_2 by (symmetry; apply Hm). cbn [negb]. unfold CheckStateRoot. rewrite Hl.
  rewrite bool_decide_eq_true_2 by (symmetry; apply Hm). cbn [negb]. unfold CheckStateDeltaHash. rewrite Hl.
  by rewrite bool_decide_eq_true_2 by (symmetry; apply Hm).
Qed.

(** ** What a backup accepts *)

Lemma final_matches_store c d d' b :
  fn_store d' = fn_store d -> blocks_at d' (fc_epoch c) = blocks_at d (fc_epoch c) -> final_matches c d b -> final_matches c d' b.
Proof. intros Hs Hb []. unfold known_info in *. split; unfold known_info; rewrite ?Hs, ?Hb; done. Qed.

Local Abbreviation Validate := (FinalBlockValidator ACCOUNT_VERSION MAX_CODE_SIZE_IN_BYTES).
Local Abbreviation CheckDS := (CheckDSMicroBlock ACCOUNT_VERSION MAX_CODE_SIZE_IN_BYTES).

(** The committee's own block, when it is accepted. *)
Lemma CheckDS_inv c d b mb em clock em' d' :
  fc_lookup c = false -> CheckDS c d b mb em clock = Ret (true, em', d') ->
  info_of mb ∈ txb_mbInfos b /\
  exists n l, CheckMicroBlockValidity ACCOUNT_VERSION MAX_CODE_SIZE_IN_BYTES (micro_of c d) (fn_node d) mb em clock = Ret (true, em', n) /\
    set_emplace mb (blocks_at d (fc_epoch c)) = Ret l /\
    d' = fn_set_blocks (fn_set_node d n) (<[fc_epoch c := l]> (m_microBlocks d)).
Proof.
  intros Hl E. unfold CheckDSMicroBlock in E. rewrite Hl in E. apply bind_Ret in E as ([[ok1 em1] d1] & E1 & E).
  destruct ok1; cbn [negb] in E; [|done]. apply bind_Ret in E as (d2 & E2 & E). injection E as <- <-.
  case_bool_decide as Hin; cbn [negb] in E1; [|done]. apply bind_Ret in E1 as ([[ok2 em2] n] & E3 & E1). injection E1 as -> -> <-.
  split; [done|]. apply bind_Ret in E2 as (l & E2 & Ed). injection Ed as <-. by exists n, l.
Qed.

(** A backup that accepts had every shard's block before, and the committee's own block
    is checked and added. *)
Lemma validator_inv c d b mb em clock1 clock2 em' d' :
  fc_lookup c = false -> Validate c d (Some (b, mb)) em clock1 clock2 = Ret (true, em', d') ->
  let d1 := nothing_missing c (fn_set_microblock (fn_set_final d (Some b)) mb) in
  exists d2, final_matches c d2 b /\ m_finalBlock d2 = Some b /\ d' = nothing_missing c d2 /\
    match mb with
    | None => d2 = d1
    | Some x => exists em1 d3 s1 s2 ok1, CheckDS c d1 b x em clock1 = Ret (true, em1, d3) /\
        SerializeDelta ACCOUNT_VERSION (fn_store d3) = Ret (ok1, s1) /\
        CommitTempRevertible ACCOUNT_VERSION MAX_CODE_SIZE_IN_BYTES s1 = Ret s2 /\ d2 = fn_set_store d3 s2
    end.
Proof.
  intros Hl E. unfold FinalBlockValidator in E. rewrite Hl in E. set (d0 := fn_set_microblock _ _) in E. intros d1.
  apply bind_Ret in E as ([[have em0] d1'] & E1 & E). apply bind_Ret in E as ([[ok2 em2] d2] & E2 & E).
  destruct ok2; cbn [negb] in E; [|done]. apply bind_Ret in E as ([[ok3 em3] d3] & E3 & E). destruct ok3; cbn [negb] in E; [|done].
  injection E as <- <-. destruct have.
  - apply (CheckMicroBlocks_true c d0 b) in E1 as (_ & _ & ->); [|done..]. exists d2. destruct mb as [x|].
    + apply bind_Ret in E2 as ([[ok4 em4] d4] & E4 & E2). destruct ok4; cbn [negb] in E2; [|by case_bool_decide].
      apply bind_Ret in E2 as ([ok5 s5] & E5 & E2). apply bind_Ret in E2 as (s6 & E6 & E2). injection E2 as <- <-.
      assert (m_finalBlock (fn_set_store d4 s6) = Some b) as Hb.
      { apply CheckDS_inv in E4 as (_ & n & l & _ & _ & ->); [|done]. done. }
      apply final_validity_sound in E3 as (Hm & _ & ->); [|done..]. repeat (split; [done|]). by exists em4, d4, s5, s6, ok5.
    + injection E2 as <- <-. apply final_validity_sound in E3 as (Hm & _ & ->); [|done..]. by repeat (split; [done|]).
  - exfalso. apply bind_Ret in E2 as ([ok4 s4] & _ & E2). apply bind_Ret in E2 as ([ok5 s5] & _ & E2). injection E2 as <- <-.
    assert (m_finalBlock d1' = Some b /\ blocks_at d1' (fc_epoch c) = blocks_at d0 (fc_epoch c) /\ missing_blocks c d0 (txb_mbInfos b) <> [])
      as (Hb & Hbl & Hmis).
    { unfold CheckMicroBlocks in E1. rewrite Hl in E1. cbn [d0 m_finalBlock fn_set_microblock fn_set_final fn_set_node] in E1.
      destruct (missing_blocks _ _ _) eqn:Em; [done|]. injection E1 as <- <-. done. }
    apply final_validity_sound in E3 as (Hm & _ & _); [|done..]. apply Hmis, missing_none. intros i Hi Hs.
    destruct (fm_shards _ _ _ Hm i Hi Hs) as (x & Hx & <-). apply (list_elem_of_fmap_2 hash_of). rewrite <- Hbl. exact Hx.
Qed.

Lemma infos_permutation c d b :
  final_matches c d b -> zlen (blocks_at d (fc_epoch c)) < 2 ^ 32 -> NoDup (mbi_microBlockHash <$> txb_mbInfos b) ->
  (forall i, i ∈ txb_mbInfos b -> mbi_microBlockHash i ∈ hash_of <$> blocks_at d (fc_epoch c)) ->
  txb_mbInfos b ≡ₚ info_of <$> blocks_at d (fc_epoch c).
Proof.
  intros Hm Hs Hnd Hall. apply submseteq_length_Permutation.
  - apply NoDup_submseteq; [by eapply NoDup_fmap_1|]. intros i Hi. destruct (proj1 (list_elem_of_fmap _ _ _) (Hall i Hi)) as (x & Hh & Hx).
    destruct (fm_committee_info _ _ _ Hm i x Hi Hx (eq_sym Hh)) as (y & Hy & <-). by apply list_elem_of_fmap_2.
  - rewrite length_fmap. pose proof (fm_count _ _ _ Hm) as Hc. pose proof (zlen_nonneg (blocks_at d (fc_epoch c))).
    rewrite wrap_small in Hc by (unfold in_range; lia). unfold zlen in Hc. lia.
Qed.

(** C18: A backup accepts only a final block that agrees with what it holds.  When the
    checks of a directory backup, whose micro blocks are certified, accept an announced
    final block: its hash, committee, version, number and predecessor are those that the
    node expects; its gas, rewards and transactions are the totals of the node's micro
    blocks and their number is the same; its state root and state delta are those of
    the node's accounts; what it says of a shard is said of a certified micro block that
    the node had before; the set has grown at most by the committee's block that came
    along, which passed its own checks; and if the block names different micro blocks,
    all of which the node has, these are exactly those of the node. *)
Theorem accepted_finalblock_matches c d b mb em clock1 clock2 em' d' :
  in_committee c -> collected c d -> Validate c d (Some (b, mb)) em clock1 clock2 = Ret (true, em', d') ->
  final_matches c d' b /\ m_finalBlock d' = Some b /\
  (forall i, i ∈ txb_mbInfos b -> mbi_shardId i <> zlen (fc_shards c) ->
     exists x, x ∈ blocks_at d (fc_epoch c) /\ info_of x = i /\ certified c x) /\
  (forall x, x ∈ blocks_at d' (fc_epoch c) -> x ∈ blocks_at d (fc_epoch c) \/
     (mb = Some x /\ info_of x ∈ txb_mbInfos b /\ shard_of x = zlen (fc_shards c))) /\
  (zlen (blocks_at d' (fc_epoch c)) < 2 ^ 32 -> NoDup (mbi_microBlockHash <$> txb_mbInfos b) ->
   (forall i, i ∈ txb_mbInfos b -> mbi_microBlockHash i ∈ hash_of <$> blocks_at d' (fc_epoch c)) ->
   txb_mbInfos b ≡ₚ info_of <$> blocks_at d' (fc_epoch c)).
Proof.
  intros Hc Hcl E. pose proof (ic_lookup _ Hc) as Hl. destruct (validator_inv c d b mb em clock1 clock2 em' d' Hl E) as (d2 & Hm & Hb & -> & Hd2).
  assert (final_matches c (nothing_missing c d2) b) as Hm' by (by eapply final_matches_store; [..|exact Hm]).
  assert (forall x, x ∈ blocks_at d2 (fc_epoch c) -> x ∈ blocks_at d (fc_epoch c) \/
     (mb = Some x /\ info_of x ∈ txb_mbInfos b /\ shard_of x = zlen (fc_shards c))) as Hgrow.
  { intros x Hx. destruct mb as [y|]; [|subst d2; by left]. destruct Hd2 as (em1 & d3 & s1 & s2 & ok1 & E3 & _ & _ & ->).
    apply CheckDS_inv in E3 as (Hin & n & l & Ev & El & ->); [|done].
    change (x ∈ blocks_at (fn_set_blocks d (<[fc_epoch c := l]> (m_microBlocks d))) (fc_epoch c)) in Hx. rewrite blocks_at_insert in Hx.
    destruct (set_emplace_perm _ _ _ El) as [->|Hp]; [by left|]. rewrite Hp in Hx. apply elem_of_cons in Hx as [->|Hx]; [|by left]. right.
    split; [done|]. split; [done|]. rewrite <- (ic_shardId _ Hc). exact (validity_shard _ _ (micro_of c _) _ _ _ _ _ _ Hl Ev). }
  split; [done|]. split; [done|]. split; [|split; [exact Hgrow|intros Hs Hnd Hall; by apply infos_permutation]].
  intros i Hi Hs. destruct (fm_shards _ _ _ Hm i Hi Hs) as (x & Hx & <-). exists x.
  destruct (Hgrow x Hx) as [Hold|(_ & _ & Hn)]; [|by destruct Hs]. split; [done|]. split; [done|]. by apply (cl_certified _ _ Hcl).
Qed.

(** ** An honest leader *)

(** Two directory nodes that agree on what the epoch is about; the leader's chain of
    final blocks ends with the block before this epoch. *)
Record same_final cL cB : Prop := {
  sf_micro : same_epoch (fc_micro cL) (fc_micro cB);
  sf_lastHash : mc_lastTxBlockHash (fc_micro cB) = mc_lastTxBlockHash (fc_micro cL);
  sf_version : fc_TXBLOCK_VERSION cB = fc_TXBLOCK_VERSION cL;
  sf_shardId : vc_shardId (mc_validator (fc_micro cL)) = zlen (fc_shards cL);
  sf_txBlocks : 0 < fc_txBlockCount cL;
  sf_number : u64 (fc_lastTxBlockNum cL + 1) = fc_epoch cL;
  sf_dsBlocks : 0 < fc_dsBlockCount cL
}.

Lemma same_final_epoch cL cB : same_final cL cB -> fc_epoch cB = fc_epoch cL.
Proof. intros Hs. unfold fc_epoch. by rewrite (sx_validator _ _ (sf_micro _ _ Hs)). Qed.

Lemma same_final_shards cL cB : same_final cL cB -> fc_shards cB = fc_shards cL.
Proof. intros Hs. apply (sx_shards _ _ (sf_micro _ _ Hs)). Qed.

Lemma same_micro cL cB (dB : Node) : same_final cL cB -> same_epoch (fc_micro cL) (micro_of cB dB).
Proof. intros [[] _ _ _ _ _ _]. by split. Qed.

(** The leader's block agrees with the leader's own data. *)
Lemma ComposeFinalBlock_matches c d now d' :
  fc_lookup c = false -> 0 < fc_txBlockCount c -> u64 (fc_lastTxBlockNum c + 1) = fc_epoch c ->
  zlen (blocks_at d (fc_epoch c)) < 2 ^ 32 -> ComposeFinalBlock c d now = (true, d') ->
  fn_node d' = fn_node d /\ blocks_at d' (fc_epoch c) = blocks_at d (fc_epoch c) /\
  exists b, m_finalBlock d' = Some b /\ final_matches c d' b /\ txb_mbInfos b = info_of <$> blocks_at d (fc_epoch c) /\
    bb_timestamp (txb_base b) = now.
Proof.
  intros Hl Hn He Hs E. unfold ComposeFinalBlock, ExtractDataFromMicroblocks in E. rewrite Hl in E.
  rewrite Z.gtb_ltb, (proj2 (Z.ltb_lt 0 _)) in E by done. destruct (fc_dsBlockCount c <=? 0); [done|]. injection E as <-. split; [done|].
  pose proof (blocks_at_insert d (fc_epoch c) (blocks_at d (fc_epoch c))) as Hb. split; [exact Hb|]. eexists. split; [done|]. split; [|done].
  match goal with |- final_matches c ?x _ =>
    assert (blocks_at x (fc_epoch c) = blocks_at d (fc_epoch c)) as Hb' by exact Hb end.
  split; unfold known_info; rewrite ?Hb'; try done.
  - intros i (x & -> & Hx)%list_elem_of_fmap _. by exists x.
  - intros i x (y & -> & Hy)%list_elem_of_fmap _ _. by exists y.
  - by destruct (totals_of _).
  - cbn. unfold zlen in *. rewrite length_fmap. rewrite wrap_small; [done|]. unfold in_range. lia.
Qed.

Lemma final_matches_context cL cB (dL dB : Node) b :
  same_final cL cB -> fn_store dB = fn_store dL -> blocks_at dB (fc_epoch cB) = blocks_at dL (fc_epoch cL) ->
  final_matches cL dL b -> final_matches cB dB b.
Proof.
  intros Hs Hst Hb []. pose proof (sf_micro _ _ Hs) as Hm. pose proof (same_final_epoch _ _ Hs) as He.
  pose proof (same_final_shards _ _ Hs) as Hsh. unfold known_info in *.
  split; unfold known_info; rewrite ?Hst, ?Hb, ?Hsh, ?(sf_lastHash _ _ Hs), ?(sf_version _ _ Hs), ?(sx_dsBlock _ _ Hm); try done.
  - unfold GetDSCommitteeHash in *. unfold fc_committee in *. by rewrite (sx_committee _ _ Hm).
  - by rewrite He.
Qed.

(** A micro block at its place in the set. *)
Definition in_place c (x : MicroBlock) : Prop :=
  hb_version (mbh_base (mb_header x)) = mc_version (fc_micro c) /\
  hb_prevHash (mbh_base (mb_header x)) = mc_lastTxHeaderHash (fc_micro c) /\
  mbh_epochNum (mb_header x) = fc_epoch c /\ mbh_dsBlockNum (mb_header x) = mc_dsBlockNum (fc_micro c) /\
  shard_of x < zlen (fc_shards c).

Lemma own_block_added (x : MicroBlock) l l' :
  (forall y, y ∈ l -> MicroBlock_lt y x = true) -> set_emplace x l = Ret l' -> l' ≡ₚ x :: l.
Proof.
  intros Hlt E. unfold set_emplace in E. destruct (negb _); [done|].
  assert (existsb (mb_equiv x) l = false) as Hn.
  { clear E. induction l as [|y l IH]; [done|]. cbn. rewrite IH by (intros z Hz; apply Hlt; by right). unfold mb_equiv.
    rewrite (Hlt y) by (by left). by rewrite andb_false_r. }
  rewrite Hn in E. injection E as <-. apply insert_sorted_perm.
Qed.

Lemma in_place_lt c x (y : MicroBlock) :
  in_place c x -> hb_version (mbh_base (mb_header y)) = mc_version (fc_micro c) ->
  hb_prevHash (mbh_base (mb_header y)) = mc_lastTxHeaderHash (fc_micro c) -> mbh_epochNum (mb_header y) = fc_epoch c ->
  mbh_dsBlockNum (mb_header y) = mc_dsBlockNum (fc_micro c) -> shard_of y = zlen (fc_shards c) -> MicroBlock_lt x y = true.
Proof.
  intros (Hv & Hp & He & Hd & Hs) Hv' Hp' He' Hd' Hs'. unfold MicroBlock_lt, MicroBlockHeader_lt.
  rewrite Hv, Hv', Hp, Hp', He, He', Hd, Hd', !Z.eqb_refl, bool_decide_eq_true_2 by done. unfold shard_of in *.
  rewrite Hs', (proj2 (Z.ltb_lt _ _) Hs). done.
Qed.

(** ** The two sides *)

Local Abbreviation RunPrimary :=
  (RunConsensusOnFinalBlockWhenDSPrimary CONTRACT_STATE_VERSION ACCOUNT_VERSION MAX_CODE_SIZE_IN_BYTES index_fuel scilla gas GetAddressFromPublicKey).
Local Abbreviation RunBackup :=
  (RunConsensusOnFinalBlockWhenDSBackup CONTRACT_STATE_VERSION ACCOUNT_VERSION index_fuel scilla gas GetAddressFromPublicKey).
Local Abbreviation executor c :=
  (node_executor CONTRACT_STATE_VERSION ACCOUNT_VERSION index_fuel scilla gas GetAddressFromPublicKey (mc_validator c)).

(** What a backup [n] has when it followed a leader that ended with [txns] and [s]. *)
Record follows (n : @MicroNode _ DB J T W _ _) (s : AccountStore T DB W) (txns : NodeTxns PubKey J) : Prop := {
  fo_store : mn_store n = s;
  fo_order : m_expectedTranOrdering (mn_txns n) = m_TxnOrder txns;
  fo_processed : t_processedTransactions (mn_txns n) = t_processedTransactions txns;
  fo_gas : m_gasUsedTotal (mn_txns n) = m_gasUsedTotal txns;
  fo_fees : m_txnFees (mn_txns n) = m_txnFees txns
}.

Lemma backup_follows cL cB (dL dB : Node) fuel timeout s txns :
  ContractProperties.gas_ok gas -> same_final cL cB -> processes_txns (fc_micro cL) = true ->
  accounts_ok (view (temp_of (fn_store dL))) -> accounts_ok (view (as_main (fn_store dL))) ->
  pool_ok GetAddressFromPublicKey (m_createdTxns (mn_txns (fn_node dL))) ->
  (2 * length (pending (m_createdTxns (mn_txns (fn_node dL)))) < fuel)%nat ->
  fn_store dB = fn_store dL -> m_createdTxns (mn_txns (fn_node dB)) = m_createdTxns (mn_txns (fn_node dL)) ->
  @ProcessTransactionWhenShardLeader _ _ _ _ _ _ (AccountStore T DB W) (executor (fc_micro cL)) GetAddressFromPublicKey
    (mc_gasLimit (fc_micro cL)) fuel timeout (mc_populating (fc_micro cL)) (fn_store dL) (mn_txns (fn_node dL)) = Ret (s, txns) ->
  (exists n, RunBackup cB dB fuel timeout = Ret (true, fn_set_node dB n) /\ follows n s txns /\
     m_createdTxns (mn_txns n) = m_createdTxns (mn_txns (fn_node dL))) /\
  NoDup (m_TxnOrder txns) /\ zlen (m_TxnOrder txns) <= zlen (pending (m_createdTxns (mn_txns (fn_node dL)))) /\
  forall h, h ∈ m_TxnOrder txns -> exists t, h = m_tranID t /\ t ∈ pending (m_createdTxns (mn_txns (fn_node dL))) /\
    pool_exist (m_createdTxns (mn_txns (fn_node dL))) h = true.
Proof.
  intros Hgas Hs Hpt Hv Hm Hp Hfuel Hst Hpool E. pose proof (conj Hv Hm : good (temp_of (fn_store dL))) as Hg.
  pose proof (sf_micro _ _ Hs) as Hsm'. apply bind_Ret in E as (sel & E & Hend).
  destruct (selected_in_pool CONTRACT_STATE_VERSION ACCOUNT_VERSION index_fuel scilla gas GetAddressFromPublicKey (fc_micro cL) fuel timeout
    (fn_node dL) sel Hgas Hg Hp Hfuel E) as (Hnd & Hlen & Hin).
  unfold selection_end in Hend. destruct (ReinstateMemPool _ _ _ _) as [pool unc] in Hend. injection Hend as <- <-.
  split; [|split; [done|]; split; [unfold zlen; cbn [m_TxnOrder]; lia|done]].
  pose (reinstated := ReinstateMemPool (sel_created sel) (m_unconfirmedTxns (mn_txns (fn_node dB))) (sel_waiting sel) (sel_exceeded sel)).
  exists (mn_set_store (mn_set_txns (fn_node dB) (mkNodeTxns (m_createdTxns (mn_txns (fn_node dB))) reinstated.1 reinstated.2
    (sel_order sel) (m_processedTransactions (mn_txns (fn_node dB))) (sel_processed sel) (m_TxnOrder (mn_txns (fn_node dB)))
    (sel_gas sel) (sel_fees sel))) (sel_store sel)).
  split; [|split; [by split|exact Hpool]]. unfold RunConsensusOnFinalBlockWhenDSBackup, fc_lookup.
  rewrite (sx_lookup' _ _ Hsm'), (same_processes _ _ Hsm'), Hpt, (sx_validator _ _ Hsm').
  unfold ProcessTransactionWhenShardBackup, selection_start. unfold fn_store in *. rewrite (sx_gasLimit _ _ Hsm'), (sx_populating _ _ Hsm'), Hst, Hpool.
  unfold selection_start in E. rewrite E. cbn [mbind outcome_bind]. unfold selection_end, reinstated. destruct (ReinstateMemPool _ _ _ _). cbn. by rewrite Hpool.
Qed.

(** The leader's run, taken apart. *)
Lemma primary_inv c (d d' : Node) fuel timeout now1 now2 mb :
  fc_lookup c = false -> processes_txns (fc_micro c) = true ->
  RunPrimary c d fuel timeout now1 now2 = Ret (true, d') -> m_microblock (fn_node d') = Some mb ->
  exists s txns s2 s3 l d2, 
    @ProcessTransactionWhenShardLeader _ _ _ _ _ _ (AccountStore T DB W) (executor (fc_micro c)) GetAddressFromPublicKey
      (mc_gasLimit (fc_micro c)) fuel timeout (mc_populating (fc_micro c)) (fn_store d) (mn_txns (fn_node d)) = Ret (s, txns) /\
    SerializeDelta ACCOUNT_VERSION s = Ret (true, s2) /\ CommitTempRevertible ACCOUNT_VERSION MAX_CODE_SIZE_IN_BYTES s2 = Ret s3 /\
    composed (fc_micro c) now1 s2 (m_TxnOrder txns) (t_processedTransactions txns) (m_gasUsedTotal txns) (m_txnFees txns) mb /\
    set_emplace mb (blocks_at d (fc_epoch c)) = Ret l /\
    ComposeFinalBlock c d2 now2 = (true, d') /\ fn_store d2 = s3 /\ blocks_at d2 (fc_epoch c) = l.
Proof.
  intros Hl Hpt E Hb. unfold RunConsensusOnFinalBlockWhenDSPrimary in E. rewrite Hl, Hpt in E.
  apply bind_Ret in E as ([ok d1] & E1 & E). apply bind_Ret in E1 as ([s txns] & Esel & E1). apply bind_Ret in E1 as ([ok1 s2] & Eser & E1).
  injection E1 as -> <-. destruct ok; cbn [negb] in E; [|done]. apply bind_Ret in E as (s3 & Ecom & E).
  apply bind_Ret in E as ([ok2 n] & Emb & E). apply bind_Ret in E as (d2 & Eadd & E). injection E as E.
  assert (fn_node d' = fn_node d2) as Hn.
  { unfold ComposeFinalBlock in E. rewrite Hl in E. destruct (ExtractDataFromMicroblocks c d2) as [infos t].
    destruct (if fc_txBlockCount c >? 0 then _ else _) as [num prev]. destruct (fc_dsBlockCount c <=? 0); [done|]. by injection E as <-. }
  rewrite Hn in Hb. destruct ok2; [|by injection Eadd as <-]. apply ComposeMicroBlock_spec in Emb as (x & -> & Hc); [|done].
  cbn [mn_set_block m_microblock] in Eadd. unfold add_block in Eadd. apply bind_Ret in Eadd as (l & El & Ed). injection Ed as <-.
  injection Hb as ->. exists s, txns, s2, s3, l. eexists.
  repeat (split; [first [exact Esel|exact Eser|exact Ecom|exact El|exact E|idtac]|]).
  - destruct Hc. split; try done. unfold GetStateDeltaHash in *. cbn in co_delta. rewrite (CommitTempRevertible_delta _ _ _ _ Ecom) in co_delta.
    exact co_delta.
  - done.
  - unfold blocks_at. cbn. by rewrite lookup_insert_eq.
Qed.

(** The committee's micro block passes the checks of a backup that followed. *)
Lemma ds_block_accepted cL cB (d : Node) b mb now1 em clock s s2 txns l :
  same_final cL cB -> processes_txns (fc_micro cL) = true ->
  composed (fc_micro cL) now1 s2 (m_TxnOrder txns) (t_processedTransactions txns) (m_gasUsedTotal txns) (m_txnFees txns) mb ->
  follows (fn_node d) s txns -> SerializeDelta ACCOUNT_VERSION s = Ret (true, s2) ->
  (forall h, h ∈ m_TxnOrder txns -> pool_exist (m_createdTxns (mn_txns (fn_node d))) h = true /\ 0 <= h < 2 ^ 256) ->
  NoDup (m_TxnOrder txns) -> tolerates (mc_tolerance (fc_micro cB)) (zlen (m_TxnOrder txns)) = true ->
  VerifyTimestamp (mc_variance (fc_micro cB)) (mc_timeout (fc_micro cB)) now1 (mc_timeout (fc_micro cB)) clock = true ->
  info_of mb ∈ txb_mbInfos b -> set_emplace mb (blocks_at d (fc_epoch cB)) = Ret l ->
  CheckDS cB d b mb em clock = Ret (true, em, fn_set_blocks (fn_set_store d s2) (<[fc_epoch cB := l]> (m_microBlocks d))).
Proof.
  intros Hs Hpt Hc [Hst Hord Hproc Hg Hf] Hser Hin Hnd Htol Htime Hinf El. unfold CheckDSMicroBlock, fc_lookup.
  rewrite (sx_lookup' _ _ (sf_micro _ _ Hs)), bool_decide_eq_true_2 by done. cbn [negb].
  rewrite (validity_accepted ACCOUNT_VERSION MAX_CODE_SIZE_IN_BYTES (fc_micro cL) (micro_of cB d) now1 mb (fn_node d) (m_TxnOrder txns)
    (t_processedTransactions txns) (m_gasUsedTotal txns) (m_txnFees txns) s2 em clock); try done; [|by apply same_micro|by rewrite Hst].
  cbn [mbind outcome_bind negb]. unfold add_block.
  change (blocks_at (fn_set_node d (mn_set_store (fn_node d) s2)) (fc_epoch cB)) with (blocks_at d (fc_epoch cB)). by rewrite El.
Qed.

(** A final block over the node's blocks and one of its own passes the validator. *)
Lemma validator_accepts c (d : Node) b mb em clock1 clock2 s2 s3 l :
  fc_lookup c = false -> l ≡ₚ mb :: blocks_at d (fc_epoch c) -> txb_mbInfos b = info_of <$> l -> shard_of mb = zlen (fc_shards c) ->
  NoDup (hash_of <$> l) -> 
  (let d1 := nothing_missing c (fn_set_microblock (fn_set_final d (Some b)) (Some mb)) in
   CheckDS c d1 b mb em clock1 = Ret (true, em, fn_set_blocks (fn_set_store d1 s2) (<[fc_epoch c := l]> (m_microBlocks d1)))) ->
  SerializeDelta ACCOUNT_VERSION s2 = Ret (true, s2) -> CommitTempRevertible ACCOUNT_VERSION MAX_CODE_SIZE_IN_BYTES s2 = Ret s3 ->
  VerifyTimestamp (mc_variance (fc_micro c)) (mc_timeout (fc_micro c)) (bb_timestamp (txb_base b)) (mc_timeout (fc_micro c)) clock2 = true ->
  (forall d', fn_store d' = s3 -> blocks_at d' (fc_epoch c) = l -> final_matches c d' b) ->
  exists d', Validate c d (Some (b, Some mb)) em clock1 clock2 = Ret (true, em, d') /\ fn_store d' = s3 /\
    blocks_at d' (fc_epoch c) = l /\ m_finalBlock d' = Some b /\ m_microblock (fn_node d') = Some mb.
Proof.
  intros Hl Hp Hinf Hsh Hnd Hds Hser Hcom Htime Hm. unfold FinalBlockValidator. rewrite Hl. cbv zeta in Hds.
  set (d0 := fn_set_microblock _ _) in Hds |- *. set (d1 := nothing_missing c d0) in Hds.
  assert (CheckMicroBlocks c d0 [] true false = Ret (true, [], d1)) as ->.
  { apply (CheckMicroBlocks_true c d0 b); [done..|]. split; [|done]. apply missing_none. intros i Hi Hs. rewrite Hinf, Hp in Hi.
    apply list_elem_of_fmap in Hi as (x & -> & Hx). apply elem_of_cons in Hx as [->|Hx]; [by destruct Hs|]. by apply (list_elem_of_fmap_2 hash_of). }
  cbn [mbind outcome_bind]. rewrite Hds. cbn [mbind outcome_bind negb].
  set (d2 := fn_set_blocks (fn_set_store d1 s2) _). change (fn_store d2) with s2. rewrite Hser. cbn [mbind outcome_bind]. rewrite Hcom.
  cbn [mbind outcome_bind negb]. set (d3 := fn_set_store d2 s3).
  assert (blocks_at d3 (fc_epoch c) = l) as Hb3 by (unfold blocks_at; cbn; by rewrite lookup_insert_eq).
  rewrite (final_validity_complete c d3 b em clock2); [|done|done|by apply Hm|by rewrite Hb3| |done].
  - cbn [mbind outcome_bind negb]. eexists. split; [done|]. split; [done|]. by split.
  - intros i Hi. rewrite Hinf in Hi. apply list_elem_of_fmap in Hi as (x & -> & Hx). exists x. by rewrite Hb3.
Qed.

(** C17: An honest leader of the directory committee convinces an honest backup.  Both
    begin with the same accounts, the same pool and the same micro blocks of the shards,
    each at its place in the set, and process transactions at the same pace.  The leader
    executes the committee's transactions, composes the committee's micro block, adds it
    to the others, and composes the final block; the backup, which only executed the
    transactions, accepts both blocks if they arrive in time, the tolerance of the backup
    leaves room for the very same order, and the block hashes are different; it then
    has the leader's accounts and the leader's set of micro blocks. *)
Theorem honest_finalblock_accepted cL cB fuel timeout now1 now2 (dL dB dL' : Node) mb em clock1 clock2 :
  ContractProperties.gas_ok gas -> same_final cL cB -> processes_txns (fc_micro cL) = true ->
  accounts_ok (view (temp_of (fn_store dL))) -> accounts_ok (view (as_main (fn_store dL))) ->
  pool_ok GetAddressFromPublicKey (m_createdTxns (mn_txns (fn_node dL))) ->
  (forall t, t ∈ pending (m_createdTxns (mn_txns (fn_node dL))) -> 0 <= m_tranID t < 2 ^ 256) ->
  (2 * length (pending (m_createdTxns (mn_txns (fn_node dL)))) < fuel)%nat ->
  Forall (in_place cL) (blocks_at dL (fc_epoch cL)) ->
  fn_store dB = fn_store dL -> m_createdTxns (mn_txns (fn_node dB)) = m_createdTxns (mn_txns (fn_node dL)) ->
  blocks_at dB (fc_epoch cB) = blocks_at dL (fc_epoch cL) ->
  RunPrimary cL dL fuel timeout now1 now2 = Ret (true, dL') -> m_microblock (fn_node dL') = Some mb ->
  NoDup (hash_of <$> blocks_at dL' (fc_epoch cL)) -> zlen (blocks_at dL' (fc_epoch cL)) < 2 ^ 32 ->
  (forall k, 0 <= k <= zlen (pending (m_createdTxns (mn_txns (fn_node dL)))) -> tolerates (mc_tolerance (fc_micro cB)) k = true) ->
  VerifyTimestamp (mc_variance (fc_micro cB)) (mc_timeout (fc_micro cB)) now1 (mc_timeout (fc_micro cB)) clock1 = true ->
  VerifyTimestamp (mc_variance (fc_micro cB)) (mc_timeout (fc_micro cB)) now2 (mc_timeout (fc_micro cB)) clock2 = true ->
  exists b dB1 dB2, m_finalBlock dL' = Some b /\ RunBackup cB dB fuel timeout = Ret (true, dB1) /\
    Validate cB dB1 (Some (b, Some mb)) em clock1 clock2 = Ret (true, em, dB2) /\ m_finalBlock dB2 = Some b /\
    fn_store dB2 = fn_store dL' /\ blocks_at dB2 (fc_epoch cB) = blocks_at dL' (fc_epoch cL).
Proof.
  intros Hgas Hs Hpt Hv Hm Hp Hids Hfuel Hpl Hst Hpool Hbl E Hmbk Hnd Hsmall Htol Ht1 Ht2.
  pose proof (sx_lookup _ _ (sf_micro _ _ Hs) : fc_lookup cL = false) as HlL. pose proof (sx_lookup' _ _ (sf_micro _ _ Hs) : fc_lookup cB = false) as HlB.
  destruct (primary_inv cL dL dL' fuel timeout now1 now2 mb HlL Hpt E Hmbk)
    as (s & txns & s2 & s3 & l & d2 & Esel & Eser & Ecom & Hcomp & El & Efin & Hs3 & Hl2).
  destruct (backup_follows cL cB dL dB fuel timeout s txns) as ((n & Erun & Hfol & Hpn) & HndO & HlenO & Hin); [done..|].
  assert (shard_of mb = zlen (fc_shards cL)) as Hshard by (rewrite <- (sf_shardId _ _ Hs); apply Hcomp).
  assert (l ≡ₚ mb :: blocks_at dL (fc_epoch cL)) as Hperm.
  { apply own_block_added; [|done]. intros y Hy. rewrite Forall_forall in Hpl. apply (in_place_lt cL); [by apply Hpl|apply Hcomp..|done]. }
  assert (zlen (blocks_at d2 (fc_epoch cL)) < 2 ^ 32 /\ blocks_at dL' (fc_epoch cL) = l) as [Hsm2 HlL'].
  { pose proof (ComposeFinalBlock_same cL d2 now2) as [Hsame _]. rewrite Efin in Hsame. cbn [snd] in Hsame. rewrite <- Hsame, Hsame. split; [|done].
    by rewrite <- Hsame. }
  destruct (ComposeFinalBlock_matches cL d2 now2 dL' HlL (sf_txBlocks _ _ Hs) (sf_number _ _ Hs) Hsm2 Efin)
    as (Hnode & _ & b & Hb & Hmat & Hinf & Htime). rewrite Hl2 in Hinf. rewrite HlL' in Hnd.
  assert (fn_store dL' = s3) as HsL by (unfold fn_store in *; by rewrite Hnode).
  destruct (validator_accepts cB (fn_set_node dB n) b mb em clock1 clock2 s2 s3 l) as (dB2 & Eval & Hs' & Hl' & Hfb & _); try done.
  - by rewrite Hperm, <- Hbl.
  - by rewrite (same_final_shards _ _ Hs).
  - intros d1. apply (ds_block_accepted cL cB d1 b mb now1 em clock1 s s2 txns l); try done.
    + by destruct Hfol.
    + intros h Hh. destruct (Hin h Hh) as (t & -> & Ht & Hex). split; [|by apply Hids]. change (pool_exist (m_createdTxns (mn_txns n)) (m_tranID t) = true).
      by rewrite Hpn.
    + apply Htol. split; [apply zlen_nonneg|done].
    + rewrite Hinf. apply list_elem_of_fmap_2. rewrite Hperm. by left.
    + change (set_emplace mb (blocks_at dB (fc_epoch cB)) = Ret l). by rewrite Hbl.
  - by eapply SerializeDelta_again.
  - by rewrite Htime.
  - intros d' Hsd Hld. apply (final_matches_context cL cB dL' d' b Hs); [by rewrite Hsd, HsL|by rewrite Hld, HlL'|done].
  - exists b, (fn_set_node dB n), dB2. rewrite HsL, HlL'. by repeat (split; [done|]).
Qed.

End final_agreement.
