(* ===== verification/FinalBlockExamples.v ===== *)
(** * An epoch of the directory committee, executed

    One shard of three members submits a micro block; the committee is nodes 7 and 8.
    Node 7 leads: it executes two payments, composes the committee's micro block and the
    final block, and node 8 accepts.  The last examples show what the checks let
    through. *)

From stdpp Require Import base numbers gmap countable list relations sorting.
From S2P Require Import Prelude Serializable Peer OpenSSL Schnorr MultiSig LevelDB Json Receipt TxnPool AccountStore ConsensusMessages ConsensusCommon BlockChain Blocks Committee BlockStorage TxnOrder ContractStorage ContractAccount AccountStoreSC ContractProperties AccountMessages StateDelta DeltaProperties DeltaExamples ExecutionProperties TxnSelection SelectionProperties TxnExecution MicroBlock MicroBlockProperties MicroBlockExamples Coinbase CoinbaseProperties PoW PoWSubmission Sharding ShardingProperties MicroBlockSubmission FinalBlock FinalBlockProperties FinalBlockAgreement.
Open Scope Z_scope.

Module FinalSample.
Import Cyclic StateCodec JsonTree AccountCodec MapTrie ContractSample DeltaSample MicroSample.

#[local] Existing Instance MicroSample.key_eq_dec.
#[local] Existing Instance MicroSample.key_countable.
#[local] Existing Instance MicroSample.committee_fields.
#[local] Instance mb_proto : HeaderProto MicroBlockHeader := fun h => Some [6; mbh_epochNum h; mbh_shardId h; mbh_numTxs h].
#[local] Instance tx_proto : HeaderProto TxBlockHeader := fun h => Some [4; txh_blockNum h; txh_numTxs h].
#[local] Instance mb_bytes : MicroBlockProto := fun b => [3; shard_of b].
#[local] Instance info_bytes : MbInfoProto := fun i => fields [mbi_microBlockHash i; mbi_txnRootHash i; [mbi_shardId i]].

Definition committee : list (PubKey * Peer) := [(key 7, Peer_new 1 7); (key 8, Peer_new 1 8)].
Definition shard0 : Shard := (fun k => (k, Peer_new 1 2, 0)) <$> sample_pubs.
Definition miner : PubKey := hd PubKey_default sample_pubs.

(** A directory node is in no shard: its number is the one after the last. *)
Definition ds_validator : ValidatorContext := mkValidatorContext 9 1 1 true 1 1 100.
Definition micro_context (self : PubKey) : MicroContext :=
  mkMicroContext false 1 100 ds_validator no_populating false 0 0 zero_hash zero_hash 3 5 5 (4, 4, 9) [shard0] committee self [] 5 2 10 (fun _ => None).
Definition fctx (self : PubKey) (mode : Mode) : FinalContext :=
  mkFinalContext (micro_context self) mode {[miner := 0]} 10 1 5 1 9 8 4 (fun _ => Some [9]).
Definition leader : FinalContext := fctx (key 7) PRIMARY_DS.
Definition backup : FinalContext := fctx (key 8) BACKUP_DS.

Local Abbreviation FNode := (@FinalNode _ MapDB.db json (gmap Z bytes) (list bytes) _ _).
Definition fresh_node : FNode :=
  mkFinalNode (mkMicroNode start txns None None true) (mkCoinbaseState ∅ ∅) StorageExamples.empty_storage ∅ ∅ ∅ [] ∅ false None.

(** The shard's block, signed by its three members. *)
Definition header0 (n : Z) : MicroBlockHeader :=
  mkMicroHeader (mkHeaderBase 1 (GetShardHash shard0) zero_hash) 0 100 5 10 9 zero_hash zero_hash zero_hash n miner 3.
Definition block0 (n : Z) : MicroBlock :=
  mkMicroBlock (mkBlockBase (GetMyHash (header0 n)) (CosigExample.cosign [true; true; true] [6; 9; 0; n]) 20000000) (header0 n) [].

Definition clock : Z * Z * Z := (20000010, 20000010, 20000011).
Definition submit (c : FinalContext) (d : FNode) (b : MicroBlock) :=
  ProcessMicroblockSubmission 1 100 c d (Some (SHARDMICROBLOCK, 9, [b], [[]], miner)) MICROBLOCK_SUBMISSION clock.

Definition got (o : outcome (bool * FNode)) : option (bool * list (Z * Z)) :=
  match o with
  | Ret (ok, d) => Some (ok, (fun b => (shard_of b, mbh_numTxs (mb_header b))) <$> blocks_at d 9)
  | Fault _ => None
  end.

Example first_taken : got (submit backup fresh_node (block0 2)) = Some (true, [(0, 2)]).
Proof. vm_compute. reflexivity. Qed.

(** A second block of the shard is refused. *)
Example second_refused :
  match submit backup fresh_node (block0 2) with Ret (_, d) => got (submit backup d (block0 3)) | _ => None end = Some (false, [(0, 2)]).
Proof. vm_compute. reflexivity. Qed.

Lemma backup_in_committee : in_committee backup.
Proof. split; [done|done|done|]. repeat constructor. Qed.

(** The node that has the shard's block. *)
Definition ready : FNode := match submit backup fresh_node (block0 2) with Ret (_, d) => d | Fault _ => fresh_node end.

Lemma ready_ok : submit backup fresh_node (block0 2) = Ret (true, ready).
Proof.
  unfold ready. pose proof first_taken as H. destruct (submit backup fresh_node (block0 2)) as [[ok d]|]; [|done]. cbn in H. by injection H as -> _.
Qed.

#[local] Instance Signature_dec : EqDecision Signature.
Proof. solve_decision. Defined.
#[local] Instance CoSignatures_dec : EqDecision CoSignatures.
Proof. solve_decision. Defined.
#[local] Instance BlockBase_dec : EqDecision BlockBase.
Proof. solve_decision. Defined.
#[local] Instance BlockHeaderBase_dec : EqDecision BlockHeaderBase.
Proof. solve_decision. Defined.
#[local] Instance MicroBlockHeader_dec : EqDecision MicroBlockHeader.
Proof. solve_decision. Defined.
#[local] Instance MicroBlock_dec : EqDecision MicroBlock.
Proof. solve_decision. Defined.

Lemma ready_blocks : blocks_at ready 9 = [block0 2].
Proof. apply (bool_decide_unpack _). vm_compute. exact I. Qed.

Lemma ready_step : rtc (final_step 1 1 100 2 scilla gas address backup) fresh_node ready.
Proof. apply rtc_once. pose proof ready_ok as E. unfold submit in E. exact (fs_submission 1 1 100 2 scilla gas address backup fresh_node _ _ _ _ _ E). Qed.

Lemma microblocks_certified_witness :
  submit backup fresh_node (block0 2) = Ret (true, ready) /\ block0 2 ∈ blocks_at ready (fc_epoch backup) /\
  VerifyMicroBlockCoSignature false (fc_shards backup) (fc_committee backup) (block0 2) 0 = Ret true /\
  rewardees_of (m_coinbaseRewardees (fn_coinbase ready)) 9 0 = signed_keys sample_pubs [true; true; true] [true; true; true].
Proof.
  split; [apply ready_ok|]. assert (block0 2 ∈ blocks_at ready (fc_epoch backup)) as Hin.
  { change (fc_epoch backup) with 9. rewrite ready_blocks. by left. }
  split; [done|].
  destruct (microblocks_certified 1 1 100 2 scilla gas address backup fresh_node ready backup_in_committee eq_refl ready_step) as [Hc _].
  destruct (Hc (block0 2) Hin) as (Hs & _ & _ & _ & shard & Hat & Hr & _); [vm_compute; discriminate|].
  assert (shard = shard0) as -> by (injection Hat as <-; reflexivity). split; [exact Hs|exact Hr].
Defined.

(** ** The leader and a backup *)

Definition led_final :=
  RunConsensusOnFinalBlockWhenDSPrimary 1 1 100 2 scilla gas address leader ready 7 (fun _ => false) 20000000 20000005.

Definition led_summary (o : outcome (bool * FNode)) : option (bool * option MicroBlock * list (Z * Z) * option (Z * Z * Z)) :=
  match o with
  | Ret (ok, d) =>
      Some (ok, m_microblock (fn_node d), (fun b => (shard_of b, mbh_numTxs (mb_header b))) <$> blocks_at d 9,
            (fun b => (txh_blockNum (txb_header b), txh_gasUsed (txb_header b), txh_numTxs (txb_header b))) <$> m_finalBlock d)
  | Fault _ => None
  end.

Lemma led_final_ok : exists d mb, led_final = Ret (true, d) /\ m_microblock (fn_node d) = Some mb /\
  NoDup (hash_of <$> blocks_at d 9) /\ zlen (blocks_at d 9) = 2.
Proof.
  assert (match led_final with
          | Ret (ok, d) => ok && bool_decide (is_Some (m_microblock (fn_node d))) && bool_decide (NoDup (hash_of <$> blocks_at d 9)) && (zlen (blocks_at d 9) =? 2)
          | Fault _ => false
          end = true) as H by (vm_compute; reflexivity).
  destruct led_final as [[ok d]|]; [|done]. rewrite !andb_true_iff in H. destruct H as [[[-> Hm] Hn] Hl].
  apply bool_decide_eq_true in Hm as [mb Hm]. apply bool_decide_eq_true in Hn. apply Z.eqb_eq in Hl. by exists d, mb.
Qed.

Lemma same_final_sample : same_final leader backup.
Proof. split; [split; reflexivity|done..]. Qed.

Lemma ready_place : Forall (in_place leader) (blocks_at ready (fc_epoch leader)).
Proof. change (fc_epoch leader) with 9. rewrite ready_blocks. repeat constructor. Qed.

(** A block without a state delta leaves the accounts and the pool alone. *)
Lemma no_delta_keeps c (d : FNode) b delta cl ok d' :
  mbh_stateDeltaHash (mb_header b) = zero_hash ->
  ProcessMicroblockSubmissionFromShardCore 1 100 c d b delta cl = Ret (ok, d') -> fn_node d' = fn_node d.
Proof.
  intros Hz E. unfold ProcessMicroblockSubmissionFromShardCore in E. destruct (fc_lookup c); [by injection E as _ <-|].
  apply bind_Ret in E as (ok1 & _ & E). destruct ok1; cbn [negb] in E; [|by injection E as _ <-].
  destruct (m_stopRecvNewMBSubmission d); [by injection E as _ <-|]. destruct (existsb _ _); [by injection E as _ <-|].
  apply bind_Ret in E as ([ok2 d2] & E2 & E). assert (fn_node d2 = fn_node d) as H2.
  { destruct (_ =? _); [by injection E2 as _ <-|]. apply bind_Ret in E2 as ([ok3 s] & _ & E2). by injection E2 as _ <-. }
  destruct ok2; cbn [negb] in E; [|by injection E as _ <-]. apply bind_Ret in E as ([ok3 d3] & E3 & E).
  apply bind_Ret in E3 as ([ok3' st] & _ & E3). injection E3 as -> <-. destruct ok3; cbn [negb] in E; [|by injection E as _ <-].
  apply bind_Ret in E as ([ok4 d4] & E4 & E). assert (fn_node d4 = fn_node d) as H4.
  { destruct (mc_isVacuousEpoch _); [by injection E4 as _ <-|]. unfold ProcessStateDelta in E4. rewrite Hz, bool_decide_eq_true_2 in E4 by done.
    by destruct (fc_lookup c); injection E4 as _ <-. }
  destruct ok4; cbn [negb] in E; [|by injection E as _ <-]. apply bind_Ret in E as (d5 & E5 & E). apply bind_Ret in E5 as (l & _ & E5).
  injection E5 as <-. injection E as _ <-. destruct (zlen (blocks_at _ _) =? _); exact H4.
Qed.

Lemma ready_node : fn_node ready = fn_node fresh_node.
Proof. pose proof ready_ok as E. exact (no_delta_keeps backup fresh_node (block0 2) [] clock true ready eq_refl E). Qed.

Lemma honest_finalblock_accepted_witness :
  exists (d d1 d2 : FNode) (mb : MicroBlock) (b : TxBlock), led_final = Ret (true, d) /\ m_finalBlock d = Some b /\
    RunConsensusOnFinalBlockWhenDSBackup 1 1 2 scilla gas address backup ready 7 (fun _ => false) = Ret (true, d1) /\
    FinalBlockValidator 1 100 backup d1 (Some (b, Some mb)) [] clock clock = Ret (true, [], d2) /\ m_finalBlock d2 = Some b.
Proof.
  destruct led_final_ok as (d & mb & E & Hmb & Hnd & Hlen).
  destruct (honest_finalblock_accepted 1 1 100 2 scilla gas address leader backup 7 (fun _ => false) 20000000 20000005 ready ready d mb
    [] clock clock) as (b & d1 & d2 & Hb & E1 & E2 & Hb2 & _);
    [apply sample_gas_ok|apply same_final_sample|reflexivity|unfold fn_store; rewrite ready_node; apply start_temp|
     unfold fn_store; rewrite ready_node; apply start_main|rewrite ready_node; apply pool3_ok|rewrite ready_node; apply ids_small|
     rewrite ready_node; apply enough_fuel|apply ready_place|done|done|done|exact E|exact Hmb|exact Hnd| |
     rewrite ready_node; apply tolerance_small|vm_compute; reflexivity|vm_compute; reflexivity|].
  - change (fc_epoch leader) with 9. rewrite Hlen. done.
  - exists d, d1, d2, mb, b. by repeat (split; [done|]).
Defined.

(** What the backup does with the leader's two blocks. *)
Definition agreed_final : option (FNode * TxBlock * MicroBlock) :=
  match led_final, RunConsensusOnFinalBlockWhenDSBackup 1 1 2 scilla gas address backup ready 7 (fun _ => false) with
  | Ret (_, d), Ret (_, d1) => b ← m_finalBlock d; mb ← m_microblock (fn_node d); Some (d1, b, mb)
  | _, _ => None
  end.

Definition validate (c : FinalContext) (d : FNode) (b : TxBlock) (mb : option MicroBlock) :=
  FinalBlockValidator 1 100 c d (Some (b, mb)) [] clock clock.

Lemma agreed_final_ok : exists d1 b mb em d2, agreed_final = Some (d1, b, mb) /\ validate backup d1 b (Some mb) = Ret (true, em, d2) /\
  forall i, i ∈ txb_mbInfos b -> mbi_shardId i = 0 \/ mbi_shardId i = 1.
Proof.
  assert (match agreed_final with
          | Some (d1, b, mb) =>
              match validate backup d1 b (Some mb) with Ret (true, _, _) => true | _ => false end &&
              forallb (fun i => (mbi_shardId i =? 0) || (mbi_shardId i =? 1)) (txb_mbInfos b)
          | None => false
          end = true) as H by (vm_compute; reflexivity).
  destruct agreed_final as [[[d1 b] mb]|]; [|done]. apply andb_true_iff in H as [H Hf].
  destruct (validate backup d1 b (Some mb)) as [[[[] em] d2]|] eqn:E; try done. exists d1, b, mb, em, d2. split; [done|]. split; [exact E|].
  intros i Hi. rewrite forallb_forall in Hf. specialize (Hf i ltac:(by apply list_elem_of_In)). lia.
Qed.

Lemma agreed_collected d1 b mb : agreed_final = Some (d1, b, mb) -> collected backup d1.
Proof.
  unfold agreed_final. destruct led_final as [[ok d]|]; [|done].
  destruct (RunConsensusOnFinalBlockWhenDSBackup _ _ _ _ _ _ _ _ _ _) as [[ok' d1']|] eqn:E; [|done]. intros Ha.
  assert (d1' = d1) as -> by (destruct (m_finalBlock d), (m_microblock (fn_node d)); cbn in Ha; congruence).
  apply (steps_collected 1 1 100 2 scilla gas address backup fresh_node d1 backup_in_committee); [|by apply fresh_collected].
  eapply rtc_r; [apply ready_step|]. exact (fs_backup 1 1 100 2 scilla gas address backup ready 7 (fun _ => false) ok' d1 E).
Qed.

Lemma accepted_finalblock_matches_witness :
  exists d1 b mb em d2, agreed_final = Some (d1, b, mb) /\ validate backup d1 b (Some mb) = Ret (true, em, d2) /\
    txh_blockNum (txb_header b) = 9 /\ txh_stateRootHash (txb_header b) = GetStateRootHash (fn_store d2) /\
    forall i, i ∈ txb_mbInfos b -> mbi_shardId i = 0 -> exists x, x ∈ blocks_at d1 9 /\ info_of x = i /\ certified backup x.
Proof.
  destruct agreed_final_ok as (d1 & b & mb & em & d2 & Ha & E & Hi). exists d1, b, mb, em, d2. split; [done|]. split; [done|].
  destruct (accepted_finalblock_matches 1 100 backup d1 b (Some mb) [] clock clock em d2 backup_in_committee (agreed_collected d1 b mb Ha) E)
    as (Hm & _ & Hs & _). split; [apply (fm_number _ _ _ Hm)|]. split; [apply (fm_root _ _ _ Hm)|].
  intros i Hin H0. destruct (Hs i Hin) as (x & Hx); [rewrite H0; vm_compute; discriminate|]. by exists x.
Defined.

(** ** A block left out *)

(** Two shards, with the same members for brevity. *)
Definition two_shards : FinalContext :=
  mkFinalContext
    (mkMicroContext false 1 100 (mkValidatorContext 9 2 2 true 1 1 100) no_populating false 0 0 zero_hash zero_hash 3 5 5 (4, 4, 9) [shard0; shard0]
       committee (key 8) [] 5 2 10 (fun _ => None))
    BACKUP_DS {[miner := 0; nth 1 sample_pubs miner := 1]} 10 1 5 1 9 8 4 (fun _ => Some [9]).
Definition header1 : MicroBlockHeader :=
  mkMicroHeader (mkHeaderBase 1 (GetShardHash shard0) zero_hash) 1 100 7 12 9 zero_hash zero_hash zero_hash 4 (nth 1 sample_pubs miner) 3.
Definition block1 : MicroBlock :=
  mkMicroBlock (mkBlockBase (GetMyHash header1) (CosigExample.cosign [true; true; true] [6; 9; 1; 4]) 20000000) header1 [].

(** A final block that names the first shard's block twice, and counts both. *)
Definition twice (d : FNode) : TxBlock :=
  let infos := [info_of (block0 2); info_of (block0 2)] in
  TxBlock_new 20000000
    (mkTxHeader (mkHeaderBase 1 (GetDSCommitteeHash committee) zero_hash) 200 12 22 9 (GetStateRootHash (fn_store d))
       (hash_bytes (GetStateDeltaHash (fn_store d))) (GetMbInfoHash infos) 6 (key 7) 3) infos (CoSignatures_new 2).

Definition twice_accepted : option (list Z * bool * list Z) :=
  match submit two_shards fresh_node (block0 2) with
  | Ret (true, d1) =>
      match submit two_shards d1 block1 with
      | Ret (true, d2) =>
          match validate two_shards d2 (twice d2) None with
          | Ret (ok, _, _) => Some (shard_of <$> blocks_at d2 9, ok, mbi_shardId <$> txb_mbInfos (twice d2))
          | Fault _ => None
          end
      | _ => None
      end
  | _ => None
  end.

(** The node holds the blocks of both shards; a final block without the second shard's
    passes its checks. *)
Example block_left_out : twice_accepted = Some ([0; 1], true, [0; 0]).
Proof. vm_compute. reflexivity. Qed.

(** ** The order of the set *)

(** A block of the second shard that follows another final block. *)
Definition stray : MicroBlock :=
  let h := mkMicroHeader (mkHeaderBase 1 (GetShardHash shard0) (replicate 32 1)) 1 100 7 12 9 zero_hash zero_hash zero_hash 4
             (nth 1 sample_pubs miner) 3 in
  mkMicroBlock (mkBlockBase (GetMyHash h) (CosigExample.cosign [true; true; true] [6; 9; 1; 4]) 20000000) h [].

(** It is signed and taken, but the set has an equivalent block and does not grow. *)
Example stray_dropped :
  match submit two_shards fresh_node (block0 2) with Ret (_, d) => got (submit two_shards d stray) | _ => None end = Some (true, [(0, 2)]).
Proof. vm_compute. reflexivity. Qed.

(** Three such blocks are not ordered as a set requires. *)
Example order_not_weak : strict_weak [block0 2; block1; stray] = false.
Proof. vm_compute. reflexivity. Qed.

End FinalSample.
