(* ===== verification/ViewChange.v ===== *)
(** * View changes: libDirectoryService/ViewChangePreProcessing.cpp and
    ViewChangePostProcessing.cpp

    When the consensus of the directory committee does not end in time, every member
    notes the leader as faulty and computes the next candidate from a hash; the candidate
    proposes a view-change block, the others check it, and when it is decided the faulty
    leaders go to the back of the committee.  Timers, threads and the consensus objects
    are outside; the answer of the seed nodes is the argument [precheck], and the
    announcement is given in decoded form. *)

From stdpp Require Import base numbers gmap countable list.
From S2P Require Import Prelude Serializable Peer OpenSSL Schnorr MultiSig LevelDB TxnPool AccountStore ConsensusMessages ConsensusCommon BlockChain BlockLinkChain Blocks Committee BlockStorage TxnOrder MicroBlock PoW PoWSubmission DSBlockProposal.
Open Scope Z_scope.

(** The value of the enumeration, as a header stores it. *)
Definition DirState_value (s : DirStates) : Z :=
  match s with
  | POW_SUBMISSION => 0
  | DSBLOCK_CONSENSUS_PREP => 1
  | DSBLOCK_CONSENSUS => 2
  | MICROBLOCK_SUBMISSION => 3
  | FINALBLOCK_CONSENSUS_PREP => 4
  | FINALBLOCK_CONSENSUS => 5
  | VIEWCHANGE_CONSENSUS_PREP => 6
  | VIEWCHANGE_CONSENSUS => 7
  | ERROR => 8
  end.

Definition STATE_CHECK_STATE : list (DirStates * DirStates) :=
  [(DSBLOCK_CONSENSUS_PREP, DSBLOCK_CONSENSUS_PREP); (DSBLOCK_CONSENSUS_PREP, DSBLOCK_CONSENSUS);
   (DSBLOCK_CONSENSUS, DSBLOCK_CONSENSUS_PREP); (DSBLOCK_CONSENSUS, DSBLOCK_CONSENSUS);
   (FINALBLOCK_CONSENSUS_PREP, FINALBLOCK_CONSENSUS_PREP); (FINALBLOCK_CONSENSUS_PREP, FINALBLOCK_CONSENSUS);
   (FINALBLOCK_CONSENSUS, FINALBLOCK_CONSENSUS_PREP); (FINALBLOCK_CONSENSUS, FINALBLOCK_CONSENSUS)].

Definition ValidateViewChangeState (LOOKUP_NODE_MODE : bool) (NodeState : DirStates) (StatePropose : Z) : bool :=
  if LOOKUP_NODE_MODE then true
  else existsb (fun p => bool_decide (p.1 = NodeState) && (DirState_value p.2 =? StatePropose)) STATE_CHECK_STATE.

(** [DirectoryService::IsDSBlockVCState], and the same for final blocks. *)
Definition IsDSBlockVCState (vcBlockState : Z) : bool :=
  (vcBlockState =? DirState_value DSBLOCK_CONSENSUS_PREP) || (vcBlockState =? DirState_value DSBLOCK_CONSENSUS).
Definition is_final_state (vcBlockState : Z) : bool :=
  (vcBlockState =? DirState_value FINALBLOCK_CONSENSUS) || (vcBlockState =? DirState_value FINALBLOCK_CONSENSUS_PREP).

(** [std::vector<std::pair<PubKey, Peer>>::operator==] *)
Fixpoint nodes_eqb `{OpenSSL} (l l' : list (PubKey * Peer)) : bool :=
  match l, l' with
  | [], [] => true
  | n :: l, n' :: l' => node_eqb n n' && nodes_eqb l l'
  | _, _ => false
  end.

Section viewchange.
Context `{Hssl : OpenSSL} `{Hvc : HeaderProto VCBlockHeader} `{Hcommittee : CommitteeProto} `{Hlink : LinkProto} `{Hagain : Sha2Again}.
Context `{Hto : ToBytes VCBlock} `{Hfrom : FromBytes VCBlock} {DB : Type} `{Hdb : leveldb DB}.

(** What the handlers read of the mediator and the configuration. *)
Record VCContext := mkVCContext {
  vx_lookup : bool;
  vx_guard : bool;               (** [GUARD_MODE] *)
  vx_numGuards : Z;              (** [GetNumOfDSGuard] *)
  vx_selfKey : PubKey;
  vx_selfPeer : Peer;
  vx_dsBlockNum : Z;
  vx_txBlockNum : Z;
  vx_epochNum : Z;
  vx_lastTxBlockHash : bytes;
  vx_VCBLOCK_VERSION : Z;
  vx_BLOCKLINK_VERSION : Z;
  vx_variance : Z;
  vx_timeout : Z
}.

(** What the node object keeps about the directory committee.  In the source the list is
    the committee object itself, shared; the handlers set it with every change. *)
Record NodeIds := mkNodeIds {
  m_myShardMembers : DequeOfNode;
  ni_myID : Z;
  ni_leaderID : Z;
  m_isPrimary : bool
}.

Record VCState := mkVCState {
  vs_state : DirStates;          (** [m_state] *)
  m_viewChangestate : DirStates;
  m_viewChangeCounter : Z;
  m_candidateLeaderIndex : Z;
  m_cumulativeFaultyLeaders : DequeOfNode;
  m_pendingVCBlock : option VCBlock;
  vs_DSCommittee : DequeOfNode;
  m_consensusMyID : Z;
  m_consensusLeaderID : Z;
  vs_mode : Mode;
  vs_links : CircularArray BlockLink;
  vs_storage : BlockStorage DB;
  m_VCBlockVector : list VCBlock;
  vs_node : NodeIds
}.
Implicit Types (c : VCContext) (s : VCState).

Definition vs_set_state s x y : VCState :=
  mkVCState x y (m_viewChangeCounter s) (m_candidateLeaderIndex s) (m_cumulativeFaultyLeaders s) (m_pendingVCBlock s) (vs_DSCommittee s)
    (m_consensusMyID s) (m_consensusLeaderID s) (vs_mode s) (vs_links s) (vs_storage s) (m_VCBlockVector s) (vs_node s).
Definition vs_set_round s counter index faulty : VCState :=
  mkVCState (vs_state s) (m_viewChangestate s) counter index faulty (m_pendingVCBlock s) (vs_DSCommittee s)
    (m_consensusMyID s) (m_consensusLeaderID s) (vs_mode s) (vs_links s) (vs_storage s) (m_VCBlockVector s) (vs_node s).
Definition vs_set_pending s b : VCState :=
  mkVCState (vs_state s) (m_viewChangestate s) (m_viewChangeCounter s) (m_candidateLeaderIndex s) (m_cumulativeFaultyLeaders s) b
    (vs_DSCommittee s) (m_consensusMyID s) (m_consensusLeaderID s) (vs_mode s) (vs_links s) (vs_storage s) (m_VCBlockVector s) (vs_node s).
Definition vs_set_committee s mode comm myID leaderID node : VCState :=
  mkVCState (vs_state s) (m_viewChangestate s) (m_viewChangeCounter s) (m_candidateLeaderIndex s) (m_cumulativeFaultyLeaders s)
    (m_pendingVCBlock s) comm myID leaderID mode (vs_links s) (vs_storage s) (m_VCBlockVector s) node.
Definition vs_set_chain s links storage blocks : VCState :=
  mkVCState (vs_state s) (m_viewChangestate s) (m_viewChangeCounter s) (m_candidateLeaderIndex s) (m_cumulativeFaultyLeaders s)
    (m_pendingVCBlock s) (vs_DSCommittee s) (m_consensusMyID s) (m_consensusLeaderID s) (vs_mode s) links storage blocks (vs_node s).

(** [DirectoryService::SetState] *)
Definition vc_SetState c s (x : DirStates) : VCState := if vx_lookup c then s else vs_set_state s x (m_viewChangestate s).

Definition SetLastKnownGoodState c s : VCState :=
  if vx_lookup c then s
  else
    match vs_state s with
    | VIEWCHANGE_CONSENSUS_PREP | VIEWCHANGE_CONSENSUS | ERROR => s
    | x => vs_set_state s (vs_state s) x
    end.

Definition CleanUpViewChange s (isPrecheckFail : bool) : VCState :=
  vs_set_round s (if isPrecheckFail then 0 else m_viewChangeCounter s) 0 [].

(** ** The next candidate *)

(** [Some]: the last view-change block, if its hash is to be used. *)
Definition CheckUseVCBlockInsteadOfDSBlock c s (bl : BlockLink) : outcome (option VCBlock) :=
  if bl_type bl =? BlockType_value BT_VC then
    prev ← GetVCBlock (T := VCBlock) (vs_storage s) (bl_hash bl);
    Ret (match prev with
         | None => None
         | Some b =>
             if negb (vch_VieWChangeEpochNo (vcb_header b) =? vx_epochNum c) then None
             else
               let mine := DirState_value (m_viewChangestate s) in
               let theirs := vch_ViewChangeState (vcb_header b) in
               if IsDSBlockVCState mine then if IsDSBlockVCState theirs then Some b else None
               else if is_final_state mine then if is_final_state theirs then Some b else None
               else Some b
         end)
  else Ret None.

(** The hash modulo the size of the committee, or the number of guards. *)
Definition leader_index c s (hash : bytes) : outcome Z :=
  h ← charArrTo16Bits hash;
  let n := if vx_guard c then vx_numGuards c else zlen (vs_DSCommittee s) in
  if n =? 0 then Fault Undefined else Ret (u16 (h mod n)).

(** The loop as long as the index is that of the leader.  The hash object is never
    reset: [history] has what was hashed before each of its [Finalize]. *)
Fixpoint next_leader c s (fuel : nat) (history : list bytes) (index : Z) : outcome Z :=
  if index =? m_consensusLeaderID s then
    match fuel with
    | O => Fault StillDrawing
    | S fuel =>
        let digest := sha2_again history [] in
        index ← leader_index c s (sha2_again (history ++ [[]]) digest);
        next_leader c s fuel (history ++ [[]; digest]) index
    end
  else Ret index.

Definition CalculateNewLeaderIndex c s (fuel : nat) : outcome Z :=
  latestIndex ← GetLatestIndex (vs_links s);
  bl ← GetBlockLink (vx_BLOCKLINK_VERSION c) (vs_links s) (st_db (vs_storage s) BLOCKLINK) latestIndex;
  prev ← CheckUseVCBlockInsteadOfDSBlock c s bl;
  let hash := match prev with Some b => bb_blockHash (vcb_base b) | None => vx_lastTxBlockHash c end in
  let vcCounterBytes := default [] (Serializable.SetNumber [] 0 (m_viewChangeCounter s) 4) in
  let message := SHA2.Update (SHA2.Update SHA2.Reset hash) vcCounterBytes in
  index ← leader_index c s (sha2_again [] message);
  next_leader c s fuel [message] index.

(** ** The candidate *)

Definition VCBlock_new (now : Z) (header : VCBlockHeader) (cosigs : CoSignatures) : VCBlock :=
  mkVCBlock (mkBlockBase (GetMyHash header) cosigs now) header.
Definition VCBlockHeader_default : VCBlockHeader :=
  mkVCHeader BlockHeaderBase_default (u64 (-1)) (u64 (-1)) 0 Peer_default PubKey_default 0 [].
Definition VCBlock_default : VCBlock := mkVCBlock BlockBase_default VCBlockHeader_default.

(** A member lists itself with the empty address. *)
Definition real_node c (n : PubKey * Peer) : PubKey * Peer :=
  if PubKey_eq n.1 (vx_selfKey c) && Peer_eqb n.2 Peer_default then (n.1, vx_selfPeer c) else n.

Definition ComputeNewCandidateLeader c s (candidateLeaderIndex now : Z) : outcome (bool * VCState) :=
  if vx_lookup c then Ret (true, s)
  else
    candidate ← at_ (vs_DSCommittee s) candidateLeaderIndex;
    link ← GetLatestBlockLink (vs_links s);
    let header :=
      mkVCHeader (mkHeaderBase (vx_VCBLOCK_VERSION c) (GetDSCommitteeHash (vs_DSCommittee s)) (bl_hash link))
        (u64 (vx_dsBlockNum c + 1)) (vx_epochNum c) (DirState_value (m_viewChangestate s)) (real_node c candidate).2 candidate.1
        (m_viewChangeCounter s) (m_cumulativeFaultyLeaders s) in
    Ret (true, vs_set_pending s (Some (VCBlock_new now header (CoSignatures_new 1)))).

(** Up to the consensus object; [false]: the node is behind and rejoins. *)
Definition RunConsensusOnViewChange c s (fuel : nat) (precheck : bool) (now : Z) : outcome (bool * VCState) :=
  if vx_lookup c then Ret (true, s)
  else
    let s := vc_SetState c (SetLastKnownGoodState c s) VIEWCHANGE_CONSENSUS_PREP in
    if negb (vx_dsBlockNum c =? 0) && negb (vx_txBlockNum c =? 0) && negb precheck then Ret (false, CleanUpViewChange s true)
    else
      let counter := u32 (m_viewChangeCounter s + 1) in
      let faultyLeaderIndex := if counter =? 1 then m_consensusLeaderID s else m_candidateLeaderIndex s in
      faulty ← at_ (vs_DSCommittee s) faultyLeaderIndex;
      let s := vs_set_round s counter (m_candidateLeaderIndex s) (m_cumulativeFaultyLeaders s ++ [real_node c faulty]) in
      index ← CalculateNewLeaderIndex c s fuel;
      let s := vs_set_round s (m_viewChangeCounter s) index (m_cumulativeFaultyLeaders s) in
      candidate ← at_ (vs_DSCommittee s) index;
      '(ok, s) ← (if Peer_eqb candidate.2 Peer_default then ComputeNewCandidateLeader c s index now else Ret (true, s));
      Ret (true, if ok : bool then vc_SetState c s VIEWCHANGE_CONSENSUS else s).

(** ** The checks of the others *)

(** The first entry with the empty address gets the node's own. *)
Fixpoint own_address (self : Peer) (l : DequeOfNode) : DequeOfNode :=
  match l with
  | [] => []
  | n :: l => if Peer_eqb n.2 Peer_default then (n.1, self) :: l else n :: own_address self l
  end.

(** [announced]: what [GetDSVCBlockAnnouncement] reads from the message. *)
Definition ViewChangeValidator c s (fuel : nat) (announced : option VCBlock) (clock : Z * Z * Z) `{Hmath : SafeMath} : outcome (bool * VCState) :=
  if vx_lookup c then Ret (true, s)
  else
    match announced with
    | None => Ret (false, vs_set_pending s (Some VCBlock_default))
    | Some b =>
        let s := vs_set_pending s (Some b) in
        let h := vcb_header b in
        if negb (hb_version (vch_base h) =? vx_VCBLOCK_VERSION c) then Ret (false, s)
        else if negb (CheckWhetherBlockIsLatest (vx_dsBlockNum c) (vx_epochNum c) (vch_VieWChangeDSEpochNo h) (vch_VieWChangeEpochNo h))
        then Ret (false, s)
        else if negb (bool_decide (GetMyHash h = bb_blockHash (vcb_base b))) then Ret (false, s)
        else if negb (VerifyTimestamp (vx_variance c) (vx_timeout c) (bb_timestamp (vcb_base b)) (vx_timeout c) clock) then Ret (false, s)
        else if negb (bool_decide (GetDSCommitteeHash (vs_DSCommittee s) = hb_committeeHash (vch_base h))) then Ret (false, s)
        else
          link ← GetLatestBlockLink (vs_links s);
          if negb (bool_decide (bl_hash link = hb_prevHash (vch_base h))) then Ret (false, s)
          else
            index ← CalculateNewLeaderIndex c s fuel;
            candidate ← at_ (vs_DSCommittee s) index;
            if Peer_neqb candidate.2 (vch_CandidateLeaderNetworkInfo h) then Ret (false, s)
            else if negb (nodes_eqb (vch_FaultyLeaders h) (own_address (vx_selfPeer c) (m_cumulativeFaultyLeaders s))) then Ret (false, s)
            else if negb (PubKey_eq candidate.1 (vch_CandidateLeaderPubKey h)) then Ret (false, s)
            else if negb (ValidateViewChangeState (vx_lookup c) (m_viewChangestate s) (vch_ViewChangeState h)) then Ret (false, s)
            else Ret (m_viewChangeCounter s =? vch_VCCounter h, s)
    end.

(** ** The decided block *)

(** The state that the consensus goes on with. *)
Definition resume c s (viewChangeState : Z) : VCState :=
  if IsDSBlockVCState viewChangeState then vc_SetState c s DSBLOCK_CONSENSUS_PREP
  else if is_final_state viewChangeState then vc_SetState c s FINALBLOCK_CONSENSUS_PREP
  else s.

(** The block is linked, stored, and kept for the shards before a directory block. *)
Definition record_vcblock c s (b : VCBlock) : outcome (bool * VCState) :=
  latest ← GetLatestIndex (vs_links s);
  '(_, links, db) ← AddBlockLink (vx_BLOCKLINK_VERSION c) (vs_links s) (st_db (vs_storage s) BLOCKLINK) (u64 (latest + 1))
                      (vch_VieWChangeDSEpochNo (vcb_header b)) (BlockType_value BT_VC) (bb_blockHash (vcb_base b));
  '(ok, storage) ← PutVCBlock (set_store (vs_storage s) BLOCKLINK db) (bb_blockHash (vcb_base b)) (to_bytes b);
  Ret (ok, vs_set_chain s links storage
             (if (ok : bool) && IsDSBlockVCState (vch_ViewChangeState (vcb_header b)) then m_VCBlockVector s ++ [b] else m_VCBlockVector s)).

(** [cosigs]: what the consensus object holds; [false]: one of the early returns. *)
Definition ProcessViewChangeConsensusWhenDone c s (cosigs : CoSignatures) : outcome (bool * VCState) :=
  if vx_lookup c then Ret (true, s)
  else
    match m_pendingVCBlock s with
    | None => Fault NullPointer
    | Some pending =>
        let b := mkVCBlock (mkBlockBase (bb_blockHash (vcb_base pending)) cosigs (bb_timestamp (vcb_base pending))) (vcb_header pending) in
        let s := vs_set_pending s (Some b) in
        let h := vcb_header b in
        '(keys, _) ← collect_signers (cs_B2 cosigs) (fst <$> vs_DSCommittee s) 0;
        match AggregatePubKeys keys, header_checked h with
        | Some aggregatedKey, Some header =>
            message ← cosigned_message header cosigs;
            if negb (MultiSigVerifyRange message 0 (u32 (zlen message)) (cs_CS2 cosigs) aggregatedKey) then Ret (false, s)
            else
              let is_self := Peer_eqb (vch_CandidateLeaderNetworkInfo h) (vx_selfPeer c) && PubKey_eq (vch_CandidateLeaderPubKey h) (vx_selfKey c) in
              let mode := if is_self then PRIMARY_DS else BACKUP_DS in
              let comm := ds_eject_faulty (vx_selfPeer c) (vx_guard c) (vs_DSCommittee s) (vch_FaultyLeaders h) in
              match find_index (fun n => node_eqb n (vx_selfKey c, Peer_default)) comm with
              | None => Ret (false, vs_set_committee s mode comm (m_consensusMyID s) (m_consensusLeaderID s) (vs_node s))
              | Some myID =>
                  let myID := u16 myID in
                  let found :=
                    if PubKey_eq (vch_CandidateLeaderPubKey h) (vx_selfKey c) && Peer_eqb (vch_CandidateLeaderNetworkInfo h) (vx_selfPeer c)
                    then Some myID
                    else u16 <$> find_index (fun n => node_eqb n (vch_CandidateLeaderPubKey h, vch_CandidateLeaderNetworkInfo h)) comm in
                  match found with
                  | None => Ret (false, vs_set_committee s mode comm myID (m_consensusLeaderID s) (vs_node s))
                  | Some leaderID =>
                      let s := vs_set_committee s mode comm myID leaderID (mkNodeIds comm myID leaderID (myID =? leaderID)) in
                      record_vcblock c (resume c s (vch_ViewChangeState h)) b
                  end
              end
        | _, _ => Ret (false, s)
        end
    end.

(** The end of [ProcessViewChangeConsensus], when the consensus object is done. *)
Definition view_change_done c s (cosigs : CoSignatures) : outcome (bool * VCState) :=
  ProcessViewChangeConsensusWhenDone c (CleanUpViewChange s false) cosigs.

End viewchange.
