(* ===== verification/ViewChangeProperties.v ===== *)
(** * Agreement on view changes

    Members of the directory committee, each of which lists itself with the empty
    address, blame the same leaders, find the same candidate, accept its block, and end
    with the same committee and the same leader. *)

From stdpp Require Import base numbers gmap countable list.
From S2P Require Import Prelude Serializable Peer OpenSSL Schnorr MultiSig LevelDB TxnPool AccountStore ConsensusMessages ConsensusCommon BlockChain BlockLinkChain Blocks Committee BlockStorage TxnOrder MicroBlock MicroBlockProperties PoW PoWSubmission DSBlockProposal ViewChange.
Open Scope Z_scope.

Lemma at_fmap {A B} (f : A -> B) l i : at_ (f <$> l) i = (x ← at_ l i; Ret (f x)).
Proof. unfold at_, vec_at. destruct (0 <=? i); [|done]. rewrite list_lookup_fmap. by destruct (l !! Z.to_nat i). Qed.

Section views.
Context `{Hnf : OpenSSLNoFail} `{Hvc : HeaderProto VCBlockHeader} `{Hcommittee : CommitteeProto} `{Hlink : LinkProto} `{Hagain : Sha2Again}.
Context `{Hto : ToBytes VCBlock} `{Hfrom : FromBytes VCBlock} {DB : Type} `{Hdb : leveldb DB}.
Local Abbreviation State := (@VCState _ DB).
Implicit Types (c cA cB : VCContext) (s sA sB : State) (G : DequeOfNode).

(** The committee with the addresses of its members. *)
Record roster_ok G : Prop := {
  ro_good : good_nodes G;
  ro_address : Forall (fun n => Peer_eqb n.2 Peer_default = false) G;
  ro_distinct n m : n ∈ G -> m ∈ G -> Peer_eqb n.2 m.2 = true -> n = m
}.

(** A member, which lists itself with the empty address. *)
Record member c s G : Prop := {
  me_lookup : vx_lookup c = false;
  me_view : vs_DSCommittee s = own_view (vx_selfKey c) <$> G;
  me_self : (vx_selfKey c, vx_selfPeer c) ∈ G
}.

(** Two members with the same chain, and the same as far as the choice of the candidate
    goes. *)
Record same_choice cA sA cB sB : Prop := {
  sc_guard : vx_guard cB = vx_guard cA;
  sc_numGuards : vx_numGuards cB = vx_numGuards cA;
  sc_dsBlock : vx_dsBlockNum cB = vx_dsBlockNum cA;
  sc_epoch : vx_epochNum cB = vx_epochNum cA;
  sc_lastHash : vx_lastTxBlockHash cB = vx_lastTxBlockHash cA;
  sc_version : vx_VCBLOCK_VERSION cB = vx_VCBLOCK_VERSION cA;
  sc_linkVersion : vx_BLOCKLINK_VERSION cB = vx_BLOCKLINK_VERSION cA;
  sc_viewState : m_viewChangestate sB = m_viewChangestate sA;
  sc_counter : m_viewChangeCounter sB = m_viewChangeCounter sA;
  sc_leader : m_consensusLeaderID sB = m_consensusLeaderID sA;
  sc_links : vs_links sB = vs_links sA;
  sc_linkdb : st_db (vs_storage sB) BLOCKLINK = st_db (vs_storage sA) BLOCKLINK;
  sc_vcdb : st_db (vs_storage sB) VC_BLOCK = st_db (vs_storage sA) VC_BLOCK;
  sc_size : zlen (vs_DSCommittee sB) = zlen (vs_DSCommittee sA)
}.

(** Two members that agree on the round. *)
Record agree cA sA cB sB : Prop := {
  ag_choice : same_choice cA sA cB sB;
  ag_state : vs_state sB = vs_state sA;
  ag_index : m_candidateLeaderIndex sB = m_candidateLeaderIndex sA;
  ag_faulty : m_cumulativeFaultyLeaders sB = m_cumulativeFaultyLeaders sA
}.

(** ** The candidate *)

Lemma leader_index_same cA sA cB sB hash :
  same_choice cA sA cB sB -> leader_index cB sB hash = leader_index cA sA hash.
Proof. intros Ha. unfold leader_index. by rewrite (sc_guard _ _ _ _ Ha), (sc_numGuards _ _ _ _ Ha), (sc_size _ _ _ _ Ha). Qed.

Lemma next_leader_same cA sA cB sB fuel history index :
  same_choice cA sA cB sB ->
  next_leader cB sB fuel history index = next_leader cA sA fuel history index.
Proof.
  intros Ha. revert history index. induction fuel as [|fuel IH]; intros history index; cbn [next_leader];
    rewrite (sc_leader _ _ _ _ Ha); [done|]. destruct (index =? _); [|done].
  rewrite (leader_index_same _ _ _ _ _ Ha). destruct (leader_index cA sA _) as [i|]; [|done]. cbn [mbind outcome_bind]. apply IH.
Qed.

Lemma CalculateNewLeaderIndex_same cA sA cB sB fuel :
  same_choice cA sA cB sB ->
  CalculateNewLeaderIndex cB sB fuel = CalculateNewLeaderIndex cA sA fuel.
Proof.
  intros Ha. unfold CalculateNewLeaderIndex, CheckUseVCBlockInsteadOfDSBlock, GetVCBlock.
  rewrite (sc_links _ _ _ _ Ha), (sc_linkdb _ _ _ _ Ha), (sc_linkVersion _ _ _ _ Ha), (sc_counter _ _ _ _ Ha), (sc_lastHash _ _ _ _ Ha),
    (sc_epoch _ _ _ _ Ha), (sc_viewState _ _ _ _ Ha), (sc_vcdb _ _ _ _ Ha).
  destruct (GetLatestIndex _) as [i|]; [|done]. cbn [mbind outcome_bind].
  destruct (GetBlockLink _ _ _ _) as [bl|]; [|done]. cbn [mbind outcome_bind].
  match goal with |- (?x ≫= _) = (?x ≫= _) => destruct x as [prev|]; [|done] end. cbn [mbind outcome_bind].
  rewrite (leader_index_same _ _ _ _ _ Ha). destruct (leader_index cA sA _) as [j|]; [|done]. cbn [mbind outcome_bind].
  by apply next_leader_same.
Qed.

(** The candidate is another one than the leader. *)
Lemma next_leader_other c s fuel history index i : next_leader c s fuel history index = Ret i -> i <> m_consensusLeaderID s.
Proof.
  revert history index. induction fuel as [|fuel IH]; intros history index; cbn [next_leader]; destruct (Z.eqb_spec index (m_consensusLeaderID s));
    try (by intros [= <-]). intros E. apply bind_Ret in E as (j & _ & E). by eapply IH.
Qed.

Lemma candidate_other c s fuel i : CalculateNewLeaderIndex c s fuel = Ret i -> i <> m_consensusLeaderID s.
Proof.
  intros E. unfold CalculateNewLeaderIndex in E. apply bind_Ret in E as (x & _ & E). apply bind_Ret in E as (bl & _ & E).
  apply bind_Ret in E as (prev & _ & E). apply bind_Ret in E as (j & _ & E). by eapply next_leader_other.
Qed.

(** A committee of one, or one guard, that leads has no other candidate: the loop never
    ends. *)
Lemma lone_leader_never_ends c s fuel :
  (if vx_guard c then vx_numGuards c else zlen (vs_DSCommittee s)) = 1 -> m_consensusLeaderID s = 0 ->
  forall i, CalculateNewLeaderIndex c s fuel <> Ret i.
Proof.
  intros Hn Hl. assert (forall hash j, leader_index c s hash = Ret j -> j = 0) as Hz.
  { intros hash j E. unfold leader_index in E. rewrite Hn in E. apply bind_Ret in E as (h & _ & E). cbn [Z.eqb] in E. injection E as <-.
    by rewrite Z.mod_1_r. }
  assert (forall fuel history i, next_leader c s fuel history 0 <> Ret i) as Hnext.
  { intros n. induction n as [|n IH]; intros history i E; cbn [next_leader] in E; rewrite Hl in E; [done|]. cbn [Z.eqb] in E.
    apply bind_Ret in E as (j & Ej & E). apply Hz in Ej as ->. by eapply IH. }
  intros i E. unfold CalculateNewLeaderIndex in E. apply bind_Ret in E as (x & _ & E). apply bind_Ret in E as (bl & _ & E).
  apply bind_Ret in E as (prev & _ & E). apply bind_Ret in E as (j & Ej & E). apply Hz in Ej as ->. by eapply Hnext.
Qed.

(** ** One's own address *)

Lemma self_node G c s n : roster_ok G -> member c s G -> n ∈ G -> PubKey_eq n.1 (vx_selfKey c) = true -> n = (vx_selfKey c, vx_selfPeer c).
Proof.
  intros [Hg _ _] [_ _ Hs] Hn Hk. apply PubKey_eq_spec in Hk; [|by eapply good_node_ok|by apply (good_node_ok _ _ Hg Hs)].
  by eapply good_node_key.
Qed.

Lemma real_own_view G c s n : roster_ok G -> member c s G -> n ∈ G -> real_node c (own_view (vx_selfKey c) n) = n.
Proof.
  intros Hr Hm Hn. unfold real_node, own_view. destruct (PubKey_eq n.1 (vx_selfKey c)) eqn:Hk; cbn [fst snd].
  - rewrite Hk. rewrite (self_node G c s n Hr Hm Hn Hk). done.
  - by rewrite Hk.
Qed.

Lemma own_view_empty G c s n :
  roster_ok G -> member c s G -> n ∈ G -> Peer_eqb (own_view (vx_selfKey c) n).2 Peer_default = PubKey_eq n.1 (vx_selfKey c).
Proof.
  intros [_ Ha _] _ Hn. unfold own_view. destruct (PubKey_eq n.1 (vx_selfKey c)); [done|]. rewrite Forall_forall in Ha. by apply Ha.
Qed.

Lemma member_size c s G : member c s G -> zlen (vs_DSCommittee s) = zlen G.
Proof. intros Hm. rewrite (me_view _ _ _ Hm). unfold zlen. by rewrite length_fmap. Qed.

Lemma at_In {A} (l : list A) i x : at_ l i = Ret x -> x ∈ l.
Proof. intros [_ Hat]%at_Ret. by eapply list_elem_of_lookup_2. Qed.

(** ** A round *)

(** The state when a member has noted the faulty leader [f], and when it has computed
    the candidate's index. *)
Definition begun c s (f : PubKey * Peer) : State :=
  let s := vc_SetState c (SetLastKnownGoodState c s) VIEWCHANGE_CONSENSUS_PREP in
  vs_set_round s (u32 (m_viewChangeCounter s + 1)) (m_candidateLeaderIndex s) (m_cumulativeFaultyLeaders s ++ [f]).
Definition chosen c s (f : PubKey * Peer) (index : Z) : State :=
  let s := begun c s f in vs_set_round s (m_viewChangeCounter s) index (m_cumulativeFaultyLeaders s).

Definition faulty_index s : Z := if u32 (m_viewChangeCounter s + 1) =? 1 then m_consensusLeaderID s else m_candidateLeaderIndex s.

Definition vc_header c s (link : BlockLink) (candidate : PubKey * Peer) : VCBlockHeader :=
  mkVCHeader (mkHeaderBase (vx_VCBLOCK_VERSION c) (GetDSCommitteeHash (vs_DSCommittee s)) (bl_hash link))
    (u64 (vx_dsBlockNum c + 1)) (vx_epochNum c) (DirState_value (m_viewChangestate s)) candidate.2 candidate.1
    (m_viewChangeCounter s) (m_cumulativeFaultyLeaders s).

Lemma begun_fields c s f :
  vx_lookup c = false ->
  m_viewChangeCounter (begun c s f) = u32 (m_viewChangeCounter s + 1) /\ m_consensusLeaderID (begun c s f) = m_consensusLeaderID s /\
  m_cumulativeFaultyLeaders (begun c s f) = m_cumulativeFaultyLeaders s ++ [f] /\ vs_DSCommittee (begun c s f) = vs_DSCommittee s /\
  vs_links (begun c s f) = vs_links s /\ vs_storage (begun c s f) = vs_storage s /\
  m_candidateLeaderIndex (begun c s f) = m_candidateLeaderIndex s.
Proof. intros Hl. unfold begun, vc_SetState, SetLastKnownGoodState. rewrite Hl. by destruct (vs_state s). Qed.

Lemma member_fields c s G s' : member c s G -> vs_DSCommittee s' = vs_DSCommittee s -> member c s' G.
Proof. intros [Hl Hv Hs] E. split; [done|by rewrite E|done]. Qed.

Lemma agree_begun cA sA cB sB f : vx_lookup cA = false -> vx_lookup cB = false -> agree cA sA cB sB -> agree cA (begun cA sA f) cB (begun cB sB f).
Proof.
  intros HA HB [[] Hst Hi Hf]. unfold begun, vc_SetState, SetLastKnownGoodState. rewrite HA, HB, Hst.
  destruct (vs_state sA); (split; [split|..]; cbn -[zlen]; congruence).
Qed.

Lemma agree_chosen cA sA cB sB f index :
  vx_lookup cA = false -> vx_lookup cB = false -> agree cA sA cB sB -> agree cA (chosen cA sA f index) cB (chosen cB sB f index).
Proof. intros HA HB Ha. destruct (agree_begun cA sA cB sB f HA HB Ha) as [[] ? ? ?]. unfold chosen. by repeat split. Qed.

(** A run, taken apart. *)
Lemma run_iff c s G fuel now s' :
  roster_ok G -> member c s G ->
  RunConsensusOnViewChange c s fuel true now = Ret (true, s') <->
  exists f index candidate, at_ G (faulty_index s) = Ret f /\ CalculateNewLeaderIndex c (begun c s f) fuel = Ret index /\
    at_ G index = Ret candidate /\
    if PubKey_eq candidate.1 (vx_selfKey c) then
      exists link, GetLatestBlockLink (vs_links s) = Ret link /\
        s' = vc_SetState c (vs_set_pending (chosen c s f index)
               (Some (VCBlock_new now (vc_header c (chosen c s f index) link candidate) (CoSignatures_new 1)))) VIEWCHANGE_CONSENSUS
    else s' = vc_SetState c (chosen c s f index) VIEWCHANGE_CONSENSUS.
Proof.
  intros Hr Hm. pose proof (me_lookup _ _ _ Hm) as Hl. unfold RunConsensusOnViewChange. rewrite Hl, andb_false_r.
  set (s0 := vc_SetState c (SetLastKnownGoodState c s) VIEWCHANGE_CONSENSUS_PREP).
  assert (vs_DSCommittee s0 = own_view (vx_selfKey c) <$> G /\ m_viewChangeCounter s0 = m_viewChangeCounter s /\
    m_consensusLeaderID s0 = m_consensusLeaderID s /\ m_candidateLeaderIndex s0 = m_candidateLeaderIndex s) as (Hv & Hcn & Hld & Hix).
  { rewrite <- (me_view _ _ _ Hm). unfold s0, vc_SetState, SetLastKnownGoodState. rewrite Hl. by destruct (vs_state s). }
  rewrite Hv, Hcn, Hld, Hix, at_fmap. fold (faulty_index s). destruct (at_ G (faulty_index s)) as [f|] eqn:Ef;
    [|split; [done|by intros (f' & i & cd & ? & _)]].
  cbn [mbind outcome_bind]. rewrite (real_own_view G c s f Hr Hm (at_In _ _ _ Ef)).
  assert (vs_set_round s0 (u32 (m_viewChangeCounter s + 1)) (m_candidateLeaderIndex s) (m_cumulativeFaultyLeaders s0 ++ [f]) = begun c s f) as ->
    by (unfold begun; fold s0; by rewrite Hcn, Hix).
  destruct (CalculateNewLeaderIndex c (begun c s f) fuel) as [index|] eqn:Ei;
    [|split; [done|intros (f' & i & cd & [= <-] & Hi & _); congruence]].
  cbn [mbind outcome_bind]. fold (chosen c s f index).
  destruct (begun_fields c s f Hl) as (_ & _ & _ & Hcom & Hlk & _ & _).
  change (vs_DSCommittee (vs_set_round (begun c s f) (m_viewChangeCounter (begun c s f)) index (m_cumulativeFaultyLeaders (begun c s f))))
    with (vs_DSCommittee (begun c s f)).
  replace (vs_DSCommittee (chosen c s f index)) with (vs_DSCommittee s) by done; rewrite ?Hcom, (me_view _ _ _ Hm), at_fmap. destruct (at_ G index) as [cand|] eqn:Ec;
    [|split; [done|intros (f' & i & cd & [= <-] & Hi & Hcd & _); rewrite Ei in Hi; injection Hi as <-; congruence]].
  cbn [mbind outcome_bind]. rewrite (own_view_empty G c s cand Hr Hm (at_In _ _ _ Ec)).
  change (vs_set_round (begun c s f) (m_viewChangeCounter (begun c s f)) index (m_cumulativeFaultyLeaders (begun c s f))) with (chosen c s f index).
  assert (vs_links (chosen c s f index) = vs_links s) as Hlk' by (rewrite <- Hlk; done).
  assert (vs_DSCommittee (chosen c s f index) = own_view (vx_selfKey c) <$> G) as Hcom' by (rewrite <- (me_view _ _ _ Hm), <- Hcom; done).
  destruct (PubKey_eq cand.1 (vx_selfKey c)) eqn:Hself.
  - unfold ComputeNewCandidateLeader. rewrite Hl, Hcom', at_fmap, Ec, Hlk'. cbn [mbind outcome_bind].
    destruct (GetLatestBlockLink (vs_links s)) as [link|] eqn:El; cbn [mbind outcome_bind].
    + rewrite (real_own_view G c s cand Hr Hm (at_In _ _ _ Ec)), own_view_key.
      fold (GetDSCommitteeHash (own_view (vx_selfKey c) <$> G)). split.
      * intros [= <-]. exists f, index, cand. rewrite Hself. repeat (split; [done|]). exists link. split; [done|]. unfold vc_header. by rewrite Hcom'.
      * intros (f' & i & cd & [= <-] & Hi & Hcd & Hs'). rewrite Ei in Hi. injection Hi as <-. rewrite Ec in Hcd. injection Hcd as <-.
        rewrite Hself in Hs'. destruct Hs' as (link' & [= <-] & ->). unfold vc_header. by rewrite Hcom'.
    + split; [done|]. intros (f' & i & cd & [= <-] & Hi & Hcd & Hs'). rewrite Ei in Hi. injection Hi as <-. rewrite Ec in Hcd.
      injection Hcd as <-. rewrite Hself in Hs'. by destruct Hs' as (link' & ? & _).
  - cbn [mbind outcome_bind]. split.
    + intros [= <-]. exists f, index, cand. rewrite Hself. by repeat (split; [done|]).
    + intros (f' & i & cd & [= <-] & Hi & Hcd & Hs'). rewrite Ei in Hi. injection Hi as <-. rewrite Ec in Hcd. injection Hcd as <-.
      rewrite Hself in Hs'. by subst s'.
Qed.

(** ** The checks *)

Lemma node_eqb_refl n : m_P n.1 <> inf -> node_eqb n n = true.
Proof. intros Hn. unfold node_eqb. rewrite Peer_eqb_refl, andb_true_r. by apply PubKey_eq_spec. Qed.

Lemma nodes_eqb_refl l : Forall (fun n => m_P n.1 <> inf) l -> nodes_eqb l l = true.
Proof. induction 1 as [|n l Hn _ IH]; [done|]. cbn [nodes_eqb]. by rewrite node_eqb_refl, IH. Qed.

Lemma own_address_id self l : Forall (fun n => Peer_eqb n.2 Peer_default = false) l -> own_address self l = l.
Proof. induction 1 as [|n l Hn _ IH]; [done|]. cbn [own_address]. by rewrite Hn, IH. Qed.

Lemma own_view_hash c s G : member c s G -> GetDSCommitteeHash (vs_DSCommittee s) = GetDSCommitteeHash G.
Proof. intros Hm. unfold GetDSCommitteeHash. by rewrite (me_view _ _ _ Hm), own_view_keys. Qed.

Definition vc_states : list DirStates := [DSBLOCK_CONSENSUS_PREP; DSBLOCK_CONSENSUS; FINALBLOCK_CONSENSUS_PREP; FINALBLOCK_CONSENSUS].

Lemma same_state_valid x : x ∈ vc_states -> ValidateViewChangeState false x (DirState_value x) = true.
Proof. unfold vc_states. set_unfold. intros Hx. destruct x; try reflexivity; naive_solver. Qed.

Lemma latest_here ds epoch : CheckWhetherBlockIsLatest ds epoch (u64 (ds + 1)) epoch = true.
Proof. unfold CheckWhetherBlockIsLatest. by rewrite Z.gtb_ltb, Z.ltb_irrefl, Z.gtb_ltb, Z.ltb_irrefl. Qed.

(** The member [c], which is not the candidate, in the state [chosen], checks the block
    of the candidate that has the same roster, chain and round. *)
Lemma vc_validator_accepts c s G fuel index candidate link now clock `{Hmath : SafeMath} :
  roster_ok G -> member c s G -> Forall (fun n => n ∈ G) (m_cumulativeFaultyLeaders s) ->
  CalculateNewLeaderIndex c s fuel = Ret index -> at_ G index = Ret candidate -> PubKey_eq candidate.1 (vx_selfKey c) = false ->
  GetLatestBlockLink (vs_links s) = Ret link -> m_viewChangestate s ∈ vc_states ->
  VerifyTimestamp (vx_variance c) (vx_timeout c) now (vx_timeout c) clock = true ->
  let b := VCBlock_new now (vc_header c s link candidate) (CoSignatures_new 1) in
  ViewChangeValidator c s fuel (Some b) clock = Ret (true, vs_set_pending s (Some b)).
Proof.
  intros Hr Hm Hf Hi Hc Hn Hlk Hst Ht b. pose proof (at_In _ _ _ Hc) as Hin. unfold ViewChangeValidator. rewrite (me_lookup _ _ _ Hm).
  rewrite <- (CalculateNewLeaderIndex_same c s c (vs_set_pending s (Some b))) in Hi by done.
  replace (vs_DSCommittee (vs_set_pending s (Some b))) with (own_view (vx_selfKey c) <$> G) by (symmetry; apply (me_view _ _ _ Hm)).
  subst b. cbn -[CheckWhetherBlockIsLatest ValidateViewChangeState Peer_neqb].
  rewrite Z.eqb_refl, latest_here, bool_decide_eq_true_2, Ht by done. cbn [negb].
  rewrite <- (me_view _ _ _ Hm), bool_decide_eq_true_2 by done. cbn [negb]. rewrite Hlk. cbn [mbind outcome_bind].
  rewrite bool_decide_eq_true_2 by done. cbn [negb]. rewrite Hi. cbn [mbind outcome_bind]. rewrite (me_view _ _ _ Hm), at_fmap, Hc.
  cbn [mbind outcome_bind]. unfold own_view. rewrite Hn. unfold Peer_neqb. rewrite !Z.eqb_refl. cbn [negb orb].
  rewrite Forall_forall in Hf. pose proof (good_node_ok G candidate (ro_good _ Hr) Hin) as Hok.
  rewrite own_address_id, nodes_eqb_refl, (proj2 (PubKey_eq_spec _ _ Hok Hok)), same_state_valid; try done.
  - apply Forall_forall. intros n Hin'. apply (good_node_ok G); [apply Hr|by apply Hf].
  - apply Forall_forall. intros n Hin'. destruct Hr as [_ Ha _]. rewrite Forall_forall in Ha. apply Ha. by apply Hf.
Qed.

(** Whatever it answers, the validator only keeps the block. *)
Lemma validator_keeps c s fuel b clock ok s' `{Hmath : SafeMath} :
  vx_lookup c = false -> ViewChangeValidator c s fuel (Some b) clock = Ret (ok, s') -> s' = vs_set_pending s (Some b).
Proof.
  intros Hl. unfold ViewChangeValidator. rewrite Hl. cbn zeta.
  repeat match goal with |- context [if ?t then _ else _] => destruct t; [by intros [= _ <-]|] end.
  intros E. apply bind_Ret in E as (link & _ & E). destruct (negb _) in E; [by injection E as _ <-|].
  apply bind_Ret in E as (index & _ & E). apply bind_Ret in E as (cand & _ & E).
  repeat match type of E with context [if ?t then _ else _] => destruct t; [by injection E as _ <-|] end. by injection E as _ <-.
Qed.

(** A member that has itself as the candidate, by its listing, is it. *)
Lemma own_candidate c s G i cand :
  roster_ok G -> member c s G -> at_ G i = Ret cand -> at_ (vs_DSCommittee s) i = Ret (vx_selfKey c, Peer_default) ->
  PubKey_eq cand.1 (vx_selfKey c) = true.
Proof.
  intros Hr Hm Ec Hcand. pose proof (at_In _ _ _ Ec) as Hin. rewrite (me_view _ _ _ Hm), at_fmap, Ec in Hcand. injection Hcand as Hcand.
  by rewrite <- (own_view_empty G c s cand Hr Hm Hin), Hcand.
Qed.

(** The same faulty leader and the same candidate. *)
Lemma other_finds cA sA cB sB f fuel index :
  vx_lookup cA = false -> vx_lookup cB = false -> agree cA sA cB sB -> CalculateNewLeaderIndex cA (begun cA sA f) fuel = Ret index ->
  faulty_index sB = faulty_index sA /\ CalculateNewLeaderIndex cB (begun cB sB f) fuel = Ret index.
Proof.
  intros HlA HlB Ha Ei. split.
  - unfold faulty_index. by rewrite (sc_counter _ _ _ _ (ag_choice _ _ _ _ Ha)), (sc_leader _ _ _ _ (ag_choice _ _ _ _ Ha)), (ag_index _ _ _ _ Ha).
  - rewrite (CalculateNewLeaderIndex_same cA (begun cA sA f)); [done|]. by apply agree_begun.
Qed.

Lemma vc_header_same G cA sA cB sB link candidate :
  member cA sA G -> member cB sB G -> agree cA sA cB sB -> vc_header cB sB link candidate = vc_header cA sA link candidate.
Proof.
  intros HmA HmB [[] _ _ Hf]. unfold vc_header. rewrite (own_view_hash _ _ _ HmA), (own_view_hash _ _ _ HmB). congruence.
Qed.

(** C20: a view change goes through.  Take two members of a committee [G] that agree on
    the chain and on the round: the first becomes the candidate and proposes its block.
    The other one, in its own run, notes the same faulty leader and computes the same
    candidate, which is not the leader; its validator accepts the block, if its clock
    allows the time stamp; and the two agree on the round again, so that the next view
    change, if this one fails, starts from the same state.  What the members list
    differs: each has the empty address for itself. *)
Theorem honest_viewchange_accepted G cA sA cB sB fuel now nowB clock sA' `{Hmath : SafeMath} :
  roster_ok G -> member cA sA G -> member cB sB G -> agree cA sA cB sB -> vx_selfKey cB <> vx_selfKey cA ->
  Forall (fun n => n ∈ G) (m_cumulativeFaultyLeaders sA) ->
  RunConsensusOnViewChange cA sA fuel true now = Ret (true, sA') ->
  at_ (vs_DSCommittee sA') (m_candidateLeaderIndex sA') = Ret (vx_selfKey cA, Peer_default) ->
  m_viewChangestate sA' ∈ vc_states ->
  VerifyTimestamp (vx_variance cB) (vx_timeout cB) now (vx_timeout cB) clock = true ->
  exists b sB' sB'', m_pendingVCBlock sA' = Some b /\ RunConsensusOnViewChange cB sB fuel true nowB = Ret (true, sB') /\
    ViewChangeValidator cB sB' fuel (Some b) clock = Ret (true, sB'') /\ m_pendingVCBlock sB'' = Some b /\
    agree cA sA' cB sB'' /\ m_candidateLeaderIndex sB'' <> m_consensusLeaderID sB'' /\
    member cA sA' G /\ member cB sB'' G /\ Forall (fun n => n ∈ G) (m_cumulativeFaultyLeaders sA').
Proof.
  intros Hr HmA HmB Ha Hne Hf Hrun Hcand Hst Ht. pose proof (me_lookup _ _ _ HmA) as HlA. pose proof (me_lookup _ _ _ HmB) as HlB.
  apply (run_iff cA sA G) in Hrun as (f & index & cand & Ef & Ei & Ec & Hrun); [|done..].
  pose proof (agree_chosen _ _ _ _ f index HlA HlB Ha) as Hac.
  assert (member cA (chosen cA sA f index) G /\ member cB (chosen cB sB f index) G) as [HcA HcB].
  { split; [eapply (member_fields _ sA)|eapply (member_fields _ sB)]; try done; by apply begun_fields. }
  pose proof (at_In _ _ _ Ec) as Hin.
  assert (m_cumulativeFaultyLeaders (chosen cA sA f index) = m_cumulativeFaultyLeaders sA ++ [f] /\ vs_links (chosen cA sA f index) = vs_links sA) as [HfA HlkA]
    by (split; by apply begun_fields).
  assert (PubKey_eq cand.1 (vx_selfKey cA) = true) as HkA.
  { destruct (PubKey_eq cand.1 (vx_selfKey cA)) eqn:E; [done|]. subst sA'. unfold vc_SetState in Hcand. rewrite HlA in Hcand.
    rewrite <- E. by apply (own_candidate cA (chosen cA sA f index) G index). }
  rewrite HkA in Hrun. destruct Hrun as (link & Elk & ->). pose proof (self_node G cA sA cand Hr HmA Hin HkA) as Hself.
  assert (PubKey_eq cand.1 (vx_selfKey cB) = false) as HkB.
  { destruct (PubKey_eq cand.1 (vx_selfKey cB)) eqn:E; [|done]. pose proof (self_node G cB sB cand Hr HmB Hin E). congruence. }
  set (b := VCBlock_new now (vc_header cA (chosen cA sA f index) link cand) (CoSignatures_new 1)).
  set (sB' := vc_SetState cB (chosen cB sB f index) VIEWCHANGE_CONSENSUS).
  destruct (other_finds cA sA cB sB f fuel index HlA HlB Ha Ei) as [Hfi EiB].
  assert (Forall (fun n => n ∈ G) (m_cumulativeFaultyLeaders sA ++ [f])) as Hf' by (apply Forall_app; split; [done|]; apply Forall_singleton, (at_In _ _ _ Ef)).
  exists b, sB', (vs_set_pending sB' (Some b)).
  assert (sB' = vs_set_state (chosen cB sB f index) VIEWCHANGE_CONSENSUS (m_viewChangestate (chosen cB sB f index))) as EsB
    by (unfold sB', vc_SetState; by rewrite HlB).
  unfold vc_SetState in *. rewrite HlA in *. split_and!.
  - done.
  - apply (run_iff cB sB G); [done..|]. exists f, index, cand. rewrite Hfi, HkB. done.
  - unfold b. rewrite <- (vc_header_same G cA _ cB (chosen cB sB f index)) by done.
    replace (vc_header cB (chosen cB sB f index) link cand) with (vc_header cB sB' link cand) by (by rewrite EsB).
    apply (vc_validator_accepts cB sB' G fuel index).
    + done.
    + rewrite EsB. by eapply member_fields.
    + rewrite EsB. cbn [vs_set_state m_cumulativeFaultyLeaders]. by rewrite (ag_faulty _ _ _ _ Hac), HfA.
    + rewrite <- EiB. symmetry. apply CalculateNewLeaderIndex_same. rewrite EsB. by split.
    + done.
    + done.
    + rewrite EsB. cbn [vs_set_state vs_links]. by rewrite (sc_links _ _ _ _ (ag_choice _ _ _ _ Hac)), HlkA.
    + rewrite EsB. cbn [vs_set_state m_viewChangestate]. by rewrite (sc_viewState _ _ _ _ (ag_choice _ _ _ _ Hac)).
    + done.
  - done.
  - rewrite EsB. destruct Hac as [[] ? ? ?]. by repeat split.
  - rewrite EsB. exact (candidate_other _ _ _ _ EiB).
  - by eapply member_fields.
  - rewrite EsB. by eapply member_fields.
  - cbn [vs_set_state vs_set_pending m_cumulativeFaultyLeaders]. by rewrite HfA.
Qed.

(** ** The new committee *)

Lemma find_index_unique {A} (p : A -> bool) l i x :
  l !! i = Some x -> p x = true -> (forall j y, l !! j = Some y -> p y = true -> j = i) -> find_index p l = Some (Z.of_nat i).
Proof.
  revert i. induction l as [|y l IH]; intros i Hi Hp Hu; [done|]. cbn [find_index]. destruct (p y) eqn:Ey.
  - by rewrite <- (Hu 0%nat y eq_refl Ey).
  - destruct i as [|i]; [cbn in Hi; congruence|]. rewrite (IH i Hi Hp); [cbn; f_equal; lia|].
    intros j z Hj Hz. specialize (Hu (S j) z Hj Hz). lia.
Qed.

Lemma to_back_perm G f : good_nodes G -> f ∈ G -> to_back G f ≡ₚ G.
Proof.
  intros Hg Hf. unfold to_back. rewrite <- Permutation_cons_append.
  pose proof (erase_first_filter G (fun n => PubKey_eq n.1 f.1) f Hg Hf) as He.
  pose proof (good_node_ok _ _ Hg Hf) as Hok. specialize (He (proj2 (PubKey_eq_spec _ _ Hok Hok) eq_refl)).
  assert (forall m, m ∈ G -> PubKey_eq m.1 f.1 = true -> m.1 = f.1) as Hk
    by (intros m Hm Hk; apply PubKey_eq_spec in Hk; [done|by eapply good_node_ok|done]).
  specialize (He Hk). destruct (erase_first_perm _ _ _ He) as (x & Hx & Hperm).
  assert (x ∈ G) as Hin by (rewrite Hperm; by left).
  rewrite (good_node_key G x f Hg Hin Hf (Hk x Hin Hx)) in Hperm. by symmetry.
Qed.

Lemma to_backs_perm G faulty : good_nodes G -> Forall (fun n => n ∈ G) faulty -> foldl to_back G faulty ≡ₚ G.
Proof.
  revert G. induction faulty as [|f faulty IH]; intros G Hg Hf; [done|]. apply Forall_cons in Hf as [Hf Hfs]. cbn [foldl].
  pose proof (to_back_perm G f Hg Hf) as Hp. rewrite IH; [done|eapply good_nodes_keys; [by rewrite Hp|done]|].
  eapply Forall_impl; [exact Hfs|]. intros n Hn. by rewrite Hp.
Qed.

Lemma roster_perm G G' : G' ≡ₚ G -> roster_ok G -> roster_ok G'.
Proof.
  intros Hp [Hg Ha Hd]. split; [eapply good_nodes_keys; [by rewrite Hp|done]|by rewrite Hp|]. intros n m. rewrite Hp. apply Hd.
Qed.

(** A member is found in a listing at its own place. *)
Lemma find_listed G self n i p :
  good_nodes G -> m_P self <> inf -> G !! i = Some n -> Peer_eqb (own_view self n).2 p = true ->
  find_index (fun m => node_eqb m (n.1, p)) (own_view self <$> G) = Some (Z.of_nat i).
Proof.
  intros Hg Hs Hi Hp. pose proof (good_node_ok _ _ Hg (list_elem_of_lookup_2 _ _ _ Hi)) as Hok.
  apply (find_index_unique _ _ i (own_view self n)).
  - by rewrite list_lookup_fmap, Hi.
  - unfold node_eqb. rewrite own_view_key. cbn [fst snd]. rewrite Hp, andb_true_r. by apply PubKey_eq_spec.
  - intros j y Hj [Hy _]%andb_true_iff. rewrite list_lookup_fmap in Hj. destruct (G !! j) as [m|] eqn:Ej; [|done].
    injection Hj as <-. rewrite own_view_key in Hy. cbn [fst] in Hy.
    apply PubKey_eq_spec in Hy; [|by apply (good_node_ok G), (list_elem_of_lookup_2 _ j)|done]. by eapply key_index; [apply Hg|..].
Qed.

(** The block with the co-signatures of the consensus. *)
Definition decided (pending : VCBlock) (cosigs : CoSignatures) : VCBlock :=
  mkVCBlock (mkBlockBase (bb_blockHash (vcb_base pending)) cosigs (bb_timestamp (vcb_base pending))) (vcb_header pending).

Lemma cosig_check_true keys cosigs header :
  cosig_check keys cosigs header = Ret true -> exists signers n K hd msg, collect_signers (cs_B2 cosigs) keys 0 = Ret (signers, n) /\
    AggregatePubKeys signers = Some K /\ header = Some hd /\ cosigned_message hd cosigs = Ret msg /\
    MultiSigVerifyRange msg 0 (u32 (zlen msg)) (cs_CS2 cosigs) K = true.
Proof.
  unfold cosig_check. destruct (negb _); [done|]. intros E. apply bind_Ret in E as ([signers n] & E1 & E). destruct (negb _); [done|].
  destruct (AggregatePubKeys signers) as [K|] eqn:EK; [|done]. destruct header as [hd|]; [|done]. apply bind_Ret in E as (msg & E2 & [= E3]).
  by exists signers, n, K, hd, msg.
Qed.

(** Being the candidate, by key and address. *)
Lemma is_candidate G i my n m :
  good_nodes G -> G !! i = Some n -> G !! my = Some m -> PubKey_eq n.1 m.1 && Peer_eqb n.2 m.2 = bool_decide (i = my).
Proof.
  intros Hg Hi Hmy. pose proof (good_node_ok _ _ Hg (list_elem_of_lookup_2 _ _ _ Hi)) as Hn.
  pose proof (good_node_ok _ _ Hg (list_elem_of_lookup_2 _ _ _ Hmy)) as Hm. case_bool_decide as E.
  - subst my. rewrite Hi in Hmy. injection Hmy as ->. rewrite Peer_eqb_refl, andb_true_r. by apply PubKey_eq_spec.
  - apply andb_false_iff. left. apply not_true_is_false. intros Hk%PubKey_eq_spec; [|done..]. by apply E, (key_index _ _ _ _ _ (proj2 Hg) Hi Hmy).
Qed.

Lemma index_u16 {A} (l : list A) i x : zlen l < 2 ^ 16 -> l !! i = Some x -> u16 (Z.of_nat i) = Z.of_nat i.
Proof. intros Hz Hi%lookup_lt_Some. apply wrap_small. unfold in_range, zlen in *. lia. Qed.

(** The committee after a view change: the faulty leaders are at the back, one after the
    other; in guard mode the order stays. *)
Definition next_committee (guard : bool) G (faulty : DequeOfNode) : DequeOfNode := if guard then G else foldl to_back G faulty.

Lemma next_committee_perm guard G faulty : good_nodes G -> Forall (fun n => n ∈ G) faulty -> next_committee guard G faulty ≡ₚ G.
Proof. destruct guard; [done|apply to_backs_perm]. Qed.

(** The faulty leaders are moved on the member's own listing. *)
Lemma member_ejects G c s faulty :
  roster_ok G -> member c s G -> Forall (fun n => n ∈ G) faulty ->
  ds_eject_faulty (vx_selfPeer c) (vx_guard c) (vs_DSCommittee s) faulty = own_view (vx_selfKey c) <$> next_committee (vx_guard c) G faulty.
Proof.
  intros Hr Hm Hf. destruct (vx_guard c); [apply (me_view _ _ _ Hm)|]. unfold next_committee. pose proof (me_self _ _ _ Hm) as Hs. pose proof (good_node_ok _ _ (ro_good _ Hr) Hs) as Hok.
  rewrite (me_view _ _ _ Hm). apply own_listing_agrees; [apply Hr|done|..]; eapply Forall_impl; try exact Hf; intros n Hn.
  - exists n. split; [done|]. by rewrite Peer_eqb_refl.
  - split.
    + intros E. by rewrite (ro_distinct _ Hr n _ Hn Hs E).
    + intros E. rewrite (good_node_key G n _ (ro_good _ Hr) Hn Hs E). apply Peer_eqb_refl.
Qed.

(** Up to the record of the block. *)
Lemma done_records G c s pending cosigs :
  roster_ok G -> member c s G -> zlen G < 2 ^ 16 -> m_pendingVCBlock s = Some pending ->
  let b := decided pending cosigs in
  let candidate := (vch_CandidateLeaderPubKey (vcb_header b), vch_CandidateLeaderNetworkInfo (vcb_header b)) in
  let G' := next_committee (vx_guard c) G (vch_FaultyLeaders (vcb_header b)) in
  VerifyVCBlockCoSignature G b = Ret true -> Forall (fun n => n ∈ G) (vch_FaultyLeaders (vcb_header b)) ->
  forall i my, G' !! i = Some candidate -> G' !! my = Some (vx_selfKey c, vx_selfPeer c) ->
  let comm := own_view (vx_selfKey c) <$> G' in
  view_change_done c s cosigs =
    record_vcblock c (resume c (vs_set_committee (vs_set_pending (CleanUpViewChange s false) (Some b))
      (if decide (i = my) then PRIMARY_DS else BACKUP_DS) comm (Z.of_nat my) (Z.of_nat i)
      (mkNodeIds comm (Z.of_nat my) (Z.of_nat i) (Z.of_nat my =? Z.of_nat i))) (vch_ViewChangeState (vcb_header b))) b.
Proof.
  intros Hr Hm Hsz Hp b candidate G' Hv Hf i my Hi Hmy comm. pose proof (next_committee_perm (vx_guard c) G _ (ro_good _ Hr) Hf) as Hperm.
  fold G' in Hperm.
  pose proof (roster_perm _ _ Hperm Hr) as Hr'. pose proof (good_node_ok _ _ (ro_good _ Hr') (list_elem_of_lookup_2 _ _ _ Hmy)) as Hok.
  pose proof (good_node_ok _ _ (ro_good _ Hr') (list_elem_of_lookup_2 _ _ _ Hi)) as Hokc. cbn [fst] in Hok.
  unfold view_change_done, ProcessViewChangeConsensusWhenDone. rewrite (me_lookup _ _ _ Hm).
  change (m_pendingVCBlock (CleanUpViewChange s false)) with (m_pendingVCBlock s). rewrite Hp. fold (decided pending cosigs). fold b.
  apply cosig_check_true in Hv as (signers & n & K & hd & msg & E1 & E2 & E3 & E4 & E5). cbn zeta.
  change (vs_DSCommittee (vs_set_pending (CleanUpViewChange s false) (Some b))) with (vs_DSCommittee s).
  rewrite (member_ejects G c s _ Hr Hm Hf). fold G' comm.
  rewrite (me_view _ _ _ Hm), own_view_keys. change cosigs with (bb_cosigs (vcb_base b)). rewrite E1. cbn [mbind outcome_bind].
  rewrite E2, E3, E4. cbn [mbind outcome_bind]. rewrite E5. cbn [negb].
  assert (zlen G' < 2 ^ 16) as Hsz' by (unfold zlen in *; by rewrite Hperm).
  pose proof (is_candidate G' i my _ _ (ro_good _ Hr') Hi Hmy) as Hself. cbn [fst snd candidate] in Hself.
  rewrite (andb_comm (Peer_eqb _ _)), Hself.
  change (vx_selfKey c, Peer_default) with ((vx_selfKey c, vx_selfPeer c).1, Peer_default).
  unfold comm at 1. rewrite (find_listed G' _ _ my); [|apply Hr'|done|done|].
  2:{ unfold own_view. cbn [fst]. by rewrite (proj2 (PubKey_eq_spec _ _ Hok Hok) eq_refl). }
  rewrite (index_u16 G' my _ Hsz' Hmy). destruct (decide (i = my)) as [->|Hne];
    [by rewrite bool_decide_eq_true_2|rewrite bool_decide_eq_false_2 by done].
  replace (vch_CandidateLeaderPubKey (vcb_header b), vch_CandidateLeaderNetworkInfo (vcb_header b)) with (candidate.1, candidate.2) by done.
  unfold comm at 1. rewrite (find_listed G' _ _ i); [|apply Hr'|done|done|].
  2:{ unfold own_view. destruct (PubKey_eq candidate.1 (vx_selfKey c)) eqn:Ek; [|apply Peer_eqb_refl]. exfalso. apply PubKey_eq_spec in Ek; [|done..].
      by apply Hne, (key_index _ _ _ _ _ (proj2 (ro_good _ Hr')) Hi Hmy). }
  cbn [fmap option_fmap option_map]. by rewrite (index_u16 G' i _ Hsz' Hi).
Qed.

(** The record of the block touches nothing but the chain and the storage. *)
Lemma record_effect c s b links `{!LinkProtoSpec} `{!leveldbSpec DB} :
  links_refine (vx_BLOCKLINK_VERSION c) (vs_links s) (st_db (vs_storage s) BLOCKLINK) links -> links <> [] -> zlen links < 2 ^ 63 ->
  m_open (st_db (vs_storage s) VC_BLOCK) = true ->
  exists ok links' storage' blocks', record_vcblock c s b = Ret (ok, vs_set_chain s links' storage' blocks') /\
    GetLatestBlockLink links' =
      Ret (mkLink (vx_BLOCKLINK_VERSION c) (zlen links) (vch_VieWChangeDSEpochNo (vcb_header b)) (BlockType_value BT_VC) (bb_blockHash (vcb_base b))) /\
    blocks' = if ok && IsDSBlockVCState (vch_ViewChangeState (vcb_header b)) then m_VCBlockVector s ++ [b] else m_VCBlockVector s.
Proof.
  intros Hl Hne Hsz Ho. pose proof (lr_size _ _ _ _ Hl) as Hs. pose proof (lr_back _ _ _ _ Hl Hne) as (l & Hback & Hix).
  assert (0 < zlen links) as Hpos by (unfold zlen; destruct links; [done|cbn; lia]).
  unfold record_vcblock, GetLatestIndex at 1. rewrite Hs. destruct (Z.eqb_spec (zlen links) 0); [lia|]. rewrite Hback. cbn [mbind outcome_bind].
  rewrite Hix. replace (u64 (zlen links - 1 + 1)) with (zlen links) by (symmetry; rewrite Z.sub_add; apply wrap_small; unfold in_range; lia).
  destruct (AddBlockLink_accept (vx_BLOCKLINK_VERSION c) (vs_links s) _ links (zlen links) (vch_VieWChangeDSEpochNo (vcb_header b))
    (BlockType_value BT_VC) (bb_blockHash (vcb_base b)) Hl ltac:(lia) ltac:(done)) as (ok & db & links' & _ & -> & _ & _ & _ & Hb' & _).
  cbn [mbind outcome_bind]. unfold PutVCBlock, on_db, Insert_hash.
  destruct (insert_key_open (st_db (set_store (vs_storage s) BLOCKLINK db) VC_BLOCK) (hex (bb_blockHash (vcb_base b))) (to_bytes b) Ho)
    as (ret & l' & -> & _). cbn [mbind outcome_bind]. by eexists _, _, _, _.
Qed.


(** The state that the directory goes on in. *)
Definition resumed (viewChangeState : Z) (x : DirStates) : DirStates :=
  if IsDSBlockVCState viewChangeState then DSBLOCK_CONSENSUS_PREP
  else if is_final_state viewChangeState then FINALBLOCK_CONSENSUS_PREP else x.

Lemma resume_eq c s v : vx_lookup c = false -> resume c s v = vs_set_state s (resumed v (vs_state s)) (m_viewChangestate s).
Proof. intros Hl. unfold resume, resumed, vc_SetState. rewrite Hl. destruct (IsDSBlockVCState v), (is_final_state v); by destruct s. Qed.

(** C19: all members end a view change with the same committee and the same leader.
    When a co-signed block, whose candidate and faulty leaders are of the committee [G],
    is decided, the handler of each member returns, and leaves it with the
    committee in which the faulty leaders have gone to the back, or, in guard mode, with
    the committee as it was ([next_committee]), each member in its own listing; the leader's number is the place
    of the candidate in that committee, the own number that of the member itself, and the one that finds
    itself at the leader's place, and nobody else, is the primary.  The consensus that
    was interrupted starts again, and the next link of the chain is the block. *)
Theorem viewchange_same_committee G c s pending cosigs links `{!LinkProtoSpec} `{!leveldbSpec DB} :
  roster_ok G -> member c s G -> zlen G < 2 ^ 16 -> m_pendingVCBlock s = Some pending ->
  let h := vcb_header pending in
  let candidate := (vch_CandidateLeaderPubKey h, vch_CandidateLeaderNetworkInfo h) in
  let G' := next_committee (vx_guard c) G (vch_FaultyLeaders h) in
  VerifyVCBlockCoSignature G (decided pending cosigs) = Ret true -> candidate ∈ G -> Forall (fun n => n ∈ G) (vch_FaultyLeaders h) ->
  links_refine (vx_BLOCKLINK_VERSION c) (vs_links s) (st_db (vs_storage s) BLOCKLINK) links -> links <> [] -> zlen links < 2 ^ 63 ->
  m_open (st_db (vs_storage s) VC_BLOCK) = true ->
  G' ≡ₚ G /\ roster_ok G' /\
  exists i my ok s', view_change_done c s cosigs = Ret (ok, s') /\
    G' !! i = Some candidate /\ G' !! my = Some (vx_selfKey c, vx_selfPeer c) /\
    member c s' G' /\ m_consensusLeaderID s' = Z.of_nat i /\ m_consensusMyID s' = Z.of_nat my /\
    vs_mode s' = (if decide (i = my) then PRIMARY_DS else BACKUP_DS) /\
    vs_node s' = mkNodeIds (vs_DSCommittee s') (Z.of_nat my) (Z.of_nat i) (Z.of_nat my =? Z.of_nat i) /\
    vs_state s' = resumed (vch_ViewChangeState h) (vs_state s) /\
    GetLatestBlockLink (vs_links s') =
      Ret (mkLink (vx_BLOCKLINK_VERSION c) (zlen links) (vch_VieWChangeDSEpochNo h) (BlockType_value BT_VC) (bb_blockHash (vcb_base pending))).
Proof.
  intros Hr Hm Hsz Hp h candidate G' Hv Hc Hf Hl Hne Hls Ho. pose proof (next_committee_perm (vx_guard c) G _ (ro_good _ Hr) Hf) as Hperm. fold G' in Hperm.
  split; [done|]. split; [by eapply roster_perm|].
  assert (candidate ∈ G') as [i Hi]%list_elem_of_lookup by (by rewrite Hperm).
  pose proof (me_self _ _ _ Hm) as Hs. rewrite <- Hperm in Hs. pose proof Hs as [my Hmy]%list_elem_of_lookup.
  pose proof (done_records G c s pending cosigs Hr Hm Hsz Hp Hv Hf i my Hi Hmy) as Hdone.
  cbn zeta in Hdone. rewrite resume_eq in Hdone by apply Hm.
  match type of Hdone with _ = record_vcblock _ ?s1 ?b =>
    destruct (record_effect c s1 b links Hl Hne Hls Ho) as (ok & links' & storage' & blocks' & Hrec & Hlast & _) end.
  rewrite Hrec in Hdone. eexists i, my, ok, _. split; [exact Hdone|]. split_and!; try done. split; [apply Hm|done|done].
Qed.

End views.
